(* ===== verification/_CoqProject ===== *)
-Q . S2P
Prelude.v
Bytes.v
Sha256.v
GoTime.v
Codec.v
Merkle.v
Store.v
Executor.v
StateTypes.v
Messages.v
Block.v
Interfaces.v
GoFloat.v
Crypto.v
CryptoRuns.v
Genesis.v
GenesisRuns.v
Encoder.v
Validation.v
Quorum.v
ConsensusStorage.v
HotStuff.v
HotStuffInv.v
HotStuffRuns.v
GoStrings.v
GoJson.v
GoText.v
GoNet.v
Heap.v
Mempool.v
MempoolSpec.v
MempoolRuns.v
FairShare.v
Builder.v
Ingest.v
IngestRuns.v
Replay.v
Consumer.v
ConsumerRuns.v
Lifecycle.v
LifecycleRuns.v
Peers.v
PeersRuns.v
AgentPolicy.v
AgentStore.v
AgentController.v
AgentLoops.v
AgentRuns.v
AgentProps.v
AgentDemo.v
PersistWorker.v
Persistence.v
Service.v
ServiceRuns.v
Validators.v
Rotation.v
Pacemaker.v
PacemakerInv.v
PacemakerRuns.v
Wire.v
Heartbeat.v
Activation.v
Engine.v
EngineInv.v
EngineRuns.v
EngineSafety.v
EngineDemo.v
EngineProps.v
EngineAttacks.v
Interleaving.v
