(* ===== verification/Prelude.v ===== *)
(** * CyberMesh: a verified model of the replicated backend and the enforcement agent

    CyberMesh is a service whose replicas (src/backend) agree, by a two-chain
    HotStuff protocol, on blocks of security transactions (events, evidence and
    policies) and apply each committed block to a versioned key-value state with
    a Merkle root.  This library models the Go code of a replica, from the
    admission of a transaction to the commit of its block, and of the agent that
    enforces the committed policies on a host (src/enforcement-agent), and proves
    what they promise.  Paths below are under src/backend/pkg/, those of the agent
    under src/enforcement-agent/internal/.

    ** How the parts interact

    The AI service sends its findings over Kafka.  The consumer ([Consumer]) decodes
    and verifies each message ([Ingest]), asks the replay filter ([Replay]) and the
    lifecycle gate ([Lifecycle]) and adds the transaction to the mempool
    ([Mempool]), retrying what the mempool refuses for the moment; an accepted
    policy then takes the one it supersedes out again.  From the mempool the leader
    of a view takes a block ([Builder], [Block]) that the node proposes.  A network
    message is decoded and its signature verified by the encoder ([Encoder]),
    checked against the consensus rules by the validator ([Validation]) and handed
    by the engine ([Engine]) to the HotStuff core ([HotStuff]), to the pacemaker
    ([Pacemaker]) or to the heartbeat manager ([Heartbeat]).  The core keeps
    proposals, votes and certificates in the consensus store ([ConsensusStorage]),
    counts votes with the quorum arithmetic ([Quorum]) and, by the two-chain rule,
    commits blocks; the pacemaker moves both to the next view on certificates and
    on timeouts; the rotation ([Rotation]) names the leader of a view from the
    node's validator set ([Validators]).  Consensus starts with the certificate of
    the genesis ceremony ([Genesis]), once the activation gates ([Activation]) are
    passed.  A committed block goes to the service ([Service]): its transactions run
    through the executor ([Executor]) in one transaction of the versioned store
    ([Store]), which publishes a new version with its Merkle root ([Merkle]); they
    leave the mempool and enter the replay filter ([Replay]), and the block is queued
    for the database ([Persistence], [PersistWorker]).  Signatures are made and
    verified by the node's cryptographic service ([Crypto]).  The network layer keeps
    a record of every peer ([Peers]), which decides whose messages are taken and
    whether enough peers are there to propose.

    Committed policies are published to the agents.  An agent verifies and reads an
    event ([AgentPolicy]); its controller ([AgentController]) asks replay protection,
    approvals, guardrails and the lanes, has the backend of the host apply or remove the
    policy and files a record of it in the store ([AgentStore]); fast mitigations come by
    a channel of their own, before consensus.  Scheduler and reconciler ([AgentLoops])
    take expired policies out and apply the stored ones again.

    ** Files and what they model

    Foundations.
    - [Prelude] (this file): the error and state-error monads with their
      invariant rule [keeps], tactics and list lemmas.
    - [Bytes], [Sha256], [GoTime], [GoFloat], [GoStrings], [GoJson], [GoText], [GoNet],
      [Heap]: what the code uses of Go's library, executable: byte strings and w-bit
      integers, SHA-256, [time], [float64], [strings], [encoding/json] into a
      [map[string]any], [strconv] and the formats of times, [net] and [net/netip],
      [container/heap].
    - [Interfaces]: classes for what a component calls: the expirable LRU cache,
      the signature service, the validator set, each with its laws and a concrete
      instance the witnesses use.
    - [Crypto] (utils/crypto.go, consensus/api/util_adapters.go): keys and their
      rotation, signatures with a replay cache, encryption; [CryptoRuns] its
      properties, and the proof that it is a signature service with those laws.

    State (state/).
    - [Codec] (codec.go, model.go): limits, clock skew, canonical bytes, hashes,
      the three transaction kinds.
    - [Merkle] (merkle.go, query.go): [BuildRoot], proofs and [VerifyProof].
    - [Store] (store.go, snapshot.go): [MemStore] and [Txn].
    - [Executor] (executor.go, reducers.go, query.go): [ApplyBlock] with its
      reducers and receipts, the queries; [StateTypes]: the types of the records
      of every version.

    Messages of the AI service.
    - [Ingest] (ingest/kafka/schema.go, verifier.go, utils/timestamp_normalize.go):
      decoding, validation and verification, the priority class of a policy;
      [IngestRuns] what the checks establish and what a signature does not bind.
    - [Consumer] (ingest/kafka/consumer.go, preadmit.go, admission_helpers.go,
      consumercontract/contract.go): a message from its delivery to its mark, with
      the hooks as parameters; [ConsumerRuns] its properties for any hooks.
    - [Lifecycle] (wiring/service_lifecycle.go): the compaction of policy intents and
      the hooks of the service; [LifecycleRuns] the path of a message through them.

    Transactions and blocks.
    - [Mempool] (mempool/): admission, eviction, selection; [MempoolSpec] the
      abstract queue it implements, [MempoolRuns] its properties over runs.
    - [Block] (block/types.go): blocks, their header hash and their wire form;
      [Builder] (block/builder.go): the leader's choice of transactions; its last
      step is [FairShare], proved against the contract [PickerLaws] of the function
      that takes one transaction.

    The service around the engine (wiring/).
    - [Replay] (replay_filter.go, replay_refresh.go, the holds of proposer.go): the
      filter of committed transactions and the holds on proposed ones.
    - [PersistWorker] (persistence_worker.go): the queue of blocks to write, its
      workers as a step relation, the attempts at one write.
    - [Persistence] (commit_handler.go, persistence_backfill.go, background_backoff.go):
      who writes a block, the direct fallback, the backfill.
    - [Service] (validator.go, commit_handler.go, proposer.go): what the node does with
      a committed block and when it proposes one; [ServiceRuns] runs of it.

    The consensus core (consensus/).
    - [Messages], [Encoder], [Validation] (messages/): the eleven message kinds
      with their sign bytes, decoding and signature checks, the consensus rules.
    - [Quorum] (pbft/quorum.go), [ConsensusStorage] (pbft/storage.go).
    - [HotStuff] (pbft/pbft.go): proposals, votes, certificates, the commit rule,
      view changes, recovery and the leader's path [CreateProposal] with its repair
      of certificates; [HotStuffInv] its invariants, [HotStuffRuns] runs of it.

    Views and leaders.
    - [Validators] (cmd/cybermesh/main.go), [Rotation] (consensus/leader/
      rotation*.go): the validator set with its activity, and leader selection.
    - [Pacemaker] (consensus/leader/leader.go), [PacemakerInv], [PacemakerRuns];
      [Interleaving] for handlers that release the lock half-way.
    - [Heartbeat] (consensus/leader/heartbeat.go), [Wire] (the publishers of
      consensus/api/).

    The network (p2p/).
    - [Peers] (state.go, and of router.go the validator, the gater, the counts and
      [PeerHash]): scores, quarantine, eviction; [PeersRuns] runs of it.

    The start of consensus (consensus/genesis/coordinator.go).
    - [Genesis]: the coordinator; [GenesisRuns] runs of it, with the verification of
      an attestation outside the lock as a step of its own.

    The engine of one node (consensus/api/engine.go).
    - [Activation]: readiness, the start of consensus, the proposal handshake.
    - [Engine]: the parts above composed by the handlers and callbacks;
      [EngineInv], [EngineRuns], [EngineSafety] its step relation and invariants,
      [EngineProps] and [EngineAttacks] its properties, [EngineDemo] a concrete
      engine for the witnesses.

    The enforcement agent (src/enforcement-agent/internal/).
    - [AgentPolicy] (policy/), [AgentStore] (state/store.go), [AgentController]
      (controller/, with ratelimit/ and the contract of enforcer/), [AgentLoops]
      (scheduler/, reconciler/, and the file of the store with its writers as a step
      relation); [AgentRuns] and [AgentProps] runs of an agent, [AgentDemo] concrete ones.

    ** Conventions

    A definition has the name of the Go function it translates; helpers for a
    part of a function are in lower case.  Unsigned and signed 64-bit values are
    [Z] with [u64]/[i64] where the code can wrap.  Clocks are arguments ([now]).
    A Go map iteration order is an argument or a class field that permutes the
    map; a logged and ignored error is [logged].  Where a method runs under its
    object's mutex a run is a sequence of calls ([run_hs_calls], [run_ops],
    [run_calls], [run_engine]); where the pacemaker releases its lock inside a
    handler, [Interleaving] makes the parts separate steps.  Third-party code
    (CBOR, the LRU cache, Ed25519, the SQL backend) is a class parameter.
    SHA-256 is not assumed collision free: theorems that depend on it exhibit the
    colliding inputs ([Collides]).

    ** What the theorems show

    - Agreement: [Quorum.qc_agreement] and [EngineProps.engine_commit_agreement]
      (no two blocks of one view are certified, none committed by two honest
      engines, when [N = 3f+1]), over [EngineProps.engine_certificates],
      [EngineProps.engine_votes_once]; [EngineProps.views_agree].
      [Quorum.fork_with_five_validators], [HotStuffRuns.double_vote_below_view_100]
      and [EngineAttacks] show where the assumptions of agreement are needed and
      where the code does not establish them.
    - Refinement: [EngineProps.engine_refines_core] (the engine is a run of a small
      relation over core and pacemaker) and [MempoolRuns.mempool_refines_queue]
      (the mempool is a list in priority order).
    - The core: [HotStuffRuns.checkCommitRule_two_chain],
      [HotStuffRuns.vote_respects_lock], [HotStuffRuns.CreateProposal_sound].
    - Views: [PacemakerRuns], [Interleaving.pacemaker_not_ahead] for every
      interleaving, [Rotation] for who leads and that everyone does,
      [Heartbeat.stalled_leader_detected], [Activation].
    - Message checks: [Encoder.VerifyQC_sound], [Validation.ValidateQC_sound],
      [Validation.ValidateProposal_sound], [Validation.accepted_once],
      [Wire.wire_sign_bytes], [Messages.SignBytes_binding].
    - The consensus store: [ConsensusStorage.commit_stable] over every run.
    - Ingestion: what is verified is valid for the state ([IngestRuns.verified_valid]),
      one signature stands for one content ([IngestRuns.signature_binds]), nothing
      unsigned gets into the mempool whatever a claim delivers
      ([ConsumerRuns.consumed_signed]), every message is accounted for
      ([ConsumerRuns.claim_accounted]) and retried within bounds
      ([ConsumerRuns.waits_bounded]).  The gate: a removal holds up to the first intent
      of another kind ([LifecycleRuns.removal_holds]), the superseded policy leaves the mempool
      ([LifecycleRuns.superseded_removed]), and a retry is lost
      ([LifecycleRuns.transient_failure_is_final]).
    - Transactions and blocks: bounds, replay protection and eviction order of the
      mempool ([MempoolRuns]); what a built block contains ([Builder]), round trip
      and binding of blocks ([Block]).
    - The service: replicas that execute the same blocks agree
      ([ServiceRuns.replicas_agree]), each block once; what is proposed is neither
      committed nor held ([ServiceRuns.proposed_sound], [Replay]); one writer per
      block, which ends ([PersistWorker]).
    - Genesis: what a certificate guarantees when none comes before the start
      ([GenesisRuns.ceremony_sound]), that a quorum completes the ceremony, and what the
      coordinator accepts besides.
    - Signatures: what an accepted one shows, nonces, rotation ([CryptoRuns]).
    - Peers: a quarantine holds ([PeersRuns.quarantine_holds]); penalties that a full
      table forgets ([PeersRuns.penalties_forgotten]); silence that goes unnoticed
      ([PeersRuns.silent_peers_active]).
    - State: a block is executed whole or stops at its first refused transaction
      ([Executor.ApplyBlock_refuses]) and records nonces ([Executor]);
      every reachable version's root verifies ([Store]) and its entries are well
      typed ([StateTypes]); Merkle proofs are complete and sound ([Merkle]).

    - The agent: a policy is applied only if it is permitted
      ([AgentProps.applied_is_permitted]), the backend enforces what the store has
      records of ([AgentProps.enforced_as_recorded]), expired policies leave both
      ([AgentProps.expired_policies_leave]), fast mitigations are signed and short
      ([AgentProps.fast_is_short]); and what it misses: unsigned events
      ([AgentProps.legacy_unsigned]), deadlines that outlive the commit
      ([AgentProps.deadlines_never_cleared]), rules that are not enforced again
      ([AgentProps.reissued_not_enforced]), a lost write ([AgentProps.lost_update]).

    ** Bounds and fuel

    Loops that are not structural run on fuel that is shown, or is by construction,
    enough.  [Merkle.merkle_loop] and [proof_loop] have the number of leaves, which
    halves at each level; [Mempool.evict] has one more than the heap's length, each
    turn popping an element; [Heap]'s sift loops have the slice's length;
    [HotStuff]'s retry of a proposal has the code's own bound of 50;
    [Builder]'s fair-share rounds have one more than the number of candidates, each
    round but the last removing one.  [ConsensusStorage.restore_pages] and
    [restore_votes] take fuel, [None] being a run that needs more, and
    [restore_pages_complete] gives an amount that is enough; the waits of
    [Activation] take the list of the turns' clock readings, and
    [forced_wait_ends] says by which turn they end.  [Service.submit_loop] has the
    code's three turns, [PersistWorker.attempts] the list of its turns, of which
    [processTask_ends] says how many are enough.  [Consumer.attempt_loop] has the
    configured number of attempts, [Consumer.ConsumeClaim] the list of what its
    channels deliver; [AgentController.apply_loop] has the attempts the settings allow.

    ** Not modelled

    Goroutine scheduling beyond [Interleaving], [PersistWorker], [GenesisRuns] and the
    file of [AgentLoops]; a run
    of the consumer is one claim, while claims of several partitions share the
    mempool and the gate.  Logging, audit, metrics and the policy-trace events and
    stage markers change no decision.  The transport (libp2p, with gossip,
    discovery, dialing and the topology reports of p2p/), the SQL statements of
    storage/cockroach and of the policy outbox and the clients of Kafka are calls of
    third-party services, whose answers are parameters where a modelled component
    depends on them.  Of the agent the backends that write the rules of a host, the
    queue of acknowledgements and the start-up are left out, and a run handles one message
    or turn at a time.  The HTTP API, the configuration, the command line tools and the
    other programs (telemetry, AI service, frontend) do not take part in the path from a
    message to a committed block and an enforced policy. *)
From Stdlib Require Export ZArith Lia.
From Stdlib Require Export Strings.Byte.
From Stdlib Require Export Sorting.Sorted.
From stdpp Require Export base tactics decidable option list gmap fin_maps strings numbers.
From stdpp Require Export sorting.

Open Scope Z_scope.

(** ** Results of fallible Go functions *)

(** A Go function returning [(A, error)]: [Ok a] is [(a, nil)], [Err e] is a
    non-nil error. *)
Inductive result (E A : Type) : Type :=
| Ok (a : A)
| Err (e : E).
Arguments Ok {E A} a.
Arguments Err {E A} e.

#[export] Instance result_ret {E} : MRet (result E) := fun A a => Ok a.
#[export] Instance result_bind {E} : MBind (result E) :=
  fun A B f m => match m with Ok a => f a | Err e => Err e end.

#[export] Instance result_eq_dec {E A} `{EqDecision E, EqDecision A} :
  EqDecision (result E A).
Proof. solve_decision. Defined.

Definition is_ok {E A} (r : result E A) : bool :=
  match r with Ok _ => true | Err _ => false end.

Section result_lemmas.
Context {E A B : Type}.
Implicit Types (m : result E A) (f : A -> result E B).

Lemma bind_Ok_inv m f b :
  m ≫= f = Ok b -> exists a, m = Ok a /\ f a = Ok b.
Proof. destruct m as [a|e]; cbn; [eauto | discriminate]. Qed.

Lemma bind_Err_inv m f e :
  m ≫= f = Err e -> m = Err e \/ exists a, m = Ok a /\ f a = Err e.
Proof.
  destruct m as [a|e']; cbn; [by eauto|].
  intros [= ->]. by left.
Qed.

Lemma bind_Ok a f : (Ok a : result E A) ≫= f = f a.
Proof. reflexivity. Qed.

Lemma is_ok_true m : is_ok m = true <-> exists a, m = Ok a.
Proof. destruct m; cbn; split; [by eauto | done | done | by intros [??]]. Qed.
End result_lemmas.

(** [go_inv H] takes a successful run apart: every guard the code passed
    becomes a hypothesis, every failing branch is closed. *)
Ltac go_inv_step H :=
  cbn beta iota in H;
  match type of H with
  | Ok _ = Ok _ => injection H as H; try subst
  | Err _ = Ok _ => discriminate H
  | Ok _ = Err _ => discriminate H
  | Err _ = Err _ => injection H as H; try subst
  | mbind _ _ = Ok _ =>
      let a := fresh "a" in let Ha := fresh "Hstep" in
      apply bind_Ok_inv in H as (a & Ha & H)
  | context [match ?x with _ => _ end] =>
      let Hx := fresh "Hcase" in destruct x eqn:Hx
  end.
Ltac go_inv H := repeat go_inv_step H.

(** ** Stateful fallible code *)

(** A Go method on a mutable receiver of state [S] that returns [(A, error)]:
    the state it leaves is kept whether or not it returned an error. *)
Definition ST (S E A : Type) : Type := S -> result E A * S.

#[export] Instance ST_ret {S E} : MRet (ST S E) := fun A a s => (Ok a, s).
#[export] Instance ST_bind {S E} : MBind (ST S E) :=
  fun A B f m s => match m s with (Ok a, s') => f a s' | (Err e, s') => (Err e, s') end.

Definition throw {S E A} (e : E) : ST S E A := fun s => (Err e, s).
(** [if b { return e }]. *)
Definition fail_if {S E} (b : bool) (e : E) : ST S E unit := fun s => if b then (Err e, s) else (Ok tt, s).
Definition gets {S E A} (f : S -> A) : ST S E A := fun s => (Ok (f s), s).
Definition modify {S E} (f : S -> S) : ST S E unit := fun s => (Ok tt, f s).
(** A call of a function that does not touch the state. *)
Definition lift {S E A} (r : result E A) : ST S E A := fun s => (r, s).

(** [P] is an invariant of [m], kept on error paths too, and a successful run
    returns a value satisfying [Q]. *)
Definition keeps {S E A} (P : S -> Prop) (m : ST S E A) (Q : A -> Prop) : Prop :=
  forall s, P s -> P (m s).2 /\ forall a, (m s).1 = Ok a -> Q a.

Section state_lemmas.
Context {S E A B : Type} (P : S -> Prop).

Lemma keeps_ret (a : A) (Q : A -> Prop) : Q a -> keeps (E:=E) P (mret a) Q.
Proof. intros HQ s Hs. split; [done|]. by intros ? [= <-]. Qed.

Lemma keeps_bind (m : ST S E A) (f : A -> ST S E B) R Q :
  keeps P m R -> (forall a, R a -> keeps P (f a) Q) -> keeps P (m ≫= f) Q.
Proof.
  intros Hm Hf s Hs. unfold mbind, ST_bind. destruct (Hm s Hs) as [H1 H2].
  destruct (m s) as [[a|e] s']; cbn in *; [|done].
  by apply Hf; [apply H2|].
Qed.

Lemma keeps_fail_if b (e : E) (Q : unit -> Prop) : (b = false -> Q tt) -> keeps (S:=S) P (fail_if b e) Q.
Proof. intros HQ s Hs. unfold fail_if. destruct b; cbn; (split; [done|]); [done|]. intros [] _. by apply HQ. Qed.

Lemma keeps_throw (e : E) (Q : A -> Prop) : keeps (S:=S) P (throw e) Q.
Proof. intros s Hs. by split. Qed.

Lemma keeps_lift (r : result E A) (Q : A -> Prop) : (forall a, r = Ok a -> Q a) -> keeps (S:=S) P (lift r) Q.
Proof. intros HQ s Hs. split; [done|]. apply HQ. Qed.

Lemma keeps_gets (f : S -> A) (Q : A -> Prop) : (forall s, P s -> Q (f s)) -> keeps (E:=E) P (gets f) Q.
Proof. intros HQ s Hs. split; [done|]. intros ? [= <-]. by apply HQ. Qed.

Lemma keeps_modify (f : S -> S) (Q : unit -> Prop) :
  (forall s, P s -> P (f s)) -> Q tt -> keeps (E:=E) P (modify f) Q.
Proof. intros Hf HQ s Hs. split; [by apply Hf|]. by intros []. Qed.

Lemma keeps_weaken (m : ST S E A) (R Q : A -> Prop) :
  keeps P m R -> (forall a, R a -> Q a) -> keeps P m Q.
Proof. intros Hm HRQ s Hs. destruct (Hm s Hs) as [H1 H2]. split; [done|]. eauto. Qed.

Lemma ST_bind_Ok (m : ST S E A) (f : A -> ST S E B) s b s' :
  (m ≫= f) s = (Ok b, s') -> exists a s1, m s = (Ok a, s1) /\ f a s1 = (Ok b, s').
Proof. unfold mbind, ST_bind. destruct (m s) as [[a|e] s1]; intros H; [eauto|discriminate]. Qed.

Lemma run_Ok (m : ST S E A) s a : (m s).1 = Ok a -> m s = (Ok a, (m s).2).
Proof. destruct (m s) as [r s']. cbn. by intros ->. Qed.

Lemma fail_if_Ok b (e : E) (s : S) u s' : fail_if b e s = (Ok u, s') -> b = false /\ s' = s.
Proof. unfold fail_if. destruct b; [done|]. by intros [= <- <-]. Qed.
End state_lemmas.

(** [st_inv H] takes a successful run of stateful code apart. *)
Ltac st_inv H :=
  repeat first
    [ let a := fresh "a" in let s := fresh "s" in let Ha := fresh "Hrun" in
      apply ST_bind_Ok in H as (a & s & Ha & H);
      try (apply fail_if_Ok in Ha as [Ha ->])
    | progress (cbn beta iota zeta in H)
    | match type of H with
      | (Err _, _) = (Ok _, _) => discriminate H
      | throw _ _ = (Ok _, _) => discriminate H
      | fail_if _ _ _ = (Ok _, _) => apply fail_if_Ok in H as [H ->]
      | context [match ?x with _ => _ end] => let Hx := fresh "Hcase" in destruct x eqn:Hx
      end ].

(** Booleans of guards to propositions. *)
Ltac go_bool :=
  repeat match goal with
  | H : (_ <? _)%Z = true |- _ => apply Z.ltb_lt in H
  | H : (_ <? _)%Z = false |- _ => apply Z.ltb_ge in H
  | H : (_ <=? _)%Z = true |- _ => apply Z.leb_le in H
  | H : (_ <=? _)%Z = false |- _ => apply Z.leb_gt in H
  | H : (_ =? _)%Z = true |- _ => apply Z.eqb_eq in H
  | H : (_ =? _)%Z = false |- _ => apply Z.eqb_neq in H
  | H : negb _ = true |- _ => apply negb_true_iff in H
  | H : negb _ = false |- _ => apply negb_false_iff in H
  | H : (_ || _)%bool = false |- _ =>
      let H1 := fresh H in apply orb_false_iff in H as [H1 H]
  | H : (_ && _)%bool = true |- _ =>
      let H1 := fresh H in apply andb_true_iff in H as [H1 H]
  | H : bool_decide _ = true |- _ => apply bool_decide_eq_true in H
  | H : bool_decide _ = false |- _ => apply bool_decide_eq_false in H
  end.

(** ** Lists *)

(** Go's [len]. *)
Definition len {A} (l : list A) : Z := Z.of_nat (length l).

Lemma len_nonneg {A} (l : list A) : 0 <= len l.
Proof. unfold len. lia. Qed.

Lemma len_app {A} (l k : list A) : len (l ++ k) = len l + len k.
Proof. unfold len. rewrite length_app. lia. Qed.

Lemma app_inj_len {A} (l1 l2 k1 k2 : list A) :
  length l1 = length k1 -> l1 ++ l2 = k1 ++ k2 -> l1 = k1 /\ l2 = k2.
Proof. intros Hl H. by apply app_inj_1. Qed.

Lemma app_inj_len_r {A} (l1 l2 k1 k2 : list A) :
  length l2 = length k2 -> l1 ++ l2 = k1 ++ k2 -> l1 = k1 /\ l2 = k2.
Proof. intros Hl H. by apply app_inj_2. Qed.

(** Two sorted lists with the same elements are equal when the order is
    antisymmetric on them: what makes Go's unstable [sort.Slice]
    deterministic on distinct keys. *)
Lemma StronglySorted_Permutation_eq {A} (R : relation A) (l k : list A) :
  (forall x y, x ∈ l -> y ∈ l -> R x y -> R y x -> x = y) ->
  StronglySorted R l -> StronglySorted R k -> l ≡ₚ k -> l = k.
Proof.
  intros Hanti Hl. revert k Hanti.
  induction Hl as [|x l Hl IH Hx]; intros k Hanti Hk Hp.
  - by apply Permutation_nil in Hp as ->.
  - destruct Hk as [|y k Hk Hy].
    { by apply Permutation_sym, Permutation_nil in Hp. }
    assert (x = y) as <-.
    { assert (Hxk : x ∈ y :: k) by (rewrite <- Hp; by left).
      assert (Hyl : y ∈ x :: l) by (rewrite Hp; by left).
      apply list_elem_of_In in Hxk as [->|Hxk]; [done|].
      apply list_elem_of_In in Hyl as [->|Hyl]; [done|].
      rewrite Forall_forall in Hx. rewrite Forall_forall in Hy.
      apply list_elem_of_In in Hxk. apply list_elem_of_In in Hyl.
      apply Hanti; [by left | by right | by apply Hx | by apply Hy]. }
    f_equal. apply IH; [|done|by apply Permutation_cons_inv in Hp].
    intros u v Hu Hv. apply Hanti; by right.
Qed.

(** A list with distinct keys is functional. *)
Lemma NoDup_fst_functional {A B} (l : list (A * B)) k v v' :
  NoDup l.*1 -> (k, v) ∈ l -> (k, v') ∈ l -> v = v'.
Proof.
  induction l as [|[k0 v0] l IH]; cbn; intros Hnd H H'.
  - by apply not_elem_of_nil in H.
  - apply NoDup_cons in Hnd as [Hk Hnd].
    assert (Hno : forall u, (k0, u) ∉ l).
    { intros u Hu. apply Hk, list_elem_of_fmap. by exists (k0, u). }
    apply elem_of_cons in H as [H|H]; apply elem_of_cons in H' as [H'|H'];
      simplify_eq; try done; try (by exfalso; eapply Hno).
    by apply IH.
Qed.

(** Induction two elements at a time. *)
Lemma list_pair_ind {A} (P : list A -> Prop) :
  P [] -> (forall a, P [a]) -> (forall a b l, P l -> P (a :: b :: l)) -> forall l, P l.
Proof.
  intros H0 H1 H2. fix IH 1. intros [|a [|b l]]; [apply H0|apply H1|apply H2, IH].
Qed.

Lemma foldl_invariant {A B} (P : A -> Prop) (f : A -> B -> A) (l : list B) (a : A) :
  P a -> (forall a b, b ∈ l -> P a -> P (f a b)) -> P (foldl f a l).
Proof.
  revert a. induction l as [|b l IH]; intros a Ha Hf; cbn; [done|].
  apply IH; [apply Hf; [by left|done]|]. intros a' b' Hb'. apply Hf. by right.
Qed.

Lemma list_filter_all {A} (P : A -> Prop) `{forall x, Decision (P x)} (l : list A) :
  Forall P l -> filter P l = l.
Proof. induction 1 as [|x l Hx Hl IH]; [done|]. rewrite filter_cons_True by done. by rewrite IH. Qed.

Lemma list_filter_none {A} (P : A -> Prop) `{forall x, Decision (P x)} (l : list A) :
  Forall (fun x => ~ P x) l -> filter P l = [].
Proof. induction 1 as [|x l Hx Hl IH]; [done|]. by rewrite filter_cons_False. Qed.

Lemma filter_ext_in {A} (P Q : A -> Prop) `{forall x, Decision (P x)} `{forall x, Decision (Q x)} (l : list A) :
  (forall x, x ∈ l -> P x <-> Q x) -> filter P l = filter Q l.
Proof.
  induction l as [|x l IH]; intros Hpq; [done|]. rewrite !filter_cons, IH by (intros y Hy; apply Hpq; by right).
  pose proof (Hpq x ltac:(by left)). repeat case_decide; naive_solver.
Qed.

(** ** [range] over a Go map *)

(** The order in which [range] visits a map: any one, which may depend on the
    contents. *)
Record visit_order (K V : Type) `{Countable K} := MkVisit {
  visit :> gmap K V -> list (K * V);
  visit_perm m : visit m ≡ₚ map_to_list m }.
Arguments MkVisit {K V _ _}.

Lemma elem_of_visit {K V} `{Countable K} (o : visit_order K V) (m : gmap K V) k v :
  (k, v) ∈ o m <-> m !! k = Some v.
Proof. by rewrite visit_perm, elem_of_map_to_list. Qed.

Definition key_order {K V} `{Countable K} : visit_order K V := MkVisit map_to_list (fun m => reflexivity _).

Create HintDb cyber discriminated.
#[export] Hint Resolve len_nonneg : cyber.

(** ** [sort.SliceStable] *)

(** An element goes before the first one that is not less than it. *)
Fixpoint insert_stable {A} (less : A -> A -> bool) (x : A) (l : list A) : list A :=
  match l with
  | [] => [x]
  | y :: l' => if less y x then y :: insert_stable less x l' else x :: l
  end.
Definition stable_sort {A} (less : A -> A -> bool) (l : list A) : list A := foldr (insert_stable less) [] l.

Lemma insert_stable_perm {A} less (x : A) l : insert_stable less x l ≡ₚ x :: l.
Proof. induction l as [|y l IH]; cbn; [done|]. destruct (less y x); [|done]. rewrite IH. apply perm_swap. Qed.

Lemma stable_sort_perm {A} less (l : list A) : stable_sort less l ≡ₚ l.
Proof. induction l as [|x l IH]; cbn; [done|]. by rewrite insert_stable_perm, IH. Qed.

(** On elements satisfying [P] where "not less than" is transitive and contains
    the converse of [less], the result is sorted. *)
Section stable_sort_sorted.
Context {A : Type} (less : A -> A -> bool) (P : A -> Prop).
Hypothesis less_asym : forall x y, P x -> P y -> less x y = true -> less y x = false.
Hypothesis less_neg_trans : forall x y z, P x -> P y -> P z ->
  less y x = false -> less z y = false -> less z x = false.

Definition in_less_order (l : list A) : Prop := StronglySorted (fun x y => less y x = false) l.

Lemma insert_stable_sorted x l : P x -> Forall P l -> in_less_order l -> in_less_order (insert_stable less x l).
Proof.
  intros Hx HP Hl. induction Hl as [|y l Hl IH Hy]; cbn; [by repeat constructor|].
  apply Forall_cons in HP as [HPy HP]. destruct (less y x) eqn:H.
  - constructor; [by apply IH|]. rewrite insert_stable_perm. constructor; [by apply less_asym|done].
  - constructor; [by constructor|]. constructor; [done|].
    rewrite Forall_forall in HP, Hy |- *. intros z Hz. apply (less_neg_trans x y z); auto.
Qed.

Lemma stable_sort_sorted l : Forall P l -> in_less_order (stable_sort less l).
Proof.
  induction 1 as [|x l Hx Hl IH]; [constructor|].
  change (in_less_order (insert_stable less x (stable_sort less l))).
  apply insert_stable_sorted; [done|by rewrite stable_sort_perm|done].
Qed.
End stable_sort_sorted.

Lemma StronglySorted_filter {A} (R : relation A) (P : A -> Prop) `{forall x, Decision (P x)} (l : list A) :
  StronglySorted R l -> StronglySorted R (filter P l).
Proof.
  induction 1 as [|x l Hl IH Hx]; [constructor|]. rewrite filter_cons. case_decide; [|done].
  constructor; [done|]. rewrite Forall_forall in Hx |- *. intros y (_ & Hy)%list_elem_of_filter. by apply Hx.
Qed.

Lemma StronglySorted_snoc {A} (R : relation A) (l : list A) x :
  StronglySorted R l -> Forall (fun y => R y x) l -> StronglySorted R (l ++ [x]).
Proof.
  induction 1 as [|y l Hl IH Hy]; cbn; intros Hx; [by repeat constructor|].
  apply Forall_cons in Hx as [Hyx Hx]. constructor; [by apply IH|]. apply Forall_app. by rewrite Forall_singleton.
Qed.
