(* ===== verification/Bytes.v ===== *)
(** Go's bytes, byte strings and fixed width integers: [uint64]/[int64]
    wrap-around, [encoding/binary.BigEndian], [bytes.Compare] and
    [encoding/hex]. *)
From S2P Require Import Prelude.

(** ** Byte strings *)

#[export] Instance byte_eq_dec : EqDecision byte := Byte.byte_eq_dec.
#[export] Instance byte_countable : Countable byte :=
  inj_countable Byte.to_N Byte.of_N Byte.of_to_N.

(** [[]byte] (content only) and [[32]byte] arrays. *)
Abbreviation bytes := (list byte).

Definition byte_val (b : byte) : Z := Z.of_N (Byte.to_N b).
Definition byte_of (z : Z) : byte :=
  default x00 (Byte.of_N (Z.to_N (z mod 256))).

Lemma byte_val_range b : 0 <= byte_val b < 256.
Proof. unfold byte_val. pose proof (Byte.to_N_bounded b). lia. Qed.

Lemma byte_val_of z : byte_val (byte_of z) = z mod 256.
Proof.
  unfold byte_val, byte_of.
  assert (Hz : 0 <= z mod 256 < 256) by (apply Z.mod_pos_bound; lia).
  destruct (Byte.of_N (Z.to_N (z mod 256))) as [b|] eqn:Hb; cbn.
  - apply Byte.to_of_N in Hb. rewrite Hb. lia.
  - apply Byte.of_N_None_iff in Hb. lia.
Qed.

Lemma byte_of_val b : byte_of (byte_val b) = b.
Proof.
  unfold byte_of, byte_val. pose proof (Byte.to_N_bounded b).
  rewrite Z.mod_small by lia. rewrite N2Z.id, Byte.of_to_N. done.
Qed.

Lemma byte_val_inj a b : byte_val a = byte_val b -> a = b.
Proof. intros H. by rewrite <- (byte_of_val a), H, byte_of_val. Qed.

(** A Go string constant as bytes. *)
Definition str (s : string) : bytes := String.list_byte_of_string s.
#[global] Arguments str : simpl never.

(** The zero value of [[32]byte]. *)
Definition zero32 : bytes := replicate 32 x00.
#[global] Arguments zero32 : simpl never.

(** ** Machine integers *)

Definition two64 : Z := 2 ^ 64.
(** Result of unsigned 64-bit arithmetic. *)
Definition u64 (z : Z) : Z := z mod two64.
(** Reinterpretation as a signed 64-bit integer ([int64(x)]). *)
Definition i64 (z : Z) : Z := (z + 2 ^ 63) mod two64 - 2 ^ 63.
Definition MaxInt64 : Z := 2 ^ 63 - 1.
Definition MinInt64 : Z := - 2 ^ 63.

Lemma two64_pos : 0 < two64.
Proof. reflexivity. Qed.

Lemma u64_range z : 0 <= u64 z < two64.
Proof. apply Z.mod_pos_bound, two64_pos. Qed.

Lemma u64_small z : 0 <= z < two64 -> u64 z = z.
Proof. apply Z.mod_small. Qed.

Lemma i64_range z : MinInt64 <= i64 z <= MaxInt64.
Proof.
  unfold i64, MinInt64, MaxInt64.
  pose proof (Z.mod_pos_bound (z + 2 ^ 63) two64 two64_pos).
  unfold two64 in *. lia.
Qed.

Lemma i64_small z : MinInt64 <= z <= MaxInt64 -> i64 z = z.
Proof.
  unfold i64, MinInt64, MaxInt64, two64. intros H.
  rewrite Z.mod_small by lia. lia.
Qed.

Lemma i64_u64 z : MinInt64 <= z <= MaxInt64 -> i64 (u64 z) = z.
Proof.
  intros H. unfold i64, u64, two64.
  rewrite Zplus_mod_idemp_l. by apply i64_small.
Qed.

#[export] Hint Resolve u64_range i64_range two64_pos : cyber.

(** ** Big-endian encoding *)

(** [binary.BigEndian.PutUintN] into an [n]-byte array. *)
Fixpoint be_put (n : nat) (z : Z) : bytes :=
  match n with
  | O => []
  | S n' => byte_of (z / 256 ^ Z.of_nat n') :: be_put n' z
  end.

(** [binary.BigEndian.UintN]. *)
Fixpoint be_get (bs : bytes) : Z :=
  match bs with
  | [] => 0
  | b :: bs' => byte_val b * 256 ^ Z.of_nat (length bs') + be_get bs'
  end.

Lemma length_be_put n z : length (be_put n z) = n.
Proof. induction n; cbn; congruence. Qed.

Lemma be_get_range bs : 0 <= be_get bs < 256 ^ Z.of_nat (length bs).
Proof.
  induction bs as [|b bs IH]; [cbn; lia|].
  cbn [be_get length]. pose proof (byte_val_range b).
  rewrite Nat2Z.inj_succ, Z.pow_succ_r by lia. nia.
Qed.

Lemma be_get_put n z : be_get (be_put n z) = z mod 256 ^ Z.of_nat n.
Proof.
  induction n as [|n IH]; cbn [be_put be_get].
  - by rewrite Z.mod_1_r.
  - rewrite length_be_put, IH, byte_val_of.
    rewrite Nat2Z.inj_succ, Z.pow_succ_r by lia.
    assert (0 < 256 ^ Z.of_nat n) by (apply Z.pow_pos_nonneg; lia).
    rewrite (Z.mul_comm 256), Z.rem_mul_r by lia. lia.
Qed.

Lemma be_put_inj n a b :
  0 <= a < 256 ^ Z.of_nat n -> 0 <= b < 256 ^ Z.of_nat n ->
  be_put n a = be_put n b -> a = b.
Proof.
  intros Ha Hb H. apply (f_equal be_get) in H.
  rewrite !be_get_put, !Z.mod_small in H; lia.
Qed.

(** ** [bytes.Compare] *)

(** Lexicographic, unsigned. *)
Fixpoint bytes_compare (a b : bytes) : comparison :=
  match a, b with
  | [], [] => Eq
  | [], _ :: _ => Lt
  | _ :: _, [] => Gt
  | x :: a', y :: b' =>
      match (byte_val x ?= byte_val y)%Z with
      | Eq => bytes_compare a' b'
      | c => c
      end
  end.

Definition bytes_ltb (a b : bytes) : bool :=
  match bytes_compare a b with Lt => true | _ => false end.

(** Sorting with a less function [bytes.Compare(a, b) < 0]. *)
Definition bytes_le (a b : bytes) : Prop := bytes_compare a b <> Gt.

#[export] Instance bytes_le_dec : RelDecision bytes_le.
Proof.
  intros a b. unfold bytes_le, Decision.
  destruct (bytes_compare a b); [by left|by left|right; congruence].
Defined.

Lemma bytes_compare_eq a b : bytes_compare a b = Eq <-> a = b.
Proof.
  revert b. induction a as [|x a IH]; intros [|y b]; cbn; try done.
  destruct (Z.compare_spec (byte_val x) (byte_val y)) as [H|H|H].
  - rewrite IH. apply byte_val_inj in H as ->. split; [by intros ->|by intros [=]].
  - split; [done|]. intros [= -> ->]. lia.
  - split; [done|]. intros [= -> ->]. lia.
Qed.

Lemma bytes_compare_antisym a b : bytes_compare b a = CompOpp (bytes_compare a b).
Proof.
  revert b. induction a as [|x a IH]; intros [|y b]; cbn; try done.
  rewrite (Z.compare_antisym (byte_val x) (byte_val y)).
  destruct (byte_val x ?= byte_val y); cbn; auto.
Qed.

Lemma bytes_compare_refl a : bytes_compare a a = Eq.
Proof. by apply bytes_compare_eq. Qed.

Lemma bytes_compare_lt_trans a b c :
  bytes_compare a b = Lt -> bytes_compare b c = Lt -> bytes_compare a c = Lt.
Proof.
  revert b c. induction a as [|x a IH]; intros [|y b] [|z c]; cbn; try done.
  destruct (Z.compare_spec (byte_val x) (byte_val y)) as [H|H|H]; try done;
  destruct (Z.compare_spec (byte_val y) (byte_val z)) as [H'|H'|H']; try done;
  intros H1 H2;
  destruct (Z.compare_spec (byte_val x) (byte_val z)) as [H''|H''|H'']; try done;
  try lia. by apply (IH b).
Qed.

#[export] Instance bytes_le_total : Total bytes_le.
Proof.
  intros a b. unfold bytes_le. rewrite (bytes_compare_antisym a b).
  destruct (bytes_compare a b); cbn; auto.
Qed.

#[export] Instance bytes_le_antisymm : AntiSymm eq bytes_le.
Proof.
  intros a b. unfold bytes_le. rewrite (bytes_compare_antisym a b). intros H1 H2.
  apply bytes_compare_eq. by destruct (bytes_compare a b).
Qed.

#[export] Instance bytes_le_trans : Transitive bytes_le.
Proof.
  intros a b c. unfold bytes_le. intros H1 H2.
  destruct (bytes_compare a b) eqn:Hab; [|clear H1|done].
  - by apply bytes_compare_eq in Hab as ->.
  - destruct (bytes_compare b c) eqn:Hbc; [| |done].
    + apply bytes_compare_eq in Hbc as ->. by rewrite Hab.
    + by rewrite (bytes_compare_lt_trans a b c).
Qed.

(** ** [hex.EncodeToString] *)

Definition hex_digit (n : Z) : byte :=
  if n <? 10 then byte_of (48 + n) else byte_of (87 + n).

Definition hex_byte (b : byte) : bytes :=
  [hex_digit (byte_val b / 16); hex_digit (byte_val b mod 16)].

Definition hex (bs : bytes) : bytes := mjoin (hex_byte <$> bs).

Lemma hex_digit_inj a b :
  0 <= a < 16 -> 0 <= b < 16 -> hex_digit a = hex_digit b -> a = b.
Proof.
  intros Ha Hb H. apply (f_equal byte_val) in H. unfold hex_digit in H.
  destruct (a <? 10) eqn:?; destruct (b <? 10) eqn:?; go_bool;
  rewrite !byte_val_of, !Z.mod_small in H; lia.
Qed.

Lemma hex_byte_inj a b : hex_byte a = hex_byte b -> a = b.
Proof.
  intros [= H1 H2]. pose proof (byte_val_range a). pose proof (byte_val_range b).
  apply byte_val_inj.
  apply hex_digit_inj in H1; [|split; [apply Z.div_pos|apply Z.div_lt_upper_bound]; lia..].
  apply hex_digit_inj in H2; [|apply Z.mod_pos_bound; lia..].
  rewrite (Z.div_mod (byte_val a) 16), (Z.div_mod (byte_val b) 16); lia.
Qed.

#[export] Instance hex_inj : Inj (=) (=) hex.
Proof.
  intros a. induction a as [|x a IH]; intros [|y b] H; try done.
  change (hex_byte x ++ hex a = hex_byte y ++ hex b) in H.
  apply app_inj_len in H as [Hx Ha]; [|done].
  apply hex_byte_inj in Hx as ->. by apply IH in Ha as ->.
Qed.
