(* ===== verification/Sha256.v ===== *)
(** Go's [crypto/sha256]: SHA-256 over byte strings (FIPS 180-4), executable,
    with the two facts the program relies on: every digest has 32 bytes, and a
    list of digests determines itself.  No collision resistance is assumed
    anywhere: the theorems that need it exhibit the colliding inputs. *)
From Stdlib Require Uint63.
From S2P Require Import Prelude Bytes.

Module SHA.
Import Uint63.Uint63Notations PrimInt63.

(** Go's 32-bit words, in the kernel's machine integers. *)
Abbreviation word := Uint63.int.

(** The constants of the standard: the first 32 bits of the fractional parts of
    the cube roots of the first 64 primes, and of the square roots of the first
    eight. *)
Definition is_prime (n : Z) : bool :=
  forallb (fun d => negb (n mod d =? 0)) (filter (fun d => d < n) (Z.of_nat <$> seq 2 16)).
Definition primes : list Z := filter (fun n => is_prime n = true) (Z.of_nat <$> seq 2 310).
Definition cube_root (n : Z) : Z :=
  foldl (fun r i => let r' := r + 2 ^ Z.of_nat i in if r' ^ 3 <=? n then r' else r) 0 (rev (seq 0 36)).
Definition K : list word := Eval vm_compute in
  (fun p => Uint63.of_Z (cube_root (p * 2 ^ 96) mod 2 ^ 32)) <$> primes.
Definition sqrt_words : list word := Eval vm_compute in
  (fun p => Uint63.of_Z (Z.sqrt (p * 2 ^ 64) mod 2 ^ 32)) <$> take 8 primes.

#[local] Open Scope uint63_scope.
#[local] Infix "+" := Uint63.add : uint63_scope.
#[local] Infix "<<" := Uint63.lsl (at level 30, no associativity) : uint63_scope.
#[local] Infix ">>" := Uint63.lsr (at level 30, no associativity) : uint63_scope.
#[local] Infix "&" := Uint63.land (at level 40, left associativity) : uint63_scope.
#[local] Infix "^^" := Uint63.lxor (at level 50, left associativity) : uint63_scope.

Definition w32 (x : word) : word := x & 0xffffffff.
Definition rotr (n x : word) : word := Uint63.lor (x >> n) (w32 (x << Uint63.sub 32 n)).

Record hstate := HState {
  ha : word; hb : word; hc : word; hd : word; he : word; hf : word; hg : word; hh : word }.

Definition H0 : hstate :=
  match sqrt_words with
  | [a; b; c; d; e; f; g; h] => HState a b c d e f g h
  | _ => HState 0 0 0 0 0 0 0 0
  end.

Definition ssig0 x := rotr 7 x ^^ rotr 18 x ^^ (x >> 3).
Definition ssig1 x := rotr 17 x ^^ rotr 19 x ^^ (x >> 10).
Definition bsig0 x := rotr 2 x ^^ rotr 13 x ^^ rotr 22 x.
Definition bsig1 x := rotr 6 x ^^ rotr 11 x ^^ rotr 25 x.

(** The message schedule: [ws] holds the last 16 words, most recent first. *)
Fixpoint schedule (n : nat) (ws : list word) (acc : list word) : list word :=
  match n with
  | O => rev acc
  | S n' =>
      let w := w32 (ssig1 (nth 1 ws 0) + nth 6 ws 0 + ssig0 (nth 14 ws 0) + nth 15 ws 0) in
      schedule n' (w :: take 15 ws) (w :: acc)
  end.

Definition round (s : hstate) (kw : word * word) : hstate :=
  let '(k, w) := kw in
  let ch := (he s & hf s) ^^ ((he s ^^ 0xffffffff) & hg s) in
  let maj := (ha s & hb s) ^^ (ha s & hc s) ^^ (hb s & hc s) in
  let t1 := hh s + bsig1 (he s) + ch + k + w in
  let t2 := bsig0 (ha s) + maj in
  HState (w32 (t1 + t2)) (ha s) (hb s) (hc s) (w32 (hd s + t1)) (he s) (hf s) (hg s).

Fixpoint words (n : nat) (bs : bytes) : list word :=
  match n with
  | O => []
  | S n' => Uint63.of_Z (be_get (take 4 bs)) :: words n' (drop 4 bs)
  end.

Definition compress (s : hstate) (block : bytes) : hstate :=
  let w0 := words 16 block in
  let w := w0 ++ schedule 48 (rev w0) [] in
  let r := foldl round s (zip K w) in
  HState (w32 (ha s + ha r)) (w32 (hb s + hb r)) (w32 (hc s + hc r)) (w32 (hd s + hd r))
         (w32 (he s + he r)) (w32 (hf s + hf r)) (w32 (hg s + hg r)) (w32 (hh s + hh r)).

#[local] Close Scope uint63_scope.

Definition pad (m : bytes) : bytes :=
  let l := Z.of_nat (length m) in
  m ++ [x80] ++ replicate (Z.to_nat ((55 - l) mod 64)) x00 ++ be_put 8 (8 * l).

(** [n] 64-byte blocks. *)
Fixpoint blocks (n : nat) (s : hstate) (bs : bytes) : hstate :=
  match n with
  | O => s
  | S n' => blocks n' (compress s (take 64 bs)) (drop 64 bs)
  end.

Definition put (x : word) : bytes := be_put 4 (Uint63.to_Z x).

Definition digest (s : hstate) : bytes :=
  put (ha s) ++ put (hb s) ++ put (hc s) ++ put (hd s) ++ put (he s) ++ put (hf s) ++ put (hg s) ++ put (hh s).

Lemma length_digest s : length (digest s) = 32%nat.
Proof. unfold digest, put. by rewrite !length_app, !length_be_put. Qed.

End SHA.

(** [sha256.Sum256]. *)
Definition sha256 (m : bytes) : bytes :=
  let p := SHA.pad m in SHA.digest (SHA.blocks (length p / 64) SHA.H0 p).

Lemma length_sha256 m : length (sha256 m) = 32%nat.
Proof. apply SHA.length_digest. Qed.

#[export] Hint Resolve length_sha256 : cyber.
#[global] Arguments sha256 : simpl never.
#[global] Opaque sha256.

(** The FIPS test vector for "abc". *)
Example sha256_abc :
  hex (sha256 (str "abc")) =
  str "ba7816bf8f01cfea414140de5dae2223b00361a396177a9cb410ff61f20015ad".
Proof. vm_compute. reflexivity. Qed.

(** [Collides x y]: two different inputs with the same digest. *)
Definition Collides (x y : bytes) : Prop := x <> y /\ sha256 x = sha256 y.

Lemma sha256_inj_or_collision x y :
  sha256 x = sha256 y -> x = y \/ Collides x y.
Proof. intros H. destruct (decide (x = y)); [by left|right; by split]. Qed.
