(* ===== verification/GoTime.v ===== *)
(** Go's [time.Time] and [time.Duration]: wall-clock instants with nanoseconds
    and the saturating [Sub]. *)
From S2P Require Import Prelude Bytes.

(** Seconds since January 1, year 1 (int64), and nanoseconds within the second. *)
Record Time := MkTime { t_sec : Z; t_nsec : Z }.

#[export] Instance Time_eq_dec : EqDecision Time.
Proof. solve_decision. Defined.

Definition Nanosecond : Z := 1.
Definition Millisecond : Z := 1000000.
Definition Second : Z := 1000000000.
Definition Minute : Z := 60 * Second.
Definition Hour : Z := 60 * Minute.

Definition unixToInternal : Z := 62135596800.

(** [time.Time{}]. *)
Definition zero_time : Time := MkTime 0 0.
Definition IsZero (t : Time) : bool := (t_sec t =? 0) && (t_nsec t =? 0).

(** [time.Unix(sec, 0)]. *)
Definition time_Unix (sec : Z) : Time := MkTime (i64 (sec + unixToInternal)) 0.

(** Exact nanoseconds since year 1; not a Go value. *)
Definition nanos (t : Time) : Z := t_sec t * Second + t_nsec t.

(** [t.Sub(u)]: the difference, saturated to the range of [Duration]. *)
Definition Sub (t u : Time) : Z := Z.max MinInt64 (Z.min MaxInt64 (nanos t - nanos u)).

Definition After (t u : Time) : bool :=
  (t_sec u <? t_sec t) || ((t_sec t =? t_sec u) && (t_nsec u <? t_nsec t)).
Definition Before (t u : Time) : bool := After u t.

(** [t.Add(d)]. *)
Definition Add (t : Time) (d : Z) : Time :=
  let n := t_nsec t + Z.rem d Second in
  let s := t_sec t + Z.quot d Second in
  if Second <=? n then MkTime (i64 (s + 1)) (n - Second)
  else if n <? 0 then MkTime (i64 (s - 1)) (n + Second)
  else MkTime (i64 s) n.

(** [t.Unix()], [t.UnixNano()] and [t.UnixMilli()]. *)
Definition Unix (t : Time) : Z := i64 (t_sec t - unixToInternal).
Definition UnixNano (t : Time) : Z := i64 ((t_sec t - unixToInternal) * Second + t_nsec t).
Definition UnixMilli (t : Time) : Z :=
  i64 ((t_sec t - unixToInternal) * 1000 + t_nsec t / Millisecond).

Definition time_wf (t : Time) : Prop := 0 <= t_nsec t < Second.

Lemma After_nanos t u : time_wf t -> time_wf u -> After t u = (nanos u <? nanos t).
Proof.
  unfold time_wf, After, nanos, Second. intros Ht Hu.
  destruct (Z.ltb_spec (t_sec u * 1000000000 + t_nsec u) (t_sec t * 1000000000 + t_nsec t)).
  - apply orb_true_iff. rewrite andb_true_iff, !Z.ltb_lt, Z.eqb_eq. lia.
  - apply orb_false_iff. rewrite andb_false_iff, !Z.ltb_ge, Z.eqb_neq. lia.
Qed.

Lemma Sub_exact t u :
  MinInt64 <= nanos t - nanos u <= MaxInt64 -> Sub t u = nanos t - nanos u.
Proof. unfold Sub. lia. Qed.

Lemma nanos_Unix sec :
  MinInt64 <= sec + unixToInternal <= MaxInt64 ->
  nanos (time_Unix sec) = (sec + unixToInternal) * Second.
Proof. intros H. unfold nanos, time_Unix. cbn. rewrite i64_small by done. lia. Qed.

(** Instants far from the ends of the range, as all wall clocks are. *)
Definition time_sane (t : Time) : Prop := time_wf t /\ 0 <= t_sec t <= 2 ^ 62.

Lemma Add_nanos t d : time_sane t -> MinInt64 <= d <= MaxInt64 ->
  nanos (Add t d) = nanos t + d /\ time_wf (Add t d).
Proof.
  unfold time_sane, time_wf, Add, nanos. intros [Hn Hs] Hd.
  pose proof (Z.quot_rem' d Second) as Hq. pose proof (Z.rem_bound_abs d Second ltac:(done)) as Hr.
  change (Z.abs Second) with Second in Hr. apply Z.abs_lt in Hr.
  revert Hq Hr. generalize (Z.quot d Second) (Z.rem d Second). unfold Second, MinInt64, MaxInt64 in *. intros q r Hq Hr.
  destruct (Z.leb_spec 1000000000 (t_nsec t + r)); [|destruct (Z.ltb_spec (t_nsec t + r) 0)];
    cbn [t_sec t_nsec]; rewrite i64_small by (unfold MinInt64, MaxInt64; lia); lia.
Qed.

(** A clock that has not gone back does not see a later deadline expire earlier. *)
Lemma After_Add_mono now t t' d : time_sane t -> time_sane t' -> time_wf now -> MinInt64 <= d <= MaxInt64 ->
  After t t' = false -> After now (Add t d) = false -> After now (Add t' d) = false.
Proof.
  intros Ht Ht' Hn Hd H1 H2. destruct (Add_nanos t d Ht Hd), (Add_nanos t' d Ht' Hd), Ht, Ht'.
  rewrite After_nanos in * by done. go_bool. apply Z.ltb_ge. lia.
Qed.

Lemma After_true t u : After t u = true <-> t_sec u < t_sec t \/ (t_sec t = t_sec u /\ t_nsec u < t_nsec t).
Proof. unfold After. by rewrite orb_true_iff, andb_true_iff, !Z.ltb_lt, Z.eqb_eq. Qed.

Lemma After_false t u : After t u = false <-> t_sec t < t_sec u \/ (t_sec t = t_sec u /\ t_nsec t <= t_nsec u).
Proof. rewrite <- not_true_iff_false, After_true. lia. Qed.

Lemma Before_trans_neg x y z : Before y z = true -> Before x z = false -> Before x y = false.
Proof. unfold Before. rewrite After_true, !After_false. lia. Qed.

Lemma After_irrefl t : After t t = false.
Proof. rewrite After_false. lia. Qed.
