(* ===== verification/Codec.v ===== *)
(** backend/pkg/state/codec.go and model.go: transactions, their validation,
    and the canonical byte strings that are hashed and signed. *)
From S2P Require Import Prelude Bytes Sha256 GoTime.

(** The sentinel and ad hoc errors of package [state]. *)
Inductive state_error :=
| ErrOversize | ErrSkew | ErrStaleVersion | ErrInvalidKey | ErrInvalidValue
| ErrBlockTooLarge | ErrNonceReplay | ErrNotFound
| ErrProducerIDSize | ErrNonceSize.

#[export] Instance state_error_eq_dec : EqDecision state_error.
Proof. solve_decision. Defined.

Module Codec.

Definition DomainEventTx : bytes := str "APP_EVENT_V1".
Definition DomainEvidenceTx : bytes := str "APP_EVIDENCE_V1".
Definition DomainPolicyTx : bytes := str "APP_POLICY_V1".
Definition DomainStateLeaf : bytes := str "STATE_LEAF_V1".
Definition DomainStateNode : bytes := str "STATE_NODE_V1".

Definition MaxTxPayloadSize : Z := Z.shiftl 1 20.
Definition MaxSignedEnvelope : Z := Z.shiftl 2 20.
Definition MaxProducerIDSize : Z := 64.
Definition NonceSize : Z := 16.
Definition MaxAlgSize : Z := 16.
Definition PubKeyEd25519Size : Z := 32.
Definition SigEd25519Size : Z := 64.
Definition MaxCoCEntries : Z := 64.
Definition MaxActorIDSize : Z := 64.

Definition ValidateSize (n max : Z) : result state_error unit :=
  if (n <? 0) || (max <? n) then Err ErrOversize else Ok tt.

Definition CheckSkew (unixSeconds : Z) (now : Time) (skew : Z) : result state_error unit :=
  let ts := time_Unix unixSeconds in
  if skew <? Sub now ts then Err ErrSkew
  else if skew <? Sub ts now then Err ErrSkew
  else Ok tt.

Definition CanonicalTxBytes (domain : bytes) (ts : Z) (payload : bytes) : result state_error bytes :=
  _ ← ValidateSize (len payload) MaxTxPayloadSize;
  Ok (domain ++ [x00] ++ be_put 8 (u64 ts) ++ payload).

Definition HashBytes (b : bytes) : bytes := sha256 b.
Definition ContentHash (payload : bytes) : bytes := sha256 payload.

Definition TxHash (domain : bytes) (ts : Z) (payload : bytes) : result state_error bytes :=
  b ← CanonicalTxBytes domain ts payload;
  Ok (HashBytes b).

(** The preimages of the Merkle hashes. *)
Definition leaf_preimage (key value : bytes) : bytes :=
  DomainStateLeaf ++ [x00] ++ be_put 4 (len key mod 2 ^ 32) ++ key ++ sha256 value.
Definition LeafHash (key value : bytes) : bytes := sha256 (leaf_preimage key value).

Definition node_preimage (left right : bytes) : bytes :=
  DomainStateNode ++ [x00] ++ left ++ right.
Definition NodeHash (left right : bytes) : bytes := sha256 (node_preimage left right).

Definition BuildSignBytes (domain : bytes) (ts : Z) (producerID nonce contentHash : bytes)
  : result state_error bytes :=
  if (len producerID =? 0) || (MaxProducerIDSize <? len producerID) then Err ErrProducerIDSize
  else if negb (len nonce =? NonceSize) then Err ErrNonceSize
  else Ok (domain ++ [x00] ++ be_put 8 (u64 ts) ++ be_put 2 (len producerID mod 2 ^ 16) ++
           producerID ++ nonce ++ contentHash).

End Codec.
Import Codec.

Module Model.

(** [TxType]: the three constants of the string type. *)
Inductive TxType := TxEvent | TxEvidence | TxPolicy.

#[export] Instance TxType_eq_dec : EqDecision TxType.
Proof. solve_decision. Defined.

Record Envelope := MkEnvelope {
  ProducerID : bytes; Nonce : bytes; EnvContentHash : bytes;
  Alg : bytes; PubKey : bytes; Signature : bytes }.

Record CoCEntry := MkCoC { RefHash : bytes; ActorID : bytes; CoCTs : Z; CoCSignature : bytes }.

Record EventTx := MkEventTx { ev_Ts : Z; ev_Data : bytes; ev_Env : Envelope }.
Record EvidenceTx := MkEvidenceTx { evi_Ts : Z; evi_Data : bytes; evi_Env : Envelope; CoC : list CoCEntry }.
Record PolicyTx := MkPolicyTx { pol_Ts : Z; pol_Data : bytes; pol_Env : Envelope }.

(** The [Transaction] interface and its three implementations. *)
Inductive Transaction :=
| AnEvent (t : EventTx)
| AnEvidence (t : EvidenceTx)
| APolicy (t : PolicyTx).

Definition Type_ (tx : Transaction) : TxType :=
  match tx with AnEvent _ => TxEvent | AnEvidence _ => TxEvidence | APolicy _ => TxPolicy end.
Definition Timestamp (tx : Transaction) : Z :=
  match tx with AnEvent t => ev_Ts t | AnEvidence t => evi_Ts t | APolicy t => pol_Ts t end.
Definition Payload (tx : Transaction) : bytes :=
  match tx with AnEvent t => ev_Data t | AnEvidence t => evi_Data t | APolicy t => pol_Data t end.
Definition Envelope_ (tx : Transaction) : Envelope :=
  match tx with AnEvent t => ev_Env t | AnEvidence t => evi_Env t | APolicy t => pol_Env t end.
Definition Canonical (tx : Transaction) : result state_error bytes :=
  match tx with
  | AnEvent t => CanonicalTxBytes DomainEventTx (ev_Ts t) (ev_Data t)
  | AnEvidence t => CanonicalTxBytes DomainEvidenceTx (evi_Ts t) (evi_Data t)
  | APolicy t => CanonicalTxBytes DomainPolicyTx (pol_Ts t) (pol_Data t)
  end.
Definition Hash (tx : Transaction) : result state_error bytes :=
  match tx with
  | AnEvent t => TxHash DomainEventTx (ev_Ts t) (ev_Data t)
  | AnEvidence t => TxHash DomainEvidenceTx (evi_Ts t) (evi_Data t)
  | APolicy t => TxHash DomainPolicyTx (pol_Ts t) (pol_Data t)
  end.

(** The checks the three [Validate] methods share, in source order. *)
Definition validate_common (ts : Z) (data : bytes) (env : Envelope) (now : Time) (skew : Z)
  : result state_error unit :=
  _ ← ValidateSize (len data) MaxTxPayloadSize;
  _ ← CheckSkew ts now skew;
  if (len (ProducerID env) =? 0) || (MaxProducerIDSize <? len (ProducerID env)) then Err ErrInvalidKey
  else if negb (len (Nonce env) =? NonceSize) then Err ErrInvalidKey
  else if negb (bool_decide (ContentHash data = EnvContentHash env)) then Err ErrInvalidValue
  else if (len (Alg env) =? 0) || (MaxAlgSize <? len (Alg env)) then Err ErrInvalidValue
  else if (len (PubKey env) =? 0) || (len (Signature env) =? 0) then Err ErrInvalidValue
  else Ok tt.

Definition EventTx_Validate (t : EventTx) (now : Time) (skew : Z) : result state_error unit :=
  validate_common (ev_Ts t) (ev_Data t) (ev_Env t) now skew.

Definition coc_entry_bad (c : CoCEntry) : bool :=
  (len (ActorID c) =? 0) || (MaxActorIDSize <? len (ActorID c)) || (len (CoCSignature c) =? 0).

Definition EvidenceTx_Validate (t : EvidenceTx) (now : Time) (skew : Z) : result state_error unit :=
  _ ← validate_common (evi_Ts t) (evi_Data t) (evi_Env t) now skew;
  if (len (CoC t) =? 0) || (MaxCoCEntries <? len (CoC t)) then Err ErrInvalidValue
  else if existsb coc_entry_bad (CoC t) then Err ErrInvalidValue
  else Ok tt.

Definition PolicyTx_Validate (t : PolicyTx) (now : Time) (skew : Z) : result state_error unit :=
  validate_common (pol_Ts t) (pol_Data t) (pol_Env t) now skew.

Definition Validate (tx : Transaction) (now : Time) (skew : Z) : result state_error unit :=
  match tx with
  | AnEvent t => EventTx_Validate t now skew
  | AnEvidence t => EvidenceTx_Validate t now skew
  | APolicy t => PolicyTx_Validate t now skew
  end.

End Model.
Import Model.

(** ** Lemmas *)

(** A NUL-terminated prefix is uniquely decodable. *)
Lemma nul_prefix_inj (d d' r r' : bytes) :
  x00 ∉ d -> x00 ∉ d' -> d ++ x00 :: r = d' ++ x00 :: r' -> d = d' /\ r = r'.
Proof.
  revert d'. induction d as [|x d IH]; intros [|y d'] Hd Hd'; cbn; intros H.
  - by injection H.
  - injection H as <- ->. exfalso. apply Hd'. left.
  - injection H as -> <-. exfalso. apply Hd. left.
  - injection H as -> H. apply not_elem_of_cons in Hd as [_ Hd].
    apply not_elem_of_cons in Hd' as [_ Hd'].
    by apply IH in H as [-> ->].
Qed.

Lemma ValidateSize_ok n max :
  ValidateSize n max = Ok tt <-> 0 <= n <= max.
Proof.
  unfold ValidateSize. destruct (_ || _) eqn:H.
  - split; [done|]. apply orb_true_iff in H. rewrite !Z.ltb_lt in H. lia.
  - split; [|done]. go_bool. lia.
Qed.

(** Signed 64-bit timestamps. *)
Definition int64 (z : Z) : Prop := MinInt64 <= z <= MaxInt64.

Lemma be_put8_u64_inj a b : int64 a -> int64 b -> be_put 8 (u64 a) = be_put 8 (u64 b) -> a = b.
Proof.
  intros Ha Hb H. rewrite <- (i64_u64 a), <- (i64_u64 b) by done.
  f_equal. apply be_put_inj in H; [done| |]; apply u64_range.
Qed.

Definition txn_domain (d : bytes) : Prop :=
  d = DomainEventTx \/ d = DomainEvidenceTx \/ d = DomainPolicyTx.

Lemma txn_domain_no_nul d : txn_domain d -> x00 ∉ d.
Proof.
  intros [->|[->| ->]]; apply (bool_decide_unpack (_ ∉ _)); vm_compute; exact I.
Qed.

Lemma CanonicalTxBytes_ok d ts p b :
  CanonicalTxBytes d ts p = Ok b ->
  len p <= MaxTxPayloadSize /\ b = d ++ x00 :: be_put 8 (u64 ts) ++ p.
Proof.
  unfold CanonicalTxBytes. intros H. go_inv H.
  destruct a. apply ValidateSize_ok in Hstep. split; [lia|done].
Qed.

Lemma CanonicalTxBytes_inj d ts p d' ts' p' b :
  x00 ∉ d -> x00 ∉ d' -> int64 ts -> int64 ts' ->
  CanonicalTxBytes d ts p = Ok b -> CanonicalTxBytes d' ts' p' = Ok b ->
  d = d' /\ ts = ts' /\ p = p'.
Proof.
  intros Hd Hd' Hts Hts' H H'.
  apply CanonicalTxBytes_ok in H as [_ ->]. apply CanonicalTxBytes_ok in H' as [_ H'].
  apply nul_prefix_inj in H' as [-> H']; [|done..].
  apply app_inj_len in H' as [Hz ->]; [|by rewrite !length_be_put].
  by apply be_put8_u64_inj in Hz as ->.
Qed.

Lemma BuildSignBytes_ok d ts pid nonce h b :
  BuildSignBytes d ts pid nonce h = Ok b ->
  0 < len pid <= MaxProducerIDSize /\ len nonce = NonceSize /\
  b = d ++ x00 :: be_put 8 (u64 ts) ++ be_put 2 (len pid mod 2 ^ 16) ++ pid ++ nonce ++ h.
Proof.
  unfold BuildSignBytes. intros H. go_inv H. go_bool.
  pose proof (len_nonneg pid). split; [lia|done].
Qed.

Lemma validate_common_ok ts data env now skew :
  validate_common ts data env now skew = Ok tt ->
  len data <= MaxTxPayloadSize /\ CheckSkew ts now skew = Ok tt /\
  0 < len (ProducerID env) <= MaxProducerIDSize /\ len (Nonce env) = NonceSize /\
  EnvContentHash env = ContentHash data /\ PubKey env <> [] /\ Signature env <> [].
Proof.
  unfold validate_common. intros H. go_inv H. destruct a, a0. go_bool.
  apply ValidateSize_ok in Hstep. pose proof (len_nonneg (ProducerID env)).
  repeat split; try done; try lia;
    intros He; rewrite He in *; done.
Qed.

Lemma Validate_common tx now skew :
  Validate tx now skew = Ok tt ->
  validate_common (Timestamp tx) (Payload tx) (Envelope_ tx) now skew = Ok tt.
Proof.
  destruct tx as [t|t|t]; cbn; [done| |done].
  unfold EvidenceTx_Validate. intros H. go_inv H. by destruct a.
Qed.

(** What every admitted transaction satisfies. *)
Lemma Validate_ok tx now skew :
  Validate tx now skew = Ok tt ->
  len (Payload tx) <= MaxTxPayloadSize /\
  0 < len (ProducerID (Envelope_ tx)) <= MaxProducerIDSize /\
  len (Nonce (Envelope_ tx)) = NonceSize /\
  EnvContentHash (Envelope_ tx) = ContentHash (Payload tx).
Proof.
  intros H. apply Validate_common, validate_common_ok in H as (? & _ & ? & ? & ? & _). done.
Qed.
#[export] Hint Resolve Validate_ok : cyber.

(** ** Properties *)

(** [CheckSkew] accepts exactly the timestamps within [skew] of [now], on both
    sides, for instants whose distance fits a [Duration]. *)
Theorem CheckSkew_window (sec skew : Z) (now : Time)
  (Hsec : MinInt64 <= sec + unixToInternal <= MaxInt64)
  (Hrange : - MaxInt64 <= nanos now - (sec + unixToInternal) * Second <= MaxInt64) :
  CheckSkew sec now skew = Ok tt <->
  Z.abs (nanos now - (sec + unixToInternal) * Second) <= skew.
Proof.
  unfold CheckSkew. rewrite !Sub_exact; rewrite nanos_Unix by done;
    unfold MinInt64, MaxInt64 in *; [|lia|lia].
  destruct (Z.ltb_spec skew (nanos now - (sec + unixToInternal) * Second));
    [split; [done|lia]|].
  destruct (Z.ltb_spec skew ((sec + unixToInternal) * Second - nanos now));
    split; [done|lia|lia|done].
Qed.

(** Two transactions of any types with the same transaction hash have the same
    type, timestamp and payload, or their canonical bytes are an explicit
    SHA-256 collision. *)
Theorem Hash_binding (tx tx' : Transaction) (h : bytes)
  (Hts : int64 (Timestamp tx)) (Hts' : int64 (Timestamp tx'))
  (Hh : Model.Hash tx = Ok h) (Hh' : Model.Hash tx' = Ok h) :
  exists b b', Canonical tx = Ok b /\ Canonical tx' = Ok b' /\
    ((Type_ tx = Type_ tx' /\ Timestamp tx = Timestamp tx' /\ Payload tx = Payload tx')
     \/ Collides b b').
Proof.
  assert (Hcanon : forall t, Model.Hash t = Ok h ->
    exists b d, txn_domain d /\ Canonical t = Ok b /\ sha256 b = h /\
      CanonicalTxBytes d (Timestamp t) (Payload t) = Ok b /\
      d = match Type_ t with TxEvent => DomainEventTx | TxEvidence => DomainEvidenceTx
          | TxPolicy => DomainPolicyTx end).
  { intros [t|t|t]; cbn; unfold TxHash, HashBytes, txn_domain; intros H; go_inv H;
      do 2 eexists; (split_and!; [|exact Hstep|done|exact Hstep|done]); auto. }
  destruct (Hcanon _ Hh) as (b & d & Hd & Hb & Hs & Hc & Hdt).
  destruct (Hcanon _ Hh') as (b' & d' & Hd' & Hb' & Hs' & Hc' & Hdt').
  exists b, b'. split_and!; [done..|].
  destruct (sha256_inj_or_collision b b') as [<-|Hcol]; [congruence| |by right].
  left. apply (CanonicalTxBytes_inj _ _ _ _ _ _ _ (txn_domain_no_nul _ Hd)
    (txn_domain_no_nul _ Hd') Hts Hts' Hc) in Hc' as (Hdd & -> & ->).
  split; [|done]. subst d d'.
  by destruct (Type_ tx), (Type_ tx').
Qed.

Definition demo_env : Envelope :=
  MkEnvelope (str "producer-1") (replicate 16 x01) (sha256 (str "payload"))
             (str "ed25519") (replicate 32 x02) (replicate 64 x03).
Definition demo_event : EventTx := MkEventTx 1700000000 (str "payload") demo_env.

Lemma CheckSkew_window_witness :
  CheckSkew 1700000000 (time_Unix 1700000003) (5 * Second) = Ok tt.
Proof.
  apply (CheckSkew_window 1700000000 (5 * Second) (time_Unix 1700000003));
    vm_compute; try split; discriminate.
Defined.

Lemma Hash_binding_witness :
  exists b b', Canonical (AnEvent demo_event) = Ok b /\ Canonical (AnEvent demo_event) = Ok b' /\
    ((Type_ (AnEvent demo_event) = Type_ (AnEvent demo_event) /\
      1700000000 = 1700000000 /\ str "payload" = str "payload") \/ Collides b b').
Proof.
  apply (Hash_binding (AnEvent demo_event) (AnEvent demo_event)
    (sha256 (DomainEventTx ++ x00 :: be_put 8 (u64 1700000000) ++ str "payload"))).
  - vm_compute; split; discriminate.
  - vm_compute; split; discriminate.
  - reflexivity.
  - reflexivity.
Defined.
