(* ===== verification/Merkle.v ===== *)
(** backend/pkg/state/merkle.go and the proof functions of query.go: the state
    root as a binary Merkle tree over the sorted key/value pairs, inclusion
    proofs, and their verification. *)
From S2P Require Import Prelude Bytes Sha256 Codec.
Import Codec.

(** [KVPair]: key and value. *)
Abbreviation KVPair := (bytes * bytes)%type.

(** The less function of every [sort.Slice] on pairs. *)
Definition kv_le (p q : KVPair) : Prop := bytes_le p.1 q.1.

#[export] Instance kv_le_dec : RelDecision kv_le.
Proof. intros p q. unfold kv_le. apply _. Defined.
#[export] Instance kv_le_total : Total kv_le.
Proof. intros p q. apply (total bytes_le). Qed.
#[export] Instance kv_le_trans : Transitive kv_le.
Proof. intros p q r. apply (transitivity (R := bytes_le)). Qed.

Definition sort_pairs (pairs : list KVPair) : list KVPair := merge_sort kv_le pairs.

Definition leaf_of (p : KVPair) : bytes := LeafHash p.1 p.2.

(** One round of the loop of [BuildRoot]: an odd last node is hashed with zero. *)
Fixpoint next_level (level : list bytes) : list bytes :=
  match level with
  | a :: b :: rest => NodeHash a b :: next_level rest
  | [a] => [NodeHash a zero32]
  | [] => []
  end.

(** [for n := len(level); n > 1; { ... }]; fuel [len(level)] is enough. *)
Fixpoint merkle_loop (fuel : nat) (level : list bytes) : list bytes :=
  match fuel with
  | O => level
  | S fuel' => if len level <=? 1 then level else merkle_loop fuel' (next_level level)
  end.

Definition BuildRoot (pairs : list KVPair) : bytes :=
  if len pairs =? 0 then HashBytes []
  else
    let leaves := leaf_of <$> sort_pairs pairs in
    nth 0 (merkle_loop (length leaves) leaves) zero32.

Record MerkleProof := MkProof { Leaf : bytes; Siblings : list bytes; Left : list bool }.

(** The sibling of position [pos] at one level and whether it is on the left. *)
Definition sibling (level : list bytes) (pos : nat) : bytes * bool :=
  if Nat.even pos
  then (if (pos + 1 <? length level)%nat then nth (pos + 1) level zero32 else zero32, false)
  else (nth (pos - 1) level zero32, true).

(** The loop of [Proof]: siblings from the leaf up, and the last level. *)
Fixpoint proof_loop (fuel : nat) (level : list bytes) (pos : nat)
  : list (bytes * bool) * list bytes :=
  match fuel with
  | O => ([], level)
  | S fuel' =>
      if len level <=? 1 then ([], level)
      else
        let '(path, top) := proof_loop fuel' (next_level level) (pos / 2) in
        (sibling level pos :: path, top)
  end.

(** Last index whose key is [key]. *)
Fixpoint find_index (key : bytes) (pairs : list KVPair) (i : nat) (idx : option nat) : option nat :=
  match pairs with
  | [] => idx
  | p :: rest => find_index key rest (S i) (if bool_decide (p.1 = key) then Some i else idx)
  end.

(** [Proof] on the pairs of a snapshot. *)
Definition prove_pairs (pairs : list KVPair) (key : bytes) : result state_error (MerkleProof * bytes) :=
  let sorted := sort_pairs pairs in
  let leaves := leaf_of <$> sorted in
  match find_index key sorted 0 None with
  | None => Err ErrNotFound
  | Some idx =>
      let '(path, top) := proof_loop (length leaves) leaves idx in
      Ok (MkProof (nth idx leaves zero32) (path.*1) (path.*2), nth 0 top zero32)
  end.

(** The loop of [VerifyProof]; [None] is the index panic when [Left] is
    shorter than [Siblings]. *)
Fixpoint verify_fold (h : bytes) (sibs : list bytes) (left : list bool) : option bytes :=
  match sibs, left with
  | [], _ => Some h
  | s :: sibs', l :: left' =>
      verify_fold (if l : bool then NodeHash s h else NodeHash h s) sibs' left'
  | _ :: _, [] => None
  end.

Definition VerifyProof (root : bytes) (p : MerkleProof) : option bool :=
  match verify_fold (Leaf p) (Siblings p) (Left p) with
  | Some h => Some (bool_decide (h = root))
  | None => None
  end.

(** ** The tree as iterated levels *)

Lemma length_next_level l : length (next_level l) = ((length l + 1) / 2)%nat.
Proof.
  induction l as [|a|a b l IH] using list_pair_ind; [done|done|].
  cbn [next_level length]. rewrite IH.
  replace (S (S (length l)) + 1)%nat with ((length l + 1) + 1 * 2)%nat by lia.
  rewrite Nat.div_add by lia. lia.
Qed.

Lemma next_level_shorter l : (1 < length l)%nat -> (length (next_level l) < length l)%nat.
Proof. intros H. rewrite length_next_level. apply Nat.Div0.div_lt_upper_bound; lia. Qed.

Lemma next_level_nonempty l : l <> [] -> next_level l <> [].
Proof. by destruct l as [|a [|b l]]. Qed.

Lemma len_le_1 {A} (l : list A) : (len l <=? 1) = true <-> (length l <= 1)%nat.
Proof. unfold len. rewrite Z.leb_le. lia. Qed.

(** Termination: with the fuel [BuildRoot] and [Proof] use, the loop ends with
    a single hash, reached in at most [length l] rounds. *)
Lemma merkle_loop_iter fuel l :
  l <> [] -> (length l <= fuel)%nat ->
  exists d root, (d < length l)%nat /\
    Nat.iter d next_level l = [root] /\ merkle_loop fuel l = [root].
Proof.
  revert l. induction fuel as [|fuel IH]; intros l Hl Hf.
  { destruct l; [done|cbn in Hf; lia]. }
  cbn [merkle_loop]. destruct (len l <=? 1) eqn:H1.
  - apply len_le_1 in H1. destruct l as [|r [|? ?]]; [done| |cbn in H1; lia].
    exists 0%nat, r. split_and!; [cbn; lia|done|done].
  - assert (Hlen : (1 < length l)%nat).
    { destruct (decide (1 < length l)%nat) as [|Hn]; [done|].
      assert (Hc : (length l <= 1)%nat) by lia. apply len_le_1 in Hc. congruence. }
    pose proof (next_level_shorter l Hlen).
    destruct (IH (next_level l)) as (d & r & Hd & Hiter & Hloop);
      [by apply next_level_nonempty|lia|].
    exists (S d), r. split_and!; [lia| |done].
    rewrite Nat.iter_succ_r. done.
Qed.

(** The proof loop visits the same levels. *)
Lemma proof_loop_top fuel l pos : (proof_loop fuel l pos).2 = merkle_loop fuel l.
Proof.
  revert l pos. induction fuel as [|fuel IH]; intros l pos; [done|].
  cbn [proof_loop merkle_loop]. destruct (len l <=? 1); [done|].
  specialize (IH (next_level l) (pos / 2)%nat).
  by destruct (proof_loop fuel (next_level l) (pos / 2)).
Qed.

(** The parent of position [pos]. *)
Lemma next_level_lookup l pos :
  (pos < length l)%nat ->
  nth (pos / 2) (next_level l) zero32 =
  (let '(s, isLeft) := sibling l pos in
   if isLeft : bool then NodeHash s (nth pos l zero32) else NodeHash (nth pos l zero32) s).
Proof.
  revert pos. induction l as [|a|a b l IH] using list_pair_ind;
    intros pos Hpos; cbn [length] in Hpos; [lia| |].
  - assert (pos = 0%nat) as -> by lia. done.
  - destruct pos as [|[|pos]]; [done|done|].
    replace (S (S pos) / 2)%nat with (S (pos / 2)); last first.
    { replace (S (S pos)) with (pos + 1 * 2)%nat by lia. rewrite Nat.div_add by lia. lia. }
    cbn [next_level nth]. rewrite IH by lia.
    unfold sibling. cbn [Nat.even].
    destruct (Nat.even pos) eqn:He.
    + cbn [length Nat.add]. change (S (S (pos + 1)) <? S (S (length l)))%nat
        with (pos + 1 <? length l)%nat. done.
    + destruct pos as [|pos]; [done|].
      replace (S (S (S pos)) - 1)%nat with (S (S (S pos - 1))) by lia. done.
Qed.

Definition fold_path (h : bytes) (path : list (bytes * bool)) : bytes :=
  foldl (fun h '(s, isLeft) => if isLeft : bool then NodeHash s h else NodeHash h s) h path.

Lemma verify_fold_path h path : verify_fold h path.*1 path.*2 = Some (fold_path h path).
Proof.
  revert h. induction path as [|[s l] path IH]; intros h; [done|]. cbn. apply IH.
Qed.

Lemma proof_loop_correct fuel l pos :
  (pos < length l)%nat -> (length l <= fuel)%nat ->
  fold_path (nth pos l zero32) (proof_loop fuel l pos).1 = nth 0 (merkle_loop fuel l) zero32.
Proof.
  revert l pos. induction fuel as [|fuel IH]; intros l pos Hpos Hf; [lia|].
  cbn [proof_loop merkle_loop]. destruct (len l <=? 1) eqn:H1.
  - apply len_le_1 in H1. assert (pos = 0%nat) as -> by lia. done.
  - assert (Hlen : (1 < length l)%nat).
    { destruct (decide (1 < length l)%nat) as [|Hn]; [done|].
      assert (Hc : (length l <= 1)%nat) by lia. apply len_le_1 in Hc. congruence. }
    pose proof (next_level_shorter l Hlen).
    rewrite <- (IH (next_level l) (pos / 2)%nat); [|rewrite length_next_level|lia].
    + rewrite next_level_lookup by done.
      destruct (proof_loop fuel (next_level l) (pos / 2)) as [path top]. cbn [fst].
      destruct (sibling l pos) as [s [|]]; done.
    + apply Nat.Div0.div_lt_upper_bound.
      pose proof (Nat.div_mod_eq (length l + 1) 2). pose proof (Nat.mod_upper_bound (length l + 1) 2). lia.
Qed.

(** ** Sorting *)

Lemma sort_pairs_perm pairs : sort_pairs pairs ≡ₚ pairs.
Proof. apply merge_sort_Permutation. Qed.

Lemma sort_pairs_sorted pairs : StronglySorted kv_le (sort_pairs pairs).
Proof. apply StronglySorted_merge_sort; apply _. Qed.

(** With distinct keys the sorted list does not depend on the order in which
    the Go map was ranged over. *)
Lemma sort_pairs_perm_eq p q :
  NoDup p.*1 -> p ≡ₚ q -> sort_pairs p = sort_pairs q.
Proof.
  intros Hnd Hpq. apply (StronglySorted_Permutation_eq kv_le).
  - intros [k v] [k' v'] Hx Hy H1 H2. unfold kv_le in *. cbn in *.
    assert (k = k') as <- by (by apply (anti_symm bytes_le)).
    rewrite sort_pairs_perm in Hx, Hy. f_equal.
    apply (NoDup_fst_functional p k); done.
  - apply sort_pairs_sorted.
  - apply sort_pairs_sorted.
  - by rewrite !sort_pairs_perm.
Qed.

(** ** Index of a key *)

Lemma find_index_acc key pairs i idx :
  find_index key pairs i idx =
  match find_index key pairs i None with Some j => Some j | None => idx end.
Proof.
  revert i idx. induction pairs as [|p pairs IH]; intros i idx; [done|].
  cbn [find_index]. rewrite IH. rewrite (IH _ (if bool_decide (p.1 = key) then Some i else None)).
  destruct (find_index key pairs (S i) None); [done|]. by case_bool_decide.
Qed.

Lemma find_index_some key pairs i idx :
  find_index key pairs i None = Some idx ->
  exists j v, idx = (i + j)%nat /\ pairs !! j = Some (key, v).
Proof.
  revert i. induction pairs as [|[k v] pairs IH]; intros i; [done|].
  cbn [find_index fst]. rewrite find_index_acc.
  destruct (find_index key pairs (S i) None) as [j|] eqn:Hj.
  - intros [= <-]. apply IH in Hj as (j' & v' & -> & Hl).
    exists (S j'), v'. split; [lia|done].
  - case_bool_decide as Hk; [|done]. subst. intros [= <-]. exists 0%nat, v. split; [lia|done].
Qed.

Lemma find_index_none key pairs i :
  find_index key pairs i None = None <-> key ∉ pairs.*1.
Proof.
  revert i. induction pairs as [|[k v] pairs IH]; intros i; cbn [find_index fst fmap list_fmap].
  { split; [intros _; apply not_elem_of_nil|done]. }
  rewrite find_index_acc, not_elem_of_cons, <- (IH (S i)).
  destruct (find_index key pairs (S i) None); [by split; [|intros [_ ?]]|].
  case_bool_decide; subst; [by split; [|intros [? _]]|].
  split; [|done]. intros _. split; congruence.
Qed.

(** ** Completeness of proofs *)

Lemma prove_pairs_verify pairs key p root :
  prove_pairs pairs key = Ok (p, root) ->
  root = BuildRoot pairs /\ VerifyProof root p = Some true /\
  exists v, (key, v) ∈ pairs /\ Leaf p = LeafHash key v.
Proof.
  unfold prove_pairs, BuildRoot.
  destruct (find_index key (sort_pairs pairs) 0 None) as [idx|] eqn:Hidx; [|done].
  apply find_index_some in Hidx as (j & v & -> & Hj). cbn [Nat.add].
  set (leaves := leaf_of <$> sort_pairs pairs).
  assert (Hlj : leaves !! j = Some (LeafHash key v)).
  { unfold leaves. by rewrite list_lookup_fmap, Hj. }
  assert (Hlt : (j < length leaves)%nat) by (by apply lookup_lt_Some in Hlj).
  assert (Hnth : nth j leaves zero32 = LeafHash key v) by (by apply nth_lookup_Some).
  pose proof (proof_loop_correct (length leaves) leaves j Hlt (le_n _)) as Hfold.
  pose proof (proof_loop_top (length leaves) leaves j) as Htop.
  destruct (proof_loop (length leaves) leaves j) as [path top]. cbn [fst snd] in Hfold, Htop.
  intros [= <- <-]. subst top. cbn [Leaf].
  assert (Hin : (key, v) ∈ pairs).
  { rewrite <- sort_pairs_perm. by apply list_elem_of_lookup_2 in Hj. }
  split_and!.
  - destruct (len pairs =? 0) eqn:H0; [|done].
    apply Z.eqb_eq in H0. unfold len in H0.
    destruct pairs as [|? ?]; [exfalso; exact (not_elem_of_nil _ Hin)|cbn in H0; lia].
  - unfold VerifyProof. cbn [Leaf Siblings Left].
    rewrite verify_fold_path, Hfold. by rewrite bool_decide_true.
  - by exists v.
Qed.

(** ** Soundness of proofs *)

Section soundness.
(** The snapshot being proved against. *)
Variable pairs : list KVPair.
Let leaves : list bytes := leaf_of <$> sort_pairs pairs.

(** The [d]-th level of the tree. *)
Definition tree_level (d : nat) : list bytes := Nat.iter d next_level leaves.

(** Inputs hashed to build one level from the one below. *)
Fixpoint node_inputs (l : list bytes) : list bytes :=
  match l with
  | a :: b :: rest => node_preimage a b :: node_inputs rest
  | [a] => [node_preimage a zero32]
  | [] => []
  end.

(** Everything [BuildRoot] hashes: values, leaves, inner nodes, and the
    empty string for the empty tree. *)
Definition tree_input (x : bytes) : Prop :=
  x = [] \/ (exists k v, (k, v) ∈ pairs /\ (x = v \/ x = leaf_preimage k v)) \/
  exists d, (d < length leaves)%nat /\ x ∈ node_inputs (tree_level d).

(** Everything a verifier hashes: the value, its leaf, and one node per
    sibling. *)
Fixpoint path_inputs (h : bytes) (path : list (bytes * bool)) : list bytes :=
  match path with
  | [] => []
  | (s, isLeft) :: path' =>
      let x := if isLeft : bool then node_preimage s h else node_preimage h s in
      x :: path_inputs (sha256 x) path'
  end.
Definition proof_inputs (k v : bytes) (path : list (bytes * bool)) : list bytes :=
  v :: leaf_preimage k v :: path_inputs (LeafHash k v) path.

(** A forgery: an explicit collision between what the prover and the tree
    hashed, or a proof input that hashes to the zero padding. *)
Definition forgery (k v : bytes) (path : list (bytes * bool)) : Prop :=
  exists x, x ∈ proof_inputs k v path /\
    (sha256 x = zero32 \/ exists y, tree_input y /\ Collides x y).

Lemma next_level_elem l h :
  h ∈ next_level l -> exists a b, node_preimage a b ∈ node_inputs l /\ h = NodeHash a b /\
    a ∈ l /\ (b ∈ l \/ b = zero32).
Proof.
  induction l as [|a|a b l IH] using list_pair_ind; cbn.
  - by intros ?%not_elem_of_nil.
  - intros ->%list_elem_of_singleton. exists a, zero32.
    split_and!; [by left|done|by left|by right].
  - intros [->|H]%elem_of_cons.
    + exists a, b. split_and!; [by left|done|by left|left; by right; left].
    + apply IH in H as (a' & b' & ? & ? & ? & Hb). exists a', b'.
      split_and!; [by right|done|by do 2 right|].
      destruct Hb as [Hb|Hb]; [left; by do 2 right|by right].
Qed.

Lemma node_preimage_inj a b a' b' :
  length a = length a' -> node_preimage a b = node_preimage a' b' -> a = a' /\ b = b'.
Proof.
  unfold node_preimage. intros Hl H. do 2 apply app_inv_head in H.
  by apply app_inj_len in H.
Qed.

Lemma leaf_preimage_inj k v k' v' :
  leaf_preimage k v = leaf_preimage k' v' -> k = k' /\ sha256 v = sha256 v'.
Proof.
  unfold leaf_preimage. intros H. do 2 apply app_inv_head in H.
  apply app_inj_len in H as [_ H]; [|by rewrite !length_be_put].
  apply app_inj_len_r in H; [done|]. by rewrite !length_sha256.
Qed.

Lemma leaf_node_preimage_ne k v a b : leaf_preimage k v <> node_preimage a b.
Proof. unfold leaf_preimage, node_preimage. intros H. discriminate H. Qed.

Lemma leaves_elem h : h ∈ leaves -> exists k v, (k, v) ∈ pairs /\ h = LeafHash k v.
Proof.
  unfold leaves. intros ([k v] & -> & Hin)%list_elem_of_fmap.
  rewrite sort_pairs_perm in Hin. by exists k, v.
Qed.

Lemma tree_level_length32 d h : h ∈ tree_level d -> length h = 32%nat.
Proof.
  destruct d as [|d]; cbn.
  - intros (k & v & _ & ->)%leaves_elem. apply length_sha256.
  - intros (a & b & _ & -> & _)%next_level_elem. apply length_sha256.
Qed.

Lemma path_inputs_snoc h path s isLeft :
  path_inputs h (path ++ [(s, isLeft)]) =
  path_inputs h path ++
    [if isLeft : bool then node_preimage s (fold_path h path)
     else node_preimage (fold_path h path) s].
Proof.
  revert h. induction path as [|[t [|]] path IH]; intros h; [done| |];
    cbn [app path_inputs fold_path foldl]; f_equal; apply IH.
Qed.

(** The hash reached after a prefix of the path is the hash of an input of
    the proof. *)
Lemma fold_path_input k v path :
  exists x, x ∈ proof_inputs k v path /\ fold_path (LeafHash k v) path = sha256 x /\ x <> [].
Proof.
  destruct path as [|[s isLeft] path] using rev_ind.
  - exists (leaf_preimage k v). split; [right; by left|done].
  - unfold proof_inputs. rewrite path_inputs_snoc.
    unfold fold_path. rewrite foldl_snoc. fold (fold_path (LeafHash k v) path).
    eexists. split; [do 2 right; apply elem_of_app; right; by left|]. by destruct isLeft.
Qed.

Lemma proof_inputs_snoc k v path s isLeft x :
  x ∈ proof_inputs k v path -> x ∈ proof_inputs k v (path ++ [(s, isLeft)]).
Proof.
  unfold proof_inputs. rewrite path_inputs_snoc, !elem_of_cons, elem_of_app. tauto.
Qed.

Lemma forgery_snoc k v path s isLeft :
  forgery k v path -> forgery k v (path ++ [(s, isLeft)]).
Proof. intros (x & Hx & H). exists x. split; [by apply proof_inputs_snoc|done]. Qed.

(** One step down the tree along a sibling. *)
Lemma step_down k v path s isLeft d :
  length s = 32%nat -> (d < length leaves)%nat ->
  fold_path (LeafHash k v) (path ++ [(s, isLeft)]) ∈ tree_level (S d) ->
  forgery k v (path ++ [(s, isLeft)]) \/ fold_path (LeafHash k v) path ∈ tree_level d.
Proof.
  intros Hs Hd Hin. set (h := fold_path (LeafHash k v) path).
  assert (Hh : length h = 32%nat).
  { destruct (fold_path_input k v path) as (x & _ & Hx & _). unfold h. rewrite Hx. apply length_sha256. }
  cbn in Hin. apply next_level_elem in Hin as (a & b & Hab & Heq & Ha & Hb).
  set (x := if isLeft : bool then node_preimage s h else node_preimage h s).
  assert (Hx : x ∈ proof_inputs k v (path ++ [(s, isLeft)])).
  { unfold proof_inputs. rewrite path_inputs_snoc. do 2 right. apply elem_of_app. right. by left. }
  unfold fold_path in Heq. rewrite foldl_snoc in Heq. fold (fold_path (LeafHash k v) path) in Heq.
  assert (Hsha : sha256 x = sha256 (node_preimage a b)).
  { change (sha256 x = NodeHash a b). rewrite <- Heq. unfold x. by destruct isLeft. }
  pose proof (tree_level_length32 d a Ha) as Hla.
  destruct (sha256_inj_or_collision _ _ Hsha) as [Hxy|Hcol].
  - assert (Hcases : h = a \/ h = b).
    { unfold x in Hxy. destruct isLeft; apply node_preimage_inj in Hxy as [? ?]; auto; congruence. }
    destruct Hcases as [Hha|Hhb]; [right; by rewrite Hha|].
    destruct Hb as [Hb|Hb]; [right; by rewrite Hhb|]. left.
    destruct (fold_path_input k v path) as (y & Hy & Hfold & _).
    exists y. split; [by apply proof_inputs_snoc|]. left. unfold h in Hhb. congruence.
  - left. exists x. split; [done|]. right. exists (node_preimage a b). split; [|done].
    right; right. by exists d.
Qed.

(** A path whose fold lands on a level of the tree starts at a pair of the
    snapshot, or it is a forgery. *)
Lemma path_sound k v path d :
  Forall (fun sl => length sl.1 = 32%nat) path -> (d < length leaves)%nat ->
  fold_path (LeafHash k v) path ∈ tree_level d ->
  (k, v) ∈ pairs \/ forgery k v path.
Proof.
  revert d. induction path as [|[s isLeft] path IH] using rev_ind; intros d Hall Hd Hin.
  - set (x := leaf_preimage k v).
    assert (Hx : x ∈ proof_inputs k v []) by (right; by left).
    destruct d as [|d]; cbn in Hin.
    + apply leaves_elem in Hin as (k' & v' & Hkv & Heq).
      destruct (sha256_inj_or_collision _ _ Heq) as [Hp|Hcol].
      * apply leaf_preimage_inj in Hp as [-> Hv].
        destruct (sha256_inj_or_collision _ _ Hv) as [->|Hcol]; [by left|].
        right. exists v. split; [by left|]. right. exists v'. split; [|done].
        right; left. exists k', v'. auto.
      * right. exists x. split; [done|]. right. exists (leaf_preimage k' v'). split; [|done].
        right; left. exists k', v'. auto.
    + apply next_level_elem in Hin as (a & b & Hab & Heq & _).
      right. exists x. split; [done|]. right. exists (node_preimage a b).
      split; [right; right; exists d; split; [lia|done]|].
      split; [apply leaf_node_preimage_ne|done].
  - apply Forall_app in Hall as [Hall Hs]. rewrite Forall_singleton in Hs. cbn in Hs.
    destruct d as [|d].
    + cbn in Hin. apply leaves_elem in Hin as (k' & v' & Hkv & Heq).
      right. unfold fold_path in Heq. rewrite foldl_snoc in Heq.
      fold (fold_path (LeafHash k v) path) in Heq.
      eexists. split.
      { unfold proof_inputs. rewrite path_inputs_snoc. do 2 right. apply elem_of_app. right. by left. }
      right. exists (leaf_preimage k' v'). split; [right; left; exists k', v'; auto|].
      split; [|by destruct isLeft].
      destruct isLeft; intros Hn; symmetry in Hn; by apply leaf_node_preimage_ne in Hn.
    + destruct (step_down k v path s isLeft d) as [Hf|Hdown]; [done|lia|done|by right|].
      destruct (IH d) as [|Hf]; [done|lia|done|by left|]. right. by apply forgery_snoc.
Qed.
End soundness.

(** ** What a root binds *)

#[local] Opaque sha256.

Section binding.
Variables p q : list KVPair.

(** An explicit failure of SHA-256 on what the two trees hash: a collision between
    them, or a preimage of the padding. *)
Definition trees_forged : Prop :=
  (exists x y, tree_input p x /\ tree_input q y /\ Collides x y) \/
  (exists x, (tree_input p x \/ tree_input q x) /\ sha256 x = zero32).

Lemma cons_inv {A} (x y : A) l l' : x :: l = y :: l' -> x = y /\ l = l'.
Proof. by intros [= -> ->]. Qed.

Lemma next_level_inj l l' :
  Forall (fun h => length h = 32%nat) l -> Forall (fun h => length h = 32%nat) l' -> next_level l = next_level l' ->
  l = l' \/ (exists x y, x ∈ node_inputs l /\ y ∈ node_inputs l' /\ Collides x y) \/ zero32 ∈ l \/ zero32 ∈ l'.
Proof.
  assert (Hnode : forall a b a' b', length a = 32%nat -> length a' = 32%nat -> NodeHash a b = NodeHash a' b' ->
    (a = a' /\ b = b') \/ Collides (node_preimage a b) (node_preimage a' b')).
  { intros a b a' b' Ha Ha' H. destruct (sha256_inj_or_collision _ _ H) as [Hx|Hx]; [left|by right].
    apply node_preimage_inj in Hx; [done|congruence]. }
  revert l'. induction l as [|a|a b l IH] using list_pair_ind; intros l' Hl Hl'.
  - destruct l' as [|a' [|b' l']]; [by left|done|done].
  - rewrite Forall_singleton in Hl. destruct l' as [|a' [|b' l']]; [done| |].
    + rewrite Forall_singleton in Hl'. intros (H & _)%cons_inv. destruct (Hnode _ _ _ _ Hl Hl' H) as [[-> _]|Hc]; [by left|].
      right; left. do 2 eexists. split_and!; [by left|by left|done].
    + rewrite Forall_cons in Hl'; destruct Hl' as [Ha' Hl']. intros (H & Hn)%cons_inv. destruct (Hnode _ _ _ _ Hl Ha' H) as [[-> <-]|Hc].
      * do 3 right. right. by left.
      * right; left. do 2 eexists. split_and!; [by left|by left|done].
  - rewrite Forall_cons in Hl; destruct Hl as [Ha Hl]. rewrite Forall_cons in Hl; destruct Hl as [Hb Hl].
    destruct l' as [|a' [|b' l']]; [done| |].
    + rewrite Forall_singleton in Hl'. intros (H & Hn)%cons_inv. destruct (Hnode _ _ _ _ Ha Hl' H) as [[-> ->]|Hc].
      * do 2 right. left. right. by left.
      * right; left. do 2 eexists. split_and!; [by left|by left|done].
    + rewrite Forall_cons in Hl'; destruct Hl' as [Ha' Hl']. rewrite Forall_cons in Hl'; destruct Hl' as [Hb' Hl'].
      intros (H & Hn)%cons_inv. destruct (Hnode _ _ _ _ Ha Ha' H) as [[-> ->]|Hc].
      * destruct (IH l' Hl Hl' Hn) as [-> |[(x & y & Hx & Hy & Hc)|[Hz|Hz]]]; [by left| | |].
        -- right; left. exists x, y. split_and!; [by right|by right|done].
        -- do 2 right. left. by do 2 right.
        -- do 3 right. by do 2 right.
      * right; left. do 2 eexists. split_and!; [by left|by left|done].
Qed.

Lemma tree_level_hashed k d h : (d < length k)%nat -> h ∈ tree_level k d -> exists x, tree_input k x /\ h = sha256 x /\ x <> [].
Proof.
  destruct d as [|d]; intros Hd H.
  - apply leaves_elem in H as (a & b & Hab & ->). exists (leaf_preimage a b). split_and!; [|reflexivity|discriminate].
    right; left. eauto.
  - apply next_level_elem in H as (a & b & Hab & -> & _). exists (node_preimage a b).
    split_and!; [|reflexivity|discriminate].
    right; right. exists d. split; [|exact Hab]. rewrite length_fmap, sort_pairs_perm. lia.
Qed.

Lemma node_inputs_hashed k d x : (d < length k)%nat -> x ∈ node_inputs (tree_level k d) -> tree_input k x.
Proof. intros Hd Hx. right; right. exists d. by rewrite length_fmap, sort_pairs_perm. Qed.

Lemma tree_level_32 k d : Forall (fun h => length h = 32%nat) (tree_level k d).
Proof. apply Forall_forall. intros h. apply tree_level_length32. Qed.

(** A leaf of one tree is no inner node of the other. *)
Lemma leaf_no_node k k' d' h : (S d' < length k')%nat -> h ∈ tree_level k 0 -> h ∈ tree_level k' (S d') ->
  exists x y, tree_input k x /\ tree_input k' y /\ Collides x y.
Proof.
  intros Hd H H'. apply leaves_elem in H as (a & b & Hab & ->).
  apply next_level_elem in H' as (c & e & Hin & Heq & _).
  exists (leaf_preimage a b), (node_preimage c e). split_and!; [right; left; eauto|by apply (node_inputs_hashed k' d'); [lia|]|].
  split; [apply leaf_node_preimage_ne|done].
Qed.
End binding.

Lemma trees_forged_sym p q : trees_forged p q -> trees_forged q p.
Proof.
  intros [(x & y & Hx & Hy & Hne & H)|(x & Hx & H)]; [left|right].
  - exists y, x. split_and!; [done..|]. by split; [apply not_eq_sym|].
  - exists x. split; [tauto|done].
Qed.

Lemma levels_binding p q d d' r :
  (d < length p)%nat -> (d' < length q)%nat -> tree_level p d = [r] -> tree_level q d' = [r] ->
  tree_level p 0 = tree_level q 0 \/ trees_forged p q.
Proof.
  assert (Hgen : forall L, tree_level p d = L -> tree_level q d' = L -> L <> [] ->
    (d < length p)%nat -> (d' < length q)%nat -> tree_level p 0 = tree_level q 0 \/ trees_forged p q).
  2: { intros Hd Hd' H H'. by apply (Hgen [r]). }
  revert d'. induction d as [|d IH]; intros [|d'] L H H' HL Hd Hd'.
  - left. congruence.
  - right. left. destruct L as [|h L]; [done|].
    apply (leaf_no_node p q d' h); [done|rewrite H; by left|rewrite H'; by left].
  - right. apply trees_forged_sym. left. destruct L as [|h L]; [done|].
    apply (leaf_no_node q p d h); [done|rewrite H'; by left|rewrite H; by left].
  - destruct (next_level_inj (tree_level p d) (tree_level q d')) as [Heq|[(x & y & Hx & Hy & Hc)|Hz]];
      [apply tree_level_32|apply tree_level_32|exact (eq_trans H (eq_sym H'))| | |].
    + eapply IH; [reflexivity|by rewrite <- Heq| |lia|lia]. intros He. apply HL. rewrite <- H.
      change (next_level (tree_level p d) = []). by rewrite He.
    + right. left. exists x, y. split_and!; [apply (node_inputs_hashed p d)|apply (node_inputs_hashed q d')|]; done || lia.
    + right. right. destruct Hz as [Hz|Hz]; apply tree_level_hashed in Hz as (x & Hx & Hz & _); try lia; eauto.
Qed.

Lemma leaves_binding (p q l l' : list KVPair) : (forall kv, kv ∈ l -> kv ∈ p) -> (forall kv, kv ∈ l' -> kv ∈ q) ->
  leaf_of <$> l = leaf_of <$> l' -> l = l' \/ trees_forged p q.
Proof.
  revert l'. induction l as [|[k v] l IH]; intros [|[k' v'] l'] Hp Hq H; [by left|done|done|].
  apply cons_inv in H as [H Hl].
  assert (Hkv : (k, v) ∈ p) by (apply Hp; by left). assert (Hkv' : (k', v') ∈ q) by (apply Hq; by left).
  destruct (sha256_inj_or_collision _ _ H) as [Heq|Hc].
  2: { right. left. exists (leaf_preimage k v), (leaf_preimage k' v'). split_and!; [right; left; eauto..|done]. }
  cbn [fst snd] in Heq. apply leaf_preimage_inj in Heq as [-> Hv]. destruct (sha256_inj_or_collision _ _ Hv) as [->|Hc].
  2: { right. left. exists v, v'. split_and!; [right; left; eauto..|done]. }
  destruct (IH l') as [->|Hf]; [| |exact Hl|by left|by right].
  - intros kv Hin. apply Hp. by right.
  - intros kv Hin. apply Hq. by right.
Qed.

Lemma BuildRoot_level p : p <> [] -> exists d, (d < length p)%nat /\ tree_level p d = [BuildRoot p].
Proof.
  intros Hp. unfold BuildRoot. destruct (len p =? 0) eqn:H0.
  { apply Z.eqb_eq in H0. unfold len in H0. destruct p; [done|cbn in H0; lia]. }
  set (leaves := leaf_of <$> sort_pairs p).
  assert (Hlen : length leaves = length p) by (unfold leaves; by rewrite length_fmap, sort_pairs_perm).
  destruct (merkle_loop_iter (length leaves) leaves) as (d & r & Hd & Hi & Hm); [|done|].
  { intros He. rewrite He in Hlen. by destruct p. }
  exists d. split; [by rewrite <- Hlen|]. rewrite Hm. exact Hi.
Qed.

Lemma BuildRoot_nonempty p q : p = [] -> q <> [] -> BuildRoot p = BuildRoot q -> trees_forged p q.
Proof.
  intros -> Hq H. left. destruct (BuildRoot_level q Hq) as (d & Hd & Hl).
  destruct (tree_level_hashed q d (BuildRoot q) Hd) as (x & Hx & Hr & Hne); [rewrite Hl; by left|].
  exists [], x. split_and!; [by left|exact Hx|]. split; [by apply not_eq_sym|]. by rewrite <- Hr.
Qed.

(** Equal roots mean equal contents, or SHA-256 has failed on an input of one of
    the two trees. *)
Lemma BuildRoot_binding p q : BuildRoot p = BuildRoot q -> p ≡ₚ q \/ trees_forged p q.
Proof.
  intros H. destruct (decide (p = [])) as [Hp|Hp]; destruct (decide (q = [])) as [Hq|Hq].
  - left. by rewrite Hp, Hq.
  - right. by apply BuildRoot_nonempty.
  - right. by apply trees_forged_sym, BuildRoot_nonempty.
  - destruct (BuildRoot_level p Hp) as (d & Hd & Hl). destruct (BuildRoot_level q Hq) as (d' & Hd' & Hl').
    rewrite <- H in Hl'. destruct (levels_binding p q d d' _ Hd Hd' Hl Hl') as [He|Hf]; [|by right].
    destruct (leaves_binding p q (sort_pairs p) (sort_pairs q)) as [Hs|Hf]; [| |exact He| |by right].
    + intros kv. by rewrite sort_pairs_perm.
    + intros kv. by rewrite sort_pairs_perm.
    + left. by rewrite <- (sort_pairs_perm p), Hs, sort_pairs_perm.
Qed.

(** ** Properties *)

(** The root and the proofs of a snapshot do not depend on the order in which
    the Go map was iterated. *)
Theorem BuildRoot_order_independent (p q : list KVPair)
  (Hnd : NoDup p.*1) (Hpq : p ≡ₚ q) :
  BuildRoot p = BuildRoot q /\ (forall key, prove_pairs p key = prove_pairs q key).
Proof.
  unfold BuildRoot, prove_pairs. rewrite (sort_pairs_perm_eq p q) by done.
  split; [|done]. unfold len. by rewrite (Permutation_length Hpq).
Qed.

(** Proof generation is complete: it fails exactly on absent keys, and every
    proof it returns verifies against the root [BuildRoot] computes, for a
    leaf of the snapshot. *)
Theorem proof_complete (pairs : list KVPair) (key : bytes) :
  match prove_pairs pairs key with
  | Ok (p, root) =>
      root = BuildRoot pairs /\ VerifyProof root p = Some true /\
      exists v, (key, v) ∈ pairs /\ Leaf p = LeafHash key v
  | Err e => e = ErrNotFound /\ key ∉ pairs.*1
  end.
Proof.
  destruct (prove_pairs pairs key) as [[p root]|e] eqn:Hp.
  - by apply prove_pairs_verify.
  - unfold prove_pairs in Hp.
    destruct (find_index key (sort_pairs pairs) 0 None) as [idx|] eqn:Hidx.
    { by destruct (proof_loop _ _ _). }
    injection Hp as <-. split; [done|].
    apply find_index_none in Hidx. by rewrite sort_pairs_perm in Hidx.
Qed.

(** C18. Proof verification is sound: a proof that verifies against the root of a
    snapshot is a proof for a pair of that snapshot, or it exhibits a SHA-256
    collision with an input of the tree or a preimage of the zero padding. *)
Theorem proof_sound (pairs : list KVPair) (k v : bytes) (p : MerkleProof)
  (Hleaf : Leaf p = LeafHash k v)
  (Hsib : Forall (fun s => length s = 32%nat) (Siblings p))
  (Hver : VerifyProof (BuildRoot pairs) p = Some true) :
  (k, v) ∈ pairs \/ forgery pairs k v (zip (Siblings p) (Left p)).
Proof.
  set (path := zip (Siblings p) (Left p)).
  assert (Hfold : fold_path (LeafHash k v) path = BuildRoot pairs /\
                  Forall (fun sl => length sl.1 = 32%nat) path).
  { unfold path, VerifyProof in *. rewrite Hleaf in Hver.
    destruct p as [lf sibs lefts]. cbn [Siblings Left] in *. clear Hleaf lf path.
    set (h := LeafHash k v) in *. clearbody h. revert lefts h Hver.
    induction sibs as [|s sibs IH]; intros [|l lefts] h Hver; cbn in *;
      try (by case_bool_decide; [split|]); try done.
    inversion Hsib as [|? ? Hs Hsib']; subst.
    destruct (IH Hsib' lefts _ Hver) as [Hf Hall]. split; [exact Hf|by constructor]. }
  destruct Hfold as [Hfold Hall]. unfold BuildRoot in Hfold.
  destruct (len pairs =? 0) eqn:H0.
  - apply Z.eqb_eq in H0. unfold len in H0. destruct pairs; [|cbn in H0; lia].
    destruct (fold_path_input k v path) as (x & Hx & Heq & Hne). right.
    exists x. split; [done|]. right. exists []. split; [by left|]. split; [done|].
    exact (eq_trans (eq_sym Heq) Hfold).
  - set (leaves := leaf_of <$> sort_pairs pairs) in *.
    assert (Hlne : leaves <> []).
    { unfold leaves. intros Hn. apply fmap_nil_inv in Hn.
      pose proof (Permutation_length (sort_pairs_perm pairs)) as Hl. rewrite Hn in Hl.
      apply Z.eqb_neq in H0. unfold len in H0. cbn in Hl. lia. }
    destruct (merkle_loop_iter (length leaves) leaves Hlne (le_n _)) as (d & root & Hd & Hiter & Hloop).
    rewrite Hloop in Hfold. cbn in Hfold.
    apply (path_sound pairs k v path d Hall Hd).
    unfold tree_level. fold leaves. rewrite Hiter, Hfold. by left.
Qed.

Definition demo_pairs : list KVPair :=
  [(str "b", str "2"); (str "a", str "1"); (str "c", str "3")].

Lemma BuildRoot_order_independent_witness :
  BuildRoot demo_pairs = BuildRoot (rev demo_pairs) /\
  (forall key, prove_pairs demo_pairs key = prove_pairs (rev demo_pairs) key).
Proof.
  apply (BuildRoot_order_independent demo_pairs (rev demo_pairs)).
  - apply (bool_decide_unpack (NoDup _)). vm_compute. exact I.
  - symmetry. apply Permutation_rev.
Defined.

Definition demo_proof : MerkleProof :=
  match prove_pairs demo_pairs (str "c") with
  | Ok (p, _) => p
  | Err _ => MkProof [] [] []
  end.

Lemma proof_sound_witness :
  (str "c", str "3") ∈ demo_pairs \/
  forgery demo_pairs (str "c") (str "3") (zip (Siblings demo_proof) (Left demo_proof)).
Proof.
  apply (proof_sound demo_pairs (str "c") (str "3") demo_proof).
  - vm_compute. reflexivity.
  - apply (bool_decide_unpack (Forall _ _)). vm_compute. exact I.
  - vm_compute. reflexivity.
Defined.
