(* ===== verification/Store.v ===== *)
(** backend/pkg/state/store.go and snapshot.go: the versioned in-memory store
    and its buffered transactions. *)
From S2P Require Import Prelude Bytes Sha256 Codec Merkle.
Import Codec.

Definition MaxStateKeySize : Z := 256.
Definition MaxStateValueSize : Z := Z.shiftl 1 20.

(** The content of one version. *)
Abbreviation snapshot := (gmap bytes bytes).

Record MemStore := MkStore {
  snaps : gmap Z snapshot;
  roots : gmap Z bytes;
  latest : Z }.

Definition NewMemStore : MemStore := MkStore {[0 := ∅]} {[0 := HashBytes []]} 0.

Definition Latest (m : MemStore) : Z := latest m.
Definition Root (m : MemStore) (version : Z) : option bytes := roots m !! version.

(** [writes] maps a key to the new value; [None] is Go's nil slice, which both
    [Delete] and a [Put] of an empty value store. *)
Record Txn := MkTxn { baseVersion : Z; writes : gmap bytes (option bytes) }.

Definition Begin (m : MemStore) (version : Z) : result state_error Txn :=
  match snaps m !! version with
  | None => Err ErrStaleVersion
  | Some _ => if negb (version =? latest m) then Err ErrStaleVersion else Ok (MkTxn version ∅)
  end.

Definition Get (m : MemStore) (version : Z) (key : bytes) : option bytes :=
  snap ← snaps m !! version; snap !! key.

(** [append([]byte(nil), value...)]: nil when [value] is empty. *)
Definition go_copy (value : bytes) : option bytes :=
  match value with [] => None | _ => Some value end.

Definition bad_key (key : bytes) : bool := (len key =? 0) || (MaxStateKeySize <? len key).

Definition Put (t : Txn) (key value : bytes) : result state_error Txn :=
  if bad_key key then Err ErrInvalidKey
  else if MaxStateValueSize <? len value then Err ErrInvalidValue
  else Ok (MkTxn (baseVersion t) (<[key := go_copy value]> (writes t))).

Definition Delete (t : Txn) (key : bytes) : result state_error Txn :=
  if bad_key key then Err ErrInvalidKey
  else Ok (MkTxn (baseVersion t) (<[key := None]> (writes t))).

Definition Txn_Get (m : MemStore) (t : Txn) (key : bytes) : option bytes :=
  match writes t !! key with
  | Some w => w
  | None => Get m (baseVersion t) key
  end.

(** The overlay of the buffered writes on the base snapshot. *)
Definition overlay (base : snapshot) (ws : gmap bytes (option bytes)) : snapshot :=
  merge (fun w b => match w with Some w' => w' | None => b end) ws base.

Definition snapshot_root (s : snapshot) : bytes := BuildRoot (sort_pairs (map_to_list s)).

Definition Commit (m : MemStore) (t : Txn) (newVersion : Z) : result state_error (MemStore * bytes) :=
  if negb (newVersion =? u64 (baseVersion t + 1)) || negb (latest m =? baseVersion t)
  then Err ErrStaleVersion
  else
    let base := default ∅ (snaps m !! baseVersion t) in
    let next := overlay base (writes t) in
    let root := snapshot_root next in
    Ok (MkStore (<[newVersion := next]> (snaps m)) (<[newVersion := root]> (roots m)) newVersion,
        root).

(** ** snapshot.go *)

Definition ListVersions (m : MemStore) : list Z := merge_sort Z.le (map_to_list (snaps m)).*1.

Definition VerifyRoot (m : MemStore) (version : Z) : bool :=
  match snaps m !! version with
  | None => false
  | Some snap =>
      match roots m !! version with
      | Some r => bool_decide (snapshot_root snap = r)
      | None => false
      end
  end.

Definition PruneRetain (m : MemStore) (retain : Z) : MemStore :=
  let versions := merge_sort Z.le (map_to_list (snaps m)).*1 in
  if (retain =? 0) || (len versions <=? retain) then m
  else
    let cutoffIdx := len versions - retain in
    foldl (fun m v => if v =? latest m then m
                      else MkStore (delete v (snaps m)) (delete v (roots m)) (latest m))
          m (take (Z.to_nat cutoffIdx) versions).

Definition ExportSnapshot (m : MemStore) (version : Z) : option (list KVPair) :=
  snap ← snaps m !! version; Some (sort_pairs (map_to_list snap)).

(** [MemStore.Proof] of query.go. *)
Definition Proof_ (m : MemStore) (version : Z) (key : bytes) : result state_error (MerkleProof * bytes) :=
  match snaps m !! version with
  | None => Err ErrNotFound
  | Some snap => prove_pairs (map_to_list snap) key
  end.

(** ** Basic lemmas *)

Lemma lookup_overlay base ws k :
  overlay base ws !! k = match ws !! k with Some w => w | None => base !! k end.
Proof.
  unfold overlay. rewrite lookup_merge.
  destruct (ws !! k) as [w|], (base !! k) as [b|]; by cbn.
Qed.

Lemma Put_ok t k v t' :
  Put t k v = Ok t' ->
  bad_key k = false /\ len v <= MaxStateValueSize /\
  t' = MkTxn (baseVersion t) (<[k := go_copy v]> (writes t)).
Proof. unfold Put. intros H. go_inv H. go_bool. auto. Qed.

Lemma Txn_Get_Put m t k v t' k' :
  Put t k v = Ok t' ->
  Txn_Get m t' k' = if decide (k = k') then go_copy v else Txn_Get m t k'.
Proof.
  intros (_ & _ & ->)%Put_ok. unfold Txn_Get. cbn. rewrite lookup_insert. by case_decide.
Qed.

Lemma snapshot_root_eq s : snapshot_root s = BuildRoot (map_to_list s).
Proof.
  unfold snapshot_root, BuildRoot.
  assert (Hp : sort_pairs (map_to_list s) ≡ₚ map_to_list s) by apply sort_pairs_perm.
  rewrite (sort_pairs_perm_eq (sort_pairs (map_to_list s)) (map_to_list s)); [|rewrite Hp; apply NoDup_fst_map_to_list|done].
  unfold len. by rewrite (Permutation_length Hp).
Qed.

(** ** The store invariant *)

(** Content a transaction can write. *)
Definition snapshot_ok (s : snapshot) : Prop :=
  forall k v, s !! k = Some v -> bad_key k = false /\ v <> [] /\ len v <= MaxStateValueSize.

Record store_ok (m : MemStore) : Prop := {
  ok_latest : is_Some (snaps m !! latest m);
  ok_roots : forall v, roots m !! v = snapshot_root <$> (snaps m !! v);
  ok_range : forall v, is_Some (snaps m !! v) -> 0 <= v < two64;
  ok_snaps : forall v s, snaps m !! v = Some s -> snapshot_ok s }.

(** The buffered writes of a transaction built with [Put] and [Delete]. *)
Definition txn_ok (t : Txn) : Prop :=
  forall k w, writes t !! k = Some w ->
    bad_key k = false /\ forall v, w = Some v -> v <> [] /\ len v <= MaxStateValueSize.

Lemma go_copy_some v w : go_copy v = Some w -> w = v /\ v <> [].
Proof. destruct v; cbn; [done|]. by intros [= <-]. Qed.

Lemma Put_txn_ok t k v t' : txn_ok t -> Put t k v = Ok t' -> txn_ok t'.
Proof.
  intros Ht (Hk & Hv & ->)%Put_ok k' w. cbn. rewrite lookup_insert.
  case_decide as Hkk; [|apply Ht]. subst. intros [= <-]. split; [done|].
  intros v' [-> ?]%go_copy_some. done.
Qed.

Lemma Delete_txn_ok t k t' : txn_ok t -> Delete t k = Ok t' -> txn_ok t'.
Proof.
  unfold Delete. intros Ht H. go_inv H. intros k' w. cbn. rewrite lookup_insert.
  case_decide as Hkk; [|apply Ht]. subst. by intros [= <-].
Qed.

Lemma overlay_ok base t : snapshot_ok base -> txn_ok t -> snapshot_ok (overlay base (writes t)).
Proof.
  intros Hb Ht k v. rewrite lookup_overlay.
  destruct (writes t !! k) as [w|] eqn:Hw; [|apply Hb].
  intros ->. destruct (Ht _ _ Hw) as [? Hv]. destruct (Hv v eq_refl). auto.
Qed.

Lemma empty_snapshot_ok : snapshot_ok ∅.
Proof. intros k v. by rewrite lookup_empty. Qed.

Lemma NewMemStore_ok : store_ok NewMemStore.
Proof.
  split; cbn.
  - rewrite lookup_singleton_eq. by eexists.
  - intros v. rewrite !lookup_singleton. by case_decide.
  - intros v [s Hs]. apply lookup_singleton_Some in Hs as [<- _]. by vm_compute.
  - intros v s Hs. apply lookup_singleton_Some in Hs as [_ <-]. apply empty_snapshot_ok.
Qed.

Lemma Commit_ok_inv m t nv m' root :
  Commit m t nv = Ok (m', root) ->
  nv = u64 (baseVersion t + 1) /\ latest m = baseVersion t /\
  let next := overlay (default ∅ (snaps m !! baseVersion t)) (writes t) in
  root = snapshot_root next /\
  m' = MkStore (<[nv := next]> (snaps m)) (<[nv := root]> (roots m)) nv.
Proof. unfold Commit. intros H. go_inv H. go_bool. cbn. auto. Qed.

Lemma Commit_store_ok m t nv m' root :
  store_ok m -> txn_ok t -> Commit m t nv = Ok (m', root) -> store_ok m'.
Proof.
  intros Hm Ht (-> & Hl & -> & ->)%Commit_ok_inv. split; cbn.
  - rewrite lookup_insert_eq. by eexists.
  - intros v. rewrite !lookup_insert. case_decide; [done|]. apply (ok_roots _ Hm).
  - intros v. rewrite lookup_insert. case_decide; [|apply (ok_range _ Hm)].
    intros _. subst v. apply u64_range.
  - intros v s. rewrite lookup_insert. case_decide; [|apply (ok_snaps _ Hm)].
    intros [= <-]. apply overlay_ok; [|done].
    destruct (snaps m !! baseVersion t) eqn:Hb; cbn; [|apply empty_snapshot_ok].
    by apply (ok_snaps _ Hm) in Hb.
Qed.

Lemma prune_fold_ok l m :
  store_ok m ->
  store_ok (foldl (fun m v => if v =? latest m then m
                      else MkStore (delete v (snaps m)) (delete v (roots m)) (latest m)) m l).
Proof.
  intros Hm. apply (foldl_invariant store_ok); [done|].
  intros m' v _ Hm'. destruct (v =? latest m') eqn:Hv; [done|]. go_bool. split; cbn.
  - rewrite lookup_delete_ne by done. apply (ok_latest _ Hm').
  - intros v'. rewrite !lookup_delete. case_decide; [done|]. apply (ok_roots _ Hm').
  - intros v'. rewrite lookup_delete. case_decide; [by intros []|]. apply (ok_range _ Hm').
  - intros v' s. rewrite lookup_delete. case_decide; [done|]. apply (ok_snaps _ Hm').
Qed.

Lemma PruneRetain_store_ok m r : store_ok m -> store_ok (PruneRetain m r).
Proof. intros Hm. unfold PruneRetain. case_match; [done|]. by apply prune_fold_ok. Qed.

#[export] Hint Resolve Put_txn_ok Delete_txn_ok NewMemStore_ok Commit_store_ok
  PruneRetain_store_ok : cyber.

(** ** Reachable stores *)

(** Transactions as the API builds them. *)
Inductive txn_built : Txn -> Prop :=
| tb_begin m v t : Begin m v = Ok t -> txn_built t
| tb_put t k v t' : txn_built t -> Put t k v = Ok t' -> txn_built t'
| tb_delete t k t' : txn_built t -> Delete t k = Ok t' -> txn_built t'.

(** Stores as the API builds them, under any interleaving of transactions,
    commits and pruning. *)
Inductive store_reachable : MemStore -> Prop :=
| sr_new : store_reachable NewMemStore
| sr_commit m t v m' root :
    store_reachable m -> txn_built t -> Commit m t v = Ok (m', root) -> store_reachable m'
| sr_prune m retain : store_reachable m -> store_reachable (PruneRetain m retain).

Lemma txn_built_ok t : txn_built t -> txn_ok t.
Proof.
  induction 1 as [m v t H|t k v t' _ IH H|t k t' _ IH H]; eauto with cyber.
  unfold Begin in H. go_inv H. intros k w. cbn. by rewrite lookup_empty.
Qed.

Lemma store_reachable_ok m : store_reachable m -> store_ok m.
Proof. induction 1; eauto using txn_built_ok with cyber. Qed.

(** ** Pruning *)

Definition versions (m : MemStore) : list Z := merge_sort Z.le (map_to_list (snaps m)).*1.

Lemma versions_elem m v : v ∈ versions m <-> is_Some (snaps m !! v).
Proof.
  unfold versions. rewrite merge_sort_Permutation, list_elem_of_fmap. split.
  - intros ([v' s] & -> & Hin). apply elem_of_map_to_list in Hin. by eexists.
  - intros [s Hs]. exists (v, s). split; [done|]. by apply elem_of_map_to_list.
Qed.

Lemma versions_NoDup m : NoDup (versions m).
Proof. unfold versions. rewrite merge_sort_Permutation. apply NoDup_fst_map_to_list. Qed.

Lemma versions_sorted m : StronglySorted Z.le (versions m).
Proof. apply StronglySorted_merge_sort; apply _. Qed.

(** The number of versions strictly newer than [v]. *)
Definition newer (m : MemStore) (v : Z) : nat := length (filter (fun u => v < u) (versions m)).

Lemma sorted_newer (l : list Z) i v :
  StronglySorted Z.le l -> NoDup l -> l !! i = Some v ->
  length (filter (fun u => v < u) l) = (length l - S i)%nat.
Proof.
  intros Hs. revert i. induction Hs as [|x l Hs IH Hx]; intros i Hnd Hi; [done|].
  apply NoDup_cons in Hnd as [Hnin Hnd]. rewrite filter_cons. destruct i as [|i]; cbn in Hi.
  - injection Hi as ->. rewrite decide_False by lia. cbn.
    assert (Hall : forall l', (forall u, u ∈ l' -> v < u) -> length (filter (fun u => v < u) l') = length l').
    { induction l' as [|u l' IH']; intros Hu; [done|]. rewrite filter_cons, decide_True by (apply Hu; by left).
      cbn. f_equal. apply IH'. intros w Hw. apply Hu. by right. }
    rewrite Hall; [lia|]. intros u Hu. rewrite Forall_forall in Hx.
    assert (v <> u) by (by intros ->). apply Hx in Hu. lia.
  - rewrite decide_False; [cbn; by rewrite (IH i)|].
    assert (Hv : v ∈ l) by (by apply list_elem_of_lookup_2 in Hi).
    rewrite Forall_forall in Hx. apply Hx in Hv. lia.
Qed.

Lemma prune_fold_lookup l m v :
  let m' := foldl (fun m v => if v =? latest m then m
                      else MkStore (delete v (snaps m)) (delete v (roots m)) (latest m)) m l in
  latest m' = latest m /\
  snaps m' !! v = (if decide (v ∈ l /\ v <> latest m) then None else snaps m !! v) /\
  roots m' !! v = (if decide (v ∈ l /\ v <> latest m) then None else roots m !! v).
Proof.
  revert m. induction l as [|u l IH]; intros m; cbn.
  - rewrite !decide_False by (intros [H _]; by apply not_elem_of_nil in H). done.
  - destruct (Z.eqb_spec u (latest m)) as [Hu|Hu].
    + destruct (IH m) as (-> & -> & ->). split; [done|].
      split; (destruct (decide (v ∈ l /\ v <> latest m)) as [[? ?]|Hn];
        [rewrite decide_True; [done|split; [by right|done]]|]);
        rewrite decide_False; try done; intros [[->|?]%elem_of_cons ?]; auto.
    + destruct (IH (MkStore (delete u (snaps m)) (delete u (roots m)) (latest m)))
        as (-> & -> & ->). cbn. split; [done|].
      split; rewrite lookup_delete;
      repeat case_decide; try done; try (exfalso; rewrite elem_of_cons in *; naive_solver).
Qed.

(** ** Properties *)

(** C19. On every store the API can reach, under any interleaving of commits and
    pruning, the recorded root of every kept version verifies against its
    snapshot, the latest version is present, and no stored value is empty. *)
Theorem reachable_roots_verify (m : MemStore) (H : store_reachable m) :
  is_Some (snaps m !! latest m) /\
  (forall v, VerifyRoot m v = true <-> v ∈ ListVersions m) /\
  (forall v k x, Get m v k = Some x -> x <> []).
Proof.
  apply store_reachable_ok in H as Hok. split_and!.
  - apply (ok_latest _ Hok).
  - intros v. change (ListVersions m) with (versions m). rewrite versions_elem.
    unfold VerifyRoot. rewrite (ok_roots _ Hok).
    destruct (snaps m !! v) as [s|]; cbn; [|split; [done|by intros []]].
    rewrite bool_decide_true by done. by split; [eexists|].
  - intros v k x. unfold Get. destruct (snaps m !! v) as [s|] eqn:Hs; cbn; [|done].
    intros Hx. by apply (ok_snaps _ Hok _ _ Hs) in Hx as (_ & ? & _).
Qed.

(** Pruning with a positive [retain] keeps exactly the latest version and the
    [retain] newest ones, with their snapshots and roots unchanged. *)
Theorem PruneRetain_keeps_newest (m : MemStore) (retain v : Z) (Hr : 0 < retain) :
  latest (PruneRetain m retain) = latest m /\
  snaps (PruneRetain m retain) !! v =
    (if decide (v = latest m \/ Z.of_nat (newer m v) < retain) then snaps m !! v else None).
Proof.
  unfold PruneRetain. fold (versions m).
  assert (Hlook : forall i, versions m !! i = Some v -> newer m v = (length (versions m) - S i)%nat).
  { intros i Hi. apply sorted_newer; [apply versions_sorted|apply versions_NoDup|done]. }
  rewrite (proj2 (Z.eqb_neq retain 0)) by lia. cbn [orb].
  destruct (Z.leb_spec (len (versions m)) retain) as [Hle|Hgt].
  - split; [done|]. destruct (decide _) as [|Hn]; [done|].
    destruct (snaps m !! v) as [s|] eqn:Hs; [|done]. exfalso. apply Hn. right.
    assert (Hv : v ∈ versions m) by (apply versions_elem; by eexists).
    apply list_elem_of_lookup in Hv as [i Hi]. rewrite (Hlook i Hi).
    apply lookup_lt_Some in Hi. unfold len in Hle. lia.
  - destruct (prune_fold_lookup (take (Z.to_nat (len (versions m) - retain)) (versions m)) m v)
      as (-> & -> & _). split; [done|].
    assert (Hmem : forall i, versions m !! i = Some v ->
      v ∈ take (Z.to_nat (len (versions m) - retain)) (versions m) <-> retain <= Z.of_nat (newer m v)).
    { intros i Hi. rewrite (Hlook i Hi). pose proof (lookup_lt_Some _ _ _ Hi) as Hlt.
      unfold len in *. rewrite list_elem_of_lookup. split.
      - intros [j Hj]. apply lookup_take_Some in Hj as [Hj Hjn].
        rewrite (NoDup_lookup _ _ _ _ (versions_NoDup m) Hi Hj). lia.
      - intros Hn. exists i. apply lookup_take_Some. split; [done|lia]. }
    destruct (snaps m !! v) as [s|] eqn:Hs; [|by repeat case_decide].
    assert (Hv : v ∈ versions m) by (apply versions_elem; by eexists).
    apply list_elem_of_lookup in Hv as [i Hi]. specialize (Hmem i Hi).
    destruct (decide (v = latest m)) as [He|He].
    + rewrite decide_False by tauto. by rewrite decide_True by tauto.
    + destruct (decide (Z.of_nat (newer m v) < retain)).
      * rewrite decide_False by (rewrite Hmem; lia). by rewrite decide_True by tauto.
      * rewrite decide_True by (split; [apply Hmem; lia|done]). by rewrite decide_False by tauto.
Qed.

Definition demo_txn : Txn := MkTxn 0 {[str "k" := Some (str "v")]}.
Definition demo_store : MemStore :=
  match Commit NewMemStore demo_txn 1 with Ok (m, _) => m | Err _ => NewMemStore end.

Lemma reachable_roots_verify_witness :
  is_Some (snaps demo_store !! latest demo_store) /\
  (forall v, VerifyRoot demo_store v = true <-> v ∈ ListVersions demo_store) /\
  (forall v k x, Get demo_store v k = Some x -> x <> []).
Proof.
  apply (reachable_roots_verify demo_store).
  apply (sr_commit NewMemStore demo_txn 1 demo_store
    (snapshot_root (overlay ∅ (writes demo_txn))) sr_new).
  - apply (tb_put (MkTxn 0 ∅) (str "k") (str "v")); [|vm_compute; reflexivity].
    by apply (tb_begin NewMemStore 0).
  - vm_compute. reflexivity.
Defined.

Lemma PruneRetain_keeps_newest_witness :
  latest (PruneRetain demo_store 1) = latest demo_store /\
  snaps (PruneRetain demo_store 1) !! 0 =
    (if decide (0 = latest demo_store \/ Z.of_nat (newer demo_store 0) < 1)
     then snaps demo_store !! 0 else None).
Proof. apply (PruneRetain_keeps_newest demo_store 1 0). reflexivity. Defined.
