(* ===== verification/Executor.v ===== *)
(** backend/pkg/state/reducers.go, executor.go and the lookups of query.go:
    the deterministic application of a block of transactions to the store. *)
From S2P Require Import Prelude Bytes Sha256 GoTime Codec Merkle Store.
Import Codec Model.

(** ** State keys *)

Definition prefEvent := str "evt:".
Definition prefEvidence := str "evi:".
Definition prefCoC := str "coc:".
Definition prefProducerL := str "prod:last:".
Definition prefProducerC := str "prod:cnt:".
Definition prefNonce := str "nonce:".
Definition prefPolicy := str "pol:".
Definition keyPolicyHead := str "pol:latest".

(** [u64] and [i64] of reducers.go. *)
Definition enc_u64 (n : Z) : bytes := be_put 8 n.
Definition enc_i64 (n : Z) : bytes := enc_u64 (u64 n).

Definition keyEvent (h : bytes) : bytes := prefEvent ++ h.
Definition keyEvidence (h : bytes) : bytes := prefEvidence ++ h.
Definition keyCoC (h : bytes) (idx : Z) : bytes := prefCoC ++ h ++ be_put 2 idx.
Definition keyProducerLast (pid : bytes) : bytes := prefProducerL ++ pid.
Definition keyProducerCnt (pid : bytes) : bytes := prefProducerC ++ pid.
Definition keyNonce (pid nonce : bytes) : bytes := prefNonce ++ pid ++ nonce.
Definition keyPolicy (h : bytes) : bytes := prefPolicy ++ h.

(** ** Reducers *)

(** The counter part every reducer ends with: read, increment modulo [2^64],
    write back, then record the nonce. *)
Definition bump_producer (m : MemStore) (env : Envelope) (ts : Z) (txn : Txn) : result state_error Txn :=
  txn ← Put txn (keyProducerLast (ProducerID env)) (enc_i64 ts);
  let cntB := default [] (Txn_Get m txn (keyProducerCnt (ProducerID env))) in
  let cnt := if len cntB =? 8 then be_get cntB else 0 in
  let cnt := u64 (cnt + 1) in
  txn ← Put txn (keyProducerCnt (ProducerID env)) (enc_u64 cnt);
  Put txn (keyNonce (ProducerID env) (Nonce env)) (EnvContentHash env).

Definition ApplyEvent (m : MemStore) (tx : EventTx) (txn : Txn) : result state_error Txn :=
  txn ← Put txn (keyEvent (EnvContentHash (ev_Env tx))) (ev_Data tx);
  bump_producer m (ev_Env tx) (ev_Ts tx) txn.

(** The loop over the chain-of-custody entries from index [i]. *)
Fixpoint put_coc (h : bytes) (i : Z) (coc : list CoCEntry) (txn : Txn) : result state_error Txn :=
  match coc with
  | [] => Ok txn
  | c :: coc' =>
      txn ← Put txn (keyCoC h (i mod 2 ^ 16)) (RefHash c);
      put_coc h (i + 1) coc' txn
  end.

Definition ApplyEvidence (m : MemStore) (tx : EvidenceTx) (txn : Txn) : result state_error Txn :=
  txn ← Put txn (keyEvidence (EnvContentHash (evi_Env tx))) (evi_Data tx);
  txn ← put_coc (EnvContentHash (evi_Env tx)) 0 (CoC tx) txn;
  bump_producer m (evi_Env tx) (evi_Ts tx) txn.

Definition ApplyPolicy (m : MemStore) (tx : PolicyTx) (txn : Txn) : result state_error Txn :=
  txn ← Put txn (keyPolicy (EnvContentHash (pol_Env tx))) (pol_Data tx);
  txn ← Put txn keyPolicyHead (EnvContentHash (pol_Env tx));
  bump_producer m (pol_Env tx) (pol_Ts tx) txn.

Definition apply_reducer (m : MemStore) (tx : Transaction) (txn : Txn) : result state_error Txn :=
  match tx with
  | AnEvent t => ApplyEvent m t txn
  | AnEvidence t => ApplyEvidence m t txn
  | APolicy t => ApplyPolicy m t txn
  end.

(** ** The executor *)

Definition MaxBlockTxs : Z := 5000.
Definition MaxBlockBytes : Z := Z.shiftl 16 20.

Inductive ExecCode := ExecCodeOK | ExecCodeInvalid | ExecCodeReducerError.

(** [Receipt]; [rc_Type] is [None] for the zero value (empty type string), and
    [rc_Error] keeps the error instead of its text. *)
Record Receipt := MkReceipt {
  rc_Index : Z; rc_Type : option TxType; rc_ContentHash : bytes;
  rc_Code : ExecCode; rc_Error : option state_error }.

Definition zero_receipt : Receipt := MkReceipt 0 None zero32 ExecCodeOK None.

(** [copy(existingHash[:], v)] into a zeroed 32-byte array. *)
Definition copy32 (v : bytes) : bytes := take 32 v ++ drop (length (take 32 v)) zero32.

(** One iteration of the loop of [ApplyBlock]: the buffered transaction after
    it, or the receipt code and error it stops with. *)
Definition exec_tx (m : MemStore) (now : Time) (skew : Z) (tx : Transaction) (txn : Txn)
  : result (ExecCode * state_error) Txn :=
  match Validate tx now skew with
  | Err e => Err (ExecCodeInvalid, e)
  | Ok _ =>
      let env := Envelope_ tx in
      let apply :=
        match apply_reducer m tx txn with
        | Err e => Err (ExecCodeReducerError, e)
        | Ok txn' => Ok txn'
        end in
      match Txn_Get m txn (keyNonce (ProducerID env) (Nonce env)) with
      | Some v =>
          if 0 <? len v then
            if bool_decide (copy32 v = EnvContentHash env) then Ok txn
            else Err (ExecCodeInvalid, ErrNonceReplay)
          else apply
      | None => apply
      end
  end.

(** The loop: receipts are filled in place, those after a failing transaction
    keep their zero value. *)
Fixpoint exec_loop (m : MemStore) (now : Time) (skew : Z) (i : nat) (txs : list Transaction)
  (txn : Txn) (receipts : list Receipt) : list Receipt * result state_error Txn :=
  match txs with
  | [] => (receipts, Ok txn)
  | tx :: txs' =>
      let r code err := MkReceipt (Z.of_nat i) (Some (Type_ tx))
                          (EnvContentHash (Envelope_ tx)) code err in
      match exec_tx m now skew tx txn with
      | Err (code, e) => (<[i := r code (Some e)]> receipts, Err e)
      | Ok txn' => exec_loop m now skew (S i) txs' txn' (<[i := r ExecCodeOK None]> receipts)
      end
  end.

(** The results of [ApplyBlock] besides the mutated store. *)
Record BlockResult := MkBlockResult {
  newVersion : Z; root : bytes; receipts : list Receipt; err : option state_error }.

Definition ApplyBlock (store : MemStore) (now : Time) (skew : Z) (txs : list Transaction)
  : MemStore * BlockResult :=
  let receipts := replicate (length txs) zero_receipt in
  if MaxBlockTxs <? len txs then (store, MkBlockResult 0 zero32 receipts (Some ErrBlockTooLarge))
  else
    let aggBytes := foldl (fun n tx => n + len (Payload tx)) 0 txs in
    if MaxBlockBytes <? aggBytes then (store, MkBlockResult 0 zero32 receipts (Some ErrBlockTooLarge))
    else
      let lst := Latest store in
      match Begin store lst with
      | Err e => (store, MkBlockResult 0 zero32 receipts (Some e))
      | Ok txn =>
          match exec_loop store now skew 0 txs txn receipts with
          | (receipts, Err e) => (store, MkBlockResult 0 zero32 receipts (Some e))
          | (receipts, Ok txn') =>
              let nv := u64 (lst + 1) in
              match Commit store txn' nv with
              | Err e => (store, MkBlockResult 0 zero32 receipts (Some e))
              | Ok (store', root) => (store', MkBlockResult nv root receipts None)
              end
          end
      end.

(** ** Lookups of query.go *)

Definition PolicyLatest (m : MemStore) (version : Z) : result state_error (bytes * bytes) :=
  match Get m version keyPolicyHead with
  | None => Err ErrNotFound
  | Some v =>
      if negb (len v =? 32) then Err ErrNotFound
      else match Get m version (keyPolicy v) with
           | None => Err ErrNotFound
           | Some p => Ok (v, p)
           end
  end.

Definition EventByHash (m : MemStore) (version : Z) (h : bytes) : result state_error bytes :=
  match Get m version (keyEvent h) with None => Err ErrNotFound | Some v => Ok v end.

Definition EvidenceByHash (m : MemStore) (version : Z) (h : bytes) : result state_error bytes :=
  match Get m version (keyEvidence h) with None => Err ErrNotFound | Some v => Ok v end.

Definition ProducerStats (m : MemStore) (version : Z) (pid : bytes) : result state_error (Z * Z) :=
  match Get m version (keyProducerLast pid) with
  | None => Err ErrNotFound
  | Some ltB =>
      if negb (len ltB =? 8) then Err ErrNotFound
      else
        let last := i64 (be_get ltB) in
        let cnt := match Get m version (keyProducerCnt pid) with
                   | Some cntB => if len cntB =? 8 then be_get cntB else 0
                   | None => 0
                   end in
        Ok (last, cnt)
  end.

Definition NonceMapping (m : MemStore) (version : Z) (pid nonce : bytes) : result state_error bytes :=
  match Get m version (keyNonce pid nonce) with
  | None => Err ErrNotFound
  | Some v => if negb (len v =? 32) then Err ErrNotFound else Ok v
  end.

(** ** Key separation *)

Lemma keyNonce_inj p n p' n' :
  length n = length n' -> keyNonce p n = keyNonce p' n' -> p = p' /\ n = n'.
Proof.
  unfold keyNonce. intros Hl H. apply app_inv_head in H. by apply app_inj_len_r in H.
Qed.

(** Keys outside the nonce table. *)
Definition not_nonce (k : bytes) : Prop := hd x00 k <> hd x00 prefNonce.

Lemma not_nonce_ne k p n : not_nonce k -> k <> keyNonce p n.
Proof. intros H ->. by apply H. Qed.

Lemma keyEvent_not_nonce h : not_nonce (keyEvent h). Proof. done. Qed.
Lemma keyEvidence_not_nonce h : not_nonce (keyEvidence h). Proof. done. Qed.
Lemma keyCoC_not_nonce h i : not_nonce (keyCoC h i). Proof. done. Qed.
Lemma keyProducerLast_not_nonce p : not_nonce (keyProducerLast p). Proof. done. Qed.
Lemma keyProducerCnt_not_nonce p : not_nonce (keyProducerCnt p). Proof. done. Qed.
Lemma keyPolicy_not_nonce h : not_nonce (keyPolicy h). Proof. done. Qed.
Lemma keyPolicyHead_not_nonce : not_nonce keyPolicyHead. Proof. done. Qed.
#[export] Hint Resolve keyEvent_not_nonce keyEvidence_not_nonce keyCoC_not_nonce
  keyProducerLast_not_nonce keyProducerCnt_not_nonce keyPolicy_not_nonce
  keyPolicyHead_not_nonce : cyber.

Lemma Txn_Get_Put_nonce m t k v t' p n :
  not_nonce k -> Put t k v = Ok t' ->
  Txn_Get m t' (keyNonce p n) = Txn_Get m t (keyNonce p n).
Proof.
  intros Hk HP. rewrite (Txn_Get_Put _ _ _ _ _ _ HP).
  rewrite decide_False; [done|by apply not_nonce_ne].
Qed.

Lemma Put_baseVersion t k v t' : Put t k v = Ok t' -> baseVersion t' = baseVersion t.
Proof. by intros (_ & _ & ->)%Put_ok. Qed.

(** ** What the reducers do to the nonce table *)

(** The nonce entry of an envelope is written and no other one changes. *)
Definition nonce_effect (m : MemStore) (env : Envelope) (t t' : Txn) : Prop :=
  baseVersion t' = baseVersion t /\
  forall p n, Txn_Get m t' (keyNonce p n) =
    if decide (keyNonce (ProducerID env) (Nonce env) = keyNonce p n)
    then go_copy (EnvContentHash env) else Txn_Get m t (keyNonce p n).

Lemma nonce_effect_put m env t k v t1 t' :
  not_nonce k -> Put t k v = Ok t1 -> nonce_effect m env t1 t' -> nonce_effect m env t t'.
Proof.
  intros Hk HP [Hb He]. split; [by rewrite Hb; apply Put_baseVersion in HP|].
  intros p n. rewrite He. by rewrite (Txn_Get_Put_nonce _ _ _ _ _ p n Hk HP).
Qed.

Lemma bump_producer_nonce m env ts t t' :
  bump_producer m env ts t = Ok t' -> nonce_effect m env t t'.
Proof.
  unfold bump_producer. intros H. go_inv_step H. go_inv_step H.
  eapply nonce_effect_put; [|exact Hstep|]; [apply keyProducerLast_not_nonce|].
  eapply nonce_effect_put; [|exact Hstep0|]; [apply keyProducerCnt_not_nonce|].
  split; [by apply Put_baseVersion in H|].
  intros p n. by rewrite (Txn_Get_Put _ _ _ _ _ _ H).
Qed.

Lemma put_coc_nonce m env h i coc t t1 t' :
  put_coc h i coc t = Ok t1 -> nonce_effect m env t1 t' -> nonce_effect m env t t'.
Proof.
  revert i t. induction coc as [|c coc IH]; intros i t H Heff; cbn in H.
  - by injection H as ->.
  - go_inv_step H. eapply nonce_effect_put; [|exact Hstep|]; [apply keyCoC_not_nonce|].
    by eapply IH.
Qed.

Lemma apply_reducer_nonce m tx t t' :
  apply_reducer m tx t = Ok t' -> nonce_effect m (Envelope_ tx) t t'.
Proof.
  destruct tx as [e|e|e]; cbn; unfold ApplyEvent, ApplyEvidence, ApplyPolicy; intros H;
    go_inv_step H.
  - eapply nonce_effect_put; [|exact Hstep|by apply bump_producer_nonce in H]; auto with cyber.
  - go_inv_step H. eapply nonce_effect_put; [|exact Hstep|]; [auto with cyber|].
    eapply put_coc_nonce; [exact Hstep0|]. by apply bump_producer_nonce in H.
  - go_inv_step H. eapply nonce_effect_put; [|exact Hstep|]; [auto with cyber|].
    eapply nonce_effect_put; [|exact Hstep0|by apply bump_producer_nonce in H]; auto with cyber.
Qed.

(** ** Recorded transactions *)

(** The store (through the transaction) already holds this envelope: the test
    of the idempotent replay branch. *)
Definition recorded (m : MemStore) (t : Txn) (env : Envelope) : Prop :=
  exists v, Txn_Get m t (keyNonce (ProducerID env) (Nonce env)) = Some v /\
    0 < len v /\ copy32 v = EnvContentHash env.

Lemma copy32_id v : length v = 32%nat -> copy32 v = v.
Proof.
  intros Hv. unfold copy32. rewrite firstn_all2 by lia. rewrite Hv. apply app_nil_r.
Qed.

Lemma go_copy_id (v : bytes) : length v <> 0%nat -> go_copy v = Some v.
Proof. by destruct v. Qed.

Lemma go_copy_hash (v : bytes) : length v = 32%nat -> go_copy v = Some v.
Proof. by destruct v. Qed.

Lemma recorded_after m tx t t' now skew :
  Validate tx now skew = Ok tt -> apply_reducer m tx t = Ok t' -> recorded m t' (Envelope_ tx).
Proof.
  intros Hv H. apply Validate_ok in Hv as (_ & _ & _ & Hh).
  assert (Hlen : length (EnvContentHash (Envelope_ tx)) = 32%nat).
  { rewrite Hh. apply length_sha256. }
  apply apply_reducer_nonce in H as [_ He].
  exists (EnvContentHash (Envelope_ tx)). rewrite He, decide_True by done.
  split_and!; [by apply go_copy_hash|unfold len; lia|by apply copy32_id].
Qed.

Lemma exec_tx_ok m now skew tx t t' :
  exec_tx m now skew tx t = Ok t' ->
  Validate tx now skew = Ok tt /\
  ((t' = t /\ recorded m t (Envelope_ tx)) \/
   (apply_reducer m tx t = Ok t' /\
    forall v, Txn_Get m t (keyNonce (ProducerID (Envelope_ tx)) (Nonce (Envelope_ tx))) = Some v ->
      len v = 0)).
Proof.
  unfold exec_tx. intros H. destruct (Validate tx now skew) as [[]|]; [|done].
  split; [done|].
  destruct (Txn_Get m t _) as [v|] eqn:Hv.
  - destruct (0 <? len v) eqn:Hl; go_bool.
    + case_bool_decide; [|done]. injection H as <-. left. split; [done|]. by exists v.
    + right. go_inv H. split; [done|]. intros v' [= <-]. pose proof (len_nonneg v). lia.
  - right. go_inv H. done.
Qed.

Lemma exec_tx_recorded m now skew tx t t' :
  exec_tx m now skew tx t = Ok t' -> recorded m t' (Envelope_ tx).
Proof.
  intros H. apply exec_tx_ok in H as [Hv [[-> Hr]|[Ha _]]]; [done|].
  by eapply recorded_after.
Qed.

(** Executing another transaction never disturbs a recorded envelope. *)
Lemma exec_tx_keeps m now skew tx t t' env :
  length (Nonce env) = 16%nat ->
  exec_tx m now skew tx t = Ok t' -> recorded m t env -> recorded m t' env.
Proof.
  intros Hn H Hr. apply exec_tx_ok in H as [Hv [[-> _]|[Ha Hfree]]]; [done|].
  destruct Hr as (v & Hget & Hlen & Hc). exists v. split; [|done].
  apply apply_reducer_nonce in Ha as [_ He]. rewrite He.
  case_decide as Hk; [|done]. exfalso.
  apply Validate_ok in Hv as (_ & _ & Hlen16 & _).
  rewrite <- Hk in Hget. apply Hfree in Hget. lia.
Qed.

Lemma exec_tx_baseVersion m now skew tx t t' :
  exec_tx m now skew tx t = Ok t' -> baseVersion t' = baseVersion t.
Proof.
  intros H. apply exec_tx_ok in H as [_ [[-> _]|[Ha _]]]; [done|].
  by apply apply_reducer_nonce in Ha as [].
Qed.

(** The transaction after running a list of transactions, without receipts. *)
Fixpoint exec_all (m : MemStore) (now : Time) (skew : Z) (txs : list Transaction) (t : Txn)
  : result (ExecCode * state_error) Txn :=
  match txs with
  | [] => Ok t
  | tx :: txs' => t' ← exec_tx m now skew tx t; exec_all m now skew txs' t'
  end.

Lemma exec_loop_exec_all m now skew i txs t rs rs' t' :
  exec_loop m now skew i txs t rs = (rs', Ok t') -> exec_all m now skew txs t = Ok t'.
Proof.
  revert i t rs. induction txs as [|tx txs IH]; intros i t rs; cbn.
  - by intros [= _ ->].
  - destruct (exec_tx m now skew tx t) as [t1|[c e]]; [|done]. apply IH.
Qed.

Lemma exec_all_exec_loop m now skew i txs t rs t' :
  exec_all m now skew txs t = Ok t' -> exists rs', exec_loop m now skew i txs t rs = (rs', Ok t').
Proof.
  revert i t rs. induction txs as [|tx txs IH]; intros i t rs; cbn.
  - intros [= ->]. by eexists.
  - destruct (exec_tx m now skew tx t) as [t1|[c e]]; [|done]. apply IH.
Qed.

(** A property of buffered transactions kept by every iteration. *)
Lemma exec_all_invariant (P : Txn -> Prop) m now skew txs t t' :
  (forall tx a b, tx ∈ txs -> exec_tx m now skew tx a = Ok b -> P a -> P b) ->
  exec_all m now skew txs t = Ok t' -> P t -> P t'.
Proof.
  revert t. induction txs as [|tx txs IH]; intros t HP H Ht; cbn in H.
  - by injection H as <-.
  - go_inv_step H. eapply IH; [|exact H|].
    + intros tx' x y Hin. apply HP. by right.
    + eapply HP; [by left|exact Hstep|done].
Qed.

Lemma exec_all_recorded m now skew txs t t' tx :
  exec_all m now skew txs t = Ok t' -> tx ∈ txs ->
  Validate tx now skew = Ok tt /\ recorded m t' (Envelope_ tx).
Proof.
  revert t. induction txs as [|tx0 txs IH]; intros t H Hin; [by apply not_elem_of_nil in Hin|].
  cbn in H. go_inv_step H. apply elem_of_cons in Hin as [->|Hin]; [|by eapply IH].
  pose proof Hstep as Hv. apply exec_tx_ok in Hv as [Hv _]. split; [done|].
  apply exec_tx_recorded in Hstep.
  apply Validate_ok in Hv as (_ & _ & Hlen & _).
  apply (exec_all_invariant (fun x => recorded m x (Envelope_ tx0)) m now skew txs a); [|done|done].
  intros tx' x y _. apply exec_tx_keeps.
  unfold len, NonceSize in Hlen. lia.
Qed.

Lemma exec_all_baseVersion m now skew txs t t' :
  exec_all m now skew txs t = Ok t' -> baseVersion t' = baseVersion t.
Proof.
  intros H. apply (exec_all_invariant (fun x => baseVersion x = baseVersion t) m now skew txs t);
    [|done|done].
  intros tx a b _ Hx Ha. by apply exec_tx_baseVersion in Hx as ->.
Qed.

(** Running transactions that are all recorded changes nothing. *)
Lemma exec_all_replay m now skew txs t :
  (forall tx, tx ∈ txs -> Validate tx now skew = Ok tt /\ recorded m t (Envelope_ tx)) ->
  exec_all m now skew txs t = Ok t.
Proof.
  induction txs as [|tx txs IH]; intros H; [done|]. cbn.
  destruct (H tx) as [Hv (v & Hget & Hlen & Hc)]; [by left|].
  assert (exec_tx m now skew tx t = Ok t) as ->.
  { unfold exec_tx. rewrite Hv, Hget. apply Z.ltb_lt in Hlen. rewrite Hlen.
    by rewrite bool_decide_true. }
  apply IH. intros tx' Hin. apply H. by right.
Qed.

(** ** Committed blocks *)

Lemma ApplyBlock_Ok store now skew txs store' r :
  ApplyBlock store now skew txs = (store', r) -> err r = None ->
  len txs <= MaxBlockTxs /\
  foldl (fun n tx => n + len (Payload tx)) 0 txs <= MaxBlockBytes /\
  is_Some (snaps store !! latest store) /\
  exists t, exec_all store now skew txs (MkTxn (latest store) ∅) = Ok t /\
    newVersion r = u64 (latest store + 1) /\
    Commit store t (newVersion r) = Ok (store', root r).
Proof.
  unfold ApplyBlock. intros H He.
  destruct (MaxBlockTxs <? len txs) eqn:Hn; [by injection H as <- <-|].
  destruct (MaxBlockBytes <? _) eqn:Hb; [by injection H as <- <-|]. go_bool.
  split_and!; [done|done| |].
  all: destruct (Begin store (Latest store)) as [t|e] eqn:Hbegin; [|by injection H as <- <-].
  all: unfold Begin, Latest in Hbegin; go_inv Hbegin.
  - by eexists.
  - destruct (exec_loop store now skew 0 txs (MkTxn (latest store) ∅) _) as [rs [t'|e]] eqn:Hloop;
      [|by injection H as <- <-].
    apply exec_loop_exec_all in Hloop.
    destruct (Commit store t' (u64 (Latest store + 1))) as [[s' rt]|e] eqn:Hc;
      [|by injection H as <- <-].
    injection H as <- <-. exists t'. cbn. done.
Qed.

(** A committed block is seen through its version. *)
Lemma Commit_get m t nv m' root k :
  Commit m t nv = Ok (m', root) -> Get m' nv k = Txn_Get m t k.
Proof.
  intros (-> & Hl & -> & ->)%Commit_ok_inv. unfold Get, Txn_Get. cbn.
  rewrite lookup_insert_eq. cbn. rewrite lookup_overlay.
  destruct (writes t !! k); [done|]. unfold Get.
  by destruct (snaps m !! baseVersion t) eqn:Hs; cbn; [|rewrite lookup_empty].
Qed.

(** Reading through a fresh transaction on the committed store. *)
Lemma Commit_fresh_get m t nv m' root k :
  Commit m t nv = Ok (m', root) -> Txn_Get m' (MkTxn nv ∅) k = Txn_Get m t k.
Proof.
  intros H. unfold Txn_Get at 1. cbn. rewrite lookup_empty. by apply (Commit_get _ _ _ _ _ _ H).
Qed.

Lemma overlay_empty base : overlay base ∅ = base.
Proof. apply map_eq. intros k. by rewrite lookup_overlay, lookup_empty. Qed.

(** ** The buffered writes stay well formed *)

Lemma put_coc_txn_ok h i coc t t' : txn_ok t -> put_coc h i coc t = Ok t' -> txn_ok t'.
Proof.
  revert i t. induction coc as [|c coc IH]; intros i t Ht H; cbn in H.
  - by injection H as <-.
  - go_inv_step H. eapply IH; [|exact H]. by eapply Put_txn_ok.
Qed.

Lemma bump_producer_txn_ok m env ts t t' :
  txn_ok t -> bump_producer m env ts t = Ok t' -> txn_ok t'.
Proof. unfold bump_producer. intros Ht H. do 2 go_inv_step H. eauto with cyber. Qed.

Lemma apply_reducer_txn_ok m tx t t' : txn_ok t -> apply_reducer m tx t = Ok t' -> txn_ok t'.
Proof.
  destruct tx as [e|e|e]; cbn; unfold ApplyEvent, ApplyEvidence, ApplyPolicy; intros Ht H;
    go_inv_step H; try go_inv_step H;
    eauto using bump_producer_txn_ok, put_coc_txn_ok, Put_txn_ok.
Qed.

Lemma exec_tx_txn_ok m now skew tx t t' :
  exec_tx m now skew tx t = Ok t' -> txn_ok t -> txn_ok t'.
Proof.
  intros H Ht. apply exec_tx_ok in H as [_ [[-> _]|[Ha _]]]; [done|].
  by eapply apply_reducer_txn_ok.
Qed.

Lemma fresh_txn_ok v : txn_ok (MkTxn v ∅).
Proof. intros k w. cbn. by rewrite lookup_empty. Qed.

Lemma ApplyBlock_store_ok store now skew txs store' r :
  store_ok store -> ApplyBlock store now skew txs = (store', r) -> err r = None -> store_ok store'.
Proof.
  intros Hs H He. destruct (ApplyBlock_Ok _ _ _ _ _ _ H He) as (_ & _ & _ & t & Hall & _ & Hc).
  eapply Commit_store_ok; [exact Hs| |exact Hc].
  eapply exec_all_invariant; [|exact Hall|apply fresh_txn_ok].
  intros tx a b _. apply exec_tx_txn_ok.
Qed.

(** ** Counters and payloads of a fresh transaction *)

(** The producer counter as the reducers read it. *)
Definition producer_count (m : MemStore) (t : Txn) (pid : bytes) : Z :=
  let cntB := default [] (Txn_Get m t (keyProducerCnt pid)) in
  if len cntB =? 8 then be_get cntB else 0.

Lemma keyProducerCnt_inj p p' : keyProducerCnt p = keyProducerCnt p' -> p = p'.
Proof. apply app_inv_head. Qed.

(** Every key other than the counters and the nonces. *)
Definition payload_key (k : bytes) : Prop := forall p, k <> keyProducerCnt p.

Lemma keyEvent_payload h : payload_key (keyEvent h). Proof. by intros p. Qed.
Lemma keyEvidence_payload h : payload_key (keyEvidence h). Proof. by intros p. Qed.
Lemma keyCoC_payload h i : payload_key (keyCoC h i). Proof. by intros p. Qed.
Lemma keyPolicy_payload h : payload_key (keyPolicy h).
Proof. intros p H. injection H. discriminate. Qed.
Lemma keyPolicyHead_payload : payload_key keyPolicyHead.
Proof. intros p H. injection H. discriminate. Qed.
Lemma keyProducerLast_payload q : payload_key (keyProducerLast q).
Proof. intros p H. injection H. discriminate. Qed.
#[export] Hint Resolve keyEvent_payload keyEvidence_payload keyCoC_payload
  keyPolicy_payload keyPolicyHead_payload keyProducerLast_payload : cyber.

Lemma producer_count_put m t k v t' pid :
  payload_key k -> Put t k v = Ok t' -> producer_count m t' pid = producer_count m t pid.
Proof.
  intros Hk HP. unfold producer_count. rewrite (Txn_Get_Put _ _ _ _ _ _ HP).
  by rewrite decide_False.
Qed.

Lemma producer_count_put_coc m h i coc t t' pid :
  put_coc h i coc t = Ok t' -> producer_count m t' pid = producer_count m t pid.
Proof.
  revert i t. induction coc as [|c coc IH]; intros i t H; cbn in H.
  - by injection H as ->.
  - go_inv_step H. rewrite (IH _ _ H). eapply producer_count_put; [|exact Hstep].
    apply keyCoC_payload.
Qed.

Lemma bump_producer_count m env ts t t' pid :
  bump_producer m env ts t = Ok t' ->
  producer_count m t' pid =
    if decide (pid = ProducerID env) then u64 (producer_count m t (ProducerID env) + 1)
    else producer_count m t pid.
Proof.
  unfold bump_producer. intros H. go_inv_step H. go_inv_step H.
  pose proof (producer_count_put m _ _ _ _ (ProducerID env) (keyProducerLast_payload _) Hstep) as Hc.
  pose proof (producer_count_put m _ _ _ _ pid (keyProducerLast_payload _) Hstep) as Hc'.
  unfold producer_count at 1. rewrite (Txn_Get_Put _ _ _ _ _ _ H).
  rewrite decide_False by (by intros Hk; discriminate Hk).
  rewrite (Txn_Get_Put _ _ _ _ _ _ Hstep0).
  destruct (decide (pid = ProducerID env)) as [->|Hne].
  - rewrite decide_True by done. unfold enc_u64.
    rewrite go_copy_id by (rewrite length_be_put; lia). cbn [default from_option id].
    unfold len at 1. rewrite length_be_put. cbn [Z.of_nat Pos.of_succ_nat Pos.succ Z.eqb Pos.eqb].
    rewrite be_get_put. fold (producer_count m a (ProducerID env)). rewrite Hc.
    change (256 ^ Z.of_nat 8) with two64. apply Z.mod_small, u64_range.
  - rewrite decide_False; [exact Hc'|]. intros Hk. by apply keyProducerCnt_inj in Hk.
Qed.

Lemma apply_reducer_count m tx t t' pid :
  apply_reducer m tx t = Ok t' ->
  producer_count m t' pid =
    if decide (pid = ProducerID (Envelope_ tx))
    then u64 (producer_count m t (ProducerID (Envelope_ tx)) + 1)
    else producer_count m t pid.
Proof.
  destruct tx as [e|e|e]; cbn; unfold ApplyEvent, ApplyEvidence, ApplyPolicy; intros H;
    go_inv_step H.
  - rewrite (bump_producer_count _ _ _ _ _ pid H).
    by rewrite !(producer_count_put m _ _ _ _ _ (keyEvent_payload _) Hstep).
  - go_inv_step H. rewrite (bump_producer_count _ _ _ _ _ pid H).
    rewrite !(producer_count_put_coc m _ _ _ _ _ _ Hstep0).
    by rewrite !(producer_count_put m _ _ _ _ _ (keyEvidence_payload _) Hstep).
  - go_inv_step H. rewrite (bump_producer_count _ _ _ _ _ pid H).
    rewrite !(producer_count_put m _ _ _ _ _ keyPolicyHead_payload Hstep0).
    by rewrite !(producer_count_put m _ _ _ _ _ (keyPolicy_payload _) Hstep).
Qed.

(** ** Properties *)

Lemma ApplyBlock_err store now skew txs store' r :
  ApplyBlock store now skew txs = (store', r) -> err r <> None ->
  store' = store /\ newVersion r = 0 /\ root r = zero32.
Proof.
  unfold ApplyBlock. intros H Herr. revert H Herr.
  repeat (case_match; try (by intros [= <- <-])).
Qed.

(** What a transaction is refused for by the executor, after the [earlier] ones of its
    block: it is invalid, or its nonce is taken by other content, in the store or earlier
    in the block. *)
Definition nonce_taken (m : MemStore) (earlier : list Transaction) (env : Envelope) : Prop :=
  (exists v, Get m (latest m) (keyNonce (ProducerID env) (Nonce env)) = Some v /\ 0 < len v /\ copy32 v <> EnvContentHash env) \/
  (exists tx, tx ∈ earlier /\ ProducerID (Envelope_ tx) = ProducerID env /\ Nonce (Envelope_ tx) = Nonce env /\
     ContentHash (Payload tx) <> EnvContentHash env).
Definition refused (m : MemStore) (now : Time) (skew : Z) (earlier : list Transaction) (tx : Transaction) (e : state_error) : Prop :=
  Validate tx now skew = Err e \/
  Validate tx now skew = Ok tt /\ e = ErrNonceReplay /\ nonce_taken m earlier (Envelope_ tx).

(** Where a nonce entry comes from while a block is executed. *)
Definition nonce_source (m : MemStore) (txs : list Transaction) (t : Txn) : Prop :=
  forall p n v, len n = NonceSize -> Txn_Get m t (keyNonce p n) = Some v ->
    Get m (latest m) (keyNonce p n) = Some v \/
    exists tx, tx ∈ txs /\ ProducerID (Envelope_ tx) = p /\ Nonce (Envelope_ tx) = n /\ v = ContentHash (Payload tx).

Lemma exec_all_nonce_source m now skew txs t :
  exec_all m now skew txs (MkTxn (latest m) ∅) = Ok t -> nonce_source m txs t.
Proof.
  intros H. apply (exec_all_invariant (nonce_source m txs) m now skew txs (MkTxn (latest m) ∅)); [|exact H|by intros p n v _ Hv; left].
  intros tx a b Hin Htx Ha. apply exec_tx_ok in Htx as [Hv [[-> _]|[Hr _]]]; [done|].
  apply Validate_ok in Hv as (_ & _ & Hn & Hh). apply apply_reducer_nonce in Hr as [_ Hr].
  intros p n v Hlen. rewrite Hr. case_decide as Hk; [|by apply Ha].
  apply keyNonce_inj in Hk as [<- <-]; [|unfold len, NonceSize in *; lia]. intros [-> _]%go_copy_some. right. by exists tx.
Qed.

(** A transaction that validates is never refused by its reducer: the entries a [CoCEntry]
    refers to are [[32]byte]. *)
Definition refs_typed (tx : Transaction) : Prop :=
  match tx with AnEvidence t => Forall (fun c => len (RefHash c) = 32) (CoC t) | _ => True end.

Lemma Put_total t k v : 0 < len k <= MaxStateKeySize -> len v <= MaxStateValueSize -> exists t', Put t k v = Ok t'.
Proof.
  intros Hk Hv. unfold Put, bad_key. rewrite (proj2 (Z.eqb_neq (len k) 0)), (proj2 (Z.ltb_ge _ _)), (proj2 (Z.ltb_ge _ _)) by lia. by eexists.
Qed.

Lemma put_coc_total h i coc t : len h = 32 -> Forall (fun c => len (RefHash c) = 32) coc -> exists t', put_coc h i coc t = Ok t'.
Proof.
  intros Hh Hc. revert i t. induction Hc as [|c coc Hr _ IH]; intros i t; cbn; [by eexists|].
  destruct (Put_total t (keyCoC h (i mod 2 ^ 16)) (RefHash c)) as [t' ->]; [| |apply IH].
  - unfold keyCoC. rewrite !len_app, Hh. unfold len at 1 2 3 4. rewrite length_be_put. by vm_compute.
  - rewrite Hr. by vm_compute.
Qed.

Lemma bump_producer_total m env ts t :
  0 < len (ProducerID env) <= MaxProducerIDSize -> len (Nonce env) = NonceSize -> len (EnvContentHash env) = 32 ->
  exists t', bump_producer m env ts t = Ok t'.
Proof.
  intros Hp Hn Hh. unfold bump_producer. unfold MaxProducerIDSize, NonceSize in *.
  assert (Hpre : forall pre : bytes, len pre <= 16 -> 0 < len (pre ++ ProducerID env) <= MaxStateKeySize).
  { intros pre Hpre. pose proof (len_nonneg pre). rewrite len_app. unfold MaxStateKeySize. lia. }
  assert (H8 : forall x, len (be_put 8 x) <= MaxStateValueSize) by (intros x; unfold len; rewrite length_be_put; by vm_compute).
  destruct (Put_total t (keyProducerLast (ProducerID env)) (enc_i64 ts)) as [t1 ->]; [by apply (Hpre prefProducerL)|apply H8|]. rewrite bind_Ok. cbv zeta.
  match goal with |- context [Put t1 ?k ?v] => destruct (Put_total t1 k v) as [t2 ->]; [by apply (Hpre prefProducerC)|apply H8|] end. rewrite bind_Ok.
  apply Put_total; [|rewrite Hh; by vm_compute]. unfold keyNonce. rewrite !len_app, Hn. unfold MaxStateKeySize. change (len prefNonce) with 6. lia.
Qed.

Lemma apply_reducer_total m tx t now skew : Validate tx now skew = Ok tt -> refs_typed tx -> exists t', apply_reducer m tx t = Ok t'.
Proof.
  intros (Hsize & Hp & Hn & Hh)%Validate_ok Hrefs. assert (Hlen : len (EnvContentHash (Envelope_ tx)) = 32).
  { rewrite Hh. unfold len, ContentHash. by rewrite length_sha256. }
  assert (Hv : len (Payload tx) <= MaxStateValueSize) by exact Hsize.
  assert (Hkey : forall pre : bytes, len pre <= 16 -> 0 < len (pre ++ EnvContentHash (Envelope_ tx)) <= MaxStateKeySize).
  { intros pre Hpre. pose proof (len_nonneg pre). rewrite len_app, Hlen. unfold MaxStateKeySize. lia. }
  destruct tx as [x|x|x]; cbn in *; unfold ApplyEvent, ApplyEvidence, ApplyPolicy.
  - destruct (Put_total t (keyEvent (EnvContentHash (ev_Env x))) (ev_Data x)) as [t1 ->]; [by apply (Hkey prefEvent)|done|]. by apply bump_producer_total.
  - destruct (Put_total t (keyEvidence (EnvContentHash (evi_Env x))) (evi_Data x)) as [t1 ->]; [by apply (Hkey prefEvidence)|done|].
    rewrite bind_Ok. destruct (put_coc_total (EnvContentHash (evi_Env x)) 0 (CoC x) t1 Hlen Hrefs) as [t2 ->]. by apply bump_producer_total.
  - destruct (Put_total t (keyPolicy (EnvContentHash (pol_Env x))) (pol_Data x)) as [t1 ->]; [by apply (Hkey prefPolicy)|done|].
    rewrite bind_Ok. destruct (Put_total t1 keyPolicyHead (EnvContentHash (pol_Env x))) as [t2 ->]; [by vm_compute|rewrite Hlen; by vm_compute|].
    by apply bump_producer_total.
Qed.

Lemma exec_tx_refused m now skew earlier tx t code e :
  refs_typed tx -> nonce_source m earlier t -> exec_tx m now skew tx t = Err (code, e) ->
  code = ExecCodeInvalid /\ refused m now skew earlier tx e.
Proof.
  intros Hrefs Hs. unfold exec_tx, refused. destruct (Validate tx now skew) as [[]|e'] eqn:Hv; [|by intros [= <- <-]; split; [|left]].
  destruct (apply_reducer_total m tx t now skew Hv Hrefs) as [t' ->]. cbv zeta.
  destruct (Txn_Get m t _) as [v|] eqn:Hg; [|done]. destruct (0 <? len v) eqn:Hl; [|done]. case_bool_decide as Hc; [done|].
  intros [= <- <-]. split; [done|]. right. split; [done|]. split; [done|]. apply Validate_ok in Hv as (_ & _ & Hn & _).
  destruct (Hs _ _ _ Hn Hg) as [Hg'|(tx' & Hin & Hp & Hn' & ->)].
  - left. exists v. go_bool. done.
  - right. exists tx'. rewrite copy32_id in Hc by apply length_sha256. done.
Qed.

(** *** The receipts *)

Definition receipt (i : nat) (tx : Transaction) (code : ExecCode) (e : option state_error) : Receipt :=
  MkReceipt (Z.of_nat i) (Some (Type_ tx)) (EnvContentHash (Envelope_ tx)) code e.

Lemma exec_loop_Err m now skew i txs t rs rs' e :
  exec_loop m now skew i txs t rs = (rs', Err e) -> (length rs = i + length txs)%nat ->
  exists k tx t' code, txs !! k = Some tx /\ exec_all m now skew (take k txs) t = Ok t' /\ exec_tx m now skew tx t' = Err (code, e) /\
    (forall j tx', (j < k)%nat -> txs !! j = Some tx' -> rs' !! (i + j)%nat = Some (receipt (i + j) tx' ExecCodeOK None)) /\
    rs' !! (i + k)%nat = Some (receipt (i + k) tx code (Some e)) /\
    (forall j, (j < i \/ i + k < j)%nat -> rs' !! j = rs !! j).
Proof.
  revert i t rs. induction txs as [|tx txs IH]; intros i t rs H Hlen; cbn in H; [done|].
  destruct (exec_tx m now skew tx t) as [t1|[code e']] eqn:Htx.
  - destruct (IH (S i) t1 _ H) as (k & tx' & t' & code & Hk & Hall & Herr & Hok & Hat & Hrest).
    { rewrite length_insert. cbn in Hlen. lia. }
    exists (S k), tx', t', code. cbn [lookup list_lookup take exec_all]. rewrite Htx, bind_Ok. split_and!; [done..| | |].
    + intros [|j] y Hj Hy.
      * cbn in Hy. injection Hy as <-. rewrite Nat.add_0_r, Hrest by lia. rewrite list_lookup_insert_eq; [done|]. cbn in Hlen. lia.
      * rewrite <- Nat.add_succ_comm. apply Hok; [lia|done].
    + rewrite <- Nat.add_succ_comm. exact Hat.
    + intros j Hj. rewrite Hrest by lia. apply list_lookup_insert_ne. lia.
  - injection H as <- ->. exists 0%nat, tx, t, code. rewrite Nat.add_0_r. split_and!; [done..| | |].
    + intros j y Hj. lia.
    + rewrite list_lookup_insert_eq; [done|]. cbn in Hlen. lia.
    + intros j Hj. apply list_lookup_insert_ne. lia.
Qed.

(** C15. On a sound store a block fails only for its size or for a transaction. In the
    second case it stops at the first transaction that is invalid or whose nonce is taken
    by other content, in the store or earlier in the block, with that transaction's error;
    the transactions before it validated and have the receipts of success, those after it
    have none. The store is as before. *)
Theorem ApplyBlock_refuses (store store' : MemStore) (now : Time) (skew : Z) (txs : list Transaction) (r : BlockResult)
  (e : state_error) (Hok : store_ok store) (Hrefs : Forall refs_typed txs) (H : ApplyBlock store now skew txs = (store', r))
  (Herr : err r = Some e) :
  store' = store /\ newVersion r = 0 /\
  ((e = ErrBlockTooLarge /\ receipts r = replicate (length txs) zero_receipt /\
    (MaxBlockTxs < len txs \/ MaxBlockBytes < foldl (fun n tx => n + len (Payload tx)) 0 txs)) \/
   exists i tx, txs !! i = Some tx /\ refused store now skew (take i txs) tx e /\
     receipts r !! i = Some (receipt i tx ExecCodeInvalid (Some e)) /\
     forall j tx', txs !! j = Some tx' ->
       ((j < i)%nat -> Validate tx' now skew = Ok tt /\ receipts r !! j = Some (receipt j tx' ExecCodeOK None)) /\
       ((i < j)%nat -> receipts r !! j = Some zero_receipt)).
Proof.
  destruct (ApplyBlock_err _ _ _ _ _ _ H) as (-> & -> & _); [by rewrite Herr|]. split; [done|]. split; [done|].
  unfold ApplyBlock in H. destruct (MaxBlockTxs <? len txs) eqn:Hn; [injection H as <-; injection Herr as <-; go_bool; by left; auto|].
  destruct (MaxBlockBytes <? _) eqn:Hb; [injection H as <-; injection Herr as <-; go_bool; by left; auto|]. right.
  destruct (ok_latest _ Hok) as [s Hs]. unfold Begin, Latest in H. rewrite Hs, Z.eqb_refl in H. cbn [negb] in H.
  destruct (exec_loop store now skew 0 txs _ _) as [rs [t|e']] eqn:Hloop.
  - exfalso. apply exec_loop_exec_all, exec_all_baseVersion in Hloop. cbn in Hloop. unfold Commit in H.
    rewrite Hloop, !Z.eqb_refl in H. cbn in H. injection H as _ <-. discriminate Herr.
  - injection H as <-. cbn in Herr. injection Herr as ->. cbn [receipts].
    apply exec_loop_Err in Hloop as (i & tx & t & code & Hi & Hall & Htx & Hbefore & Hat & Hrest); [|by rewrite length_replicate].
    exists i, tx. split; [done|]. apply (exec_tx_refused _ _ _ (take i txs)) in Htx as [-> Href];
      [|by eapply Forall_lookup_1|by eapply exec_all_nonce_source]. split; [done|]. split; [done|].
    intros j tx' Hj. split; intros Hij.
    + split; [|by apply Hbefore]. refine (proj1 (exec_all_recorded _ _ _ _ _ _ tx' Hall _)).
      apply list_elem_of_lookup_2 with j. by rewrite lookup_take_lt.
    + rewrite Hrest by lia. apply lookup_replicate_2. by eapply lookup_lt_Some.
Qed.

(** C14. A block that succeeds adds exactly one version, the next one: its root is
    the Merkle root of its snapshot and verifies, every other version is
    untouched, and the store invariant is kept. *)
Theorem ApplyBlock_commits (store store' : MemStore) (now : Time) (skew : Z)
  (txs : list Transaction) (r : BlockResult)
  (Hok : store_ok store) (H : ApplyBlock store now skew txs = (store', r)) (Herr : err r = None) :
  store_ok store' /\ latest store' = u64 (latest store + 1) /\
  newVersion r = latest store' /\ Root store' (newVersion r) = Some (root r) /\
  VerifyRoot store' (newVersion r) = true /\
  forall v, v <> newVersion r ->
    snaps store' !! v = snaps store !! v /\ roots store' !! v = roots store !! v.
Proof.
  pose proof (ApplyBlock_store_ok _ _ _ _ _ _ Hok H Herr) as Hok'.
  destruct (ApplyBlock_Ok _ _ _ _ _ _ H Herr) as (_ & _ & _ & t & Hall & Hnv & Hc).
  apply Commit_ok_inv in Hc as (Hv & Hl & Hroot & ->). rewrite Hnv in *. cbn.
  split_and!; try done.
  - unfold Root. cbn. by rewrite lookup_insert_eq.
  - unfold VerifyRoot. cbn. rewrite !lookup_insert_eq. by rewrite Hroot, bool_decide_true.
  - intros v Hne. by rewrite !lookup_insert_ne.
Qed.

(** After a successful block every transaction of it is in the nonce table
    with its own content hash; so one block never holds two different contents
    under the same producer and nonce. *)
Theorem ApplyBlock_nonces (store store' : MemStore) (now : Time) (skew : Z)
  (txs : list Transaction) (r : BlockResult)
  (H : ApplyBlock store now skew txs = (store', r)) (Herr : err r = None) :
  (forall tx, tx ∈ txs -> exists v,
     Get store' (newVersion r) (keyNonce (ProducerID (Envelope_ tx)) (Nonce (Envelope_ tx))) = Some v /\
     copy32 v = ContentHash (Payload tx)) /\
  (forall tx tx', tx ∈ txs -> tx' ∈ txs ->
     ProducerID (Envelope_ tx) = ProducerID (Envelope_ tx') ->
     Nonce (Envelope_ tx) = Nonce (Envelope_ tx') ->
     Payload tx = Payload tx' \/ Collides (Payload tx) (Payload tx')).
Proof.
  destruct (ApplyBlock_Ok _ _ _ _ _ _ H Herr) as (_ & _ & _ & t & Hall & _ & Hc).
  assert (Hget : forall tx, tx ∈ txs -> exists v,
     Get store' (newVersion r) (keyNonce (ProducerID (Envelope_ tx)) (Nonce (Envelope_ tx))) = Some v /\
     copy32 v = ContentHash (Payload tx)).
  { intros tx Hin. destruct (exec_all_recorded _ _ _ _ _ _ _ Hall Hin) as [Hv (v & Hv1 & _ & Hv2)].
    apply Validate_ok in Hv as (_ & _ & _ & Hh). exists v.
    rewrite (Commit_get _ _ _ _ _ _ Hc). split; [done|]. by rewrite Hv2. }
  split; [done|]. intros tx tx' Hin Hin' Hp Hn.
  destruct (Hget tx Hin) as (v & Hv & Hcv). destruct (Hget tx' Hin') as (v' & Hv' & Hcv').
  rewrite Hp, Hn in Hv. rewrite Hv in Hv'. injection Hv' as ->.
  apply sha256_inj_or_collision. unfold ContentHash in *. congruence.
Qed.

(** Re-applying a committed block, at any time at which its transactions still
    validate, succeeds and leaves the state as it was: same snapshot, same
    root, one version later. *)
Theorem ApplyBlock_replay_idempotent (store store1 : MemStore) (now now' : Time) (skew skew' : Z)
  (txs : list Transaction) (r : BlockResult)
  (H : ApplyBlock store now skew txs = (store1, r)) (Herr : err r = None)
  (Hvalid : forall tx, tx ∈ txs -> Validate tx now' skew' = Ok tt) :
  let '(store2, r2) := ApplyBlock store1 now' skew' txs in
  err r2 = None /\ newVersion r2 = u64 (newVersion r + 1) /\ root r2 = root r /\
  snaps store2 !! newVersion r2 = snaps store1 !! newVersion r.
Proof.
  destruct (ApplyBlock_Ok _ _ _ _ _ _ H Herr) as (Hn & Hb & _ & t & Hall & Hnv & Hc).
  pose proof (fun tx => exec_all_recorded _ _ _ _ _ _ tx Hall) as Hrec.
  pose proof (fun k => Commit_fresh_get _ _ _ _ _ k Hc) as Hget.
  apply Commit_ok_inv in Hc as (_ & _ & Hroot & Hst). rewrite Hst in Hget.
  set (nv := newVersion r) in *.
  assert (Hreplay : exec_all store1 now' skew' txs (MkTxn nv ∅) = Ok (MkTxn nv ∅)).
  { apply exec_all_replay. intros tx Hin. split; [by apply Hvalid|].
    destruct (Hrec tx Hin) as [_ (v & Hv & Hl & Hcp)]. exists v.
    rewrite Hst, Hget. done. }
  unfold ApplyBlock. apply Z.ltb_ge in Hn as ->. apply Z.ltb_ge in Hb as ->.
  assert (Hl1 : latest store1 = nv) by by rewrite Hst.
  unfold Begin, Latest. rewrite Hl1, Z.eqb_refl.
  assert (Hsn : snaps store1 !! nv = Some (overlay (default ∅ (snaps store !! baseVersion t)) (writes t))).
  { rewrite Hst. cbn. by rewrite lookup_insert_eq. }
  rewrite Hsn. cbn [negb].
  destruct (exec_all_exec_loop _ _ _ 0 _ _ (replicate (length txs) zero_receipt) _ Hreplay) as [rs ->].
  unfold Commit. cbn [baseVersion writes]. rewrite Z.eqb_refl, Hl1, Z.eqb_refl. cbn.
  rewrite Hsn. cbn. rewrite overlay_empty, lookup_insert_eq, Hroot. done.
Qed.

(** An executed (not replayed) transaction adds one to its producer's counter,
    modulo [2^64], and leaves every other counter alone; a replayed one leaves
    them all alone. *)
Theorem exec_tx_counter (m : MemStore) (now : Time) (skew : Z) (tx : Transaction) (t t' : Txn)
  (pid : bytes) (H : exec_tx m now skew tx t = Ok t') :
  producer_count m t' pid = producer_count m t pid \/
  (pid = ProducerID (Envelope_ tx) /\
   producer_count m t' pid = u64 (producer_count m t pid + 1) /\
   ~ recorded m t (Envelope_ tx)).
Proof.
  apply exec_tx_ok in H as [Hv [[-> _]|[Ha Hfree]]]; [by left|].
  rewrite (apply_reducer_count _ _ _ _ pid Ha).
  case_decide as Hp; [|by left]. subst pid. right. split_and!; [done|done|].
  intros (v & Hget & Hlen & _). apply Hfree in Hget. lia.
Qed.

(** An event whose payload is empty executes successfully but is not stored:
    [Put] of an empty value buffers a nil slice, which reads as deleted. *)
Theorem empty_event_not_stored (m : MemStore) (t t' : Txn) (tx : EventTx)
  (Hdata : ev_Data tx = []) (H : ApplyEvent m tx t = Ok t') :
  Txn_Get m t' (keyEvent (EnvContentHash (ev_Env tx))) = None.
Proof.
  unfold ApplyEvent, bump_producer in H. rewrite Hdata in H. do 3 go_inv_step H.
  rewrite (Txn_Get_Put _ _ _ _ _ _ H), decide_False by done.
  rewrite (Txn_Get_Put _ _ _ _ _ _ Hstep1), decide_False by done.
  rewrite (Txn_Get_Put _ _ _ _ _ _ Hstep0), decide_False by done.
  by rewrite (Txn_Get_Put _ _ _ _ _ _ Hstep), decide_True.
Qed.

(** ** Witnesses *)

Definition demo_now : Time := time_Unix 1700000001.
Definition demo_block : list Transaction := [AnEvent demo_event].
Definition demo_run : MemStore * BlockResult := ApplyBlock NewMemStore demo_now (60 * Second) demo_block.
(** The same producer and nonce under other content, in one block. *)
Definition demo_reuse : EventTx :=
  MkEventTx (ev_Ts demo_event) (str "other") (MkEnvelope (ProducerID (ev_Env demo_event)) (Nonce (ev_Env demo_event))
    (ContentHash (str "other")) (Alg (ev_Env demo_event)) (PubKey (ev_Env demo_event)) (Signature (ev_Env demo_event))).
Definition demo_bad_block : list Transaction := [AnEvent demo_event; AnEvent demo_reuse; AnEvent demo_event].
Definition demo_bad_run : MemStore * BlockResult := ApplyBlock NewMemStore demo_now (60 * Second) demo_bad_block.

Lemma ApplyBlock_refuses_witness :
  err demo_bad_run.2 = Some ErrNonceReplay /\ demo_bad_run.1 = NewMemStore /\
  receipts demo_bad_run.2 = [receipt 0 (AnEvent demo_event) ExecCodeOK None;
    receipt 1 (AnEvent demo_reuse) ExecCodeInvalid (Some ErrNonceReplay); zero_receipt].
Proof.
  assert (Herr : err demo_bad_run.2 = Some ErrNonceReplay) by (vm_compute; reflexivity). split; [exact Herr|].
  destruct (ApplyBlock_refuses NewMemStore demo_bad_run.1 demo_now (60 * Second) demo_bad_block demo_bad_run.2 ErrNonceReplay
    NewMemStore_ok ltac:(repeat constructor) (surjective_pairing _) Herr) as [H _].
  split; [exact H|]. vm_compute. reflexivity.
Defined.

Lemma ApplyBlock_commits_witness :
  store_ok demo_run.1 /\ latest demo_run.1 = u64 (latest NewMemStore + 1) /\
  newVersion demo_run.2 = latest demo_run.1 /\
  Root demo_run.1 (newVersion demo_run.2) = Some (root demo_run.2) /\
  VerifyRoot demo_run.1 (newVersion demo_run.2) = true /\
  forall v, v <> newVersion demo_run.2 ->
    snaps demo_run.1 !! v = snaps NewMemStore !! v /\ roots demo_run.1 !! v = roots NewMemStore !! v.
Proof.
  apply (ApplyBlock_commits NewMemStore demo_run.1 demo_now (60 * Second) demo_block demo_run.2).
  - apply NewMemStore_ok.
  - apply surjective_pairing.
  - vm_compute. reflexivity.
Defined.

Lemma ApplyBlock_nonces_witness :
  (forall tx, tx ∈ demo_block -> exists v,
     Get demo_run.1 (newVersion demo_run.2)
       (keyNonce (ProducerID (Envelope_ tx)) (Nonce (Envelope_ tx))) = Some v /\
     copy32 v = ContentHash (Payload tx)) /\
  (forall tx tx', tx ∈ demo_block -> tx' ∈ demo_block ->
     ProducerID (Envelope_ tx) = ProducerID (Envelope_ tx') ->
     Nonce (Envelope_ tx) = Nonce (Envelope_ tx') ->
     Payload tx = Payload tx' \/ Collides (Payload tx) (Payload tx')).
Proof.
  apply (ApplyBlock_nonces NewMemStore demo_run.1 demo_now (60 * Second) demo_block demo_run.2).
  - apply surjective_pairing.
  - vm_compute. reflexivity.
Defined.

Lemma ApplyBlock_replay_idempotent_witness :
  let '(store2, r2) := ApplyBlock demo_run.1 demo_now (30 * Second) demo_block in
  err r2 = None /\ newVersion r2 = u64 (newVersion demo_run.2 + 1) /\ root r2 = root demo_run.2 /\
  snaps store2 !! newVersion r2 = snaps demo_run.1 !! newVersion demo_run.2.
Proof.
  apply (ApplyBlock_replay_idempotent NewMemStore demo_run.1 demo_now demo_now (60 * Second)
    (30 * Second) demo_block demo_run.2).
  - apply surjective_pairing.
  - vm_compute. reflexivity.
  - intros tx Hin. apply list_elem_of_singleton in Hin as ->. vm_compute. reflexivity.
Defined.

Definition demo_exec : Txn :=
  match exec_tx NewMemStore demo_now (60 * Second) (AnEvent demo_event) (MkTxn 0 ∅) with
  | Ok t => t | Err _ => MkTxn 0 ∅
  end.

Lemma exec_tx_counter_witness :
  producer_count NewMemStore demo_exec (str "producer-1") =
    producer_count NewMemStore (MkTxn 0 ∅) (str "producer-1") \/
  (str "producer-1" = ProducerID (Envelope_ (AnEvent demo_event)) /\
   producer_count NewMemStore demo_exec (str "producer-1") =
     u64 (producer_count NewMemStore (MkTxn 0 ∅) (str "producer-1") + 1) /\
   ~ recorded NewMemStore (MkTxn 0 ∅) (Envelope_ (AnEvent demo_event))).
Proof.
  apply (exec_tx_counter NewMemStore demo_now (60 * Second) (AnEvent demo_event) (MkTxn 0 ∅) demo_exec).
  vm_compute. reflexivity.
Defined.

Definition empty_event : EventTx :=
  MkEventTx 1700000000 [] (MkEnvelope (str "p") (replicate 16 x01) (sha256 []) (str "ed25519")
    (replicate 32 x02) (replicate 64 x03)).
Definition empty_exec : Txn :=
  match ApplyEvent NewMemStore empty_event (MkTxn 0 ∅) with Ok t => t | Err _ => MkTxn 0 ∅ end.

Lemma empty_event_not_stored_witness :
  Txn_Get NewMemStore empty_exec (keyEvent (EnvContentHash (ev_Env empty_event))) = None.
Proof.
  apply (empty_event_not_stored NewMemStore (MkTxn 0 ∅) empty_exec empty_event).
  - reflexivity.
  - vm_compute. reflexivity.
Defined.
