(* ===== verification/StateTypes.v ===== *)
(** The types of the state's records: what the keys and values of every version of
    the store are, over any run of blocks and pruning. *)
From S2P Require Import Prelude Bytes Sha256 GoTime Codec Merkle Store Executor.
Import Codec Model.

(** The records of the state (the key layout of backend/pkg/state/reducers.go), with
    what ties the value to the key. *)
Inductive record : bytes -> bytes -> Prop :=
| rec_event d : record (keyEvent (ContentHash d)) d
| rec_evidence d : record (keyEvidence (ContentHash d)) d
| rec_custody d i ref : record (keyCoC (ContentHash d) i) ref
| rec_last pid ts : record (keyProducerLast pid) (enc_i64 ts)
| rec_count pid n : 0 <= n < two64 -> record (keyProducerCnt pid) (enc_u64 n)
| rec_nonce pid nonce d : len nonce = NonceSize -> record (keyNonce pid nonce) (ContentHash d)
| rec_policy d : record (keyPolicy (ContentHash d)) d
| rec_head d : record keyPolicyHead (ContentHash d).

Definition snapshot_typed (s : snapshot) : Prop := forall k v, s !! k = Some v -> record k v.
Definition store_typed (m : MemStore) : Prop := forall version s, snaps m !! version = Some s -> snapshot_typed s.
Definition txn_typed (t : Txn) : Prop := forall k v, writes t !! k = Some (Some v) -> record k v.

(** ** The reducers write records *)

Lemma length_ContentHash d : length (ContentHash d) = 32%nat.
Proof. apply length_sha256. Qed.

Lemma Put_typed t k v t' : record k v -> Put t k v = Ok t' -> txn_typed t -> txn_typed t'.
Proof.
  intros Hr (_ & _ & ->)%Put_ok Ht k' v'. cbn. rewrite lookup_insert. case_decide; [|apply Ht].
  subst. intros [= Hv]. by apply go_copy_some in Hv as [-> _].
Qed.

Lemma put_coc_typed d i coc t t' : put_coc (ContentHash d) i coc t = Ok t' -> txn_typed t -> txn_typed t'.
Proof.
  revert i t. induction coc as [|c coc IH]; intros i t H Ht; cbn in H; [by injection H as <-|].
  go_inv_step H. eapply IH; [exact H|]. eapply Put_typed; [apply rec_custody|done..].
Qed.

Lemma bump_producer_typed m env ts d t t' :
  EnvContentHash env = ContentHash d -> len (Nonce env) = NonceSize ->
  bump_producer m env ts t = Ok t' -> txn_typed t -> txn_typed t'.
Proof.
  unfold bump_producer. intros Hh Hn H Ht. go_inv_step H. go_inv_step H. rewrite Hh in H.
  eapply Put_typed; [by apply rec_nonce|exact H|]. eapply Put_typed; [apply rec_count, u64_range|exact Hstep0|].
  eapply Put_typed; [apply rec_last|exact Hstep|exact Ht].
Qed.

Lemma apply_reducer_typed m tx t t' now skew :
  Validate tx now skew = Ok tt -> apply_reducer m tx t = Ok t' -> txn_typed t -> txn_typed t'.
Proof.
  intros (_ & _ & Hn & Hh)%Validate_ok.
  destruct tx as [e|e|e]; cbn in *; unfold ApplyEvent, ApplyEvidence, ApplyPolicy; rewrite ?Hh; intros H Ht; go_inv_step H.
  - eapply bump_producer_typed; [exact Hh|done|exact H|]. eapply Put_typed; [apply rec_event|done..].
  - go_inv_step H. eapply bump_producer_typed; [exact Hh|done|exact H|]. eapply put_coc_typed; [exact Hstep0|].
    eapply Put_typed; [apply rec_evidence|done..].
  - go_inv_step H. eapply bump_producer_typed; [exact Hh|done|exact H|]. eapply Put_typed; [apply rec_head|exact Hstep0|].
    eapply Put_typed; [apply rec_policy|done..].
Qed.

Lemma exec_tx_typed m now skew tx t t' : exec_tx m now skew tx t = Ok t' -> txn_typed t -> txn_typed t'.
Proof. intros [Hv [[-> _]|[Ha _]]]%exec_tx_ok Ht; [done|]. by eapply apply_reducer_typed. Qed.

Lemma ApplyBlock_typed store now skew txs : store_typed store -> store_typed (ApplyBlock store now skew txs).1.
Proof.
  intros Hs. destruct (ApplyBlock store now skew txs) as [store' r] eqn:H. cbn.
  destruct (err r) eqn:He.
  { apply ApplyBlock_err in H as [-> _]; [done|by rewrite He]. }
  destruct (ApplyBlock_Ok _ _ _ _ _ _ H He) as (_ & _ & _ & t & Hall & _ & Hc).
  assert (Ht : txn_typed t).
  { eapply exec_all_invariant; [intros tx a b _; apply exec_tx_typed|exact Hall|]. intros k v. cbn. by rewrite lookup_empty. }
  apply Commit_ok_inv in Hc as (_ & _ & _ & ->). intros version s. cbn. rewrite lookup_insert. case_decide; [|apply Hs].
  intros [= <-] k v. rewrite lookup_overlay. destruct (writes t !! k) as [w|] eqn:Hw; [intros ->; by apply Ht|].
  destruct (snaps store !! baseVersion t) eqn:Hb; cbn; [by apply (Hs _ _ Hb)|by rewrite lookup_empty].
Qed.

Lemma PruneRetain_typed m retain : store_typed m -> store_typed (PruneRetain m retain).
Proof.
  intros Hm. unfold PruneRetain. case_match; [done|]. apply (foldl_invariant store_typed); [done|].
  intros m' v _ Hm'. destruct (v =? latest m'); [done|]. intros v' s. cbn. rewrite lookup_delete. case_decide; [done|apply Hm'].
Qed.

(** ** Runs *)

Inductive state_call := Apply (now : Time) (skew : Z) (txs : list Transaction) | Prune (retain : Z).
Definition run_state (c : state_call) (m : MemStore) : MemStore :=
  match c with
  | Apply now skew txs => (ApplyBlock m now skew txs).1
  | Prune retain => PruneRetain m retain
  end.
Definition run_states (cs : list state_call) (m : MemStore) : MemStore := foldl (fun m c => run_state c m) m cs.

Lemma run_states_typed cs m : store_typed m -> store_typed (run_states cs m).
Proof.
  intros Hm. apply (foldl_invariant store_typed); [done|]. intros m' [now skew txs|retain] _ Hm'; cbn.
  - by apply ApplyBlock_typed.
  - by apply PruneRetain_typed.
Qed.

Lemma NewMemStore_typed : store_typed NewMemStore.
Proof.
  intros v s Hs. cbn in Hs. apply lookup_singleton_Some in Hs as [_ <-]. intros k x. by rewrite lookup_empty.
Qed.

(** ** Reading records *)

Ltac record_cases := let H := fresh in intros H; match type of H with record ?k _ =>
  let k' := fresh in remember k as k' eqn:Hk in H; destruct H; try discriminate Hk end.

Lemma record_event h v : record (keyEvent h) v -> h = ContentHash v.
Proof. record_cases. by apply app_inv_head in Hk. Qed.
Lemma record_evidence h v : record (keyEvidence h) v -> h = ContentHash v.
Proof. record_cases. by apply app_inv_head in Hk. Qed.
Lemma record_policy h v : len h = 32 -> record (keyPolicy h) v -> h = ContentHash v.
Proof.
  intros Hl. record_cases; [by apply app_inv_head in Hk|].
  apply (app_inv_head prefPolicy (str "latest")) in Hk. subst h. discriminate Hl.
Qed.
Lemma record_nonce pid nonce v : record (keyNonce pid nonce) v -> len v = 32.
Proof. record_cases. unfold len. by rewrite length_ContentHash. Qed.
Lemma record_last pid v : record (keyProducerLast pid) v -> len v = 8.
Proof. record_cases. unfold len, enc_i64, enc_u64. by rewrite length_be_put. Qed.

(** C20. Every entry of every version, over any run of blocks and pruning from the empty
    store, is a record of the state: event, evidence and policy payloads are filed
    under their own hash, chain-of-custody entries under the hash of a payload,
    counters and times are eight bytes and nonces name a hash. So the queries never
    meet a value of the wrong size, and what they find by hash has that hash. *)
Theorem state_typed (calls : list state_call) (version : Z) :
  let m := run_states calls NewMemStore in
  (forall k v, Get m version k = Some v -> record k v) /\
  (forall h d, EventByHash m version h = Ok d -> ContentHash d = h) /\
  (forall h d, EvidenceByHash m version h = Ok d -> ContentHash d = h) /\
  (forall h d, PolicyLatest m version = Ok (h, d) -> ContentHash d = h) /\
  (forall pid nonce v, Get m version (keyNonce pid nonce) = Some v -> NonceMapping m version pid nonce = Ok v) /\
  (forall pid, is_Some (Get m version (keyProducerLast pid)) -> exists last n, ProducerStats m version pid = Ok (last, n)).
Proof.
  cbv zeta. set (m := run_states calls NewMemStore).
  assert (Hget : forall k v, Get m version k = Some v -> record k v).
  { intros k v. unfold Get. destruct (snaps m !! version) as [s|] eqn:Hs; [|done]. cbn.
    apply (run_states_typed calls NewMemStore NewMemStore_typed _ _ Hs). }
  split_and!; [exact Hget| | | | |].
  - intros h d. unfold EventByHash. destruct (Get m version (keyEvent h)) as [v|] eqn:Hg; [|done]. intros [= <-].
    symmetry. by apply record_event, Hget.
  - intros h d. unfold EvidenceByHash. destruct (Get m version (keyEvidence h)) as [v|] eqn:Hg; [|done]. intros [= <-].
    symmetry. by apply record_evidence, Hget.
  - intros h d. unfold PolicyLatest. destruct (Get m version keyPolicyHead) as [v|] eqn:Hh; [|done].
    destruct (Z.eqb_spec (len v) 32) as [Hl|]; [|done]. cbn [negb].
    destruct (Get m version (keyPolicy v)) as [p|] eqn:Hp; [|done]. intros [= <- <-].
    symmetry. apply record_policy; [done|]. by apply Hget.
  - intros pid nonce v Hg. unfold NonceMapping. rewrite Hg. by rewrite (record_nonce pid nonce v (Hget _ _ Hg)).
  - intros pid [v Hv]. unfold ProducerStats. rewrite Hv, (record_last pid v (Hget _ _ Hv)). cbn. by eexists _, _.
Qed.
