(* ===== verification/Messages.v ===== *)
(** backend/pkg/consensus/messages/types.go and consensus/types/common.go: the
    consensus messages, their canonical sign bytes and their hashes. *)
From S2P Require Import Prelude Bytes Sha256 GoTime Codec.

(** [[32]byte] identifiers. *)
Abbreviation ValidatorID := bytes.
Abbreviation BlockHash := bytes.

Record Signature := MkSig { sig_Bytes : bytes; KeyID : ValidatorID; sig_Timestamp : Time }.

(** The values of the [types.Block] interface. *)
Record Block := MkBlock {
  GetHeight : Z; GetHash : BlockHash; GetParentHash : BlockHash;
  GetTransactionCount : Z; blk_Timestamp : Time }.

Inductive MessageType :=
| TypeProposal | TypeVote | TypeQC | TypeViewChange | TypeNewView | TypeHeartbeat | TypeEvidence
| TypeGenesisReady | TypeGenesisCertificate | TypeProposalIntent | TypeReadyToVote.

#[export] Instance MessageType_eq_dec : EqDecision MessageType.
Proof. solve_decision. Defined.

Inductive EvidenceType :=
| EvidenceDoubleVote | EvidenceDoublePropose | EvidenceInvalidSignature | EvidenceTimestampViolation.

Definition evidence_byte (k : EvidenceType) : Z :=
  match k with
  | EvidenceDoubleVote => 1 | EvidenceDoublePropose => 2
  | EvidenceInvalidSignature => 3 | EvidenceTimestampViolation => 4
  end.

Definition Domain (t : MessageType) : bytes :=
  match t with
  | TypeProposal => str "CONSENSUS_PROPOSAL_V1"
  | TypeVote => str "CONSENSUS_VOTE_V1"
  | TypeQC => str "CONSENSUS_QC_V1"
  | TypeViewChange => str "CONSENSUS_VIEWCHANGE_V1"
  | TypeNewView => str "CONSENSUS_NEWVIEW_V1"
  | TypeHeartbeat => str "CONSENSUS_HEARTBEAT_V1"
  | TypeEvidence => str "CONSENSUS_EVIDENCE_V1"
  | TypeGenesisReady => str "CONSENSUS_GENESIS_READY_V1"
  | TypeGenesisCertificate => str "CONSENSUS_GENESIS_CERT_V1"
  | TypeProposalIntent => str "CONSENSUS_PROPOSAL_INTENT_V1"
  | TypeReadyToVote => str "CONSENSUS_READY_TO_VOTE_V1"
  end.

Definition appendUint64 (v : Z) : bytes := be_put 8 v.
Definition appendInt64 (v : Z) : bytes := be_put 8 (u64 v).

(** ** Messages *)

Record Vote := MkVote {
  v_View : Z; v_Height : Z; v_Round : Z; v_BlockHash : BlockHash; VoterID : ValidatorID;
  v_Timestamp : Time; v_Signature : Signature }.

Definition Vote_SignBytes (v : Vote) : bytes :=
  Domain TypeVote ++ [x00] ++
  appendUint64 (v_View v) ++ appendUint64 (v_Height v) ++ appendUint64 (v_Round v) ++
  v_BlockHash v ++ VoterID v ++ appendInt64 (UnixNano (v_Timestamp v)).
Definition Vote_Hash (v : Vote) : BlockHash := sha256 (Vote_SignBytes v).

(** [messages.QC]; [pbft.QuorumCertificate] has the same fields. *)
Record QC := MkQC {
  q_View : Z; q_Height : Z; q_Round : Z; q_BlockHash : BlockHash; Signatures : list Signature;
  q_Timestamp : Time; AggregatorID : ValidatorID }.

Definition QC_SignBytes (q : QC) : bytes :=
  Domain TypeQC ++ [x00] ++
  appendUint64 (q_View q) ++ appendUint64 (q_Height q) ++ appendUint64 (q_Round q) ++
  q_BlockHash q ++ appendInt64 (UnixNano (q_Timestamp q)).
Definition QC_Hash (q : QC) : BlockHash := sha256 (QC_SignBytes q).

(** The optional trailing QC hash of several messages. *)
Definition opt_qc_hash (q : option QC) : bytes := match q with Some q => QC_Hash q | None => [] end.

Record Proposal := MkProposal {
  p_View : Z; p_Height : Z; p_Round : Z; p_BlockHash : BlockHash; ParentHash : BlockHash;
  ProposerID : ValidatorID; p_Timestamp : Time; JustifyQC : option QC; p_Block : option Block;
  p_Signature : Signature }.

Definition Proposal_SignBytes (p : Proposal) : bytes :=
  Domain TypeProposal ++ [x00] ++
  appendUint64 (p_View p) ++ appendUint64 (p_Height p) ++ appendUint64 (p_Round p) ++
  p_BlockHash p ++ ParentHash p ++ ProposerID p ++ appendInt64 (UnixNano (p_Timestamp p)) ++
  opt_qc_hash (JustifyQC p).
Definition Proposal_Hash (p : Proposal) : BlockHash := sha256 (Proposal_SignBytes p).

Record ViewChange := MkViewChange {
  vc_OldView : Z; vc_NewView : Z; vc_Height : Z; vc_HighestQC : option QC; SenderID : ValidatorID;
  vc_Timestamp : Time; vc_Signature : Signature }.

Definition ViewChange_SignBytes (vc : ViewChange) : bytes :=
  Domain TypeViewChange ++ [x00] ++
  appendUint64 (vc_OldView vc) ++ appendUint64 (vc_NewView vc) ++ appendUint64 (vc_Height vc) ++
  SenderID vc ++ appendInt64 (UnixNano (vc_Timestamp vc)) ++ opt_qc_hash (vc_HighestQC vc).
Definition ViewChange_Hash (vc : ViewChange) : BlockHash := sha256 (ViewChange_SignBytes vc).

Record NewView := MkNewView {
  nv_View : Z; nv_Height : Z; ViewChanges : list ViewChange; nv_HighestQC : option QC;
  nv_LeaderID : ValidatorID; nv_Timestamp : Time; nv_Signature : Signature }.

Definition NewView_SignBytes (nv : NewView) : bytes :=
  Domain TypeNewView ++ [x00] ++
  appendUint64 (nv_View nv) ++ appendUint64 (nv_Height nv) ++ nv_LeaderID nv ++
  appendInt64 (UnixNano (nv_Timestamp nv)) ++
  mjoin (ViewChange_Hash <$> ViewChanges nv) ++ opt_qc_hash (nv_HighestQC nv).
Definition NewView_Hash (nv : NewView) : BlockHash := sha256 (NewView_SignBytes nv).

Record Heartbeat := MkHeartbeat {
  hb_View : Z; hb_Height : Z; hb_LeaderID : ValidatorID; hb_Timestamp : Time; hb_Signature : Signature }.

Definition Heartbeat_SignBytes (hb : Heartbeat) : bytes :=
  Domain TypeHeartbeat ++ [x00] ++
  appendUint64 (hb_View hb) ++ appendUint64 (hb_Height hb) ++ hb_LeaderID hb ++
  appendInt64 (UnixMilli (hb_Timestamp hb)).
Definition Heartbeat_Hash (hb : Heartbeat) : BlockHash := sha256 (Heartbeat_SignBytes hb).

Record Evidence := MkEvidence {
  e_Kind : EvidenceType; e_View : Z; e_Height : Z; OffenderID : ValidatorID; e_Proof : bytes;
  ReporterID : ValidatorID; e_Timestamp : Time; e_Signature : Signature }.

Definition Evidence_SignBytes (e : Evidence) : bytes :=
  Domain TypeEvidence ++ [x00] ++
  [byte_of (evidence_byte (e_Kind e))] ++ appendUint64 (e_View e) ++ appendUint64 (e_Height e) ++
  OffenderID e ++ sha256 (e_Proof e) ++ ReporterID e ++ appendInt64 (UnixNano (e_Timestamp e)).
Definition Evidence_Hash (e : Evidence) : BlockHash := sha256 (Evidence_SignBytes e).

Record GenesisReady := MkGenesisReady {
  gr_ValidatorID : ValidatorID; gr_Timestamp : Time; ConfigHash : bytes; PeerHash : bytes;
  gr_Nonce : bytes; gr_Signature : Signature }.

Definition GenesisReady_SignBytes (gr : GenesisReady) : bytes :=
  Domain TypeGenesisReady ++ [x00] ++
  gr_ValidatorID gr ++ appendInt64 (UnixNano (gr_Timestamp gr)) ++
  ConfigHash gr ++ PeerHash gr ++ gr_Nonce gr.
Definition GenesisReady_Hash (gr : GenesisReady) : BlockHash := sha256 (GenesisReady_SignBytes gr).

Record GenesisCertificate := MkGenesisCertificate {
  Attestations : list GenesisReady; gc_Aggregator : ValidatorID; gc_Timestamp : Time;
  gc_Signature : Signature }.

Definition GenesisCertificate_SignBytes (gc : GenesisCertificate) : bytes :=
  Domain TypeGenesisCertificate ++ [x00] ++
  gc_Aggregator gc ++ appendInt64 (UnixNano (gc_Timestamp gc)) ++
  mjoin (GenesisReady_Hash <$> Attestations gc).
Definition GenesisCertificate_Hash (gc : GenesisCertificate) : BlockHash :=
  sha256 (GenesisCertificate_SignBytes gc).

Record ProposalIntent := MkProposalIntent {
  pi_View : Z; pi_Height : Z; pi_LeaderID : ValidatorID; pi_Nonce : bytes; pi_Timestamp : Time;
  pi_Signature : Signature }.

Definition ProposalIntent_SignBytes (p : ProposalIntent) : bytes :=
  Domain TypeProposalIntent ++ [x00] ++
  appendUint64 (pi_View p) ++ appendUint64 (pi_Height p) ++ pi_LeaderID p ++ pi_Nonce p ++
  appendInt64 (UnixNano (pi_Timestamp p)).
Definition ProposalIntent_Hash (p : ProposalIntent) : BlockHash := sha256 (ProposalIntent_SignBytes p).

Record ReadyToVote := MkReadyToVote {
  rtv_View : Z; rtv_Height : Z; rtv_ValidatorID : ValidatorID; rtv_LeaderID : ValidatorID;
  rtv_Nonce : bytes; rtv_Timestamp : Time; rtv_Signature : Signature }.

Definition ReadyToVote_SignBytes (r : ReadyToVote) : bytes :=
  Domain TypeReadyToVote ++ [x00] ++
  appendUint64 (rtv_View r) ++ appendUint64 (rtv_Height r) ++ rtv_ValidatorID r ++
  rtv_LeaderID r ++ rtv_Nonce r ++ appendInt64 (UnixNano (rtv_Timestamp r)).
Definition ReadyToVote_Hash (r : ReadyToVote) : BlockHash := sha256 (ReadyToVote_SignBytes r).

(** The [types.Message] interface. *)
Inductive Message :=
| MProposal (m : Proposal) | MVote (m : Vote) | MQC (m : QC) | MViewChange (m : ViewChange)
| MNewView (m : NewView) | MHeartbeat (m : Heartbeat) | MEvidence (m : Evidence)
| MGenesisReady (m : GenesisReady) | MGenesisCertificate (m : GenesisCertificate)
| MProposalIntent (m : ProposalIntent) | MReadyToVote (m : ReadyToVote).

Definition Message_Type (m : Message) : MessageType :=
  match m with
  | MProposal _ => TypeProposal | MVote _ => TypeVote | MQC _ => TypeQC
  | MViewChange _ => TypeViewChange | MNewView _ => TypeNewView | MHeartbeat _ => TypeHeartbeat
  | MEvidence _ => TypeEvidence | MGenesisReady _ => TypeGenesisReady
  | MGenesisCertificate _ => TypeGenesisCertificate | MProposalIntent _ => TypeProposalIntent
  | MReadyToVote _ => TypeReadyToVote
  end.

Definition getSignBytes (m : Message) : bytes :=
  match m with
  | MProposal m => Proposal_SignBytes m | MVote m => Vote_SignBytes m | MQC m => QC_SignBytes m
  | MViewChange m => ViewChange_SignBytes m | MNewView m => NewView_SignBytes m
  | MHeartbeat m => Heartbeat_SignBytes m | MEvidence m => Evidence_SignBytes m
  | MGenesisReady m => GenesisReady_SignBytes m | MGenesisCertificate m => GenesisCertificate_SignBytes m
  | MProposalIntent m => ProposalIntent_SignBytes m | MReadyToVote m => ReadyToVote_SignBytes m
  end.

Definition Message_Hash (m : Message) : BlockHash := sha256 (getSignBytes m).

Definition Message_Timestamp (m : Message) : Time :=
  match m with
  | MProposal m => p_Timestamp m | MVote m => v_Timestamp m | MQC m => q_Timestamp m
  | MViewChange m => vc_Timestamp m | MNewView m => nv_Timestamp m | MHeartbeat m => hb_Timestamp m
  | MEvidence m => e_Timestamp m | MGenesisReady m => gr_Timestamp m
  | MGenesisCertificate m => gc_Timestamp m | MProposalIntent m => pi_Timestamp m
  | MReadyToVote m => rtv_Timestamp m
  end.

Definition Message_View (m : Message) : Z :=
  match m with
  | MProposal m => p_View m | MVote m => v_View m | MQC m => q_View m
  | MViewChange m => vc_NewView m | MNewView m => nv_View m | MHeartbeat m => hb_View m
  | MEvidence m => e_View m | MGenesisReady _ => 0 | MGenesisCertificate _ => 0
  | MProposalIntent m => pi_View m | MReadyToVote m => rtv_View m
  end.

(** ** The signed content of a message *)

(** A fixed-width field of the canonical bytes. *)
Inductive field := FU64 (z : Z) | FI64 (z : Z) | FByte (z : Z) | F32 (b : bytes).

Definition encode_field (f : field) : bytes :=
  match f with
  | FU64 z => appendUint64 z
  | FI64 z => appendInt64 z
  | FByte z => [byte_of z]
  | F32 b => b
  end.

Definition field_wf (f : field) : Prop :=
  match f with
  | FU64 z => 0 <= z < two64
  | FI64 z => int64 z
  | FByte z => 0 <= z < 256
  | F32 b => length b = 32%nat
  end.

Definition same_shape (f g : field) : Prop :=
  match f, g with
  | FU64 _, FU64 _ | FI64 _, FI64 _ | FByte _, FByte _ | F32 _, F32 _ => True
  | _, _ => False
  end.

Definition encode_fields (fs : list field) : bytes := mjoin (encode_field <$> fs).

Lemma encode_field_inj f g r r' :
  field_wf f -> field_wf g -> same_shape f g ->
  encode_field f ++ r = encode_field g ++ r' -> f = g /\ r = r'.
Proof.
  destruct f, g; cbn [field_wf same_shape encode_field]; try done; intros Hf Hg _ H;
    (apply app_inj_len in H as [H ->];
      [|unfold appendUint64, appendInt64; by rewrite ?length_be_put, ?Hf, ?Hg]); (split; [|done]).
  - f_equal. by apply be_put_inj in H.
  - f_equal. by apply be_put8_u64_inj in H.
  - injection H as H. f_equal. apply (f_equal byte_val) in H.
    rewrite !byte_val_of, !Z.mod_small in H; done.
  - by rewrite H.
Qed.

Lemma encode_fields_inj fs gs r r' :
  Forall field_wf fs -> Forall field_wf gs -> Forall2 same_shape fs gs ->
  encode_fields fs ++ r = encode_fields gs ++ r' -> fs = gs /\ r = r'.
Proof.
  intros Hf Hg Hs. revert Hf Hg.
  induction Hs as [|f g fs gs Hfg Hs IH]; intros Hf Hg; cbn; [by auto|].
  apply Forall_cons in Hf as [Hf Hfs]. apply Forall_cons in Hg as [Hg Hgs].
  unfold encode_fields. cbn. rewrite <- !app_assoc. intros H.
  apply encode_field_inj in H as [-> H]; [|done..].
  by destruct (IH Hfs Hgs H) as [-> ->].
Qed.

(** A concatenation of 32-byte hashes determines the hashes. *)
Lemma mjoin_hashes_inj (l k : list bytes) :
  Forall (fun h => length h = 32%nat) l -> Forall (fun h => length h = 32%nat) k ->
  mjoin l = mjoin k -> l = k.
Proof.
  intros Hl. revert k. induction Hl as [|h l Hh Hl IH]; intros [|g k] Hk; cbn; [done| | |].
  - apply Forall_cons in Hk as [Hg _]. intros H. apply (f_equal length) in H.
    rewrite length_app in H. cbn in H. lia.
  - intros H. apply (f_equal length) in H. rewrite length_app in H. cbn in H. lia.
  - apply Forall_cons in Hk as [Hg Hk]. intros H.
    apply app_inj_len in H as [-> H]; [|congruence]. f_equal. by apply IH.
Qed.

Definition opt_qc_list (q : option QC) : list bytes := match q with Some q => [QC_Hash q] | None => [] end.

(** What a signature over a message commits to: its fixed-width fields and the
    hashes of the messages it embeds. *)
Definition signed_fields (m : Message) : list field :=
  match m with
  | MProposal p => [FU64 (p_View p); FU64 (p_Height p); FU64 (p_Round p); F32 (p_BlockHash p);
                    F32 (ParentHash p); F32 (ProposerID p); FI64 (UnixNano (p_Timestamp p))]
  | MVote v => [FU64 (v_View v); FU64 (v_Height v); FU64 (v_Round v); F32 (v_BlockHash v);
                F32 (VoterID v); FI64 (UnixNano (v_Timestamp v))]
  | MQC q => [FU64 (q_View q); FU64 (q_Height q); FU64 (q_Round q); F32 (q_BlockHash q);
              FI64 (UnixNano (q_Timestamp q))]
  | MViewChange v => [FU64 (vc_OldView v); FU64 (vc_NewView v); FU64 (vc_Height v);
                      F32 (SenderID v); FI64 (UnixNano (vc_Timestamp v))]
  | MNewView n => [FU64 (nv_View n); FU64 (nv_Height n); F32 (nv_LeaderID n);
                   FI64 (UnixNano (nv_Timestamp n))]
  | MHeartbeat h => [FU64 (hb_View h); FU64 (hb_Height h); F32 (hb_LeaderID h);
                     FI64 (UnixMilli (hb_Timestamp h))]
  | MEvidence e => [FByte (evidence_byte (e_Kind e)); FU64 (e_View e); FU64 (e_Height e);
                    F32 (OffenderID e); F32 (sha256 (e_Proof e)); F32 (ReporterID e);
                    FI64 (UnixNano (e_Timestamp e))]
  | MGenesisReady g => [F32 (gr_ValidatorID g); FI64 (UnixNano (gr_Timestamp g));
                        F32 (ConfigHash g); F32 (PeerHash g); F32 (gr_Nonce g)]
  | MGenesisCertificate g => [F32 (gc_Aggregator g); FI64 (UnixNano (gc_Timestamp g))]
  | MProposalIntent p => [FU64 (pi_View p); FU64 (pi_Height p); F32 (pi_LeaderID p);
                          F32 (pi_Nonce p); FI64 (UnixNano (pi_Timestamp p))]
  | MReadyToVote r => [FU64 (rtv_View r); FU64 (rtv_Height r); F32 (rtv_ValidatorID r);
                       F32 (rtv_LeaderID r); F32 (rtv_Nonce r); FI64 (UnixNano (rtv_Timestamp r))]
  end.

Definition signed_hashes (m : Message) : list bytes :=
  match m with
  | MProposal p => opt_qc_list (JustifyQC p)
  | MViewChange v => opt_qc_list (vc_HighestQC v)
  | MNewView n => (ViewChange_Hash <$> ViewChanges n) ++ opt_qc_list (nv_HighestQC n)
  | MGenesisCertificate g => GenesisReady_Hash <$> Attestations g
  | _ => []
  end.

Definition message_wf (m : Message) : Prop := Forall field_wf (signed_fields m).

Lemma opt_qc_join q : opt_qc_hash q = mjoin (opt_qc_list q).
Proof. destruct q; cbn; by rewrite ?app_nil_r. Qed.

(** The bytes the code builds are the encoding of that content. *)
Lemma getSignBytes_fields m :
  getSignBytes m = Domain (Message_Type m) ++ x00 :: encode_fields (signed_fields m) ++ mjoin (signed_hashes m).
Proof.
  destruct m; cbn [getSignBytes Message_Type signed_hashes];
    unfold Proposal_SignBytes, Vote_SignBytes, QC_SignBytes, ViewChange_SignBytes,
      NewView_SignBytes, Heartbeat_SignBytes, Evidence_SignBytes, GenesisReady_SignBytes,
      GenesisCertificate_SignBytes, ProposalIntent_SignBytes, ReadyToVote_SignBytes;
    rewrite ?opt_qc_join, ?join_app; unfold encode_fields;
    cbn [signed_fields fmap list_fmap mjoin list_join encode_field];
    rewrite ?app_nil_r, <- ?app_assoc; reflexivity.
Qed.

Lemma signed_hashes_32 m : Forall (fun h => length h = 32%nat) (signed_hashes m).
Proof.
  assert (Hq : forall q, Forall (fun h => length h = 32%nat) (opt_qc_list q)).
  { intros [q|]; cbn; [|done]. apply Forall_singleton, length_sha256. }
  destruct m; cbn; auto.
  - apply Forall_app. split; [|auto]. apply Forall_fmap, Forall_true. intros x. apply length_sha256.
  - apply Forall_fmap, Forall_true. intros x. apply length_sha256.
Qed.

Lemma Domain_no_nul t : x00 ∉ Domain t.
Proof. destruct t; apply (bool_decide_unpack (_ ∉ _)); vm_compute; exact I. Qed.

Lemma Domain_inj t t' : Domain t = Domain t' -> t = t'.
Proof. destruct t, t'; first [done | intros H; discriminate H]. Qed.

Lemma signed_fields_shape m m' :
  Message_Type m = Message_Type m' -> Forall2 same_shape (signed_fields m) (signed_fields m').
Proof. destruct m, m'; cbn; first [discriminate | intros _; repeat constructor]. Qed.

Lemma getSignBytes_inj m m' :
  message_wf m -> message_wf m' -> getSignBytes m = getSignBytes m' ->
  Message_Type m = Message_Type m' /\ signed_fields m = signed_fields m' /\
  signed_hashes m = signed_hashes m'.
Proof.
  intros Hm Hm'. rewrite !getSignBytes_fields. intros H.
  apply nul_prefix_inj in H as [Hd H]; [|apply Domain_no_nul..].
  apply Domain_inj in Hd. split; [done|].
  apply encode_fields_inj in H as [Hf H]; [|done|done|by apply signed_fields_shape].
  split; [done|]. apply mjoin_hashes_inj; [apply signed_hashes_32..|done].
Qed.

(** ** Properties *)

(** Domain separation and binding: two well-formed consensus messages of any
    types with the same sign bytes have the same type, the same signed fields
    and the same embedded hashes; with the same message hash, either that or
    their sign bytes are an explicit SHA-256 collision. *)
Theorem SignBytes_binding (m m' : Message) (Hwf : message_wf m) (Hwf' : message_wf m') :
  (getSignBytes m = getSignBytes m' ->
     Message_Type m = Message_Type m' /\ signed_fields m = signed_fields m' /\
     signed_hashes m = signed_hashes m') /\
  (Message_Hash m = Message_Hash m' ->
     (Message_Type m = Message_Type m' /\ signed_fields m = signed_fields m' /\
      signed_hashes m = signed_hashes m') \/
     Collides (getSignBytes m) (getSignBytes m')).
Proof.
  split.
  - by apply getSignBytes_inj.
  - intros [Heq|Hc]%sha256_inj_or_collision; [left; by apply getSignBytes_inj|by right].
Qed.

Definition demo_id (n : Z) : bytes := be_put 32 n.
Definition demo_sig (n : Z) : Signature := MkSig [x01] (demo_id n) (time_Unix 1700000000).
Definition demo_vote (voter : Z) : Vote :=
  MkVote 5 2 0 (demo_id 77) (demo_id voter) (time_Unix 1700000000) (demo_sig voter).

Lemma SignBytes_binding_witness :
  (getSignBytes (MVote (demo_vote 1)) = getSignBytes (MVote (demo_vote 2)) ->
     Message_Type (MVote (demo_vote 1)) = Message_Type (MVote (demo_vote 2)) /\
     signed_fields (MVote (demo_vote 1)) = signed_fields (MVote (demo_vote 2)) /\
     signed_hashes (MVote (demo_vote 1)) = signed_hashes (MVote (demo_vote 2))) /\
  (Message_Hash (MVote (demo_vote 1)) = Message_Hash (MVote (demo_vote 2)) ->
     (Message_Type (MVote (demo_vote 1)) = Message_Type (MVote (demo_vote 2)) /\
      signed_fields (MVote (demo_vote 1)) = signed_fields (MVote (demo_vote 2)) /\
      signed_hashes (MVote (demo_vote 1)) = signed_hashes (MVote (demo_vote 2))) \/
     Collides (getSignBytes (MVote (demo_vote 1))) (getSignBytes (MVote (demo_vote 2)))).
Proof.
  apply (SignBytes_binding (MVote (demo_vote 1)) (MVote (demo_vote 2)));
    repeat constructor; vm_compute; try reflexivity; discriminate.
Defined.
