(* ===== verification/Block.v ===== *)
(** backend/pkg/block/types.go: application blocks, their header hash, and their
    wire form; what a block's hash binds, and what it leaves open. *)
From S2P Require Import Prelude Bytes Sha256 GoTime Codec Merkle Store Executor Messages.
Import Codec Model.

Definition domainBlockHeader : bytes := str "BLOCK_HEADER_V1".

(** The values of the string type [state.TxType]. *)
Definition type_name (t : TxType) : bytes :=
  match t with TxEvent => str "event" | TxEvidence => str "evidence" | TxPolicy => str "policy" end.

Inductive block_error :=
| ErrNilBlock | ErrNilPayload
| ErrUnsupportedType (t : bytes)
| ErrTxRoot (expected got : BlockHash).

#[export] Instance block_error_eq_dec : EqDecision block_error.
Proof. solve_decision. Defined.

(** The transactions of a block are never nil: they come from the wire, where
    [ToAppBlock] builds each, or from the mempool, which refuses nil. *)
Record AppBlock := MkAppBlock {
  height : Z; parentHash : BlockHash; txRoot : BlockHash; stateRootHint : BlockHash;
  proposerID : ValidatorID; timestamp : Time; hash : BlockHash; txCount : Z; txs : list Transaction }.

Record AppTransactionPayload := MkTxPayload {
  pt_Type : bytes; pt_Timestamp : Z; pt_Payload : bytes; pt_Envelope : Envelope; pt_CoC : list CoCEntry }.

Record AppBlockPayload := MkBlockPayload {
  bp_Height : Z; bp_ParentHash : BlockHash; bp_TxRoot : BlockHash; bp_StateRootHint : BlockHash;
  bp_Proposer : ValidatorID; bp_Timestamp : Time; bp_Transactions : list AppTransactionPayload }.

(** Copies have the contents of their source; an empty slice and nil are the same
    byte string. *)
Definition cloneBytes (src : bytes) : bytes := if len src =? 0 then [] else src.
Definition cloneEnvelope (env : Envelope) : Envelope :=
  MkEnvelope (cloneBytes (ProducerID env)) (cloneBytes (Nonce env)) (EnvContentHash env) (Alg env)
             (cloneBytes (PubKey env)) (cloneBytes (Signature env)).
Definition cloneCoCEntries (entries : list CoCEntry) : list CoCEntry :=
  (fun e => MkCoC (RefHash e) (cloneBytes (ActorID e)) (CoCTs e) (cloneBytes (CoCSignature e))) <$> entries.

(** ** Roots and header hashes *)

(** The root over the content hashes; values are empty. *)
Definition computeTxRootForPayload (txs : list Transaction) : BlockHash :=
  if len txs =? 0 then HashBytes []
  else BuildRoot ((fun tx => (cloneBytes (EnvContentHash (Envelope_ tx)), [])) <$> txs).

Definition header_bytes (b : AppBlock) : bytes :=
  domainBlockHeader ++ [x00] ++ be_put 8 (height b) ++ parentHash b ++ txRoot b ++ stateRootHint b ++
  proposerID b ++ be_put 8 (u64 (Unix (timestamp b))).

Definition computeHeaderHash (b : AppBlock) : BlockHash := sha256 (header_bytes b).

Definition with_hash (h : BlockHash) (b : AppBlock) : AppBlock :=
  MkAppBlock (height b) (parentHash b) (txRoot b) (stateRootHint b) (proposerID b) (timestamp b) h (txCount b) (txs b).

Definition NewAppBlock (height : Z) (parent txRoot stateRootHint : BlockHash) (proposer : ValidatorID) (ts : Time)
  (txs : list Transaction) : AppBlock :=
  let b := MkAppBlock height parent txRoot stateRootHint proposer ts zero32 (len txs) txs in
  with_hash (computeHeaderHash b) b.

Definition NewAppBlockHeader (height : Z) (parent txRoot stateRootHint : BlockHash) (proposer : ValidatorID) (ts : Time)
  (txCount : Z) : AppBlock :=
  let b := MkAppBlock height parent txRoot stateRootHint proposer ts zero32 txCount [] in
  with_hash (computeHeaderHash b) b.

(** The methods of [types.Block]. *)
Definition as_block (b : AppBlock) : Block :=
  MkBlock (height b) (hash b) (parentHash b) (txCount b) (timestamp b).

(** ** The wire form *)

Definition payload_of_tx (tx : Transaction) : AppTransactionPayload :=
  MkTxPayload (type_name (Type_ tx)) (Timestamp tx) (cloneBytes (Payload tx)) (cloneEnvelope (Envelope_ tx))
    (match tx with AnEvidence t => cloneCoCEntries (CoC t) | AnEvent _ | APolicy _ => [] end).

(** On a pointer, which may be nil. *)
Definition ToPayload (b : option AppBlock) : result block_error AppBlockPayload :=
  match b with
  | None => Err ErrNilBlock
  | Some b =>
      Ok (MkBlockPayload (height b) (parentHash b) (txRoot b) (stateRootHint b) (proposerID b) (timestamp b)
            (payload_of_tx <$> txs b))
  end.

Definition tx_of_payload (p : AppTransactionPayload) : result block_error Transaction :=
  let env := cloneEnvelope (pt_Envelope p) in
  let data := cloneBytes (pt_Payload p) in
  if bool_decide (pt_Type p = type_name TxEvent) then Ok (AnEvent (MkEventTx (pt_Timestamp p) data env))
  else if bool_decide (pt_Type p = type_name TxEvidence) then
    Ok (AnEvidence (MkEvidenceTx (pt_Timestamp p) data env (cloneCoCEntries (pt_CoC p))))
  else if bool_decide (pt_Type p = type_name TxPolicy) then Ok (APolicy (MkPolicyTx (pt_Timestamp p) data env))
  else Err (ErrUnsupportedType (pt_Type p)).

Definition with_root (r : BlockHash) (p : AppBlockPayload) : AppBlockPayload :=
  MkBlockPayload (bp_Height p) (bp_ParentHash p) r (bp_StateRootHint p) (bp_Proposer p) (bp_Timestamp p) (bp_Transactions p).

(** The payload with the root the block gets: an empty block with the zero root of
    older versions has its root replaced. *)
Definition check_root (p : AppBlockPayload) (txs : list Transaction) : result block_error AppBlockPayload :=
  let computedRoot := computeTxRootForPayload txs in
  if bool_decide (computedRoot = bp_TxRoot p) then Ok p
  else if (len txs =? 0) && bool_decide (bp_TxRoot p = zero32) && bool_decide (computedRoot = HashBytes [])
  then Ok (with_root computedRoot p)
  else Err (ErrTxRoot (bp_TxRoot p) computedRoot).

(** The receiver is a pointer to a payload, which is changed in place when its root
    is replaced. *)
Definition ToAppBlock : ST (option AppBlockPayload) block_error AppBlock :=
  op ← gets id;
  match op with
  | None => throw ErrNilPayload
  | Some p =>
      txs ← lift (mapM tx_of_payload (bp_Transactions p));
      p ← lift (check_root p txs);
      modify (fun _ => Some p) ;;
      mret (NewAppBlock (bp_Height p) (bp_ParentHash p) (bp_TxRoot p) (bp_StateRootHint p) (bp_Proposer p)
              (bp_Timestamp p) txs)
  end.

(** What a caller that drops the payload sees. *)
Definition decode_block (p : AppBlockPayload) : result block_error AppBlock := (ToAppBlock (Some p)).1.

(** ** Copies *)

Lemma cloneBytes_id b : cloneBytes b = b.
Proof. unfold cloneBytes. by destruct b. Qed.

Lemma cloneEnvelope_id e : cloneEnvelope e = e.
Proof. unfold cloneEnvelope. rewrite !cloneBytes_id. by destruct e. Qed.

Lemma cloneCoCEntries_id l : cloneCoCEntries l = l.
Proof.
  unfold cloneCoCEntries. induction l as [|c l IH]; [done|]. rewrite fmap_cons, IH, !cloneBytes_id. by destruct c.
Qed.

Create HintDb block.
#[export] Hint Rewrite cloneBytes_id cloneEnvelope_id cloneCoCEntries_id : block.

Lemma tx_roundtrip tx : tx_of_payload (payload_of_tx tx) = Ok tx.
Proof.
  destruct tx as [t|t|t]; unfold tx_of_payload, payload_of_tx; cbn [pt_Type pt_Timestamp pt_Payload pt_Envelope pt_CoC];
    cbn [Type_ Timestamp Payload Envelope_]; autorewrite with block; by destruct t.
Qed.

Lemma txs_roundtrip txs : mapM tx_of_payload (payload_of_tx <$> txs) = Ok txs.
Proof.
  induction txs as [|tx txs IH]; [done|]. rewrite fmap_cons. cbn [mapM]. by rewrite tx_roundtrip, !bind_Ok, IH, bind_Ok.
Qed.

(** A block that carries the root of its transactions. *)
Definition rooted (b : AppBlock) : Prop :=
  txRoot b = computeTxRootForPayload (txs b) /\ txCount b = len (txs b) /\ hash b = computeHeaderHash b.

Lemma NewAppBlock_rooted h p hint v ts l : rooted (NewAppBlock h p (computeTxRootForPayload l) hint v ts l).
Proof. done. Qed.

Lemma check_root_rooted p txs p' :
  check_root p txs = Ok p' -> bp_TxRoot p' = computeTxRootForPayload txs /\ p' = with_root (bp_TxRoot p') p.
Proof.
  unfold check_root. intros H. go_inv H.
  - go_bool. split; [done|]. by destruct p'.
  - done.
Qed.

Lemma decode_block_eq p :
  decode_block p =
  (l ← mapM tx_of_payload (bp_Transactions p);
   p' ← check_root p l;
   Ok (NewAppBlock (bp_Height p') (bp_ParentHash p') (bp_TxRoot p') (bp_StateRootHint p') (bp_Proposer p')
         (bp_Timestamp p') l)).
Proof.
  unfold decode_block, ToAppBlock, gets, lift, modify, id. cbv [mbind ST_bind mret ST_ret result_bind].
  destruct (mapM tx_of_payload (bp_Transactions p)) as [l|e]; [|done].
  by destruct (check_root p l).
Qed.

Lemma decode_block_rooted p b : decode_block p = Ok b ->
  rooted b /\ mapM tx_of_payload (bp_Transactions p) = Ok (txs b) /\
  (bp_TxRoot p = txRoot b \/ (bp_TxRoot p = zero32 /\ txs b = [])) /\
  height b = bp_Height p /\ parentHash b = bp_ParentHash p /\ proposerID b = bp_Proposer p.
Proof.
  rewrite decode_block_eq. intros (l & Hl & (p' & Hc & [= <-])%bind_Ok_inv)%bind_Ok_inv.
  pose proof (check_root_rooted _ _ _ Hc) as [Hr Hp]. rewrite Hr, Hp. split; [apply NewAppBlock_rooted|].
  split; [done|]. split; [|done]. cbn. clear Hr Hp. unfold check_root in Hc. go_inv Hc.
  - go_bool. by left.
  - go_bool. right. split; [done|]. destruct l; [done|]. unfold len in *. cbn in *. lia.
Qed.

(** ** What a header hash binds *)

Record header_wf (b : AppBlock) : Prop := {
  wf_height : 0 <= height b < two64;
  wf_parent : length (parentHash b) = 32%nat;
  wf_root : length (txRoot b) = 32%nat;
  wf_hint : length (stateRootHint b) = 32%nat;
  wf_proposer : length (proposerID b) = 32%nat }.

Lemma Unix_range t : MinInt64 <= Unix t <= MaxInt64.
Proof. apply i64_range. Qed.

Lemma header_bytes_inj b b' : header_wf b -> header_wf b' -> header_bytes b = header_bytes b' ->
  height b = height b' /\ parentHash b = parentHash b' /\ txRoot b = txRoot b' /\
  stateRootHint b = stateRootHint b' /\ proposerID b = proposerID b' /\ Unix (timestamp b) = Unix (timestamp b').
Proof.
  intros [Hh Hp Hr Hs Hv] [Hh' Hp' Hr' Hs' Hv'] H. unfold header_bytes in H. do 2 apply app_inv_head in H.
  apply app_inj_len in H as [H1 H]; [|by rewrite !length_be_put].
  apply app_inj_len in H as [-> H]; [|congruence]. apply app_inj_len in H as [-> H]; [|congruence].
  apply app_inj_len in H as [-> H]; [|congruence]. apply app_inj_len in H as [-> H]; [|congruence].
  split_and!; try done; [by apply be_put_inj in H1|].
  apply be_put8_u64_inj in H; [done|apply Unix_range..].
Qed.

(** The pairs under a block's root. *)
Definition root_pairs (txs : list Transaction) : list KVPair :=
  (fun tx => (EnvContentHash (Envelope_ tx), [])) <$> txs.

Lemma computeTxRootForPayload_eq l : computeTxRootForPayload l = BuildRoot (root_pairs l).
Proof.
  unfold computeTxRootForPayload, root_pairs.
  assert (Hf : (fun tx => (cloneBytes (EnvContentHash (Envelope_ tx)), [] : bytes)) <$> l =
               (fun tx => (EnvContentHash (Envelope_ tx), [])) <$> l).
  { apply list_fmap_ext. intros i y _. by rewrite cloneBytes_id. }
  rewrite Hf. by destruct l.
Qed.

(** SHA-256 has failed on the headers or on the trees of the two blocks. *)
Definition block_forged (b b' : AppBlock) : Prop :=
  Collides (header_bytes b) (header_bytes b') \/ trees_forged (root_pairs (txs b)) (root_pairs (txs b')).

Definition contents (b : AppBlock) : list bytes := (fun tx => EnvContentHash (Envelope_ tx)) <$> txs b.

Lemma root_pairs_contents b : (root_pairs (txs b)).*1 = contents b.
Proof. unfold root_pairs, contents. rewrite <- list_fmap_compose. done. Qed.

(** ** Properties *)

(** C25. A block that carries the root of its transactions comes back from the wire as
    it was, and every block that comes from the wire carries its root and the hash
    of its header, so it survives being sent on. *)
Theorem block_roundtrip (b : AppBlock) (p : AppBlockPayload) :
  (rooted b -> ToPayload (Some b) ≫= decode_block = Ok b) /\
  (decode_block p = Ok b -> rooted b /\ ToPayload (Some b) ≫= decode_block = Ok b).
Proof.
  assert (Hr : rooted b -> ToPayload (Some b) ≫= decode_block = Ok b).
  { intros (H1 & H2 & H3). cbn [ToPayload]. rewrite bind_Ok, decode_block_eq. cbn [bp_Transactions].
    rewrite txs_roundtrip, bind_Ok. unfold check_root. cbn [bp_TxRoot].
    rewrite bool_decide_true by done. rewrite bind_Ok. unfold NewAppBlock, with_hash.
    cbn [bp_Height bp_ParentHash bp_TxRoot bp_StateRootHint bp_Proposer bp_Timestamp].
    destruct b as [ht pa tr sh pr ts h n l]. cbn [hash txCount txs] in *. subst n.
    exact (f_equal (fun x => Ok (MkAppBlock ht pa tr sh pr ts x (len l) l)) (eq_sym H3)). }
  split; [exact Hr|]. intros H. apply decode_block_rooted in H as [Hb _]. auto.
Qed.

(** Two blocks with the same hash have the same header and, in some order, the same
    content hashes, unless SHA-256 fails on what was hashed. *)
Theorem hash_binds_contents (b b' : AppBlock) (Hb : rooted b) (Hb' : rooted b') (Hw : header_wf b) (Hw' : header_wf b')
  (H : hash b = hash b') :
  block_forged b b' \/
  (height b = height b' /\ parentHash b = parentHash b' /\ stateRootHint b = stateRootHint b' /\
   proposerID b = proposerID b' /\ Unix (timestamp b) = Unix (timestamp b') /\ contents b ≡ₚ contents b').
Proof.
  destruct Hb as (Hr & _ & Hh), Hb' as (Hr' & _ & Hh'). rewrite Hh, Hh' in H.
  destruct (sha256_inj_or_collision _ _ H) as [He|Hc]; [|left; by left].
  apply header_bytes_inj in He as (? & ? & He & ? & ? & ?); [|done..].
  rewrite Hr, Hr', !computeTxRootForPayload_eq in He. apply BuildRoot_binding in He as [He|Hf]; [|left; by right].
  right. split_and!; try done. rewrite <- !root_pairs_contents. by rewrite He.
Qed.

(** ** Concrete blocks *)

Definition policy_tx (nonce : byte) (data : bytes) : Transaction :=
  APolicy (MkPolicyTx 1700000000 data
    (MkEnvelope (str "producer-1") (replicate 16 nonce) (ContentHash data) (str "ed25519")
       (replicate 32 x02) (replicate 64 x03))).
Definition open_policy : Transaction := policy_tx x01 (str "allow").
Definition shut_policy : Transaction := policy_tx x02 (str "block").

Definition demo_app_block (l : list Transaction) : AppBlock :=
  NewAppBlock 1 zero32 (computeTxRootForPayload l) zero32 (replicate 32 x09) (time_Unix 1700000001) l.

(** The same two policies, in either order. *)
Abbreviation shut_last := (demo_app_block [open_policy; shut_policy]).
Abbreviation open_last := (demo_app_block [shut_policy; open_policy]).

Definition policy_in_force (b : AppBlock) : result state_error bytes :=
  let '(store, r) := ApplyBlock NewMemStore (timestamp b) (30 * Second) (txs b) in
  match err r with
  | Some e => Err e
  | None => match PolicyLatest store (newVersion r) with Ok (_, data) => Ok data | Err e => Err e end
  end.

(** Two blocks with the same hash, both accepted from the wire, leave different
    policies in force: the root is taken over the sorted content hashes, so the hash
    that replicas agree on does not fix the order of the transactions. *)
Theorem one_hash_two_states :
  hash shut_last = hash open_last /\
  ToPayload (Some shut_last) ≫= decode_block = Ok shut_last /\
  ToPayload (Some open_last) ≫= decode_block = Ok open_last /\
  policy_in_force shut_last = Ok (str "block") /\ policy_in_force open_last = Ok (str "allow").
Proof. split_and!; vm_compute; reflexivity. Qed.

Lemma block_roundtrip_witness :
  ToPayload (Some shut_last) ≫= decode_block = Ok shut_last.
Proof.
  apply (proj1 (block_roundtrip shut_last (MkBlockPayload 0 [] [] [] [] zero_time []))).
  apply NewAppBlock_rooted.
Defined.

Lemma hash_binds_contents_witness :
  block_forged shut_last open_last \/
  (height shut_last = height open_last /\ parentHash shut_last = parentHash open_last /\
   stateRootHint shut_last = stateRootHint open_last /\ proposerID shut_last = proposerID open_last /\
   Unix (timestamp shut_last) = Unix (timestamp open_last) /\ contents shut_last ≡ₚ contents open_last).
Proof.
  apply (hash_binds_contents shut_last open_last); [apply NewAppBlock_rooted|apply NewAppBlock_rooted| | |].
  - constructor; vm_compute; [by split|reflexivity..].
  - constructor; vm_compute; [by split|reflexivity..].
  - vm_compute. reflexivity.
Defined.

(** A block without transactions from an older version, whose root was zero, gets
    the root of the empty list when it is decoded, and with it another header hash. *)
Example legacy_block_rehashed :
  let old := MkBlockPayload 1 zero32 zero32 zero32 (replicate 32 x09) (time_Unix 1700000001) [] in
  match decode_block old with
  | Ok b => bool_decide (hash b = hash (NewAppBlock 1 zero32 zero32 zero32 (replicate 32 x09) (time_Unix 1700000001) [])) = false
  | Err _ => False
  end.
Proof. vm_compute. reflexivity. Qed.
