(* ===== verification/Interfaces.v ===== *)
(** The contracts between the consensus components: the cache of
    golang-lru/expirable, consensus/types.CryptoService and
    messages.ValidatorSet, as classes of operations with classes of laws. *)
From S2P Require Import Prelude Bytes GoTime Messages.

(** ** Caches *)

(** [expirable.LRU]: a lookup may refresh the recency of an entry, an insertion
    may evict one and an entry may expire; the value found is one that was added. *)
Class LRU (K V : Type) := {
  lru : Type;
  lru_New : lru;
  lru_Get : Time -> lru -> K -> option V * lru;
  lru_Add : Time -> lru -> K -> V -> lru;
  lru_Purge : lru -> lru }.

Class LRULaws (K V : Type) `{LRU K V} := {
  lru_mem : lru -> K -> V -> Prop;
  lru_New_mem k v : ~ lru_mem lru_New k v;
  lru_Get_mem now c k v : (lru_Get now c k).1 = Some v -> lru_mem c k v;
  lru_Get_sub now c k k' v' : lru_mem (lru_Get now c k).2 k' v' -> lru_mem c k' v';
  lru_Add_mem now c k v k' v' :
    lru_mem (lru_Add now c k v) k' v' -> (k' = k /\ v' = v) \/ lru_mem c k' v';
  lru_Purge_mem c k v : ~ lru_mem (lru_Purge c) k v }.

(** A cache large and fresh enough to keep everything. *)
#[export] Instance map_LRU : LRU bytes bool := {
  lru := gmap bytes bool;
  lru_New := ∅;
  lru_Get _ c k := (c !! k, c);
  lru_Add _ c k v := <[k := v]> c;
  lru_Purge _ := ∅ }.

#[export, refine] Instance map_LRULaws : LRULaws bytes bool := {
  lru_mem c k v := (c : gmap bytes bool) !! k = Some v }.
Proof.
  - intros k v. cbn. by rewrite lookup_empty.
  - done.
  - done.
  - intros now c k v k' v'. cbn. rewrite lookup_insert_Some. naive_solver.
  - intros c k v. cbn. by rewrite lookup_empty.
Defined.

(** ** Signatures *)

(** [types.CryptoService]: verification may consult and update a replay cache. *)
Class CryptoService := {
  crypto : Type;
  GetPublicKey : crypto -> ValidatorID -> option bytes;
  VerifyWithContext : Time -> crypto -> bytes -> bytes -> bytes -> bool -> bool * crypto }.

(** Unforgeability: what verifies under a validator's key is something the
    holder of that key signed. The registry of keys does not change. *)
Class CryptoLaws `{CryptoService} := {
  crypto_ok : crypto -> Prop;
  key_of : ValidatorID -> bytes -> Prop;
  signed : ValidatorID -> bytes -> Prop;
  GetPublicKey_key c id pk : crypto_ok c -> GetPublicKey c id = Some pk -> key_of id pk;
  Verify_signed now c id pk data sig old :
    crypto_ok c -> key_of id pk ->
    (VerifyWithContext now c data sig pk old).1 = true -> signed id data;
  Verify_ok now c data sig pk old :
    crypto_ok c -> crypto_ok (VerifyWithContext now c data sig pk old).2 }.

(** A service that accepts exactly the signatures of a table of key holders and
    the bytes they signed. *)
Definition table_crypto (tbl : list (bytes * bytes)) : CryptoService := {|
  crypto := unit;
  GetPublicKey _ id := Some id;
  VerifyWithContext _ c data sig pk _ :=
    (bool_decide ((pk, data) ∈ tbl) && bool_decide (sig = [x01]), c) |}.

Definition table_laws (tbl : list (bytes * bytes)) : @CryptoLaws (table_crypto tbl).
Proof.
  refine {| crypto_ok := fun _ => True; key_of := fun id pk => pk = id;
            signed := fun id data => (id, data) ∈ tbl |}.
  - by intros _ id pk _ [= <-].
  - intros now c id pk data sig old _ -> H. cbn in H. go_bool. done.
  - done.
Defined.

(** ** Validators *)

(** [messages.ValidatorSet] as one handler sees it. *)
Class ValidatorSet := {
  IsValidator : ValidatorID -> bool;
  GetValidatorCount : Z;
  IsActiveInView : ValidatorID -> Z -> bool;
  GetLeaderForView : Z -> option ValidatorID }.

(** The count is the number of distinct validators. *)
Class ValidatorSetLaws `{ValidatorSet} := {
  members : list ValidatorID;
  members_NoDup : NoDup members;
  IsValidator_spec id : IsValidator id = true <-> id ∈ members;
  GetValidatorCount_spec : GetValidatorCount = len members }.

(** A fixed list of validators, all active, led in turn. *)
Definition list_validators (ids : list ValidatorID) : ValidatorSet := {|
  IsValidator id := bool_decide (id ∈ ids);
  GetValidatorCount := len ids;
  IsActiveInView id _ := bool_decide (id ∈ ids);
  GetLeaderForView view := ids !! Z.to_nat (view mod len ids) |}.

Definition list_validators_laws (ids : list ValidatorID) (H : NoDup ids) :
  @ValidatorSetLaws (list_validators ids).
Proof.
  refine {| members := ids |}.
  - exact H.
  - intros id. apply bool_decide_eq_true.
  - done.
Defined.
