(* ===== verification/GoFloat.v ===== *)
(** Go's [float64]: the binary64 numbers of the standard specification, with the
    comparisons, conversions and operations the modelled code uses. *)
From S2P Require Import Prelude Bytes GoTime.
From Stdlib Require Export SpecFloat.

Definition float64 : Type := spec_float.

Definition f_eqb (a b : float64) : bool := SFeqb a b.
Definition f_ltb (a b : float64) : bool := SFltb a b.
Definition f_leb (a b : float64) : bool := SFleb a b.
(** [float64(n)] of an integer, rounded to nearest even. *)
Definition f_of_Z (n : Z) : float64 := binary_normalize 53 1024 n 0 false.
Definition f_add (a b : float64) : float64 := SFadd 53 1024 a b.
Definition f_sub (a b : float64) : float64 := SFsub 53 1024 a b.
Definition f_mul (a b : float64) : float64 := SFmul 53 1024 a b.
Definition f_div (a b : float64) : float64 := SFdiv 53 1024 a b.

(** [int64(f)]: truncated; a value out of range converts to the minimum, as on
    amd64 (the language leaves it to the implementation). *)
Definition f_to_int64 (a : float64) : Z :=
  let v := match a with
           | S754_zero _ => 0
           | S754_finite s m e =>
               let n := if 0 <=? e then Z.pos m * 2 ^ e else Z.pos m / 2 ^ (- e) in if s then - n else n
           | _ => MinInt64 - 1
           end in
  if (MinInt64 <=? v) && (v <=? MaxInt64) then v else MinInt64.

(** [time.Duration.Seconds]. *)
Definition Seconds (d : Z) : float64 :=
  f_add (f_of_Z (Z.quot d Second)) (f_div (f_of_Z (Z.rem d Second)) (f_of_Z 1000000000)).

Definition is_nan (a : float64) : bool := match a with S754_nan => true | _ => false end.

(** ** Lexicographic order of integer tuples *)

Fixpoint lex_ltb (a b : list Z) : bool :=
  match a, b with
  | [], [] => false
  | [], _ :: _ => true
  | _ :: _, [] => false
  | x :: a', y :: b' => if x =? y then lex_ltb a' b' else x <? y
  end.

Lemma lex_ltb_app_l k a b : lex_ltb (k ++ a) (k ++ b) = lex_ltb a b.
Proof. induction k as [|x k IH]; cbn; [done|]. by rewrite Z.eqb_refl. Qed.

Lemma lex_ltb_irrefl a : lex_ltb a a = false.
Proof. induction a as [|x a IH]; cbn; [done|]. by rewrite Z.eqb_refl. Qed.

Lemma lex_ltb_trans a b c : lex_ltb a b = true -> lex_ltb b c = true -> lex_ltb a c = true.
Proof.
  revert b c. induction a as [|x a IH]; intros [|y b] [|z c]; cbn; try done.
  destruct (Z.eqb_spec x y), (Z.eqb_spec y z), (Z.eqb_spec x z); rewrite ?Z.ltb_lt; try lia. by apply IH.
Qed.

Lemma lex_ltb_total a b : lex_ltb a b = false -> lex_ltb b a = false -> a = b.
Proof.
  revert b. induction a as [|x a IH]; intros [|y b]; cbn; try done.
  destruct (Z.eqb_spec x y) as [->|Hxy].
  - rewrite Z.eqb_refl. intros H1 H2. by rewrite (IH b).
  - destruct (Z.eqb_spec y x) as [->|_]; [done|]. rewrite !Z.ltb_ge. lia.
Qed.

Lemma lex_ltb_asym a b : lex_ltb a b = true -> lex_ltb b a = false.
Proof.
  intros H. destruct (lex_ltb b a) eqn:H'; [|done].
  by rewrite <- (lex_ltb_irrefl a), (lex_ltb_trans a b a).
Qed.

(** "Not after" is transitive. *)
Lemma lex_geb_trans a b c : lex_ltb b a = false -> lex_ltb c b = false -> lex_ltb c a = false.
Proof.
  intros H1 H2. destruct (lex_ltb c a) eqn:H; [|done].
  destruct (lex_ltb a b) eqn:Hab.
  - by rewrite (lex_ltb_trans c a b) in H2.
  - rewrite (lex_ltb_total a b Hab H1) in H. congruence.
Qed.

#[export] Instance byte_val_Inj : Inj (=) (=) byte_val.
Proof. intros a b. apply byte_val_inj. Qed.

(** The lexicographic order of bytes is the one of their values. *)
Lemma bytes_ltb_lex a b : bytes_ltb a b = lex_ltb (byte_val <$> a) (byte_val <$> b).
Proof.
  unfold bytes_ltb. revert b. induction a as [|x a IH]; intros [|y b]; cbn; try done.
  destruct (Z.compare_spec (byte_val x) (byte_val y)) as [H|H|H].
  - by rewrite H, Z.eqb_refl, IH.
  - rewrite (proj2 (Z.eqb_neq _ _)) by lia. symmetry. by apply Z.ltb_lt.
  - rewrite (proj2 (Z.eqb_neq _ _)) by lia. symmetry. apply Z.ltb_ge. lia.
Qed.

(** ** The order of numbers *)

(** Three integers that order the numbers lexicographically. *)
Definition f_key (a : float64) : list Z :=
  match a with
  | S754_infinity true => [0; 0; 0]
  | S754_finite true m e => [1; - e; - Z.pos m]
  | S754_zero _ | S754_nan => [2; 0; 0]
  | S754_finite false m e => [3; e; Z.pos m]
  | S754_infinity false => [4; 0; 0]
  end.

Lemma compare_f_key a b : is_nan a = false -> is_nan b = false ->
  SFcompare a b = Some (if lex_ltb (f_key a) (f_key b) then Lt else if lex_ltb (f_key b) (f_key a) then Gt else Eq).
Proof.
  destruct a as [?|[]| |[] m e], b as [?|[]| |[] m' e']; try done; intros _ _; cbn -[Z.eqb Z.ltb Pos.compare_cont];
    try rewrite (Z.eqb_refl 1); try rewrite (Z.eqb_refl 3); try done; fold (Pos.compare m m');
    destruct (Z.compare_spec e e') as [->|H|H];
    repeat match goal with
    | |- context [?x =? ?y] => destruct (Z.eqb_spec x y); try lia
    | |- context [?x <? ?y] => destruct (Z.ltb_spec x y); try lia
    end; try done; destruct (Pos.compare_spec m m') as [->|Hm|Hm]; try done; try lia.
Qed.

Lemma f_ltb_key a b : is_nan a = false -> is_nan b = false -> f_ltb a b = lex_ltb (f_key a) (f_key b).
Proof.
  intros Ha Hb. unfold f_ltb, SFltb. rewrite compare_f_key by done.
  destruct (lex_ltb (f_key a) (f_key b)), (lex_ltb (f_key b) (f_key a)); done.
Qed.

Lemma f_eqb_key a b : is_nan a = false -> is_nan b = false -> f_eqb a b = true <-> f_key a = f_key b.
Proof.
  intros Ha Hb. unfold f_eqb, SFeqb. rewrite compare_f_key by done.
  destruct (lex_ltb (f_key a) (f_key b)) eqn:H1; [split; [done|]|].
  - intros H. by rewrite H, lex_ltb_irrefl in H1.
  - destruct (lex_ltb (f_key b) (f_key a)) eqn:H2; (split; [|]); try done.
    + intros H. by rewrite H, lex_ltb_irrefl in H2.
    + intros _. by apply lex_ltb_total.
Qed.
