(* ===== verification/Crypto.v ===== *)
(** backend/pkg/utils/crypto.go and the adapter of backend/pkg/consensus/api/util_adapters.go:
    versioned keys, signatures with a replay cache, encryption, and their use as the
    [CryptoService] of the consensus. *)
From S2P Require Import Prelude Bytes Sha256 GoTime GoFloat Messages Interfaces.

(** ** The primitives *)

(** [crypto/ed25519]: the key of a seed, its public part, signing and verification. *)
Class Ed25519 := {
  ed_key : bytes -> bytes;
  ed_public : bytes -> bytes;
  ed_sign : bytes -> bytes -> bytes;
  ed_verify : bytes -> bytes -> bytes -> bool }.

(** What the documentation promises, and that what verifies was signed. *)
Class Ed25519Laws `{Ed25519} := {
  ed_signed : bytes -> bytes -> Prop;
  ed_verify_sign seed m : ed_verify (ed_public (ed_key seed)) m (ed_sign (ed_key seed) m) = true;
  ed_sign_length k m : length (ed_sign k m) = 64%nat;
  ed_public_length seed : length (ed_public (ed_key seed)) = 32%nat;
  ed_unforgeable pk m s : ed_verify pk m s = true -> ed_signed pk m }.

(** AES-256 in Galois counter mode, [crypto/aes] and [crypto/cipher]: [Seal] and [Open]. *)
Class AEAD := {
  gcm_seal : bytes -> bytes -> bytes -> bytes;
  gcm_open : bytes -> bytes -> bytes -> option bytes }.

Class AEADLaws `{AEAD} := {
  gcm_open_seal k n p : gcm_open k n (gcm_seal k n p) = Some p;
  gcm_seal_length k n p : length (gcm_seal k n p) = (length p + 16)%nat }.

(** ** HMAC *)

Definition hmac_block : nat := 64.
Definition hmac_pad (b : Z) (key : bytes) : bytes :=
  (fun x => byte_of (Z.lxor (byte_val x) b)) <$> (key ++ replicate (hmac_block - length key) x00).

(** [hmac.New(sha256.New, key)] fed with [data]. *)
Definition ComputeHMAC (key data : bytes) : bytes :=
  let key := if (hmac_block <? length key)%nat then sha256 key else key in
  sha256 (hmac_pad 92 key ++ sha256 (hmac_pad 54 key ++ data)).

Definition ValidateHMAC (key data mac : bytes) : bool := bool_decide (mac = ComputeHMAC key data).

Definition ConstantTimeCompare (a b : bytes) : bool := bool_decide (a = b).

(** The second test case of RFC 4231. *)
Example hmac_jefe :
  hex (ComputeHMAC (str "Jefe") (str "what do ya want for nothing?")) =
  str "5bdcc146bf60754e6a042426089575c75a003f089d2739839dec58b964ec3843".
Proof. vm_compute. reflexivity. Qed.

(** ** Entropy *)

Definition freq (data : bytes) (b : byte) : Z := len (filter (fun x => x = b) data).

(** The test statistic, summed in the order of the byte values. *)
Definition chi_square (data : bytes) : float64 :=
  let expected := f_div (f_of_Z (len data)) (f_of_Z 256) in
  foldl (fun acc i =>
      let diff := f_sub (f_of_Z (freq data (byte_of (Z.of_nat i)))) expected in
      f_add acc (f_div (f_mul diff diff) expected))
    (f_of_Z 0) (seq 0 256).

Definition isEntropyGood (data : bytes) : bool := f_ltb (chi_square data) (f_div (f_of_Z 1173) (f_of_Z 4)).

Definition EntropyTestRounds : nat := 3.
Definition MinEntropyBytes : nat := 32.

Inductive crypto_error :=
| ErrDataTooLarge | ErrContextCanceled | ErrKeyNotFound | ErrKeyExpired | ErrCryptoInvalidSignature | ErrTooOld | ErrInFuture
| ErrInvalidNonce | ErrReplayDetected | ErrInvalidKeySize | ErrInvalidCiphertext | ErrDecryptionFailed | ErrInsufficientEntropy
| ErrRandom | ErrLoader.
#[export] Instance crypto_error_eq_dec : EqDecision crypto_error.
Proof. solve_decision. Defined.

(** The rounds over what the random source yields, [None] a failed read. *)
Fixpoint ValidateEntropy (rounds : nat) (samples : nat -> option bytes) : result crypto_error unit :=
  match rounds with
  | O => Ok tt
  | S n =>
      match samples n with
      | None => Err ErrRandom
      | Some test => if isEntropyGood test then ValidateEntropy n samples else Err ErrInsufficientEntropy
      end
  end.

(** ** Keys *)

Record KeyVersion := MkKeyVersion {
  kv_Version : Z; SigningKey : bytes; kv_PublicKey : bytes; EncryptionKey : bytes; CreatedAt : Time; ExpiresAt : Time;
  kv_Active : bool; kv_KeyID : bytes }.

(** Keys are shared by pointer between [activeKey] and [keyHistory]: [ks_keys] holds the
    keys, and a pointer is the number of an entry of it. *)
Record KeyStore := MkKeyStore {
  ks_keys : gmap nat KeyVersion; activeKey : option nat; keyHistory : gmap Z nat; nextVersion : Z; maxHistory : Z }.

Definition MaxKeyHistorySize : Z := 10.
Definition NewKeyStore (max : Z) : KeyStore := MkKeyStore ∅ None ∅ 1 (if max <=? 0 then MaxKeyHistorySize else max).

Definition u32 (z : Z) : Z := z mod 2 ^ 32.

Definition set_active_flag (b : bool) (k : KeyVersion) : KeyVersion :=
  MkKeyVersion (kv_Version k) (SigningKey k) (kv_PublicKey k) (EncryptionKey k) (CreatedAt k) (ExpiresAt k) b (kv_KeyID k).
Definition set_version (v : Z) (k : KeyVersion) : KeyVersion :=
  MkKeyVersion v (SigningKey k) (kv_PublicKey k) (EncryptionKey k) (CreatedAt k) (ExpiresAt k) (kv_Active k) (kv_KeyID k).
Definition zeroKey (key : bytes) : bytes := replicate (length key) x00.
Definition zeroed (k : KeyVersion) : KeyVersion :=
  MkKeyVersion (kv_Version k) (zeroKey (SigningKey k)) (kv_PublicKey k) (zeroKey (EncryptionKey k)) (CreatedAt k) (ExpiresAt k) (kv_Active k) (kv_KeyID k).

Definition with_keys (m : gmap nat KeyVersion) (ks : KeyStore) : KeyStore :=
  MkKeyStore m (activeKey ks) (keyHistory ks) (nextVersion ks) (maxHistory ks).
Definition with_history (h : gmap Z nat) (ks : KeyStore) : KeyStore :=
  MkKeyStore (ks_keys ks) (activeKey ks) h (nextVersion ks) (maxHistory ks).
Definition with_active (p : option nat) (ks : KeyStore) : KeyStore :=
  MkKeyStore (ks_keys ks) p (keyHistory ks) (nextVersion ks) (maxHistory ks).
Definition with_next (n : Z) (ks : KeyStore) : KeyStore :=
  MkKeyStore (ks_keys ks) (activeKey ks) (keyHistory ks) n (maxHistory ks).

(** One key of the history is wiped and dropped. *)
Definition drop_key (ks : KeyStore) (version : Z) : KeyStore :=
  match keyHistory ks !! version with
  | None => ks
  | Some p => with_history (delete version (keyHistory ks)) (with_keys (alter zeroed p (ks_keys ks)) ks)
  end.

(** The keys that may go, oldest first; the iteration of the map decides among keys of
    one time. *)
Definition prunable (range : visit_order Z nat) (ks : KeyStore) : list (Z * Time) :=
  let versions := omap (fun vp : Z * nat =>
      match ks_keys ks !! vp.2 with
      | Some k => if kv_Active k then None else Some (vp.1, CreatedAt k)
      | None => None
      end) (range (keyHistory ks)) in
  stable_sort (fun a b => Before a.2 b.2) versions.

Definition pruneOldKeysLocked (range : visit_order Z nat) (ks : KeyStore) : KeyStore :=
  let held := Z.of_nat (size (keyHistory ks)) in
  if held <=? maxHistory ks then ks
  else foldl drop_key ks (take (Z.to_nat (held - maxHistory ks)) (prunable range ks)).*1.

Definition AddKey (range : visit_order Z nat) (key : KeyVersion) (ks : KeyStore) : KeyStore :=
  let p := size (ks_keys ks) in
  let numbered := kv_Version key =? 0 in
  let key := if numbered then set_version (nextVersion ks) key else key in
  let ks := if numbered then with_next (u32 (nextVersion ks + 1)) ks else ks in
  let takes := bool_decide (activeKey ks = None) || kv_Active key in
  let key := if takes then set_active_flag true key else key in
  let ks := with_history (<[kv_Version key := p]> (keyHistory ks)) (with_keys (<[p := key]> (ks_keys ks)) ks) in
  pruneOldKeysLocked range (if takes then with_active (Some p) ks else ks).

Definition GetActiveKey (now : Time) (ks : KeyStore) : result crypto_error KeyVersion :=
  match activeKey ks ≫= fun p => ks_keys ks !! p with
  | None => Err ErrKeyNotFound
  | Some k => if After now (ExpiresAt k) then Err ErrKeyExpired else Ok k
  end.

Definition GetKeyByVersion (version : Z) (ks : KeyStore) : result crypto_error KeyVersion :=
  match keyHistory ks !! version ≫= fun p => ks_keys ks !! p with
  | None => Err ErrKeyNotFound
  | Some k => Ok k
  end.

Definition DeriveAuditKey (now : Time) (ks : KeyStore) : result crypto_error bytes :=
  key ← GetActiveKey now ks; mret (sha256 (EncryptionKey key ++ str "audit-hmac")).

(** What [GenerateKey] draws: the samples of the entropy test, the seed and the
    encryption key, each read possibly failing; and the time. *)
Record key_draw := MkDraw { samples : nat -> option bytes; seed : option bytes; enc_draw : option bytes; drawn_at : Time }.

Definition ZeroAllKeys (ks : KeyStore) : KeyStore :=
  let pointers := (map_to_list (keyHistory ks)).*2 in
  with_active None (with_history ∅ (with_keys (foldl (fun m p => alter zeroed p m) (ks_keys ks) pointers) ks)).

(** ** The service *)

Record CryptoConfig := MkCryptoConfig {
  KeyTTL : Z; MaxKeyHistory : Z; EnableReplayProtection : bool; ReplayWindowSize : Z; MaxSignatureAge : Z;
  entropy_checked : bool; KeyLoader : option (result crypto_error KeyVersion) }.

Record replayEntry := MkReplayEntry { re_timestamp : Time; re_hash : bytes }.

Record Service := MkService {
  cs_config : CryptoConfig; keyStore : KeyStore; replayCache : gmap bytes replayEntry;
  signCount : Z; verifyCount : Z; encryptCount : Z; decryptCount : Z; rotateCount : Z }.

Definition with_store (ks : KeyStore) (s : Service) : Service :=
  MkService (cs_config s) ks (replayCache s) (signCount s) (verifyCount s) (encryptCount s) (decryptCount s) (rotateCount s).
Definition with_cache (m : gmap bytes replayEntry) (s : Service) : Service :=
  MkService (cs_config s) (keyStore s) m (signCount s) (verifyCount s) (encryptCount s) (decryptCount s) (rotateCount s).
Definition count (sg vf en de ro : Z) (s : Service) : Service :=
  MkService (cs_config s) (keyStore s) (replayCache s) (signCount s + sg) (verifyCount s + vf) (encryptCount s + en)
    (decryptCount s + de) (rotateCount s + ro).

Definition CM (A : Type) : Type := ST Service crypto_error A.

Definition MaxDataSize : Z := Z.shiftl 10 20.

(** *** The replay cache *)

Definition Check_ (nonce hash : bytes) (m : gmap bytes replayEntry) : result crypto_error unit :=
  match m !! nonce with
  | None => Ok tt
  | Some entry => if bool_decide (re_hash entry = hash) then Ok tt else Err ErrReplayDetected
  end.

Definition cleanupLocked (now : Time) (m : gmap bytes replayEntry) : gmap bytes replayEntry :=
  let cutoff := GoTime.Add now (- (5 * Minute)) in
  filter (fun kv => Before (re_timestamp kv.2) cutoff = false) m.

Definition Add_ (maxSize : Z) (now : Time) (nonce hash : bytes) (m : gmap bytes replayEntry) : gmap bytes replayEntry :=
  let m := <[nonce := MkReplayEntry now hash]> m in
  if maxSize <? Z.of_nat (size m) then cleanupLocked now m else m.

Definition Cleanup (now : Time) (s : Service) : Service := with_cache (cleanupLocked now (replayCache s)) s.

(** *** Reading a signature *)

(** [io.ReadFull] of [n] bytes. *)
Definition read_n (n : nat) (bs : bytes) : option (bytes * bytes) :=
  if (length bs <? n)%nat then None else Some (take n bs, drop n bs).

(** What precedes the data in what is signed. *)
Definition signed_prefix (version timestamp : Z) (nonce : bytes) : bytes := be_put 4 version ++ be_put 8 (u64 timestamp) ++ nonce.

(** The key to verify with: the one given, else the stored one of that version. *)
Definition verify_key (pubKey : bytes) (version : Z) (ks : KeyStore) : result crypto_error bytes :=
  if bool_decide (pubKey = []) then key ← GetKeyByVersion version ks; mret (kv_PublicKey key)
  else if len pubKey =? 32 then Ok pubKey else Err ErrInvalidKeySize.

Section primitives.
Context {ED : Ed25519} {AE : AEAD}.

(** *** Keys of the service *)

Definition generateKeyID (pubKey : bytes) : bytes := hex (take 8 (sha256 pubKey)).

Definition GenerateKey (checked : bool) (version ttl : Z) (d : key_draw) : result crypto_error KeyVersion :=
  (if checked then ValidateEntropy EntropyTestRounds (samples d) else Ok tt) ;;
  match seed d, enc_draw d with
  | Some sd, Some enc =>
      Ok (MkKeyVersion version (ed_key sd) (ed_public (ed_key sd)) enc (drawn_at d) (GoTime.Add (drawn_at d) ttl) false
            (generateKeyID (ed_public (ed_key sd))))
  | _, _ => Err ErrRandom
  end.

Definition RotateKey (range : visit_order Z nat) (checked : bool) (ttl : Z) (d : key_draw) (ks : KeyStore) : result crypto_error KeyStore :=
  newKey ← GenerateKey checked (nextVersion ks) ttl d;
  let ks := match activeKey ks with Some p => with_keys (alter (set_active_flag false) p (ks_keys ks)) ks | None => ks end in
  let p := size (ks_keys ks) in
  let ks := with_keys (<[p := set_active_flag true newKey]> (ks_keys ks)) ks in
  let ks := with_history (<[kv_Version newKey := p]> (keyHistory ks)) ks in
  let ks := with_next (u32 (nextVersion ks + 1)) (with_active (Some p) ks) in
  mret (pruneOldKeysLocked range ks).

(** [check] is what the entropy validator is given before any key exists. *)
Definition NewCryptoService (range : visit_order Z nat) (c : CryptoConfig) (check : nat -> option bytes) (d : key_draw)
  : result crypto_error Service :=
  (if entropy_checked c then ValidateEntropy EntropyTestRounds check else Ok tt) ;;
  let cs := MkService c (NewKeyStore (MaxKeyHistory c)) ∅ 0 0 0 0 0 in
  match KeyLoader c with
  | Some (Ok key) => mret (with_store (AddKey range key (keyStore cs)) cs)
  | Some (Err _) => Err ErrLoader
  | None => ks ← RotateKey range (entropy_checked c) (KeyTTL c) d (keyStore cs); mret (with_store ks cs)
  end.

Definition RotateKeys (range : visit_order Z nat) (canceled : bool) (d : key_draw) : CM unit := fun s =>
  if canceled then (Err ErrContextCanceled, s)
  else
    match RotateKey range (entropy_checked (cs_config s)) (KeyTTL (cs_config s)) d (keyStore s) with
    | Err e => (Err e, s)
    | Ok ks => (Ok tt, count 0 0 0 0 1 (with_store ks s))
    end.

(** *** Signing and verifying *)

Definition SignWithContext (canceled : bool) (now : Time) (nonce_draw : option bytes) (data : bytes) : CM bytes :=
  fail_if (MaxDataSize <? len data) ErrDataTooLarge ;;
  fail_if canceled ErrContextCanceled ;;
  ks ← gets keyStore;
  key ← lift (GetActiveKey now ks);
  c ← gets cs_config;
  nonce ← lift (if EnableReplayProtection c then match nonce_draw with Some n => Ok n | None => Err ErrRandom end else Ok []);
  let prefix := signed_prefix (kv_Version key) (Unix now) nonce in
  let signature := ed_sign (SigningKey key) (prefix ++ data) in
  modify (count 1 0 0 0 0) ;;
  mret (prefix ++ signature).

Definition VerifyWithContext_ (canceled : bool) (now : Time) (data signedData pubKey : bytes) (allowOldTimestamps : bool) : CM unit :=
  fail_if (MaxDataSize <? len data) ErrDataTooLarge ;;
  fail_if canceled ErrContextCanceled ;;
  c ← gets cs_config;
  v ← lift (match read_n 4 signedData with Some r => Ok r | None => Err ErrCryptoInvalidSignature end);
  let '(version, rest) := (v : bytes * bytes) in
  t ← lift (match read_n 8 rest with Some r => Ok r | None => Err ErrCryptoInvalidSignature end);
  let '(stamp, rest) := (t : bytes * bytes) in
  let timestamp := i64 (be_get stamp) in
  let signTime := time_Unix timestamp in
  let timed := EnableReplayProtection c && negb allowOldTimestamps in
  fail_if (timed && (MaxSignatureAge c <? Sub now signTime)) ErrTooOld ;;
  fail_if (timed && (Minute <? Sub signTime now)) ErrInFuture ;;
  n ← lift (if EnableReplayProtection c then match read_n 16 rest with Some r => Ok r | None => Err ErrInvalidNonce end else Ok ([], rest));
  let '(nonce, rest) := (n : bytes * bytes) in
  s ← lift (match read_n 64 rest with Some r => Ok r | None => Err ErrCryptoInvalidSignature end);
  let signature := (s : bytes * bytes).1 in
  let payload := signed_prefix (be_get version) timestamp nonce ++ data in
  let payloadHash := sha256 payload in
  cache ← gets replayCache;
  (if EnableReplayProtection c then lift (Check_ nonce payloadHash cache) else mret tt) ;;
  ks ← gets keyStore;
  verifyKey ← lift (verify_key pubKey (be_get version) ks);
  modify (count 0 1 0 0 0) ;;
  fail_if (negb (ed_verify verifyKey payload signature)) ErrCryptoInvalidSignature ;;
  modify (fun s => if EnableReplayProtection c then with_cache (Add_ (ReplayWindowSize c) now nonce payloadHash (replayCache s)) s else s).

Definition Sign_ (now : Time) (nonce_draw : option bytes) (data : bytes) : CM bytes := SignWithContext false now nonce_draw data.
Definition Verify_ (now : Time) (data signature : bytes) (s : Service) : bool * Service :=
  let '(r, s) := VerifyWithContext_ false now data signature [] false s in (is_ok r, s).

(** *** Encryption *)

Definition EncryptWithContext (canceled : bool) (now : Time) (nonce_draw : option bytes) (plaintext : bytes) : CM bytes :=
  fail_if (MaxDataSize <? len plaintext) ErrDataTooLarge ;;
  fail_if canceled ErrContextCanceled ;;
  ks ← gets keyStore;
  key ← lift (GetActiveKey now ks);
  fail_if (negb (len (EncryptionKey key) =? 32)) ErrInvalidKeySize ;;
  nonce ← lift (match nonce_draw with Some n => Ok n | None => Err ErrRandom end);
  modify (count 0 0 1 0 0) ;;
  mret (be_put 4 (kv_Version key) ++ nonce ++ gcm_seal (EncryptionKey key) nonce plaintext).

Definition DecryptWithContext (canceled : bool) (ciphertext : bytes) : CM bytes :=
  fail_if (len ciphertext <? 32) ErrInvalidCiphertext ;;
  fail_if canceled ErrContextCanceled ;;
  ks ← gets keyStore;
  key ← lift (GetKeyByVersion (be_get (take 4 ciphertext)) ks);
  fail_if (negb (len (EncryptionKey key) =? 32)) ErrInvalidKeySize ;;
  let nonce := take 12 (drop 4 ciphertext) in
  let encrypted := drop 16 ciphertext in
  modify (count 0 0 0 1 0) ;;
  match gcm_open (EncryptionKey key) nonce encrypted with
  | None => throw ErrDecryptionFailed
  | Some plaintext => mret plaintext
  end.

Definition GetPublicKey_ (now : Time) (s : Service) : result crypto_error bytes :=
  key ← GetActiveKey now (keyStore s); mret (kv_PublicKey key).
Definition GetKeyVersion (now : Time) (s : Service) : result crypto_error Z :=
  key ← GetActiveKey now (keyStore s); mret (kv_Version key).
Definition HealthCheck (now : Time) (s : Service) : result crypto_error unit :=
  GetActiveKey now (keyStore s) ;; mret tt.
Definition Shutdown (s : Service) : Service := with_store (ZeroAllKeys (keyStore s)) s.

(** ** The adapter *)

Record cryptoAdapter := MkAdapter { ca_service : Service; registry : gmap ValidatorID bytes }.

(** [NewCryptoAdapter] over the validators' identifiers and keys. *)
Definition NewCryptoAdapter (s : Service) (validators : list (ValidatorID * bytes)) : cryptoAdapter :=
  MkAdapter s (foldl (fun reg v => if len v.2 =? 0 then reg else <[v.1 := v.2]> reg) ∅ validators).

Definition GetKeyID (now : Time) (a : cryptoAdapter) : ValidatorID :=
  match GetPublicKey_ now (ca_service a) with Ok pub => sha256 pub | Err _ => zero32 end.

Definition adapter_GetPublicKey (now : Time) (keyID : ValidatorID) (a : cryptoAdapter) : result crypto_error bytes :=
  match registry a !! keyID with
  | Some pub => Ok pub
  | None =>
      localPub ← GetPublicKey_ now (ca_service a);
      if bool_decide (sha256 localPub = keyID) then Ok localPub else Err ErrKeyNotFound
  end.

Definition adapter_Verify (now : Time) (data signature publicKey : bytes) (allowOldTimestamps : bool) (a : cryptoAdapter)
  : result crypto_error unit * cryptoAdapter :=
  let '(r, s) := VerifyWithContext_ false now data signature publicKey allowOldTimestamps (ca_service a) in
  (r, MkAdapter s (registry a)).

End primitives.

(** ** What a signature consists of *)

Lemma byte_of_mod z z' : z mod 256 = z' mod 256 -> byte_of z = byte_of z'.
Proof. intros H. apply byte_val_inj. by rewrite !byte_val_of. Qed.

Lemma be_put_mod n z z' : z mod 256 ^ Z.of_nat n = z' mod 256 ^ Z.of_nat n -> be_put n z = be_put n z'.
Proof.
  revert z z'. induction n as [|n IH]; intros z z' H; [done|]. rewrite Nat2Z.inj_succ, Z.pow_succ_r in H by lia.
  set (P := 256 ^ Z.of_nat n) in *. assert (0 < P) by (apply Z.pow_pos_nonneg; lia).
  rewrite Z.mul_comm, !Z.rem_mul_r in H by lia.
  pose proof (Z.mod_pos_bound z P). pose proof (Z.mod_pos_bound z' P).
  assert (z mod P = z' mod P /\ (z / P) mod 256 = (z' / P) mod 256) as [E1 E2].
  { destruct (Z.div_mod_unique P ((z / P) mod 256) ((z' / P) mod 256) (z mod P) (z' mod P)); [left; lia|left; lia|lia|done]. }
  cbn [be_put]. fold P. f_equal; [by apply byte_of_mod|by apply IH].
Qed.

Lemma be_put_get bs : be_put (length bs) (be_get bs) = bs.
Proof.
  induction bs as [|b bs IH]; [done|]. cbn [length be_put be_get]. pose proof (be_get_range bs). pose proof (byte_val_range b).
  assert (0 < 256 ^ Z.of_nat (length bs)) by (apply Z.pow_pos_nonneg; lia). f_equal.
  - rewrite Z.div_add_l, Z.div_small, Z.add_0_r by lia. apply byte_of_val.
  - etrans; [|exact IH]. apply be_put_mod. by rewrite Z.add_comm, Z.mod_add by lia.
Qed.

Lemma u64_i64_get bs : length bs = 8%nat -> be_put 8 (u64 (i64 (be_get bs))) = bs.
Proof.
  intros H. etrans; [|exact (be_put_get bs)]. rewrite H. apply be_put_mod. change (256 ^ Z.of_nat 8) with two64.
  unfold u64, i64. rewrite Zmod_mod. rewrite Zminus_mod_idemp_l. f_equal. lia.
Qed.

Lemma read_n_Some n bs a rest : read_n n bs = Some (a, rest) -> (n <= length bs)%nat /\ a = take n bs /\ rest = drop n bs.
Proof. unfold read_n. destruct (Nat.ltb_spec (length bs) n); [done|]. by intros [= <- <-]. Qed.

Lemma read_n_long n bs : (n <= length bs)%nat -> read_n n bs = Some (take n bs, drop n bs).
Proof. unfold read_n. intros H. destruct (Nat.ltb_spec (length bs) n); [lia|done]. Qed.

(** The parts of a signature; the nonce is there with replay protection only. *)
Definition header (c : CryptoConfig) : nat := if EnableReplayProtection c then 28 else 12.
Definition sig_version (sig : bytes) : Z := be_get (take 4 sig).
Definition sig_time (sig : bytes) : Time := time_Unix (i64 (be_get (take 8 (drop 4 sig)))).
Definition sig_nonce (c : CryptoConfig) (sig : bytes) : bytes := take (header c - 12) (drop 12 sig).
Definition sig_payload (c : CryptoConfig) (sig data : bytes) : bytes := take (header c) sig ++ data.

Definition timely (c : CryptoConfig) (now : Time) (sig : bytes) : Prop :=
  Sub now (sig_time sig) <= MaxSignatureAge c /\ Sub (sig_time sig) now <= Minute.

(** What the cache and the counter are after an accepted signature. *)
Definition recorded (now : Time) (sig data : bytes) (s : Service) : Service :=
  let c := cs_config s in
  let s := count 0 1 0 0 0 s in
  if EnableReplayProtection c
  then with_cache (Add_ (ReplayWindowSize c) now (sig_nonce c sig) (sha256 (sig_payload c sig data)) (replayCache s)) s else s.

Section signatures.
Context {ED : Ed25519} {AE : AEAD}.

Lemma prefix_read c sig : (header c <= length sig)%nat ->
  signed_prefix (sig_version sig) (i64 (be_get (take 8 (drop 4 sig)))) (sig_nonce c sig) = take (header c) sig.
Proof.
  intros Hl. unfold signed_prefix, sig_version, sig_nonce. assert (12 <= header c)%nat by (unfold header; destruct (EnableReplayProtection c); lia).
  rewrite u64_i64_get by (rewrite length_take, length_drop; lia).
  replace (be_put 4 (be_get (take 4 sig))) with (take 4 sig).
  2: { rewrite <- (be_put_get (take 4 sig)) at 1. f_equal. rewrite length_take. lia. }
  replace (header c) with (4 + (8 + (header c - 12)))%nat at 2 by lia.
  rewrite <- !take_take_drop. by rewrite drop_drop.
Qed.

Lemma read_short now data sig pk old s : (length sig < header (cs_config s) + 64)%nat ->
  (VerifyWithContext_ false now data sig pk old s).1 <> Ok tt.
Proof.
  intros Hl Hv. destruct (VerifyWithContext_ _ _ _ _ _ _ _) as [r s'] eqn:Hr. cbn in Hv. subst r. revert Hr.
  unfold VerifyWithContext_, header in *. cbv [mbind ST_bind fail_if gets lift modify mret ST_ret]. intros Hr.
  repeat (case_match; simplify_eq; try done);
    repeat match goal with p : (bytes * bytes)%type |- _ => destruct p end;
    repeat match goal with H : read_n _ _ = Some _ |- _ => apply read_n_Some in H as (?&->&->) end;
    rewrite ?length_drop in *; lia.
Qed.

(** [VerifyWithContext] on a signature that is long enough. *)
Lemma Verify_long now data sig pk old s : (header (cs_config s) + 64 <= length sig)%nat ->
  VerifyWithContext_ false now data sig pk old s =
  let c := cs_config s in
  if MaxDataSize <? len data then (Err ErrDataTooLarge, s)
  else if EnableReplayProtection c && negb old && (MaxSignatureAge c <? Sub now (sig_time sig)) then (Err ErrTooOld, s)
  else if EnableReplayProtection c && negb old && (Minute <? Sub (sig_time sig) now) then (Err ErrInFuture, s)
  else
    match (if EnableReplayProtection c then Check_ (sig_nonce c sig) (sha256 (sig_payload c sig data)) (replayCache s) else Ok tt) with
    | Err e => (Err e, s)
    | Ok _ =>
        match verify_key pk (sig_version sig) (keyStore s) with
        | Err e => (Err e, s)
        | Ok vk =>
            if negb (ed_verify vk (sig_payload c sig data) (take 64 (drop (header c) sig)))
            then (Err ErrCryptoInvalidSignature, count 0 1 0 0 0 s)
            else (Ok tt, recorded now sig data s)
        end
    end.
Proof.
  intros Hl. cbv zeta. pose proof (prefix_read (cs_config s) sig ltac:(lia)) as Hp.
  unfold recorded, sig_payload. rewrite <- Hp. clear Hp. unfold VerifyWithContext_, sig_nonce, sig_version, sig_time, header in *.
  cbv [mbind ST_bind fail_if gets lift modify mret ST_ret].
  destruct (MaxDataSize <? len data); [done|].
  destruct (EnableReplayProtection (cs_config s)); cbn [andb negb Nat.sub];
    rewrite (read_n_long 4), (read_n_long 8) by (rewrite ?length_drop; lia); rewrite ?drop_drop; cbn [Nat.add];
    rewrite ?(read_n_long 16) by (rewrite length_drop; lia); rewrite ?drop_drop; cbn [Nat.add];
    rewrite (read_n_long 64) by (rewrite length_drop; lia); cbn [fst]; rewrite ?take_0, ?app_nil_r.
  - destruct (negb old && _); [done|]. destruct (negb old && _); [done|]. cbn [replayCache].
    destruct (Check_ _ _ _); [|done]. destruct (verify_key _ _ _); [|done]. cbn [negb]. destruct (ed_verify _ _ _); done.
  - destruct (verify_key _ _ _); [|done]. destruct (ed_verify _ _ _); done.
Qed.

(** When [VerifyWithContext] accepts, and what it leaves. *)
Lemma Verify_Ok now data sig pk old s s' :
  VerifyWithContext_ false now data sig pk old s = (Ok tt, s') <->
  let c := cs_config s in
  (len data <= MaxDataSize /\ (header c + 64 <= length sig)%nat /\
   (EnableReplayProtection c = true -> (old = true \/ timely c now sig) /\
      Check_ (sig_nonce c sig) (sha256 (sig_payload c sig data)) (replayCache s) = Ok tt) /\
   exists vk, verify_key pk (sig_version sig) (keyStore s) = Ok vk /\
     ed_verify vk (sig_payload c sig data) (take 64 (drop (header c) sig)) = true) /\
  s' = recorded now sig data s.
Proof.
  cbv zeta. destruct (decide (header (cs_config s) + 64 <= length sig)%nat) as [Hl|Hl].
  2: { split; [|lia]. intros Hv. exfalso. apply (read_short now data sig pk old s); [lia|]. by rewrite Hv. }
  rewrite (Verify_long now data sig pk old s Hl). cbv zeta. unfold timely. split.
  - destruct (MaxDataSize <? len data) eqn:E1; [done|]. go_bool.
    destruct (EnableReplayProtection (cs_config s)) eqn:He; cbn [andb].
    2: { destruct (verify_key _ _ _) as [vk|]; [|done]. destruct (ed_verify _ _ _) eqn:Hv; [|done]. intros [= <-]. by split_and!; [..|eauto|]. }
    destruct (negb old && (MaxSignatureAge _ <? _)) eqn:E2; [done|]. destruct (negb old && (Minute <? _)) eqn:E3; [done|].
    destruct (Check_ _ _ _) as [[]|]; [|done]. destruct (verify_key _ _ _) as [vk|]; [|done].
    destruct (ed_verify _ _ _) eqn:Hv; [|done]. intros [= <-]. split_and!; [done|done| |by eauto|done]. intros _. split; [|done].
    destruct old; cbn in E2, E3; [by left|right]. go_bool. lia.
  - intros ((H1 & _ & H3 & vk & H4 & H5) & ->). rewrite H4, H5. cbn [negb].
    destruct (Z.ltb_spec MaxDataSize (len data)); [lia|]. destruct (EnableReplayProtection _); cbn [andb]; [|done].
    destruct (H3 eq_refl) as [Ht ->]. destruct old; cbn [negb andb]; [done|]. destruct Ht as [|[Ht1 Ht2]]; [done|].
    destruct (Z.ltb_spec (MaxSignatureAge (cs_config s)) (Sub now (sig_time sig))); [lia|].
    destruct (Z.ltb_spec Minute (Sub (sig_time sig) now)); [lia|done].
Qed.
End signatures.
