(* ===== verification/CryptoRuns.v ===== *)
(** Runs of the crypto service of [Crypto]: what an accepted signature shows, the replay
    cache, round trips of signatures and encryption, rotation of keys, and the service as
    an implementation of the contract of [Interfaces]. *)
From S2P Require Import Prelude Bytes Sha256 GoTime Messages Interfaces Crypto.

(** ** Calls in sequence *)

(** The calls that touch the replay cache: a verification, and the ticker's cleanup. *)
Inductive crypto_call :=
| CVerify (now : Time) (data sig pk : bytes) (old : bool)
| CCleanup (now : Time).

Definition call_time (c : crypto_call) : Time := match c with CVerify now _ _ _ _ | CCleanup now => now end.

(** Not before [t], and not later than an entry made at [t] is kept for. *)
Definition within_window (t now : Time) : Prop := time_sane now /\ nanos t <= nanos now <= nanos t + 5 * Minute.

Section runs.
Context {ED : Ed25519} {AE : AEAD}.

Definition run_crypto (c : crypto_call) (s : Service) : bool * Service :=
  match c with
  | CVerify now data sig pk old => let '(r, s') := VerifyWithContext_ false now data sig pk old s in (is_ok r, s')
  | CCleanup now => (true, Cleanup now s)
  end.

Fixpoint run_cryptos (l : list crypto_call) (s : Service) : list bool * Service :=
  match l with
  | [] => ([], s)
  | c :: l => let '(b, s) := run_crypto c s in let '(bs, s) := run_cryptos l s in (b :: bs, s)
  end.

(** The cache after a call: as before, or with an accepted signature added. *)
Lemma Verify_cases now data sig pk old s :
  let '(r, s') := VerifyWithContext_ false now data sig pk old s in
  cs_config s' = cs_config s /\ keyStore s' = keyStore s /\
  ((r <> Ok tt /\ replayCache s' = replayCache s) \/ (r = Ok tt /\ s' = recorded now sig data s)).
Proof.
  destruct (VerifyWithContext_ _ _ _ _ _ _ _) as [r s'] eqn:Hv.
  assert (Hc : cs_config (recorded now sig data s) = cs_config s /\ keyStore (recorded now sig data s) = keyStore s).
  { unfold recorded. by destruct (EnableReplayProtection _). }
  destruct r as [[]|e].
  - apply Verify_Ok in Hv as [_ ->]. destruct Hc. split_and!; [done|done|by right].
  - assert (He : cs_config s' = cs_config s /\ keyStore s' = keyStore s /\ replayCache s' = replayCache s).
    { clear Hc. revert Hv. unfold VerifyWithContext_. cbv [mbind ST_bind fail_if gets lift modify mret ST_ret].
      intros Hv. repeat (case_match; simplify_eq; try done). }
    destruct He as (-> & -> & ->). split_and!; [done|done|by left].
Qed.

Lemma recorded_cache now sig data s : EnableReplayProtection (cs_config s) = true ->
  replayCache (recorded now sig data s) =
  Add_ (ReplayWindowSize (cs_config s)) now (sig_nonce (cs_config s) sig) (sha256 (sig_payload (cs_config s) sig data)) (replayCache s).
Proof. unfold recorded. by intros ->. Qed.

(** What was added at [t] stays for the window. *)
Lemma cutoff_keeps t now ts : time_wf ts -> nanos t <= nanos ts -> within_window t now ->
  Before ts (GoTime.Add now (- (5 * Minute))) = false.
Proof.
  intros Hts Hle [Hs Hw]. destruct (Add_nanos now (- (5 * Minute)) Hs) as [Ha Hn]; [done|].
  unfold Before. rewrite After_nanos by done. apply Z.ltb_ge. lia.
Qed.

(** All entries were added in the window that starts at [t]. *)
Definition recent (t : Time) (m : gmap bytes replayEntry) : Prop :=
  map_Forall (fun _ e => time_wf (re_timestamp e) /\ nanos t <= nanos (re_timestamp e)) m.

Lemma cleanup_recent t now m : recent t m -> within_window t now -> cleanupLocked now m = m.
Proof.
  intros Hm Hw. apply map_filter_id. intros n e He. destruct (Hm n e He). by eapply cutoff_keeps.
Qed.

Lemma Add_recent t maxSize now n h m : recent t m -> within_window t now ->
  Add_ maxSize now n h m = <[n := MkReplayEntry now h]> m /\ recent t (<[n := MkReplayEntry now h]> m).
Proof.
  intros Hm Hw. assert (Hm' : recent t (<[n := MkReplayEntry now h]> m)).
  { apply map_Forall_insert_2; [|done]. cbn. destruct Hw as [[Hs _] Hw]. split; [done|lia]. }
  split; [|done]. unfold Add_. destruct (_ <? _); [by eapply cleanup_recent|done].
Qed.

(** A signature with nonce [n] over the payload of digest [h] was accepted at [t]. *)
Definition held (t : Time) (n h : bytes) (m : gmap bytes replayEntry) : Prop :=
  exists e, m !! n = Some e /\ re_hash e = h /\ time_wf (re_timestamp e) /\ nanos t <= nanos (re_timestamp e).

Lemma held_cleanup t n h now m : held t n h m -> within_window t now -> held t n h (cleanupLocked now m).
Proof.
  intros (e & He & Hh & Hwf & Hle) Hw. exists e. split_and!; [|done..]. apply map_lookup_filter_Some. split; [done|].
  by eapply cutoff_keeps.
Qed.

Lemma held_Add t n h now n' h' maxSize m : within_window t now ->
  (n' = n -> h' = h) -> held t n h m \/ n' = n -> held t n h (Add_ maxSize now n' h' m).
Proof.
  intros Hw Heq Hm. assert (Hi : held t n h (<[n' := MkReplayEntry now h']> m)).
  { destruct (decide (n' = n)) as [->|Hne].
    - exists (MkReplayEntry now h'). rewrite lookup_insert_eq. destruct Hw as [[Hs _] Hw]. cbn. split_and!; [done|auto|done|lia].
    - destruct Hm as [(e & He & Hr)|]; [|done]. exists e. by rewrite lookup_insert_ne. }
  unfold Add_. destruct (_ <? _); [by apply held_cleanup|done].
Qed.

Lemma run_crypto_held t n h c s : EnableReplayProtection (cs_config s) = true -> held t n h (replayCache s) -> within_window t (call_time c) ->
  held t n h (replayCache (run_crypto c s).2) /\ cs_config (run_crypto c s).2 = cs_config s.
Proof.
  intros He Hh Hw. destruct c as [now data sig pk old|now]; cbn [run_crypto call_time] in *; [|split; [by apply held_cleanup|done]].
  pose proof (Verify_cases now data sig pk old s) as Hc. destruct (VerifyWithContext_ _ _ _ _ _ _ _) as [r s'] eqn:Hv.
  destruct Hc as (Hc & _ & [[_ Hr]|[-> ->]]); cbn [snd]; [by rewrite Hr|].
  split; [|done]. apply Verify_Ok in Hv as [(_ & _ & Hck & _) _]. destruct (Hck He) as [_ Hck'].
  rewrite recorded_cache by done. apply held_Add; [done| |by left]. intros <-.
  destruct Hh as (e & He' & <- & _). unfold Check_ in Hck'. rewrite He' in Hck'. by destruct (bool_decide_reflect (re_hash e = sha256 (sig_payload (cs_config s) sig data))).
Qed.

Lemma run_cryptos_held t n h l s : EnableReplayProtection (cs_config s) = true -> held t n h (replayCache s) ->
  Forall (fun c => within_window t (call_time c)) l ->
  held t n h (replayCache (run_cryptos l s).2) /\ cs_config (run_cryptos l s).2 = cs_config s.
Proof.
  revert s. induction l as [|c l IH]; intros s He Hh Hl; [done|]. apply Forall_cons in Hl as [Hc Hl]. cbn [run_cryptos].
  destruct (run_crypto_held t n h c s He Hh Hc) as [Hh' Hc']. destruct (run_crypto c s) as [b s1]. cbn [snd] in *.
  rewrite <- Hc' in He. destruct (IH s1 He Hh' Hl) as [H1 H2]. destruct (run_cryptos l s1) as [bs s2]. cbn [snd] in *.
  split; [done|congruence].
Qed.
End runs.

Section properties.
Context {ED : Ed25519} {EDL : Ed25519Laws} {AE : AEAD}.

(** C32. What an accepted signature shows: the key's holder signed the data behind the
    header the signature carries, the header's time lies in the window unless old
    signatures are allowed, and its nonce is not known with another payload. *)
Theorem verify_sound (now : Time) (data sig pk : bytes) (old : bool) (s s' : Service)
  (He : EnableReplayProtection (cs_config s) = true) (Hv : VerifyWithContext_ false now data sig pk old s = (Ok tt, s')) :
  (92 <= length sig)%nat /\ (old = true \/ timely (cs_config s) now sig) /\
  (exists vk, verify_key pk (sig_version sig) (keyStore s) = Ok vk /\ ed_signed vk (take 28 sig ++ data)) /\
  (forall e, replayCache s !! take 16 (drop 12 sig) = Some e -> re_hash e = sha256 (take 28 sig ++ data)) /\
  VerifyWithContext_ false now data sig pk old s' = (Ok tt, recorded now sig data s').
Proof.
  apply Verify_Ok in Hv as [(Hd & Hl & Hck & vk & Hk & Hs) ->]. destruct (Hck He) as [Ht Hn]. clear Hck.
  assert (Hh : header (cs_config s) = 28%nat) by (unfold header; by rewrite He).
  unfold sig_payload, sig_nonce in *. rewrite Hh in *. cbn [Nat.sub] in *.
  split_and!; [lia|done|by eauto using ed_unforgeable| |].
  - intros e Hc. unfold Check_ in Hn. rewrite Hc in Hn. by destruct (bool_decide_reflect (re_hash e = sha256 (take 28 sig ++ data))).
  - assert (Hr : cs_config (recorded now sig data s) = cs_config s /\ keyStore (recorded now sig data s) = keyStore s).
    { unfold recorded. by rewrite He. }
    destruct Hr as [Hr1 Hr2]. apply Verify_Ok. cbv zeta. rewrite Hr1, Hr2, Hh. unfold sig_payload, sig_nonce. rewrite Hh. cbn [Nat.sub].
    split; [|done]. split_and!; [done|done| |by eauto]. intros _. split; [done|].
    rewrite recorded_cache by done. unfold Check_, Add_, sig_nonce, sig_payload. rewrite Hh. cbn [Nat.sub].
    assert (Hc : forall m : gmap bytes replayEntry, (forall e, m !! take 16 (drop 12 sig) = Some e -> re_hash e = sha256 (take 28 sig ++ data)) ->
      match m !! take 16 (drop 12 sig) with
      | Some entry => if bool_decide (re_hash entry = sha256 (take 28 sig ++ data)) then Ok tt else Err ErrReplayDetected
      | None => Ok tt
      end = (Ok tt : result crypto_error unit)).
    { intros m Hm. destruct (m !! _) as [e|]; [|done]. by rewrite bool_decide_true by auto. }
    apply Hc. intros e. destruct (_ <? _).
    + intros Hf%map_lookup_filter_Some. destruct Hf as [Hf _]. rewrite lookup_insert_eq in Hf. by injection Hf as <-.
    + rewrite lookup_insert_eq. by intros [= <-].
Qed.

(** Within five minutes a nonce is accepted for one payload only, whatever is verified
    and cleaned up in between. *)
Theorem nonce_binds (t now : Time) (d1 sig1 pk1 d2 sig2 pk2 : bytes) (old1 old2 : bool) (calls : list crypto_call) (s : Service)
  (He : EnableReplayProtection (cs_config s) = true) (Ht : time_sane t)
  (Hcalls : Forall (fun c => within_window t (call_time c)) calls)
  (H1 : (VerifyWithContext_ false t d1 sig1 pk1 old1 s).1 = Ok tt)
  (H2 : (VerifyWithContext_ false now d2 sig2 pk2 old2 (run_cryptos calls (VerifyWithContext_ false t d1 sig1 pk1 old1 s).2).2).1 = Ok tt)
  (Hnonce : take 16 (drop 12 sig1) = take 16 (drop 12 sig2)) :
  take 28 sig1 ++ d1 = take 28 sig2 ++ d2 \/ Collides (take 28 sig1 ++ d1) (take 28 sig2 ++ d2).
Proof.
  apply run_Ok in H1. apply Verify_Ok in H1 as [_ E1]. rewrite E1 in H2. clear E1.
  assert (Hh : header (cs_config s) = 28%nat) by (unfold header; by rewrite He).
  set (s1 := recorded t sig1 d1 s) in *. assert (Hc1 : cs_config s1 = cs_config s) by (unfold s1, recorded; by rewrite He).
  assert (Hheld : held t (take 16 (drop 12 sig1)) (sha256 (take 28 sig1 ++ d1)) (replayCache s1)).
  { unfold s1. rewrite recorded_cache by done. unfold sig_nonce, sig_payload. rewrite Hh. cbn [Nat.sub].
    apply held_Add; [|done|by right]. split; [done|]. unfold Minute, Second. lia. }
  destruct (run_cryptos_held t (take 16 (drop 12 sig1)) (sha256 (take 28 sig1 ++ d1)) calls s1) as [Hf Hc2]; [by rewrite Hc1|done|done|].
  set (s2 := (run_cryptos calls s1).2) in *. apply run_Ok in H2. apply Verify_Ok in H2 as [(_ & _ & Hck & _) _].
  rewrite Hc2, Hc1 in Hck. destruct (Hck He) as [_ Hn]. unfold sig_nonce, sig_payload in Hn. rewrite Hh in Hn. cbn [Nat.sub] in Hn.
  destruct Hf as (e & Hf & Heq & _). unfold Check_ in Hn. rewrite <- Hnonce, Hf in Hn.
  destruct (bool_decide_reflect (re_hash e = sha256 (take 28 sig2 ++ d2))) as [Hx|]; [|done].
  apply sha256_inj_or_collision. congruence.
Qed.
End properties.

(** *** The size of the window *)

Definition set_window (n : Z) (c : CryptoConfig) : CryptoConfig :=
  MkCryptoConfig (KeyTTL c) (MaxKeyHistory c) (EnableReplayProtection c) n (MaxSignatureAge c) (entropy_checked c) (KeyLoader c).

(** The same service up to the size of the window. *)
Definition same_but_window (n : Z) (s s' : Service) : Prop :=
  keyStore s' = keyStore s /\ replayCache s' = replayCache s /\ cs_config s' = set_window n (cs_config s).

Section window.
Context {ED : Ed25519} {AE : AEAD}.

Lemma is_ok_iff {A B E F} (r : result E A) (r' : result F B) :
  ((exists a, r = Ok a) <-> (exists b, r' = Ok b)) -> is_ok r = is_ok r'.
Proof. destruct r, r'; cbn; naive_solver. Qed.

Lemma run_crypto_window n t c s s' : same_but_window n s s' -> recent t (replayCache s) -> within_window t (call_time c) ->
  (run_crypto c s).1 = (run_crypto c s').1 /\ same_but_window n (run_crypto c s).2 (run_crypto c s').2 /\
  recent t (replayCache (run_crypto c s).2) /\ dom (replayCache s) ⊆ dom (replayCache (run_crypto c s).2).
Proof.
  intros (Hk & Hr & Hc) Hrec Hw. destruct c as [now data sig pk old|now]; cbn [run_crypto call_time] in *.
  2: { unfold same_but_window, Cleanup. cbn [fst snd replayCache keyStore cs_config with_cache]. rewrite Hr, (cleanup_recent t) by done. by split_and!. }
  assert (Hiff : forall u, (VerifyWithContext_ false now data sig pk old s = (Ok tt, u)) ->
    VerifyWithContext_ false now data sig pk old s' = (Ok tt, recorded now sig data s')).
  { intros u Hu. apply Verify_Ok in Hu as [Hu _]. apply Verify_Ok. cbv zeta. rewrite Hk, Hr, Hc. split; [exact Hu|done]. }
  assert (Hiff' : forall u, (VerifyWithContext_ false now data sig pk old s' = (Ok tt, u)) ->
    VerifyWithContext_ false now data sig pk old s = (Ok tt, recorded now sig data s)).
  { intros u Hu. apply Verify_Ok in Hu as [Hu _]. apply Verify_Ok. cbv zeta in *. rewrite Hk, Hr, Hc in Hu. split; [exact Hu|done]. }
  pose proof (Verify_cases now data sig pk old s) as H1. pose proof (Verify_cases now data sig pk old s') as H2.
  destruct (VerifyWithContext_ _ _ _ _ _ _ s) as [r u] eqn:Hv, (VerifyWithContext_ _ _ _ _ _ _ s') as [r' u'] eqn:Hv'.
  cbn [fst snd]. destruct H1 as (C1 & K1 & [[N1 R1]|[-> ->]]), H2 as (C2 & K2 & [[N2 R2]|[-> ->]]).
  - rewrite R1. split; [|split_and!; try done; split_and!; congruence]. apply is_ok_iff.
    split; intros [[] ->]; exfalso; [apply N1|apply N2]; done.
  - exfalso. apply N1. specialize (Hiff' _ eq_refl). congruence.
  - exfalso. apply N2. specialize (Hiff _ eq_refl). congruence.
  - split; [done|]. unfold recorded in *. rewrite Hc in *. cbn [EnableReplayProtection set_window] in *.
    destruct (EnableReplayProtection (cs_config s)) eqn:He; [|by split_and!].
    cbn [replayCache with_cache keyStore cs_config count ReplayWindowSize set_window].
    destruct (Add_recent t (ReplayWindowSize (cs_config s)) now (sig_nonce (cs_config s) sig) (sha256 (sig_payload (cs_config s) sig data)) (replayCache s)) as [E1 E2]; [done..|].
    destruct (Add_recent t n now (sig_nonce (cs_config s) sig) (sha256 (sig_payload (cs_config s) sig data)) (replayCache s)) as [E3 _]; [done..|].
    rewrite E1. split_and!; [|done|set_solver]. split_and!; [done| |done].
    change (sig_nonce (set_window n (cs_config s)) sig) with (sig_nonce (cs_config s) sig).
    change (sig_payload (set_window n (cs_config s)) sig data) with (sig_payload (cs_config s) sig data). by rewrite Hr, E3.
Qed.

(** The configured window size has no effect for the five minutes an entry is kept: the
    answers and the cache are those of any other size, and no entry leaves the cache,
    which grows with the signatures that are accepted. *)
Theorem window_size_ignored (t : Time) (n : Z) (calls : list crypto_call) (s s' : Service)
  (Hs : same_but_window n s s') (Hrec : recent t (replayCache s)) (Hcalls : Forall (fun c => within_window t (call_time c)) calls) :
  (run_cryptos calls s).1 = (run_cryptos calls s').1 /\
  replayCache (run_cryptos calls s).2 = replayCache (run_cryptos calls s').2 /\
  dom (replayCache s) ⊆ dom (replayCache (run_cryptos calls s).2).
Proof.
  revert s s' Hs Hrec. induction Hcalls as [|c calls Hc Hcalls IH]; intros s s' Hs Hrec; cbn [run_cryptos].
  { cbn [fst snd]. destruct Hs as (_ & -> & _). done. }
  destruct (run_crypto_window n t c s s' Hs Hrec Hc) as (H1 & H2 & H3 & H4).
  destruct (run_crypto c s) as [b u], (run_crypto c s') as [b' u']. cbn [fst snd] in *. subst b'.
  destruct (IH u u' H2 H3) as (I1 & I2 & I3). destruct (run_cryptos calls u) as [bs v], (run_cryptos calls u') as [bs' v'].
  cbn [fst snd] in *. subst bs'. split_and!; [done|done|set_solver].
Qed.
End window.

(** *** Round trips *)

Section round_trips.
Context {ED : Ed25519} {EDL : Ed25519Laws} {AE : AEAD} {AEL : AEADLaws}.

(** C33. What one node signs another accepts under the signer's public key, while the
    signature is fresh by its clock and the nonce is new to it. *)
Theorem sign_verify (now now' : Time) (nonce : option bytes) (data sig sd : bytes) (old : bool) (key : KeyVersion) (sA sA' sB : Service)
  (Hs : SignWithContext false now nonce data sA = (Ok sig, sA'))
  (Hk : GetActiveKey now (keyStore sA) = Ok key) (Hseed : SigningKey key = ed_key sd)
  (Hn : forall n, nonce = Some n -> length n = 16%nat /\ replayCache sB !! n = None)
  (Hconf : EnableReplayProtection (cs_config sA) = EnableReplayProtection (cs_config sB))
  (Ht : old = true \/ (Sub now' (time_Unix (Unix now)) <= MaxSignatureAge (cs_config sB) /\ Sub (time_Unix (Unix now)) now' <= Minute)) :
  (VerifyWithContext_ false now' data sig (ed_public (ed_key sd)) old sB).1 = Ok tt.
Proof.
  unfold SignWithContext in Hs. apply ST_bind_Ok in Hs as (? & s1 & Hl & Hs). apply fail_if_Ok in Hl as [Hl ->]. go_bool.
  revert Hs. cbv [mbind ST_bind fail_if gets lift modify mret ST_ret]. rewrite Hk.
  set (c := cs_config sA) in *. set (nn := if EnableReplayProtection c then match nonce with Some n => n | None => [] end else []).
  assert (Hnn : length nn = (header (cs_config sB) - 12)%nat \/ (EnableReplayProtection c = true /\ nonce = None)).
  { unfold nn, header. rewrite <- Hconf. destruct (EnableReplayProtection c); [|by left]. destruct nonce as [n|]; [|by right].
    left. by destruct (Hn n eq_refl) as [-> _]. }
  destruct Hnn as [Hnn|[He ->]]; [|by rewrite He]. intros Hs.
  assert (Hsig : sig = signed_prefix (kv_Version key) (Unix now) nn ++ ed_sign (SigningKey key) (signed_prefix (kv_Version key) (Unix now) nn ++ data)).
  { unfold nn in *. destruct (EnableReplayProtection c); [destruct nonce; [|done]|]; by injection Hs as <-. }
  clear Hs. set (prefix := signed_prefix _ _ _) in *. assert (Hpl : length prefix = header (cs_config sB)).
  { unfold prefix, signed_prefix. rewrite !length_app, !length_be_put, Hnn. unfold header. destruct (EnableReplayProtection (cs_config sB)); reflexivity. }
  pose proof (ed_sign_length (SigningKey key) (prefix ++ data)) as Hel. set (sg := ed_sign _ _) in *.
  assert (Htake : take (header (cs_config sB)) sig = prefix) by (rewrite Hsig, take_app_length' by done; done).
  assert (Hdrop : drop (header (cs_config sB)) sig = sg) by (rewrite Hsig, drop_app_length' by done; done).
  assert (Hsn : sig_nonce (cs_config sB) sig = nn).
  { unfold sig_nonce. rewrite Hsig. unfold prefix, signed_prefix. rewrite <- !app_assoc, (app_assoc (be_put 4 _)).
    rewrite drop_app_length' by (rewrite length_app, !length_be_put; done). by rewrite take_app_length' by done. }
  assert (Hst : sig_time sig = time_Unix (Unix now)).
  { unfold sig_time. rewrite Hsig. unfold prefix, signed_prefix. rewrite <- !app_assoc.
    rewrite drop_app_length' by (by rewrite length_be_put). rewrite take_app_length' by (by rewrite length_be_put).
    rewrite be_get_put. change (256 ^ Z.of_nat 8) with two64. unfold u64 at 1. rewrite Zmod_mod. change (Unix now mod two64) with (u64 (Unix now)).
    rewrite i64_u64; [done|]. unfold Unix. apply i64_range. }
  rewrite (proj2 (Verify_Ok now' data sig (ed_public (ed_key sd)) old sB (recorded now' sig data sB))); [done|]. cbv zeta.
  pose proof (ed_public_length sd) as Hpub. split; [|done]. unfold timely, sig_payload. rewrite Hsn, Hst, Htake, Hdrop. split_and!.
  - done.
  - rewrite Hsig, length_app, Hpl, Hel. lia.
  - intros He. split; [done|]. unfold Check_. unfold nn. rewrite Hconf, He. destruct nonce as [n|].
    + by destruct (Hn n eq_refl) as [_ ->].
    + unfold nn in Hnn. rewrite Hconf, He in Hnn. unfold header in Hnn. rewrite He in Hnn. discriminate Hnn.
  - exists (ed_public (ed_key sd)). unfold verify_key. rewrite bool_decide_false by (intros Hx; rewrite Hx in Hpub; discriminate Hpub).
    unfold len. rewrite Hpub. split; [done|]. rewrite take_ge by lia. unfold sg. rewrite Hseed. apply ed_verify_sign.
Qed.

(** What was encrypted under the active key is decrypted by every service that still
    holds that version of the key. *)
Theorem decrypt_encrypt (now : Time) (nonce p ct : bytes) (key key' : KeyVersion) (sA sA' sB : Service)
  (He : EncryptWithContext false now (Some nonce) p sA = (Ok ct, sA')) (Hk : GetActiveKey now (keyStore sA) = Ok key)
  (Hv : 0 <= kv_Version key < 2 ^ 32) (Hn : length nonce = 12%nat)
  (Hb : GetKeyByVersion (kv_Version key) (keyStore sB) = Ok key') (Hsame : EncryptionKey key' = EncryptionKey key) :
  (DecryptWithContext false ct sB).1 = Ok p.
Proof.
  revert He. unfold EncryptWithContext. cbv [mbind ST_bind fail_if gets lift modify mret ST_ret].
  destruct (MaxDataSize <? len p); [done|]. rewrite Hk. destruct (Z.eqb_spec (len (EncryptionKey key)) 32) as [Hlen|]; [|done]. cbn [negb].
  pose proof (length_be_put 4 (kv_Version key)) as Hb4. pose proof (be_get_put 4 (kv_Version key)) as Hget.
  rewrite Z.mod_small in Hget by (change (256 ^ Z.of_nat 4) with (2 ^ 32); lia).
  pose proof (gcm_seal_length (EncryptionKey key) nonce p) as Hg. pose proof (gcm_open_seal (EncryptionKey key) nonce p) as Ho.
  generalize dependent (be_put 4 (kv_Version key)). intros b4 Hb4 Hget. generalize dependent (gcm_seal (EncryptionKey key) nonce p). intros g Hg Ho [= <- _].
  unfold DecryptWithContext. cbv [mbind ST_bind fail_if gets lift modify mret ST_ret throw].
  assert (Hl : (len (b4 ++ nonce ++ g) <? 32) = false) by (apply Z.ltb_ge; unfold len; rewrite !length_app; lia).
  rewrite Hl, (take_app_length' b4 _ 4), Hget, Hb, Hsame, Hlen, (drop_app_length' b4 _ 4) by done. cbn [negb Z.eqb Pos.eqb].
  rewrite (take_app_length' nonce _ 12) by done.
  replace (drop 16 (b4 ++ nonce ++ g)) with g; [by rewrite Ho|].
  rewrite app_assoc, drop_app_length'; [done|]. rewrite length_app. lia.
Qed.
End round_trips.

(** ** The history of keys *)

(** Pointers are in use from 0 on; the history files a key under its version, below the
    next one; the active key is in it and the only one flagged; an older version was
    created earlier; and the history keeps its size. *)
Record ks_filed (ks : KeyStore) : Prop := {
  kso_keys : forall p, is_Some (ks_keys ks !! p) -> (p < size (ks_keys ks))%nat;
  kso_history : forall v p, keyHistory ks !! v = Some p ->
    v < nextVersion ks /\ exists k, ks_keys ks !! p = Some k /\ kv_Version k = v /\ (kv_Active k = true -> activeKey ks = Some p);
  kso_order : forall v v' p p' k k', keyHistory ks !! v = Some p -> keyHistory ks !! v' = Some p' -> v < v' ->
    ks_keys ks !! p = Some k -> ks_keys ks !! p' = Some k' -> Before (CreatedAt k) (CreatedAt k') = true }.

Definition ks_ok (ks : KeyStore) : Prop :=
  ks_filed ks /\ Z.of_nat (size (keyHistory ks)) <= maxHistory ks /\ 1 <= maxHistory ks.

Lemma NewKeyStore_ok max : ks_ok (NewKeyStore max).
Proof.
  split_and!; [split|..]; cbn [ks_keys keyHistory activeKey maxHistory NewKeyStore].
  - intros p [k Hk]. by rewrite lookup_empty in Hk.
  - intros v p. by rewrite lookup_empty.
  - intros v v' p p' k k'. by rewrite lookup_empty.
  - rewrite map_size_empty. destruct (Z.leb_spec max 0); [done|lia].
  - destruct (Z.leb_spec max 0); [done|lia].
Qed.

Section rotation.
Context {ED : Ed25519} {AE : AEAD}.

(** The store with the new key in place and nothing dropped yet. *)
Definition rotated (k : KeyVersion) (ks : KeyStore) : KeyStore :=
  let keys := match activeKey ks with Some p => alter (set_active_flag false) p (ks_keys ks) | None => ks_keys ks end in
  MkKeyStore (<[size (ks_keys ks) := set_active_flag true k]> keys) (Some (size (ks_keys ks)))
    (<[kv_Version k := size (ks_keys ks)]> (keyHistory ks)) (u32 (nextVersion ks + 1)) (maxHistory ks).

Lemma RotateKey_Ok range checked ttl d ks ks' : RotateKey range checked ttl d ks = Ok ks' ->
  exists k, kv_Version k = nextVersion ks /\ CreatedAt k = drawn_at d /\ ks' = pruneOldKeysLocked range (rotated k ks).
Proof.
  unfold RotateKey. intros Hr. apply bind_Ok_inv in Hr as (k & Hk & [= <-]). exists k. unfold GenerateKey in Hk.
  apply bind_Ok_inv in Hk as ([] & _ & Hk). destruct (seed d), (enc_draw d); try done. injection Hk as <-.
  split_and!; [done|done|]. unfold rotated. destruct (activeKey ks); cbn [with_keys ks_keys]; [|done].
  by rewrite <- !size_dom, dom_alter_L.
Qed.

Context (ks : KeyStore) (k : KeyVersion).
Hypothesis (Hok : ks_filed ks) (Hv : kv_Version k = nextVersion ks) (Hu : nextVersion ks < 2 ^ 32 - 1) (Hpos : 0 < nextVersion ks).
Hypothesis (Hnew : forall v p k', keyHistory ks !! v = Some p -> ks_keys ks !! p = Some k' -> Before (CreatedAt k') (CreatedAt k) = true).

Lemma rotated_old p k' : is_Some (ks_keys ks !! p) ->
  ks_keys (rotated k ks) !! p = Some k' <-> exists k0, ks_keys ks !! p = Some k0 /\
    k' = (if bool_decide (activeKey ks = Some p) then set_active_flag false k0 else k0).
Proof.
  intros Hp. pose proof (kso_keys _ Hok p Hp) as Hlt. cbn [rotated ks_keys]. rewrite lookup_insert_ne by lia.
  destruct Hp as [k0 Hk0]. destruct (activeKey ks) as [q|] eqn:Ha.
  - destruct (decide (q = p)) as [->|Hne].
    + rewrite lookup_alter_eq, Hk0, bool_decide_true by done. cbn. naive_solver.
    + rewrite lookup_alter_ne, Hk0, bool_decide_false by congruence. naive_solver.
  - rewrite bool_decide_false by done. rewrite Hk0. naive_solver.
Qed.

Lemma rotated_history v p : keyHistory (rotated k ks) !! v = Some p ->
  (v = nextVersion ks /\ p = size (ks_keys ks) /\ ks_keys (rotated k ks) !! p = Some (set_active_flag true k)) \/
  (keyHistory ks !! v = Some p /\ v < nextVersion ks /\ exists k0, ks_keys ks !! p = Some k0 /\
     ks_keys (rotated k ks) !! p = Some (set_active_flag false k0) /\ kv_Version k0 = v).
Proof.
  cbn [keyHistory rotated]. rewrite Hv. intros [[<- <-]|[Hne Hh]]%lookup_insert_Some.
  - left. split_and!; [done..|]. cbn. by rewrite lookup_insert_eq.
  - right. destruct (kso_history _ Hok v p Hh) as (Hlt & k0 & Hk0 & Hver & Hact). split_and!; [done..|]. exists k0. split_and!; [done| |done].
    apply rotated_old; [by eauto|]. exists k0. split; [done|]. destruct (bool_decide_reflect (activeKey ks = Some p)) as [|Hna]; [done|].
    destruct (kv_Active k0) eqn:Hf; [by destruct (Hna (Hact eq_refl))|]. destruct k0. cbn in *. by subst.
Qed.

Lemma rotated_size : size (keyHistory (rotated k ks)) = S (size (keyHistory ks)).
Proof.
  cbn [keyHistory rotated]. rewrite map_size_insert. rewrite Hv. destruct (keyHistory ks !! nextVersion ks) as [p|] eqn:Hh; [|done].
  apply (kso_history _ Hok) in Hh. lia.
Qed.

Lemma rotated_order v v' p p' k1 k2 : keyHistory (rotated k ks) !! v = Some p -> keyHistory (rotated k ks) !! v' = Some p' -> v < v' ->
  ks_keys (rotated k ks) !! p = Some k1 -> ks_keys (rotated k ks) !! p' = Some k2 -> Before (CreatedAt k1) (CreatedAt k2) = true.
Proof.
  intros H1 H2 Hlt K1 K2. apply rotated_history in H1 as [(-> & -> & R1)|(H1 & L1 & k0 & O1 & R1 & V1)],
    H2 as [(-> & -> & R2)|(H2 & L2 & k0' & O2 & R2 & V2)]; rewrite R1 in K1; rewrite R2 in K2; injection K1 as <-; injection K2 as <-.
  - lia.
  - lia.
  - cbn. by eapply Hnew.
  - cbn. by eapply (kso_order _ Hok v v').
Qed.

Lemma rotated_filed : ks_filed (rotated k ks).
Proof.
  assert (Hfresh : ks_keys ks !! size (ks_keys ks) = None).
  { destruct (ks_keys ks !! size (ks_keys ks)) eqn:Hs; [|done]. pose proof (kso_keys _ Hok _ (mk_is_Some _ _ Hs)). lia. }
  split.
  - intros p Hp. cbn [rotated ks_keys] in *.
    assert (Hd : dom (match activeKey ks with Some q => alter (set_active_flag false) q (ks_keys ks) | None => ks_keys ks end) = dom (ks_keys ks))
      by (destruct (activeKey ks); [apply dom_alter_L|done]).
    apply elem_of_dom in Hp. rewrite dom_insert_L, Hd in Hp.
    rewrite map_size_insert_None by (apply not_elem_of_dom; rewrite Hd; by apply not_elem_of_dom).
    rewrite <- size_dom, Hd, size_dom. apply elem_of_union in Hp as [->%elem_of_singleton|Hp%elem_of_dom]; [lia|].
    pose proof (kso_keys _ Hok _ Hp). lia.
  - intros v p Hh. cbn [rotated nextVersion]. unfold u32. rewrite Z.mod_small by lia.
    apply rotated_history in Hh as [(-> & -> & R)|(Hh & L & k0 & O & R & V)].
    + split; [lia|]. by exists (set_active_flag true k).
    + split; [lia|]. by exists (set_active_flag false k0).
  - apply rotated_order.
Qed.
End rotation.

Section pruning.
Context {ED : Ed25519} {AE : AEAD}.

Lemma prunable_elem range ks v t : (v, t) ∈ prunable range ks <->
  exists p k, keyHistory ks !! v = Some p /\ ks_keys ks !! p = Some k /\ kv_Active k = false /\ CreatedAt k = t.
Proof.
  unfold prunable. rewrite stable_sort_perm, list_elem_of_omap. split.
  - intros ([v' p] & Hin & Heq). apply elem_of_visit in Hin. cbn in Heq.
    destruct (ks_keys ks !! p) as [k|] eqn:Hk; [|done]. destruct (kv_Active k) eqn:Ha; [done|]. injection Heq as -> <-. by eauto 10.
  - intros (p & k & Hh & Hk & Ha & <-). exists (v, p). split; [by apply elem_of_visit|]. cbn. by rewrite Hk, Ha.
Qed.

Lemma prunable_sorted range ks : StronglySorted (fun a b : Z * Time => Before b.2 a.2 = false) (prunable range ks).
Proof.
  apply (stable_sort_sorted (fun a b : Z * Time => Before a.2 b.2) (fun _ => True)); [..|by apply Forall_true].
  all: unfold Before; intros; rewrite ?After_true, ?After_false in *; lia.
Qed.

(** When one key is too many, the one created first of those not in use goes. *)
Lemma prune_one range ks : Z.of_nat (size (keyHistory ks)) = maxHistory ks + 1 ->
  (exists v p k, keyHistory ks !! v = Some p /\ ks_keys ks !! p = Some k /\ kv_Active k = false) ->
  exists v p k, keyHistory ks !! v = Some p /\ ks_keys ks !! p = Some k /\ kv_Active k = false /\
    (forall v' p' k', keyHistory ks !! v' = Some p' -> ks_keys ks !! p' = Some k' -> kv_Active k' = false ->
       Before (CreatedAt k') (CreatedAt k) = false) /\
    pruneOldKeysLocked range ks = with_history (delete v (keyHistory ks)) (with_keys (alter zeroed p (ks_keys ks)) ks).
Proof.
  intros Hsize (v1 & p1 & k1 & Hh1 & Hk1 & Ha1). unfold pruneOldKeysLocked. destruct (Z.leb_spec (Z.of_nat (size (keyHistory ks))) (maxHistory ks)); [lia|].
  replace (Z.to_nat _) with 1%nat by lia. pose proof (prunable_sorted range ks) as Hs.
  assert (Hin : (v1, CreatedAt k1) ∈ prunable range ks) by (apply prunable_elem; by eauto 10).
  assert (Hall : forall v t, (v, t) ∈ prunable range ks <-> _) by exact (prunable_elem range ks).
  destruct (prunable range ks) as [|[v t] l]; [by apply elem_of_nil in Hin|].
  destruct (proj1 (Hall v t)) as (p & k & Hh & Hk & Ha & Ht); [by left|]. exists v, p, k. split_and!; [done..| |].
  - intros v' p' k' Hh' Hk' Ha'. assert (Hi : (v', CreatedAt k') ∈ (v, t) :: l) by (apply Hall; by eauto 10).
    subst t. apply elem_of_cons in Hi as [[= -> ->]|Hi].
    + unfold Before. apply After_irrefl.
    + inversion Hs as [|? ? _ Hf]; subst. rewrite Forall_forall in Hf. exact (Hf _ Hi).
  - cbn. unfold drop_key. by rewrite Hh.
Qed.

(** Dropping a key that is not in use keeps the history in order. *)
Lemma dropped_filed ks v0 p0 k0 : ks_filed ks -> keyHistory ks !! v0 = Some p0 -> ks_keys ks !! p0 = Some k0 ->
  let ks' := with_history (delete v0 (keyHistory ks)) (with_keys (alter zeroed p0 (ks_keys ks)) ks) in
  ks_filed ks' /\ forall v p k, v <> v0 -> keyHistory ks !! v = Some p -> ks_keys ks !! p = Some k ->
    keyHistory ks' !! v = Some p /\ ks_keys ks' !! p = Some k.
Proof.
  intros Hf Hh0 Hk0. cbv zeta. cbn [keyHistory ks_keys with_history with_keys].
  assert (Hkeys : forall v p k, v <> v0 -> keyHistory ks !! v = Some p -> ks_keys ks !! p = Some k -> alter zeroed p0 (ks_keys ks) !! p = Some k).
  { intros v p k Hne Hh Hk. rewrite lookup_alter_ne; [done|]. intros <-.
    destruct (kso_history _ Hf v p0 Hh) as (_ & k1 & E1 & V1 & _), (kso_history _ Hf v0 p0 Hh0) as (_ & k2 & E2 & V2 & _). congruence. }
  assert (Hback : forall v p, delete v0 (keyHistory ks) !! v = Some p -> v <> v0 /\ keyHistory ks !! v = Some p)
    by (intros v p Hd; apply lookup_delete_Some in Hd as [? ?]; done).
  split; [split; cbn [keyHistory ks_keys with_history with_keys activeKey nextVersion]|].
  - intros p Hp. apply elem_of_dom in Hp. rewrite dom_alter_L in Hp. apply elem_of_dom in Hp.
    rewrite <- size_dom, dom_alter_L, size_dom. by apply (kso_keys _ Hf).
  - intros v p [Hne Hh]%Hback. destruct (kso_history _ Hf v p Hh) as (Hlt & k & Hk & Hver & Ha). split; [done|]. exists k. split_and!; [by eapply Hkeys|done|done].
  - intros v v' p p' k k' [N1 H1]%Hback [N2 H2]%Hback Hlt K1 K2.
    destruct (kso_history _ Hf v p H1) as (_ & k1 & E1 & _), (kso_history _ Hf v' p' H2) as (_ & k2 & E2 & _).
    rewrite (Hkeys v p k1) in K1 by done. rewrite (Hkeys v' p' k2) in K2 by done. injection K1 as <-. injection K2 as <-.
    by eapply (kso_order _ Hf v v').
  - intros v p k Hne Hh Hk. split; [by rewrite lookup_delete_ne|by eapply Hkeys].
Qed.

(** After a rotation the new key is the active one, filed under the next version; the
    history is within its size; a key of the history is kept with what verifies and
    decrypts under it, unless as many newer ones as the history holds are there. *)
Theorem rotation_keeps_recent (range : visit_order Z nat) (checked : bool) (ttl : Z) (d : key_draw) (ks ks' : KeyStore)
  (Hok : ks_ok ks) (Hnext : 0 < nextVersion ks < 2 ^ 32 - 1)
  (Hnew : forall v p k', keyHistory ks !! v = Some p -> ks_keys ks !! p = Some k' -> Before (CreatedAt k') (drawn_at d) = true)
  (Hr : RotateKey range checked ttl d ks = Ok ks') :
  ks_ok ks' /\ nextVersion ks' = nextVersion ks + 1 /\
  (exists p k, activeKey ks' = Some p /\ keyHistory ks' !! nextVersion ks = Some p /\ ks_keys ks' !! p = Some k /\ kv_Active k = true) /\
  (forall v p k, keyHistory ks !! v = Some p -> ks_keys ks !! p = Some k ->
     (exists k', keyHistory ks' !! v = Some p /\ ks_keys ks' !! p = Some k' /\ kv_PublicKey k' = kv_PublicKey k /\
        EncryptionKey k' = EncryptionKey k) \/
     (keyHistory ks' !! v = None /\ Z.of_nat (size (keyHistory ks')) = maxHistory ks' /\
        forall v', is_Some (keyHistory ks' !! v') -> v < v')).
Proof.
  apply RotateKey_Ok in Hr as (k & Hv & Hc & ->). rewrite <- Hc in Hnew. destruct Hnext as [Hpos Hu].
  destruct Hok as (Hf & Hsize & Hmax). pose proof (rotated_size ks k Hf Hv) as Hsz.
  pose proof (rotated_filed ks k Hf Hv Hu Hpos Hnew) as Hfr. pose proof (rotated_history ks k Hf Hv) as Hh.
  assert (Hnewest : keyHistory (rotated k ks) !! nextVersion ks = Some (size (ks_keys ks))) by (cbn; rewrite Hv; apply lookup_insert_eq).
  assert (Hnk : ks_keys (rotated k ks) !! size (ks_keys ks) = Some (set_active_flag true k)) by apply lookup_insert_eq.
  assert (Hnn : nextVersion (rotated k ks) = nextVersion ks + 1) by (cbn; unfold u32; by rewrite Z.mod_small by lia).
  assert (Hold : forall v p k0, keyHistory ks !! v = Some p -> ks_keys ks !! p = Some k0 ->
    keyHistory (rotated k ks) !! v = Some p /\ ks_keys (rotated k ks) !! p = Some (set_active_flag false k0) /\ v < nextVersion ks).
  { intros v p k0 Hvp Hk0. destruct (kso_history _ Hf v p Hvp) as (Hlt & _).
    assert (Hr : keyHistory (rotated k ks) !! v = Some p) by (cbn; rewrite Hv, lookup_insert_ne by lia; done).
    destruct (Hh v p Hr) as [(-> & _)|(_ & _ & k1 & E1 & R1 & _)]; [lia|]. split_and!; [done| |done]. congruence. }
  destruct (decide (Z.of_nat (size (keyHistory (rotated k ks))) <= maxHistory ks)) as [Hle|Hgt].
  - unfold pruneOldKeysLocked. rewrite (proj2 (Z.leb_le _ _)) by done. split_and!; [done|done| |].
    + by exists (size (ks_keys ks)), (set_active_flag true k).
    + intros v p k0 Hvp Hk0. left. exists (set_active_flag false k0). destruct (Hold v p k0 Hvp Hk0) as (? & ? & _). by split_and!.
  - destruct (prune_one range (rotated k ks)) as (v0 & p0 & k0 & H0 & K0 & A0 & Hmin & ->).
    { cbn [maxHistory rotated]. lia. }
    { destruct (map_choose (keyHistory ks)) as (v & p & Hvp); [intros He; rewrite He, map_size_empty in Hsz; lia|].
      destruct (kso_history _ Hf v p Hvp) as (_ & k1 & E1 & _). destruct (Hold v p k1 Hvp E1) as (? & ? & _).
      by exists v, p, (set_active_flag false k1). }
    destruct (dropped_filed (rotated k ks) v0 p0 k0 Hfr H0 K0) as [Hfd Hkeep].
    assert (Hv0 : v0 <> nextVersion ks) by (intros ->; rewrite Hnewest in H0; injection H0 as <-; rewrite Hnk in K0; injection K0 as <-; done).
    assert (Hsd : Z.of_nat (size (delete v0 (keyHistory (rotated k ks)))) = maxHistory ks)
      by (rewrite map_size_delete, H0; cbn [maxHistory rotated] in *; lia).
    split_and!; [|done| |].
    + split; [exact Hfd|]. cbn [keyHistory maxHistory with_history with_keys]. cbn [maxHistory rotated]. lia.
    + exists (size (ks_keys ks)), (set_active_flag true k). destruct (Hkeep (nextVersion ks) _ _ (not_eq_sym Hv0) Hnewest Hnk). by split_and!.
    + intros v p k1 Hvp Hk1. destruct (Hold v p k1 Hvp Hk1) as (R1 & R2 & Hlt).
      destruct (decide (v = v0)) as [->|Hne].
      2: { left. exists (set_active_flag false k1). destruct (Hkeep v p _ Hne R1 R2). by split_and!. }
      right. cbn [keyHistory with_history with_keys]. split_and!; [apply lookup_delete_eq|exact Hsd|].
      intros v' [p' Hd]. apply lookup_delete_Some in Hd as [Hn' Hv'].
      destruct (Hh v' p' Hv') as [(-> & _)|(Hv'' & L' & k2 & E2 & R3 & _)]; [done|].
      destruct (Z.lt_total v0 v') as [|[Heq|Hlt']]; [done|by destruct Hn'|].
      rewrite R1 in H0. injection H0 as <-. pose proof (Hmin v' p' _ Hv' R3 eq_refl) as Hm.
      rewrite (rotated_order ks k Hf Hv Hnew v' v0 p' p (set_active_flag false k2) k0 Hv' R1 Hlt' R3 K0) in Hm. done.
Qed.
End pruning.

(** ** The contract of the consensus *)

Section adapter.
Context {ED : Ed25519} {EDL : Ed25519Laws} {AE : AEAD}.

(** The adapter as the [CryptoService] of [Interfaces]; [looked_up] is when the local key
    is looked up. *)
Definition service_crypto (looked_up : Time) : CryptoService := {|
  crypto := cryptoAdapter;
  GetPublicKey a id := match adapter_GetPublicKey looked_up id a with Ok pk => Some pk | Err _ => None end;
  VerifyWithContext now a data sig pk old := let '(r, a) := adapter_Verify now data sig pk old a in (is_ok r, a) |}.

(** With keys that are not empty and replay protection on, the adapter keeps the
    contract: what verifies under the key registered for an identifier is something its
    holder signed, behind a header of 28 bytes. *)
Definition service_laws (looked_up : Time) (reg : gmap ValidatorID bytes) (ks : KeyStore)
  (Hreg : map_Forall (fun _ pk => pk <> []) reg) (Hlocal : forall k, GetActiveKey looked_up ks = Ok k -> kv_PublicKey k <> []) :
  @CryptoLaws (service_crypto looked_up).
Proof.
  refine (@Build_CryptoLaws (service_crypto looked_up)
    (fun a => registry a = reg /\ keyStore (ca_service a) = ks /\ EnableReplayProtection (cs_config (ca_service a)) = true)
    (fun id pk => pk <> [] /\ (reg !! id = Some pk \/ (reg !! id = None /\ exists k, GetActiveKey looked_up ks = Ok k /\ pk = kv_PublicKey k /\ sha256 pk = id)))
    (fun id data => exists pk hdr, (reg !! id = Some pk \/ sha256 pk = id) /\ length hdr = 28%nat /\ ed_signed pk (hdr ++ data)) _ _ _).
  - intros a id pk (Hr & Hk & _) Hpk. cbn in Hpk. unfold adapter_GetPublicKey, GetPublicKey_ in Hpk. rewrite Hr, Hk in Hpk.
    destruct (reg !! id) as [pub|] eqn:Hid.
    + injection Hpk as <-. split; [by eapply Hreg|by left].
    + destruct (GetActiveKey looked_up ks) as [k|] eqn:Ha; [|done]. cbn in Hpk.
      destruct (bool_decide_reflect (sha256 (kv_PublicKey k) = id)) as [Hs|]; [|done]. injection Hpk as <-.
      split; [by apply Hlocal|]. right. split; [done|]. by exists k.
  - intros now a id pk data sig old (Hr & Hk & He) (Hne & Hid) Hv. cbn in Hv. unfold adapter_Verify in Hv.
    destruct (VerifyWithContext_ false now data sig pk old (ca_service a)) as [[[]|] s'] eqn:Hs; [|done].
    destruct (proj1 (Verify_Ok now data sig pk old (ca_service a) s') Hs) as [(_ & Hl & _ & vk & Hvk & Hed) _].
    unfold header, sig_payload, header in *. rewrite He in Hl, Hed. unfold verify_key in Hvk.
    rewrite bool_decide_false in Hvk by done. destruct (len pk =? 32); [|done]. injection Hvk as <-.
    exists pk, (take 28 sig). split_and!; [naive_solver| |by eapply ed_unforgeable]. rewrite length_take. lia.
  - intros now a data sig pk old (Hr & Hk & He). cbn. unfold adapter_Verify.
    pose proof (Verify_cases now data sig pk old (ca_service a)) as Hc.
    destruct (VerifyWithContext_ _ _ _ _ _ _ _) as [r s']. cbn. destruct Hc as (-> & -> & _). done.
Defined.
End adapter.

(** ** Concrete runs *)

(** Primitives that satisfy the laws: a signature is a digest under the public key, and
    a ciphertext is the plaintext with a digest. *)
#[local] Instance toy_ed : Ed25519 := {
  ed_key seed := seed;
  ed_public k := sha256 k;
  ed_sign k m := sha256 (sha256 k ++ m) ++ sha256 m;
  ed_verify pk m s := bool_decide (s = sha256 (pk ++ m) ++ sha256 m) }.

#[local] Instance toy_aead : AEAD := {
  gcm_seal k n p := p ++ take 16 (sha256 (k ++ n ++ p));
  gcm_open k n c :=
    let p := take (length c - 16) c in
    if bool_decide (drop (length c - 16) c = take 16 (sha256 (k ++ n ++ p))) then Some p else None }.

Definition toy_laws : @Ed25519Laws toy_ed.
Proof.
  refine (@Build_Ed25519Laws toy_ed (fun pk m => exists s, ed_verify pk m s = true) _ _ _ _).
  - intros sd m. cbn [ed_verify ed_public ed_key ed_sign toy_ed]. by apply bool_decide_eq_true.
  - intros k m. cbn [ed_sign toy_ed]. by rewrite length_app, !length_sha256.
  - intros sd. apply length_sha256.
  - intros pk m s Hv. by exists s.
Defined.

Definition toy_aead_laws : @AEADLaws toy_aead.
Proof.
  assert (Hl : forall k n p : bytes, length (p ++ take 16 (sha256 (k ++ n ++ p))) = (length p + 16)%nat).
  { intros k n p. rewrite length_app, length_take, length_sha256. done. }
  split; [|exact Hl]. intros k n p. cbn [gcm_open gcm_seal toy_aead]. cbv zeta. rewrite Hl, Nat.add_sub.
  rewrite take_app_length, drop_app_length. by rewrite bool_decide_true.
Defined.

Definition at_ (n : Z) : Time := time_Unix (1700000000 + n).
Definition demo_seed : bytes := replicate 32 x01.
Definition demo_draw (n : Z) (sd : byte) : key_draw :=
  MkDraw (fun _ => None) (Some (replicate 32 sd)) (Some (replicate 32 sd)) (at_ n).
Definition demo_key : KeyVersion :=
  MkKeyVersion 1 demo_seed (sha256 demo_seed) (replicate 32 x01) (at_ 0) (at_ 86400) true (generateKeyID (sha256 demo_seed)).

Definition demo_config (loader : option KeyVersion) : CryptoConfig :=
  MkCryptoConfig (24 * Hour) 3 true 10000 (24 * Hour) false (Ok <$> loader).

Definition service_of (loader : option KeyVersion) : Service :=
  match NewCryptoService key_order (demo_config loader) (fun _ => None) (demo_draw 0 x01) with
  | Ok s => s
  | Err _ => MkService (demo_config loader) (NewKeyStore 3) ∅ 0 0 0 0 0
  end.

Definition nonce_n (n : byte) : bytes := replicate 16 n.

(** Keys are rotated once. With a key generated at the start, what was signed and
    encrypted before is still verified and decrypted by its version. The loader of the
    node's own key gives it version 1, which is also the version the rotation uses next:
    the key is replaced in the history, and neither works any more. *)
Definition survives (loader : option KeyVersion) : bool * bool * bool * bool :=
  let '(sig, s) := SignWithContext false (at_ 10) (Some (nonce_n x02)) (str "data") (service_of loader) in
  let '(ct, s) := EncryptWithContext false (at_ 11) (Some (replicate 12 x03)) (str "secret") s in
  let sig := match sig with Ok b => b | Err _ => [] end in
  let ct := match ct with Ok b => b | Err _ => [] end in
  let s' := (RotateKeys key_order false (demo_draw 20 x05) s).2 in
  ((Verify_ (at_ 12) (str "data") sig s).1, (Verify_ (at_ 30) (str "data") sig s').1,
   is_ok (DecryptWithContext false ct s).1, is_ok (DecryptWithContext false ct s').1).

Theorem loaded_key_replaced :
  survives None = (true, true, true, true) /\ survives (Some demo_key) = (true, false, true, false).
Proof. vm_compute. split; reflexivity. Qed.

(** The test rejects one sample in which five pairs of bytes are equal, and accepts one
    with four. *)
Example entropy_pairs :
  isEntropyGood (byte_of <$> seqZ 0 28 ++ [0; 1; 2; 3]) = true /\
  isEntropyGood (byte_of <$> seqZ 0 27 ++ [0; 1; 2; 3; 4]) = false.
Proof. vm_compute. split; reflexivity. Qed.

Definition signer : Service := service_of None.
Definition signed_at (n : Z) (nonce : byte) (data : bytes) : bytes :=
  match (SignWithContext false (at_ n) (Some (nonce_n nonce)) data signer).1 with Ok b => b | Err _ => [] end.
Definition demo_pub : bytes := ed_public (ed_key demo_seed).

Definition demo_sig : bytes := signed_at 10 x02 (str "data").
Definition verified (n : Z) (s : Service) : result crypto_error unit * Service :=
  VerifyWithContext_ false (at_ n) (str "data") demo_sig demo_pub false s.

Lemma demo_accepted : (verified 12 signer).1 = Ok tt.
Proof. vm_compute. reflexivity. Qed.

Lemma verify_sound_witness :
  exists vk, verify_key demo_pub (sig_version demo_sig) (keyStore signer) = Ok vk /\
    exists s, ed_verify vk (take 28 demo_sig ++ str "data") s = true.
Proof.
  destruct (@verify_sound toy_ed toy_laws (at_ 12) (str "data") demo_sig demo_pub false signer (verified 12 signer).2
              eq_refl (run_Ok _ _ _ demo_accepted)) as (_ & _ & H & _).
  exact H.
Defined.

Lemma at_nanos n : 0 <= n <= 300 -> time_sane (at_ n) /\ nanos (at_ n) = (1700000000 + n + unixToInternal) * Second.
Proof.
  intros Hn. split; [|unfold at_; apply nanos_Unix; unfold unixToInternal, MinInt64, MaxInt64; lia].
  unfold at_, time_Unix, time_sane, time_wf. cbn [t_sec t_nsec]. rewrite i64_small by (unfold unixToInternal, MinInt64, MaxInt64; lia).
  unfold unixToInternal, Second. lia.
Qed.

Lemma at_window n m : 0 <= n <= m -> m <= 300 -> within_window (at_ n) (at_ m).
Proof.
  intros H1 H2. destruct (at_nanos n) as [_ En]; [lia|]. destruct (at_nanos m) as [Hs Em]; [lia|].
  split; [done|]. rewrite En, Em. unfold Minute, Second. lia.
Qed.

(** The same signature is accepted again, a minute and a cleanup later. *)
Lemma nonce_binds_witness :
  take 28 demo_sig ++ str "data" = take 28 demo_sig ++ str "data" \/ Collides (take 28 demo_sig ++ str "data") (take 28 demo_sig ++ str "data").
Proof.
  apply (@nonce_binds toy_ed (at_ 12) (at_ 72) (str "data") demo_sig demo_pub (str "data") demo_sig demo_pub false false
           [CCleanup (at_ 60)] signer).
  - reflexivity.
  - apply at_nanos. lia.
  - apply Forall_cons. split; [apply at_window; lia|by apply Forall_nil].
  - exact demo_accepted.
  - vm_compute. reflexivity.
  - reflexivity.
Defined.

Lemma window_size_ignored_witness :
  let s' := MkService (set_window 0 (cs_config signer)) (keyStore signer) (replayCache signer) 0 0 0 0 0 in
  let calls := [CVerify (at_ 12) (str "data") demo_sig demo_pub false; CVerify (at_ 13) (str "data") demo_sig [] false; CCleanup (at_ 60)] in
  (run_cryptos calls signer).1 = (run_cryptos calls s').1 /\
  replayCache (run_cryptos calls signer).2 = replayCache (run_cryptos calls s').2 /\
  dom (replayCache signer) ⊆ dom (replayCache (run_cryptos calls signer).2).
Proof.
  apply (@window_size_ignored toy_ed (at_ 12) 0).
  - split_and!; reflexivity.
  - assert (He : replayCache signer = ∅) by (apply map_size_empty_inv; vm_compute; reflexivity). rewrite He. apply map_Forall_empty.
  - repeat (apply Forall_cons; split; [apply at_window; lia|]). by apply Forall_nil.
Defined.

Definition active_of (s : Service) : KeyVersion :=
  match GetActiveKey (at_ 10) (keyStore s) with Ok k => k | Err _ => demo_key end.

Lemma signer_key : GetActiveKey (at_ 10) (keyStore signer) = Ok (active_of signer) /\ SigningKey (active_of signer) = ed_key demo_seed /\
  kv_Version (active_of signer) = 1 /\ GetKeyByVersion (kv_Version (active_of signer)) (keyStore signer) = Ok (active_of signer).
Proof. split_and!; vm_compute; reflexivity. Qed.

Lemma sign_verify_witness :
  (VerifyWithContext_ false (at_ 12) (str "data") demo_sig (ed_public (ed_key demo_seed)) false signer).1 = Ok tt.
Proof.
  assert (Hs : (SignWithContext false (at_ 10) (Some (nonce_n x02)) (str "data") signer).1 = Ok demo_sig) by (vm_compute; reflexivity).
  destruct signer_key as (Hk & Hseed & _).
  apply (@sign_verify toy_ed toy_laws (at_ 10) (at_ 12) (Some (nonce_n x02)) (str "data") demo_sig demo_seed false (active_of signer) signer
           (SignWithContext false (at_ 10) (Some (nonce_n x02)) (str "data") signer).2 signer).
  - exact (run_Ok _ _ _ Hs).
  - exact Hk.
  - exact Hseed.
  - intros n [= <-]. split; vm_compute; reflexivity.
  - reflexivity.
  - right. split; vm_compute; discriminate.
Defined.

Definition demo_ct : bytes :=
  match (EncryptWithContext false (at_ 10) (Some (replicate 12 x03)) (str "secret") signer).1 with Ok b => b | Err _ => [] end.

Lemma decrypt_encrypt_witness : (DecryptWithContext false demo_ct signer).1 = Ok (str "secret").
Proof.
  assert (He : (EncryptWithContext false (at_ 10) (Some (replicate 12 x03)) (str "secret") signer).1 = Ok demo_ct) by (vm_compute; reflexivity).
  destruct signer_key as (Hk & _ & Hv & Hb).
  apply (@decrypt_encrypt toy_aead toy_aead_laws (at_ 10) (replicate 12 x03) (str "secret") demo_ct (active_of signer) (active_of signer) signer
           (EncryptWithContext false (at_ 10) (Some (replicate 12 x03)) (str "secret") signer).2 signer).
  - exact (run_Ok _ _ _ He).
  - exact Hk.
  - rewrite Hv. lia.
  - reflexivity.
  - exact Hb.
  - reflexivity.
Defined.

Definition fresh_store : KeyStore := NewKeyStore 3.
Definition once_rotated : KeyStore := match RotateKey key_order false Hour (demo_draw 20 x05) fresh_store with Ok ks => ks | Err _ => fresh_store end.

Lemma rotation_keeps_recent_witness :
  ks_ok once_rotated /\ nextVersion once_rotated = 2.
Proof.
  destruct (@rotation_keeps_recent toy_ed key_order false Hour (demo_draw 20 x05) fresh_store once_rotated) as (H1 & H2 & _).
  - apply NewKeyStore_ok.
  - split; reflexivity.
  - intros v p k Hh. cbn in Hh. by rewrite lookup_empty in Hh.
  - vm_compute. reflexivity.
  - exact (conj H1 H2).
Defined.
