(* ===== verification/Genesis.v ===== *)
(** backend/pkg/consensus/genesis/coordinator.go: the ceremony that starts consensus. The
    validators attest that they are ready, with the same configuration and peers; the
    leader of view 0 aggregates a quorum of attestations into a certificate, which every
    node validates and keeps. *)
From S2P Require Import Prelude Bytes Sha256 GoTime Messages Interfaces.

(** ** Surroundings *)

(** [validatorSet.GetValidator], as far as the public key ([None] an error or nothing),
    and [GetValidators]. *)
Class ValidatorKeys := {
  GetValidator : ValidatorID -> option bytes;
  AllValidators : list ValidatorID }.

(** The two methods of the storage backend, and the CBOR encoding of certificates. *)
Class GenesisStore := {
  gstore : Type;
  LoadGenesisCertificate : gstore -> result unit (option bytes);
  SaveGenesisCertificate : gstore -> bytes -> bool * gstore;
  cbor_Marshal : GenesisCertificate -> option bytes;
  cbor_Unmarshal : bytes -> option GenesisCertificate }.

Inductive ReadyEvent := ReadyEventReceived | ReadyEventAccepted | ReadyEventDuplicate | ReadyEventReplayBlocked | ReadyEventRejected.
#[export] Instance ReadyEvent_eq_dec : EqDecision ReadyEvent.
Proof. solve_decision. Defined.

(** The calls of the [Host], in order. A certificate is published from a goroutine of its
    own; the reasons given with the telemetry are left out. *)
Inductive host_call :=
| PublishGenesisMessage (m : Message)
| MarkValidatorReady (id : ValidatorID)
| HostOnCertificate (cert : GenesisCertificate)
| RecordGenesisReady (e : ReadyEvent) (id : ValidatorID) (hash : bytes)
| RecordGenesisCertificateDiscard.

(** What reading the state file gives. *)
Inductive state_file := NoFile | Unreadable | Undecodable | SavedState (cert : option GenesisCertificate) (saved_at : Time).

(** ** State *)

Record Config := MkConfig {
  ReadyTimeout : Z; CertificateTimeout : Z; ClockSkewTolerance : Z; GenesisClockSkewTolerance : Z; RequiredQuorum : Z;
  c_ConfigHash : bytes; c_PeerHash : bytes; ReadyRefreshInterval : Z; StatePath : bool }.

(** The defaults [NewCoordinator] fills in. *)
Definition genesis_config (c : Config) : Config :=
  MkConfig (if ReadyTimeout c <=? 0 then 30 * Second else ReadyTimeout c)
    (if CertificateTimeout c <=? 0 then 60 * Second else CertificateTimeout c)
    (if ClockSkewTolerance c <=? 0 then 5 * Second else ClockSkewTolerance c)
    (if GenesisClockSkewTolerance c <=? 0 then 24 * Hour else GenesisClockSkewTolerance c)
    (RequiredQuorum c) (c_ConfigHash c) (c_PeerHash c)
    (if ReadyRefreshInterval c <? 0 then 0 else ReadyRefreshInterval c) (StatePath c).

Record Rebroadcast := MkRebroadcast { rb_base : Z; rb_max : Z; rb_current : Z; lastHash : bytes; lastSend : Time }.

(** The intervals [NewCoordinator] chooses. *)
Definition new_rebroadcast (refresh : Z) : Rebroadcast :=
  let max := if (0 <? refresh) && (refresh <? Minute) then refresh else Minute in
  let base := if (0 <? refresh) && (Second <=? Z.quot refresh 2) then Z.quot refresh 2 else 5 * Second in
  let base := if base <=? 0 then Second else base in
  let max := if max <? base then base else max in
  MkRebroadcast base max base zero32 zero_time.

Section coordinator.
Context {CS : CryptoService} {GS : GenesisStore}.

Record Coordinator := MkCoordinator {
  cfg : Config; attestations : gmap ValidatorID GenesisReady; verifying : gmap ValidatorID bytes; requirement : Z;
  aggregator : ValidatorID; certificate : option GenesisCertificate; certificateBroadcast : bool; completed : bool;
  localReady : option GenesisReady; rebroadcast : Rebroadcast; relay_minInterval : Z; relay_lastByPeer : gmap ValidatorID Time;
  certificateOnce : bool; startOnce : bool; discardCount : Z;
  c_crypto : crypto; c_backend : option gstore; c_file : state_file; host : list host_call }.

Definition NewCoordinator (c : Config) (cr : crypto) (backend : option gstore) (file : state_file) : Coordinator :=
  let c := genesis_config c in
  let rb := new_rebroadcast (ReadyRefreshInterval c) in
  MkCoordinator c ∅ ∅ 0 zero32 None false false None rb (if rb_base rb <? 5 * Second then 5 * Second else rb_base rb) ∅
    false false 0 cr backend file [].

Definition set_attestations (m : gmap ValidatorID GenesisReady) (c : Coordinator) : Coordinator :=
  MkCoordinator (cfg c) m (verifying c) (requirement c) (aggregator c) (certificate c) (certificateBroadcast c) (completed c)
    (localReady c) (rebroadcast c) (relay_minInterval c) (relay_lastByPeer c) (certificateOnce c) (startOnce c) (discardCount c)
    (c_crypto c) (c_backend c) (c_file c) (host c).
Definition set_verifying (m : gmap ValidatorID bytes) (c : Coordinator) : Coordinator :=
  MkCoordinator (cfg c) (attestations c) m (requirement c) (aggregator c) (certificate c) (certificateBroadcast c) (completed c)
    (localReady c) (rebroadcast c) (relay_minInterval c) (relay_lastByPeer c) (certificateOnce c) (startOnce c) (discardCount c)
    (c_crypto c) (c_backend c) (c_file c) (host c).
Definition set_requirement (agg : ValidatorID) (req : Z) (c : Coordinator) : Coordinator :=
  MkCoordinator (cfg c) (attestations c) (verifying c) req agg (certificate c) (certificateBroadcast c) (completed c)
    (localReady c) (rebroadcast c) (relay_minInterval c) (relay_lastByPeer c) (certificateOnce c) (startOnce c) (discardCount c)
    (c_crypto c) (c_backend c) (c_file c) (host c).
Definition set_aggregator (agg : ValidatorID) (c : Coordinator) : Coordinator := set_requirement agg (requirement c) c.
Definition set_certificate (cert : option GenesisCertificate) (bc done once : bool) (c : Coordinator) : Coordinator :=
  MkCoordinator (cfg c) (attestations c) (verifying c) (requirement c) (aggregator c) cert bc done
    (localReady c) (rebroadcast c) (relay_minInterval c) (relay_lastByPeer c) once (startOnce c) (discardCount c)
    (c_crypto c) (c_backend c) (c_file c) (host c).
Definition set_localReady (r : option GenesisReady) (c : Coordinator) : Coordinator :=
  MkCoordinator (cfg c) (attestations c) (verifying c) (requirement c) (aggregator c) (certificate c) (certificateBroadcast c) (completed c)
    r (rebroadcast c) (relay_minInterval c) (relay_lastByPeer c) (certificateOnce c) (startOnce c) (discardCount c)
    (c_crypto c) (c_backend c) (c_file c) (host c).
Definition set_rebroadcast (rb : Rebroadcast) (c : Coordinator) : Coordinator :=
  MkCoordinator (cfg c) (attestations c) (verifying c) (requirement c) (aggregator c) (certificate c) (certificateBroadcast c) (completed c)
    (localReady c) rb (relay_minInterval c) (relay_lastByPeer c) (certificateOnce c) (startOnce c) (discardCount c)
    (c_crypto c) (c_backend c) (c_file c) (host c).
Definition set_relay (m : gmap ValidatorID Time) (c : Coordinator) : Coordinator :=
  MkCoordinator (cfg c) (attestations c) (verifying c) (requirement c) (aggregator c) (certificate c) (certificateBroadcast c) (completed c)
    (localReady c) (rebroadcast c) (relay_minInterval c) m (certificateOnce c) (startOnce c) (discardCount c)
    (c_crypto c) (c_backend c) (c_file c) (host c).
Definition set_started (started : bool) (discarded : Z) (c : Coordinator) : Coordinator :=
  MkCoordinator (cfg c) (attestations c) (verifying c) (requirement c) (aggregator c) (certificate c) (certificateBroadcast c) (completed c)
    (localReady c) (rebroadcast c) (relay_minInterval c) (relay_lastByPeer c) (certificateOnce c) started discarded
    (c_crypto c) (c_backend c) (c_file c) (host c).
Definition set_world (cr : crypto) (b : option gstore) (f : state_file) (h : list host_call) (c : Coordinator) : Coordinator :=
  MkCoordinator (cfg c) (attestations c) (verifying c) (requirement c) (aggregator c) (certificate c) (certificateBroadcast c) (completed c)
    (localReady c) (rebroadcast c) (relay_minInterval c) (relay_lastByPeer c) (certificateOnce c) (startOnce c) (discardCount c)
    cr b f h.

Definition emit (h : host_call) (c : Coordinator) : Coordinator := set_world (c_crypto c) (c_backend c) (c_file c) (host c ++ [h]) c.
Definition set_crypto (cr : crypto) (c : Coordinator) : Coordinator := set_world cr (c_backend c) (c_file c) (host c) c.
Definition set_stored (b : option gstore) (f : state_file) (c : Coordinator) : Coordinator := set_world (c_crypto c) b f (host c) c.

Definition recordReadyEvent (e : ReadyEvent) (id : ValidatorID) (hash : bytes) (c : Coordinator) : Coordinator :=
  emit (RecordGenesisReady e id hash) c.

(** ** Rebroadcasting *)

Definition resetRebroadcastState (hash : bytes) (c : Coordinator) : Coordinator :=
  set_rebroadcast (MkRebroadcast (rb_base (rebroadcast c)) (rb_max (rebroadcast c)) (rb_base (rebroadcast c)) hash zero_time) c.

Definition rebroadcastInterval (c : Coordinator) : Z * Coordinator :=
  let rb := rebroadcast c in
  if rb_current rb <=? 0 then
    let interval := if rb_base rb <=? 0 then Second else rb_base rb in
    (interval, set_rebroadcast (MkRebroadcast (rb_base rb) (rb_max rb) interval (lastHash rb) (lastSend rb)) c)
  else (rb_current rb, c).

Definition noteRebroadcast (hash : bytes) (now : Time) (c : Coordinator) : Coordinator :=
  let rb := rebroadcast c in
  let current :=
    if negb (bool_decide (lastHash rb = hash)) then rb_base rb
    else if rb_current rb <? rb_max rb then Z.min (rb_current rb * 2) (rb_max rb)
    else rb_current rb in
  set_rebroadcast (MkRebroadcast (rb_base rb) (rb_max rb) current hash now) c.

(** ** Certificates *)

(** [persistCertificate]: the database first, then the file, written aside and renamed;
    [disk_ok] when none of these steps fails. *)
Definition persistCertificate (now : Time) (disk_ok : bool) (cert : GenesisCertificate) (c : Coordinator) : Coordinator :=
  let to_file c := if StatePath (cfg c) && disk_ok then set_stored (c_backend c) (SavedState (Some cert) now) c else c in
  match c_backend c with
  | None => to_file c
  | Some b =>
      match cbor_Marshal cert with
      | None => c
      | Some data =>
          let '(ok, b) := SaveGenesisCertificate b data in
          let c := set_stored (Some b) (c_file c) c in
          if ok then to_file c else c
      end
  end.

Context {VS : ValidatorSet} {VK : ValidatorKeys}.

Definition setCertificate (now : Time) (disk_ok : bool) (cert : GenesisCertificate) (c : Coordinator) : Coordinator :=
  if certificateOnce c then c
  else
    let c := set_certificate (Some cert) (certificateBroadcast c) true true c in
    let c := persistCertificate now disk_ok cert c in
    let c := foldl (fun c a => emit (MarkValidatorReady (gr_ValidatorID a)) c) c (Attestations cert) in
    let c := foldl (fun c id => emit (MarkValidatorReady id) c) c AllValidators in
    emit (HostOnCertificate cert) c.

Definition tolerance (c : Coordinator) : Z :=
  if GenesisClockSkewTolerance (cfg c) <=? 0 then ClockSkewTolerance (cfg c) else GenesisClockSkewTolerance (cfg c).

(** A timestamp further from the clock than the tolerance, in either direction. *)
Definition skewed (tol : Z) (now t : Time) : bool := (tol <? Sub now t) || (Sub now t <? - tol).

Inductive cert_error :=
| ErrUnexpectedAggregator | ErrBelowQuorum | ErrCertificateSkew | ErrNonValidator | ErrDuplicateAttestation | ErrConfigMismatch
| ErrPeerMismatch | ErrAttestationSkew | ErrConflicting | ErrLookup | ErrKeyMismatch | ErrVerify.
#[export] Instance cert_error_eq_dec : EqDecision cert_error.
Proof. solve_decision. Defined.

Definition unmark (id : ValidatorID) (c : Coordinator) : Coordinator := set_verifying (delete id (verifying c)) c.

(** One attestation of a certificate that is neither known nor being verified. *)
Definition verify_attestation (now : Time) (fromDisk : bool) (att : GenesisReady) (c : Coordinator) : result cert_error unit * Coordinator :=
  let id := gr_ValidatorID att in
  let h := GenesisReady_Hash att in
  let c := recordReadyEvent ReadyEventReceived id h (set_verifying (<[id := h]> (verifying c)) c) in
  match GetValidator id with
  | None => (Err ErrLookup, recordReadyEvent ReadyEventRejected id h (unmark id c))
  | Some pk =>
      if negb (bool_decide (KeyID (gr_Signature att) = id)) then (Err ErrKeyMismatch, recordReadyEvent ReadyEventRejected id h (unmark id c))
      else
        let '(ok, cr) := VerifyWithContext now (c_crypto c) (GenesisReady_SignBytes att) (sig_Bytes (gr_Signature att)) pk fromDisk in
        let c := unmark id (set_crypto cr c) in
        if negb ok then (Err ErrVerify, recordReadyEvent ReadyEventReplayBlocked id h c)
        else (Ok tt, recordReadyEvent ReadyEventAccepted id h (set_attestations (<[id := att]> (attestations c)) c))
  end.

Fixpoint check_attestations (now : Time) (fromDisk : bool) (seen : gset ValidatorID) (l : list GenesisReady) (c : Coordinator)
  : result cert_error unit * Coordinator :=
  match l with
  | [] => (Ok tt, c)
  | att :: rest =>
      let id := gr_ValidatorID att in
      let h := GenesisReady_Hash att in
      if negb (IsValidator id) then (Err ErrNonValidator, c)
      else if bool_decide (id ∈ seen) then (Err ErrDuplicateAttestation, c)
      else if negb (bool_decide (ConfigHash att = c_ConfigHash (cfg c))) then (Err ErrConfigMismatch, c)
      else if negb (bool_decide (PeerHash att = c_PeerHash (cfg c))) then (Err ErrPeerMismatch, c)
      else if negb fromDisk && skewed (tolerance c) now (gr_Timestamp att) then (Err ErrAttestationSkew, c)
      else
        let next := check_attestations now fromDisk ({[id]} ∪ seen) rest in
        let known := match attestations c !! id with Some existing => bool_decide (GenesisReady_Hash existing = h) | None => false end in
        if known then next (recordReadyEvent ReadyEventDuplicate id h c)
        else
          match verifying c !! id with
          | Some inflight =>
              if bool_decide (inflight = h) then next (recordReadyEvent ReadyEventDuplicate id h c)
              else (Err ErrConflicting, recordReadyEvent ReadyEventRejected id h c)
          | None =>
              match verify_attestation now fromDisk att c with
              | (Ok _, c) => next c
              | (Err e, c) => (Err e, c)
              end
          end
  end.

Definition validateCertificate (now : Time) (cert : GenesisCertificate) (fromDisk : bool) (c : Coordinator) : result cert_error unit * Coordinator :=
  let c := if bool_decide (aggregator c = zero32) then set_aggregator (gc_Aggregator cert) c else c in
  let differs := negb (bool_decide (gc_Aggregator cert = aggregator c)) in
  if differs && negb fromDisk then (Err ErrUnexpectedAggregator, c)
  else
    let c := if differs then set_aggregator (gc_Aggregator cert) c else c in
    if len (Attestations cert) <? requirement c then (Err ErrBelowQuorum, c)
    else if negb fromDisk && skewed (tolerance c) now (gc_Timestamp cert) then (Err ErrCertificateSkew, c)
    else check_attestations now fromDisk ∅ (Attestations cert) c.

Definition OnGenesisCertificate (now : Time) (disk_ok : bool) (cert : GenesisCertificate) (c : Coordinator) : Coordinator :=
  if completed c then c
  else
    match validateCertificate now cert false c with
    | (Err _, c) => c
    | (Ok _, c) => setCertificate now disk_ok cert c
    end.

(** [WaitForCertificate]; [None] while it waits. *)
Definition WaitForCertificate (canceled : bool) (c : Coordinator) : option (result unit GenesisCertificate) :=
  if completed c then Some (match certificate c with Some cert => Ok cert | None => Err tt end)
  else if canceled then Some (Err tt) else None.

Definition maybeRelayCertificate (now : Time) (id : ValidatorID) (cert : option GenesisCertificate) (c : Coordinator) : Coordinator :=
  match cert with
  | None => c
  | Some cert =>
      let last := default zero_time (relay_lastByPeer c !! id) in
      if negb (IsZero last) && (Sub now last <? relay_minInterval c) then c
      else emit (PublishGenesisMessage (MGenesisCertificate cert)) (set_relay (<[id := now]> (relay_lastByPeer c)) c)
  end.

(** *** Aggregation *)

Context (localID : ValidatorID) (Sign : Time -> bytes -> option bytes) (range : visit_order ValidatorID GenesisReady).

Definition lessValidator (a b : ValidatorID) : bool := bytes_ltb a b.

Fixpoint prune_attestations (seen : gset ValidatorID) (l : list GenesisReady) : list GenesisReady :=
  match l with
  | [] => []
  | a :: l => if bool_decide (gr_ValidatorID a ∈ seen) then prune_attestations seen l
              else a :: prune_attestations ({[gr_ValidatorID a]} ∪ seen) l
  end.

Definition buildCertificate (now : Time) (att : list GenesisReady) (c : Coordinator) : option GenesisCertificate * Coordinator :=
  match att with
  | [] => (None, c)
  | _ =>
      let c := recordReadyEvent ReadyEventReceived localID zero32 c in
      let pruned := prune_attestations ∅ (stable_sort (fun a b => lessValidator (gr_ValidatorID a) (gr_ValidatorID b)) att) in
      let cert sg := MkGenesisCertificate pruned localID now sg in
      match Sign now (GenesisCertificate_SignBytes (cert (MkSig [] zero32 zero_time))) with
      | None => (None, c)
      | Some sg => (Some (cert (MkSig sg localID now)), c)
      end
  end.

Definition checkQuorumLocked (now : Time) (c : Coordinator) : option GenesisCertificate * Coordinator :=
  if completed c || negb (bool_decide (aggregator c = localID)) || certificateBroadcast c then (None, c)
  else if Z.of_nat (size (attestations c)) <? requirement c then (None, c)
  else
    match buildCertificate now (range (attestations c)).*2 c with
    | (None, c) => (None, c)
    | (Some cert, c) => (Some cert, set_certificate (certificate c) true (completed c) (certificateOnce c) c)
    end.

(** ** Attestations *)

(** The checks of the first critical section of [OnGenesisReady] that do not look at the
    attestations known. *)
Definition ready_checks (now : Time) (ready : GenesisReady) (c : Coordinator) : bool * Coordinator :=
  let id := gr_ValidatorID ready in
  let h := GenesisReady_Hash ready in
  match verifying c !! id with
  | Some inflight =>
      (false, recordReadyEvent (if bool_decide (inflight = h) then ReadyEventDuplicate else ReadyEventRejected) id h c)
  | None =>
      if negb (bool_decide (ConfigHash ready = c_ConfigHash (cfg c))) then (false, recordReadyEvent ReadyEventRejected id h c)
      else if negb (bool_decide (PeerHash ready = c_PeerHash (cfg c))) then (false, recordReadyEvent ReadyEventRejected id h c)
      else if skewed (tolerance c) now (gr_Timestamp ready) then (false, recordReadyEvent ReadyEventRejected id h c)
      else (true, set_verifying (<[id := h]> (verifying c)) c)
  end.

(** The whole of it: whether to verify the attestation, which is then marked. *)
Definition ready_begin (now : Time) (ready : GenesisReady) (c : Coordinator) : bool * Coordinator :=
  let id := gr_ValidatorID ready in
  let h := GenesisReady_Hash ready in
  let c := recordReadyEvent ReadyEventReceived id h c in
  if negb (IsValidator id) then (false, recordReadyEvent ReadyEventRejected id h c)
  else
    match attestations c !! id with
    | Some existing =>
        if bool_decide (GenesisReady_Hash existing = h) then (false, recordReadyEvent ReadyEventDuplicate id h c)
        else if negb (After (gr_Timestamp ready) (gr_Timestamp existing)) then (false, recordReadyEvent ReadyEventDuplicate id h c)
        else ready_checks now ready (set_attestations (delete id (attestations c)) c)
    | None => ready_checks now ready c
    end.

(** What follows a successful verification. *)
Definition ready_verified (now : Time) (disk_ok : bool) (ready : GenesisReady) (c : Coordinator) : Coordinator :=
  let id := gr_ValidatorID ready in
  let h := GenesisReady_Hash ready in
  if completed c then maybeRelayCertificate now id (certificate c) c
  else
    match attestations c !! id with
    | Some existing =>
        recordReadyEvent (if bool_decide (GenesisReady_Hash existing = h) then ReadyEventDuplicate else ReadyEventRejected) id h c
    | None =>
        let c := set_attestations (<[id := ready]> (attestations c)) c in
        let c := emit (MarkValidatorReady id) (recordReadyEvent ReadyEventAccepted id h c) in
        match checkQuorumLocked now c with
        | (None, c) => c
        | (Some cert, c) => setCertificate now disk_ok cert (emit (PublishGenesisMessage (MGenesisCertificate cert)) c)
        end
    end.

(** The rest of [OnGenesisReady], from the verification to the deferred removal of the
    mark. *)
Definition ready_end (now : Time) (disk_ok : bool) (ready : GenesisReady) (c : Coordinator) : Coordinator :=
  let id := gr_ValidatorID ready in
  let h := GenesisReady_Hash ready in
  unmark id
    match GetValidator id with
    | None => recordReadyEvent ReadyEventRejected id h c
    | Some pk =>
        if negb (bool_decide (KeyID (gr_Signature ready) = id)) then recordReadyEvent ReadyEventRejected id h c
        else
          let '(ok, cr) := VerifyWithContext now (c_crypto c) (GenesisReady_SignBytes ready) (sig_Bytes (gr_Signature ready)) pk false in
          let c := set_crypto cr c in
          if negb ok then recordReadyEvent ReadyEventReplayBlocked id h c else ready_verified now disk_ok ready c
    end.

Definition OnGenesisReady (now : Time) (disk_ok : bool) (ready : GenesisReady) (c : Coordinator) : Coordinator :=
  match ready_begin now ready c with
  | (true, c) => ready_end now disk_ok ready c
  | (false, c) => c
  end.

(** ** The local attestation *)

Inductive start_error := ErrAggregator | ErrNoValidators | ErrSign | ErrPublish.

Definition buildLocalReady (now : Time) (nonce : bytes) (c : Coordinator) : result start_error GenesisReady :=
  let ready sg := MkGenesisReady localID now (c_ConfigHash (cfg c)) (c_PeerHash (cfg c)) nonce sg in
  match Sign now (GenesisReady_SignBytes (ready (MkSig [] zero32 zero_time))) with
  | None => Err ErrSign
  | Some sg => Ok (ready (MkSig sg localID now))
  end.

Definition recordLocalReady (ready : GenesisReady) (c : Coordinator) : Coordinator :=
  let h := GenesisReady_Hash ready in
  let c := recordReadyEvent ReadyEventReceived localID h c in
  let c := resetRebroadcastState h (set_localReady (Some ready) c) in
  let c := set_attestations (<[localID := ready]> (attestations c)) c in
  emit (MarkValidatorReady localID) (recordReadyEvent ReadyEventAccepted localID h c).

Definition issueLocalReady (now : Time) (nonce : bytes) (c : Coordinator) : result start_error GenesisReady * Coordinator :=
  match buildLocalReady now nonce c with
  | Err e => (Err e, c)
  | Ok ready => (Ok ready, recordLocalReady ready c)
  end.

Definition broadcastReady (now : Time) (nonce : bytes) (pub_ok : bool) (c : Coordinator) : result start_error unit * Coordinator :=
  match issueLocalReady now nonce c with
  | (Err e, c) => (Err e, c)
  | (Ok ready, c) => (if pub_ok then Ok tt else Err ErrPublish, emit (PublishGenesisMessage (MGenesisReady ready)) c)
  end.

(** A firing of the timer of [rebroadcastLoop]; the loop ends once the ceremony is
    completed. *)
Definition rebroadcast_tick (now : Time) (nonce : bytes) (pub_ok : bool) (c : Coordinator) : Coordinator :=
  let '(_, c) := rebroadcastInterval c in
  if completed c then c
  else
    match localReady c with
    | None => c
    | Some ready =>
        let refresh := ReadyRefreshInterval (cfg c) in
        let '(r, c) :=
          if (0 <? refresh) && (refresh <=? Sub now (gr_Timestamp ready)) then issueLocalReady now nonce c else (Ok ready, c) in
        match r with
        | Err _ => c
        | Ok ready =>
            let c := emit (PublishGenesisMessage (MGenesisReady ready)) c in
            if pub_ok then noteRebroadcast (GenesisReady_Hash ready) now c else c
        end
    end.

(** ** Starting and restoring *)

Definition applyRestoredCertificate (now : Time) (disk_ok pub_ok : bool) (cert : GenesisCertificate) (c : Coordinator) : Coordinator :=
  let c := set_attestations ∅ c in
  let c := foldl (fun c a =>
      let c := set_attestations (<[gr_ValidatorID a := a]> (attestations c)) c in
      let c := emit (MarkValidatorReady (gr_ValidatorID a)) c in
      if bool_decide (gr_ValidatorID a = localID) then set_localReady (Some a) c else c) c (Attestations cert) in
  let c := setCertificate now disk_ok cert c in
  let c :=
    match localReady c with
    | None => c
    | Some ready =>
        let c := emit (PublishGenesisMessage (MGenesisReady ready)) c in
        if pub_ok then resetRebroadcastState (GenesisReady_Hash ready) c else c
    end in
  if bool_decide (aggregator c = localID) then emit (PublishGenesisMessage (MGenesisCertificate cert)) c else c.

(** The errors of both are logged; the result says whether a certificate was restored. *)
Definition restoreFromDatabase (now : Time) (disk_ok pub_ok : bool) (c : Coordinator) : bool * Coordinator :=
  match c_backend c with
  | None => (false, c)
  | Some b =>
      match LoadGenesisCertificate b with
      | Err _ | Ok None | Ok (Some []) => (false, c)
      | Ok (Some data) =>
          match cbor_Unmarshal data with
          | None => (false, c)
          | Some cert =>
              match validateCertificate now cert true c with
              | (Err _, c) => (false, set_started (startOnce c) (discardCount c + 1) c)
              | (Ok _, c) => (true, applyRestoredCertificate now disk_ok pub_ok cert c)
              end
          end
      end
  end.

(** [removed] when the stale file could be removed. *)
Definition restoreFromDisk (now : Time) (disk_ok pub_ok removed : bool) (c : Coordinator) : bool * Coordinator :=
  if negb (StatePath (cfg c)) then (false, c)
  else
    match c_file c with
    | NoFile | Unreadable | Undecodable | SavedState None _ => (false, c)
    | SavedState (Some cert) _ =>
        match validateCertificate now cert true c with
        | (Err _, c) => (false, emit RecordGenesisCertificateDiscard (if removed then set_stored (c_backend c) NoFile c else c))
        | (Ok _, c) => (true, applyRestoredCertificate now disk_ok pub_ok cert c)
        end
    end.

(** What a start meets. *)
Record start_env := MkStartEnv { st_now : Time; st_nonce : bytes; st_pub : bool; st_disk : bool; st_removed : bool }.

Definition required_quorum (c : Config) : result start_error Z :=
  if 0 <? RequiredQuorum c then Ok (RequiredQuorum c)
  else if GetValidatorCount =? 0 then Err ErrNoValidators
  else Ok (Z.max 1 (2 * Z.quot (GetValidatorCount - 1) 3 + 1)).

Definition initialize (e : start_env) (c : Coordinator) : result start_error unit * Coordinator :=
  match GetLeaderForView 0 with
  | None => (Err ErrAggregator, c)
  | Some agg =>
      match required_quorum (cfg c) with
      | Err x => (Err x, set_aggregator agg c)
      | Ok req =>
          let c := set_requirement agg req c in
          let '(restored, c) := restoreFromDatabase (st_now e) (st_disk e) (st_pub e) c in
          if restored : bool then (Ok tt, c)
          else
            let '(restored, c) := restoreFromDisk (st_now e) (st_disk e) (st_pub e) (st_removed e) c in
            if restored : bool then (Ok tt, c) else broadcastReady (st_now e) (st_nonce e) (st_pub e) c
      end
  end.

Definition Start (e : start_env) (c : Coordinator) : result start_error unit * Coordinator :=
  if startOnce c then (Ok tt, c) else initialize e (set_started true (discardCount c) c).

End coordinator.
