(* ===== verification/GenesisRuns.v ===== *)
(** Runs of the genesis ceremony: what a certificate that starts consensus guarantees,
    when the ceremony completes, and where the coordinator accepts too much. *)
From S2P Require Import Prelude Bytes Sha256 GoTime Messages Interfaces Genesis.

(** ** Runs *)

(** What reaches a coordinator. [HBegin] and [HEnd] are the two parts of an [OnGenesisReady]
    between which it verifies a signature without its lock; [HReady] is one that nothing
    interleaves with. *)
Inductive handler :=
| HReady (now : Time) (disk_ok : bool) (ready : GenesisReady)
| HBegin (now : Time) (ready : GenesisReady)
| HEnd (now : Time) (disk_ok : bool) (i : nat)
| HCertificate (now : Time) (disk_ok : bool) (cert : GenesisCertificate)
| HTick (now : Time) (nonce : bytes) (pub_ok : bool).

Definition whole (h : handler) : bool := match h with HBegin _ _ | HEnd _ _ _ => false | _ => true end.

(** The certificates consensus was started with. *)
Definition activation (h : host_call) : option GenesisCertificate :=
  match h with HostOnCertificate cert => Some cert | _ => None end.

Section runs.
Context {CS : CryptoService} {GS : GenesisStore} {VS : ValidatorSet} {VK : ValidatorKeys}.
Context (localID : ValidatorID) (Sign : Time -> bytes -> option bytes) (range : visit_order ValidatorID GenesisReady).

(** The attestations whose verification is under way, and the coordinator. *)
Definition handle (s : list GenesisReady * Coordinator) (h : handler) : list GenesisReady * Coordinator :=
  let '(pending, c) := s in
  match h with
  | HReady now disk_ok r => (pending, OnGenesisReady localID Sign range now disk_ok r c)
  | HBegin now r => match ready_begin now r c with (true, c) => (pending ++ [r], c) | (false, c) => (pending, c) end
  | HEnd now disk_ok i =>
      match pending !! i with
      | None => (pending, c)
      | Some r => (delete i pending, ready_end localID Sign range now disk_ok r c)
      end
  | HCertificate now disk_ok cert => (pending, OnGenesisCertificate now disk_ok cert c)
  | HTick now nonce pub_ok => (pending, rebroadcast_tick localID Sign now nonce pub_ok c)
  end.

Definition activations (c : Coordinator) : list GenesisCertificate := omap activation (host c).

(** A node's ceremony: a start and what follows. *)
Definition ceremony (cf : Config) (cr : crypto) (backend : option gstore) (file : state_file) (e : start_env) (hs : list handler)
  : list GenesisReady * Coordinator :=
  foldl handle ([], (Start localID Sign e (NewCoordinator cf cr backend file)).2) hs.

(** The same with handlers that ran before the start: main.go lets messages in first. *)
Definition ceremony_after (early : list handler) (cf : Config) (cr : crypto) (backend : option gstore) (file : state_file) (e : start_env)
  (hs : list handler) : list GenesisReady * Coordinator :=
  foldl handle ([], (Start localID Sign e (foldl handle ([], NewCoordinator cf cr backend file) early).2).2) hs.
Definition no_certificate (h : handler) : bool := match h with HReady _ _ _ | HTick _ _ _ => true | _ => false end.

(** ** What matters of a coordinator *)

Definition core (c : Coordinator) :=
  (cfg c, attestations c, requirement c, certificate c, completed c, certificateOnce c, c_crypto c, activations c).

Lemma emit_core h c : activation h = None -> core (emit h c) = core c.
Proof. intros Hh. unfold core, activations, emit. cbn. rewrite omap_app. cbn. by rewrite Hh, app_nil_r. Qed.

Lemma record_core e id h c : core (recordReadyEvent e id h c) = core c.
Proof. by apply emit_core. Qed.
Lemma mark_core id c : core (emit (MarkValidatorReady id) c) = core c.
Proof. by apply emit_core. Qed.
Lemma publish_core m c : core (emit (PublishGenesisMessage m) c) = core c.
Proof. by apply emit_core. Qed.
Lemma discard_core c : core (emit RecordGenesisCertificateDiscard c) = core c.
Proof. by apply emit_core. Qed.
Lemma verifying_core m c : core (set_verifying m c) = core c.
Proof. reflexivity. Qed.
Lemma unmark_core id c : core (unmark id c) = core c.
Proof. reflexivity. Qed.
Lemma aggregator_core a c : core (set_aggregator a c) = core c.
Proof. reflexivity. Qed.
Lemma localReady_core r c : core (set_localReady r c) = core c.
Proof. reflexivity. Qed.
Lemma rebroadcast_core rb c : core (set_rebroadcast rb c) = core c.
Proof. reflexivity. Qed.
Lemma relay_core m c : core (set_relay m c) = core c.
Proof. reflexivity. Qed.
Lemma started_core b n c : core (set_started b n c) = core c.
Proof. reflexivity. Qed.
Lemma stored_core b f c : core (set_stored b f c) = core c.
Proof. reflexivity. Qed.
Lemma broadcast_core c : core (set_certificate (certificate c) true (completed c) (certificateOnce c) c) = core c.
Proof. reflexivity. Qed.
Lemma persist_core now disk_ok cert c : core (persistCertificate now disk_ok cert c) = core c.
Proof.
  unfold persistCertificate. destruct (c_backend c) as [b|]; [|by destruct (_ && _)].
  destruct (cbor_Marshal cert); [|done]. destruct (SaveGenesisCertificate b _) as [[] b']; [|done]. by destruct (_ && _).
Qed.
Lemma relayed_core now id cert c : core (maybeRelayCertificate now id cert c) = core c.
Proof. unfold maybeRelayCertificate. destruct cert; [|done]. destruct (_ && _); [done|]. by rewrite publish_core. Qed.
Lemma marks_core {A} (f : A -> ValidatorID) l c : core (foldl (fun c a => emit (MarkValidatorReady (f a)) c) c l) = core c.
Proof. revert c. induction l as [|a l IH]; intros c; [done|]. cbn [foldl]. by rewrite IH, mark_core. Qed.
Lemma interval_core c : core (rebroadcastInterval c).2 = core c.
Proof. unfold rebroadcastInterval. by destruct (_ <=? _). Qed.
End runs.

#[export] Hint Rewrite @record_core @mark_core @publish_core @discard_core @verifying_core @unmark_core @aggregator_core
  @localReady_core @rebroadcast_core @relay_core @started_core @stored_core @broadcast_core @persist_core @relayed_core
  @marks_core @interval_core : genesis_core.

(** ** Aggregation *)

Section aggregation.
Context {CS : CryptoService} {GS : GenesisStore} {VS : ValidatorSet} {VK : ValidatorKeys}.
Context (localID : ValidatorID) (Sign : Time -> bytes -> option bytes) (range : visit_order ValidatorID GenesisReady).

Lemma prune_distinct seen l :
  NoDup (gr_ValidatorID <$> l) -> Forall (fun a => gr_ValidatorID a ∉ seen) l -> prune_attestations seen l = l.
Proof.
  revert seen. induction l as [|a l IH]; intros seen Hnd Hall; [done|]. cbn [prune_attestations].
  rewrite fmap_cons in Hnd. apply NoDup_cons in Hnd as [Ha Hnd]. apply Forall_cons in Hall as [Hsa Hall].
  rewrite bool_decide_eq_false_2 by done. f_equal. apply IH; [done|].
  rewrite Forall_forall in Hall |- *. intros b Hb. specialize (Hall b Hb).
  assert (gr_ValidatorID a <> gr_ValidatorID b); [|set_solver].
  intros Heq. apply Ha. rewrite Heq. by apply list_elem_of_fmap_2.
Qed.

(** The attestations of a map that files them under their validators, in any order. *)
Lemma visited_ids (m : gmap ValidatorID GenesisReady) :
  map_Forall (fun id r => gr_ValidatorID r = id) m -> gr_ValidatorID <$> (range m).*2 = (range m).*1.
Proof.
  intros Hm. rewrite <- list_fmap_compose. apply list_fmap_ext. intros i [id r] Hir. cbn.
  apply (Hm id). apply elem_of_visit with (o := range). by eapply list_elem_of_lookup_2.
Qed.

Lemma visited_distinct (m : gmap ValidatorID GenesisReady) :
  map_Forall (fun id r => gr_ValidatorID r = id) m -> NoDup (gr_ValidatorID <$> (range m).*2).
Proof. intros Hm. rewrite visited_ids by done. rewrite visit_perm. apply NoDup_fst_map_to_list. Qed.

(** The certificate made of the attestations collected. *)
Definition collected (m : gmap ValidatorID GenesisReady) : list GenesisReady :=
  stable_sort (fun a b => lessValidator (gr_ValidatorID a) (gr_ValidatorID b)) (range m).*2.

Lemma collected_perm m : collected m ≡ₚ (map_to_list m).*2.
Proof. unfold collected. by rewrite stable_sort_perm, visit_perm. Qed.

Lemma checkQuorumLocked_inv now c cert c' :
  map_Forall (fun id r => gr_ValidatorID r = id) (attestations c) ->
  checkQuorumLocked localID Sign range now c = (Some cert, c') ->
  completed c = false /\ aggregator c = localID /\ requirement c <= Z.of_nat (size (attestations c)) /\
  Attestations cert = collected (attestations c) /\ gc_Aggregator cert = localID /\ gc_Timestamp cert = now /\
  core c' = core c /\ verifying c' = verifying c /\ aggregator c' = localID.
Proof.
  intros Hm. unfold checkQuorumLocked.
  destruct (completed c || negb (bool_decide (aggregator c = localID)) || certificateBroadcast c) eqn:Hguard; [done|].
  destruct (Z.ltb_spec (Z.of_nat (size (attestations c))) (requirement c)) as [Hl|Hl]; [done|]. go_bool.
  unfold buildCertificate. destruct ((range (attestations c)).*2) as [|a att] eqn:Hatt; [done|]. rewrite <- Hatt.
  fold (collected (attestations c)).
  assert (Hprune : prune_attestations ∅ (collected (attestations c)) = collected (attestations c)).
  { apply prune_distinct; [|apply Forall_forall; set_solver]. unfold collected.
    rewrite stable_sort_perm. by apply visited_distinct. }
  rewrite Hprune. destruct (Sign now _) as [sg|]; [|done]. intros [= <- <-]. cbn [Attestations gc_Aggregator gc_Timestamp].
  split_and!; try done. by apply (record_core ReadyEventReceived localID zero32 c).
Qed.

Lemma checkQuorumLocked_frame now c :
  core (checkQuorumLocked localID Sign range now c).2 = core c /\ verifying (checkQuorumLocked localID Sign range now c).2 = verifying c.
Proof.
  unfold checkQuorumLocked, buildCertificate. repeat case_match; simplify_eq; cbn [snd]; by autorewrite with genesis_core.
Qed.

End aggregation.

(** ** The invariant *)

Section invariant.
Context {CS : CryptoService} {CL : CryptoLaws} {GS : GenesisStore} {VS : ValidatorSet} {VK : ValidatorKeys}.
Context (localID : ValidatorID) (Sign : Time -> bytes -> option bytes) (range : visit_order ValidatorID GenesisReady).

(** A validator's attestation to the node's configuration and peers: the validator signed
    bytes with the attestation's hash. *)
Definition attested (cf : Config) (r : GenesisReady) : Prop :=
  IsValidator (gr_ValidatorID r) = true /\ ConfigHash r = c_ConfigHash cf /\ PeerHash r = c_PeerHash cf /\
  exists m, signed (gr_ValidatorID r) m /\ sha256 m = GenesisReady_Hash r.

Definition quorum_certificate (cf : Config) (q : Z) (cert : GenesisCertificate) : Prop :=
  q <= len (Attestations cert) /\ NoDup (gr_ValidatorID <$> Attestations cert) /\ Forall (attested cf) (Attestations cert).

Context (cf : Config) (q : Z) (G : GenesisCertificate -> Prop).
Hypothesis keys : forall id pk, GetValidator id = Some pk -> key_of id pk.
Hypothesis honest : forall now m sg, Sign now m = Some sg -> signed localID m.
Hypothesis member : IsValidator localID = true.
Hypothesis built : forall cert, quorum_certificate cf q cert -> G cert.

Definition core_ok (s : Config * gmap ValidatorID GenesisReady * Z * option GenesisCertificate * bool * bool * crypto * list GenesisCertificate) : Prop :=
  let '(cf', att, req, cert, done, once, cr, acts) := s in
  crypto_ok cr /\ (c_ConfigHash cf' = c_ConfigHash cf /\ c_PeerHash cf' = c_PeerHash cf) /\ req = q /\
  map_Forall (fun id r => gr_ValidatorID r = id /\ attested cf r) att /\
  done = bool_decide (is_Some cert) /\ once = done /\ acts = option_list cert /\
  forall x, cert = Some x -> G x.
Definition inv (c : Coordinator) : Prop := core_ok (core c).

Ltac frame := unfold inv; cbn [fst snd]; autorewrite with genesis_core; try done.

Lemma inv_crypto c : inv c -> crypto_ok (c_crypto c).
Proof. by intros (? & _). Qed.
Lemma inv_att c id r : inv c -> attestations c !! id = Some r -> gr_ValidatorID r = id /\ attested cf r.
Proof. intros (_ & _ & _ & Ha & _) Hr. exact (Ha _ _ Hr). Qed.

Lemma inv_set_attestations c m : inv c -> map_Forall (fun id r => gr_ValidatorID r = id /\ attested cf r) m -> inv (set_attestations m c).
Proof. intros (H1 & H2 & H3 & _ & H) Hm. exact (conj H1 (conj H2 (conj H3 (conj Hm H)))). Qed.
Lemma inv_set_crypto c cr : inv c -> crypto_ok cr -> inv (set_crypto cr c).
Proof. intros (_ & H) Hm. exact (conj Hm H). Qed.
Lemma inv_insert c r : inv c -> attested cf r -> inv (set_attestations (<[gr_ValidatorID r := r]> (attestations c)) c).
Proof.
  intros Hc Hr. apply inv_set_attestations; [done|]. destruct Hc as (_ & _ & _ & Ha & _).
  by apply map_Forall_insert_2.
Qed.
Lemma inv_delete c id : inv c -> inv (set_attestations (delete id (attestations c)) c).
Proof. intros Hc. apply inv_set_attestations; [done|]. apply map_Forall_delete. by destruct Hc as (_ & _ & _ & Ha & _). Qed.

Lemma inv_activate c cert : inv c -> certificateOnce c = false -> G cert ->
  inv (emit (HostOnCertificate cert) (set_certificate (Some cert) (certificateBroadcast c) true true c)).
Proof.
  intros (H1 & H2 & H3 & Ha & Hd & Ho & Hact & _) Hfalse Hg.
  rewrite Hfalse in Ho. rewrite <- Ho in Hd. symmetry in Hd. apply bool_decide_eq_false, eq_None_not_Some in Hd.
  rewrite Hd in Hact. unfold inv, core_ok, core. cbn. do 6 (split; [done|]). split; [|naive_solver].
  unfold activations in Hact |- *. cbn. by rewrite omap_app, Hact.
Qed.

Lemma core_emit h c c' : core c = core c' -> core (emit h c) = core (emit h c').
Proof.
  unfold core. intros [= H1 H2 H3 H4 H5 H6 H7 H8]. unfold activations in *. cbn.
  rewrite !omap_app. congruence.
Qed.

Lemma inv_setCertificate now disk_ok cert c : inv c -> G cert -> inv (setCertificate now disk_ok cert c).
Proof.
  intros Hc Hg. unfold setCertificate. destruct (certificateOnce c) eqn:Ho; [done|].
  pose proof (inv_activate _ _ Hc Ho Hg) as H. unfold inv in H |- *.
  erewrite core_emit; [exact H|]. 
  rewrite (marks_core (fun id => id)). by autorewrite with genesis_core.
Qed.

(** *** Certificates *)

Lemma delete_mark (m : gmap ValidatorID bytes) id h : m !! id = None -> delete id (<[id := h]> m) = m.
Proof. intros Hm. by rewrite delete_insert_eq, delete_id. Qed.

Lemma verify_attestation_ok now old att c :
  inv c -> IsValidator (gr_ValidatorID att) = true -> ConfigHash att = c_ConfigHash cf -> PeerHash att = c_PeerHash cf ->
  verifying c !! gr_ValidatorID att = None ->
  let '(r, c') := verify_attestation now old att c in
  inv c' /\ verifying c' = verifying c /\ (r = Ok tt -> attested cf att).
Proof.
  intros Hc Hv Hcfg Hpeer Hidle. unfold verify_attestation.
  destruct (GetValidator (gr_ValidatorID att)) as [pk|] eqn:Hpk; [|split_and!; [by frame|by apply delete_mark|done]].
  destruct (negb _); [split_and!; [by frame|by apply delete_mark|done]|].
  pose proof (Verify_ok now (c_crypto c) (GenesisReady_SignBytes att) (sig_Bytes (gr_Signature att)) pk old (inv_crypto _ Hc)) as Hok.
  pose proof (Verify_signed now (c_crypto c) _ pk (GenesisReady_SignBytes att) (sig_Bytes (gr_Signature att)) old (inv_crypto _ Hc) (keys _ _ Hpk)) as Hs.
  change (c_crypto (recordReadyEvent _ _ _ _)) with (c_crypto c).
  destruct (VerifyWithContext now (c_crypto c) _ _ pk old) as [ok cr]; cbn [fst snd] in *. destruct ok; cbn [negb].
  - assert (Ha : attested cf att) by (do 3 (split; [done|]); eauto).
    split_and!; [|by apply delete_mark|done]. unfold inv. rewrite record_core.
    apply inv_insert; [|done]. unfold inv. rewrite unmark_core. apply inv_set_crypto; [by frame|done].
  - split_and!; [|by apply delete_mark|done]. unfold inv. rewrite record_core, unmark_core. apply inv_set_crypto; [by frame|done].
Qed.

Lemma check_attestations_ok now old l : forall seen c, inv c ->
  let '(r, c') := check_attestations now old seen l c in
  inv c' /\ verifying c' = verifying c /\
  (r = Ok tt -> NoDup (gr_ValidatorID <$> l) /\ Forall (fun a => gr_ValidatorID a ∉ seen) l /\
    Forall (fun a => attested cf a \/ verifying c !! gr_ValidatorID a = Some (GenesisReady_Hash a)) l).
Proof.
  induction l as [|a l IH]; intros seen c Hc; cbn [check_attestations].
  { split_and!; [done..|]. intros _. split_and!; constructor. }
  destruct (IsValidator (gr_ValidatorID a)) eqn:Hv; [|done]. cbn [negb].
  case_bool_decide as Hseen; [done|].
  destruct (negb (bool_decide (ConfigHash a = _))) eqn:Hcfg; [done|].
  destruct (negb (bool_decide (PeerHash a = _))) eqn:Hpeer; [done|]. go_bool.
  destruct (negb old && _); [done|].
  assert (H2 := Hc). destruct H2 as (_ & [H2c H2p] & _). rewrite H2c in Hcfg. rewrite H2p in Hpeer.
  assert (Hnext : forall c1, inv c1 -> verifying c1 = verifying c ->
    attested cf a \/ verifying c !! gr_ValidatorID a = Some (GenesisReady_Hash a) ->
    let '(r, c') := check_attestations now old ({[gr_ValidatorID a]} ∪ seen) l c1 in
    inv c' /\ verifying c' = verifying c /\
    (r = Ok tt -> NoDup (gr_ValidatorID <$> a :: l) /\ Forall (fun a => gr_ValidatorID a ∉ seen) (a :: l) /\
      Forall (fun a => attested cf a \/ verifying c !! gr_ValidatorID a = Some (GenesisReady_Hash a)) (a :: l))).
  { intros c1 Hc1 Hver Ha. specialize (IH ({[gr_ValidatorID a]} ∪ seen) c1 Hc1).
    destruct (check_attestations _ _ _ l c1) as [r c']. destruct IH as (Hc' & Hv' & IH).
    split_and!; [done|congruence|]. intros Hr. destruct (IH Hr) as (Hnd & Hnew & Hatt). rewrite Hver in Hatt.
    split_and!; [|constructor; [done|]; eapply Forall_impl; [exact Hnew|]; set_solver|by constructor].
    rewrite fmap_cons. constructor; [|done]. intros (b & Hb & Hin)%list_elem_of_fmap.
    rewrite Forall_forall in Hnew. specialize (Hnew b Hin). set_solver. }
  destruct (match attestations c !! gr_ValidatorID a with Some _ => _ | None => _ end) eqn:Hknown.
  { destruct (attestations c !! gr_ValidatorID a) as [ex|] eqn:Hex; [|done]. apply bool_decide_eq_true in Hknown.
    apply Hnext; [by frame|done|]. left. destruct (inv_att _ _ _ Hc Hex) as (Hid & _ & _ & _ & m & Hs & Hm).
    do 3 (split; [done|]). exists m. rewrite <- Hid. by rewrite Hm. }
  destruct (verifying c !! gr_ValidatorID a) as [inflight|] eqn:Hin.
  { case_bool_decide as Hsame; [|split_and!; [by frame|done..]]. apply Hnext; [by frame|done|]. right. by rewrite Hsame. }
  pose proof (verify_attestation_ok now old a c Hc Hv Hcfg Hpeer Hin) as Hver.
  destruct (verify_attestation now old a c) as [[[]|e] c1]; destruct Hver as (Hc1 & Hver & Ha).
  - apply Hnext; [done|done|left; by apply Ha].
  - done.
Qed.

Lemma validateCertificate_ok now old cert c : inv c ->
  let '(r, c') := validateCertificate now cert old c in
  inv c' /\ verifying c' = verifying c /\
  (r = Ok tt -> verifying c = ∅ -> quorum_certificate cf q cert).
Proof.
  intros Hc. unfold validateCertificate.
  assert (Hagg : forall (b : bool) a c, inv c -> inv (if b then set_aggregator a c else c) /\
    verifying (if b then set_aggregator a c else c) = verifying c).
  { intros [] a c1 Hc1; [|done]. split; [by frame|done]. }
  destruct (Hagg (bool_decide (aggregator c = zero32)) (gc_Aggregator cert) c Hc) as [Hc1 Hv1]. revert Hc1 Hv1.
  generalize (if bool_decide (aggregator c = zero32) then set_aggregator (gc_Aggregator cert) c else c) as c1. intros c1 Hc1 Hv1.
  destruct (_ && negb old); [done|].
  destruct (Hagg (negb (bool_decide (gc_Aggregator cert = aggregator c1))) (gc_Aggregator cert) c1 Hc1) as [Hc2 Hv2]. revert Hc2 Hv2.
  generalize (if negb (bool_decide (gc_Aggregator cert = aggregator c1)) then set_aggregator (gc_Aggregator cert) c1 else c1) as c2.
  intros c2 Hc2 Hv2. destruct (Z.ltb_spec (len (Attestations cert)) (requirement c2)) as [Hl|Hl]; [by split_and!; [|congruence|]|].
  destruct (negb old && _); [by split_and!; [|congruence|]|].
  pose proof (check_attestations_ok now old (Attestations cert) ∅ c2 Hc2) as Hcheck.
  destruct (check_attestations _ _ _ _ c2) as [r c3]. destruct Hcheck as (Hc3 & Hv3 & Hcheck).
  split_and!; [done|congruence|]. intros Hr Hidle. destruct (Hcheck Hr) as (Hnd & _ & Hall).
  destruct Hc2 as (_ & _ & Hq & _). split_and!; [by rewrite <- Hq|done|].
  eapply Forall_impl; [exact Hall|]. intros a [Ha|Ha]; [done|]. by rewrite Hv2, Hv1, Hidle in Ha.
Qed.

Lemma setCertificate_verifying now disk_ok cert c : verifying (setCertificate now disk_ok cert c) = verifying c.
Proof.
  unfold setCertificate. destruct (certificateOnce c); [done|].
  assert (Hm : forall A (f : A -> ValidatorID) l c, verifying (foldl (fun c a => emit (MarkValidatorReady (f a)) c) c l) = verifying c).
  { intros A f l. induction l as [|a l IH]; intros c1; [done|]. cbn [foldl]. by rewrite IH. }
  cbn [verifying emit set_world]. rewrite (Hm _ (fun id => id)), Hm. unfold persistCertificate. cbn.
  destruct (c_backend c) as [b|]; [|by destruct (_ && _)].
  destruct (cbor_Marshal cert); [|done]. destruct (SaveGenesisCertificate b _) as [[] b']; [|done]. by destruct (_ && _).
Qed.

(** With nothing in flight, or when nothing is asked of the certificate. *)
Lemma OnGenesisCertificate_ok now disk_ok cert c :
  (verifying c = ∅ \/ forall x, G x) -> inv c ->
  inv (OnGenesisCertificate now disk_ok cert c) /\ verifying (OnGenesisCertificate now disk_ok cert c) = verifying c.
Proof.
  intros Hg Hc. unfold OnGenesisCertificate. destruct (completed c); [done|].
  pose proof (validateCertificate_ok now false cert c Hc) as H.
  destruct (validateCertificate now cert false c) as [[[]|e] c1]; destruct H as (Hc1 & Hv1 & Hcert); [|done].
  split; [|by rewrite setCertificate_verifying]. apply inv_setCertificate; [done|].
  destruct Hg as [Hidle|Hg]; [|apply Hg]. apply built. by apply Hcert.
Qed.

(** *** Attestations *)

Lemma keyed c : inv c -> map_Forall (fun id r => gr_ValidatorID r = id) (attestations c).
Proof. intros Hc id r Hr. by destruct (inv_att _ _ _ Hc Hr). Qed.

Lemma built_certificate now c cert c' :
  inv c -> checkQuorumLocked localID Sign range now c = (Some cert, c') -> quorum_certificate cf q cert.
Proof.
  intros Hc H. apply checkQuorumLocked_inv in H as (_ & _ & Hn & Hatt & _); [|by apply keyed].
  unfold quorum_certificate. rewrite Hatt. split_and!.
  - destruct Hc as (_ & _ & Hq & _). unfold len. rewrite collected_perm, length_fmap, length_map_to_list. lia.
  - unfold collected. rewrite stable_sort_perm. apply visited_distinct. by apply keyed.
  - apply Forall_forall. intros r Hr. rewrite collected_perm in Hr.
    apply list_elem_of_fmap in Hr as ([id r'] & -> & Hr). apply elem_of_map_to_list in Hr. by destruct (inv_att _ _ _ Hc Hr).
Qed.

(** What the checks before the signature leave to be shown. *)
Definition screened (r : GenesisReady) : Prop :=
  IsValidator (gr_ValidatorID r) = true /\ ConfigHash r = c_ConfigHash cf /\ PeerHash r = c_PeerHash cf.

Lemma ready_begin_ok now r c : inv c ->
  let '(go, c') := ready_begin now r c in
  inv c' /\
  (if go : bool then screened r /\ verifying c !! gr_ValidatorID r = None /\ verifying c' = <[gr_ValidatorID r := GenesisReady_Hash r]> (verifying c)
   else verifying c' = verifying c).
Proof.
  intros Hc. unfold ready_begin.
  assert (H : forall c1, inv c1 -> verifying c1 = verifying c -> IsValidator (gr_ValidatorID r) = true ->
    let '(go, c') := ready_checks now r c1 in inv c' /\
    (if go : bool then screened r /\ verifying c !! gr_ValidatorID r = None /\ verifying c' = <[gr_ValidatorID r := GenesisReady_Hash r]> (verifying c)
     else verifying c' = verifying c)).
  { intros c1 Hc1 Hv1 Hmem. unfold ready_checks. rewrite Hv1. destruct (verifying c !! _) eqn:Hin; [by split; [frame|]|].
    destruct (negb (bool_decide (ConfigHash r = _))) eqn:Hcfg; [by split; [frame|]|].
    destruct (negb (bool_decide (PeerHash r = _))) eqn:Hpeer; [by split; [frame|]|]. go_bool.
    destruct (skewed _ _ _); [by split; [frame|]|].
    pose proof Hc1 as (_ & [H1 H2] & _). rewrite H1 in Hcfg. rewrite H2 in Hpeer.
    split_and!; [by frame|by repeat split|done|done]. }
  destruct (IsValidator (gr_ValidatorID r)); cbn [negb]; [|by split; [frame|]].
  change (attestations (recordReadyEvent _ _ _ _)) with (attestations c).
  destruct (attestations c !! gr_ValidatorID r) as [ex|]; [|apply H; [by frame|done..]].
  destruct (bool_decide _); [by split; [frame|]|]. destruct (negb (After _ _)); [by split; [frame|]|].
  apply H; [|done..]. apply (inv_delete (recordReadyEvent _ _ _ _)). by frame.
Qed.

Lemma ready_verified_ok now disk_ok r c : inv c -> attested cf r ->
  inv (ready_verified localID Sign range now disk_ok r c) /\ verifying (ready_verified localID Sign range now disk_ok r c) = verifying c.
Proof.
  intros Hc Hr. unfold ready_verified. destruct (completed c).
  { split; [by frame|]. unfold maybeRelayCertificate. destruct (certificate c); [|done]. by destruct (_ && _). }
  destruct (attestations c !! gr_ValidatorID r); [split; [by frame|done]|].
  set (c1 := emit _ _). assert (Hc1 : inv c1).
  { subst c1. unfold inv. rewrite mark_core, record_core. by apply inv_insert. }
  assert (Hv1 : verifying c1 = verifying c) by done. clearbody c1.
  pose proof (checkQuorumLocked_frame localID Sign range now c1) as [Hcore Hv].
  destruct (checkQuorumLocked _ _ _ now c1) as [[cert|] c2] eqn:Hquorum; cbn [snd] in Hcore, Hv.
  - split; [|rewrite setCertificate_verifying; cbn; congruence]. apply inv_setCertificate; [|].
    + unfold inv. rewrite publish_core, Hcore. done.
    + apply built. by eapply built_certificate.
  - split; [unfold inv; by rewrite Hcore|congruence].
Qed.

Lemma ready_end_ok now disk_ok r c : inv c -> screened r ->
  inv (ready_end localID Sign range now disk_ok r c) /\
  verifying (ready_end localID Sign range now disk_ok r c) = delete (gr_ValidatorID r) (verifying c).
Proof.
  intros Hc (Hv & Hcfg & Hpeer). unfold ready_end.
  enough (forall c', inv c' /\ verifying c' = verifying c -> inv (unmark (gr_ValidatorID r) c') /\
    verifying (unmark (gr_ValidatorID r) c') = delete (gr_ValidatorID r) (verifying c)) as Hun.
  { apply Hun. destruct (GetValidator _) as [pk|] eqn:Hpk; [|by split; [frame|]].
    destruct (negb (bool_decide _)); [by split; [frame|]|].
    pose proof (Verify_ok now (c_crypto c) (GenesisReady_SignBytes r) (sig_Bytes (gr_Signature r)) pk false (inv_crypto _ Hc)) as Hok.
    pose proof (Verify_signed now (c_crypto c) _ pk (GenesisReady_SignBytes r) (sig_Bytes (gr_Signature r)) false (inv_crypto _ Hc) (keys _ _ Hpk)) as Hs.
    destruct (VerifyWithContext now (c_crypto c) _ _ pk false) as [ok cr]; cbn [fst snd] in *.
    assert (Hc1 : inv (set_crypto cr c)) by by apply inv_set_crypto.
    destruct ok; cbn [negb]; [|by split; [frame|]].
    destruct (ready_verified_ok now disk_ok r _ Hc1) as [H1 H2]; [|by split; [|rewrite H2]].
    do 3 (split; [done|]). eauto. }
  intros c' [Hc' Hv']. split; [by frame|]. cbn. by rewrite Hv'.
Qed.

Lemma OnGenesisReady_ok now disk_ok r c : inv c ->
  inv (OnGenesisReady localID Sign range now disk_ok r c) /\ verifying (OnGenesisReady localID Sign range now disk_ok r c) = verifying c.
Proof.
  intros Hc. unfold OnGenesisReady. pose proof (ready_begin_ok now r c Hc) as H.
  destruct (ready_begin now r c) as [[] c1]; [|done]. destruct H as (Hc1 & Hr & Hin & Hv1).
  destruct (ready_end_ok now disk_ok r c1 Hc1 Hr) as [H1 H2]. split; [done|]. rewrite H2, Hv1. by apply delete_mark.
Qed.

(** *** The local attestation, and the start *)

Lemma issueLocalReady_ok now nonce c : inv c ->
  inv (issueLocalReady localID Sign now nonce c).2 /\ verifying (issueLocalReady localID Sign now nonce c).2 = verifying c.
Proof.
  intros Hc. unfold issueLocalReady, buildLocalReady.
  destruct (Sign now _) as [sg|] eqn:Hsg; [|done]. cbn [snd]. split; [|done].
  set (r := MkGenesisReady localID now (c_ConfigHash (cfg c)) (c_PeerHash (cfg c)) nonce (MkSig sg localID now)).
  assert (Hs : signed localID (GenesisReady_SignBytes r)) by exact (honest _ _ _ Hsg).
  unfold recordLocalReady, inv. rewrite mark_core, record_core.
  set (c1 := resetRebroadcastState _ _).
  assert (Hc1 : inv c1).
  { subst c1. unfold resetRebroadcastState, inv. by rewrite rebroadcast_core, localReady_core, record_core. }
  apply (inv_insert _ r Hc1). destruct Hc as (_ & [H1 H2] & _). do 3 (split; [done|]). eauto.
Qed.

Lemma rebroadcast_tick_ok now nonce pub_ok c : inv c ->
  inv (rebroadcast_tick localID Sign now nonce pub_ok c) /\ verifying (rebroadcast_tick localID Sign now nonce pub_ok c) = verifying c.
Proof.
  intros Hc. unfold rebroadcast_tick. pose proof (interval_core c) as Hi.
  assert (Hvi : verifying (rebroadcastInterval c).2 = verifying c) by (unfold rebroadcastInterval; by destruct (_ <=? _)).
  destruct (rebroadcastInterval c) as [? c1]. cbn [snd] in *. assert (Hc1 : inv c1) by (unfold inv; by rewrite Hi).
  destruct (completed c1); [done|]. destruct (localReady c1) as [r|]; [|done].
  set (x := if _ && _ then _ else _). assert (Hx : inv x.2 /\ verifying x.2 = verifying c).
  { subst x. rewrite <- Hvi. destruct (_ && _); [by apply issueLocalReady_ok|done]. }
  destruct x as [[r'|] c2]; cbn [snd] in Hx; [|done]. destruct Hx as [H1 H2].
  destruct pub_ok; [|by split; [frame|]]. split; [|done]. unfold noteRebroadcast. by frame.
Qed.

Lemma broadcastReady_ok now nonce pub_ok c : inv c ->
  inv (broadcastReady localID Sign now nonce pub_ok c).2 /\ verifying (broadcastReady localID Sign now nonce pub_ok c).2 = verifying c.
Proof.
  intros Hc. unfold broadcastReady. pose proof (issueLocalReady_ok now nonce c Hc) as [H1 H2].
  destruct (issueLocalReady _ _ now nonce c) as [[r|] c1]; cbn [snd] in *; [|done]. by split; [frame|].
Qed.

Lemma applyRestoredCertificate_ok now disk_ok pub_ok cert c : inv c -> quorum_certificate cf q cert ->
  inv (applyRestoredCertificate localID now disk_ok pub_ok cert c) /\
  verifying (applyRestoredCertificate localID now disk_ok pub_ok cert c) = verifying c.
Proof.
  intros Hc Hcert. unfold applyRestoredCertificate.
  set (c1 := foldl _ _ _). assert (Hc1 : inv c1 /\ verifying c1 = verifying c).
  { subst c1. apply foldl_invariant; [split; [|done]; by apply inv_set_attestations; [|apply map_Forall_empty]|].
    intros c1 a Ha [Hc1 Hv1]. destruct Hcert as (_ & _ & Hall). rewrite Forall_forall in Hall.
    assert (Hi : inv (emit (MarkValidatorReady (gr_ValidatorID a)) (set_attestations (<[gr_ValidatorID a := a]> (attestations c1)) c1))).
    { unfold inv. rewrite mark_core. apply inv_insert; [done|by apply Hall]. }
    cbv zeta. destruct (bool_decide _); [|done]. split; [unfold inv; by rewrite localReady_core|done]. }
  destruct Hc1 as [Hc1 Hv1]. clearbody c1.
  assert (Hc2 : inv (setCertificate now disk_ok cert c1)) by (apply inv_setCertificate; auto).
  pose proof (setCertificate_verifying now disk_ok cert c1) as Hv2. rewrite Hv1 in Hv2. revert Hc2 Hv2.
  generalize (setCertificate now disk_ok cert c1) as c2. intros c2 Hc2 Hv2.
  set (c3 := match localReady c2 with Some _ => _ | None => _ end). assert (Hc3 : inv c3 /\ verifying c3 = verifying c).
  { subst c3. destruct (localReady c2); [|done]. destruct pub_ok; (split; [|done]); unfold resetRebroadcastState; by frame. }
  destruct Hc3 as [Hc3 Hv3]. clearbody c3. destruct (bool_decide _); [by split; [frame|]|done].
Qed.

Lemma restore_ok now disk_ok pub_ok removed c : inv c -> verifying c = ∅ ->
  (inv (restoreFromDatabase localID now disk_ok pub_ok c).2 /\ verifying (restoreFromDatabase localID now disk_ok pub_ok c).2 = ∅) /\
  (inv (restoreFromDisk localID now disk_ok pub_ok removed c).2 /\ verifying (restoreFromDisk localID now disk_ok pub_ok removed c).2 = ∅).
Proof.
  intros Hc Hv.
  assert (H : forall cert, let '(r, c') := validateCertificate now cert true c in
    inv c' /\ verifying c' = ∅ /\ (r = Ok tt -> inv (applyRestoredCertificate localID now disk_ok pub_ok cert c') /\
      verifying (applyRestoredCertificate localID now disk_ok pub_ok cert c') = ∅)).
  { intros cert. pose proof (validateCertificate_ok now true cert c Hc) as Hval.
    destruct (validateCertificate now cert true c) as [r c1]. destruct Hval as (Hc1 & Hv1 & Hval).
    split_and!; [done|congruence|]. intros Hr.
    destruct (applyRestoredCertificate_ok now disk_ok pub_ok cert c1 Hc1 (Hval Hr Hv)) as [H1 H2]. split; [done|congruence]. }
  split.
  - unfold restoreFromDatabase. destruct (c_backend c) as [b|]; [|done].
    destruct (LoadGenesisCertificate b) as [[[|x data]|]|]; [done| |done..].
    destruct (cbor_Unmarshal (x :: data)) as [cert|]; [|done]. specialize (H cert).
    destruct (validateCertificate now cert true c) as [[[]|e] c1]; destruct H as (Hc1 & Hv1 & H); [by apply H|].
    split; [by frame|done].
  - unfold restoreFromDisk. destruct (negb _); [done|]. destruct (c_file c) as [| | |[cert|]]; try done. specialize (H cert).
    destruct (validateCertificate now cert true c) as [[[]|e] c1]; destruct H as (Hc1 & Hv1 & H); [by apply H|].
    destruct removed; (split; [by frame|done]).
Qed.

Lemma Start_ok e c agg : GetLeaderForView 0 = Some agg -> required_quorum (cfg c) = Ok q -> startOnce c = false ->
  inv (set_requirement agg q c) -> verifying c = ∅ -> inv (Start localID Sign e c).2 /\ verifying (Start localID Sign e c).2 = ∅.
Proof.
  intros Hagg Hq Hst Hinv Hv0. unfold Start. rewrite Hst. unfold initialize. rewrite Hagg.
  change (cfg (set_started true (discardCount c) c)) with (cfg c). rewrite Hq.
  set (c' := set_requirement agg q _). assert (Hc : inv c' /\ verifying c' = ∅) by done.
  clear Hinv Hv0 Hst Hq. destruct Hc as [Hc Hv]. clearbody c'.
  destruct (restore_ok (st_now e) (st_disk e) (st_pub e) (st_removed e) c' Hc Hv) as [[H1 Hv1] _].
  destruct (restoreFromDatabase _ _ _ _ c') as [[] c1]; cbn [snd] in *; [done|].
  destruct (restore_ok (st_now e) (st_disk e) (st_pub e) (st_removed e) c1 H1 Hv1) as [_ [H2 Hv2]].
  destruct (restoreFromDisk _ _ _ _ _ c1) as [[] c2]; cbn [snd] in *; [done|].
  destruct (broadcastReady_ok (st_now e) (st_nonce e) (st_pub e) c2 H2) as [H3 Hv3]. split; [done|congruence].
Qed.

Lemma new_ok cr backend file agg : crypto_ok cr -> inv (set_requirement agg q (NewCoordinator cf cr backend file)).
Proof. intros Hcr. unfold inv, core_ok, core, activations. cbn. by split_and!. Qed.

Lemma handle_ok h s : (forall x, G x) \/ (verifying s.2 = ∅ /\ whole h = true) -> inv s.2 -> Forall screened s.1 ->
  inv (handle localID Sign range s h).2 /\ Forall screened (handle localID Sign range s h).1 /\
  (whole h = true -> verifying (handle localID Sign range s h).2 = verifying s.2).
Proof.
  destruct s as [pending c]. cbn [fst snd]. intros Hg Hc Hp. destruct h as [now d r|now r|now d i|now d cert|now nonce b]; cbn [handle].
  - destruct (OnGenesisReady_ok now d r c Hc). done.
  - pose proof (ready_begin_ok now r c Hc) as H. destruct (ready_begin now r c) as [[] c1]; destruct H as [Hc1 H].
    + split_and!; [done| |done]. apply Forall_app. split; [done|]. apply Forall_singleton. by destruct H.
    + done.
  - destruct (pending !! i) as [r|] eqn:Hr; [|done]. rewrite Forall_lookup in Hp.
    destruct (ready_end_ok now d r c Hc (Hp _ _ Hr)) as [H1 H2]. split_and!; [done| |done].
    cbn [fst]. apply Forall_delete. by apply Forall_lookup.
  - destruct (OnGenesisCertificate_ok now d cert c) as [H1 H2]; [|done|done]. destruct Hg as [Hg|[Hv _]]; [by right|by left].
  - destruct (rebroadcast_tick_ok now nonce b c Hc). done.
Qed.
End invariant.

(** ** Before the start *)

Section early.
Context {CS : CryptoService} {CL : CryptoLaws} {GS : GenesisStore} {VS : ValidatorSet} {VK : ValidatorKeys}.
Context (localID : ValidatorID) (Sign : Time -> bytes -> option bytes) (range : visit_order ValidatorID GenesisReady).

(** Without a start a coordinator knows no aggregator and builds no certificate. *)
Definition unstarted (cf : Config) (c : Coordinator) : Prop :=
  cfg c = genesis_config cf /\ aggregator c = zero32 /\ certificate c = None /\ startOnce c = false.

Lemma early_ready cf now d r c : localID <> zero32 -> unstarted cf c -> unstarted cf (OnGenesisReady localID Sign range now d r c).
Proof.
  intros Hid (H1 & H2 & H3 & H4). unfold OnGenesisReady, ready_begin, ready_checks, unstarted.
  assert (Hq : forall c', aggregator c' = zero32 -> checkQuorumLocked localID Sign range now c' = (None, c')).
  { intros c' Hc'. unfold checkQuorumLocked. rewrite Hc', (bool_decide_eq_false_2 (zero32 = localID)) by congruence. by rewrite orb_true_r. }
  assert (Hverified : forall c', unstarted cf c' -> unstarted cf (ready_verified localID Sign range now d r c')).
  { intros c' (G1 & G2 & G3 & G4). unfold ready_verified. destruct (completed c').
    { unfold maybeRelayCertificate. cbn [certificate recordReadyEvent emit]. rewrite G3. done. }
    destruct (attestations c' !! _); [done|]. cbv zeta. by rewrite Hq. }
  assert (Hend : forall c', unstarted cf c' -> unstarted cf (ready_end localID Sign range now d r c')).
  { intros c' Hc'. unfold ready_end. cbv zeta. enough (H : forall x, unstarted cf x -> unstarted cf (unmark (gr_ValidatorID r) x)).
    { apply H. destruct (GetValidator _); [|exact Hc']. destruct (negb _); [exact Hc'|].
      destruct (VerifyWithContext _ _ _ _ _ _) as [[] cr]; cbn [negb]; [|exact Hc']. by apply Hverified. }
    done. }
  repeat case_match; simplify_eq; try done; by apply Hend.
Qed.

Lemma early_tick cf now nonce b c : unstarted cf c -> unstarted cf (rebroadcast_tick localID Sign now nonce b c).
Proof.
  intros (H1 & H2 & H3 & H4). unfold rebroadcast_tick, rebroadcastInterval, issueLocalReady, buildLocalReady, recordLocalReady.
  by repeat (case_match; simplify_eq/=).
Qed.
End early.

(** ** Soundness *)

Section theorems.
Context {CS : CryptoService} {CL : CryptoLaws} {GS : GenesisStore} {VS : ValidatorSet} {VK : ValidatorKeys}.
Context (localID : ValidatorID) (Sign : Time -> bytes -> option bytes) (range : visit_order ValidatorID GenesisReady).

Lemma requirement_ok cf q q' G G' agg c : inv cf q G c -> certificate c = None -> inv cf q' G' (set_requirement agg q' c).
Proof.
  intros (H1 & H2 & H3 & H4 & H5 & H6 & H7 & _) Hc. do 2 (split; [done|]). split; [done|]. split; [done|]. cbn.
  split; [done|]. split; [done|]. split; [done|]. rewrite Hc. done.
Qed.

(** What attestations and ticks before the start leave. *)
Lemma before_start_ok cf cr backend file early agg q :
  crypto_ok cr -> (forall id pk, GetValidator id = Some pk -> key_of id pk) ->
  (forall now m sg, Sign now m = Some sg -> signed localID m) -> IsValidator localID = true -> localID <> zero32 ->
  Forall (fun h => no_certificate h = true) early ->
  let c := (foldl (handle localID Sign range) ([], NewCoordinator cf cr backend file) early).2 in
  unstarted cf c /\ verifying c = ∅ /\ forall G, inv cf q G (set_requirement agg q c).
Proof.
  intros Hcr Hkeys Hhonest Hmem Hid Hearly.
  assert (H : let s := foldl (handle localID Sign range) ([], NewCoordinator cf cr backend file) early in
    unstarted cf s.2 /\ inv cf 0 (quorum_certificate cf 0) s.2 /\ verifying s.2 = ∅ /\ s.1 = []).
  { cbv zeta. rewrite Forall_forall in Hearly. apply foldl_invariant; [split_and!; try done; by unfold inv, core_ok, core, activations; cbn; split_and!|].
    intros s h Hh (H1 & H2 & H3 & H4). specialize (Hearly h Hh).
    destruct (handle_ok localID Sign range cf 0 (quorum_certificate cf 0) Hkeys Hhonest Hmem (fun _ => id) h s) as (H5 & _ & H6);
      [by right; destruct h|done|by rewrite H4|]. rewrite H6 by (by destruct h).
    destruct s as [pending c]. cbn [fst snd] in *. subst pending. destruct h; try done; cbn [handle fst snd] in *; split_and!; try done.
    - by apply early_ready.
    - by apply early_tick. }
  cbv zeta in H |- *. destruct H as (H1 & H2 & H3 & _). split_and!; [done..|]. intros G. apply (requirement_ok cf 0 q (quorum_certificate cf 0)); [done|apply H1].
Qed.

(** C30. Consensus is started at most once, with the certificate that completes the ceremony.
    While no handler interleaves with a verification, and as long as only attestations and
    timers came before a start that finds the leader of view 0 and the quorum, the
    certificate has the required number of attestations, of distinct validators, to the
    node's own configuration and peers, each signed by its validator; the persisted
    certificate and file are arbitrary. *)
Theorem ceremony_sound early cf cr backend file e hs agg q :
  crypto_ok cr -> (forall id pk, GetValidator id = Some pk -> key_of id pk) ->
  (forall now m sg, Sign now m = Some sg -> signed localID m) -> IsValidator localID = true -> localID <> zero32 ->
  GetLeaderForView 0 = Some agg -> required_quorum cf = Ok q ->
  Forall (fun h => no_certificate h = true) early -> Forall (fun h => whole h = true) hs ->
  let c := (ceremony_after localID Sign range early cf cr backend file e hs).2 in
  activations c = option_list (certificate c) /\ completed c = bool_decide (is_Some (certificate c)) /\
  forall cert, certificate c = Some cert -> quorum_certificate cf q cert.
Proof.
  intros Hcr Hkeys Hhonest Hmem Hid Hagg Hq Hearly Hwhole c. subst c. unfold ceremony_after.
  destruct (before_start_ok cf cr backend file early agg q Hcr Hkeys Hhonest Hmem Hid Hearly) as ((Hcfg & _ & _ & Hst) & Hv & Hinv).
  pose proof (Start_ok localID Sign cf q (quorum_certificate cf q) Hkeys Hhonest Hmem (fun _ => id) e _ agg Hagg
    ltac:(rewrite Hcfg; exact Hq) Hst (Hinv _) Hv) as [H0 Hv0].
  set (c0 := (Start localID Sign e _).2) in *.
  assert (H : let s := foldl (handle localID Sign range) ([], c0) hs in
    inv cf q (quorum_certificate cf q) s.2 /\ Forall (screened cf) s.1 /\ verifying s.2 = ∅).
  { cbv zeta. rewrite Forall_forall in Hwhole. apply foldl_invariant; [by split_and!; [|constructor|]|].
    intros s h Hh (H1 & H2 & H3). specialize (Hwhole h Hh).
    destruct (handle_ok localID Sign range cf q (quorum_certificate cf q) Hkeys Hhonest Hmem (fun _ => id) h s) as (H4 & H5 & H6); [by right|done..|].
    split_and!; [done..|]. by rewrite H6. }
  destruct H as [(_ & _ & _ & _ & Hd & _ & Ha & Hg) _]. split_and!; [done|done|]. apply Hg.
Qed.

(** However handlers and verifications interleave after the start, every attestation a
    coordinator counts is its validator's, signed, to the node's configuration and peers,
    and consensus is started at most once. *)
Theorem attestations_genuine cf cr backend file e hs agg q :
  crypto_ok cr -> (forall id pk, GetValidator id = Some pk -> key_of id pk) ->
  (forall now m sg, Sign now m = Some sg -> signed localID m) -> IsValidator localID = true ->
  GetLeaderForView 0 = Some agg -> required_quorum cf = Ok q ->
  let c := (ceremony localID Sign range cf cr backend file e hs).2 in
  map_Forall (fun id r => gr_ValidatorID r = id /\ attested cf r) (attestations c) /\
  activations c = option_list (certificate c).
Proof.
  intros Hcr Hkeys Hhonest Hmem Hagg Hq c. subst c. unfold ceremony.
  pose proof (Start_ok localID Sign cf q (fun _ => True) Hkeys Hhonest Hmem (fun _ _ => I) e (NewCoordinator cf cr backend file) agg Hagg Hq eq_refl
    (new_ok cf q (fun _ => True) cr backend file agg Hcr) eq_refl) as [H0 _].
  assert (H : let s := foldl (handle localID Sign range) ([], (Start localID Sign e (NewCoordinator cf cr backend file)).2) hs in
    inv cf q (fun _ => True) s.2 /\ Forall (screened cf) s.1).
  { cbv zeta. apply foldl_invariant; [by split|]. intros s h Hh [H1 H2].
    destruct (handle_ok localID Sign range cf q (fun _ => True) Hkeys Hhonest Hmem (fun _ _ => I) h s) as (H3 & H4 & _); [by left|done..]. }
  destruct H as [(_ & _ & _ & Hatt & _ & _ & Ha & _) _]. done.
Qed.
End theorems.

(** ** Completion *)

Section completion.
Context {CS : CryptoService} {GS : GenesisStore} {VS : ValidatorSet} {VK : ValidatorKeys}.
Context (localID : ValidatorID) (Sign : Time -> bytes -> option bytes) (range : visit_order ValidatorID GenesisReady).

(** An attestation that passes the checks before the signature. *)
Definition acceptable (cf : Config) (now : Time) (r : GenesisReady) : Prop :=
  IsValidator (gr_ValidatorID r) = true /\ ConfigHash r = c_ConfigHash cf /\ PeerHash r = c_PeerHash cf /\
  skewed (GenesisClockSkewTolerance (genesis_config cf)) now (gr_Timestamp r) = false /\
  KeyID (gr_Signature r) = gr_ValidatorID r.

(** The service accepts these signatures when it sees them in this order. *)
Fixpoint verified (now : Time) (l : list GenesisReady) (cr : crypto) : Prop :=
  match l with
  | [] => True
  | r :: l =>
      exists pk, GetValidator (gr_ValidatorID r) = Some pk /\
      let '(ok, cr) := VerifyWithContext now cr (GenesisReady_SignBytes r) (sig_Bytes (gr_Signature r)) pk false in
      ok = true /\ verified now l cr
  end.

Lemma tolerance_config cf c : cfg c = genesis_config cf -> tolerance c = GenesisClockSkewTolerance (genesis_config cf).
Proof.
  intros Hc. unfold tolerance. rewrite Hc. cbn [GenesisClockSkewTolerance genesis_config].
  destruct (Z.leb_spec (GenesisClockSkewTolerance cf) 0); [done|]. by destruct (Z.leb_spec (GenesisClockSkewTolerance cf) 0); [lia|].
Qed.

(** An aggregator short of its quorum, which holds the attestations of [ids]. *)
Definition waiting (cf : Config) (q : Z) (ids : gset ValidatorID) (c : Coordinator) : Prop :=
  cfg c = genesis_config cf /\ verifying c = ∅ /\ completed c = false /\ certificateBroadcast c = false /\ certificateOnce c = false /\
  aggregator c = localID /\ requirement c = q /\ dom (attestations c) = ids.

Lemma setCertificate_done now disk_ok cert c :
  certificateOnce c = false ->
  completed (setCertificate now disk_ok cert c) = true /\ certificate (setCertificate now disk_ok cert c) = Some cert.
Proof.
  intros Ho. unfold setCertificate. rewrite Ho.
  assert (H : forall A (f : A -> ValidatorID) l c, core (foldl (fun c a => emit (MarkValidatorReady (f a)) c) c l) = core c) by (intros; apply marks_core).
  set (c1 := foldl _ _ AllValidators). assert (Hc : core c1 = core (set_certificate (Some cert) (certificateBroadcast c) true true c)).
  { subst c1. rewrite (H _ (fun id => id)), H. apply persist_core. }
  unfold core in Hc. cbn in Hc. by injection Hc.
Qed.

Lemma OnGenesisReady_step cf q ids now d r c pk cr :
  (forall now m, is_Some (Sign now m)) -> waiting cf q ids c -> acceptable cf now r -> gr_ValidatorID r ∉ ids ->
  GetValidator (gr_ValidatorID r) = Some pk ->
  VerifyWithContext now (c_crypto c) (GenesisReady_SignBytes r) (sig_Bytes (gr_Signature r)) pk false = (true, cr) ->
  let c' := OnGenesisReady localID Sign range now d r c in
  if Z.of_nat (size ids) + 1 <? q then waiting cf q ({[gr_ValidatorID r]} ∪ ids) c' /\ c_crypto c' = cr
  else completed c' = true /\ is_Some (certificate c').
Proof.
  intros Hsign (Hcfg & Hver & Hcomp & Hbc & Honce & Hagg & Hreq & Hdom) (Hmem & Hch & Hph & Hsk & Hkey) Hnew Hpk Hv c'. subst c'.
  assert (Hnone : attestations c !! gr_ValidatorID r = None) by (apply not_elem_of_dom; by rewrite Hdom).
  set (h := GenesisReady_Hash r). set (id := gr_ValidatorID r) in *.
  set (c1 := set_verifying (<[id := h]> (verifying c)) (recordReadyEvent ReadyEventReceived id h c)).
  assert (Hbegin : ready_begin now r c = (true, c1)).
  { unfold ready_begin, ready_checks. fold id h. rewrite Hmem. cbn [negb].
    change (attestations (recordReadyEvent _ _ _ c)) with (attestations c). rewrite Hnone.
    change (verifying (recordReadyEvent _ _ _ c)) with (verifying c). rewrite Hver, lookup_empty.
    change (cfg (recordReadyEvent _ _ _ c)) with (cfg c). rewrite Hcfg.
    rewrite !bool_decide_eq_true_2 by (by rewrite ?Hch, ?Hph). cbn [negb].
    rewrite (tolerance_config cf) by done. rewrite Hsk. subst c1. by rewrite Hver. }
  unfold OnGenesisReady. rewrite Hbegin. unfold ready_end. fold id h. rewrite Hpk, bool_decide_eq_true_2 by done. cbn [negb].
  change (c_crypto c1) with (c_crypto c). rewrite Hv. cbn [negb]. unfold ready_verified. fold id h.
  change (completed (set_crypto cr c1)) with (completed c). rewrite Hcomp.
  change (attestations (set_crypto cr c1)) with (attestations c). rewrite Hnone.
  set (c2 := emit _ _). unfold checkQuorumLocked.
  change (completed c2) with (completed c). change (aggregator c2) with (aggregator c). change (certificateBroadcast c2) with (certificateBroadcast c).
  change (requirement c2) with (requirement c).
  rewrite Hcomp, Hagg, Hbc, Hreq, bool_decide_eq_true_2 by done. cbn [negb orb].
  assert (Hd2 : dom (attestations c2) = {[id]} ∪ ids) by (change (attestations c2) with (<[id := r]> (attestations c)); by rewrite dom_insert_L, Hdom).
  assert (Hsize : Z.of_nat (size (attestations c2)) = Z.of_nat (size ids) + 1).
  { rewrite <- size_dom, Hd2, size_union, size_singleton by set_solver. lia. }
  rewrite Hsize. destruct (Z.ltb_spec (Z.of_nat (size ids) + 1) q) as [Hl|Hl].
  { unfold waiting, unmark. cbn [verifying set_verifying]. change (verifying c2) with (<[id := h]> (verifying c)).
    rewrite delete_mark by (by rewrite Hver). by split_and!. }
  unfold buildCertificate. destruct ((range (attestations c2)).*2) as [|a att] eqn:Hatt.
  { exfalso. apply (f_equal length) in Hatt. rewrite length_fmap, visit_perm, length_map_to_list in Hatt.
    rewrite Hatt in Hsize. unfold length in Hsize. lia. }
  cbv zeta. generalize (prune_attestations ∅ (stable_sort (fun a b => lessValidator (gr_ValidatorID a) (gr_ValidatorID b)) (a :: att))).
  intros pruned. destruct (Hsign now (GenesisCertificate_SignBytes (MkGenesisCertificate pruned localID now (MkSig [] zero32 zero_time)))) as [sg Hsg].
  rewrite Hsg. set (cert := MkGenesisCertificate pruned localID now (MkSig sg localID now)).
  set (c3 := emit (PublishGenesisMessage _) _). assert (Ho : certificateOnce c3 = false) by exact Honce.
  destruct (setCertificate_done now d cert c3 Ho) as [H1 H2].
  split; [exact H1|]. exists cert. exact H2.
Qed.

(** Once completed the ceremony keeps its certificate. *)
Lemma OnGenesisReady_after now d r c : completed c = true ->
  completed (OnGenesisReady localID Sign range now d r c) = true /\ certificate (OnGenesisReady localID Sign range now d r c) = certificate c.
Proof.
  intros Hc. assert (Hb : completed (ready_begin now r c).2 = true /\ certificate (ready_begin now r c).2 = certificate c).
  { unfold ready_begin, ready_checks. repeat case_match; by split. }
  unfold OnGenesisReady. destruct (ready_begin now r c) as [[] c1]; cbn [snd] in Hb; [|done]. destruct Hb as [H1 <-].
  unfold ready_end. destruct (GetValidator _); [|by split]. destruct (negb _); [by split|].
  destruct (VerifyWithContext now _ _ _ _ false) as [[] cr]; cbn [negb]; [|by split].
  unfold ready_verified. change (completed (set_crypto cr c1)) with (completed c1). rewrite H1.
  pose proof (relayed_core now (gr_ValidatorID r) (certificate (set_crypto cr c1)) (set_crypto cr c1)) as Hr.
  unfold core in Hr. injection Hr as _ _ _ Hr1 Hr2 _ _ _. split; [by etransitivity|exact Hr1].
Qed.

(** Starting without a stored certificate. *)
Lemma Start_waiting cf q cr e :
  (forall now m, is_Some (Sign now m)) -> GetLeaderForView 0 = Some localID -> required_quorum cf = Ok q ->
  let c := (Start localID Sign e (NewCoordinator cf cr None NoFile)).2 in waiting cf q {[localID]} c /\ c_crypto c = cr.
Proof.
  intros Hsign Hagg Hq. unfold Start. cbn [startOnce NewCoordinator]. unfold initialize. rewrite Hagg.
  change (required_quorum _) with (required_quorum cf). rewrite Hq.
  set (c0 := set_requirement localID q _).
  assert (Hdb : restoreFromDatabase localID (st_now e) (st_disk e) (st_pub e) c0 = (false, c0)) by done.
  assert (Hdisk : restoreFromDisk localID (st_now e) (st_disk e) (st_pub e) (st_removed e) c0 = (false, c0)).
  { unfold restoreFromDisk. by destruct (negb _). }
  rewrite Hdb. rewrite Hdisk. unfold broadcastReady, issueLocalReady, buildLocalReady.
  destruct (Hsign (st_now e) (GenesisReady_SignBytes (MkGenesisReady localID (st_now e) (c_ConfigHash (cfg c0)) (c_PeerHash (cfg c0)) (st_nonce e) (MkSig [] zero32 zero_time)))) as [sg Hsg].
  rewrite Hsg. cbn [snd]. split; [|done]. unfold waiting. do 7 (split; [done|]).
  change (attestations (emit _ (recordLocalReady localID ?r c0))) with (<[localID := r]> (∅ : gmap ValidatorID GenesisReady)).
  rewrite dom_insert_L, dom_empty_L. set_solver.
Qed.

Lemma readies_complete cf q now d rs : forall ids c,
  (forall now m, is_Some (Sign now m)) ->
  (waiting cf q ids c /\ verified now rs (c_crypto c) /\ q <= Z.of_nat (size ids) + len rs /\ rs <> []) \/ (completed c = true /\ is_Some (certificate c)) ->
  NoDup (gr_ValidatorID <$> rs) -> Forall (fun r => gr_ValidatorID r ∉ ids) rs -> Forall (acceptable cf now) rs ->
  let c' := foldl (fun c r => OnGenesisReady localID Sign range now d r c) c rs in completed c' = true /\ is_Some (certificate c').
Proof.
  induction rs as [|r rs IH]; intros ids c Hsign H Hnd Hnew Hacc; [by destruct H as [(_ & _ & _ & []) | H]|].
  cbn [foldl]. rewrite fmap_cons in Hnd. apply NoDup_cons in Hnd as [Hr Hnd].
  apply Forall_cons in Hnew as [Hrn Hnew]. apply Forall_cons in Hacc as [Hra Hacc].
  destruct H as [(Hw & Hver & Hq & _)|[H1 H2]].
  2:{ apply (IH ids); [done| |done..]. right. destruct (OnGenesisReady_after now d r c H1) as [H3 H4]. split; [done|by rewrite H4]. }
  cbn [verified] in Hver. destruct Hver as (pk & Hpk & Hver).
  destruct (VerifyWithContext now (c_crypto c) _ _ pk false) as [ok cr] eqn:Hv. destruct Hver as [-> Hver].
  pose proof (OnGenesisReady_step cf q ids now d r c pk cr Hsign Hw Hra Hrn Hpk Hv) as Hstep. cbv zeta in Hstep.
  destruct (Z.ltb_spec (Z.of_nat (size ids) + 1) q) as [Hl|Hl].
  - destruct Hstep as [Hw' Hcr]. apply (IH ({[gr_ValidatorID r]} ∪ ids)); [done| |done| |done].
    + left. rewrite Hcr. rewrite size_union, size_singleton by set_solver. unfold len in *. cbn [length] in Hq.
      split_and!; [done|done|lia|]. intros ->. cbn in Hq. lia.
    + rewrite Forall_forall in Hnew |- *. intros b Hb. specialize (Hnew b Hb).
      assert (gr_ValidatorID b <> gr_ValidatorID r); [|set_solver].
      intros Heq. apply Hr. rewrite <- Heq. by apply list_elem_of_fmap_2.
  - apply (IH ids); [done|by right|done..].
Qed.

(** C31. An aggregator that starts without a stored certificate and receives acceptable
    attestations, signed, of enough other validators completes the ceremony. *)
Theorem quorum_completes cf q cr e now d rs :
  (forall now m, is_Some (Sign now m)) -> GetLeaderForView 0 = Some localID -> required_quorum cf = Ok q ->
  NoDup (localID :: (gr_ValidatorID <$> rs)) -> Forall (acceptable cf now) rs -> verified now rs cr ->
  rs <> [] -> q <= 1 + len rs ->
  let c := (ceremony localID Sign range cf cr None NoFile e (HReady now d <$> rs)).2 in
  completed c = true /\ is_Some (certificate c).
Proof.
  intros Hsign Hagg Hq [Hloc Hnd]%NoDup_cons Hacc Hver Hne Hlen. unfold ceremony.
  destruct (Start_waiting cf q cr e Hsign Hagg Hq) as [Hw Hcr]. revert Hw Hcr.
  generalize (Start localID Sign e (NewCoordinator cf cr None NoFile)).2. intros c Hw Hcr.
  assert (Hfold : forall rs c, foldl (handle localID Sign range) ([], c) (HReady now d <$> rs) =
    ([], foldl (fun c r => OnGenesisReady localID Sign range now d r c) c rs)).
  { intros l. induction l as [|r l IH]; intros c1; [done|]. rewrite fmap_cons. cbn [foldl handle]. by rewrite IH. }
  rewrite Hfold. cbn [snd]. apply (readies_complete cf q now d rs {[localID]}); [done| |done| |done].
  - left. rewrite Hcr, size_singleton. split_and!; [done..|lia|done].
  - apply Forall_forall. intros r Hr [=]%elem_of_singleton. apply Hloc. rewrite <- H0. by apply list_elem_of_fmap_2.
Qed.

(** *** Acceptance by the others *)

(** The attestations of a certificate that a coordinator has to verify. *)
Definition unknown (c : Coordinator) (r : GenesisReady) : Prop :=
  match attestations c !! gr_ValidatorID r with Some x => GenesisReady_Hash x <> GenesisReady_Hash r | None => True end.
#[export] Instance unknown_dec c r : Decision (unknown c r).
Proof. unfold unknown. destruct (attestations c !! gr_ValidatorID r); apply _. Defined.

Lemma check_attestations_accepts cf now l : forall seen c,
  cfg c = genesis_config cf -> verifying c = ∅ -> NoDup (gr_ValidatorID <$> l) -> Forall (fun a => gr_ValidatorID a ∉ seen) l ->
  Forall (acceptable cf now) l -> verified now (filter (unknown c) l) (c_crypto c) ->
  exists c', check_attestations now false seen l c = (Ok tt, c') /\ certificateOnce c' = certificateOnce c.
Proof.
  induction l as [|a l IH]; intros seen c Hcfg Hidle Hnd Hseen Hacc Hver; cbn [check_attestations]; [by eauto|].
  rewrite fmap_cons in Hnd. apply NoDup_cons in Hnd as [Ha Hnd].
  apply Forall_cons in Hseen as [Hsa Hseen]. apply Forall_cons in Hacc as [(Hmem & Hch & Hph & Hsk & Hkey) Hacc].
  assert (Hseen' : Forall (fun b => gr_ValidatorID b ∉ ({[gr_ValidatorID a]} ∪ seen : gset ValidatorID)) l).
  { rewrite Forall_forall in Hseen |- *. intros b Hb. specialize (Hseen b Hb).
    assert (gr_ValidatorID b <> gr_ValidatorID a); [|set_solver].
    intros Heq. apply Ha. rewrite <- Heq. by apply list_elem_of_fmap_2. }
  rewrite Hmem. cbn [negb]. rewrite bool_decide_eq_false_2 by done. rewrite Hcfg, Hch, Hph, !bool_decide_eq_true_2 by done.
  cbn [negb andb]. rewrite (tolerance_config cf) by done. rewrite Hsk.
  rewrite filter_cons in Hver. unfold unknown at 1 in Hver. case_decide as Hknown.
  - replace (match attestations c !! gr_ValidatorID a with Some _ => _ | None => _ end) with false.
    2:{ unfold unknown in Hknown. destruct (attestations c !! gr_ValidatorID a); [|done]. symmetry. by apply bool_decide_eq_false. }
    rewrite Hidle, lookup_empty. cbn [verified] in Hver. destruct Hver as (pk & Hpk & Hver).
    unfold verify_attestation. rewrite Hpk, bool_decide_eq_true_2 by done. cbn [negb].
    change (c_crypto (recordReadyEvent _ _ _ _)) with (c_crypto c).
    destruct (VerifyWithContext now (c_crypto c) _ _ pk false) as [ok cr]. destruct Hver as [-> Hver]. cbn [negb].
    set (c1 := recordReadyEvent ReadyEventAccepted _ _ _).
    destruct (IH ({[gr_ValidatorID a]} ∪ seen) c1) as (c' & Hc' & Ho); [done| |done..| |by eauto].
    + change (verifying c1) with (delete (gr_ValidatorID a) (<[gr_ValidatorID a := GenesisReady_Hash a]> (verifying c))).
      rewrite Hidle. by apply delete_mark.
    + change (c_crypto c1) with cr.
      rewrite (filter_ext_in (unknown c1) (unknown c)); [done|]. intros b Hb. unfold unknown.
      change (attestations c1) with (<[gr_ValidatorID a := a]> (attestations c)). rewrite lookup_insert_ne; [done|].
      intros Heq. apply Ha. rewrite Heq. by apply list_elem_of_fmap_2.
  - unfold unknown in Hknown. destruct (attestations c !! gr_ValidatorID a) as [x|] eqn:Hx; [|by destruct Hknown].
    rewrite bool_decide_eq_true_2 by (by apply dec_stable).
    destruct (IH ({[gr_ValidatorID a]} ∪ seen) (recordReadyEvent ReadyEventDuplicate (gr_ValidatorID a) (GenesisReady_Hash a) c)) as (c' & Hc' & Ho);
      [done..|by eauto].
Qed.

(** The certificate an aggregator makes of attestations that a node finds acceptable
    completes the ceremony there, when the two agree on configuration, peers and
    aggregator, and the node asks for no larger quorum. *)
Theorem certificate_accepted cf now now' d ca ca' c cert :
  map_Forall (fun id r => gr_ValidatorID r = id /\ acceptable cf now' r) (attestations ca) ->
  checkQuorumLocked localID Sign range now ca = (Some cert, ca') ->
  cfg c = genesis_config cf -> verifying c = ∅ -> completed c = false -> certificateOnce c = false ->
  aggregator c = localID -> requirement c <= requirement ca ->
  skewed (GenesisClockSkewTolerance (genesis_config cf)) now' now = false ->
  verified now' (filter (unknown c) (Attestations cert)) (c_crypto c) ->
  completed (OnGenesisCertificate now' d cert c) = true /\ certificate (OnGenesisCertificate now' d cert c) = Some cert.
Proof.
  intros Hatt Hquorum Hcfg Hidle Hcomp Honce Hagg Hreq Hsk Hver.
  assert (Hkeyed : map_Forall (fun id r => gr_ValidatorID r = id) (attestations ca)) by (intros id r Hr; by destruct (Hatt _ _ Hr)).
  apply checkQuorumLocked_inv in Hquorum as (_ & _ & Hn & Hca & Hcagg & Hts & _); [|done].
  assert (Hlen : len (Attestations cert) = Z.of_nat (size (attestations ca))).
  { rewrite Hca. unfold len. by rewrite collected_perm, length_fmap, length_map_to_list. }
  unfold OnGenesisCertificate. rewrite Hcomp. unfold validateCertificate.
  set (c1 := if bool_decide (aggregator c = zero32) then set_aggregator (gc_Aggregator cert) c else c).
  assert (Hc1 : cfg c1 = cfg c /\ verifying c1 = verifying c /\ aggregator c1 = localID /\ requirement c1 = requirement c /\   certificateOnce c1 = certificateOnce c /\ attestations c1 = attestations c /\ c_crypto c1 = c_crypto c).
  { subst c1. destruct (bool_decide _); [|done]. by split_and!. }
  destruct Hc1 as (H1 & H2 & H3 & H4 & H5 & H6 & H7). clearbody c1. cbv zeta.
  rewrite Hcagg, H3, bool_decide_eq_true_2 by done. cbn [negb andb].
  destruct (Z.ltb_spec (len (Attestations cert)) (requirement c1)) as [Hl|Hl]; [lia|].
  rewrite (tolerance_config cf) by congruence. rewrite Hts, Hsk. cbn [negb andb].
  destruct (check_attestations_accepts cf now' (Attestations cert) ∅ c1) as (c2 & Hc2 & Ho); [congruence..| | | | |].
  - rewrite Hca. unfold collected. rewrite stable_sort_perm. by apply visited_distinct.
  - apply Forall_forall. set_solver.
  - apply Forall_forall. intros r Hr. rewrite Hca, collected_perm in Hr.
    apply list_elem_of_fmap in Hr as ([id r'] & -> & Hr). apply elem_of_map_to_list in Hr. by destruct (Hatt _ _ Hr).
  - rewrite H7. rewrite (filter_ext_in (unknown c1) (unknown c)); [done|]. intros b _. unfold unknown. by rewrite H6.
  - rewrite Hc2. apply setCertificate_done. congruence.
Qed.
End completion.

(** ** What the coordinator accepts besides *)

Section attacks.
Context {CS : CryptoService} {GS : GenesisStore} {VS : ValidatorSet} {VK : ValidatorKeys}.
Context (localID : ValidatorID) (Sign : Time -> bytes -> option bytes) (range : visit_order ValidatorID GenesisReady).

(** Before its start a coordinator requires nothing and knows no aggregator: a certificate
    without attestations, whoever it names as aggregator, completes the ceremony and starts
    consensus. *)
Theorem certificate_before_start cf cr backend file now d agg sg :
  let cert := MkGenesisCertificate [] agg now sg in
  let c := OnGenesisCertificate now d cert (NewCoordinator cf cr backend file) in
  completed c = true /\ certificate c = Some cert.
Proof.
  intros cert c. subst c. unfold OnGenesisCertificate. cbn [completed NewCoordinator].
  unfold validateCertificate. rewrite bool_decide_eq_true_2 by done. cbv zeta.
  set (c0 := set_aggregator _ _). change (aggregator c0) with (gc_Aggregator cert).
  rewrite bool_decide_eq_true_2 by done. cbn [negb andb]. change (requirement c0) with 0.
  change (len (Attestations cert) <? 0) with false. cbn iota.
  rewrite (tolerance_config cf) by done. change (gc_Timestamp cert) with now.
  assert (Hsk : skewed (GenesisClockSkewTolerance (genesis_config cf)) now now = false).
  { assert (H : 0 < GenesisClockSkewTolerance (genesis_config cf)).
    { cbn [GenesisClockSkewTolerance genesis_config]. destruct (Z.leb_spec (GenesisClockSkewTolerance cf) 0); [done|lia]. }
    unfold skewed, Sub. rewrite Z.sub_diag. change (Z.max MinInt64 (Z.min MaxInt64 0)) with 0.
    destruct (Z.ltb_spec (GenesisClockSkewTolerance (genesis_config cf)) 0); [lia|].
    destruct (Z.ltb_spec 0 (- GenesisClockSkewTolerance (genesis_config cf))); [lia|done]. }
  rewrite Hsk. cbn [check_attestations cert Attestations]. by apply setCertificate_done.
Qed.

(** A later attestation in a validator's name, whatever its signature, removes the one that
    counted, even when it is then refused for its configuration. *)
Lemma attestation_dropped c now d r known :
  attestations c !! gr_ValidatorID r = Some known -> IsValidator (gr_ValidatorID r) = true ->
  GenesisReady_Hash known <> GenesisReady_Hash r -> After (gr_Timestamp r) (gr_Timestamp known) = true ->
  ConfigHash r <> c_ConfigHash (cfg c) ->
  attestations (OnGenesisReady localID Sign range now d r c) = delete (gr_ValidatorID r) (attestations c).
Proof.
  intros Hk Hm Hh Ha Hc. unfold OnGenesisReady, ready_begin. rewrite Hm. cbn [negb].
  change (attestations (recordReadyEvent _ _ _ c)) with (attestations c).
  rewrite Hk, bool_decide_eq_false_2, Ha by done. cbn [negb]. unfold ready_checks.
  change (verifying (set_attestations _ (recordReadyEvent _ _ _ c))) with (verifying c).
  destruct (verifying c !! _); [done|].
  change (cfg (set_attestations _ (recordReadyEvent _ _ _ c))) with (cfg c). by rewrite bool_decide_eq_false_2.
Qed.

(** A node that hears of no other never looks whether its own attestation is a quorum. *)
Theorem alone_never_completes cf cr e ticks :
  completed (ceremony localID Sign range cf cr None NoFile e ((fun t => HTick t.1.1 t.1.2 t.2) <$> ticks)).2 = false.
Proof.
  assert (Hissue : forall now nonce c, completed (issueLocalReady localID Sign now nonce c).2 = completed c).
  { intros. unfold issueLocalReady. by destruct (buildLocalReady _ _ _ _ c). }
  assert (Htick : forall now nonce b c, completed c = false -> completed (rebroadcast_tick localID Sign now nonce b c) = false).
  { intros now nonce b c Hc. unfold rebroadcast_tick.
    assert (Hi : completed (rebroadcastInterval c).2 = completed c) by (unfold rebroadcastInterval; by destruct (_ <=? _)).
    destruct (rebroadcastInterval c) as [? c1]. cbn [snd] in Hi. rewrite Hi, Hc. destruct (localReady c1) as [r|]; [|congruence].
    set (x := if _ && _ then _ else _). assert (Hx : completed x.2 = false).
    { subst x. destruct (_ && _); [rewrite Hissue|cbn]; congruence. }
    destruct x as [[r'|] c2]; [|done]. by destruct b. }
  unfold ceremony. rewrite foldl_fmap.
  assert (H : completed (foldl (fun s t => handle localID Sign range s (HTick t.1.1 t.1.2 t.2)) ([], (Start localID Sign e (NewCoordinator cf cr None NoFile)).2) ticks).2 = false); [|done].
  apply (foldl_invariant (fun s : list GenesisReady * Coordinator => completed s.2 = false)).
  - cbn [snd]. unfold Start. cbn [startOnce NewCoordinator]. unfold initialize.
    destruct (GetLeaderForView 0) as [agg|]; [|done]. destruct (required_quorum _) as [q|]; [|done].
    unfold restoreFromDatabase. cbn [c_backend set_requirement set_started NewCoordinator]. unfold restoreFromDisk. cbn [c_file set_requirement set_started NewCoordinator].
    set (c0 := set_requirement agg q _). assert (Hc0 : completed c0 = false) by done. clearbody c0.
    destruct (negb _); unfold broadcastReady; pose proof (Hissue (st_now e) (st_nonce e) c0) as Hi;
      destruct (issueLocalReady _ _ _ _ c0) as [[] c1]; cbn [snd] in *; change (completed (emit ?h c1)) with (completed c1) in *; congruence.
  - intros [pending c] [[now nonce] b] _ Hc. by apply Htick.
Qed.
End attacks.

(** ** A concrete ceremony *)

(** Four validators, of which three must attest. *)
Definition vid (b : Byte.byte) : ValidatorID := repeat b 32.
Definition v0 := vid x10.
Definition v1 := vid x11.
Definition v2 := vid x12.
Definition v3 := vid x13.
#[local] Instance demo_vs : ValidatorSet := list_validators [v0; v1; v2; v3].
#[local] Instance demo_vk : ValidatorKeys := {|
  GetValidator id := if bool_decide (id ∈ [v0; v1; v2; v3]) then Some id else None;
  AllValidators := [v0; v1; v2; v3] |}.

(** A database that holds at most one certificate. *)
Definition demo_store (stored : option GenesisCertificate) : GenesisStore := {|
  gstore := unit;
  LoadGenesisCertificate _ := Ok (match stored with Some _ => Some [x01] | None => None end);
  SaveGenesisCertificate _ _ := (true, tt);
  cbor_Marshal _ := Some [x01];
  cbor_Unmarshal _ := stored |}.

Definition demo_now : Time := MkTime 1700000000 0.
Definition demo_config : Config := MkConfig 0 0 0 0 0 (repeat x01 32) (repeat x02 32) 0 false.
Definition demo_env : start_env := MkStartEnv demo_now (repeat x03 32) true true true.
Definition demo_ready (id : ValidatorID) : GenesisReady :=
  MkGenesisReady id demo_now (repeat x01 32) (repeat x02 32) (repeat x03 32) (MkSig [x01] id demo_now).
Definition demo_cert : GenesisCertificate :=
  MkGenesisCertificate [demo_ready v0; demo_ready v1; demo_ready v2] v0 demo_now (MkSig [x01] v0 demo_now).

(** What was signed: three attestations, and the certificate by the aggregator. *)
Definition demo_table : list (bytes * bytes) :=
  (v0, GenesisCertificate_SignBytes demo_cert) :: ((fun id => (id, GenesisReady_SignBytes (demo_ready id))) <$> [v0; v1; v2]).
#[local] Instance demo_cs : CryptoService := table_crypto demo_table.
#[local] Instance demo_cl : @CryptoLaws demo_cs := table_laws demo_table.
Definition demo_Sign (id : ValidatorID) (_ : Time) (m : bytes) : option bytes :=
  if bool_decide ((id, m) ∈ demo_table) then Some [x01] else None.

#[local] Instance demo_gs : GenesisStore := demo_store None.
Definition demo_handlers : list handler := [HReady demo_now true (demo_ready v1); HReady demo_now true (demo_ready v2)].
Definition demo_run (hs : list handler) : Coordinator :=
  (ceremony (CS := demo_cs) (GS := demo_gs) v0 (demo_Sign v0) key_order demo_config tt (Some tt) NoFile demo_env hs).2.

Lemma demo_completed : certificate (demo_run demo_handlers) = Some demo_cert.
Proof. vm_compute. reflexivity. Qed.

Lemma demo_keys id pk : GetValidator id = Some pk -> key_of id pk.
Proof. cbn. case_bool_decide; [|done]. by intros [= ->]. Qed.
Lemma demo_honest id now m sg : demo_Sign id now m = Some sg -> signed id m.
Proof. unfold demo_Sign. case_bool_decide as H; [|done]. intros _. exact H. Qed.

(** The attestation of validator 1 arrives before the start. *)
Definition demo_early : Coordinator :=
  (ceremony_after (CS := demo_cs) (GS := demo_gs) v0 (demo_Sign v0) key_order [HReady demo_now true (demo_ready v1)]
     demo_config tt (Some tt) NoFile demo_env [HReady demo_now true (demo_ready v2)]).2.

Lemma ceremony_sound_witness :
  let c := demo_early in
  (activations c = option_list (certificate c) /\ completed c = bool_decide (is_Some (certificate c)) /\
   forall cert, certificate c = Some cert -> quorum_certificate demo_config 3 cert) /\ completed c = true.
Proof.
  split; [|vm_compute; reflexivity].
  apply (ceremony_sound (CS := demo_cs) (GS := demo_gs) v0 (demo_Sign v0) key_order [HReady demo_now true (demo_ready v1)]
    demo_config tt (Some tt) NoFile demo_env [HReady demo_now true (demo_ready v2)] v0 3).
  - exact I.
  - exact demo_keys.
  - exact (demo_honest v0).
  - reflexivity.
  - discriminate.
  - reflexivity.
  - reflexivity.
  - by repeat (apply Forall_cons; split; [reflexivity|]).
  - by repeat (apply Forall_cons; split; [reflexivity|]).
Defined.

(** Two verifications under way at once. *)
Definition demo_interleaved : list handler :=
  [HBegin demo_now (demo_ready v2); HBegin demo_now (demo_ready v1); HTick demo_now (repeat x03 32) true;
   HEnd demo_now true 1; HCertificate demo_now true demo_cert; HEnd demo_now true 0].

Lemma attestations_genuine_witness :
  let c := demo_run demo_interleaved in
  map_Forall (fun id r => gr_ValidatorID r = id /\ attested demo_config r) (attestations c) /\
  activations c = option_list (certificate c).
Proof.
  apply (attestations_genuine (CS := demo_cs) (GS := demo_gs) v0 (demo_Sign v0) key_order demo_config tt (Some tt) NoFile demo_env demo_interleaved v0 3).
  - exact I.
  - exact demo_keys.
  - exact (demo_honest v0).
  - reflexivity.
  - reflexivity.
  - reflexivity.
Defined.

Definition demo_sign_all (now : Time) (m : bytes) : option bytes := Some [x01].

Lemma quorum_completes_witness :
  let c := (ceremony (CS := demo_cs) (GS := demo_gs) v0 demo_sign_all key_order demo_config tt None NoFile demo_env (HReady demo_now true <$> [demo_ready v1; demo_ready v2])).2 in
  completed c = true /\ is_Some (certificate c).
Proof.
  apply (quorum_completes (CS := demo_cs) (GS := demo_gs) v0 demo_sign_all key_order demo_config 3).
  - intros now m. by exists [x01].
  - reflexivity.
  - reflexivity.
  - apply (bool_decide_unpack _). vm_compute. exact I.
  - repeat (apply Forall_cons; split; [by split_and!|]). apply Forall_nil_2.
  - exists v1. split; [reflexivity|]. split; [reflexivity|]. exists v2. split; [reflexivity|]. split; [reflexivity|]. exact I.
  - discriminate.
  - vm_compute. discriminate.
Defined.

(** The aggregator [v0] with its quorum, and [v3], which started and knows only its own
    attestation. *)
Definition demo_aggregator : Coordinator (CS := demo_cs) (GS := demo_gs) :=
  set_attestations (list_to_map ((fun id => (id, demo_ready id)) <$> [v0; v1; v2]))
    (set_requirement v0 3 (NewCoordinator (CS := demo_cs) (GS := demo_gs) demo_config tt None NoFile)).
Definition demo_peer : Coordinator (CS := demo_cs) (GS := demo_gs) :=
  (ceremony (CS := demo_cs) (GS := demo_gs) v3 demo_sign_all key_order demo_config tt None NoFile demo_env []).2.

Lemma demo_quorum : exists ca, checkQuorumLocked v0 (demo_Sign v0) key_order demo_now demo_aggregator = (Some demo_cert, ca).
Proof.
  assert (H : (checkQuorumLocked v0 (demo_Sign v0) key_order demo_now demo_aggregator).1 = Some demo_cert) by (vm_compute; reflexivity).
  destruct (checkQuorumLocked _ _ _ _ _) as [r ca]. exists ca. cbn in H. by rewrite H.
Qed.

Lemma demo_acceptable : map_Forall (fun id r => gr_ValidatorID r = id /\ acceptable demo_config demo_now r) (attestations demo_aggregator).
Proof.
  change (attestations demo_aggregator) with (list_to_map ((fun id => (id, demo_ready id)) <$> [v0; v1; v2]) : gmap ValidatorID GenesisReady).
  intros id r Hr. apply elem_of_list_to_map_2 in Hr. cbn in Hr.
  rewrite !elem_of_cons, elem_of_nil in Hr.
  destruct Hr as [[= -> ->]|[[= -> ->]|[[= -> ->]|[]]]]; by split_and!.
Qed.

Lemma demo_verified : verified demo_now (filter (unknown demo_peer) (Attestations demo_cert)) (c_crypto demo_peer).
Proof.
  assert (H : filter (unknown demo_peer) (Attestations demo_cert) = Attestations demo_cert).
  { apply list_filter_all. repeat (apply Forall_cons; split; [by vm_compute|]). apply Forall_nil_2. }
  rewrite H. exists v0. split; [reflexivity|]. split; [reflexivity|]. exists v1. split; [reflexivity|]. split; [reflexivity|].
  exists v2. split; [reflexivity|]. split; [reflexivity|]. exact I.
Qed.

Lemma certificate_accepted_witness :
  completed (OnGenesisCertificate demo_now true demo_cert demo_peer) = true /\
  certificate (OnGenesisCertificate demo_now true demo_cert demo_peer) = Some demo_cert.
Proof.
  destruct demo_quorum as [ca Hca].
  apply (certificate_accepted (CS := demo_cs) (GS := demo_gs) v0 (demo_Sign v0) key_order demo_config demo_now demo_now true
    demo_aggregator ca demo_peer demo_cert demo_acceptable Hca).
  - vm_compute. reflexivity.
  - vm_compute. reflexivity.
  - vm_compute. reflexivity.
  - vm_compute. reflexivity.
  - vm_compute. reflexivity.
  - vm_compute. discriminate.
  - vm_compute. reflexivity.
  - exact demo_verified.
Defined.

(** *** Attestations nobody signed *)

(** A service that accepts no signature. *)
Definition refusing : CryptoService := table_crypto [].

(** An attestation whose verification is under way counts as verified when a certificate
    with it arrives: while a started node checks three attestations that nobody signed, a
    certificate of them completes its ceremony and starts consensus. *)
Theorem forged_in_flight :
  let forged := [demo_ready v0; demo_ready v1; demo_ready v2] in
  let cert := MkGenesisCertificate forged v0 demo_now (MkSig [] v0 demo_now) in
  let c := (ceremony (CS := refusing) (GS := demo_gs) v3 demo_sign_all key_order demo_config tt None NoFile demo_env
    ((HBegin demo_now <$> forged) ++ [HCertificate demo_now true cert])).2 in
  (forall now cr m sg pk old, (VerifyWithContext (CryptoService := refusing) now cr m sg pk old).1 = false) /\
  requirement c = 3 /\ activations c = [cert].
Proof. split; [intros; reflexivity|]. vm_compute. split; reflexivity. Qed.

(** A stored certificate that fails validation still replaces the aggregator: the node then
    refuses the certificate of the right one. *)
Theorem discarded_certificate_replaces_aggregator :
  let stale := MkGenesisCertificate [] v2 demo_now (MkSig [] v2 demo_now) in
  let c := (ceremony (CS := demo_cs) (GS := demo_store (Some stale)) v3 demo_sign_all key_order demo_config tt (Some tt) NoFile demo_env []).2 in
  GetLeaderForView 0 = Some v0 /\ completed c = false /\ aggregator c = v2 /\
  completed (OnGenesisCertificate demo_now true demo_cert c) = false /\ completed (OnGenesisCertificate demo_now true demo_cert demo_peer) = true.
Proof. vm_compute. repeat split. Qed.
