(* ===== verification/Encoder.v ===== *)
(** backend/pkg/consensus/messages/encoding.go: the secure encoder. Signature
    verification with its two caches, freshness, size limits, the typed decode
    and the verification of quorum certificates. *)
From S2P Require Import Prelude Bytes Sha256 GoTime Codec Messages Block Interfaces.

Inductive enc_error :=
| ErrTooLarge | ErrDecode | ErrBlockPayload | ErrBlockHashMismatch
| ErrNoPublicKey | ErrInvalidSignature | ErrTimestampOld | ErrTimestampFuture
| ErrQCNil | ErrQCNoSignatures | ErrQCQuorum | ErrQCEmptySignature | ErrQCDuplicateSigner
| ErrQCNoPublicKey | ErrQCInvalidSignature.

#[export] Instance enc_error_eq_dec : EqDecision enc_error.
Proof. solve_decision. Defined.

(** ** Configuration *)

Record EncoderConfig := MkEncoderConfig {
  MaxProposalSize : Z; MaxVoteSize : Z; MaxQCSize : Z; MaxViewChangeSize : Z; MaxNewViewSize : Z;
  MaxHeartbeatSize : Z; MaxEvidenceSize : Z; MaxGenesisReadySize : Z; MaxGenesisCertificateSize : Z;
  MaxProposalIntentSize : Z; MaxReadyToVoteSize : Z;
  ClockSkewTolerance : Z; GenesisClockSkewTolerance : Z; MaxMessageAge : Z; GenesisMaxMessageAge : Z;
  RejectFutureMessages : bool; MinQuorumSize : Z }.

Definition DefaultEncoderConfig : EncoderConfig :=
  MkEncoderConfig (Z.shiftl 1 20) (Z.shiftl 10 10) (Z.shiftl 100 10) (Z.shiftl 50 10)
    (Z.shiftl 500 10) (Z.shiftl 5 10) (Z.shiftl 200 10) (Z.shiftl 16 10) (Z.shiftl 64 10)
    (Z.shiftl 4 10) (Z.shiftl 4 10)
    (5 * Second) (24 * Hour) (30 * Second) (24 * Hour) true 1.

(** The defaults [NewEncoder] fills in, each from the values before it. *)
Definition NewEncoder_config (c : EncoderConfig) : EncoderConfig :=
  let gskew := if GenesisClockSkewTolerance c <=? 0 then ClockSkewTolerance c else GenesisClockSkewTolerance c in
  let age := if MaxMessageAge c <=? 0 then ClockSkewTolerance c else MaxMessageAge c in
  let gage := if GenesisMaxMessageAge c <=? 0 then gskew else GenesisMaxMessageAge c in
  MkEncoderConfig (MaxProposalSize c) (MaxVoteSize c) (MaxQCSize c) (MaxViewChangeSize c)
    (MaxNewViewSize c) (MaxHeartbeatSize c) (MaxEvidenceSize c) (MaxGenesisReadySize c)
    (MaxGenesisCertificateSize c) (MaxProposalIntentSize c) (MaxReadyToVoteSize c)
    (ClockSkewTolerance c) gskew age gage (RejectFutureMessages c) (MinQuorumSize c).

Definition getMaxSize (c : EncoderConfig) (t : MessageType) : Z :=
  match t with
  | TypeProposal => MaxProposalSize c | TypeVote => MaxVoteSize c | TypeQC => MaxQCSize c
  | TypeViewChange => MaxViewChangeSize c | TypeNewView => MaxNewViewSize c
  | TypeHeartbeat => MaxHeartbeatSize c | TypeEvidence => MaxEvidenceSize c
  | TypeGenesisReady => MaxGenesisReadySize c | TypeGenesisCertificate => MaxGenesisCertificateSize c
  | TypeProposalIntent => MaxProposalIntentSize c | TypeReadyToVote => MaxReadyToVoteSize c
  end.

(** ** Pure parts *)

Definition zeroID : ValidatorID := zero32.

Definition extractSignature (m : Message) : bytes * ValidatorID :=
  let sg s := (sig_Bytes s, KeyID s) in
  match m with
  | MProposal m => sg (p_Signature m) | MVote m => sg (v_Signature m)
  | MViewChange m => sg (vc_Signature m) | MNewView m => sg (nv_Signature m)
  | MHeartbeat m => sg (hb_Signature m) | MEvidence m => sg (e_Signature m)
  | MGenesisReady m => sg (gr_Signature m) | MGenesisCertificate m => sg (gc_Signature m)
  | MProposalIntent m => sg (pi_Signature m) | MReadyToVote m => sg (rtv_Signature m)
  | MQC _ => ([], zeroID)
  end.

Definition is_genesis (m : Message) : bool :=
  match m with MGenesisReady _ | MGenesisCertificate _ => true | _ => false end.

Definition checkTimestamp (c : EncoderConfig) (now : Time) (m : Message) : result enc_error unit :=
  let tolerance := if is_genesis m && (0 <? GenesisClockSkewTolerance c)
                   then GenesisClockSkewTolerance c else ClockSkewTolerance c in
  let maxAge0 := if is_genesis m && (0 <? GenesisMaxMessageAge c)
                 then GenesisMaxMessageAge c else MaxMessageAge c in
  let maxAge := if maxAge0 <=? 0 then tolerance else maxAge0 in
  if maxAge <? Sub now (Message_Timestamp m) then Err ErrTimestampOld
  else if RejectFutureMessages c && (tolerance <? Sub (Message_Timestamp m) now) then Err ErrTimestampFuture
  else Ok tt.

Definition buildVoteSignBytesFromQC (qc : QC) (voterID : ValidatorID) (timestamp : Time) : bytes :=
  Domain TypeVote ++ [x00] ++
  appendUint64 (q_View qc) ++ appendUint64 (q_Height qc) ++ appendUint64 (q_Round qc) ++
  q_BlockHash qc ++ voterID ++ appendInt64 (UnixNano timestamp).

Definition getCacheKey (msgHash : BlockHash) (keyID : ValidatorID) : bytes := msgHash ++ keyID.
Definition getSigCacheKey (signBytes : bytes) (keyID : ValidatorID) : bytes := signBytes ++ keyID.

(** ** The wire form of proposals and the typed decode *)

Record proposalWire := MkProposalWire {
  pw_View : Z; pw_Height : Z; pw_Round : Z; pw_BlockHash : BlockHash; pw_ParentHash : BlockHash;
  pw_ProposerID : ValidatorID; pw_Timestamp : Time; pw_JustifyQC : option QC;
  pw_Block : option AppBlockPayload; pw_Signature : Signature }.

(** The CBOR library's [Unmarshal] at the types the code decodes. *)
Class Codecs := {
  Unmarshal_Proposal : bytes -> option proposalWire;
  Unmarshal_Vote : bytes -> option Vote;
  Unmarshal_QC : bytes -> option QC;
  Unmarshal_ViewChange : bytes -> option ViewChange;
  Unmarshal_NewView : bytes -> option NewView;
  Unmarshal_Heartbeat : bytes -> option Heartbeat;
  Unmarshal_Evidence : bytes -> option Evidence;
  Unmarshal_GenesisReady : bytes -> option GenesisReady;
  Unmarshal_GenesisCertificate : bytes -> option GenesisCertificate;
  Unmarshal_ProposalIntent : bytes -> option ProposalIntent;
  Unmarshal_ReadyToVote : bytes -> option ReadyToVote }.

Definition toProposal (pw : proposalWire) : result enc_error Proposal :=
  let p blk := MkProposal (pw_View pw) (pw_Height pw) (pw_Round pw) (pw_BlockHash pw)
                 (pw_ParentHash pw) (pw_ProposerID pw) (pw_Timestamp pw) (pw_JustifyQC pw) blk
                 (pw_Signature pw) in
  match pw_Block pw with
  | None => Ok (p None)
  | Some payload =>
      match decode_block payload with
      | Err _ => Err ErrBlockPayload
      | Ok blk => if bool_decide (hash blk = pw_BlockHash pw) then Ok (p (Some (as_block blk)))
                  else Err ErrBlockHashMismatch
      end
  end.

Section decoding.
Context `{Codecs}.

Definition unmarshalled {A} (wrap : A -> Message) (a : option A) : result enc_error Message :=
  match a with Some a => Ok (wrap a) | None => Err ErrDecode end.

Definition decode (data : bytes) (t : MessageType) : result enc_error Message :=
  match t with
  | TypeProposal =>
      match Unmarshal_Proposal data with
      | None => Err ErrDecode
      | Some wire => p ← toProposal wire; Ok (MProposal p)
      end
  | TypeVote => unmarshalled MVote (Unmarshal_Vote data)
  | TypeQC => unmarshalled MQC (Unmarshal_QC data)
  | TypeViewChange => unmarshalled MViewChange (Unmarshal_ViewChange data)
  | TypeNewView => unmarshalled MNewView (Unmarshal_NewView data)
  | TypeHeartbeat => unmarshalled MHeartbeat (Unmarshal_Heartbeat data)
  | TypeEvidence => unmarshalled MEvidence (Unmarshal_Evidence data)
  | TypeGenesisReady => unmarshalled MGenesisReady (Unmarshal_GenesisReady data)
  | TypeGenesisCertificate => unmarshalled MGenesisCertificate (Unmarshal_GenesisCertificate data)
  | TypeProposalIntent => unmarshalled MProposalIntent (Unmarshal_ProposalIntent data)
  | TypeReadyToVote => unmarshalled MReadyToVote (Unmarshal_ReadyToVote data)
  end.
End decoding.

(** ** The encoder's state and operations *)

Section encoder.
Context {CS : CryptoService} {C : LRU bytes bool}.

Record Encoder := MkEncoder {
  enc_config : EncoderConfig; enc_crypto : crypto;
  verifyCache : lru; verifySigCache : lru;
  enc_validatorSet : option ValidatorSet; staticMinQuorum : Z }.

Definition NewEncoder (cs : crypto) (c : EncoderConfig) : Encoder :=
  MkEncoder (NewEncoder_config c) cs lru_New lru_New None (MinQuorumSize c).

Definition SetValidatorSet (set : ValidatorSet) (e : Encoder) : Encoder :=
  MkEncoder (enc_config e) (enc_crypto e) (verifyCache e) (verifySigCache e) (Some set) (staticMinQuorum e).

Definition with_crypto (cs : crypto) (e : Encoder) : Encoder :=
  MkEncoder (enc_config e) cs (verifyCache e) (verifySigCache e) (enc_validatorSet e) (staticMinQuorum e).
Definition with_verifyCache (c : lru) (e : Encoder) : Encoder :=
  MkEncoder (enc_config e) (enc_crypto e) c (verifySigCache e) (enc_validatorSet e) (staticMinQuorum e).
Definition with_verifySigCache (c : lru) (e : Encoder) : Encoder :=
  MkEncoder (enc_config e) (enc_crypto e) (verifyCache e) c (enc_validatorSet e) (staticMinQuorum e).

Abbreviation EncM := (ST Encoder enc_error).

Definition quorumThreshold (e : Encoder) : Z :=
  let minQuorum := if staticMinQuorum e <? 1 then 1 else staticMinQuorum e in
  match enc_validatorSet e with
  | None => minQuorum
  | Some set =>
      let count := @GetValidatorCount set in
      if count <=? 0 then minQuorum
      else
        let f := Z.quot (count - 1) 3 in
        let dynamic := if 2 * f + 1 <? 1 then 1 else 2 * f + 1 in
        if minQuorum <? dynamic then dynamic else minQuorum
  end.

(** [if verified, ok := cache.Get(key); ok && verified]. *)
Definition cached (now : Time) (key : bytes) : EncM bool := fun e =>
  let '(r, c) := lru_Get now (verifyCache e) key in
  (Ok (bool_decide (r = Some true)), with_verifyCache c e).
Definition sig_cached (now : Time) (key : bytes) : EncM bool := fun e =>
  let '(r, c) := lru_Get now (verifySigCache e) key in
  (Ok (bool_decide (r = Some true)), with_verifySigCache c e).
Definition cache_add (now : Time) (key : bytes) : EncM unit :=
  modify (fun e => with_verifyCache (lru_Add now (verifyCache e) key true) e).
Definition sig_cache_add (now : Time) (key : bytes) : EncM unit :=
  modify (fun e => with_verifySigCache (lru_Add now (verifySigCache e) key true) e).

Definition get_key (id : ValidatorID) (err : enc_error) : EncM bytes := fun e =>
  match GetPublicKey (enc_crypto e) id with Some pk => (Ok pk, e) | None => (Err err, e) end.
Definition crypto_verify (now : Time) (data sig pk : bytes) (old : bool) (err : enc_error) : EncM unit := fun e =>
  let '(ok, cs) := VerifyWithContext now (enc_crypto e) data sig pk old in
  (if ok : bool then Ok tt else Err err, with_crypto cs e).

Definition verifyMessage (now : Time) (m : Message) : EncM unit :=
  let '(sig, keyID) := extractSignature m in
  let cacheKey := getCacheKey (Message_Hash m) keyID in
  hit ← cached now cacheKey;
  if hit : bool then mret tt else
  publicKey ← get_key keyID ErrNoPublicKey;
  let signBytes := getSignBytes m in
  hit ← (if 0 <? len signBytes then sig_cached now (getSigCacheKey signBytes keyID) else mret false);
  if hit : bool then mret tt else
  crypto_verify now signBytes sig publicKey false ErrInvalidSignature ;;
  cache_add now cacheKey ;;
  (if 0 <? len signBytes then sig_cache_add now (getSigCacheKey signBytes keyID) else mret tt).

Definition VerifyAndDecode `{Codecs} (now : Time) (data : bytes) (t : MessageType) : EncM Message :=
  c ← gets enc_config;
  fail_if (getMaxSize c t <? len data) ErrTooLarge ;;
  m ← lift (decode data t);
  verifyMessage now m ;;
  lift (checkTimestamp c now m) ;;
  mret m.

(** One signature of a certificate: [VerifyQC]'s loop body after the duplicate check. *)
Definition verify_qc_sig (now : Time) (qc : QC) (sig : Signature) : EncM unit :=
  publicKey ← get_key (KeyID sig) ErrQCNoPublicKey;
  let voteBytes := buildVoteSignBytesFromQC qc (KeyID sig) (sig_Timestamp sig) in
  let sigKey := getSigCacheKey voteBytes (KeyID sig) in
  hit ← sig_cached now sigKey;
  if hit : bool then mret tt else
  crypto_verify now voteBytes (sig_Bytes sig) publicKey true ErrQCInvalidSignature ;;
  sig_cache_add now sigKey.

Fixpoint verify_qc_sigs (now : Time) (qc : QC) (seen : gset ValidatorID) (sigs : list Signature) : EncM unit :=
  match sigs with
  | [] => mret tt
  | sig :: rest =>
      fail_if (len (sig_Bytes sig) =? 0) ErrQCEmptySignature ;;
      fail_if (bool_decide (KeyID sig ∈ seen)) ErrQCDuplicateSigner ;;
      verify_qc_sig now qc sig ;;
      verify_qc_sigs now qc ({[KeyID sig]} ∪ seen) rest
  end.

Definition VerifyQC (now : Time) (qc : option QC) : EncM unit :=
  match qc with
  | None => throw ErrQCNil
  | Some qc =>
      fail_if (len (Signatures qc) =? 0) ErrQCNoSignatures ;;
      required ← gets quorumThreshold;
      fail_if ((0 <? required) && (len (Signatures qc) <? required)) ErrQCQuorum ;;
      verify_qc_sigs now qc ∅ (Signatures qc)
  end.

Definition CacheQCSignatures (now : Time) (qc : option QC) (e : Encoder) : Encoder :=
  match qc with
  | None => e
  | Some qc =>
      foldl (fun e sig =>
        if len (sig_Bytes sig) =? 0 then e
        else
          let sigKey := getSigCacheKey (buildVoteSignBytesFromQC qc (KeyID sig) (sig_Timestamp sig)) (KeyID sig) in
          with_verifySigCache (lru_Add now (verifySigCache e) sigKey true) e)
        e (Signatures qc)
  end.

Definition ClearCache (e : Encoder) : Encoder := with_verifyCache (lru_Purge (verifyCache e)) e.

End encoder.

(** ** Acceptance *)

Section acceptance.
Context {CS : CryptoService} {C : LRU bytes bool}.

Lemma cached_run now k e : exists hit e', cached now k e = (Ok hit, e') /\ enc_crypto e' = enc_crypto e.
Proof. unfold cached. destruct (lru_Get now (verifyCache e) k). eauto. Qed.
Lemma sig_cached_run now k e : exists hit e', sig_cached now k e = (Ok hit, e') /\ enc_crypto e' = enc_crypto e.
Proof. unfold sig_cached. destruct (lru_Get now (verifySigCache e) k). eauto. Qed.

(** A message whose signature verifies is accepted, cached or not. *)
Lemma verifyMessage_accepts now m e pk :
  GetPublicKey (enc_crypto e) (extractSignature m).2 = Some pk ->
  (VerifyWithContext now (enc_crypto e) (getSignBytes m) (extractSignature m).1 pk false).1 = true ->
  (verifyMessage now m e).1 = Ok tt.
Proof.
  unfold verifyMessage. destruct (extractSignature m) as [sig id]. cbn [fst snd]. intros Hk Hv.
  unfold mbind, ST_bind.
  destruct (cached_run now (getCacheKey (Message_Hash m) id) e) as (hit & e1 & -> & He1).
  destruct hit; [reflexivity|]. unfold get_key. rewrite He1, Hk.
  assert (Hs : exists hit e2, (if 0 <? len (getSignBytes m)
             then sig_cached now (getSigCacheKey (getSignBytes m) id) else mret false) e1 = (Ok hit, e2) /\
             enc_crypto e2 = enc_crypto e).
  { destruct (0 <? len (getSignBytes m)); [|by exists false, e1].
    destruct (sig_cached_run now (getSigCacheKey (getSignBytes m) id) e1) as (h & e2 & Hr & He2).
    exists h, e2. split; [exact Hr|congruence]. }
  destruct Hs as (hit & e2 & -> & He2). destruct hit; [reflexivity|].
  unfold crypto_verify. rewrite He2.
  destruct (VerifyWithContext now (enc_crypto e) (getSignBytes m) sig pk false) as [ok cs].
  cbn in Hv. subst ok. cbn. destruct (0 <? len (getSignBytes m)); reflexivity.
Qed.
End acceptance.

(** ** Soundness of the cached verification *)

Lemma buildVote_signs qc id ts sg :
  buildVoteSignBytesFromQC qc id ts =
  Vote_SignBytes (MkVote (q_View qc) (q_Height qc) (q_Round qc) (q_BlockHash qc) id ts sg).
Proof. reflexivity. Qed.

Section soundness.
Context {CS : CryptoService} {CL : @CryptoLaws CS} {C : LRU bytes bool} {LL : @LRULaws bytes bool C}.

(** Every cache entry stands for bytes that the key holder signed. *)
Record enc_ok (e : Encoder) : Prop := {
  enc_ok_crypto : crypto_ok (enc_crypto e);
  enc_ok_sig k : lru_mem (verifySigCache e) k true ->
    exists b id, k = getSigCacheKey b id /\ length id = 32%nat /\ signed id b;
  enc_ok_msg k : lru_mem (verifyCache e) k true ->
    exists b id, k = getCacheKey (sha256 b) id /\ length id = 32%nat /\ signed id b }.

(** What verification never changes. *)
Definition enc_inv (n : Z) (c : EncoderConfig) (e : Encoder) : Prop :=
  enc_ok e /\ quorumThreshold e = n /\ enc_config e = c.

Lemma NewEncoder_ok cs c : crypto_ok cs -> enc_ok (NewEncoder cs c).
Proof. intros H. constructor; cbn; [done| |]; intros k Hk; by apply lru_New_mem in Hk. Qed.

Lemma getSigCacheKey_inj b id b' id' :
  length id = 32%nat -> length id' = 32%nat ->
  getSigCacheKey b id = getSigCacheKey b' id' -> b = b' /\ id = id'.
Proof. intros H H'. apply app_inj_len_r. congruence. Qed.

Lemma keeps_sig_cached n c now b id :
  length id = 32%nat ->
  keeps (enc_inv n c) (sig_cached now (getSigCacheKey b id)) (fun hit => hit = true -> signed id b).
Proof.
  intros Hid e ([Hc Hs Hm] & Hn & Hcfg). unfold sig_cached.
  destruct (lru_Get now (verifySigCache e) (getSigCacheKey b id)) as [r c'] eqn:Hg. cbn. split.
  - split_and!; [|done..]. constructor; cbn; [done| |done]. intros k Hk. apply Hs.
    apply (lru_Get_sub now _ (getSigCacheKey b id)). by rewrite Hg.
  - intros hit [= <-] Hr. go_bool. subst r.
    destruct (Hs (getSigCacheKey b id)) as (b' & id' & Heq & Hid' & Hsig).
    { apply (lru_Get_mem now). by rewrite Hg. }
    by apply getSigCacheKey_inj in Heq as [-> ->].
Qed.

Lemma keeps_cached n c now b id :
  length id = 32%nat ->
  keeps (enc_inv n c) (cached now (getCacheKey (sha256 b) id))
    (fun hit => hit = true -> signed id b \/ exists b', Collides b b' /\ signed id b').
Proof.
  intros Hid e ([Hc Hs Hm] & Hn & Hcfg). unfold cached.
  destruct (lru_Get now (verifyCache e) (getCacheKey (sha256 b) id)) as [r c'] eqn:Hg. cbn. split.
  - split_and!; [|done..]. constructor; cbn; [done|done|]. intros k Hk. apply Hm.
    apply (lru_Get_sub now _ (getCacheKey (sha256 b) id)). by rewrite Hg.
  - intros hit [= <-] Hr. go_bool. subst r.
    destruct (Hm (getCacheKey (sha256 b) id)) as (b' & id' & Heq & Hid' & Hsig).
    { apply (lru_Get_mem now). by rewrite Hg. }
    apply app_inj_len_r in Heq as [Heq <-]; [|congruence].
    apply sha256_inj_or_collision in Heq as [<-|Hcol]; [by left|right; eauto].
Qed.

Lemma keeps_get_key n c id err : keeps (enc_inv n c) (get_key id err) (key_of id).
Proof.
  intros e He. unfold get_key. destruct (GetPublicKey (enc_crypto e) id) as [pk|] eqn:Hk; cbn; [|done].
  split; [done|]. intros ? [= <-]. destruct He as [[Hc _ _] _]. by eapply GetPublicKey_key.
Qed.

Lemma keeps_crypto_verify n c now data sig id pk old err :
  key_of id pk -> keeps (enc_inv n c) (crypto_verify now data sig pk old err) (fun _ => signed id data).
Proof.
  intros Hkey e ([Hc Hs Hm] & Hn & Hcfg). unfold crypto_verify.
  destruct (VerifyWithContext now (enc_crypto e) data sig pk old) as [ok cs] eqn:Hv. cbn. split.
  - split_and!; [|done..]. constructor; cbn; [|done..].
    pose proof (Verify_ok now (enc_crypto e) data sig pk old Hc) as Hok. by rewrite Hv in Hok.
  - intros u Hu. destruct ok; [|done]. eapply (Verify_signed now _ _ _ _ sig old); [done..|by rewrite Hv].
Qed.

Lemma keeps_sig_cache_add n c now b id :
  length id = 32%nat -> signed id b ->
  keeps (enc_inv n c) (sig_cache_add now (getSigCacheKey b id)) (fun _ => True).
Proof.
  intros Hid Hsig e ([Hc Hs Hm] & Hn & Hcfg). cbn. split; [|done].
  split_and!; [|done..]. constructor; cbn; [done| |done].
  intros k [[-> _]|Hk]%lru_Add_mem; eauto.
Qed.

Lemma keeps_cache_add n c now b id :
  length id = 32%nat -> signed id b ->
  keeps (enc_inv n c) (cache_add now (getCacheKey (sha256 b) id)) (fun _ => True).
Proof.
  intros Hid Hsig e ([Hc Hs Hm] & Hn & Hcfg). cbn. split; [|done].
  split_and!; [|done..]. constructor; cbn; [done|done|].
  intros k [[-> _]|Hk]%lru_Add_mem; eauto.
Qed.

Definition qc_wf (qc : QC) : Prop := Forall (fun s => length (KeyID s) = 32%nat) (Signatures qc).
Definition vote_wf (v : Vote) : Prop := length (KeyID (v_Signature v)) = 32%nat.

(** What is decoded has the types of the Go structs: key ids are [32]byte. *)
Class CodecsLaws {D : Codecs} := {
  Unmarshal_Vote_wf data v : Unmarshal_Vote data = Some v -> vote_wf v }.
(** Every signature of the certificate is its signer's vote for the
    certificate's view, height, round and block. *)
Definition sig_genuine (qc : QC) (s : Signature) : Prop :=
  signed (KeyID s) (buildVoteSignBytesFromQC qc (KeyID s) (sig_Timestamp s)).
Definition qc_genuine (qc : QC) : Prop := Forall (sig_genuine qc) (Signatures qc).

Lemma keeps_verify_qc_sig n c now qc s :
  length (KeyID s) = 32%nat ->
  keeps (enc_inv n c) (verify_qc_sig now qc s) (fun _ => sig_genuine qc s).
Proof.
  intros Hid. unfold verify_qc_sig.
  eapply keeps_bind; [apply keeps_get_key|]. intros pk Hpk.
  eapply keeps_bind; [by apply keeps_sig_cached|]. intros [] Hhit.
  - apply keeps_ret. by apply Hhit.
  - eapply keeps_bind; [by apply keeps_crypto_verify|]. intros [] Hsig.
    eapply keeps_weaken; [by apply keeps_sig_cache_add|done].
Qed.

Lemma keeps_verify_qc_sigs n c now qc seen sigs :
  Forall (fun s => length (KeyID s) = 32%nat) sigs ->
  keeps (enc_inv n c) (verify_qc_sigs now qc seen sigs)
    (fun _ => NoDup (KeyID <$> sigs) /\ (forall s, s ∈ sigs -> KeyID s ∉ seen) /\ Forall (sig_genuine qc) sigs).
Proof.
  intros Hids. revert seen. induction Hids as [|s sigs Hs Hids IH]; intros seen; cbn [verify_qc_sigs].
  - apply keeps_ret. split_and!; [constructor|by intros s Hs%elem_of_nil|constructor].
  - eapply keeps_bind; [by apply (keeps_fail_if _ _ _ (fun _ => True))|]. intros [] _.
    eapply keeps_bind; [apply (keeps_fail_if _ _ _ (fun _ => KeyID s ∉ seen)); intros; by go_bool|].
    intros [] Hseen.
    eapply keeps_bind; [by apply keeps_verify_qc_sig|]. intros [] Hg.
    eapply keeps_weaken; [apply IH|]. intros [] (Hnd & Hrest & Hgs). cbn. split_and!.
    + apply NoDup_cons. split; [|done]. intros (s' & Hk & Hs')%list_elem_of_fmap.
      apply (Hrest s'); [done|]. rewrite <- Hk. set_solver.
    + intros s' [->|Hs']%elem_of_cons; [done|]. intros Hin. apply (Hrest s'); [done|]. set_solver.
    + by constructor.
Qed.

Lemma keeps_VerifyQC n c now qc :
  qc_wf qc ->
  keeps (enc_inv n c) (VerifyQC now (Some qc))
    (fun _ => NoDup (KeyID <$> Signatures qc) /\ 0 < len (Signatures qc) /\ (0 < n -> n <= len (Signatures qc)) /\
              qc_genuine qc).
Proof.
  intros Hwf. cbn [VerifyQC].
  eapply keeps_bind; [apply (keeps_fail_if _ _ _ (fun _ => 0 < len (Signatures qc)))|intros [] Hpos].
  { intros Hz. go_bool. pose proof (len_nonneg (Signatures qc)). lia. }
  eapply (keeps_bind _ _ _ (fun r => r = n)).
  { intros e He. split; [done|]. intros ? [= <-]. apply He. }
  intros ? ->.
  eapply keeps_bind; [apply (keeps_fail_if _ _ _ (fun _ => 0 < n -> n <= len (Signatures qc)))|intros [] Hq].
  { intros Hb Hn. apply andb_false_iff in Hb as [Hb|Hb]; go_bool; lia. }
  eapply keeps_weaken; [by apply keeps_verify_qc_sigs|]. intros [] (Hnd & _ & Hg). by split_and!.
Qed.

Lemma quorumThreshold_pos e : 1 <= quorumThreshold e.
Proof.
  unfold quorumThreshold. destruct (Z.ltb_spec (staticMinQuorum e) 1), (enc_validatorSet e) as [vs|];
    repeat case_match; go_bool; lia.
Qed.

(** The signature a message carries, over its sign bytes or a colliding text. *)
Definition authentic (m : Message) : Prop :=
  signed (extractSignature m).2 (getSignBytes m) \/
  exists b, Collides (getSignBytes m) b /\ signed (extractSignature m).2 b.

Lemma keeps_verifyMessage n c now m :
  length (extractSignature m).2 = 32%nat ->
  keeps (enc_inv n c) (verifyMessage now m) (fun _ => authentic m).
Proof.
  intros Hid. unfold verifyMessage, authentic, Message_Hash. destruct (extractSignature m) as [sig id]. cbn in *.
  eapply keeps_bind; [by apply keeps_cached|]. intros [] Hhit; [apply keeps_ret; by apply Hhit|]. clear Hhit.
  eapply keeps_bind; [apply keeps_get_key|]. intros pk Hpk.
  eapply (keeps_bind _ _ _ (fun hit => hit = true -> signed id (getSignBytes m))).
  { destruct (0 <? _); [by apply keeps_sig_cached|by apply keeps_ret]. }
  intros [] Hhit; [apply keeps_ret; left; by apply Hhit|]. clear Hhit.
  eapply keeps_bind; [by apply keeps_crypto_verify|]. intros [] Hsig.
  eapply keeps_bind; [by apply keeps_cache_add|]. intros [] _.
  eapply (keeps_weaken _ _ (fun _ => True)); [|by left].
  destruct (0 <? _); [by apply keeps_sig_cache_add|by apply keeps_ret].
Qed.

Lemma enc_ok_inv e : enc_ok e -> enc_inv (quorumThreshold e) (enc_config e) e.
Proof. by intros H. Qed.
End soundness.

Lemma checkTimestamp_Ok c now m :
  checkTimestamp c now m = Ok tt ->
  exists maxAge tolerance, Sub now (Message_Timestamp m) <= maxAge /\
    (RejectFutureMessages c = true -> Sub (Message_Timestamp m) now <= tolerance) /\
    (is_genesis m = false -> tolerance = ClockSkewTolerance c /\
      maxAge = if MaxMessageAge c <=? 0 then ClockSkewTolerance c else MaxMessageAge c).
Proof.
  unfold checkTimestamp. intros H.
  destruct (_ <? Sub now _) eqn:H1; [done|].
  destruct (RejectFutureMessages c && _) eqn:H2; [done|].
  go_bool. eexists _, _. split_and!; [exact H1| |].
  - intros Hr. rewrite Hr in H2. cbn in H2. go_bool. exact H2.
  - intros Hg. by rewrite Hg.
Qed.

Lemma decode_Type `{Codecs} data t m : decode data t = Ok m -> Message_Type m = t.
Proof.
  unfold decode, unmarshalled. intros Hd.
  destruct t; go_inv Hd; done.
Qed.

Lemma toProposal_block pw p :
  toProposal pw = Ok p -> forall b, p_Block p = Some b -> GetHash b = p_BlockHash p.
Proof. unfold toProposal. intros Hp. go_inv Hp; cbn; intros blk Hb; simplify_eq. by go_bool. Qed.

(** ** Properties *)

(** [VerifyQC] on an encoder whose caches are sound: an accepted certificate
    has at least [quorumThreshold] signatures, all from different keys, and
    every one of them is its signer's vote for exactly the certificate's view,
    height, round and block, whether it was checked now or found in the cache;
    the caches stay sound whatever the outcome. *)
Theorem VerifyQC_sound {CS : CryptoService} {CL : @CryptoLaws CS} {C : LRU bytes bool}
    {LL : @LRULaws bytes bool C} (now : Time) (qc : QC) (e : Encoder)
    (Hok : enc_ok e) (Hwf : qc_wf qc) :
  enc_ok (VerifyQC now (Some qc) e).2 /\
  ((VerifyQC now (Some qc) e).1 = Ok tt ->
   NoDup (KeyID <$> Signatures qc) /\ quorumThreshold e <= len (Signatures qc) /\ qc_genuine qc).
Proof.
  destruct (keeps_VerifyQC _ _ now qc Hwf e (enc_ok_inv e Hok)) as [[H1 _] H2]. split; [done|].
  intros Hr. destruct (H2 _ Hr) as (Hnd & _ & Hq & Hg). split_and!; [done| |done].
  apply Hq. pose proof (quorumThreshold_pos e). lia.
Qed.

(** [VerifyAndDecode]: what it returns has the requested type and respects the
    type's size limit, is fresh with respect to the clock, was signed by the
    holder of the key its signature names, and if it is a proposal carrying a
    block then the block's hash is the proposed one. *)
Theorem VerifyAndDecode_sound {CS : CryptoService} {CL : @CryptoLaws CS} {C : LRU bytes bool}
    {LL : @LRULaws bytes bool C} {D : Codecs} (now : Time) (data : bytes) (t : MessageType)
    (e e' : Encoder) (m : Message) (Hok : enc_ok e) (Hid : length (extractSignature m).2 = 32%nat)
    (Hrun : VerifyAndDecode now data t e = (Ok m, e')) :
  Message_Type m = t /\ len data <= getMaxSize (enc_config e) t /\
  authentic m /\ checkTimestamp (enc_config e) now m = Ok tt /\
  (forall p b, m = MProposal p -> p_Block p = Some b -> GetHash b = p_BlockHash p) /\
  enc_ok e'.
Proof.
  unfold VerifyAndDecode in Hrun.
  apply ST_bind_Ok in Hrun as (c & e1 & Hc & Hrun). injection Hc as <- <-.
  apply ST_bind_Ok in Hrun as ([] & e2 & Hc & Hrun). apply fail_if_Ok in Hc as [Hlen ->].
  apply ST_bind_Ok in Hrun as (m' & e3 & Hd & Hrun). injection Hd as Hd <-.
  apply ST_bind_Ok in Hrun as ([] & e4 & Hv & Hrun).
  apply ST_bind_Ok in Hrun as ([] & e5 & Ht & Hrun). injection Ht as Ht <-.
  injection Hrun as <- <-. go_bool.
  destruct (keeps_verifyMessage _ _ now m' Hid e (enc_ok_inv e Hok)) as [[H1 _] H2].
  rewrite Hv in H1, H2. cbn in H1, H2.
  split_and!; [by apply decode_Type in Hd|lia|by apply (H2 ())|done| |done].
  intros p b -> Hb. destruct t; cbn in Hd; unfold unmarshalled in Hd; go_inv Hd; try done.
  by eapply toProposal_block.
Qed.

Lemma verifyMessage_caches {CS : CryptoService} now m (e e' : @Encoder CS map_LRU) :
  verifyMessage now m e = (Ok tt, e') ->
  (verifyCache e' : gmap bytes bool) !! getCacheKey (Message_Hash m) (extractSignature m).2 = Some true \/
  (exists pk, GetPublicKey (enc_crypto e') (extractSignature m).2 = Some pk) /\ 0 < len (getSignBytes m) /\
  (verifySigCache e' : gmap bytes bool) !! getSigCacheKey (getSignBytes m) (extractSignature m).2 = Some true.
Proof.
  unfold verifyMessage. destruct (extractSignature m) as [sig id]. cbn [snd].
  intros H. apply ST_bind_Ok in H as (hit & e1 & Hc & H). injection Hc as <- <-.
  destruct (bool_decide _) eqn:Hhit.
  { injection H as <-. go_bool. by left. }
  apply ST_bind_Ok in H as (pk & e2 & Hk & H). unfold get_key in Hk.
  destruct (GetPublicKey _ id) as [pk'|] eqn:Hpk; [|done]. injection Hk as -> <-.
  apply ST_bind_Ok in H as (hit & e3 & Hc & H).
  destruct hit.
  { injection H as <-. right. destruct (0 <? len (getSignBytes m)) eqn:Hl; [|by injection Hc].
    unfold sig_cached in Hc. cbn in Hc. injection Hc as Hc <-. go_bool. cbn. split_and!; [by eexists|lia|done]. }
  left. apply ST_bind_Ok in H as ([] & e4 & Hv & H). apply ST_bind_Ok in H as ([] & e5 & Ha & H).
  injection Ha as <-. destruct (0 <? len (getSignBytes m)); injection H as <-; cbn; by rewrite lookup_insert_eq.
Qed.

(** The verification caches are keyed by the signed content and the key only:
    once a message is verified, any other copy of it with the same signer is
    accepted whatever its signature bytes are, for as long as the entry lives.
    A vote can so enter the node with signature bytes nobody else can verify. *)
Theorem verifyMessage_cached_any_signature {CS : CryptoService} (now now' : Time) (m m' : Message)
    (e e' : @Encoder CS map_LRU)
    (Hfirst : verifyMessage now m e = (Ok tt, e'))
    (Hsame : getSignBytes m' = getSignBytes m)
    (Hsigner : (extractSignature m').2 = (extractSignature m).2) :
  (verifyMessage now' m' e').1 = Ok tt.
Proof.
  apply verifyMessage_caches in Hfirst. unfold verifyMessage, Message_Hash in *.
  destruct (extractSignature m') as [sig' id']. destruct (extractSignature m) as [sig id].
  cbn in Hsigner. subst id'. rewrite Hsame. cbn [snd] in Hfirst.
  unfold mbind, ST_bind, cached at 1. cbn [lru_Get map_LRU fst snd].
  destruct Hfirst as [->|((pk & Hpk) & Hl & Hs)].
  { rewrite bool_decide_eq_true_2 by done. done. }
  destruct (bool_decide _); [done|].
  unfold get_key. cbn. rewrite Hpk.
  destruct (Z.ltb_spec 0 (len (getSignBytes m))); [|lia].
  unfold sig_cached. cbn. rewrite Hs. rewrite bool_decide_eq_true_2 by done. done.
Qed.

(** ** Witnesses *)

Definition demo_members : list ValidatorID := demo_id <$> [1; 2; 3; 4].
Definition demo_table : list (bytes * bytes) :=
  (fun i => (demo_id i, Vote_SignBytes (demo_vote i))) <$> [1; 2; 3].
Definition demo_qc : QC :=
  MkQC 5 2 0 (demo_id 77) (demo_sig <$> [1; 2; 3]) (time_Unix 1700000000) (demo_id 1).
#[export] Instance demo_crypto : CryptoService := table_crypto demo_table.
#[export] Instance demo_crypto_laws : CryptoLaws := table_laws demo_table.
Definition demo_encoder : @Encoder demo_crypto map_LRU :=
  SetValidatorSet (list_validators demo_members)
    (@NewEncoder demo_crypto map_LRU (() : @crypto demo_crypto) DefaultEncoderConfig).
Definition demo_clock : Time := time_Unix 1700000002.
Definition demo_codecs : Codecs := {|
  Unmarshal_Proposal _ := None;
  Unmarshal_Vote _ := Some (demo_vote 1); Unmarshal_QC _ := None; Unmarshal_ViewChange _ := None;
  Unmarshal_NewView _ := None; Unmarshal_Heartbeat _ := None; Unmarshal_Evidence _ := None;
  Unmarshal_GenesisReady _ := None; Unmarshal_GenesisCertificate _ := None;
  Unmarshal_ProposalIntent _ := None; Unmarshal_ReadyToVote _ := None |}.

#[export] Instance demo_codecs_laws : @CodecsLaws demo_codecs.
Proof. constructor. by intros data v [= <-]. Qed.

Lemma demo_encoder_ok : enc_ok demo_encoder.
Proof. constructor; [exact I| |]; intros k Hk; cbn in Hk; by rewrite lookup_empty in Hk. Qed.

Lemma VerifyQC_sound_witness :
  (VerifyQC demo_clock (Some demo_qc) demo_encoder).1 = Ok tt /\
  quorumThreshold demo_encoder = 3 /\ qc_genuine demo_qc.
Proof.
  assert (Hr : (VerifyQC demo_clock (Some demo_qc) demo_encoder).1 = Ok tt) by (vm_compute; reflexivity).
  split; [exact Hr|]. split; [reflexivity|].
  apply (VerifyQC_sound demo_clock demo_qc demo_encoder); [apply demo_encoder_ok|repeat constructor|exact Hr].
Defined.

Lemma VerifyAndDecode_sound_witness :
  (VerifyAndDecode (H:=demo_codecs) demo_clock [x01] TypeVote demo_encoder).1 = Ok (MVote (demo_vote 1)) /\
  authentic (MVote (demo_vote 1)).
Proof.
  assert (Hr : (VerifyAndDecode (H:=demo_codecs) demo_clock [x01] TypeVote demo_encoder).1 = Ok (MVote (demo_vote 1)))
    by (vm_compute; reflexivity).
  split; [exact Hr|].
  eapply (VerifyAndDecode_sound (D:=demo_codecs) demo_clock [x01] TypeVote demo_encoder);
    [apply demo_encoder_ok|reflexivity|exact (run_Ok _ _ _ Hr)].
Defined.

Lemma verifyMessage_cached_any_signature_witness :
  (verifyMessage demo_clock (MVote (demo_vote 1)) demo_encoder).1 = Ok tt /\
  (verifyMessage demo_clock
     (MVote (MkVote 5 2 0 (demo_id 77) (demo_id 1) (time_Unix 1700000000)
        (MkSig [] (demo_id 1) (time_Unix 1700000000))))
     (verifyMessage demo_clock (MVote (demo_vote 1)) demo_encoder).2).1 = Ok tt.
Proof.
  assert (Hr : (verifyMessage demo_clock (MVote (demo_vote 1)) demo_encoder).1 = Ok tt)
    by (vm_compute; reflexivity).
  split; [exact Hr|].
  eapply (verifyMessage_cached_any_signature demo_clock demo_clock (MVote (demo_vote 1)));
    [exact (run_Ok _ _ _ Hr)|reflexivity|reflexivity].
Defined.
