(* ===== verification/Validation.v ===== *)
(** backend/pkg/consensus/messages/validation.go: the consensus rules a message
    must pass before the engine handles it, over the encoder that verifies
    certificates. *)
From S2P Require Import Prelude Bytes Sha256 GoTime Messages Interfaces Encoder.

Inductive val_error :=
| ErrSeen | ErrNotValidator | ErrNotActive | ErrNoLeader | ErrNotLeader
| ErrViewRegression | ErrViewJump | ErrHeightRegression | ErrHeightJump
| ErrQC (e : enc_error) | ErrVQCNil | ErrQCTooFew | ErrQCTooMany | ErrQCBelowQuorum
| ErrQCDuplicate | ErrQCNonValidator | ErrQCInactive
| ErrParentMismatch | ErrJustifyView | ErrMissingJustify
| ErrSelfVote | ErrViewOrder | ErrHighestQCView
| ErrNoViewChanges | ErrTooManyViewChanges | ErrViewChangeQuorum | ErrDuplicateSender
| ErrTargetView | ErrNoHighestQC | ErrHighestQCMismatch
| ErrOffenderNotValidator | ErrEvidenceAge | ErrEvidenceEmpty.

#[export] Instance val_error_eq_dec : EqDecision val_error.
Proof. solve_decision. Defined.

Record ValidationConfig := MkValidationConfig {
  MaxViewJump : Z; MaxHeightJump : Z; RequireJustifyQC : bool; StrictMonotonicity : bool;
  vc_MinQuorumSize : Z; MaxQuorumSize : Z; AllowSelfVoting : bool; MaxViewChangeProofs : Z;
  MaxEvidenceAge : Z }.

Definition DefaultValidationConfig : ValidationConfig :=
  MkValidationConfig 100 10 true true 1 10000 true 1000 (24 * Hour).

(** [2*((N-1)/3) + 1] in Go's truncating arithmetic. *)
Definition required_quorum (totalValidators : Z) : Z := 2 * Z.quot (totalValidators - 1) 3 + 1.

Section validation.
Context {CS : CryptoService} {C : LRU bytes bool} {VS : ValidatorSet}.

(** The validator with the [ConsensusState] it reads ([api.engineState]: the
    pacemaker's view and height, the set of seen hashes, and the optional
    restart-bootstrap rule) and its encoder. *)
Record Validator := MkValidator {
  val_config : ValidationConfig; val_encoder : Encoder;
  GetCurrentView : Z; GetCurrentHeight : Z; seen : gset bytes;
  AllowRestartBootstrap : option (BlockHash -> Z -> bool) }.

Definition with_encoder (e : Encoder) (v : Validator) : Validator :=
  MkValidator (val_config v) e (GetCurrentView v) (GetCurrentHeight v) (seen v) (AllowRestartBootstrap v).
Definition with_seen (s : gset bytes) (v : Validator) : Validator :=
  MkValidator (val_config v) (val_encoder v) (GetCurrentView v) (GetCurrentHeight v) s (AllowRestartBootstrap v).

Abbreviation ValM := (ST Validator val_error).

Definition HasSeenMessage (h : bytes) (v : Validator) : bool := bool_decide (h ∈ seen v).
Definition MarkMessageSeen (h : bytes) : ValM unit := modify (fun v => with_seen ({[h]} ∪ seen v) v).

(** A guard that reads the validator's state. *)
Definition reject_if (b : Validator -> bool) (err : val_error) : ValM unit :=
  fun v => fail_if (b v) err v.

Definition encoder_VerifyQC (now : Time) (qc : option QC) : ValM unit := fun v =>
  match VerifyQC now qc (val_encoder v) with
  | (Ok _, e) => (Ok tt, with_encoder e v)
  | (Err err, e) => (Err (ErrQC err), with_encoder e v)
  end.

Fixpoint check_signers (enforceActive : bool) (view : Z) (seenV : gset ValidatorID) (sigs : list Signature)
  : result val_error unit :=
  match sigs with
  | [] => Ok tt
  | sig :: rest =>
      if bool_decide (KeyID sig ∈ seenV) then Err ErrQCDuplicate
      else if negb (IsValidator (KeyID sig)) then Err ErrQCNonValidator
      else if negb (IsActiveInView (KeyID sig) view) && enforceActive then Err ErrQCInactive
      else check_signers enforceActive view ({[KeyID sig]} ∪ seenV) rest
  end.

(** [enforceActive]: the CONSENSUS_ENFORCE_ACTIVE_SIGNERS environment switch. *)
Definition ValidateQC (now : Time) (enforceActive : bool) (qc : option QC) : ValM unit :=
  match qc with
  | None => throw ErrVQCNil
  | Some qc =>
      let sigCount := len (Signatures qc) in
      reject_if (fun v => sigCount <? vc_MinQuorumSize (val_config v)) ErrQCTooFew ;;
      reject_if (fun v => MaxQuorumSize (val_config v) <? sigCount) ErrQCTooMany ;;
      fail_if (sigCount <? required_quorum GetValidatorCount) ErrQCBelowQuorum ;;
      lift (check_signers enforceActive (q_View qc) ∅ (Signatures qc)) ;;
      encoder_VerifyQC now (Some qc)
  end.

(** [currentView + MaxJump] wraps like a uint64. *)
Definition beyond (x current jump : Z) : bool := u64 (current + jump) <? x.

Definition check_leader (id : ValidatorID) (view : Z) : ValM unit :=
  match GetLeaderForView view with
  | None => throw ErrNoLeader
  | Some expectedLeader => fail_if (negb (bool_decide (id = expectedLeader))) ErrNotLeader
  end.

Definition check_justify (now : Time) (enforceActive : bool) (p : Proposal) : ValM unit :=
  match JustifyQC p with
  | Some qc =>
      ValidateQC now enforceActive (Some qc) ;;
      fail_if (negb (bool_decide (q_BlockHash qc = ParentHash p))) ErrParentMismatch ;;
      fail_if (p_View p <=? q_View qc) ErrJustifyView
  | None =>
      reject_if (fun v => RequireJustifyQC (val_config v) && (1 <? p_Height p) &&
        negb (match AllowRestartBootstrap v with Some f => f (ParentHash p) (p_Height p) | None => false end))
        ErrMissingJustify
  end.

Definition ValidateProposal (now : Time) (enforceActive : bool) (p : Proposal) : ValM unit :=
  reject_if (HasSeenMessage (Proposal_Hash p)) ErrSeen ;;
  fail_if (negb (IsValidator (ProposerID p))) ErrNotValidator ;;
  fail_if (negb (IsActiveInView (ProposerID p) (p_View p))) ErrNotActive ;;
  check_leader (ProposerID p) (p_View p) ;;
  reject_if (fun v => StrictMonotonicity (val_config v) && (p_View p <? GetCurrentView v)) ErrViewRegression ;;
  reject_if (fun v => beyond (p_View p) (GetCurrentView v) (MaxViewJump (val_config v))) ErrViewJump ;;
  reject_if (fun v => StrictMonotonicity (val_config v) && (p_Height p <? GetCurrentHeight v)) ErrHeightRegression ;;
  reject_if (fun v => beyond (p_Height p) (GetCurrentHeight v) (MaxHeightJump (val_config v))) ErrHeightJump ;;
  check_justify now enforceActive p ;;
  MarkMessageSeen (Proposal_Hash p).

Definition minView (v : Validator) : Z :=
  if MaxViewJump (val_config v) <? GetCurrentView v then GetCurrentView v - MaxViewJump (val_config v) else 0.

Definition ValidateVote (vote : Vote) : ValM unit :=
  reject_if (HasSeenMessage (Vote_Hash vote)) ErrSeen ;;
  fail_if (negb (IsValidator (VoterID vote))) ErrNotValidator ;;
  fail_if (negb (IsActiveInView (VoterID vote) (v_View vote))) ErrNotActive ;;
  reject_if (fun v => negb (AllowSelfVoting (val_config v)) &&
    bool_decide (GetLeaderForView (v_View vote) = Some (VoterID vote))) ErrSelfVote ;;
  reject_if (fun v => v_View vote <? minView v) ErrViewRegression ;;
  reject_if (fun v => beyond (v_View vote) (GetCurrentView v) (MaxViewJump (val_config v))) ErrViewJump ;;
  MarkMessageSeen (Vote_Hash vote).

Definition ValidateViewChange (now : Time) (enforceActive : bool) (vc : ViewChange) : ValM unit :=
  reject_if (HasSeenMessage (ViewChange_Hash vc)) ErrSeen ;;
  fail_if (negb (IsValidator (SenderID vc))) ErrNotValidator ;;
  fail_if (negb (IsActiveInView (SenderID vc) (vc_OldView vc))) ErrNotActive ;;
  fail_if (vc_NewView vc <=? vc_OldView vc) ErrViewOrder ;;
  reject_if (fun v => beyond (vc_NewView vc) (vc_OldView vc) (MaxViewJump (val_config v))) ErrViewJump ;;
  match vc_HighestQC vc with
  | None => mret tt
  | Some qc =>
      ValidateQC now enforceActive (Some qc) ;;
      fail_if (vc_OldView vc <? q_View qc) ErrHighestQCView
  end ;;
  MarkMessageSeen (ViewChange_Hash vc).

Definition higher_qc (a b : option QC) : option QC :=
  match a, b with
  | _, None => a
  | None, Some _ => b
  | Some qa, Some qb => if q_View qa <? q_View qb then b else a
  end.

(** The loop over the proofs of a new view; returns the highest QC among them. *)
Fixpoint check_view_changes (now : Time) (enforceActive : bool) (view : Z) (senders : gset ValidatorID)
    (highest : option QC) (vcs : list ViewChange) : ValM (option QC) :=
  match vcs with
  | [] => mret highest
  | vc :: rest =>
      fail_if (bool_decide (SenderID vc ∈ senders)) ErrDuplicateSender ;;
      ValidateViewChange now enforceActive vc ;;
      fail_if (negb (vc_NewView vc =? view)) ErrTargetView ;;
      check_view_changes now enforceActive view ({[SenderID vc]} ∪ senders)
        (higher_qc highest (vc_HighestQC vc)) rest
  end.

Definition ValidateNewView (now : Time) (enforceActive : bool) (nv : NewView) : ValM unit :=
  reject_if (HasSeenMessage (NewView_Hash nv)) ErrSeen ;;
  fail_if (negb (IsValidator (nv_LeaderID nv))) ErrNotValidator ;;
  check_leader (nv_LeaderID nv) (nv_View nv) ;;
  fail_if (len (ViewChanges nv) =? 0) ErrNoViewChanges ;;
  reject_if (fun v => MaxViewChangeProofs (val_config v) <? len (ViewChanges nv)) ErrTooManyViewChanges ;;
  fail_if (len (ViewChanges nv) <? required_quorum GetValidatorCount) ErrViewChangeQuorum ;;
  highestQC ← check_view_changes now enforceActive (nv_View nv) ∅ None (ViewChanges nv);
  match nv_HighestQC nv with
  | None => mret tt
  | Some qc =>
      match highestQC with
      | None => throw ErrNoHighestQC
      | Some h =>
          fail_if (negb (bool_decide (QC_Hash qc = QC_Hash h))) ErrHighestQCMismatch ;;
          ValidateQC now enforceActive (Some qc)
      end
  end ;;
  MarkMessageSeen (NewView_Hash nv).

Definition ValidateHeartbeat (hb : Heartbeat) : ValM unit :=
  reject_if (HasSeenMessage (Heartbeat_Hash hb)) ErrSeen ;;
  fail_if (negb (IsValidator (hb_LeaderID hb))) ErrNotValidator ;;
  fail_if (negb (IsActiveInView (hb_LeaderID hb) (hb_View hb))) ErrNotActive ;;
  check_leader (hb_LeaderID hb) (hb_View hb) ;;
  reject_if (fun v => hb_View hb <? GetCurrentView v) ErrViewRegression ;;
  reject_if (fun v => beyond (hb_View hb) (GetCurrentView v) (MaxViewJump (val_config v))) ErrViewJump ;;
  MarkMessageSeen (Heartbeat_Hash hb).

Definition ValidateEvidence (now : Time) (ev : Evidence) : ValM unit :=
  reject_if (HasSeenMessage (Evidence_Hash ev)) ErrSeen ;;
  fail_if (negb (IsValidator (ReporterID ev))) ErrNotValidator ;;
  fail_if (negb (IsValidator (OffenderID ev))) ErrOffenderNotValidator ;;
  reject_if (fun v => MaxEvidenceAge (val_config v) <? Sub now (e_Timestamp ev)) ErrEvidenceAge ;;
  reject_if (fun v => beyond (e_View ev) (GetCurrentView v) (MaxViewJump (val_config v))) ErrViewJump ;;
  fail_if (len (e_Proof ev) =? 0) ErrEvidenceEmpty ;;
  MarkMessageSeen (Evidence_Hash ev).

(** ** The adapter of api/validator_adapter.go *)

(** It rebuilds the certificate from the [types.QC] interface, which has no
    round: the round is always 0. *)
Definition round0 (qc : QC) : QC :=
  MkQC (q_View qc) (q_Height qc) 0 (q_BlockHash qc) (Signatures qc) (q_Timestamp qc) zeroID.
Definition adapter_ValidateQC (now : Time) (enforceActive : bool) (qc : QC) : ValM unit :=
  ValidateQC now enforceActive (Some (round0 qc)).

End validation.

(** ** Invariants of validation *)

Section invariants.
Context {CS : CryptoService} {CL : @CryptoLaws CS} {C : LRU bytes bool} {LL : @LRULaws bytes bool C}
        {VS : ValidatorSet}.

(** Relative to the state a handler starts in: sound caches, seen hashes never
    forgotten, everything else untouched. *)
Record val_inv (v0 v : Validator) : Prop := {
  inv_encoder : enc_ok (val_encoder v);
  inv_config : val_config v = val_config v0;
  inv_view : GetCurrentView v = GetCurrentView v0;
  inv_height : GetCurrentHeight v = GetCurrentHeight v0;
  inv_restart : AllowRestartBootstrap v = AllowRestartBootstrap v0;
  inv_seen : seen v0 ⊆ seen v }.

Lemma val_inv_refl v : enc_ok (val_encoder v) -> val_inv v v.
Proof. by constructor. Qed.

Lemma keeps_reject_if v0 b err (Q : unit -> Prop) :
  (forall v, val_inv v0 v -> b v = false -> Q tt) -> keeps (val_inv v0) (reject_if b err) Q.
Proof.
  intros HQ v Hv. unfold reject_if, fail_if. destruct (b v) eqn:Hb; cbn; (split; [done|]); [done|].
  intros [] _. by apply (HQ v).
Qed.

Lemma keeps_check_leader v0 id view (Q : unit -> Prop) :
  (GetLeaderForView view = Some id -> Q tt) -> keeps (val_inv v0) (check_leader id view) Q.
Proof.
  intros HQ. unfold check_leader. destruct (GetLeaderForView view) as [l|]; [|apply keeps_throw].
  apply keeps_fail_if. intros H. go_bool. apply HQ. by subst.
Qed.

Lemma keeps_Mark v0 h (Q : unit -> Prop) : Q tt -> keeps (val_inv v0) (MarkMessageSeen h) Q.
Proof.
  intros HQ v [? ? ? ? ? ?]. cbn. split; [|by intros []]. constructor; cbn; try done. set_solver.
Qed.

Lemma keeps_encoder_VerifyQC v0 now qc :
  qc_wf qc -> keeps (val_inv v0) (encoder_VerifyQC now (Some qc)) (fun _ => qc_genuine qc).
Proof.
  intros Hwf v [He ? ? ? ? ?]. unfold encoder_VerifyQC.
  destruct (keeps_VerifyQC _ _ now qc Hwf _ (enc_ok_inv _ He)) as [[H1 _] H2].
  destruct (VerifyQC now (Some qc) (val_encoder v)) as [[[]|err] e]; cbn in *;
    (split; [by constructor|]); [|done].
  intros [] _. by apply (H2 ()).
Qed.

Record signers_ok (enforceActive : bool) (view : Z) (sigs : list Signature) : Prop := {
  signers_NoDup : NoDup (KeyID <$> sigs);
  signers_valid : Forall (fun s => IsValidator (KeyID s) = true) sigs;
  signers_active : enforceActive = true -> Forall (fun s => IsActiveInView (KeyID s) view = true) sigs }.

Lemma check_signers_Ok enforceActive view seenV sigs :
  check_signers enforceActive view seenV sigs = Ok tt ->
  signers_ok enforceActive view sigs /\ forall s, s ∈ sigs -> KeyID s ∉ seenV.
Proof.
  revert seenV. induction sigs as [|s sigs IH]; intros seenV; cbn [check_signers]; intros H.
  { split; [by repeat constructor|]. by intros s Hs%elem_of_nil. }
  destruct (bool_decide (KeyID s ∈ seenV)) eqn:Hseen; [done|].
  destruct (negb (IsValidator _)) eqn:Hv; [done|].
  destruct (negb (IsActiveInView _ _) && _) eqn:Ha; [done|]. go_bool.
  destruct (IH _ H) as [[Hnd Hval Hact] Hfresh]. split; [constructor|].
  - cbn. apply NoDup_cons. split; [|done]. intros (s' & Hk & Hs')%list_elem_of_fmap.
    apply (Hfresh s'); [done|]. rewrite <- Hk. set_solver.
  - by constructor.
  - intros ->. rewrite andb_true_r in Ha. go_bool. constructor; [done|by apply Hact].
  - intros s' [->|Hs']%elem_of_cons; [done|]. intros Hin. apply (Hfresh s'); [done|]. set_solver.
Qed.

(** What an accepted certificate is. *)
Record qc_valid (enforceActive : bool) (qc : QC) : Prop := {
  qc_signers : signers_ok enforceActive (q_View qc) (Signatures qc);
  qc_quorum : required_quorum GetValidatorCount <= len (Signatures qc);
  qc_signed : qc_genuine qc }.

Lemma keeps_ValidateQC v0 now enforceActive qc :
  qc_wf qc -> keeps (val_inv v0) (ValidateQC now enforceActive (Some qc)) (fun _ => qc_valid enforceActive qc).
Proof.
  intros Hwf. cbn [ValidateQC].
  eapply keeps_bind; [by apply (keeps_reject_if _ _ _ (fun _ => True))|intros [] _].
  eapply keeps_bind; [by apply (keeps_reject_if _ _ _ (fun _ => True))|intros [] _].
  eapply keeps_bind; [apply (keeps_fail_if _ _ _ (fun _ => required_quorum GetValidatorCount <= len (Signatures qc)))|intros [] Hq].
  { intros H. by go_bool. }
  eapply keeps_bind; [apply (keeps_lift _ _ (fun _ => signers_ok enforceActive (q_View qc) (Signatures qc)))|intros [] Hs].
  { intros [] H. by apply check_signers_Ok in H as [H _]. }
  eapply keeps_weaken; [by apply keeps_encoder_VerifyQC|]. by constructor.
Qed.

(** A wrapped window check is the plain one when the bound does not wrap. *)
Lemma beyond_false x current jump :
  0 <= current + jump < two64 -> beyond x current jump = false -> x <= current + jump.
Proof. intros H. unfold beyond, u64. rewrite Z.mod_small by done. intros Hb. by go_bool. Qed.

(** The conditions [ValidateProposal] imposes. *)
Record proposal_valid (v : Validator) (enforceActive : bool) (p : Proposal) : Prop := {
  pv_fresh : Proposal_Hash p ∉ seen v;
  pv_validator : IsValidator (ProposerID p) = true;
  pv_active : IsActiveInView (ProposerID p) (p_View p) = true;
  pv_leader : GetLeaderForView (p_View p) = Some (ProposerID p);
  pv_view : StrictMonotonicity (val_config v) = true -> GetCurrentView v <= p_View p;
  pv_view_jump : beyond (p_View p) (GetCurrentView v) (MaxViewJump (val_config v)) = false;
  pv_height : StrictMonotonicity (val_config v) = true -> GetCurrentHeight v <= p_Height p;
  pv_height_jump : beyond (p_Height p) (GetCurrentHeight v) (MaxHeightJump (val_config v)) = false;
  pv_justify qc : JustifyQC p = Some qc ->
    qc_valid enforceActive qc /\ q_BlockHash qc = ParentHash p /\ q_View qc < p_View p;
  pv_no_justify : JustifyQC p = None -> RequireJustifyQC (val_config v) = true -> 1 < p_Height p ->
    exists f, AllowRestartBootstrap v = Some f /\ f (ParentHash p) (p_Height p) = true }.

Lemma keeps_check_justify v0 now enforceActive p :
  (forall qc, JustifyQC p = Some qc -> qc_wf qc) ->
  keeps (val_inv v0) (check_justify now enforceActive p) (fun _ =>
    (forall qc, JustifyQC p = Some qc ->
       qc_valid enforceActive qc /\ q_BlockHash qc = ParentHash p /\ q_View qc < p_View p) /\
    (JustifyQC p = None -> RequireJustifyQC (val_config v0) = true -> 1 < p_Height p ->
       exists f, AllowRestartBootstrap v0 = Some f /\ f (ParentHash p) (p_Height p) = true)).
Proof.
  intros Hwf. unfold check_justify. destruct (JustifyQC p) as [qc|].
  - eapply keeps_bind; [by apply keeps_ValidateQC, Hwf|intros [] Hqc].
    eapply keeps_bind; [apply (keeps_fail_if _ _ _ (fun _ => q_BlockHash qc = ParentHash p)); intros; by go_bool|intros [] Hp].
    apply keeps_fail_if. intros H. go_bool. split; [|done]. intros qc' [= <-]. by split_and!.
  - apply keeps_reject_if. intros v Hv Hb. split; [done|]. intros _ Hr Hh.
    rewrite <- (inv_config _ _ Hv) in Hr. rewrite Hr in Hb. destruct (Z.ltb_spec 1 (p_Height p)); [|lia].
    rewrite (inv_restart _ _ Hv) in Hb. cbn in Hb. destruct (AllowRestartBootstrap v0) as [f|]; [|done].
    exists f. split; [done|]. by destruct (f _ _).
Qed.

Lemma keeps_ValidateProposal v now enforceActive p :
  (forall qc, JustifyQC p = Some qc -> qc_wf qc) ->
  keeps (val_inv v) (ValidateProposal now enforceActive p) (fun _ => proposal_valid v enforceActive p).
Proof.
  intros Hwf. unfold ValidateProposal.
  eapply keeps_bind; [apply (keeps_reject_if _ _ _ (fun _ => Proposal_Hash p ∉ seen v))|intros [] H1].
  { intros v' Hv Hs. unfold HasSeenMessage in Hs. go_bool. pose proof (inv_seen _ _ Hv). set_solver. }
  eapply keeps_bind; [apply (keeps_fail_if _ _ _ (fun _ => IsValidator (ProposerID p) = true)); intros; by go_bool|intros [] H2].
  eapply keeps_bind; [apply (keeps_fail_if _ _ _ (fun _ => IsActiveInView (ProposerID p) (p_View p) = true)); intros; by go_bool|intros [] H3].
  eapply keeps_bind; [apply (keeps_check_leader _ _ _ (fun _ => GetLeaderForView (p_View p) = Some (ProposerID p))); done|intros [] H4].
  eapply keeps_bind; [apply (keeps_reject_if _ _ _ (fun _ => StrictMonotonicity (val_config v) = true -> GetCurrentView v <= p_View p))|intros [] H5].
  { intros v' [? Hc Hvw ? ? ?] Hb Hs. rewrite Hc, Hs, Hvw in Hb. cbn in Hb. by go_bool. }
  eapply keeps_bind; [apply (keeps_reject_if _ _ _ (fun _ => beyond (p_View p) (GetCurrentView v) (MaxViewJump (val_config v)) = false))|intros [] H6].
  { intros v' [? Hc Hvw ? ? ?] Hb. by rewrite Hc, Hvw in Hb. }
  eapply keeps_bind; [apply (keeps_reject_if _ _ _ (fun _ => StrictMonotonicity (val_config v) = true -> GetCurrentHeight v <= p_Height p))|intros [] H7].
  { intros v' [? Hc ? Hh ? ?] Hb Hs. rewrite Hc, Hs, Hh in Hb. cbn in Hb. by go_bool. }
  eapply keeps_bind; [apply (keeps_reject_if _ _ _ (fun _ => beyond (p_Height p) (GetCurrentHeight v) (MaxHeightJump (val_config v)) = false))|intros [] H8].
  { intros v' [? Hc ? Hh ? ?] Hb. by rewrite Hc, Hh in Hb. }
  eapply keeps_bind; [by apply keeps_check_justify|intros [] [H9 H10]].
  apply keeps_Mark. by constructor.
Qed.
End invariants.

(** ** New views *)

Section new_views.
Context {CS : CryptoService} {CL : @CryptoLaws CS} {C : LRU bytes bool} {LL : @LRULaws bytes bool C}
        {VS : ValidatorSet}.

Record view_change_valid (enforceActive : bool) (vc : ViewChange) : Prop := {
  vcv_validator : IsValidator (SenderID vc) = true;
  vcv_active : IsActiveInView (SenderID vc) (vc_OldView vc) = true;
  vcv_order : vc_OldView vc < vc_NewView vc;
  vcv_qc qc : vc_HighestQC vc = Some qc -> qc_valid enforceActive qc /\ q_View qc <= vc_OldView vc }.

Definition vc_wf (vc : ViewChange) : Prop := forall qc, vc_HighestQC vc = Some qc -> qc_wf qc.

Lemma keeps_ValidateViewChange v0 now enforceActive vc :
  vc_wf vc ->
  keeps (val_inv v0) (ValidateViewChange now enforceActive vc) (fun _ => view_change_valid enforceActive vc).
Proof.
  intros Hwf. unfold ValidateViewChange.
  eapply keeps_bind; [by apply (keeps_reject_if _ _ _ (fun _ => True))|intros [] _].
  eapply keeps_bind; [apply (keeps_fail_if _ _ _ (fun _ => IsValidator (SenderID vc) = true)); intros; by go_bool|intros [] H1].
  eapply keeps_bind; [apply (keeps_fail_if _ _ _ (fun _ => IsActiveInView (SenderID vc) (vc_OldView vc) = true)); intros; by go_bool|intros [] H2].
  eapply keeps_bind; [apply (keeps_fail_if _ _ _ (fun _ => vc_OldView vc < vc_NewView vc)); intros; by go_bool|intros [] H3].
  eapply keeps_bind; [by apply (keeps_reject_if _ _ _ (fun _ => True))|intros [] _].
  eapply (keeps_bind _ _ _ (fun _ => forall qc, vc_HighestQC vc = Some qc ->
    qc_valid enforceActive qc /\ q_View qc <= vc_OldView vc)).
  { unfold vc_wf in Hwf. destruct (vc_HighestQC vc) as [qc|]; [|by apply keeps_ret].
    eapply keeps_bind; [by apply keeps_ValidateQC, Hwf|intros [] Hqc].
    apply keeps_fail_if. intros H. go_bool. by intros qc' [= <-]. }
  intros [] H4. apply keeps_Mark. by constructor.
Qed.

Definition qcs_of (vcs : list ViewChange) : list (option QC) := vc_HighestQC <$> vcs.

Lemma keeps_check_view_changes v0 now enforceActive view senders highest vcs :
  Forall vc_wf vcs ->
  keeps (val_inv v0) (check_view_changes now enforceActive view senders highest vcs) (fun r =>
    r = foldl higher_qc highest (qcs_of vcs) /\
    NoDup (SenderID <$> vcs) /\ (forall vc, vc ∈ vcs -> SenderID vc ∉ senders) /\
    Forall (fun vc => view_change_valid enforceActive vc /\ vc_NewView vc = view) vcs).
Proof.
  intros Hwf. revert senders highest. induction Hwf as [|vc vcs Hvc Hwf IH]; intros senders highest;
    cbn [check_view_changes].
  { apply keeps_ret. split_and!; [done|constructor| |constructor]. by intros vc H%elem_of_nil. }
  eapply keeps_bind; [apply (keeps_fail_if _ _ _ (fun _ => SenderID vc ∉ senders)); intros; by go_bool|intros [] H1].
  eapply keeps_bind; [by apply keeps_ValidateViewChange|intros [] H2].
  eapply keeps_bind; [apply (keeps_fail_if _ _ _ (fun _ => vc_NewView vc = view)); intros; by go_bool|intros [] H3].
  eapply keeps_weaken; [apply IH|]. intros r (-> & Hnd & Hfresh & Hall). cbn. split_and!; [done| | |by constructor].
  - apply NoDup_cons. split; [|done]. intros (vc' & Hk & Hvc')%list_elem_of_fmap.
    apply (Hfresh vc'); [done|]. rewrite <- Hk. set_solver.
  - intros vc' [->|Hvc']%elem_of_cons; [done|]. intros Hin. apply (Hfresh vc'); [done|]. set_solver.
Qed.

Lemma higher_qc_spec l h0 :
  match foldl higher_qc h0 l with
  | None => h0 = None /\ Forall (eq None) l
  | Some h => Some h ∈ h0 :: l /\ forall h', Some h' ∈ h0 :: l -> q_View h' <= q_View h
  end.
Proof.
  revert h0. induction l as [|b l IH]; intros h0; cbn.
  { destruct h0; [|by split]. split; [by left|]. intros h' [[= ->]|H%elem_of_nil]%elem_of_cons; [lia|done]. }
  specialize (IH (higher_qc h0 b)). destruct (foldl _ _ l) as [h|].
  - destruct IH as [Hin Hmax]. destruct h0 as [a|], b as [b|]; cbn [higher_qc] in *.
    + destruct (Z.ltb_spec (q_View a) (q_View b)).
      * split; [set_solver|]. intros h'. rewrite !elem_of_cons. intros [[= ->]|[[= ->]|H']].
        -- assert (q_View b <= q_View h) by (apply Hmax; by left). lia.
        -- apply Hmax. by left.
        -- apply Hmax. by right.
      * split; [set_solver|]. intros h'. rewrite !elem_of_cons. intros [[= ->]|[[= ->]|H']].
        -- apply Hmax. by left.
        -- assert (q_View a <= q_View h) by (apply Hmax; by left). lia.
        -- apply Hmax. by right.
    + split; [set_solver|]. intros h' H'. apply Hmax. set_solver.
    + split; [set_solver|]. intros h' H'. apply Hmax. set_solver.
    + split; [set_solver|]. intros h' H'. apply Hmax. set_solver.
  - destruct IH as [Hh Hl]. destruct h0 as [a|], b as [b|]; cbn [higher_qc] in Hh;
      try (destruct (_ <? _); discriminate); try discriminate. by split; [|constructor].
Qed.

(** What an accepted new view is. *)
Record new_view_valid (enforceActive : bool) (nv : NewView) : Prop := {
  nvv_leader : GetLeaderForView (nv_View nv) = Some (nv_LeaderID nv);
  nvv_senders : NoDup (SenderID <$> ViewChanges nv);
  nvv_quorum : required_quorum GetValidatorCount <= len (ViewChanges nv);
  nvv_changes : Forall (fun vc => view_change_valid enforceActive vc /\ vc_NewView vc = nv_View nv) (ViewChanges nv);
  nvv_qc qc : nv_HighestQC nv = Some qc -> qc_valid enforceActive qc /\
    exists h, Some h ∈ qcs_of (ViewChanges nv) /\ QC_Hash qc = QC_Hash h /\
      forall h', Some h' ∈ qcs_of (ViewChanges nv) -> q_View h' <= q_View h }.

Definition nv_wf (nv : NewView) : Prop :=
  Forall vc_wf (ViewChanges nv) /\ forall qc, nv_HighestQC nv = Some qc -> qc_wf qc.

Lemma keeps_ValidateNewView v0 now enforceActive nv :
  nv_wf nv ->
  keeps (val_inv v0) (ValidateNewView now enforceActive nv) (fun _ => new_view_valid enforceActive nv).
Proof.
  intros [Hvcs Hqcwf]. unfold ValidateNewView.
  eapply keeps_bind; [by apply (keeps_reject_if _ _ _ (fun _ => True))|intros [] _].
  eapply keeps_bind; [by apply (keeps_fail_if _ _ _ (fun _ => True))|intros [] _].
  eapply keeps_bind; [by apply (keeps_check_leader _ _ _ (fun _ => GetLeaderForView (nv_View nv) = Some (nv_LeaderID nv)))|intros [] H1].
  eapply keeps_bind; [by apply (keeps_fail_if _ _ _ (fun _ => True))|intros [] _].
  eapply keeps_bind; [by apply (keeps_reject_if _ _ _ (fun _ => True))|intros [] _].
  eapply keeps_bind; [apply (keeps_fail_if _ _ _ (fun _ => required_quorum GetValidatorCount <= len (ViewChanges nv))); intros; by go_bool|intros [] H2].
  eapply keeps_bind; [by apply keeps_check_view_changes|]. intros r (-> & H3 & _ & H4).
  pose proof (higher_qc_spec (qcs_of (ViewChanges nv)) None) as Hmax.
  eapply (keeps_bind _ _ _ (fun _ => forall qc, nv_HighestQC nv = Some qc -> qc_valid enforceActive qc /\
    exists h, Some h ∈ qcs_of (ViewChanges nv) /\ QC_Hash qc = QC_Hash h /\
      forall h', Some h' ∈ qcs_of (ViewChanges nv) -> q_View h' <= q_View h)).
  { destruct (nv_HighestQC nv) as [qc|]; [|by apply keeps_ret].
    destruct (foldl _ _ _) as [h|]; [|apply keeps_throw]. destruct Hmax as [Hin Hmax].
    eapply keeps_bind; [apply (keeps_fail_if _ _ _ (fun _ => QC_Hash qc = QC_Hash h)); intros; by go_bool|intros [] H5].
    eapply keeps_weaken; [by apply keeps_ValidateQC, Hqcwf|]. intros [] H6 qc' [= <-]. split; [exact H6|].
    exists h. apply elem_of_cons in Hin as [Hin|Hin]; [discriminate|].
    split; [exact Hin|]. split; [exact H5|]. intros h' Hh'. apply Hmax. by right. }
  intros [] H5. apply keeps_Mark. by constructor.
Qed.
End new_views.

(** ** Replay protection *)

Section replay.
Context {CS : CryptoService} {C : LRU bytes bool} {VS : ValidatorSet}.

(** A call of the validator, with the clock and the switch it reads. *)
Inductive call :=
| CProposal (now : Time) (enforceActive : bool) (p : Proposal)
| CVote (vote : Vote)
| CViewChange (now : Time) (enforceActive : bool) (vc : ViewChange)
| CNewView (now : Time) (enforceActive : bool) (nv : NewView)
| CHeartbeat (hb : Heartbeat)
| CEvidence (now : Time) (ev : Evidence).

Definition run_call (c : call) : ST Validator val_error unit :=
  match c with
  | CProposal now ea p => ValidateProposal now ea p
  | CVote vote => ValidateVote vote
  | CViewChange now ea vc => ValidateViewChange now ea vc
  | CNewView now ea nv => ValidateNewView now ea nv
  | CHeartbeat hb => ValidateHeartbeat hb
  | CEvidence now ev => ValidateEvidence now ev
  end.

(** The message a call is about. *)
Definition call_message (c : call) : Message :=
  match c with
  | CProposal _ _ p => MProposal p | CVote vote => MVote vote | CViewChange _ _ vc => MViewChange vc
  | CNewView _ _ nv => MNewView nv | CHeartbeat hb => MHeartbeat hb | CEvidence _ ev => MEvidence ev
  end.

Definition run_calls (cs : list call) (v : Validator) : Validator :=
  foldl (fun v c => (run_call c v).2) v cs.

Lemma call_seen c v : Message_Hash (call_message c) ∈ seen v -> run_call c v = (Err ErrSeen, v).
Proof.
  intros H. destruct c; cbn [run_call call_message] in *;
    unfold ValidateProposal, ValidateVote, ValidateViewChange, ValidateNewView, ValidateHeartbeat, ValidateEvidence;
    unfold mbind at 1; unfold ST_bind, reject_if at 1, HasSeenMessage, fail_if at 1;
    rewrite bool_decide_eq_true_2 by exact H; reflexivity.
Qed.

(** A successful call leaves its message's hash in the seen set. *)
Definition marks (h : bytes) (m : ST (@Validator CS C) val_error unit) : Prop :=
  forall v v', m v = (Ok tt, v') -> h ∈ seen v'.

Lemma marks_bind {A} h (m : ST Validator val_error A) f : (forall a, marks h (f a)) -> marks h (m ≫= f).
Proof. intros Hf v v' Hr. apply ST_bind_Ok in Hr as (a & v1 & _ & Hr). by eapply Hf. Qed.

Lemma marks_Mark h : marks h (MarkMessageSeen h).
Proof. intros v v' [= <-]. cbn. set_solver. Qed.

Lemma call_marks c : marks (Message_Hash (call_message c)) (run_call c).
Proof.
  destruct c; cbn [run_call call_message];
    unfold ValidateProposal, ValidateVote, ValidateViewChange, ValidateNewView, ValidateHeartbeat, ValidateEvidence;
    repeat (apply marks_bind; intros ?); apply marks_Mark.
Qed.

(** No call, accepted or not, forgets a hash. *)
Definition keeps_seen {A} (m : ST (@Validator CS C) val_error A) : Prop := forall v, seen v ⊆ seen (m v).2.

Lemma keeps_seen_bind {A B} (m : ST Validator val_error A) (f : A -> ST Validator val_error B) :
  keeps_seen m -> (forall a, keeps_seen (f a)) -> keeps_seen (m ≫= f).
Proof.
  intros Hm Hf v. unfold mbind, ST_bind. specialize (Hm v). destruct (m v) as [[a|e] v']; cbn in *; [|done].
  specialize (Hf a v'). set_solver.
Qed.
Lemma keeps_seen_reject b err : keeps_seen (reject_if b err).
Proof. intros v. unfold reject_if, fail_if. by destruct (b v). Qed.
Lemma keeps_seen_fail b err : keeps_seen (fail_if b err).
Proof. intros v. unfold fail_if. by destruct b. Qed.
Lemma keeps_seen_throw {A} err : keeps_seen (A:=A) (throw err).
Proof. by intros v. Qed.
Lemma keeps_seen_ret {A} (a : A) : keeps_seen (mret a).
Proof. by intros v. Qed.
Lemma keeps_seen_lift {A} (r : result val_error A) : keeps_seen (lift r).
Proof. by intros v. Qed.
Lemma keeps_seen_Mark h : keeps_seen (MarkMessageSeen h).
Proof. intros v. cbn. set_solver. Qed.
Lemma keeps_seen_leader id view : keeps_seen (check_leader id view).
Proof. unfold check_leader. destruct (GetLeaderForView view); [apply keeps_seen_fail|apply keeps_seen_throw]. Qed.
Lemma keeps_seen_VerifyQC now qc : keeps_seen (encoder_VerifyQC now qc).
Proof. intros v. unfold encoder_VerifyQC. by destruct (VerifyQC now qc (val_encoder v)) as [[|] e]. Qed.

#[local] Hint Resolve keeps_seen_bind keeps_seen_reject keeps_seen_fail keeps_seen_throw keeps_seen_ret
  keeps_seen_lift keeps_seen_Mark keeps_seen_leader keeps_seen_VerifyQC : keeps_seen.

Lemma keeps_seen_QC now ea qc : keeps_seen (ValidateQC now ea qc).
Proof. destruct qc; cbn [ValidateQC]; auto 10 with keeps_seen. Qed.
#[local] Hint Resolve keeps_seen_QC : keeps_seen.

Lemma keeps_seen_justify now ea p : keeps_seen (check_justify now ea p).
Proof. unfold check_justify. destruct (JustifyQC p); auto 10 with keeps_seen. Qed.
#[local] Hint Resolve keeps_seen_justify : keeps_seen.

Lemma keeps_seen_view_change now ea vc : keeps_seen (ValidateViewChange now ea vc).
Proof. unfold ValidateViewChange. destruct (vc_HighestQC vc); auto 20 with keeps_seen. Qed.
#[local] Hint Resolve keeps_seen_view_change : keeps_seen.

Lemma keeps_seen_view_changes now ea view senders highest vcs :
  keeps_seen (check_view_changes now ea view senders highest vcs).
Proof.
  revert senders highest. induction vcs as [|vc vcs IH]; intros senders highest; cbn [check_view_changes];
    auto 10 with keeps_seen.
Qed.
#[local] Hint Resolve keeps_seen_view_changes : keeps_seen.

Lemma keeps_seen_call c : keeps_seen (run_call c).
Proof.
  destruct c; cbn [run_call];
    unfold ValidateProposal, ValidateVote, ValidateNewView, ValidateHeartbeat, ValidateEvidence;
    repeat (apply keeps_seen_bind; [|intros ?]); repeat case_match; auto 10 with keeps_seen.
Qed.

Lemma run_calls_seen cs v : seen v ⊆ seen (run_calls cs v).
Proof.
  revert v. induction cs as [|c cs IH]; intros v; cbn; [done|].
  pose proof (keeps_seen_call c v). specialize (IH (run_call c v).2). unfold run_calls in *. set_solver.
Qed.
End replay.

(** ** Properties *)

(** C16. [ValidateQC], on a validator whose encoder's caches are sound: an accepted
    certificate carries at least 2f+1 signatures, all from different keys, every
    key a validator (an active one in strict mode), and every signature is its
    signer's vote for exactly this certificate; the validator's caches stay
    sound and nothing else of it changes, on every outcome. *)
Theorem ValidateQC_sound {CS : CryptoService} {CL : @CryptoLaws CS} {C : LRU bytes bool}
    {LL : @LRULaws bytes bool C} {VS : ValidatorSet} (now : Time) (enforceActive : bool) (qc : QC) (v : Validator)
    (Hok : enc_ok (val_encoder v)) (Hwf : qc_wf qc) :
  val_inv v (ValidateQC now enforceActive (Some qc) v).2 /\
  ((ValidateQC now enforceActive (Some qc) v).1 = Ok tt -> qc_valid enforceActive qc).
Proof.
  destruct (keeps_ValidateQC v now enforceActive qc Hwf v (val_inv_refl v Hok)) as [H1 H2].
  split; [exact H1|apply H2].
Qed.

(** [ValidateProposal]: an accepted proposal comes from the active leader of its
    view, its view and height are inside the monotone windows above the current
    ones, and it either carries a valid certificate for its parent from an
    earlier view, or is exempt (height 1, or the restart bootstrap); its hash was
    new and is now remembered. *)
Theorem ValidateProposal_sound {CS : CryptoService} {CL : @CryptoLaws CS} {C : LRU bytes bool}
    {LL : @LRULaws bytes bool C} {VS : ValidatorSet} (now : Time) (enforceActive : bool) (p : Proposal)
    (v v' : Validator) (Hok : enc_ok (val_encoder v)) (Hwf : forall qc, JustifyQC p = Some qc -> qc_wf qc)
    (Hview : 0 <= GetCurrentView v + MaxViewJump (val_config v) < two64)
    (Hrun : ValidateProposal now enforceActive p v = (Ok tt, v')) :
  proposal_valid v enforceActive p /\
  p_View p <= GetCurrentView v + MaxViewJump (val_config v) /\
  Proposal_Hash p ∈ seen v' /\ val_inv v v'.
Proof.
  destruct (keeps_ValidateProposal v now enforceActive p Hwf v (val_inv_refl v Hok)) as [H1 H2].
  rewrite Hrun in H1, H2. specialize (H2 tt eq_refl).
  split; [exact H2|]. split; [apply beyond_false; [done|apply H2]|]. split; [|exact H1].
  exact (call_marks (CProposal now enforceActive p) v v' Hrun).
Qed.

(** [ValidateNewView]: an accepted new view comes from the leader of its view and
    carries a quorum of view changes from different validators, each moving
    forward to exactly that view with a valid certificate no newer than the view
    it leaves; the certificate it announces is valid and has the hash of one of
    maximal view among theirs. *)
Theorem ValidateNewView_sound {CS : CryptoService} {CL : @CryptoLaws CS} {C : LRU bytes bool}
    {LL : @LRULaws bytes bool C} {VS : ValidatorSet} (now : Time) (enforceActive : bool) (nv : NewView)
    (v v' : Validator) (Hok : enc_ok (val_encoder v)) (Hwf : nv_wf nv)
    (Hrun : ValidateNewView now enforceActive nv v = (Ok tt, v')) :
  new_view_valid enforceActive nv /\ val_inv v v'.
Proof.
  destruct (keeps_ValidateNewView v now enforceActive nv Hwf v (val_inv_refl v Hok)) as [H1 H2].
  rewrite Hrun in H1, H2. split; [exact (H2 tt eq_refl)|exact H1].
Qed.

(** Replay protection: once a message is accepted, every later call on a message
    with the same hash is refused as already seen, whatever sequence of accepted
    and refused messages came in between. *)
Theorem accepted_once {CS : CryptoService} {C : LRU bytes bool} {VS : ValidatorSet}
    (c c' : call) (cs : list call) (v v' : Validator)
    (Hrun : run_call c v = (Ok tt, v'))
    (Hsame : Message_Hash (call_message c') = Message_Hash (call_message c)) :
  run_call c' (run_calls cs v') = (Err ErrSeen, run_calls cs v').
Proof.
  apply call_seen. rewrite Hsame. apply (run_calls_seen cs v').
  exact (call_marks c v v' Hrun).
Qed.

(** The key that signs a vote is not compared with the voter it names: a
    signature by any known key over a vote naming another validator passes both
    the encoder's signature check and [ValidateVote] (when the vote, correctly
    signed, would). *)
Theorem vote_impersonation {CS : CryptoService} {C : LRU bytes bool} {VS : ValidatorSet}
    (now : Time) (vote : Vote) (forger : ValidatorID) (pk sigBytes : bytes) (v v' : Validator)
    (Hvote : ValidateVote vote v = (Ok tt, v'))
    (Hkey : GetPublicKey (enc_crypto (val_encoder v)) forger = Some pk)
    (Hsig : (VerifyWithContext now (enc_crypto (val_encoder v)) (Vote_SignBytes vote) sigBytes pk false).1 = true) :
  let forged := MkVote (v_View vote) (v_Height vote) (v_Round vote) (v_BlockHash vote) (VoterID vote)
                  (v_Timestamp vote) (MkSig sigBytes forger (v_Timestamp vote)) in
  (verifyMessage now (MVote forged) (val_encoder v)).1 = Ok tt /\
  ValidateVote forged v = (Ok tt, v').
Proof.
  intros forged. split; [|exact Hvote].
  by apply verifyMessage_accepts with (pk := pk).
Qed.

(** ** Witnesses *)

#[export] Instance demo_set : ValidatorSet := list_validators demo_members.
Definition demo_validator : @Validator demo_crypto map_LRU :=
  MkValidator DefaultValidationConfig demo_encoder 6 2 ∅ None.
Definition demo_proposal : Proposal :=
  MkProposal 6 3 0 (demo_id 78) (demo_id 77) (demo_id 3) (time_Unix 1700000001) (Some demo_qc) None (demo_sig 3).
Definition demo_view_change (i : Z) (qc : option QC) : ViewChange :=
  MkViewChange 6 7 3 qc (demo_id i) (time_Unix 1700000001) (demo_sig i).
Definition demo_new_view : NewView :=
  MkNewView 7 3 [demo_view_change 1 None; demo_view_change 2 (Some demo_qc); demo_view_change 3 None]
    (Some demo_qc) (demo_id 4) (time_Unix 1700000001) (demo_sig 4).

Lemma demo_qc_wf : qc_wf demo_qc.
Proof. unfold qc_wf. cbn. repeat constructor. Qed.

Lemma ValidateQC_sound_witness :
  (ValidateQC demo_clock true (Some demo_qc) demo_validator).1 = Ok tt /\ qc_valid true demo_qc.
Proof.
  assert (Hr : (ValidateQC demo_clock true (Some demo_qc) demo_validator).1 = Ok tt) by (vm_compute; reflexivity).
  split; [exact Hr|].
  exact (proj2 (ValidateQC_sound demo_clock true demo_qc demo_validator demo_encoder_ok demo_qc_wf) Hr).
Defined.

Lemma ValidateProposal_sound_witness :
  (ValidateProposal demo_clock true demo_proposal demo_validator).1 = Ok tt /\
  proposal_valid demo_validator true demo_proposal.
Proof.
  assert (Hr : (ValidateProposal demo_clock true demo_proposal demo_validator).1 = Ok tt) by (vm_compute; reflexivity).
  split; [exact Hr|].
  refine (proj1 (ValidateProposal_sound demo_clock true demo_proposal demo_validator _ demo_encoder_ok _ _
    (run_Ok _ _ _ Hr))).
  - intros qc [= <-]. exact demo_qc_wf.
  - unfold two64. cbn. lia.
Defined.

Lemma ValidateNewView_sound_witness :
  (ValidateNewView demo_clock true demo_new_view demo_validator).1 = Ok tt /\
  new_view_valid true demo_new_view.
Proof.
  assert (Hr : (ValidateNewView demo_clock true demo_new_view demo_validator).1 = Ok tt) by (vm_compute; reflexivity).
  split; [exact Hr|].
  refine (proj1 (ValidateNewView_sound demo_clock true demo_new_view demo_validator _ demo_encoder_ok _
    (run_Ok _ _ _ Hr))).
  split.
  - apply Forall_cons; split; [intros qc Hqc; discriminate Hqc|].
    apply Forall_cons; split; [intros qc [= <-]; exact demo_qc_wf|].
    apply Forall_singleton. intros qc Hqc. discriminate Hqc.
  - cbn. intros qc [= <-]. exact demo_qc_wf.
Defined.

Lemma accepted_once_witness :
  (run_call (CVote (demo_vote 1)) demo_validator).1 = Ok tt /\
  (run_call (CVote (demo_vote 1))
     (run_calls [CVote (demo_vote 2)] (run_call (CVote (demo_vote 1)) demo_validator).2)).1 = Err ErrSeen.
Proof.
  assert (Hr : (run_call (CVote (demo_vote 1)) demo_validator).1 = Ok tt) by (vm_compute; reflexivity).
  split; [exact Hr|].
  rewrite (accepted_once (CVote (demo_vote 1)) (CVote (demo_vote 1)) [CVote (demo_vote 2)] demo_validator _
    (run_Ok _ _ _ Hr) eq_refl). reflexivity.
Defined.

(** Validator 2 votes in the name of validator 1. *)
Definition forged_table : list (bytes * bytes) := [(demo_id 2, Vote_SignBytes (demo_vote 1))].
Definition forged_crypto : CryptoService := table_crypto forged_table.
Definition forged_validator : @Validator forged_crypto map_LRU :=
  MkValidator DefaultValidationConfig
    (@NewEncoder forged_crypto map_LRU (() : @crypto forged_crypto) DefaultEncoderConfig) 6 2 ∅ None.

Lemma vote_impersonation_witness :
  let forged := MkVote 5 2 0 (demo_id 77) (demo_id 1) (time_Unix 1700000000)
                  (MkSig [x01] (demo_id 2) (time_Unix 1700000000)) in
  (verifyMessage demo_clock (MVote forged) (val_encoder forged_validator)).1 = Ok tt /\
  (ValidateVote forged forged_validator).1 = Ok tt.
Proof.
  assert (Hr : (ValidateVote (demo_vote 1) forged_validator).1 = Ok tt) by (vm_compute; reflexivity).
  destruct (vote_impersonation demo_clock (demo_vote 1) (demo_id 2) (demo_id 2) [x01] forged_validator _
    (run_Ok _ _ _ Hr)) as [H1 H2].
  - reflexivity.
  - vm_compute. reflexivity.
  - split; [exact H1|]. exact (f_equal fst H2).
Defined.
