(* ===== verification/Quorum.v ===== *)
(** backend/pkg/consensus/pbft/quorum.go: quorum arithmetic, the verifier of
    quorum certificates with its cache, and the aggregation of votes; with the
    agreement theorem the protocol rests on. *)
From stdpp Require Import pretty fin_sets.
From S2P Require Import Prelude Bytes Sha256 GoTime Messages Interfaces Encoder Validation.

Inductive quorum_error :=
| PanicNilQC | ErrNilQC | ErrNoSignatures | ErrBelowQuorum | ErrDuplicateSigner
| ErrNonValidator | ErrInactiveSigner | ErrEncoder (e : enc_error)
| ErrTooFewValidators | ErrQuorumExceeds | ErrCannotTolerate
| ErrInsufficientVotes | ErrNoVotes | ErrDifferentBlocks | ErrDifferentViews | ErrDifferentHeights.

#[export] Instance quorum_error_eq_dec : EqDecision quorum_error.
Proof. solve_decision. Defined.

(** ** Arithmetic *)

Definition calculateF (totalValidators : Z) : Z :=
  if totalValidators <=? 0 then 0 else Z.quot (totalValidators - 1) 3.
Definition calculateQuorum (f : Z) : Z := 2 * f + 1.

Definition ValidateQuorumMath (totalValidators : Z) : result quorum_error unit :=
  if totalValidators <? 4 then Err ErrTooFewValidators
  else
    let f := calculateF totalValidators in
    let quorum := calculateQuorum f in
    if totalValidators <? quorum then Err ErrQuorumExceeds
    else if totalValidators - f <? quorum then Err ErrCannotTolerate
    else Ok tt.

(** ** Certificates behind the [types.QC] interface *)

(** [*messages.QC] and [*pbft.QuorumCertificate] have the same getters and
    different [Hash] methods. *)
Inductive IQC := MessagesQC (qc : QC) | PbftQC (qc : QC).
Definition iqc (q : IQC) : QC := match q with MessagesQC qc | PbftQC qc => qc end.
Definition IQC_Hash (q : IQC) : BlockHash :=
  match q with MessagesQC qc => QC_Hash qc | PbftQC qc => q_BlockHash qc end.

(** ** The verifier *)

Record QuorumConfig := MkQuorumConfig {
  EnableCache : bool; StrictValidation : bool; RequireUniqueVoters : bool; qcfg_AllowSelfVoting : bool;
  HasStoreEvidence : bool }.
Definition DefaultQuorumConfig : QuorumConfig := MkQuorumConfig true true true false false.

Section verifier.
Context {CS : CryptoService} {C : LRU bytes bool} {VS : ValidatorSet}.

(** [qv_evidence]: what was handed to the storeEvidence callback, last first. *)
Record QuorumVerifier := MkQuorumVerifier {
  qv_config : QuorumConfig; qv_encoder : Encoder; qcCache : lru; qv_evidence : list Evidence }.

Abbreviation QM := (ST QuorumVerifier quorum_error).

Definition HasQuorum (voteCount : Z) : bool :=
  calculateQuorum (calculateF GetValidatorCount) <=? voteCount.
Definition GetQuorumThreshold : Z := calculateQuorum (calculateF GetValidatorCount).
Definition GetByzantineTolerance : Z := calculateF GetValidatorCount.

Definition qv_with_encoder (e : Encoder) (qv : QuorumVerifier) : QuorumVerifier :=
  MkQuorumVerifier (qv_config qv) e (qcCache qv) (qv_evidence qv).
Definition qv_with_cache (c : lru) (qv : QuorumVerifier) : QuorumVerifier :=
  MkQuorumVerifier (qv_config qv) (qv_encoder qv) c (qv_evidence qv).
Definition qv_with_evidence (ev : list Evidence) (qv : QuorumVerifier) : QuorumVerifier :=
  MkQuorumVerifier (qv_config qv) (qv_encoder qv) (qcCache qv) ev.

Definition zero_sig : Signature := MkSig [] zeroID zero_time.

Definition createDuplicateSignerEvidence (now : Time) (qc : QC) (offenderID : ValidatorID) (sigIndex : Z) : Evidence :=
  MkEvidence EvidenceInvalidSignature (q_View qc) (q_Height qc) offenderID
    (str "duplicate_signer_in_qc:view=" ++ str (pretty (q_View qc)) ++ str ":index=" ++ str (pretty sigIndex))
    zeroID now zero_sig.

(** [qv.encoder] is the adapter of api/encoder_adapter.go: round 0. *)
Definition adapter_VerifyQC (now : Time) (qc : QC) : QM unit := fun qv =>
  match VerifyQC now (Some (round0 qc)) (qv_encoder qv) with
  | (Ok _, e) => (Ok tt, qv_with_encoder e qv)
  | (Err err, e) => (Err (ErrEncoder err), qv_with_encoder e qv)
  end.

Definition store_evidence (ev : Evidence) : QM unit :=
  modify (fun qv => if HasStoreEvidence (qv_config qv) then qv_with_evidence (ev :: qv_evidence qv) qv else qv).

Fixpoint verify_signers (now : Time) (qc : QC) (seenValidators : gset ValidatorID) (i : Z) (sigs : list Signature)
  : QM unit :=
  match sigs with
  | [] => mret tt
  | sig :: rest =>
      unique ← gets (fun qv => RequireUniqueVoters (qv_config qv));
      if unique && bool_decide (KeyID sig ∈ seenValidators) then
        store_evidence (createDuplicateSignerEvidence now qc (KeyID sig) i) ;;
        throw ErrDuplicateSigner
      else
        fail_if (negb (IsValidator (KeyID sig))) ErrNonValidator ;;
        fail_if (negb (IsActiveInView (KeyID sig) (q_View qc))) ErrInactiveSigner ;;
        verify_signers now qc ({[KeyID sig]} ∪ seenValidators) (i + 1) rest
  end.

Definition verifyQCInternal (now : Time) (qc : option IQC) : QM unit :=
  match qc with
  | None => throw ErrNilQC
  | Some q =>
      let qc := iqc q in
      fail_if (len (Signatures qc) =? 0) ErrNoSignatures ;;
      fail_if (len (Signatures qc) <? GetQuorumThreshold) ErrBelowQuorum ;;
      verify_signers now qc ∅ 0 (Signatures qc) ;;
      adapter_VerifyQC now qc
  end.

Definition qc_cached (now : Time) (h : BlockHash) : QM bool := fun qv =>
  let '(r, c) := lru_Get now (qcCache qv) h in
  (Ok (bool_decide (r = Some true)), qv_with_cache c qv).
Definition qc_cache_add (now : Time) (h : BlockHash) : QM unit :=
  modify (fun qv => qv_with_cache (lru_Add now (qcCache qv) h true) qv).

(** With the cache enabled a nil certificate is dereferenced ([qc.Hash()])
    before the nil check of [verifyQCInternal]. *)
Definition QV_VerifyQC (now : Time) (qc : option IQC) : QM unit :=
  enabled ← gets (fun qv => EnableCache (qv_config qv));
  if enabled : bool then
    match qc with
    | None => throw PanicNilQC
    | Some q =>
        hit ← qc_cached now (IQC_Hash q);
        if hit : bool then mret tt
        else verifyQCInternal now qc ;; qc_cache_add now (IQC_Hash q)
    end
  else verifyQCInternal now qc.

(** The three [range]s over the vote map, each in an order of its own. *)
Fixpoint same_target (first : Vote) (votes : list (ValidatorID * Vote)) : result quorum_error unit :=
  match votes with
  | [] => Ok tt
  | (_, vote) :: rest =>
      if negb (bool_decide (v_BlockHash vote = v_BlockHash first)) then Err ErrDifferentBlocks
      else if negb (v_View vote =? v_View first) then Err ErrDifferentViews
      else if negb (v_Height vote =? v_Height first) then Err ErrDifferentHeights
      else same_target first rest
  end.

Definition AggregateVotes (order1 order2 order3 : list (ValidatorID * Vote)) (aggregatorID : ValidatorID)
  : result quorum_error IQC :=
  if negb (HasQuorum (len order1)) then Err ErrInsufficientVotes
  else
    match order1 with
    | [] => Err ErrNoVotes
    | (_, firstVote) :: _ =>
        _ ← same_target firstVote order2;
        Ok (PbftQC (MkQC (v_View firstVote) (v_Height firstVote) (v_Round firstVote) (v_BlockHash firstVote)
              (v_Signature <$> order3.*2) (v_Timestamp firstVote) aggregatorID))
    end.

Definition QV_ClearCache (qv : QuorumVerifier) : QuorumVerifier := qv_with_cache (lru_Purge (qcCache qv)) qv.

End verifier.

(** ** Counting *)

(** Two lists of distinct members that together outnumber the membership by
    more than the exceptions share a member that is not an exception. *)
Lemma overlap {A} `{EqDecision A} (M S1 S2 F : list A) :
  NoDup S1 -> NoDup S2 -> (forall x, x ∈ S1 -> x ∈ M) -> (forall x, x ∈ S2 -> x ∈ M) ->
  len F + len M < len S1 + len S2 -> exists x, x ∈ S1 /\ x ∈ S2 /\ x ∉ F.
Proof.
  intros H1 H2 HM1 HM2 Hlt.
  destruct (decide (Exists (fun x => x ∈ S1 /\ x ∉ F) S2)) as [He|Hn].
  { apply Exists_exists in He as (x & Hx & Hx1 & HxF). by exists x. }
  exfalso. rewrite <- Forall_Exists_neg, Forall_forall in Hn.
  assert (HF : (length (filter (.∈ S1) S2) <= length F)%nat).
  { apply submseteq_length, NoDup_submseteq; [by apply NoDup_filter|].
    intros x [Hx1 Hx2]%list_elem_of_filter. destruct (decide (x ∈ F)); [done|]. by destruct (Hn x). }
  assert (HM : (length (S1 ++ filter (.∉ S1) S2) <= length M)%nat).
  { apply submseteq_length, NoDup_submseteq.
    - apply NoDup_app. split_and!; [done| |by apply NoDup_filter].
      intros x Hx [Hx' _]%list_elem_of_filter. done.
    - intros x [Hx|[_ Hx]%list_elem_of_filter]%elem_of_app; auto. }
  assert (Hs : (length (filter (.∈ S1) S2) + length (filter (.∉ S1) S2) = length S2)%nat).
  { rewrite <- length_app. apply Permutation_length, (filter_app_complement (.∈ S1)). }
  rewrite length_app in HM. unfold len in Hlt. lia.
Qed.

Lemma calculateF_required N : 0 <= N -> calculateQuorum (calculateF N) = required_quorum N.
Proof.
  intros H. unfold calculateQuorum, calculateF, required_quorum.
  destruct (Z.leb_spec N 0); [|done]. by replace N with 0 by lia.
Qed.

Lemma calculateF_div N : 1 <= N -> calculateF N = (N - 1) / 3.
Proof.
  intros H. unfold calculateF. destruct (Z.leb_spec N 0); [lia|]. rewrite Z.quot_div_nonneg; lia.
Qed.

(** ** Soundness of the verifier *)

Section soundness.
Context {CS : CryptoService} {CL : @CryptoLaws CS} {C : LRU bytes bool} {LL : @LRULaws bytes bool C}
        {VS : ValidatorSet} {VL : @ValidatorSetLaws VS}.

Lemma count_nonneg : 0 <= GetValidatorCount.
Proof. rewrite GetValidatorCount_spec. apply len_nonneg. Qed.

(** The cache holds only hashes of certificates that were valid. *)
Definition certified (h : BlockHash) : Prop :=
  exists q, IQC_Hash q = h /\ qc_valid true (round0 (iqc q)).

Record qv_inv (cfg : QuorumConfig) (qv : QuorumVerifier) : Prop := {
  qvi_encoder : enc_ok (qv_encoder qv);
  qvi_config : qv_config qv = cfg;
  qvi_cache h : lru_mem (qcCache qv) h true -> certified h }.

Lemma keeps_store_evidence cfg ev : keeps (qv_inv cfg) (store_evidence ev) (fun _ => True).
Proof. intros qv [? ? ?]. cbn. split; [|done]. by destruct (HasStoreEvidence (qv_config qv)). Qed.

Lemma keeps_adapter_VerifyQC cfg now qc :
  qc_wf qc -> keeps (qv_inv cfg) (adapter_VerifyQC now qc) (fun _ =>
    NoDup (KeyID <$> Signatures qc) /\ qc_genuine (round0 qc)).
Proof.
  intros Hwf qv [He ? ?]. unfold adapter_VerifyQC.
  destruct (keeps_VerifyQC _ _ now (round0 qc) Hwf _ (enc_ok_inv _ He)) as [[H1 _] H2].
  destruct (VerifyQC now (Some (round0 qc)) (qv_encoder qv)) as [[[]|err] e]; cbn in *;
    (split; [by constructor|]); [|done].
  intros [] _. by destruct (H2 () eq_refl) as (Hnd & _ & _ & Hg).
Qed.

Lemma keeps_verify_signers cfg now qc seenV i sigs :
  keeps (qv_inv cfg) (verify_signers now qc seenV i sigs) (fun _ =>
    Forall (fun s => IsValidator (KeyID s) = true) sigs /\
    Forall (fun s => IsActiveInView (KeyID s) (q_View qc) = true) sigs).
Proof.
  revert seenV i. induction sigs as [|s sigs IH]; intros seenV i; cbn [verify_signers].
  { apply keeps_ret. by split. }
  eapply (keeps_bind _ _ _ (fun _ => True)); [by intros qv Hqv|]. intros unique _.
  destruct (unique && _).
  { eapply keeps_bind; [apply keeps_store_evidence|]. intros [] _. apply keeps_throw. }
  eapply keeps_bind; [apply (keeps_fail_if _ _ _ (fun _ => IsValidator (KeyID s) = true)); intros; by go_bool|intros [] H1].
  eapply keeps_bind; [apply (keeps_fail_if _ _ _ (fun _ => IsActiveInView (KeyID s) (q_View qc) = true)); intros; by go_bool|intros [] H2].
  eapply keeps_weaken; [apply IH|]. intros [] [H3 H4]. by split; constructor.
Qed.

Lemma keeps_verifyQCInternal cfg now q :
  qc_wf (iqc q) ->
  keeps (qv_inv cfg) (verifyQCInternal now (Some q)) (fun _ => qc_valid true (round0 (iqc q))).
Proof.
  intros Hwf. cbn [verifyQCInternal].
  eapply keeps_bind; [by apply (keeps_fail_if _ _ _ (fun _ => True))|intros [] _].
  eapply keeps_bind; [apply (keeps_fail_if _ _ _ (fun _ => GetQuorumThreshold <= len (Signatures (iqc q)))); intros; by go_bool|intros [] H1].
  eapply keeps_bind; [apply keeps_verify_signers|intros [] [H2 H3]].
  eapply keeps_weaken; [by apply keeps_adapter_VerifyQC|]. intros [] [H4 H5].
  constructor; cbn; [by constructor| |done].
  rewrite <- calculateF_required by apply count_nonneg. done.
Qed.

Lemma keeps_QV_VerifyQC cfg now q :
  qc_wf (iqc q) ->
  keeps (qv_inv cfg) (QV_VerifyQC now (Some q)) (fun _ =>
    certified (IQC_Hash q) /\ (EnableCache cfg = false -> qc_valid true (round0 (iqc q)))).
Proof.
  intros Hwf. unfold QV_VerifyQC.
  eapply (keeps_bind _ _ _ (fun b => b = EnableCache cfg)).
  { intros qv Hqv. split; [done|]. intros ? [= <-]. by rewrite (qvi_config _ _ Hqv). }
  intros enabled Hen. destruct enabled.
  - eapply (keeps_bind _ _ _ (fun hit => hit = true -> certified (IQC_Hash q))).
    { intros qv [He Hc Hm]. unfold qc_cached. destruct (lru_Get now (qcCache qv) (IQC_Hash q)) as [r c] eqn:Hg.
      cbn. split.
      - constructor; cbn; [done|done|]. intros h Hh. apply Hm. apply (lru_Get_sub now _ (IQC_Hash q)). by rewrite Hg.
      - intros ? [= <-] Hr. go_bool. subst r. apply Hm, (lru_Get_mem now). by rewrite Hg. }
    intros [] Hhit.
    + apply keeps_ret. split; [by apply Hhit|]. by rewrite <- Hen.
    + eapply keeps_bind; [by apply keeps_verifyQCInternal|]. intros [] Hv.
      assert (Hcert : certified (IQC_Hash q)) by (by exists q).
      intros qv [He Hc Hm]. cbn. split.
      * constructor; cbn; [done|done|]. intros h [[-> _]|Hh]%lru_Add_mem; [exact Hcert|by apply Hm].
      * intros [] _. by split.
  - eapply keeps_weaken; [by apply keeps_verifyQCInternal|]. intros [] Hv. split; [by exists q|done].
Qed.

(** An honest validator signs votes for at most one block per view. *)
Definition votes_once (honest : ValidatorID -> Prop) : Prop :=
  forall id v1 v2, honest id -> VoterID v1 = id -> VoterID v2 = id ->
    signed id (Vote_SignBytes v1) -> signed id (Vote_SignBytes v2) ->
    v_View v1 = v_View v2 -> v_BlockHash v1 = v_BlockHash v2.

Lemma qc_valid_signer ea qc id :
  qc_valid ea qc -> id ∈ KeyID <$> Signatures qc ->
  id ∈ members /\ exists v, VoterID v = id /\ signed id (Vote_SignBytes v) /\
    v_View v = q_View qc /\ v_BlockHash v = q_BlockHash qc.
Proof.
  intros [[_ Hval _] _ Hg] (s & -> & Hs)%list_elem_of_fmap.
  rewrite Forall_forall in Hval. unfold qc_genuine in Hg. rewrite Forall_forall in Hg. split.
  - apply IsValidator_spec, Hval, Hs.
  - specialize (Hg s Hs). unfold sig_genuine in Hg. rewrite (buildVote_signs _ _ _ s) in Hg.
    eexists. split; [|split; [exact Hg|split; reflexivity]]. reflexivity.
Qed.

(** Two valid certificates of one view certify the same block, when at most [f]
    of exactly [3f+1] validators are faulty. *)
Lemma qc_valid_agree (honest : ValidatorID -> Prop) (faulty : list ValidatorID) ea ea' qc qc' :
  votes_once honest ->
  (forall id, id ∈ members -> honest id \/ id ∈ faulty) ->
  len faulty <= calculateF GetValidatorCount -> GetValidatorCount mod 3 = 1 ->
  qc_valid ea qc -> qc_valid ea' qc' -> q_View qc = q_View qc' -> q_BlockHash qc = q_BlockHash qc'.
Proof.
  intros Honce Hhon HF Hmod Hq Hq' Hview.
  destruct (overlap members (KeyID <$> Signatures qc) (KeyID <$> Signatures qc') faulty) as (id & H1 & H2 & Hnf).
  - apply Hq.
  - apply Hq'.
  - intros id Hid. exact (proj1 (qc_valid_signer _ _ _ Hq Hid)).
  - intros id Hid. exact (proj1 (qc_valid_signer _ _ _ Hq' Hid)).
  - pose proof (qc_quorum _ _ Hq) as Hn. pose proof (qc_quorum _ _ Hq') as Hn'.
    rewrite <- calculateF_required in Hn, Hn' by apply count_nonneg.
    unfold calculateQuorum in *. unfold len in *. rewrite !length_fmap.
    assert (1 <= GetValidatorCount) by (pose proof count_nonneg; pose proof (Z.mod_small GetValidatorCount 3); lia).
    rewrite calculateF_div in * by done.
    assert (GetValidatorCount = 3 * ((GetValidatorCount - 1) / 3) + 1).
    { assert ((GetValidatorCount - 1) mod 3 = 0) by (rewrite Zminus_mod, Hmod; done).
      pose proof (Z_div_mod_eq_full (GetValidatorCount - 1) 3). lia. }
    assert (Z.of_nat (length members) = GetValidatorCount) by (by rewrite GetValidatorCount_spec). lia.
  - destruct (qc_valid_signer _ _ _ Hq H1) as (Hm & v & Hv & Hs & Hvv & Hvb).
    destruct (qc_valid_signer _ _ _ Hq' H2) as (_ & v' & Hv' & Hs' & Hvv' & Hvb').
    destruct (Hhon id Hm) as [Hh|]; [|done].
    rewrite <- Hvb, <- Hvb'. apply (Honce id v v'); congruence.
Qed.
End soundness.

(** ** Aggregation *)

Section aggregation.
Context {VS : ValidatorSet}.

Lemma GetQuorumThreshold_pos : 1 <= GetQuorumThreshold.
Proof.
  unfold GetQuorumThreshold, calculateQuorum, calculateF. destruct (Z.leb_spec GetValidatorCount 0); [lia|].
  rewrite Z.quot_div_nonneg by lia. pose proof (Z.div_pos (GetValidatorCount - 1) 3). lia.
Qed.

Definition same_as (first vote : Vote) : Prop :=
  v_BlockHash vote = v_BlockHash first /\ v_View vote = v_View first /\ v_Height vote = v_Height first.

Lemma same_target_Ok first votes : same_target first votes = Ok tt <-> Forall (same_as first) votes.*2.
Proof.
  induction votes as [|[k v] votes IH]; cbn; [by split|].
  rewrite Forall_cons. unfold same_as at 1.
  destruct (bool_decide_reflect (v_BlockHash v = v_BlockHash first)); cbn; [|naive_solver].
  destruct (Z.eqb_spec (v_View v) (v_View first)); cbn; [|naive_solver].
  destruct (Z.eqb_spec (v_Height v) (v_Height first)); cbn; naive_solver.
Qed.
End aggregation.

(** The values and the signers an order over a vote map runs through. *)
Lemma order_values (votes : gmap ValidatorID Vote) o v :
  o ≡ₚ map_to_list votes -> v ∈ o.*2 <-> exists i, votes !! i = Some v.
Proof.
  intros Ho. rewrite Ho, list_elem_of_fmap. split.
  - intros ([i w] & -> & Hw). apply elem_of_map_to_list in Hw. by exists i.
  - intros [i Hi]. exists (i, v). split; [done|]. by apply elem_of_map_to_list.
Qed.

Lemma order_signers (votes : gmap ValidatorID Vote) (o : list (ValidatorID * Vote)) :
  o ≡ₚ map_to_list votes -> map_Forall (fun id v => KeyID (v_Signature v) = id) votes ->
  KeyID <$> (v_Signature <$> o.*2) = o.*1.
Proof.
  intros Ho Hv. rewrite <- !list_fmap_compose. apply list_fmap_ext. intros i [id v] Hx. cbn.
  apply Hv, elem_of_map_to_list. rewrite <- Ho. by apply list_elem_of_lookup_2 in Hx.
Qed.

(** The vote a signature stands for, as [handleVote] stores it: signed by the
    voter it names, over the vote's own timestamp. *)
Definition vote_signed `{CryptoLaws} (v : Vote) : Prop :=
  KeyID (v_Signature v) = VoterID v /\ sig_Timestamp (v_Signature v) = v_Timestamp v /\
  signed (VoterID v) (Vote_SignBytes v).

Lemma Vote_SignBytes_BlockHash v v' :
  VoterID v = VoterID v' -> Vote_SignBytes v = Vote_SignBytes v' -> v_BlockHash v = v_BlockHash v'.
Proof.
  intros Hid H. unfold Vote_SignBytes in H. do 2 apply app_inv_head in H.
  do 3 (apply app_inj_len in H as [_ H]; [|unfold appendUint64; by rewrite !length_be_put]).
  apply app_inj_len_r in H as [H _]; [done|].
  rewrite !length_app. unfold appendInt64. by rewrite !length_be_put, Hid.
Qed.

(** The configuration never changes. *)
Section configuration.
Context {CS : CryptoService} {C : LRU bytes bool} {VS : ValidatorSet}.

Definition keeps_config {A} (m : ST QuorumVerifier quorum_error A) : Prop :=
  forall qv, qv_config (m qv).2 = qv_config qv.

Lemma keeps_config_bind {A B} (m : ST QuorumVerifier quorum_error A) (f : A -> ST QuorumVerifier quorum_error B) :
  keeps_config m -> (forall a, keeps_config (f a)) -> keeps_config (m ≫= f).
Proof.
  intros Hm Hf qv. unfold mbind, ST_bind. specialize (Hm qv). destruct (m qv) as [[a|e] s]; cbn in *; [|done].
  by rewrite Hf.
Qed.
Lemma keeps_config_pure {A} (m : ST QuorumVerifier quorum_error A) : (forall qv, (m qv).2 = qv) -> keeps_config m.
Proof. intros H qv. by rewrite H. Qed.
Lemma keeps_config_fail b err : keeps_config (fail_if b err).
Proof. apply keeps_config_pure. intros qv. unfold fail_if. by destruct b. Qed.

Lemma keeps_config_signers now qc seenV i sigs : keeps_config (verify_signers now qc seenV i sigs).
Proof.
  revert seenV i. induction sigs as [|s sigs IH]; intros seenV i; cbn [verify_signers]; [by apply keeps_config_pure|].
  apply keeps_config_bind; [by apply keeps_config_pure|]. intros unique. destruct (unique && _).
  - apply keeps_config_bind; [|intros; by apply keeps_config_pure].
    intros qv. cbn. by destruct (HasStoreEvidence _).
  - repeat (apply keeps_config_bind; [apply keeps_config_fail|intros _]). apply IH.
Qed.

Lemma verifyQCInternal_config now q : keeps_config (verifyQCInternal now q).
Proof.
  destruct q as [q|]; cbn [verifyQCInternal]; [|by apply keeps_config_pure].
  repeat (apply keeps_config_bind; [first [apply keeps_config_fail|apply keeps_config_signers]|intros _]).
  intros qv. unfold adapter_VerifyQC. by destruct (VerifyQC _ _ _) as [[]].
Qed.

Lemma QV_VerifyQC_config now q : keeps_config (QV_VerifyQC now q).
Proof.
  unfold QV_VerifyQC. apply keeps_config_bind; [by apply keeps_config_pure|]. intros [].
  - destruct q as [q|]; [|by apply keeps_config_pure].
    apply keeps_config_bind; [intros qv; unfold qc_cached; by destruct (lru_Get _ _ _)|]. intros []; [by apply keeps_config_pure|].
    apply keeps_config_bind; [apply verifyQCInternal_config|by intros _ qv].
  - apply verifyQCInternal_config.
Qed.
End configuration.

(** ** Properties *)

(** C2. Agreement: with exactly [3f+1] validators of which at most [f] are faulty,
    when honest validators vote for at most one block per view and signatures
    are unforgeable, two certificates of the same view that the verifiers of two
    nodes accept ([verifyQCInternal], through the encoder and its caches)
    certify the same block. *)
Theorem qc_agreement {CS : CryptoService} {CL : @CryptoLaws CS} {C : LRU bytes bool}
    {LL : @LRULaws bytes bool C} {VS : ValidatorSet} {VL : @ValidatorSetLaws VS}
    (honest : ValidatorID -> Prop) (faulty : list ValidatorID) (now now' : Time) (q q' : IQC)
    (cfg cfg' : QuorumConfig) (qv qv' : QuorumVerifier)
    (Honce : votes_once honest)
    (Hhonest : forall id, id ∈ members -> honest id \/ id ∈ faulty)
    (Hfaulty : len faulty <= calculateF GetValidatorCount)
    (Hcount : GetValidatorCount mod 3 = 1)
    (Hinv : qv_inv cfg qv) (Hinv' : qv_inv cfg' qv') (Hwf : qc_wf (iqc q)) (Hwf' : qc_wf (iqc q'))
    (Hrun : (verifyQCInternal now (Some q) qv).1 = Ok tt)
    (Hrun' : (verifyQCInternal now' (Some q') qv').1 = Ok tt)
    (Hview : q_View (iqc q) = q_View (iqc q')) :
  q_BlockHash (iqc q) = q_BlockHash (iqc q').
Proof.
  pose proof (proj2 (keeps_verifyQCInternal cfg now q Hwf qv Hinv) tt Hrun) as Hq.
  pose proof (proj2 (keeps_verifyQCInternal cfg' now' q' Hwf' qv' Hinv') tt Hrun') as Hq'.
  exact (qc_valid_agree honest faulty true true _ _ Honce Hhonest Hfaulty Hcount Hq Hq' Hview).
Qed.

(** The quorum rule [2f+1] with [f = (N-1)/3]: any two quorums of [N] validators
    share more than [f] of them exactly when [N = 3f+1]; for every other [N] the
    overlap can be entirely faulty. A quorum of live validators always exists. *)
Theorem quorum_intersection_exact (N : Z) (HN : 1 <= N) :
  (calculateF N < 2 * calculateQuorum (calculateF N) - N <-> N mod 3 = 1) /\
  calculateQuorum (calculateF N) <= N - calculateF N.
Proof.
  rewrite calculateF_div by done. unfold calculateQuorum.
  pose proof (Z_div_mod_eq_full (N - 1) 3). pose proof (Z.mod_pos_bound (N - 1) 3 ltac:(lia)).
  split; [|lia].
  pose proof (Z_div_mod_eq_full N 3). pose proof (Z.mod_pos_bound N 3 ltac:(lia)).
  set (a := (N - 1) / 3) in *. set (b := N / 3) in *. set (r := (N - 1) mod 3) in *. set (m := N mod 3) in *.
  lia.
Qed.

(** [ValidateQuorumMath] accepts exactly the validator sets of at least four:
    its other two checks never fail. *)
Theorem ValidateQuorumMath_exact (N : Z) : ValidateQuorumMath N = Ok tt <-> 4 <= N.
Proof.
  unfold ValidateQuorumMath. destruct (Z.ltb_spec N 4); [split; [done|lia]|].
  cbv zeta. rewrite calculateF_div by lia. unfold calculateQuorum.
  pose proof (Z_div_mod_eq_full (N - 1) 3). pose proof (Z.mod_pos_bound (N - 1) 3 ltac:(lia)).
  destruct (Z.ltb_spec N (2 * ((N - 1) / 3) + 1)); [lia|].
  destruct (Z.ltb_spec (N - (N - 1) / 3) (2 * ((N - 1) / 3) + 1)); [lia|]. by split.
Qed.

(** [VerifyQC] with its cache: the verifier's invariant is kept on every
    outcome, an accepted certificate has the hash of some valid certificate, and
    without the cache it is itself valid. *)
Theorem QV_VerifyQC_sound {CS : CryptoService} {CL : @CryptoLaws CS} {C : LRU bytes bool}
    {LL : @LRULaws bytes bool C} {VS : ValidatorSet} {VL : @ValidatorSetLaws VS}
    (cfg : QuorumConfig) (now : Time) (q : IQC) (qv : QuorumVerifier)
    (Hinv : qv_inv cfg qv) (Hwf : qc_wf (iqc q)) :
  qv_inv cfg (QV_VerifyQC now (Some q) qv).2 /\
  ((QV_VerifyQC now (Some q) qv).1 = Ok tt ->
   certified (IQC_Hash q) /\ (EnableCache cfg = false -> qc_valid true (round0 (iqc q)))).
Proof.
  destruct (keeps_QV_VerifyQC cfg now q Hwf qv Hinv) as [H1 H2]. split; [exact H1|apply H2].
Qed.

(** The cache key of a [pbft.QuorumCertificate] is its block hash alone: once one
    is accepted, every other certificate for that block is accepted without any
    check, whatever its view, height and signatures. *)
Theorem QV_cache_accepts_any {CS : CryptoService} {VS : ValidatorSet} (now now' : Time) (qc qc' : QC)
    (qv qv' : @QuorumVerifier CS map_LRU)
    (Hcache : EnableCache (qv_config qv') = true)
    (Hfirst : QV_VerifyQC now (Some (PbftQC qc)) qv = (Ok tt, qv'))
    (Hsame : q_BlockHash qc' = q_BlockHash qc) :
  QV_VerifyQC now' (Some (PbftQC qc')) qv' = (Ok tt, qv').
Proof.
  assert (Hin : EnableCache (qv_config qv) = true ->
    (qcCache qv' : gmap bytes bool) !! q_BlockHash qc = Some true).
  { intros Hen. unfold QV_VerifyQC in Hfirst.
    apply ST_bind_Ok in Hfirst as (en & s & Hg & Hfirst). injection Hg as <- <-. rewrite Hen in Hfirst.
    apply ST_bind_Ok in Hfirst as (hit & s & Hc & Hfirst). injection Hc as <- <-.
    destruct (bool_decide _) eqn:Hhit.
    - injection Hfirst as <-. by go_bool.
    - apply ST_bind_Ok in Hfirst as ([] & s & _ & Hfirst). injection Hfirst as <-. cbn. by rewrite lookup_insert_eq. }
  assert (Hcfg : qv_config qv' = qv_config qv).
  { pose proof (QV_VerifyQC_config now (Some (PbftQC qc)) qv) as Hk. by rewrite Hfirst in Hk. }
  rewrite Hcfg in Hcache. specialize (Hin Hcache).
  unfold QV_VerifyQC, mbind, ST_bind, gets, qc_cached. rewrite Hcfg, Hcache. cbn. rewrite Hsame, Hin.
  rewrite bool_decide_eq_true_2 by done. by destruct qv'.
Qed.

(** [AggregateVotes], in whatever orders Go ranges over the map: it succeeds
    exactly when the votes are a quorum and agree on block, view and height, and
    the certificate it then builds from votes of distinct validators, each signed
    by the voter it names in round 0, is a valid certificate for that target. *)
Theorem AggregateVotes_valid {CS : CryptoService} {CL : @CryptoLaws CS} {VS : ValidatorSet}
    {VL : @ValidatorSetLaws VS} (votes : gmap ValidatorID Vote)
    (order1 order2 order3 : list (ValidatorID * Vote)) (aggregatorID : ValidatorID)
    (H1 : order1 ≡ₚ map_to_list votes) (H2 : order2 ≡ₚ map_to_list votes) (H3 : order3 ≡ₚ map_to_list votes) :
  (is_ok (AggregateVotes order1 order2 order3 aggregatorID) = true <->
   HasQuorum (Z.of_nat (size votes)) = true /\
   forall i j v w, votes !! i = Some v -> votes !! j = Some w -> same_as v w) /\
  forall q, AggregateVotes order1 order2 order3 aggregatorID = Ok q ->
    map_Forall (fun id v => VoterID v = id /\ vote_signed v /\ v_Round v = 0 /\ IsValidator id = true) votes ->
    qc_valid false (round0 (iqc q)) /\
    map_Forall (fun _ v => v_BlockHash v = q_BlockHash (iqc q) /\ v_View v = q_View (iqc q) /\
                           v_Height v = q_Height (iqc q)) votes.
Proof.
  assert (Hlen : len order1 = Z.of_nat (size votes)) by (unfold len; by rewrite H1, length_map_to_list).
  assert (Hlen3 : len order3 = Z.of_nat (size votes)) by (unfold len; by rewrite H3, length_map_to_list).
  pose proof (order_values votes) as Hmem.
  unfold AggregateVotes. rewrite Hlen.
  destruct (HasQuorum (Z.of_nat (size votes))) eqn:Hq; cbn [negb]; [|split; [split; [done|by intros [? _]]|done]].
  pose proof GetQuorumThreshold_pos as Hpos.
  destruct order1 as [|[k first] order1].
  { exfalso. rewrite <- Hlen in Hq. apply Z.leb_le in Hq. fold GetQuorumThreshold in Hq.
    change (len []) with 0 in Hq. lia. }
  assert (Hfirst : exists i, votes !! i = Some first) by (apply (Hmem _ first H1); by left).
  destruct Hfirst as [i0 Hi0].
  assert (Hsame : same_target first order2 = Ok tt <->
    forall i j v w, votes !! i = Some v -> votes !! j = Some w -> same_as v w).
  { rewrite same_target_Ok, Forall_forall. split.
    - intros Ha i j v w Hv Hw.
      destruct (Ha v) as (? & ? & ?); [apply (Hmem _ v H2); eauto|].
      destruct (Ha w) as (? & ? & ?); [apply (Hmem _ w H2); eauto|]. unfold same_as. split_and!; congruence.
    - intros Ha v [j Hj]%(Hmem _ v H2). by eapply Ha. }
  destruct (same_target first order2) as [[]|err] eqn:Hst; cbn.
  2:{ split; [split; [done|]|done]. intros [_ Ha]. apply Hsame in Ha. congruence. }
  assert (Hall : forall i j v w, votes !! i = Some v -> votes !! j = Some w -> same_as v w) by by apply Hsame.
  split; [by split|]. intros q [= <-] Hvotes. cbn.
  assert (Hkeys : KeyID <$> (v_Signature <$> order3.*2) = order3.*1).
  { apply (order_signers votes); [done|]. intros id v Hv. destruct (Hvotes _ _ Hv) as (<- & (? & _) & _). done. }
  split.
  - constructor; cbn.
    + constructor; [|..|done].
      * rewrite Hkeys, H3. apply NoDup_fst_map_to_list.
      * apply Forall_fmap, Forall_forall. intros v [i Hi]%(Hmem _ v H3).
        destruct (Hvotes _ _ Hi) as (<- & (Hk & _) & _ & Hval). cbn. by rewrite Hk.
    + rewrite <- calculateF_required by apply count_nonneg. unfold len. rewrite !length_fmap. fold (len order3).
      rewrite Hlen3. unfold HasQuorum in Hq. go_bool. exact Hq.
    + unfold qc_genuine. cbn. apply Forall_fmap, Forall_forall. intros v [i Hi]%(Hmem _ v H3).
      destruct (Hvotes _ _ Hi) as (_ & (Hk & Ht & Hs) & Hr & _). destruct (Hall _ _ _ _ Hi0 Hi) as (Hb & Hv & Hh).
      unfold sig_genuine. cbn. rewrite Hk, Ht. unfold buildVoteSignBytesFromQC. cbn.
      rewrite <- Hb, <- Hv, <- Hh, <- Hr. exact Hs.
  - intros i v Hi. by apply (Hall i0 i first v).
Qed.

(** ** Witnesses *)

Definition demo_set_laws : @ValidatorSetLaws demo_set.
Proof. apply list_validators_laws. apply (bool_decide_unpack (NoDup demo_members)). vm_compute. exact I. Defined.
#[export] Existing Instance demo_set_laws.

Definition demo_qv : @QuorumVerifier demo_crypto map_LRU :=
  MkQuorumVerifier DefaultQuorumConfig demo_encoder (∅ : gmap bytes bool) [].

Lemma demo_qv_inv : qv_inv DefaultQuorumConfig demo_qv.
Proof. constructor; [apply demo_encoder_ok|done|]. intros h Hh. cbn in Hh. by rewrite lookup_empty in Hh. Qed.

(** In a table of signatures with one entry per honest key, honest keys vote once. *)
Lemma table_votes_once (tbl : list (bytes * bytes)) (honest : ValidatorID -> Prop) :
  (forall id b b', honest id -> (id, b) ∈ tbl -> (id, b') ∈ tbl -> b = b') ->
  @votes_once _ (table_laws tbl) honest.
Proof.
  intros Hf id v1 v2 Hh Hv1 Hv2 Hs1 Hs2 _. apply Vote_SignBytes_BlockHash; [congruence|]. by eapply Hf.
Qed.

Lemma demo_votes_once : votes_once (fun _ => True).
Proof.
  apply table_votes_once. intros id b b' _ H H'.
  apply (NoDup_fst_functional demo_table id); [|done..].
  apply (bool_decide_unpack (NoDup _)). vm_compute. exact I.
Qed.

Lemma qc_agreement_witness :
  (verifyQCInternal demo_clock (Some (PbftQC demo_qc)) demo_qv).1 = Ok tt /\
  q_BlockHash (iqc (PbftQC demo_qc)) = q_BlockHash (iqc (MessagesQC demo_qc)).
Proof.
  assert (Hr : (verifyQCInternal demo_clock (Some (PbftQC demo_qc)) demo_qv).1 = Ok tt) by (vm_compute; reflexivity).
  split; [exact Hr|].
  apply (qc_agreement (VL := demo_set_laws) (fun _ => True) [] demo_clock demo_clock (PbftQC demo_qc) (MessagesQC demo_qc)
           DefaultQuorumConfig DefaultQuorumConfig demo_qv demo_qv).
  - exact demo_votes_once.
  - intros id _. by left.
  - vm_compute. discriminate.
  - reflexivity.
  - exact demo_qv_inv.
  - exact demo_qv_inv.
  - exact demo_qc_wf.
  - exact demo_qc_wf.
  - exact Hr.
  - exact Hr.
  - reflexivity.
Defined.

Lemma quorum_intersection_exact_witness :
  calculateF 4 < 2 * calculateQuorum (calculateF 4) - 4 /\ ~ calculateF 5 < 2 * calculateQuorum (calculateF 5) - 5.
Proof.
  split.
  - apply (quorum_intersection_exact 4); [lia|reflexivity].
  - vm_compute. discriminate.
Defined.

Lemma QV_VerifyQC_sound_witness :
  (QV_VerifyQC demo_clock (Some (PbftQC demo_qc)) demo_qv).1 = Ok tt /\ certified (demo_id 77).
Proof.
  assert (Hr : (QV_VerifyQC demo_clock (Some (PbftQC demo_qc)) demo_qv).1 = Ok tt) by (vm_compute; reflexivity).
  split; [exact Hr|].
  exact (proj1 (proj2 (QV_VerifyQC_sound DefaultQuorumConfig demo_clock (PbftQC demo_qc) demo_qv demo_qv_inv demo_qc_wf) Hr)).
Defined.

(** A certificate without signatures, for another view. *)
Definition bogus_qc : QC := MkQC 99 50 0 (demo_id 77) [] (time_Unix 0) zeroID.

Lemma QV_cache_accepts_any_witness :
  (verifyQCInternal demo_clock (Some (PbftQC bogus_qc)) demo_qv).1 = Err ErrNoSignatures /\
  (QV_VerifyQC demo_clock (Some (PbftQC bogus_qc))
     (QV_VerifyQC demo_clock (Some (PbftQC demo_qc)) demo_qv).2).1 = Ok tt.
Proof.
  assert (Hr : (QV_VerifyQC demo_clock (Some (PbftQC demo_qc)) demo_qv).1 = Ok tt) by (vm_compute; reflexivity).
  split; [reflexivity|].
  assert (Hc : EnableCache (qv_config (QV_VerifyQC demo_clock (Some (PbftQC demo_qc)) demo_qv).2) = true)
    by (vm_compute; reflexivity).
  exact (f_equal fst (QV_cache_accepts_any demo_clock demo_clock demo_qc bogus_qc demo_qv _ Hc
    (run_Ok _ _ _ Hr) eq_refl)).
Defined.

Definition demo_votes : gmap ValidatorID Vote :=
  list_to_map ((fun i => (demo_id i, demo_vote i)) <$> [1; 2; 3]).

Lemma demo_votes_signed :
  map_Forall (fun id v => VoterID v = id /\ vote_signed v /\ v_Round v = 0 /\ IsValidator id = true) demo_votes.
Proof.
  intros id v Hv. unfold demo_votes in Hv. apply elem_of_list_to_map_2 in Hv.
  apply list_elem_of_fmap in Hv as (i & [= -> ->] & Hi).
  split; [reflexivity|]. split; [|split; [reflexivity|]].
  - split; [reflexivity|]. split; [reflexivity|]. apply list_elem_of_fmap. by exists i.
  - repeat (apply elem_of_cons in Hi as [->|Hi]; [vm_compute; reflexivity|]). by apply elem_of_nil in Hi.
Qed.

Lemma AggregateVotes_valid_witness :
  is_ok (AggregateVotes (map_to_list demo_votes) (map_to_list demo_votes) (map_to_list demo_votes) (demo_id 1)) = true /\
  exists q, AggregateVotes (map_to_list demo_votes) (map_to_list demo_votes) (map_to_list demo_votes) (demo_id 1) = Ok q /\
    qc_valid false (round0 (iqc q)).
Proof.
  destruct (AggregateVotes_valid demo_votes (map_to_list demo_votes) (map_to_list demo_votes)
    (map_to_list demo_votes) (demo_id 1) (reflexivity _) (reflexivity _) (reflexivity _)) as [_ H].
  assert (Hr : is_ok (AggregateVotes (map_to_list demo_votes) (map_to_list demo_votes)
    (map_to_list demo_votes) (demo_id 1)) = true) by (vm_compute; reflexivity).
  split; [exact Hr|]. apply is_ok_true in Hr as [q Hq]. exists q. split; [exact Hq|].
  exact (proj1 (H q Hq demo_votes_signed)).
Defined.

(** ** Five validators *)

(** Validators 1 to 5, of which 1 is faulty and signs for two blocks; 2 and 3
    vote for block 77, 4 and 5 for block 88, all in view 5. *)
Definition five_members : list ValidatorID := demo_id <$> [1; 2; 3; 4; 5].
Definition five_vote (block voter : Z) : Vote :=
  MkVote 5 2 0 (demo_id block) (demo_id voter) (time_Unix 1700000000) (demo_sig voter).
Definition five_table : list (bytes * bytes) :=
  (fun '(b, i) => (demo_id i, Vote_SignBytes (five_vote b i))) <$> [(77, 1); (77, 2); (77, 3); (88, 1); (88, 4); (88, 5)].
Definition five_crypto : CryptoService := table_crypto five_table.
Definition five_set : ValidatorSet := list_validators five_members.
Definition five_verifier : @QuorumVerifier five_crypto map_LRU :=
  MkQuorumVerifier DefaultQuorumConfig
    (SetValidatorSet five_set (@NewEncoder five_crypto map_LRU (() : @crypto five_crypto) DefaultEncoderConfig))
    (∅ : gmap bytes bool) [].
Definition five_qc (block : Z) (signers : list Z) : QC :=
  MkQC 5 2 0 (demo_id block) (demo_sig <$> signers) (time_Unix 1700000000) (demo_id 1).

(** With five validators, [f = 1] of them faulty and every honest one voting
    once, the verifier accepts certificates for two different blocks of the same
    view: the quorum of 3 is too small. *)
Theorem fork_with_five_validators :
  let qc := five_qc 77 [1; 2; 3] in
  let qc' := five_qc 88 [1; 4; 5] in
  (@GetValidatorCount five_set = 5 /\ calculateF 5 = 1 /\ calculateQuorum 1 = 3) /\
  @votes_once five_crypto (table_laws five_table) (fun id => id <> demo_id 1) /\
  q_View qc = q_View qc' /\ q_BlockHash qc <> q_BlockHash qc' /\
  (verifyQCInternal (VS := five_set) demo_clock (Some (PbftQC qc)) five_verifier).1 = Ok tt /\
  (verifyQCInternal (VS := five_set) demo_clock (Some (PbftQC qc')) five_verifier).1 = Ok tt.
Proof.
  split; [vm_compute; by split_and!|]. split; [|split; [reflexivity|split; [by vm_compute|split; vm_compute; reflexivity]]].
  apply table_votes_once. intros id b b' Hid H H'.
  apply (NoDup_fst_functional (filter (fun p => p.1 <> demo_id 1) five_table) id).
  - apply (bool_decide_unpack (NoDup _)). vm_compute. exact I.
  - by apply list_elem_of_filter.
  - by apply list_elem_of_filter.
Qed.
