(* ===== verification/ConsensusStorage.v ===== *)
(** backend/pkg/consensus/pbft/storage.go: the consensus store. A replay window
    of proposals, votes, certificates and evidence above the last committed
    height, the committed block hashes, and the persistence of all of them in a
    backend that may fail. *)
From S2P Require Import Prelude Bytes Sha256 GoTime Messages Interfaces Encoder Validation Quorum.

Inductive storage_error :=
| ErrOutsideWindow | ErrProposalsFull | ErrVotesFull | ErrQCsFull | ErrEvidenceFull
| ErrEncode | ErrPersist | ErrBackend | ErrConflictingCommit | ErrLoad | ErrDecodeRecord | ErrHashMismatch.

#[export] Instance storage_error_eq_dec : EqDecision storage_error.
Proof. solve_decision. Defined.

Record StorageConfig := MkStorageConfig {
  ReplayWindowSize : Z; MaxProposals : Z; MaxVotesPerView : Z; MaxQCs : Z; MaxEvidence : Z;
  s_MaxProposalSize : Z; s_MaxVoteSize : Z; s_MaxQCSize : Z; s_MaxEvidenceSize : Z;
  EnablePersistence : bool; AutoPrune : bool; MinRetainBlocks : Z }.

Definition DefaultStorageConfig : StorageConfig :=
  MkStorageConfig 100 1000 10000 1000 10000 (Z.shiftl 1 20) (Z.shiftl 10 10) (Z.shiftl 100 10)
    (Z.shiftl 200 10) true true 10.

(** A configured limit, or the encoder's default when it is not positive. *)
Definition limit (configured default : Z) : Z := if 0 <? configured then configured else default.

(** ** The backend *)

Record VoteRecord := MkVoteRecord { vr_View : Z; vr_Height : Z; vr_BlockHash : bytes; vr_Data : bytes }.
Record HashRecord := MkHashRecord { hr_Hash : bytes; hr_Height : Z; hr_Data : bytes }.

(** [types.StorageBackend] with its optional extensions: every call may fail
    ([false] or [None]). *)
Class StorageBackend := {
  backend : Type;
  SaveProposal : backend -> bytes -> Z -> Z -> bytes -> bytes -> bool * backend;
  LoadProposal : backend -> bytes -> option bytes;
  ListProposals : backend -> Z -> Z -> option (list HashRecord);
  SaveQC : backend -> bytes -> Z -> Z -> bytes -> bool * backend;
  ListQCs : backend -> Z -> Z -> option (list HashRecord);
  SaveVote : backend -> Z -> Z -> bytes -> bytes -> bytes -> bytes -> bool * backend;
  ListVotes : backend -> Z -> Z -> option (list VoteRecord);
  SaveEvidence : backend -> bytes -> Z -> bytes -> bool * backend;
  ListEvidence : backend -> Z -> Z -> option (list HashRecord);
  LoadLastCommitted : backend -> option (Z * bytes * bytes);
  DeleteBefore : backend -> Z -> backend;
  (** the durable block tip, when the backend has one *)
  has_durable_tip : bool;
  GetLatestHeight : backend -> option Z;
  GetCommittedBlockHash : backend -> Z -> option (option bytes) }.

(** The CBOR encodings of what is persisted. *)
Class Marshallers := {
  Marshal_Proposal : Proposal -> option bytes;
  Marshal_Vote : Vote -> option bytes;
  Marshal_QC : QC -> option bytes;
  Marshal_Evidence : Evidence -> option bytes }.

Section storage.
Context {B : StorageBackend} {M : Marshallers} {D : Codecs}.

Record Storage := MkStorage {
  st_config : StorageConfig;
  proposals : gmap BlockHash Proposal;
  votes : gmap Z (list Vote);
  qcs : gmap BlockHash IQC;
  evidence : gmap BlockHash Evidence;
  lastCommitted : Z;
  lastQC : option IQC;
  committedBlocks : gmap Z BlockHash;
  allowRestartBootstrap : bool;
  st_backend : option backend;
  replayWindowRejectCount : Z;
  replayWindowRecoverSuccessCount : Z;
  replayWindowRecoverFailureCount : Z;
  lastReplayWindowRecoverAttemptAt : Time }.

Definition NewStorage (b : option backend) (c : StorageConfig) : Storage :=
  MkStorage c ∅ ∅ ∅ ∅ 0 None ∅ false b 0 0 0 zero_time.

Definition with_proposals x s := MkStorage (st_config s) x (votes s) (qcs s) (evidence s) (lastCommitted s)
  (lastQC s) (committedBlocks s) (allowRestartBootstrap s) (st_backend s) (replayWindowRejectCount s)
  (replayWindowRecoverSuccessCount s) (replayWindowRecoverFailureCount s) (lastReplayWindowRecoverAttemptAt s).
Definition with_votes x s := MkStorage (st_config s) (proposals s) x (qcs s) (evidence s) (lastCommitted s)
  (lastQC s) (committedBlocks s) (allowRestartBootstrap s) (st_backend s) (replayWindowRejectCount s)
  (replayWindowRecoverSuccessCount s) (replayWindowRecoverFailureCount s) (lastReplayWindowRecoverAttemptAt s).
Definition with_qcs x s := MkStorage (st_config s) (proposals s) (votes s) x (evidence s) (lastCommitted s)
  (lastQC s) (committedBlocks s) (allowRestartBootstrap s) (st_backend s) (replayWindowRejectCount s)
  (replayWindowRecoverSuccessCount s) (replayWindowRecoverFailureCount s) (lastReplayWindowRecoverAttemptAt s).
Definition with_evidence x s := MkStorage (st_config s) (proposals s) (votes s) (qcs s) x (lastCommitted s)
  (lastQC s) (committedBlocks s) (allowRestartBootstrap s) (st_backend s) (replayWindowRejectCount s)
  (replayWindowRecoverSuccessCount s) (replayWindowRecoverFailureCount s) (lastReplayWindowRecoverAttemptAt s).
(** The committed state: height, blocks, last certificate and the bootstrap flag. *)
Definition with_committed h q m r s := MkStorage (st_config s) (proposals s) (votes s) (qcs s) (evidence s) h
  q m r (st_backend s) (replayWindowRejectCount s)
  (replayWindowRecoverSuccessCount s) (replayWindowRecoverFailureCount s) (lastReplayWindowRecoverAttemptAt s).
Definition with_backend x s := MkStorage (st_config s) (proposals s) (votes s) (qcs s) (evidence s) (lastCommitted s)
  (lastQC s) (committedBlocks s) (allowRestartBootstrap s) x (replayWindowRejectCount s)
  (replayWindowRecoverSuccessCount s) (replayWindowRecoverFailureCount s) (lastReplayWindowRecoverAttemptAt s).
Definition with_telemetry rej ok fail at_ s := MkStorage (st_config s) (proposals s) (votes s) (qcs s) (evidence s)
  (lastCommitted s) (lastQC s) (committedBlocks s) (allowRestartBootstrap s) (st_backend s) rej ok fail at_.

Definition SetBackend (b : backend) (s : Storage) : Storage := with_backend (Some b) s.

Abbreviation SM := (ST Storage storage_error).

(** ** Encodings *)

Definition sized (max : Z) (d : option bytes) : result storage_error bytes :=
  match d with
  | None => Err ErrEncode
  | Some d => if max <? len d then Err ErrEncode else Ok d
  end.
Definition encodeProposal (s : Storage) (p : Proposal) : result storage_error bytes :=
  sized (limit (s_MaxProposalSize (st_config s)) (MaxProposalSize DefaultEncoderConfig)) (Marshal_Proposal p).
Definition encodeVote (s : Storage) (v : Vote) : result storage_error bytes :=
  sized (limit (s_MaxVoteSize (st_config s)) (MaxVoteSize DefaultEncoderConfig)) (Marshal_Vote v).
Definition encodeQC (s : Storage) (q : IQC) : result storage_error bytes :=
  sized (limit (s_MaxQCSize (st_config s)) (MaxQCSize DefaultEncoderConfig)) (Marshal_QC (iqc q)).
Definition encodeEvidence (s : Storage) (e : Evidence) : result storage_error bytes :=
  sized (limit (s_MaxEvidenceSize (st_config s)) (MaxEvidenceSize DefaultEncoderConfig)) (Marshal_Evidence e).

(** A proposal whose block does not decode or does not match is kept without it. *)
Definition decodeProposal (data : bytes) : option Proposal :=
  match Unmarshal_Proposal data with
  | None => None
  | Some wire =>
      match toProposal wire with
      | Ok p => Some p
      | Err _ =>
          Some (MkProposal (pw_View wire) (pw_Height wire) (pw_Round wire) (pw_BlockHash wire)
                  (pw_ParentHash wire) (pw_ProposerID wire) (pw_Timestamp wire) (pw_JustifyQC wire) None
                  (pw_Signature wire))
      end
  end.

(** ** The replay window *)

Definition isWithinWindow (s : Storage) (height : Z) : bool :=
  (u64 (lastCommitted s + 1) <=? height) &&
  (height <=? u64 (lastCommitted s + u64 (ReplayWindowSize (st_config s)))).

Definition replayRecoverThrottleWindow : Z := 500 * Millisecond.

Definition tryReconcileReplayWindowLocked (now : Time) (force : bool) : SM bool := fun s =>
  match st_backend s with
  | None => (Ok false, s)
  | Some b =>
      if negb has_durable_tip then (Ok false, s)
      else if negb force && negb (IsZero (lastReplayWindowRecoverAttemptAt s)) &&
           (Sub now (lastReplayWindowRecoverAttemptAt s) <? replayRecoverThrottleWindow) then (Ok false, s)
      else
        let s := with_telemetry (replayWindowRejectCount s) (replayWindowRecoverSuccessCount s)
                   (replayWindowRecoverFailureCount s) now s in
        match GetLatestHeight b with
        | None => (Err ErrBackend, s)
        | Some durableHeight =>
            if durableHeight <=? lastCommitted s then (Ok false, s)
            else
              match GetCommittedBlockHash b durableHeight with
              | None => (Err ErrBackend, s)
              | Some None => (Ok false, s)
              | Some (Some durableHash) =>
                  if negb (len durableHash =? 32) then (Ok false, s)
                  else (Ok true, with_committed durableHeight (lastQC s)
                          (<[durableHeight := durableHash]> (committedBlocks s)) (allowRestartBootstrap s) s)
              end
        end
  end.

Definition ReconcileReplayWindow := tryReconcileReplayWindowLocked.

(** [StoreProposal]'s handling of a height outside the window: count it, try to
    reconcile, count the outcome. *)
Definition reconcile_for (now : Time) (p : Proposal) (s : Storage) : Storage :=
  let s := with_telemetry (u64 (replayWindowRejectCount s + 1)) (replayWindowRecoverSuccessCount s)
             (replayWindowRecoverFailureCount s) (lastReplayWindowRecoverAttemptAt s) s in
  let w := u64 (ReplayWindowSize (st_config s)) in
  let windowSize := if w =? 0 then 1 else w in
  let forceRecover := u64 (lastCommitted s + windowSize) <? p_Height p in
  match tryReconcileReplayWindowLocked now forceRecover s with
  | (Err _, s) =>
      with_telemetry (replayWindowRejectCount s) (replayWindowRecoverSuccessCount s)
        (u64 (replayWindowRecoverFailureCount s + 1)) (lastReplayWindowRecoverAttemptAt s) s
  | (Ok false, s) => s
  | (Ok true, s) =>
      if isWithinWindow s (p_Height p) then
        with_telemetry (replayWindowRejectCount s) (u64 (replayWindowRecoverSuccessCount s + 1))
          (replayWindowRecoverFailureCount s) (lastReplayWindowRecoverAttemptAt s) s
      else
        with_telemetry (replayWindowRejectCount s) (replayWindowRecoverSuccessCount s)
          (u64 (replayWindowRecoverFailureCount s + 1)) (lastReplayWindowRecoverAttemptAt s) s
  end.

Definition StoreProposal (now : Time) (p : Proposal) : SM unit := fun s =>
  let s := if isWithinWindow s (p_Height p) then s else reconcile_for now p s in
  if negb (isWithinWindow s (p_Height p)) then (Err ErrOutsideWindow, s)
  else if MaxProposals (st_config s) <=? Z.of_nat (size (proposals s)) then (Err ErrProposalsFull, s)
  else
    let s := with_proposals (<[p_BlockHash p := p]> (proposals s)) s in
    match EnablePersistence (st_config s), st_backend s with
    | true, Some b =>
        match encodeProposal s p with
        | Err e => (Err ErrEncode, with_proposals (delete (p_BlockHash p) (proposals s)) s)
        | Ok data =>
            match SaveProposal b (p_BlockHash p) (p_Height p) (p_View p) (ProposerID p) data with
            | (true, b') => (Ok tt, with_backend (Some b') s)
            | (false, b') => (Err ErrPersist, with_proposals (delete (p_BlockHash p) (proposals s)) (with_backend (Some b') s))
            end
        end
    | _, _ => (Ok tt, s)
    end.

Definition GetProposal (s : Storage) (hash : BlockHash) : option Proposal := proposals s !! hash.

Definition GetProposalOrRecover (hash : BlockHash) : SM (option Proposal) := fun s =>
  match GetProposal s hash with
  | Some p => (Ok (Some p), s)
  | None =>
      match st_backend s with
      | None => (Ok None, s)
      | Some b =>
          match LoadProposal b hash with
          | None => (Err ErrLoad, s)
          | Some raw =>
              if len raw =? 0 then (Ok None, s)
              else
                match decodeProposal raw with
                | None => (Err ErrDecodeRecord, s)
                | Some p =>
                    if negb (bool_decide (p_BlockHash p = hash)) then (Err ErrHashMismatch, s)
                    else (Ok (Some p), with_proposals (<[hash := p]> (proposals s)) s)
                end
          end
      end
  end.

(** ** Votes, certificates, evidence *)

Definition votes_of (s : Storage) (view : Z) : list Vote := default [] (votes s !! view).
Definition GetVotesByView := votes_of.

(** The vote is in memory even when its persistence then fails. *)
Definition StoreVote (v : Vote) : SM unit := fun s =>
  if MaxVotesPerView (st_config s) <=? len (votes_of s (v_View v)) then (Err ErrVotesFull, s)
  else
    let s := with_votes (<[v_View v := votes_of s (v_View v) ++ [v]]> (votes s)) s in
    match EnablePersistence (st_config s), st_backend s with
    | true, Some b =>
        match encodeVote s v with
        | Err e => (Err ErrEncode, s)
        | Ok data =>
            match SaveVote b (v_View v) (v_Height v) (VoterID v) (v_BlockHash v) (Vote_Hash v) data with
            | (true, b') => (Ok tt, with_backend (Some b') s)
            | (false, b') => (Err ErrPersist, with_backend (Some b') s)
            end
        end
    | _, _ => (Ok tt, s)
    end.

Definition newer_qc (q : IQC) (old : option IQC) : bool :=
  match old with None => true | Some o => q_View (iqc o) <? q_View (iqc q) end.

Definition StoreQC (q : IQC) : SM unit := fun s =>
  if MaxQCs (st_config s) <=? Z.of_nat (size (qcs s)) then (Err ErrQCsFull, s)
  else
    let s := with_qcs (<[IQC_Hash q := q]> (qcs s)) s in
    let s := with_committed (lastCommitted s) (if newer_qc q (lastQC s) then Some q else lastQC s)
               (committedBlocks s) (allowRestartBootstrap s) s in
    match EnablePersistence (st_config s), st_backend s with
    | true, Some b =>
        match encodeQC s q with
        | Err e => (Err ErrEncode, s)
        | Ok data =>
            match SaveQC b (IQC_Hash q) (q_Height (iqc q)) (q_View (iqc q)) data with
            | (true, b') => (Ok tt, with_backend (Some b') s)
            | (false, b') => (Err ErrPersist, with_backend (Some b') s)
            end
        end
    | _, _ => (Ok tt, s)
    end.

Definition GetQC (s : Storage) (hash : BlockHash) : option IQC := qcs s !! hash.

Definition StoreEvidence (e : Evidence) : SM unit := fun s =>
  if MaxEvidence (st_config s) <=? Z.of_nat (size (evidence s)) then (Err ErrEvidenceFull, s)
  else
    let s := with_evidence (<[Evidence_Hash e := e]> (evidence s)) s in
    match EnablePersistence (st_config s), st_backend s with
    | true, Some b =>
        match encodeEvidence s e with
        | Err err => (Err ErrEncode, s)
        | Ok data =>
            match SaveEvidence b (Evidence_Hash e) (e_Height e) data with
            | (true, b') => (Ok tt, with_backend (Some b') s)
            | (false, b') => (Err ErrPersist, with_backend (Some b') s)
            end
        end
    | _, _ => (Ok tt, s)
    end.

(** ** Commit and pruning *)

Definition pruneOldDataUnsafe (currentHeight : Z) (s : Storage) : Storage :=
  let retain := u64 (MinRetainBlocks (st_config s)) in
  if currentHeight <=? retain then s
  else
    let pruneHeight := currentHeight - retain in
    let s := with_proposals (filter (fun '(_, p) => pruneHeight <= p_Height p) (proposals s)) s in
    let s := with_votes (filter (fun '(view, _) => pruneHeight <= view) (votes s)) s in
    let s := with_qcs (filter (fun '(_, q) => pruneHeight <= q_Height (iqc q)) (qcs s)) s in
    let s := with_committed (lastCommitted s) (lastQC s)
               (filter (fun '(height, _) => pruneHeight <= height) (committedBlocks s))
               (allowRestartBootstrap s) s in
    match EnablePersistence (st_config s), st_backend s with
    | true, Some b => with_backend (Some (DeleteBefore b pruneHeight)) s
    | _, _ => s
    end.

Definition Prune := pruneOldDataUnsafe.

Definition CommitBlock (hash : BlockHash) (height : Z) : SM unit := fun s =>
  match committedBlocks s !! height with
  | Some existing => if bool_decide (existing = hash) then (Ok tt, s) else (Err ErrConflictingCommit, s)
  | None =>
      let s := with_committed (Z.max (lastCommitted s) height) (lastQC s)
                 (<[height := hash]> (committedBlocks s)) (allowRestartBootstrap s) s in
      (Ok tt, if AutoPrune (st_config s) then pruneOldDataUnsafe height s else s)
  end.

Definition IsCommitted (s : Storage) (height : Z) : bool := bool_decide (is_Some (committedBlocks s !! height)).

Definition S_AllowRestartBootstrap (s : Storage) (parentHash : BlockHash) (proposalHeight : Z) : bool :=
  if negb (allowRestartBootstrap s) || bool_decide (is_Some (lastQC s)) || (lastCommitted s =? 0) then false
  else if negb (proposalHeight =? u64 (lastCommitted s + 1)) then false
  else
    match committedBlocks s !! lastCommitted s with
    | None => false
    | Some committedHash => bool_decide (committedHash = parentHash)
    end.

(** ** Start: restoring from the backend *)

(** One page of records into the map; bad records are skipped. *)
Definition restore_page {A} (decode : bytes -> option A) (acc : gmap BlockHash A) (records : list HashRecord)
  : gmap BlockHash A :=
  foldl (fun acc rec =>
    if negb (len (hr_Hash rec) =? 32) then acc
    else match decode (hr_Data rec) with None => acc | Some x => <[hr_Hash rec := x]> acc end) acc records.

(** The pagination of [restoreProposals], [restoreQCs] and [restoreEvidence]:
    the argument of the next query, a minimum height, grows by the page size.
    [None] is running out of fuel. *)
Fixpoint restore_pages {A} (fuel : nat) (list_records : Z -> Z -> option (list HashRecord))
    (decode : bytes -> option A) (pageSize offset : Z) (acc : gmap BlockHash A)
  : option (result storage_error unit * gmap BlockHash A) :=
  match fuel with
  | O => None
  | S fuel =>
      match list_records offset pageSize with
      | None => Some (Err ErrBackend, acc)
      | Some [] => Some (Ok tt, acc)
      | Some records =>
          let acc := restore_page decode acc records in
          if len records <? pageSize then Some (Ok tt, acc)
          else restore_pages fuel list_records decode pageSize (u64 (offset + pageSize)) acc
      end
  end.

Definition sortVotesByTimestamp : list Vote -> list Vote :=
  stable_sort (fun v w => Before (v_Timestamp v) (v_Timestamp w)).

Definition restore_vote_page (votes0 : gmap Z (list Vote)) (maxSeen : Z) (records : list VoteRecord)
  : gmap Z (list Vote) * Z :=
  foldl (fun '(vs, m) rec =>
    match Unmarshal_Vote (vr_Data rec) with
    | None => (vs, m)
    | Some v => (<[vr_View rec := default [] (vs !! vr_View rec) ++ [v]]> vs, Z.max m (vr_Height rec))
    end) (votes0, maxSeen) records.

Definition votePageSize : Z := 512.

Fixpoint restore_votes (fuel : nat) (b : backend) (nextMinHeight : Z) (acc : gmap Z (list Vote))
  : option (result storage_error unit * gmap Z (list Vote)) :=
  match fuel with
  | O => None
  | S fuel =>
      match ListVotes b nextMinHeight votePageSize with
      | None => Some (Err ErrBackend, acc)
      | Some [] => Some (Ok tt, sortVotesByTimestamp <$> acc)
      | Some records =>
          let '(acc, maxSeen) := restore_vote_page acc nextMinHeight records in
          if (maxSeen =? two64 - 1) || (len records <? votePageSize) then Some (Ok tt, sortVotesByTimestamp <$> acc)
          else restore_votes fuel b (maxSeen + 1) acc
      end
  end.

Definition restoreCommittedState (s : Storage) (b : backend) : result storage_error unit * Storage :=
  match LoadLastCommitted b with
  | None => (Err ErrLoad, s)
  | Some (metaHeight, metaHash, metaQC) =>
      let '(lastHeight, blockHash, qcData, restart) :=
        match (if has_durable_tip then GetLatestHeight b else None) with
        | None => (metaHeight, metaHash, metaQC, false)
        | Some durableHeight =>
            if durableHeight <=? metaHeight then (metaHeight, metaHash, metaQC, false)
            else
              match GetCommittedBlockHash b durableHeight with
              | Some (Some durableHash) =>
                  if len durableHash =? 32 then (durableHeight, durableHash, [], true)
                  else (metaHeight, metaHash, metaQC, false)
              | _ => (metaHeight, metaHash, metaQC, false)
              end
        end in
      let blocks := if len blockHash =? 32 then <[lastHeight := blockHash]> (committedBlocks s) else committedBlocks s in
      let '(q, restart) :=
        if len qcData =? 0 then (lastQC s, restart)
        else match Unmarshal_QC qcData with None => (lastQC s, restart) | Some q => (Some (MessagesQC q), false) end in
      (Ok tt, with_committed lastHeight q blocks restart s)
  end.

Definition window_start (s : Storage) : Z :=
  let w := u64 (ReplayWindowSize (st_config s)) in
  if w <=? lastCommitted s then u64 (lastCommitted s - w + 1) else 0.

Definition derive_last_qc (s : Storage) : Storage :=
  match lastQC s with
  | Some _ => s
  | None =>
      if negb (0 <? lastCommitted s) then s
      else
        match committedBlocks s !! lastCommitted s ≫= fun h => qcs s !! h with
        | None => s
        | Some q => with_committed (lastCommitted s) (Some q) (committedBlocks s) false s
        end
  end.

(** The restoration keeps what was loaded before an error. *)
Definition restoreReplayWindow (fuel : nat) (s : Storage) (b : backend) : option (result storage_error unit * Storage) :=
  let minHeight := window_start s in
  '(r, ps) ← restore_pages fuel (ListProposals b) decodeProposal 256 minHeight (proposals s);
  let s := with_proposals ps s in
  match r with Err e => Some (Err e, s) | Ok _ =>
  '(r, qs) ← restore_pages fuel (ListQCs b) (fun d => MessagesQC <$> Unmarshal_QC d) 256 minHeight (qcs s);
  let s := with_qcs qs s in
  match r with Err e => Some (Err e, s) | Ok _ =>
  '(r, vs) ← restore_votes fuel b minHeight (votes s);
  let s := with_votes vs s in
  match r with Err e => Some (Err e, s) | Ok _ =>
  '(r, es) ← restore_pages fuel (ListEvidence b) Unmarshal_Evidence 256 minHeight (evidence s);
  let s := with_evidence es s in
  match r with Err e => Some (Err e, s) | Ok _ =>
  Some (Ok tt, derive_last_qc s)
  end end end end.

(** [Start]: restoration errors are only logged. *)
Definition Start (fuel : nat) (s : Storage) : option Storage :=
  match EnablePersistence (st_config s), st_backend s with
  | true, Some b =>
      let s := (restoreCommittedState s b).2 in
      snd <$> restoreReplayWindow fuel s b
  | _, _ => Some s
  end.

(** ** Votes for repairing a certificate *)

Definition vote_matches (view height : Z) (blockHash : BlockHash) (v : Vote) : bool :=
  (v_View v =? view) && (v_Height v =? height) && bool_decide (v_BlockHash v = blockHash).

Definition backfill_page (view height : Z) (blockHash : BlockHash) (acc : list Vote * gset BlockHash)
    (records : list VoteRecord) : list Vote * gset BlockHash :=
  foldl (fun '(matches, seenH) rec =>
    if negb (vr_View rec =? view) || negb (vr_Height rec =? height) then (matches, seenH)
    else if negb (len (vr_BlockHash rec) =? 32) || negb (bool_decide (vr_BlockHash rec = blockHash)) then (matches, seenH)
    else
      match Unmarshal_Vote (vr_Data rec) with
      | None => (matches, seenH)
      | Some v =>
          if bool_decide (Vote_Hash v ∈ seenH) then (matches, seenH)
          else (matches ++ [v], {[Vote_Hash v]} ∪ seenH)
      end) acc records.

Fixpoint backfill (b : backend) (view height : Z) (blockHash : BlockHash) (neededCount : Z) (limits : list Z)
    (acc : list Vote * gset BlockHash) : list Vote :=
  match limits with
  | [] => acc.1
  | lim :: rest =>
      match ListVotes b height lim with
      | None | Some [] => acc.1
      | Some records =>
          let acc := backfill_page view height blockHash acc records in
          if ((0 <? neededCount) && (neededCount <=? len acc.1)) || (len records <? lim) then acc.1
          else backfill b view height blockHash neededCount rest acc
      end
  end.

Definition GetVotesForQCRepair (s : Storage) (view height : Z) (blockHash : BlockHash) (neededCount : Z) : list Vote :=
  let matches := filter (fun v => vote_matches view height blockHash v = true) (votes_of s view) in
  if (0 <? neededCount) && (neededCount <=? len matches) then matches
  else
    match st_backend s with
    | None => matches
    | Some b => backfill b view height blockHash neededCount [2048; 8192; 32768; 131072]
                  (matches, list_to_set (Vote_Hash <$> matches))
    end.

End storage.

(** ** Committed blocks *)

Section commits.
Context {B : StorageBackend} {M : Marshallers} {D : Codecs}.

(** The operations of the store, with the clock they read. *)
Inductive storage_op :=
| OpStoreProposal (now : Time) (p : Proposal)
| OpReconcile (now : Time) (force : bool)
| OpRecover (hash : BlockHash)
| OpStoreVote (v : Vote)
| OpStoreQC (q : IQC)
| OpStoreEvidence (e : Evidence)
| OpCommit (hash : BlockHash) (height : Z)
| OpPrune (currentHeight : Z).

Definition run_op (o : storage_op) (s : Storage) : Storage :=
  match o with
  | OpStoreProposal now p => (StoreProposal now p s).2
  | OpReconcile now force => (ReconcileReplayWindow now force s).2
  | OpRecover hash => (GetProposalOrRecover hash s).2
  | OpStoreVote v => (StoreVote v s).2
  | OpStoreQC q => (StoreQC q s).2
  | OpStoreEvidence e => (StoreEvidence e s).2
  | OpCommit hash height => (CommitBlock hash height s).2
  | OpPrune h => Prune h s
  end.

(** Pruning is asked for at most at the committed height. *)
Definition op_ok (o : storage_op) (s : Storage) : Prop :=
  match o with OpPrune h => h <= lastCommitted s | _ => True end.

Definition run_ops (os : list storage_op) (s : Storage) : Storage := foldl (fun s o => run_op o s) s os.
Fixpoint ops_ok (os : list storage_op) (s : Storage) : Prop :=
  match os with [] => True | o :: os => op_ok o s /\ ops_ok os (run_op o s) end.

Definition storage_ok (s : Storage) : Prop :=
  forall h x, committedBlocks s !! h = Some x -> h <= lastCommitted s.

Definition retained (s : Storage) : Z := u64 (MinRetainBlocks (st_config s)).

(** How an operation moves the committed state: the height only grows, and an
    entry is kept unless it is more than the retention below the height. *)
Record committed_step (s s' : Storage) : Prop := {
  cs_config : st_config s' = st_config s;
  cs_height : lastCommitted s <= lastCommitted s';
  cs_ok : storage_ok s -> storage_ok s';
  cs_kept h x : storage_ok s -> committedBlocks s !! h = Some x ->
    committedBlocks s' !! h = Some x \/ h < lastCommitted s' - retained s' }.

Lemma step_same s s' :
  st_config s' = st_config s -> lastCommitted s' = lastCommitted s -> committedBlocks s' = committedBlocks s ->
  committed_step s s'.
Proof. intros Hc Hl Hb. constructor; unfold storage_ok; rewrite ?Hc, ?Hl, ?Hb; auto; lia. Qed.

Lemma step_trans s s' s'' : committed_step s s' -> committed_step s' s'' -> committed_step s s''.
Proof.
  intros [c1 h1 o1 k1] [c2 h2 o2 k2]. constructor; [congruence|lia|auto|].
  intros h x Hok Hx. destruct (k1 h x Hok Hx) as [Hx'|Hlt]; [by apply k2; [apply o1|]|].
  right. unfold retained in *. rewrite c2. lia.
Qed.

Lemma retained_nonneg s : 0 <= retained s.
Proof. unfold retained, u64, two64. apply Z.mod_pos_bound. lia. Qed.

Lemma reconcile_step now force s : committed_step s (tryReconcileReplayWindowLocked now force s).2.
Proof.
  unfold tryReconcileReplayWindowLocked.
  repeat case_match; simplify_eq/=; try by apply step_same.
  constructor; unfold storage_ok; cbn; [done|lia| |].
  - intros Hok h x [[-> _]|[_ Hx]]%lookup_insert_Some; [lia|]. apply Hok in Hx. lia.
  - intros h x Hok Hx. left. apply lookup_insert_Some. right. split; [|done]. apply Hok in Hx. lia.
Qed.

Lemma reconcile_for_step now p s : committed_step s (reconcile_for now p s).
Proof.
  unfold reconcile_for.
  match goal with |- context [tryReconcileReplayWindowLocked ?n ?f ?t] =>
    pose proof (reconcile_step n f t) as H; destruct (tryReconcileReplayWindowLocked n f t) as [r s1] end.
  cbn in H. apply (step_trans _ s1); [eapply step_trans; [|exact H]; by apply step_same|].
  repeat case_match; by apply step_same.
Qed.

Lemma StoreProposal_step now p s : committed_step s (StoreProposal now p s).2.
Proof.
  unfold StoreProposal. set (s1 := if isWithinWindow s (p_Height p) then s else reconcile_for now p s).
  assert (H1 : committed_step s s1).
  { unfold s1. case_match; [by apply step_same|apply reconcile_for_step]. }
  eapply step_trans; [exact H1|].
  repeat case_match; by apply step_same.
Qed.

Lemma prune_step h s : h <= lastCommitted s -> committed_step s (pruneOldDataUnsafe h s).
Proof.
  intros Hh. unfold pruneOldDataUnsafe. pose proof (retained_nonneg s) as Hr. unfold retained in Hr.
  case_match; [by apply step_same|].
  assert (Hs : forall t, st_config t = st_config s -> lastCommitted t = lastCommitted s ->
    committedBlocks t = filter (fun '(height, _) => h - u64 (MinRetainBlocks (st_config s)) <= height) (committedBlocks s) ->
    committed_step s t).
  { intros t Hc Hl Hb. constructor; [done|lia| |].
    - intros Hok k x. rewrite Hb, Hl. intros [Hx _]%map_lookup_filter_Some. by apply Hok in Hx.
    - intros k x _ Hx. rewrite Hb, Hl. unfold retained. rewrite Hc.
      destruct (decide (h - u64 (MinRetainBlocks (st_config s)) <= k)); [|right; lia].
      left. by apply map_lookup_filter_Some. }
  repeat case_match; by apply Hs.
Qed.

Lemma CommitBlock_step hash height s : committed_step s (CommitBlock hash height s).2.
Proof.
  unfold CommitBlock. destruct (committedBlocks s !! height) as [x|] eqn:Hx.
  { case_match; by apply step_same. }
  cbn [snd]. eapply step_trans; [|case_match; [apply prune_step|by apply step_same]]; cbn; [|lia].
  constructor; unfold storage_ok; cbn; [done|lia| |].
  - intros Hok k y [[-> _]|[_ Hy]]%lookup_insert_Some; [lia|]. apply Hok in Hy. lia.
  - intros k y Hok Hy. left. apply lookup_insert_Some. right. split; [|done]. congruence.
Qed.

Lemma run_op_step o s : op_ok o s -> committed_step s (run_op o s).
Proof.
  intros Hop. destruct o; cbn [run_op].
  - apply StoreProposal_step.
  - apply reconcile_step.
  - unfold GetProposalOrRecover. repeat case_match; by apply step_same.
  - unfold StoreVote. repeat case_match; by apply step_same.
  - unfold StoreQC. repeat case_match; by apply step_same.
  - unfold StoreEvidence. repeat case_match; by apply step_same.
  - apply CommitBlock_step.
  - by apply prune_step.
Qed.

Lemma run_ops_step os s : ops_ok os s -> committed_step s (run_ops os s).
Proof.
  revert s. induction os as [|o os IH]; intros s Hok; cbn; [by apply step_same|].
  destruct Hok as [Ho Hos]. eapply step_trans; [by apply run_op_step|by apply IH].
Qed.
End commits.

(** ** Restoration *)

Section restoration.
Context {A : Type} (decode : bytes -> option A).

Lemma restore_page_app acc l k :
  restore_page decode acc (l ++ k) = restore_page decode (restore_page decode acc l) k.
Proof. unfold restore_page. by rewrite foldl_app. Qed.

Lemma restore_page_union acc l : restore_page decode acc l = restore_page decode ∅ l ∪ acc.
Proof.
  induction l as [|r l IH] using rev_ind; [cbn; by rewrite (left_id_L ∅ (∪))|].
  rewrite !restore_page_app, IH. cbn. repeat case_match; [done|by rewrite insert_union_l|done].
Qed.

(** Restoring records again changes nothing. *)
Lemma restore_page_idem acc l : restore_page decode (restore_page decode acc l) l = restore_page decode acc l.
Proof.
  rewrite (restore_page_union (restore_page decode acc l)), (restore_page_union acc).
  by rewrite (assoc_L (∪)), (idemp_L (∪)).
Qed.

(** The records of the backend, in height order, and its answer to a query. *)
Definition from_height (h : Z) (recs : list HashRecord) : list HashRecord :=
  filter (fun r => h <= hr_Height r) recs.
Definition page_query (recs : list HashRecord) (minHeight lim : Z) : option (list HashRecord) :=
  Some (take (Z.to_nat lim) (from_height minHeight recs)).

Definition increasing (recs : list HashRecord) : Prop :=
  StronglySorted (fun r r' => hr_Height r < hr_Height r') recs.

Lemma increasing_below recs h n :
  increasing recs -> Forall (fun r => h <= hr_Height r < h + Z.of_nat n) recs -> (length recs <= n)%nat.
Proof.
  intros Hs. revert h n. induction Hs as [|r recs Hs IH Hr]; intros h n Hf; cbn; [lia|].
  apply Forall_cons in Hf as [Hh Hf]. destruct n as [|n]; [lia|].
  assert (length recs <= n)%nat; [|lia]. apply (IH (h + 1)).
  rewrite Forall_forall in *. intros r' Hr'. specialize (Hr r' Hr'). specialize (Hf r' Hr'). lia.
Qed.

(** The records below a bound are a prefix. *)
Lemma increasing_split recs h :
  increasing recs ->
  exists low, recs = low ++ from_height h recs /\ Forall (fun r => hr_Height r < h) low /\ increasing low.
Proof.
  intros Hs. induction Hs as [|r recs Hs IH Hr]; [exists []; by repeat constructor|].
  unfold from_height in *. destruct (decide (h <= hr_Height r)) as [Hge|Hlt].
  - exists []. rewrite filter_cons_True by done. split_and!; [|constructor|constructor].
    cbn. f_equal. symmetry. apply list_filter_all. rewrite Forall_forall in Hr. apply Forall_forall.
    intros r' Hr'. specialize (Hr r' Hr'). lia.
  - destruct IH as (low & Heq & Hlow & Hinc). exists (r :: low). rewrite filter_cons_False by done. split_and!.
    + cbn. by f_equal.
    + constructor; [lia|done].
    + constructor; [done|]. rewrite Heq in Hr. by apply Forall_app in Hr as [Hr _].
Qed.

Lemma from_height_from h h' recs : h <= h' -> from_height h' (from_height h recs) = from_height h' recs.
Proof.
  intros Hle. unfold from_height. rewrite list_filter_filter. apply list_filter_iff. intros r. lia.
Qed.

Lemma from_height_increasing h recs : increasing recs -> increasing (from_height h recs).
Proof.
  intros Hs. unfold increasing, from_height. induction Hs as [|r recs Hs IH Hr]; [constructor|].
  destruct (decide (h <= hr_Height r)); [rewrite filter_cons_True by done|by rewrite filter_cons_False by done].
  constructor; [done|]. rewrite Forall_forall in *. intros r' [_ Hr']%list_elem_of_filter. by apply Hr.
Qed.

(** With strictly increasing heights the pages cover every record, with fuel for
    the range of heights. *)
Lemma restore_pages_all fuel recs n offset acc :
  (0 < n)%nat -> increasing recs -> 0 <= offset ->
  Forall (fun r => hr_Height r + Z.of_nat n < two64) recs ->
  Forall (fun r => hr_Height r < offset + Z.of_nat n * Z.of_nat fuel) recs ->
  restore_pages (S fuel) (page_query recs) decode (Z.of_nat n) offset acc =
    Some (Ok tt, restore_page decode acc (from_height offset recs)).
Proof.
  intros Hn Hinc. revert offset acc. induction fuel as [|fuel IH]; intros offset acc Hoff Hbig Hfuel.
  { cbn. rewrite Nat2Z.id. replace (from_height offset recs) with (@nil HashRecord); [by rewrite take_nil|].
    symmetry. apply list_filter_none. rewrite Forall_forall in *. intros r Hr. specialize (Hfuel r Hr). cbn in Hfuel. lia. }
  remember (S fuel) as fuel' eqn:Hf'. cbn [restore_pages]. unfold page_query at 1. rewrite Nat2Z.id.
  set (R := from_height offset recs) in *.
  destruct (take n R) as [|r0 page] eqn:Hpage.
  { destruct R as [|r R1]; [done|]. destruct n; [lia|discriminate Hpage]. }
  rewrite <- Hpage. unfold len. rewrite length_take.
  destruct (Z.ltb_spec (Z.of_nat (n `min` length R)) (Z.of_nat n)) as [Hlt|Hge].
  { by rewrite take_ge by lia. }
  destruct (increasing_split R (offset + Z.of_nat n)) as (low & HR & Hlow & Hlowinc).
  { by apply from_height_increasing. }
  assert (HR' : from_height (offset + Z.of_nat n) R = from_height (offset + Z.of_nat n) recs)
    by (apply from_height_from; lia).
  rewrite HR' in HR. set (R' := from_height (offset + Z.of_nat n) recs) in *.
  assert (Hoffs : Forall (fun r => offset <= hr_Height r) R).
  { apply Forall_forall. intros r Hr. by apply list_elem_of_filter in Hr as [? _]. }
  assert (Hlen : (length low <= n)%nat).
  { apply (increasing_below low offset); [done|]. rewrite HR in Hoffs. apply Forall_app in Hoffs as [Ho _].
    rewrite Forall_forall in *. intros r Hr. specialize (Ho r Hr). specialize (Hlow r Hr). lia. }
  assert (Hr0 : r0 ∈ R) by (rewrite <- (take_drop n R), Hpage; by left).
  assert (Hnext : offset + Z.of_nat n < two64).
  { rewrite Forall_forall in Hoffs, Hbig. specialize (Hoffs r0 Hr0).
    apply list_elem_of_filter in Hr0 as [_ Hr0]. specialize (Hbig r0 Hr0). lia. }
  subst fuel'. rewrite u64_small by lia. rewrite IH; [|lia|done|].
  2:{ rewrite Forall_forall in *. intros r Hr. specialize (Hfuel r Hr). lia. }
  do 2 f_equal. fold R'.
  rewrite HR, take_app_ge by done. rewrite !restore_page_app.
  rewrite <- (take_drop (n - length low) R') at 2. rewrite restore_page_app, restore_page_idem, <- restore_page_app.
  by rewrite take_drop.
Qed.
End restoration.

(** ** Properties *)

(** Commit stability: whatever sequence of store operations follows (proposals,
    votes, certificates, evidence, further commits, reconciliations with the
    durable tip, recoveries and pruning), the block committed at a height stays
    the one committed there for as long as the height is within the retention of
    the committed height, and the committed height never decreases. *)
Theorem commit_stable {B : StorageBackend} {M : Marshallers} {D : Codecs}
    (s : Storage) (os : list storage_op) (height : Z) (hash : BlockHash)
    (Hok : storage_ok s) (Hops : ops_ok os s)
    (Hcommitted : committedBlocks s !! height = Some hash)
    (Hretained : lastCommitted (run_ops os s) - retained s <= height) :
  committedBlocks (run_ops os s) !! height = Some hash /\
  lastCommitted s <= lastCommitted (run_ops os s) /\ storage_ok (run_ops os s).
Proof.
  destruct (run_ops_step os s Hops) as [Hc Hh Ho Hk]. split; [|by auto].
  destruct (Hk height hash Hok Hcommitted) as [Hx|Hlt]; [done|].
  unfold retained in *. rewrite Hc in Hlt. lia.
Qed.

(** Commits fail closed on a conflict: with a block committed at a height, a
    commit of the same block there changes nothing and a commit of any other is
    refused and changes nothing. *)
Theorem CommitBlock_conflict {B : StorageBackend} (s : Storage) (height : Z) (hash hash' : BlockHash)
    (Hcommitted : committedBlocks s !! height = Some hash) :
  CommitBlock hash' height s = (if bool_decide (hash = hash') then Ok tt else Err ErrConflictingCommit, s).
Proof. unfold CommitBlock. rewrite Hcommitted. by case_bool_decide. Qed.

(** The conflict check forgets what was pruned: after a commit that prunes, any
    block at all can be committed at a height below the retention, the committed
    height notwithstanding. *)
Theorem pruned_height_recommits {B : StorageBackend} (s : Storage) (hash hash' : BlockHash) (height height' : Z)
    (Hprune : AutoPrune (st_config s) = true)
    (Hfresh : committedBlocks s !! height = None)
    (Hold : 0 <= height' < height - retained s) :
  let s' := (CommitBlock hash height s).2 in
  committedBlocks s' !! height' = None /\
  exists s'', CommitBlock hash' height' s' = (Ok tt, s'') /\
    (height' <= retained s -> committedBlocks s'' !! height' = Some hash').
Proof.
  cbv zeta. assert (Hnone : committedBlocks (CommitBlock hash height s).2 !! height' = None /\
    st_config (CommitBlock hash height s).2 = st_config s).
  { unfold CommitBlock. rewrite Hfresh. cbn [snd st_config with_committed]. rewrite Hprune. unfold pruneOldDataUnsafe. cbn.
    unfold retained in Hold. destruct (Z.leb_spec height (u64 (MinRetainBlocks (st_config s)))); [pose proof (retained_nonneg s) as Hr; unfold retained in Hr; lia|].
    assert (Hm : filter (fun '(h, _) => height - u64 (MinRetainBlocks (st_config s)) <= h)
      (<[height:=hash]> (committedBlocks s)) !! height' = None).
    { apply map_lookup_filter_None. right. intros x _. lia. }
    repeat case_match; done. }
  destruct Hnone as [Hnone Hcfg]. split; [exact Hnone|].
  set (s' := (CommitBlock hash height s).2) in *. unfold CommitBlock at 1. rewrite Hnone.
  eexists. split; [reflexivity|]. intros Hle. cbn [st_config with_committed]. rewrite Hcfg, Hprune. unfold pruneOldDataUnsafe. cbn.
  rewrite Hcfg. unfold retained in Hle. destruct (Z.leb_spec height' (u64 (MinRetainBlocks (st_config s)))); [|lia].
  cbn. by rewrite lookup_insert_eq.
Qed.

(** [StoreProposal]: an accepted proposal is inside the replay window of the
    committed height (after the reconciliation it may trigger), the store had
    room for it, and it can be read back by its block hash; on an error no
    proposal is added and none is changed. *)
Theorem StoreProposal_spec {B : StorageBackend} {M : Marshallers} {D : Codecs} (now : Time) (p : Proposal) (s : Storage) :
  let '(r, s') := StoreProposal now p s in
  match r with
  | Ok _ => isWithinWindow s' (p_Height p) = true /\ GetProposal s' (p_BlockHash p) = Some p /\
            Z.of_nat (size (proposals s)) < MaxProposals (st_config s) /\
            proposals s' = <[p_BlockHash p := p]> (proposals s)
  | Err _ => proposals s' = proposals s \/ proposals s' = delete (p_BlockHash p) (proposals s)
  end.
Proof.
  unfold StoreProposal. set (s1 := if isWithinWindow s (p_Height p) then s else reconcile_for now p s).
  assert (H1 : proposals s1 = proposals s /\ st_config s1 = st_config s).
  { unfold s1. case_match; [done|]. unfold reconcile_for, tryReconcileReplayWindowLocked.
    repeat case_match; simplify_eq/=; done. }
  destruct H1 as [H1 Hcfg].
  destruct (isWithinWindow s1 (p_Height p)) eqn:Hw; cbn [negb]; [|by left].
  destruct (Z.leb_spec (MaxProposals (st_config s1)) (Z.of_nat (size (proposals s1)))); [by left|].
  rewrite H1, Hcfg in *. cbn [EnablePersistence st_config with_proposals st_backend].
  assert (Hdel : delete (p_BlockHash p) (<[p_BlockHash p := p]> (proposals s)) = delete (p_BlockHash p) (proposals s))
    by apply delete_insert_eq.
  repeat case_match; simplify_eq/=; unfold GetProposal; cbn;
    first [right; exact Hdel | split_and!; [exact Hw|by rewrite lookup_insert_eq|lia|done]].
Qed.

(** Restoring proposals, certificates or evidence finishes and loads every record
    at or above the minimum height, when the backend lists records by height with
    at most one per height; the fuel needed is the range of heights over the page
    size. *)
Theorem restore_pages_complete {A} (decode : bytes -> option A) (fuel : nat) (recs : list HashRecord)
    (offset : Z) (acc : gmap BlockHash A)
    (Hinc : increasing recs) (Hoff : 0 <= offset)
    (Hbig : Forall (fun r => hr_Height r + 256 < two64) recs)
    (Hfuel : Forall (fun r => hr_Height r < offset + 256 * Z.of_nat fuel) recs) :
  restore_pages (S fuel) (page_query recs) decode 256 offset acc =
    Some (Ok tt, restore_page decode acc (from_height offset recs)).
Proof. apply (restore_pages_all decode fuel recs 256 offset acc); [lia|done..]. Qed.

(** ** Witnesses *)

#[export] Instance null_backend : StorageBackend := {|
  backend := unit;
  SaveProposal b _ _ _ _ _ := (true, b); LoadProposal _ _ := None; ListProposals _ _ _ := Some [];
  SaveQC b _ _ _ _ := (true, b); ListQCs _ _ _ := Some [];
  SaveVote b _ _ _ _ _ _ := (true, b); ListVotes _ _ _ := Some [];
  SaveEvidence b _ _ _ := (true, b); ListEvidence _ _ _ := Some [];
  LoadLastCommitted _ := Some (0, [], []); DeleteBefore b _ := b;
  has_durable_tip := false; GetLatestHeight _ := None; GetCommittedBlockHash _ _ := None |}.
#[export] Instance null_marshallers : Marshallers := {|
  Marshal_Proposal _ := Some [x01]; Marshal_Vote _ := Some [x01]; Marshal_QC _ := Some [x01];
  Marshal_Evidence _ := Some [x01] |}.
#[export] Existing Instance demo_codecs.

Definition demo_storage : Storage := (CommitBlock (demo_id 76) 1 (NewStorage None DefaultStorageConfig)).2.

Lemma demo_storage_ok : storage_ok demo_storage.
Proof.
  intros h x Hx. change (committedBlocks demo_storage) with (<[1 := demo_id 76]> (∅ : gmap Z BlockHash)) in Hx.
  apply lookup_insert_Some in Hx as [[<- _]|[_ Hx]]; [by vm_compute|]. by rewrite lookup_empty in Hx.
Qed.

Lemma commit_stable_witness :
  committedBlocks (run_ops [OpCommit (demo_id 77) 2; OpStoreVote (demo_vote 1); OpCommit (demo_id 99) 1] demo_storage) !! 1
    = Some (demo_id 76).
Proof.
  apply (commit_stable demo_storage [OpCommit (demo_id 77) 2; OpStoreVote (demo_vote 1); OpCommit (demo_id 99) 1] 1).
  - exact demo_storage_ok.
  - cbn. auto.
  - vm_compute. reflexivity.
  - vm_compute. discriminate.
Defined.

Lemma CommitBlock_conflict_witness :
  CommitBlock (demo_id 99) 1 demo_storage = (Err ErrConflictingCommit, demo_storage).
Proof. exact (CommitBlock_conflict demo_storage 1 (demo_id 76) (demo_id 99) eq_refl). Defined.

(** Height 1 is committed, height 20 prunes it, and height 1 is committed again
    with another block. *)
Lemma pruned_height_recommits_witness :
  committedBlocks demo_storage !! 1 = Some (demo_id 76) /\
  committedBlocks (CommitBlock (demo_id 99) 1 (CommitBlock (demo_id 95) 20 demo_storage).2).2 !! 1 = Some (demo_id 99).
Proof.
  split; [vm_compute; reflexivity|].
  destruct (pruned_height_recommits demo_storage (demo_id 95) (demo_id 99) 20 1) as (_ & s'' & Hrun & H).
  - reflexivity.
  - vm_compute. reflexivity.
  - split; vm_compute; congruence.
  - rewrite Hrun. apply H. vm_compute. discriminate.
Defined.

Definition demo_records : list HashRecord :=
  [MkHashRecord (demo_id 1) 5 [x01]; MkHashRecord (demo_id 2) 7 [x02]].

Lemma restore_pages_complete_witness :
  restore_pages 2 (page_query demo_records) Some 256 6 ∅ =
    Some (Ok tt, restore_page Some ∅ [MkHashRecord (demo_id 2) 7 [x02]]).
Proof.
  apply (restore_pages_complete Some 1 demo_records 6 ∅).
  - repeat constructor.
  - lia.
  - repeat constructor.
  - repeat constructor.
Defined.

(** With two records per height the pages do skip: of 600 records at heights 1 to
    300 the ones at heights 129 to 255 are not loaded. *)
Definition paired_records : list HashRecord :=
  (fun i => MkHashRecord (be_put 32 (Z.of_nat i)) (Z.of_nat (i / 2) + 1) [x01]) <$> seq 0 600.

Example restore_pages_skips :
  match restore_pages 5 (page_query paired_records) Some 256 0 ∅ with
  | Some (Ok _, m) => Some (size m, m !! be_put 32 300)
  | _ => None
  end = Some (346%nat, None).
Proof. vm_compute. reflexivity. Qed.
