(* ===== verification/HotStuff.v ===== *)
(** backend/pkg/consensus/pbft/pbft.go: the two-chain HotStuff engine over the
    validator, the quorum arithmetic and the consensus store; the leader's path
    with its repair of certificates; runs of the engine. *)
From S2P Require Import Prelude Bytes Sha256 GoTime Messages Interfaces Encoder Validation Quorum ConsensusStorage.

Inductive hs_error :=
| HValidation (e : val_error) | HStorage (e : storage_error)
| HAlreadyVoted | HConflictsLocked | HBlockInvalid | HSign | HEquivocation | HMixedBucket
| HNoPending | HMixedVotes | HNoProposal | HNoBlock | HCommitCallback | HViewNotNewer
| HNotLeader | HRepair | HSyncTimeout | HCrash.

Record HotStuffConfig := MkHotStuffConfig {
  EnableVoting : bool; EnableProposing : bool; SafetyCheckStrict : bool; AutoCleanupOldVotes : bool }.
Definition DefaultHotStuffConfig : HotStuffConfig := MkHotStuffConfig true true true true.

(** The node the engine runs on: its identity and signer, the leader rotation,
    the block validation and commit callbacks, and the order in which the i-th
    [range] of a call visits a vote map, and [range] the stored certificates. *)
Class Node := {
  GetKeyID : ValidatorID;
  GetKeyID_length : length GetKeyID = 32%nat;
  SignWithContext : Time -> bytes -> option bytes;
  IsLeader : Z -> bool;
  BlockValidationFunc : option (option Block -> bool);
  OnCommit : Block -> IQC -> bool;
  EncodeVote : Vote -> bytes;
  range_votes : nat -> gmap ValidatorID Vote -> list (ValidatorID * Vote);
  range_votes_perm i votes : range_votes i votes ≡ₚ map_to_list votes;
  range_qcs : gmap BlockHash IQC -> list (BlockHash * IQC);
  range_qcs_perm m : range_qcs m ≡ₚ map_to_list m }.

(** What the engine tells the outside: callbacks and pacemaker notifications. *)
Inductive event :=
| EvPacemakerProposal
| EvProposal (p : Proposal)
| EvVote (v : Vote)
| EvQC (q : IQC)
| EvCommit (b : Block) (q : IQC).

Section hotstuff.
Context {CS : CryptoService} {C : LRU bytes bool} {VS : ValidatorSet}
        {B : StorageBackend} {M : Marshallers} {D : Codecs} {N : Node}.

(** [hs_validator] carries the pacemaker's view and height; [hs_events] is the
    trace, last first. *)
Record HotStuff := MkHotStuff {
  hs_config : HotStuffConfig;
  hs_validator : Validator;
  hs_storage : Storage;
  currentView : Z;
  currentHeight : Z;
  lockedQC : option IQC;
  prepareQC : option IQC;
  votesSent : gmap Z BlockHash;
  pendingVotes : gmap (Z * BlockHash) (gmap ValidatorID Vote);
  hs_events : list event }.

Definition set_validator x hs := MkHotStuff (hs_config hs) x (hs_storage hs) (currentView hs) (currentHeight hs)
  (lockedQC hs) (prepareQC hs) (votesSent hs) (pendingVotes hs) (hs_events hs).
Definition set_storage x hs := MkHotStuff (hs_config hs) (hs_validator hs) x (currentView hs) (currentHeight hs)
  (lockedQC hs) (prepareQC hs) (votesSent hs) (pendingVotes hs) (hs_events hs).
Definition set_view x hs := MkHotStuff (hs_config hs) (hs_validator hs) (hs_storage hs) x (currentHeight hs)
  (lockedQC hs) (prepareQC hs) (votesSent hs) (pendingVotes hs) (hs_events hs).
Definition set_height x hs := MkHotStuff (hs_config hs) (hs_validator hs) (hs_storage hs) (currentView hs) x
  (lockedQC hs) (prepareQC hs) (votesSent hs) (pendingVotes hs) (hs_events hs).
Definition set_locked x hs := MkHotStuff (hs_config hs) (hs_validator hs) (hs_storage hs) (currentView hs) (currentHeight hs)
  x (prepareQC hs) (votesSent hs) (pendingVotes hs) (hs_events hs).
Definition set_prepare x hs := MkHotStuff (hs_config hs) (hs_validator hs) (hs_storage hs) (currentView hs) (currentHeight hs)
  (lockedQC hs) x (votesSent hs) (pendingVotes hs) (hs_events hs).
Definition set_votesSent x hs := MkHotStuff (hs_config hs) (hs_validator hs) (hs_storage hs) (currentView hs) (currentHeight hs)
  (lockedQC hs) (prepareQC hs) x (pendingVotes hs) (hs_events hs).
Definition set_pending x hs := MkHotStuff (hs_config hs) (hs_validator hs) (hs_storage hs) (currentView hs) (currentHeight hs)
  (lockedQC hs) (prepareQC hs) (votesSent hs) x (hs_events hs).
Definition add_event x hs := MkHotStuff (hs_config hs) (hs_validator hs) (hs_storage hs) (currentView hs) (currentHeight hs)
  (lockedQC hs) (prepareQC hs) (votesSent hs) (pendingVotes hs) (x :: hs_events hs).

Definition NewHotStuff (c : HotStuffConfig) (v : Validator) (s : Storage) : HotStuff :=
  MkHotStuff c v s 0 0 None None ∅ ∅ [].

Abbreviation HM := (ST HotStuff hs_error).

Definition on_validator {A} (m : ST Validator val_error A) : HM A := fun hs =>
  match m (hs_validator hs) with
  | (Ok a, v) => (Ok a, set_validator v hs)
  | (Err e, v) => (Err (HValidation e), set_validator v hs)
  end.
Definition on_storage {A} (m : ST Storage storage_error A) : HM A := fun hs =>
  match m (hs_storage hs) with
  | (Ok a, s) => (Ok a, set_storage s hs)
  | (Err e, s) => (Err (HStorage e), set_storage s hs)
  end.
(** An error that is only logged. *)
Definition logged {A} (default : A) (m : HM A) : HM A := fun hs =>
  match m hs with (Ok a, hs') => (Ok a, hs') | (Err _, hs') => (Ok default, hs') end.
Definition emit (e : event) : HM unit := modify (add_event e).

(** [engineState.AllowRestartBootstrap] asks the store. *)
Definition with_bootstrap (s : Storage) (v : Validator) : Validator :=
  MkValidator (val_config v) (val_encoder v) (GetCurrentView v) (GetCurrentHeight v) (seen v)
    (Some (S_AllowRestartBootstrap s)).

(** ** Commit *)

Definition cleanupOldData (height : Z) (hs : HotStuff) : HotStuff :=
  let hs := if 100 <? height then set_pending ∅ hs else hs in
  set_votesSent (filter (fun '(view, _) => ~ view < u64 (currentView hs - 100)) (votesSent hs)) hs.

Definition commitBlock (blk : Block) (q : IQC) : HM unit :=
  on_storage (CommitBlock (GetHash blk) (GetHeight blk)) ;;
  modify (set_height (u64 (GetHeight blk + 1))) ;;
  emit (EvCommit blk q) ;;
  fail_if (negb (OnCommit blk q)) HCommitCallback ;;
  cleanup ← gets (fun hs => AutoCleanupOldVotes (hs_config hs));
  (if cleanup : bool then modify (cleanupOldData (GetHeight blk)) else mret tt).

(** A proposal from memory, else recovered from the backend; recovery errors are
    logged. *)
Definition find_proposal (hash : BlockHash) : HM (option Proposal) :=
  p ← gets (fun hs => GetProposal (hs_storage hs) hash);
  match p with
  | Some p => mret (Some p)
  | None => logged None (on_storage (GetProposalOrRecover hash))
  end.

Definition commit_proposal (p : option Proposal) (q : IQC) : HM unit :=
  match p with
  | None => throw HNoProposal
  | Some p => match p_Block p with None => throw HNoBlock | Some blk => commitBlock blk q end
  end.

Definition higher_lock (q locked : IQC) : bool :=
  (q_Height (iqc locked) <? q_Height (iqc q)) ||
  ((q_Height (iqc q) =? q_Height (iqc locked)) && (q_View (iqc locked) <? q_View (iqc q))).

Definition checkCommitRule (q : IQC) : HM unit :=
  if GetValidatorCount =? 1 then
    p ← gets (fun hs => GetProposal (hs_storage hs) (q_BlockHash (iqc q)));
    commit_proposal p q
  else
    locked ← gets lockedQC;
    match locked with
    | None => modify (set_locked (Some q))
    | Some lockedq =>
        current ← find_proposal (q_BlockHash (iqc q));
        let two_chain :=
          match current with
          | None => false
          | Some p => (q_Height (iqc q) =? u64 (q_Height (iqc lockedq) + 1)) &&
                      bool_decide (ParentHash p = q_BlockHash (iqc lockedq))
          end in
        if two_chain then
          p ← find_proposal (q_BlockHash (iqc lockedq));
          commit_proposal p lockedq
        else if higher_lock q lockedq then modify (set_locked (Some q)) else mret tt
    end.

(** ** Votes *)

Definition same_bucket (first v : Vote) : bool :=
  (v_View v =? v_View first) && (v_Height v =? v_Height first) && (v_Round v =? v_Round first) &&
  bool_decide (v_BlockHash v = v_BlockHash first).

Definition votes_for (hs : HotStuff) (key : Z * BlockHash) : gmap ValidatorID Vote :=
  default ∅ (pendingVotes hs !! key).

(** [formQC]; the certificate goes through the adapter, whose round is 0. *)
Definition formQC (now : Time) (enforceActive : bool) (blockHash : BlockHash) (view : Z) : HM IQC :=
  bucket ← gets (fun hs => votes_for hs (view, blockHash));
  match range_votes 1 bucket with
  | [] => throw HNoPending
  | (_, firstVote) :: _ =>
      if negb (forallb (fun p => same_bucket firstVote p.2) (range_votes 2 bucket)) then
        modify (fun hs => set_pending (delete (view, blockHash) (pendingVotes hs)) hs) ;;
        throw HMixedVotes
      else
        let qc := MkQC (v_View firstVote) (v_Height firstVote) (v_Round firstVote) blockHash
                    (v_Signature <$> (range_votes 2 bucket).*2) now GetKeyID in
        on_validator (adapter_ValidateQC now enforceActive qc) ;;
        on_storage (StoreQC (PbftQC qc)) ;;
        modify (set_prepare (Some (PbftQC qc))) ;;
        logged tt (checkCommitRule (PbftQC qc)) ;;
        modify (fun hs => set_pending (delete (view, blockHash) (pendingVotes hs)) hs) ;;
        mret (PbftQC qc)
  end.

Definition createEquivocationEvidence (now : Time) (vote1 vote2 : Vote) : Evidence :=
  let e sg := MkEvidence EvidenceDoubleVote (v_View vote1) (v_Height vote1) (VoterID vote1)
                (EncodeVote vote1 ++ EncodeVote vote2) GetKeyID now sg in
  e (MkSig (default [] (SignWithContext now (Evidence_SignBytes (e zero_sig)))) GetKeyID now).

Definition equivocates (existing v : Vote) : Prop :=
  VoterID existing = VoterID v /\ v_Height existing = v_Height v /\ v_Round existing = v_Round v /\
  v_BlockHash existing <> v_BlockHash v.
#[export] Instance equivocates_dec existing v : Decision (equivocates existing v).
Proof. unfold equivocates. apply _. Defined.

Definition detectVoteEquivocation (now : Time) (v : Vote) : HM unit :=
  existing ← gets (fun hs => GetVotesByView (hs_storage hs) (v_View v));
  match filter (fun w => equivocates w v) existing with
  | [] => mret tt
  | w :: _ =>
      logged tt (on_storage (StoreEvidence (createEquivocationEvidence now w v))) ;;
      throw HEquivocation
  end.

(** The bucket check looks at one existing vote only. *)
Definition bucket_mixed (bucket : gmap ValidatorID Vote) (v : Vote) : bool :=
  match range_votes 0 bucket with
  | [] => false
  | (_, existing) :: _ => negb ((v_Height existing =? v_Height v) && (v_Round existing =? v_Round v))
  end.

Definition onVoteInternal (now : Time) (enforceActive : bool) (v : Vote) : HM (option IQC) :=
  on_validator (ValidateVote v) ;;
  detectVoteEquivocation now v ;;
  on_storage (StoreVote v) ;;
  let key := (v_View v, v_BlockHash v) in
  bucket ← gets (fun hs => votes_for hs key);
  modify (fun hs => set_pending (<[key := bucket]> (pendingVotes hs)) hs) ;;
  fail_if (bucket_mixed bucket v) HMixedBucket ;;
  modify (fun hs => set_pending (<[key := <[VoterID v := v]> bucket]> (pendingVotes hs)) hs) ;;
  if HasQuorum (Z.of_nat (size (<[VoterID v := v]> bucket)))
  then q ← formQC now enforceActive (v_BlockHash v) (v_View v); mret (Some q)
  else mret None.

Definition OnVote (now : Time) (enforceActive : bool) (v : Vote) : HM unit :=
  q ← onVoteInternal now enforceActive v;
  match q with Some q => emit (EvQC q) | None => mret tt end.

(** ** Proposals *)

Definition qc_view_of (q : option IQC) : Z := match q with None => 0 | Some q => q_View (iqc q) end.

Definition isSafeToVote (p : Proposal) (hs : HotStuff) : bool :=
  if negb (SafetyCheckStrict (hs_config hs)) then true
  else
    match lockedQC hs, JustifyQC p with
    | None, _ => true
    | Some _, None => false
    | Some locked, Some justify => q_View (iqc locked) <=? q_View justify
    end.

Definition sendVoteLocked (now : Time) (enforceActive : bool) (p : Proposal) : HM (option IQC) :=
  let unsigned sg := MkVote (p_View p) (p_Height p) (p_Round p) (p_BlockHash p) GetKeyID now sg in
  match SignWithContext now (Vote_SignBytes (unsigned zero_sig)) with
  | None => throw HSign
  | Some signature =>
      let vote := unsigned (MkSig signature GetKeyID now) in
      modify (fun hs => set_votesSent (<[p_View p := p_BlockHash p]> (votesSent hs)) hs) ;;
      on_storage (StoreVote vote) ;;
      emit (EvVote vote) ;;
      if IsLeader (p_View p) then onVoteInternal now enforceActive vote
      else if (GetValidatorCount =? 1) || (GetQuorumThreshold =? 1) then onVoteInternal now enforceActive vote
      else mret None
  end.

Definition validate_proposal (now : Time) (enforceActive : bool) (p : Proposal) : HM unit :=
  modify (fun hs => set_validator (with_bootstrap (hs_storage hs) (hs_validator hs)) hs) ;;
  on_validator (ValidateProposal now enforceActive p).

Definition update_lock (qc : QC) (hs : HotStuff) : HotStuff :=
  match lockedQC hs with
  | None => set_locked (Some (MessagesQC qc)) hs
  | Some locked => if q_View (iqc locked) <? q_View qc then set_locked (Some (MessagesQC qc)) hs else hs
  end.

Definition onProposalLocked (now : Time) (enforceActive : bool) (p : Proposal) : HM (option IQC) :=
  validate_proposal now enforceActive p ;;
  voted ← gets (fun hs => votesSent hs !! p_View p);
  match voted with
  | Some votedHash => if bool_decide (votedHash = p_BlockHash p) then mret None else throw HAlreadyVoted
  | None =>
      match JustifyQC p with
      | None => mret tt
      | Some qc => on_validator (adapter_ValidateQC now enforceActive qc) ;; modify (update_lock qc)
      end ;;
      safe ← gets (isSafeToVote p);
      fail_if (negb safe) HConflictsLocked ;;
      fail_if (match BlockValidationFunc with None => false | Some f => negb (f (p_Block p)) end) HBlockInvalid ;;
      on_storage (StoreProposal now p) ;;
      emit EvPacemakerProposal ;;
      emit (EvProposal p) ;;
      voting ← gets (fun hs => EnableVoting (hs_config hs));
      if voting : bool then sendVoteLocked now enforceActive p else mret None
  end.

Definition OnProposal (now : Time) (enforceActive : bool) (p : Proposal) : HM unit :=
  q ← onProposalLocked now enforceActive p;
  match q with Some q => emit (EvQC q) | None => mret tt end.

(** ** Views and recovery *)

Definition loadState (hs : HotStuff) : HotStuff :=
  let hs := set_height (u64 (lastCommitted (hs_storage hs) + 1)) hs in
  match lastQC (hs_storage hs) with
  | Some q => set_view (u64 (q_View (iqc q) + 1)) (set_prepare (Some q) (set_locked (Some q) hs))
  | None => set_view 0 hs
  end.

Definition AdvanceView (newView : Z) (highestQC : option IQC) : HM unit := fun hs =>
  if newView <=? currentView hs then (Err HViewNotNewer, hs)
  else
    let hs := set_view newView hs in
    match highestQC with
    | None => (Ok tt, hs)
    | Some q =>
        if match lockedQC hs with None => true | Some l => q_View (iqc l) <? q_View (iqc q) end then
          let hs := set_prepare (Some q) (set_locked (Some q) hs) in
          (Ok tt, if currentHeight hs <=? q_Height (iqc q) then set_height (u64 (q_Height (iqc q) + 1)) hs else hs)
        else (Ok tt, hs)
    end.

Definition RecoverProposalWindow (now : Time) : HM (bool * Z) :=
  recovered ← on_storage (ReconcileReplayWindow now true);
  target ← gets (fun hs => u64 (lastCommitted (hs_storage hs) + 1));
  modify (fun hs => if currentHeight hs <? target then set_height target hs else hs) ;;
  mret (recovered, target).

(** ** The leader's path *)

(** The engine calls the crypto service its encoder holds. *)
Definition on_encoder {A} (m : ST Encoder enc_error A) : HM A := fun hs =>
  match m (val_encoder (hs_validator hs)) with
  | (Ok a, e) => (Ok a, set_validator (with_encoder e (hs_validator hs)) hs)
  | (Err _, e) => (Err HRepair, set_validator (with_encoder e (hs_validator hs)) hs)
  end.

Definition verifyPersistedVoteForQCRepair (now : Time) (v : Vote) : HM unit :=
  fail_if (negb (bool_decide (KeyID (v_Signature v) = VoterID v))) HRepair ;;
  fail_if (negb (IsValidator (VoterID v))) HRepair ;;
  on_encoder (publicKey ← get_key (VoterID v) ErrNoPublicKey;
              crypto_verify now (Vote_SignBytes v) (sig_Bytes (v_Signature v)) publicKey true ErrInvalidSignature).

(** Whether a check passed; its error is dropped. *)
Definition passes (m : HM unit) : HM bool := logged false (m ;; mret true).

(** The earliest verified vote of each validator for the certificate's target. *)
Fixpoint collect_votes (now : Time) (qc : QC) (acc : gmap ValidatorID Vote) (votes : list Vote)
  : HM (gmap ValidatorID Vote) :=
  match votes with
  | [] => mret acc
  | v :: rest =>
      if negb (vote_matches (q_View qc) (q_Height qc) (q_BlockHash qc) v) then collect_votes now qc acc rest
      else
        ok ← passes (verifyPersistedVoteForQCRepair now v);
        let acc :=
          if (ok : bool) && match acc !! VoterID v with
                            | None => true
                            | Some existing => Before (v_Timestamp v) (v_Timestamp existing)
                            end
          then <[VoterID v := v]> acc else acc in
        collect_votes now qc acc rest
  end.

Definition latestVoteTimestamp (votes : list (ValidatorID * Vote)) : Time :=
  foldl (fun latest p => if After (v_Timestamp p.2) latest then v_Timestamp p.2 else latest) zero_time votes.

Definition key_less (a b : Signature) : bool := bytes_ltb (hex (KeyID a)) (hex (KeyID b)).

Definition rebuildQCFromVotes (now : Time) (qc : QC) : HM IQC :=
  stored ← gets (fun hs =>
    GetVotesForQCRepair (hs_storage hs) (q_View qc) (q_Height qc) (q_BlockHash qc) GetQuorumThreshold);
  votes ← collect_votes now qc ∅ stored;
  fail_if (negb (HasQuorum (Z.of_nat (size votes)))) HRepair ;;
  match AggregateVotes (range_votes 0 votes) (range_votes 1 votes) (range_votes 2 votes) GetKeyID with
  | Err _ => throw HRepair
  | Ok rebuilt =>
      let q := iqc rebuilt in
      mret (PbftQC (MkQC (q_View q) (q_Height q) (q_Round q) (q_BlockHash q)
        (stable_sort key_less (Signatures q)) (latestVoteTimestamp (range_votes 3 votes)) (AggregatorID q)))
  end.

Definition same_certificate (a b : QC) : bool :=
  (q_View a =? q_View b) && (q_Height a =? q_Height b) && bool_decide (q_BlockHash a = q_BlockHash b).

Fixpoint best_qc (now : Time) (enforceActive : bool) (exclude : QC) (best : option IQC)
  (candidates : list (option IQC)) : HM (option IQC) :=
  match candidates with
  | [] => mret best
  | None :: rest => best_qc now enforceActive exclude best rest
  | Some candidate :: rest =>
      if same_certificate (iqc candidate) exclude then best_qc now enforceActive exclude best rest
      else
        valid ← passes (on_validator (adapter_ValidateQC now enforceActive (iqc candidate)));
        let best :=
          if (valid : bool) && match best with None => true | Some b => higher_lock candidate b end
          then Some candidate else best in
        best_qc now enforceActive exclude best rest
  end.

Definition bestValidatedFallbackQC (now : Time) (enforceActive : bool) (exclude : QC) : HM (option IQC) :=
  candidates ← gets (fun hs => [lockedQC hs; prepareQC hs; lastQC (hs_storage hs)] ++
                               (Some <$> (range_qcs (qcs (hs_storage hs))).*2));
  best_qc now enforceActive exclude None candidates.

Definition sanitizeJustifyQC (now : Time) (enforceActive : bool) (qc : option IQC) : HM (option IQC) :=
  match qc with
  | None => mret None
  | Some q =>
      ok ← passes (on_validator (adapter_ValidateQC now enforceActive (iqc q)));
      if ok : bool then mret (Some q)
      else
        rebuilt ← logged None (r ← rebuildQCFromVotes now (iqc q); mret (Some r));
        valid ← match rebuilt with
                | Some r => passes (on_validator (adapter_ValidateQC now enforceActive (iqc r)))
                | None => mret false
                end;
        match rebuilt, valid with
        | Some r, true => logged tt (on_storage (StoreQC r)) ;; mret (Some r)
        | _, _ =>
            fallback ← bestValidatedFallbackQC now enforceActive (iqc q);
            match fallback with Some f => mret (Some f) | None => throw HRepair end
        end
  end.

(** What the pacemaker answers during one attempt. *)
Record PacemakerReading := MkReading { pm_view : Z; pm_highestQC : option IQC; pm_height : Z }.

Definition proposal_height (hotStuffHeight : Z) (justify : option IQC) (proposalHeight : Z) : Z :=
  let h := if proposalHeight <? hotStuffHeight then hotStuffHeight else proposalHeight in
  match justify with
  | None => h
  | Some q => let minHeight := u64 (q_Height (iqc q) + 1) in if h <? minHeight then minHeight else h
  end.

Definition parent_hash (s : Storage) (justify : option IQC) (proposalHeight : Z) : BlockHash :=
  match justify with
  | Some q => q_BlockHash (iqc q)
  | None => if 1 <? proposalHeight then default zeroID (committedBlocks s !! (proposalHeight - 1)) else zeroID
  end.

(** One turn of [CreateProposal]'s loop: [None] when the engine is in another view
    than the pacemaker.  When signing fails the code unlocks a mutex it does not
    hold, which ends the process. *)
Definition create_attempt (now : Time) (enforceActive : bool) (blk : Block) (r : PacemakerReading)
  : HM (option Proposal) :=
  fail_if (negb (IsLeader (pm_view r))) HNotLeader ;;
  justify ← sanitizeJustifyQC now enforceActive (pm_highestQC r);
  view ← gets currentView;
  height ← gets currentHeight;
  if negb (view =? pm_view r) then mret None
  else
    s ← gets hs_storage;
    let h := proposal_height height justify (pm_height r) in
    let unsigned sg := MkProposal (pm_view r) h 0 (GetHash blk) (parent_hash s justify h) GetKeyID now
                         (iqc <$> justify) (Some blk) sg in
    match SignWithContext now (Proposal_SignBytes (unsigned zero_sig)) with
    | None => throw HCrash
    | Some signature =>
        let p := unsigned (MkSig signature GetKeyID now) in
        on_storage (StoreProposal now p) ;;
        mret (Some p)
    end.

Definition createProposalMaxSyncRetries : nat := 50.

(** [elsewhere i] is what other goroutines do to the engine while the i-th turn
    sleeps. *)
Fixpoint create_loop (enforceActive : bool) (blk : Block) (turns : nat -> Time * PacemakerReading)
  (elsewhere : nat -> HotStuff -> HotStuff) (n i : nat) : HM Proposal :=
  match n with
  | O => throw HSyncTimeout
  | S n' =>
      p ← create_attempt (turns i).1 enforceActive blk (turns i).2;
      match p with
      | Some p => mret p
      | None => modify (elsewhere i) ;; create_loop enforceActive blk turns elsewhere n' (S i)
      end
  end.

Definition CreateProposal (enforceActive : bool) (blk : Block) (turns : nat -> Time * PacemakerReading)
  (elsewhere : nat -> HotStuff -> HotStuff) : HM Proposal :=
  create_loop enforceActive blk turns elsewhere createProposalMaxSyncRetries 0.

End hotstuff.
(** ** Runs *)

Section runs.
Context {CS : CryptoService} {C : LRU bytes bool} {VS : ValidatorSet}
        {B : StorageBackend} {M : Marshallers} {D : Codecs} {N : Node}.

(** What drives the engine: messages, view changes, recovery, the pacemaker moving
    the view and height its validator reads, and a turn of the proposer. *)
Inductive hs_call :=
| HProposal (now : Time) (enforceActive : bool) (p : Proposal)
| HVote (now : Time) (enforceActive : bool) (v : Vote)
| HAdvance (newView : Z) (highestQC : option IQC)
| HRecover (now : Time)
| HPacemaker (view height : Z)
| HPropose (now : Time) (enforceActive : bool) (blk : Block) (r : PacemakerReading).

Definition set_pacemaker (view height : Z) (v : Validator) : Validator :=
  MkValidator (val_config v) (val_encoder v) view height (seen v) (AllowRestartBootstrap v).

Definition run_hs (c : hs_call) (hs : HotStuff) : HotStuff :=
  match c with
  | HProposal now ea p => (OnProposal now ea p hs).2
  | HVote now ea v => (OnVote now ea v hs).2
  | HAdvance newView q => (AdvanceView newView q hs).2
  | HRecover now => (RecoverProposalWindow now hs).2
  | HPropose now ea blk r => (create_attempt now ea blk r hs).2
  | HPacemaker view height => set_validator (set_pacemaker view height (hs_validator hs)) hs
  end.

Definition run_hs_calls (cs : list hs_call) (hs : HotStuff) : HotStuff := foldl (fun hs c => run_hs c hs) hs cs.
End runs.
