(* ===== verification/HotStuffInv.v ===== *)
(** Invariants of the engine, step by step: what it stores, locks on, announces
    and commits; what it votes for; when a certificate commits. *)
From S2P Require Import Prelude Bytes Sha256 GoTime Messages Interfaces Encoder Validation Quorum ConsensusStorage.
From S2P Require Import HotStuff.

(** ** The engine's invariant *)

Section invariant.
Context {CS : CryptoService} {CL : @CryptoLaws CS} {C : LRU bytes bool} {LL : @LRULaws bytes bool C}
        {VS : ValidatorSet} {B : StorageBackend} {M : Marshallers} {D : Codecs} {N : Node}.

(** A block a proposal carries has the proposed hash ([toProposal] checks it). *)
Definition proposal_block_ok (p : Proposal) : Prop :=
  forall blk, p_Block p = Some blk -> GetHash blk = p_BlockHash p.
Definition storage_blocks (s : Storage) : Prop :=
  forall h p, proposals s !! h = Some p -> p_BlockHash p = h /\ proposal_block_ok p.

Record storage_inv (s : Storage) : Prop := {
  si_blocks : storage_blocks s;
  si_qcs h q : qcs s !! h = Some q -> qc_wf (iqc q);
  si_last q : lastQC s = Some q -> qc_wf (iqc q);
  si_votes view : Forall vote_wf (votes_of s view) }.

(** A certificate the adapter accepted. *)
Definition good (q : IQC) : Prop := qc_wf (iqc q) /\ qc_valid false (round0 (iqc q)).

Definition good_event (e : event) : Prop :=
  match e with
  | EvQC q => good q
  | EvCommit b q => good q /\ GetHash b = q_BlockHash (iqc q)
  | _ => True
  end.

(** A bucket holds one vote per voter, all for its view and block and of one
    height and round. *)
Definition bucket_ok (key : Z * BlockHash) (bucket : gmap ValidatorID Vote) : Prop :=
  forall id v, bucket !! id = Some v ->
    VoterID v = id /\ v_View v = key.1 /\ v_BlockHash v = key.2 /\ length (KeyID (v_Signature v)) = 32%nat /\
    forall id' v', bucket !! id' = Some v' -> v_Height v' = v_Height v /\ v_Round v' = v_Round v.
Definition buckets_ok (pv : gmap (Z * BlockHash) (gmap ValidatorID Vote)) : Prop :=
  forall key bucket, pv !! key = Some bucket -> bucket_ok key bucket.

Record hs_inv (hs : HotStuff) : Prop := {
  hi_encoder : enc_ok (val_encoder (hs_validator hs));
  hi_storage : storage_inv (hs_storage hs);
  hi_locked q : lockedQC hs = Some q -> good q;
  hi_prepare q : prepareQC hs = Some q -> good q;
  hi_events e : e ∈ hs_events hs -> good_event e;
  hi_buckets : buckets_ok (pendingVotes hs) }.

Lemma good_weaken ea qc : qc_valid ea qc -> qc_valid false qc.
Proof. intros [[H1 H2 _] H3 H4]. by repeat constructor. Qed.

Lemma NewHotStuff_inv c v s :
  enc_ok (val_encoder v) -> storage_inv s -> hs_inv (NewHotStuff c v s).
Proof. constructor; cbn; try done. by intros e He%elem_of_nil. Qed.

(** *** Storage operations keep blocks and hashes together *)

Lemma blocks_same s s' : proposals s' = proposals s -> storage_blocks s -> storage_blocks s'.
Proof. unfold storage_blocks. by intros ->. Qed.

Lemma StoreProposal_blocks now p s :
  proposal_block_ok p -> storage_blocks s -> storage_blocks (StoreProposal now p s).2.
Proof.
  intros Hp Hs. unfold StoreProposal.
  set (s1 := if isWithinWindow s (p_Height p) then s else reconcile_for now p s).
  assert (H1 : proposals s1 = proposals s).
  { unfold s1. case_match; [done|]. unfold reconcile_for, tryReconcileReplayWindowLocked.
    repeat case_match; simplify_eq/=; done. }
  assert (Hins : forall h q, <[p_BlockHash p := p]> (proposals s) !! h = Some q -> p_BlockHash q = h /\ proposal_block_ok q).
  { intros h q [[<- <-]|[_ Hq]]%lookup_insert_Some; [done|]. by apply Hs. }
  repeat case_match; simplify_eq/=; unfold storage_blocks; cbn; rewrite ?H1; try done;
    intros h q Hq; apply lookup_delete_Some in Hq as [_ Hq]; by apply Hins.
Qed.

Lemma toProposal_hash pw p : toProposal pw = Ok p -> p_BlockHash p = pw_BlockHash pw.
Proof. unfold toProposal. intros H. by go_inv H. Qed.

Lemma decodeProposal_block data p : decodeProposal data = Some p -> proposal_block_ok p.
Proof.
  unfold decodeProposal. destruct (Unmarshal_Proposal data) as [w|]; [|done].
  destruct (toProposal w) as [q|] eqn:Hw; intros [= <-]; [|done].
  intros b. by eapply toProposal_block.
Qed.

Lemma Recover_blocks hash s :
  storage_blocks s -> storage_blocks (GetProposalOrRecover hash s).2 /\
  forall p, (GetProposalOrRecover hash s).1 = Ok (Some p) -> p_BlockHash p = hash /\ proposal_block_ok p.
Proof.
  intros Hs. unfold GetProposalOrRecover, GetProposal. repeat case_match; simplify_eq/=; go_bool; (split; [try done|intros q Hq; simplify_eq]).
  - by apply Hs.
  - intros h q Hq. cbn in Hq. apply lookup_insert_Some in Hq as [[<- <-]|[_ Hq]]; [|by apply Hs].
    split; [done|by eapply decodeProposal_block].
  - split; [done|by eapply decodeProposal_block].
Qed.

Lemma inv_frame s s' :
  storage_blocks s' -> qcs s' = qcs s -> lastQC s' = lastQC s -> votes s' = votes s ->
  storage_inv s -> storage_inv s'.
Proof.
  intros Hb Hq Hl Hv [? Hqs Hls Hvs]. constructor; [done|rewrite Hq; apply Hqs|rewrite Hl; apply Hls|].
  intros view. unfold votes_of. rewrite Hv. apply Hvs.
Qed.

Lemma reconcile_frame now force s :
  let s' := (tryReconcileReplayWindowLocked now force s).2 in
  proposals s' = proposals s /\ qcs s' = qcs s /\ lastQC s' = lastQC s /\ votes s' = votes s.
Proof. unfold tryReconcileReplayWindowLocked. repeat case_match; done. Qed.

Lemma reconcile_inv now force s : storage_inv s -> storage_inv (tryReconcileReplayWindowLocked now force s).2.
Proof.
  intros Hs. destruct (reconcile_frame now force s) as (Hp & Hq & Hl & Hv).
  apply (inv_frame s); try done. by eapply blocks_same; [|apply Hs].
Qed.

Lemma StoreProposal_inv now p s :
  proposal_block_ok p -> storage_inv s -> storage_inv (StoreProposal now p s).2.
Proof.
  intros Hp Hs.
  assert (Hf : qcs (StoreProposal now p s).2 = qcs s /\ lastQC (StoreProposal now p s).2 = lastQC s /\
    votes (StoreProposal now p s).2 = votes s).
  { unfold StoreProposal.
    set (s1 := if isWithinWindow s (p_Height p) then s else reconcile_for now p s).
    assert (H1 : qcs s1 = qcs s /\ lastQC s1 = lastQC s /\ votes s1 = votes s).
    { unfold s1. case_match; [done|]. unfold reconcile_for, tryReconcileReplayWindowLocked.
      repeat case_match; simplify_eq/=; done. }
    repeat case_match; simplify_eq/=; done. }
  destruct Hf as (? & ? & ?). apply (inv_frame s); try done. apply StoreProposal_blocks; [done|apply Hs].
Qed.

Lemma Recover_inv hash s : storage_inv s -> storage_inv (GetProposalOrRecover hash s).2.
Proof.
  intros Hs. apply (inv_frame s); [apply Recover_blocks, Hs| | | |exact Hs];
    unfold GetProposalOrRecover; repeat case_match; done.
Qed.

Lemma prune_inv h s : storage_inv s -> storage_inv (pruneOldDataUnsafe h s).
Proof.
  intros [Hb Hq Hl Hv]. constructor.
  - unfold pruneOldDataUnsafe. repeat case_match; try done;
      intros k p; cbn; intros [Hp _]%map_lookup_filter_Some; by apply Hb.
  - unfold pruneOldDataUnsafe. repeat case_match; try done;
      intros k p; cbn; intros [Hp _]%map_lookup_filter_Some; by eapply Hq.
  - unfold pruneOldDataUnsafe. repeat case_match; done.
  - intros view. specialize (Hv view). unfold votes_of, pruneOldDataUnsafe in *. repeat case_match; try done;
      cbn; rewrite map_lookup_filter; destruct (votes s !! view); cbn; try done; by case_guard.
Qed.

Lemma CommitBlock_inv hash height s : storage_inv s -> storage_inv (CommitBlock hash height s).2.
Proof.
  intros Hs. unfold CommitBlock. repeat case_match; try exact Hs; cbn; [apply prune_inv|]; destruct Hs; by constructor.
Qed.

Lemma StoreVote_inv v s : vote_wf v -> storage_inv s -> storage_inv (StoreVote v s).2.
Proof.
  intros Hwf [? ? ? Hv]. unfold StoreVote. case_match; [by constructor|].
  assert (Hv' : forall view,
    Forall vote_wf (default [] (<[v_View v := votes_of s (v_View v) ++ [v]]> (votes s) !! view))).
  { intros view. destruct (decide (view = v_View v)) as [->|Hne].
    - rewrite lookup_insert_eq. apply Forall_app. split; [apply Hv|by apply Forall_singleton].
    - rewrite lookup_insert_ne by done. apply Hv. }
  repeat case_match; simplify_eq/=; by constructor.
Qed.

Lemma StoreQC_inv q s : qc_wf (iqc q) -> storage_inv s -> storage_inv (StoreQC q s).2.
Proof.
  intros Hwf [? Hq Hl ?]. unfold StoreQC. case_match; [by constructor|]. cbv zeta.
  set (s1 := with_committed _ _ _ _ _).
  assert (H1 : storage_inv s1).
  { constructor; cbn; try done.
    - intros h q' [[_ <-]|[_ Hh]]%lookup_insert_Some; [done|by eapply Hq].
    - intros q'. destruct (newer_qc q (lastQC s)); [by intros [= <-]|apply Hl]. }
  clearbody s1. repeat case_match; simplify_eq/=; try exact H1; destruct H1; by constructor.
Qed.

Lemma StoreEvidence_inv e s : storage_inv s -> storage_inv (StoreEvidence e s).2.
Proof. intros [? ? ? ?]. unfold StoreEvidence. repeat case_match; by constructor. Qed.

(** *** Lifting *)

Lemma keeps_on_validator {A} (m : ST Validator val_error A) Q :
  (forall v, enc_ok (val_encoder v) -> enc_ok (val_encoder (m v).2) /\ forall a, (m v).1 = Ok a -> Q a) ->
  keeps hs_inv (on_validator m) Q.
Proof.
  intros Hm hs [He ? ? ? ? ?]. unfold on_validator. destruct (Hm _ He) as [H1 H2].
  destruct (m (hs_validator hs)) as [[a|e] v]; cbn in *; (split; [by constructor|]); [|done].
  intros ? [= <-]. by apply H2.
Qed.

Lemma keeps_on_validator_inv {A} (m : ST Validator val_error A) Q :
  (forall v, keeps (val_inv v) m Q) -> keeps hs_inv (on_validator m) Q.
Proof.
  intros Hm. apply keeps_on_validator. intros v Hv.
  destruct (Hm v v (val_inv_refl v Hv)) as [H1 H2]. split; [by apply H1|done].
Qed.

Lemma keeps_on_storage {A} (m : ST Storage storage_error A) Q :
  (forall s, storage_inv s -> storage_inv (m s).2 /\ forall a, (m s).1 = Ok a -> Q a) ->
  keeps hs_inv (on_storage m) Q.
Proof.
  intros Hm hs [? Hb ? ? ? ?]. unfold on_storage. destruct (Hm _ Hb) as [H1 H2].
  destruct (m (hs_storage hs)) as [[a|e] s]; cbn in *; (split; [by constructor|]); [|done].
  intros ? [= <-]. by apply H2.
Qed.

Lemma keeps_logged {A} (d : A) m Q : Q d -> keeps hs_inv m Q -> keeps hs_inv (logged d m) Q.
Proof.
  intros Hd Hm hs Hhs. unfold logged. destruct (Hm hs Hhs) as [H1 H2].
  destruct (m hs) as [[a|e] hs']; cbn in *; (split; [done|]); [done|]. by intros ? [= <-].
Qed.

Lemma keeps_emit e (Q : unit -> Prop) : good_event e -> Q tt -> keeps (E:=hs_error) hs_inv (emit e) Q.
Proof.
  intros He HQ. apply keeps_modify; [|done]. intros hs [? ? ? ? Hev ?]. constructor; try done.
  cbn. intros e' [->|H]%elem_of_cons; [done|by apply Hev].
Qed.

Lemma keeps_set_locked q (Q : unit -> Prop) : good q -> Q tt -> keeps (E:=hs_error) hs_inv (modify (set_locked (Some q))) Q.
Proof. intros Hg HQ. apply keeps_modify; [|done]. intros hs [? ? ? ? ? ?]. constructor; try done. by intros q' [= <-]. Qed.
Lemma keeps_set_prepare q (Q : unit -> Prop) : good q -> Q tt -> keeps (E:=hs_error) hs_inv (modify (set_prepare (Some q))) Q.
Proof. intros Hg HQ. apply keeps_modify; [|done]. intros hs [? ? ? ? ? ?]. constructor; try done. by intros q' [= <-]. Qed.
Lemma keeps_set_height h (Q : unit -> Prop) : Q tt -> keeps (E:=hs_error) hs_inv (modify (set_height h)) Q.
Proof. intros HQ. apply keeps_modify; [|done]. intros hs [? ? ? ? ? ?]. by constructor. Qed.

Lemma buckets_delete pv key : buckets_ok pv -> buckets_ok (delete key pv).
Proof. intros H k b [_ Hb]%lookup_delete_Some. by apply H. Qed.

Lemma keeps_delete_bucket key (Q : unit -> Prop) :
  Q tt -> keeps (E:=hs_error) hs_inv (modify (fun hs => set_pending (delete key (pendingVotes hs)) hs)) Q.
Proof.
  intros HQ. apply keeps_modify; [|done]. intros hs [? ? ? ? ? Hb]. constructor; try done. by apply buckets_delete.
Qed.

(** *** Commit *)

Lemma keeps_commitBlock blk q :
  good q -> GetHash blk = q_BlockHash (iqc q) -> keeps hs_inv (commitBlock blk q) (fun _ => True).
Proof.
  intros Hq Hh. unfold commitBlock.
  eapply keeps_bind; [apply (keeps_on_storage _ (fun _ => True))|intros [] _].
  { intros s Hs. split; [by apply CommitBlock_inv|done]. }
  eapply keeps_bind; [by apply (keeps_set_height _ (fun _ => True))|intros [] _].
  eapply keeps_bind; [by apply (keeps_emit _ (fun _ => True))|intros [] _].
  eapply keeps_bind; [by apply (keeps_fail_if _ _ _ (fun _ => True))|intros [] _].
  eapply keeps_bind; [by apply (keeps_gets _ _ (fun _ => True))|intros [] _]; [|by apply keeps_ret].
  apply keeps_modify; [|done]. intros hs [? ? ? ? ? Hb]. unfold cleanupOldData.
  case_match; by constructor.
Qed.

Lemma keeps_find_proposal hash :
  keeps hs_inv (find_proposal hash) (fun r => forall p, r = Some p -> p_BlockHash p = hash /\ proposal_block_ok p).
Proof.
  unfold find_proposal.
  eapply keeps_bind; [apply (keeps_gets _ _ (fun r => forall p, r = Some p -> p_BlockHash p = hash /\ proposal_block_ok p))|].
  { intros hs Hhs p Hp. by apply (si_blocks _ (hi_storage _ Hhs)). }
  intros [p|] Hp; [by apply keeps_ret|].
  apply keeps_logged; [done|]. apply keeps_on_storage. intros s Hs.
  destruct (Recover_blocks hash s (si_blocks _ Hs)) as [_ H2]. split; [by apply Recover_inv|].
  intros r Hr p' ->. by apply H2.
Qed.

Lemma keeps_commit_proposal p q :
  good q -> (forall p', p = Some p' -> p_BlockHash p' = q_BlockHash (iqc q) /\ proposal_block_ok p') ->
  keeps hs_inv (commit_proposal p q) (fun _ => True).
Proof.
  intros Hq Hp. unfold commit_proposal. destruct p as [p|]; [|apply keeps_throw].
  destruct (p_Block p) as [blk|] eqn:Hb; [|apply keeps_throw].
  destruct (Hp p eq_refl) as [H1 H2]. apply keeps_commitBlock; [done|]. by rewrite (H2 blk Hb).
Qed.

Lemma keeps_checkCommitRule q : good q -> keeps hs_inv (checkCommitRule q) (fun _ => True).
Proof.
  intros Hq. unfold checkCommitRule. destruct (GetValidatorCount =? 1).
  { eapply keeps_bind; [apply (keeps_gets _ _ (fun r => forall p, r = Some p -> p_BlockHash p = q_BlockHash (iqc q) /\ proposal_block_ok p))|].
    - intros hs Hhs p Hp. by apply (si_blocks _ (hi_storage _ Hhs)).
    - intros p Hp. by apply keeps_commit_proposal. }
  eapply keeps_bind; [apply (keeps_gets _ _ (fun l => forall q', l = Some q' -> good q')); intros hs Hhs; apply Hhs|].
  intros [locked|] Hl; [|by apply keeps_set_locked].
  eapply keeps_bind; [apply keeps_find_proposal|]. intros current _. cbv zeta.
  match goal with |- context [if ?b then _ else _] => destruct b end.
  - eapply keeps_bind; [apply keeps_find_proposal|]. intros p Hp. apply keeps_commit_proposal; [by apply Hl|done].
  - case_match; [by apply keeps_set_locked|by apply keeps_ret].
Qed.

(** *** Votes *)

Lemma votes_for_ok hs key : hs_inv hs -> bucket_ok key (votes_for hs key).
Proof.
  intros Hhs. unfold votes_for. destruct (pendingVotes hs !! key) as [b|] eqn:Hb; cbn.
  - by apply (hi_buckets _ Hhs).
  - intros id v Hv. by rewrite lookup_empty in Hv.
Qed.

Lemma range_votes_lookup i bucket id v : (id, v) ∈ range_votes i bucket <-> bucket !! id = Some v.
Proof. rewrite (range_votes_perm i bucket). apply elem_of_map_to_list. Qed.

Lemma insert_bucket_ok key bucket v :
  bucket_ok key bucket -> bucket_mixed bucket v = false ->
  (v_View v, v_BlockHash v) = key -> length (KeyID (v_Signature v)) = 32%nat ->
  bucket_ok key (<[VoterID v := v]> bucket).
Proof.
  intros Hb Hm <- Hlen.
  assert (Hsame : forall id w, bucket !! id = Some w -> v_Height w = v_Height v /\ v_Round w = v_Round v).
  { intros id w Hw. unfold bucket_mixed in Hm. destruct (range_votes 0 bucket) as [|[id0 w0] l] eqn:Hr.
    - apply (range_votes_lookup 0) in Hw. rewrite Hr in Hw. by apply elem_of_nil in Hw.
    - assert (Hw0 : bucket !! id0 = Some w0) by (apply (range_votes_lookup 0); rewrite Hr; by left).
      go_bool. destruct (Hb id w Hw) as (_ & _ & _ & _ & Hall). destruct (Hall id0 w0 Hw0) as [H1 H2].
      split; congruence. }
  intros id w Hw. apply lookup_insert_Some in Hw as [[<- <-]|[Hne Hw]].
  - split_and!; [done..|]. intros id' w' [[_ <-]|[_ Hw']]%lookup_insert_Some; [done|by eapply Hsame].
  - destruct (Hb id w Hw) as (H1 & H2 & H3 & H4 & H5). split_and!; [done..|].
    intros id' w' [[_ <-]|[_ Hw']]%lookup_insert_Some; [|by eapply H5].
    destruct (Hsame id w Hw). split; congruence.
Qed.

Lemma keeps_set_bucket key bucket (Q : unit -> Prop) :
  bucket_ok key bucket -> Q tt ->
  keeps (E:=hs_error) hs_inv (modify (fun hs => set_pending (<[key := bucket]> (pendingVotes hs)) hs)) Q.
Proof.
  intros Hb HQ. apply keeps_modify; [|done]. intros hs [? ? ? ? ? Hbs]. constructor; try done.
  intros k b Hk. cbn in Hk. apply lookup_insert_Some in Hk as [[<- <-]|[_ Hk]]; [done|by apply Hbs].
Qed.

Lemma keeps_adapter_ValidateQC now ea qc :
  qc_wf qc -> keeps hs_inv (on_validator (adapter_ValidateQC now ea qc)) (fun _ => qc_valid ea (round0 qc)).
Proof. intros Hwf. apply keeps_on_validator_inv. intros v. by apply (keeps_ValidateQC v now ea (round0 qc)). Qed.

Lemma keeps_formQC now ea blockHash view :
  keeps hs_inv (formQC now ea blockHash view) (fun q => good q).
Proof.
  unfold formQC.
  eapply keeps_bind; [apply (keeps_gets _ _ (bucket_ok (view, blockHash))); intros hs Hhs; by apply votes_for_ok|].
  intros bucket Hb. destruct (range_votes 1 bucket) as [|[id0 first] rest]; [apply keeps_throw|].
  case_match.
  { eapply keeps_bind; [by apply (keeps_delete_bucket _ (fun _ => True))|]. intros [] _. apply keeps_throw. }
  cbv zeta. set (qc := MkQC _ _ _ _ _ _ _).
  assert (Hwf : qc_wf qc).
  { unfold qc_wf. cbn. apply Forall_fmap, Forall_fmap, Forall_forall. intros [id v] Hv.
    apply range_votes_lookup in Hv. by destruct (Hb id v Hv) as (_ & _ & _ & Hlen & _). }
  eapply keeps_bind; [by apply keeps_adapter_ValidateQC|]. intros [] Hv.
  assert (Hg : good (PbftQC qc)) by (split; [exact Hwf|by apply (good_weaken ea)]).
  eapply keeps_bind; [apply (keeps_on_storage _ (fun _ => True))|intros [] _].
  { intros s Hs. split; [by apply StoreQC_inv|done]. }
  eapply keeps_bind; [by apply (keeps_set_prepare _ (fun _ => True))|intros [] _].
  eapply keeps_bind; [apply (keeps_logged _ _ (fun _ => True)); [done|by apply keeps_checkCommitRule]|intros [] _].
  eapply keeps_bind; [by apply (keeps_delete_bucket _ (fun _ => True))|intros [] _].
  by apply keeps_ret.
Qed.

Lemma keeps_detect now v : keeps hs_inv (detectVoteEquivocation now v) (fun _ => True).
Proof.
  unfold detectVoteEquivocation.
  eapply keeps_bind; [by apply (keeps_gets _ _ (fun _ => True))|]. intros existing _.
  destruct (filter _ existing) as [|w l]; [by apply keeps_ret|].
  eapply keeps_bind; [apply (keeps_logged _ _ (fun _ => True)); [done|]|intros [] _; apply keeps_throw].
  apply keeps_on_storage. intros s Hs. split; [by apply StoreEvidence_inv|done].
Qed.

Lemma keeps_ValidateVote v0 v : keeps (val_inv v0) (ValidateVote v) (fun _ => True).
Proof.
  unfold ValidateVote.
  eapply keeps_bind; [by apply (keeps_reject_if _ _ _ (fun _ => True))|intros [] _].
  do 2 (eapply keeps_bind; [by apply (keeps_fail_if _ _ _ (fun _ => True))|intros [] _]).
  do 3 (eapply keeps_bind; [by apply (keeps_reject_if _ _ _ (fun _ => True))|intros [] _]).
  by apply keeps_Mark.
Qed.

Lemma keeps_onVoteInternal now ea v :
  vote_wf v -> keeps hs_inv (onVoteInternal now ea v) (fun r => forall q, r = Some q -> good q).
Proof.
  intros Hwf. unfold onVoteInternal.
  eapply keeps_bind; [apply keeps_on_validator_inv; intros v0; apply keeps_ValidateVote|intros [] _].
  eapply keeps_bind; [apply keeps_detect|intros [] _].
  eapply keeps_bind; [apply (keeps_on_storage _ (fun _ => True))|intros [] _].
  { intros s Hs. split; [by apply StoreVote_inv|done]. }
  eapply keeps_bind; [apply (keeps_gets _ _ (bucket_ok (v_View v, v_BlockHash v))); intros hs Hhs; by apply votes_for_ok|].
  intros bucket Hb.
  eapply keeps_bind; [by apply (keeps_set_bucket _ _ (fun _ => True))|intros [] _].
  eapply keeps_bind; [by apply (keeps_fail_if _ _ _ (fun _ => bucket_mixed bucket v = false))|intros [] Hm].
  eapply keeps_bind; [apply (keeps_set_bucket _ _ (fun _ => True)); [by apply insert_bucket_ok|done]|intros [] _].
  case_match; [|by apply keeps_ret].
  eapply keeps_bind; [apply keeps_formQC|]. intros q Hq. apply keeps_ret. by intros ? [= <-].
Qed.

Lemma keeps_emit_qc r :
  (forall q, r = Some q -> good q) ->
  keeps hs_inv (match r with Some q => emit (EvQC q) | None => mret tt end) (fun _ => True).
Proof. intros Hr. destruct r as [q|]; [apply keeps_emit; [by apply Hr|done]|by apply keeps_ret]. Qed.

Lemma keeps_OnVote now ea v : vote_wf v -> keeps hs_inv (OnVote now ea v) (fun _ => True).
Proof.
  intros Hwf. unfold OnVote. eapply keeps_bind; [by apply keeps_onVoteInternal|]. intros r Hr. by apply keeps_emit_qc.
Qed.

(** *** Proposals *)

Definition proposal_wf (p : Proposal) : Prop :=
  proposal_block_ok p /\ forall qc, JustifyQC p = Some qc -> qc_wf qc.

Lemma keeps_sendVoteLocked now ea p :
  keeps hs_inv (sendVoteLocked now ea p) (fun r => forall q, r = Some q -> good q).
Proof.
  unfold sendVoteLocked. case_match; [|apply keeps_throw]. cbv zeta.
  set (vote := MkVote _ _ _ _ _ _ _).
  assert (Hwf : vote_wf vote) by apply GetKeyID_length.
  eapply keeps_bind; [apply (keeps_modify _ _ (fun _ => True)); [|done]|intros [] _].
  { intros hs [? ? ? ? ? ?]. by constructor. }
  eapply keeps_bind; [apply (keeps_on_storage _ (fun _ => True))|intros [] _].
  { intros s Hs. split; [by apply StoreVote_inv|done]. }
  eapply keeps_bind; [by apply (keeps_emit _ (fun _ => True))|intros [] _].
  repeat case_match; [by apply keeps_onVoteInternal..|by apply keeps_ret].
Qed.

Lemma keeps_validate_proposal now ea p :
  proposal_wf p -> keeps hs_inv (validate_proposal now ea p) (fun _ => True).
Proof.
  intros [_ Hwf]. unfold validate_proposal.
  eapply keeps_bind; [apply (keeps_modify _ _ (fun _ => True)); [|done]|intros [] _].
  { intros hs [? ? ? ? ? ?]. by constructor. }
  apply keeps_on_validator_inv. intros v. eapply keeps_weaken; [by apply keeps_ValidateProposal|done].
Qed.

Lemma keeps_onProposalLocked now ea p :
  proposal_wf p -> keeps hs_inv (onProposalLocked now ea p) (fun r => forall q, r = Some q -> good q).
Proof.
  intros Hwf. unfold onProposalLocked.
  eapply keeps_bind; [by apply keeps_validate_proposal|intros [] _].
  eapply keeps_bind; [by apply (keeps_gets _ _ (fun _ => True))|]. intros [voted|] _.
  { case_match; [by apply keeps_ret|apply keeps_throw]. }
  eapply (keeps_bind _ _ _ (fun _ => True)).
  { destruct (JustifyQC p) as [qc|] eqn:Hj; [|by apply keeps_ret].
    eapply keeps_bind; [by apply keeps_adapter_ValidateQC, Hwf|]. intros [] Hv.
    apply keeps_modify; [|done]. intros hs [? ? Hl ? ? ?]. unfold update_lock.
    assert (Hg : good (MessagesQC qc)) by (split; [by apply Hwf|by apply (good_weaken ea)]).
    destruct (lockedQC hs) as [l|] eqn:El; [case_match|]; constructor; try done; cbn; intros q' Hq';
      first [by injection Hq' as <- | apply Hl; congruence]. }
  intros [] _.
  eapply keeps_bind; [by apply (keeps_gets _ _ (fun _ => True))|intros safe _].
  do 2 (eapply keeps_bind; [by apply (keeps_fail_if _ _ _ (fun _ => True))|intros [] _]).
  eapply keeps_bind; [apply (keeps_on_storage _ (fun _ => True))|intros [] _].
  { intros s Hs. split; [by apply StoreProposal_inv; [apply Hwf|]|done]. }
  do 2 (eapply keeps_bind; [by apply (keeps_emit _ (fun _ => True))|intros [] _]).
  eapply keeps_bind; [by apply (keeps_gets _ _ (fun _ => True))|]. intros [] _; [apply keeps_sendVoteLocked|by apply keeps_ret].
Qed.

Lemma keeps_OnProposal now ea p : proposal_wf p -> keeps hs_inv (OnProposal now ea p) (fun _ => True).
Proof.
  intros Hwf. unfold OnProposal. eapply keeps_bind; [by apply keeps_onProposalLocked|]. intros r Hr. by apply keeps_emit_qc.
Qed.

(** *** Views *)

Lemma keeps_AdvanceView newView q :
  (forall q', q = Some q' -> good q') -> keeps hs_inv (AdvanceView newView q) (fun _ => True).
Proof.
  intros Hq hs [? ? ? ? ? ?]. split; [|done]. unfold AdvanceView.
  destruct (newView <=? currentView hs); [by constructor|]. destruct q as [q|]; [|by constructor].
  cbn [lockedQC set_view]. match goal with |- context [if ?b then _ else _] => destruct b end; [|by constructor].
  specialize (Hq q eq_refl). cbn [snd]. case_match; constructor; try done; by intros q' [= <-].
Qed.

Lemma keeps_RecoverProposalWindow now : keeps hs_inv (RecoverProposalWindow now) (fun _ => True).
Proof.
  unfold RecoverProposalWindow.
  eapply keeps_bind; [apply (keeps_on_storage _ (fun _ => True))|intros r _].
  { intros s Hs. split; [by apply reconcile_inv|done]. }
  eapply keeps_bind; [by apply (keeps_gets _ _ (fun _ => True))|intros target _].
  eapply keeps_bind; [apply (keeps_modify _ _ (fun _ => True)); [|done]|intros [] _; by apply keeps_ret].
  intros hs [? ? ? ? ? ?]. case_match; by constructor.
Qed.
(** *** The leader's path *)

Lemma keeps_passes (m : ST HotStuff hs_error unit) (P : Prop) :
  keeps hs_inv m (fun _ => P) -> keeps hs_inv (passes m) (fun ok => ok = true -> P).
Proof.
  intros Hm. apply keeps_logged; [done|]. eapply keeps_bind; [exact Hm|]. intros [] HP. by apply keeps_ret.
Qed.

Lemma keeps_on_encoder {A} (m : ST Encoder enc_error A) Q :
  (forall n c, keeps (enc_inv n c) m Q) -> keeps hs_inv (on_encoder m) Q.
Proof.
  intros Hm hs [He ? ? ? ? ?]. unfold on_encoder.
  destruct (Hm _ _ _ (enc_ok_inv _ He)) as [H1 H2].
  destruct (m (val_encoder (hs_validator hs))) as [[a|err] e]; cbn in *;
    (split; [constructor; try done; apply H1|]); [|done]. intros ? [= <-]. by apply H2.
Qed.

Definition vote_verified (id : ValidatorID) (v : Vote) : Prop :=
  VoterID v = id /\ vote_wf v /\ KeyID (v_Signature v) = id /\ IsValidator id = true /\ signed id (Vote_SignBytes v).

Lemma keeps_verifyPersisted now v :
  vote_wf v -> keeps hs_inv (verifyPersistedVoteForQCRepair now v) (fun _ => vote_verified (VoterID v) v).
Proof.
  intros Hwf. unfold verifyPersistedVoteForQCRepair.
  eapply keeps_bind; [apply (keeps_fail_if _ _ _ (fun _ => KeyID (v_Signature v) = VoterID v)); intros; by go_bool|intros [] H1].
  eapply keeps_bind; [apply (keeps_fail_if _ _ _ (fun _ => IsValidator (VoterID v) = true)); intros; by go_bool|intros [] H2].
  apply keeps_on_encoder. intros n c. eapply keeps_bind; [apply keeps_get_key|intros pk Hpk].
  eapply keeps_weaken; [by apply keeps_crypto_verify|]. intros [] Hs. done.
Qed.

Definition vote_for (qc : QC) (id : ValidatorID) (v : Vote) : Prop :=
  vote_verified id v /\ vote_matches (q_View qc) (q_Height qc) (q_BlockHash qc) v = true.

Lemma keeps_collect now qc votes acc :
  Forall vote_wf votes -> map_Forall (vote_for qc) acc ->
  keeps hs_inv (collect_votes now qc acc votes) (map_Forall (vote_for qc)).
Proof.
  intros Hwf. revert acc. induction Hwf as [|v votes Hv Hwf IH]; intros acc Hacc; cbn [collect_votes].
  { by apply keeps_ret. }
  destruct (vote_matches _ _ _ v) eqn:Hm; cbn [negb]; [|by apply IH].
  eapply keeps_bind; [by apply keeps_passes, keeps_verifyPersisted|]. intros ok Hok. cbv zeta. apply IH.
  destruct ok; [|exact Hacc]. cbn [andb]. case_match; [|exact Hacc].
  apply map_Forall_insert_2; [|exact Hacc]. split; [by apply Hok|exact Hm].
Qed.

Context {DL : @CodecsLaws D}.

Lemma backfill_page_wf view height h records acc :
  Forall vote_wf acc.1 -> Forall vote_wf (backfill_page view height h acc records).1.
Proof.
  intros Hacc. unfold backfill_page. apply (foldl_invariant (fun acc => Forall vote_wf acc.1)); [exact Hacc|].
  intros [ms seen] r _ Hms. cbn in Hms. repeat case_match; simplify_eq/=; try done.
  apply Forall_app. split; [done|]. apply Forall_singleton. by eapply Unmarshal_Vote_wf.
Qed.

Lemma backfill_wf b view height h needed limits acc :
  Forall vote_wf acc.1 -> Forall vote_wf (backfill b view height h needed limits acc).
Proof.
  revert acc. induction limits as [|lim limits IH]; intros acc Hacc; cbn [backfill]; [done|].
  repeat case_match; try done; [by apply backfill_page_wf|apply IH; by apply backfill_page_wf].
Qed.

Lemma repair_votes_wf s view height h needed :
  storage_inv s -> Forall vote_wf (GetVotesForQCRepair s view height h needed).
Proof.
  intros Hs. unfold GetVotesForQCRepair.
  assert (H : Forall vote_wf (filter (fun v => vote_matches view height h v = true) (votes_of s view))).
  { apply Forall_forall. intros v [_ Hv]%list_elem_of_filter.
    exact (proj1 (Forall_forall _ _) (si_votes _ Hs view) v Hv). }
  repeat case_match; try exact H. by apply backfill_wf.
Qed.

Lemma keeps_rebuild now qc : keeps hs_inv (rebuildQCFromVotes now qc) (fun q => qc_wf (iqc q)).
Proof.
  unfold rebuildQCFromVotes.
  eapply keeps_bind; [apply (keeps_gets _ _ (Forall vote_wf)); intros hs Hhs; apply repair_votes_wf, Hhs|].
  intros stored Hst. eapply keeps_bind; [by apply keeps_collect|]. intros votes Hvotes.
  eapply keeps_bind; [by apply (keeps_fail_if _ _ _ (fun _ => True))|intros [] _].
  destruct (AggregateVotes _ _ _ _) as [agg|e] eqn:Hagg; [|apply keeps_throw]. apply keeps_ret.
  unfold qc_wf. cbn. rewrite stable_sort_perm.
  unfold AggregateVotes in Hagg. destruct (negb _); [done|]. destruct (range_votes 0 votes) as [|[i0 first] l]; [done|].
  apply bind_Ok_inv in Hagg as (? & _ & [= <-]). cbn. apply Forall_fmap, Forall_fmap, Forall_forall.
  intros [i v] Hi. apply range_votes_lookup in Hi. apply (Hvotes i v Hi).
Qed.
Lemma keeps_best now ea exclude candidates best :
  (forall q, best = Some q -> good q) -> (forall q, Some q ∈ candidates -> qc_wf (iqc q)) ->
  keeps hs_inv (best_qc now ea exclude best candidates) (fun r => forall q, r = Some q -> good q).
Proof.
  revert best. induction candidates as [|[c|] rest IH]; intros best Hbest Hwf; cbn [best_qc].
  - by apply keeps_ret.
  - assert (Hrest : forall q, Some q ∈ rest -> qc_wf (iqc q)) by (intros q Hq; apply Hwf; by right).
    assert (Hc : qc_wf (iqc c)) by (apply Hwf; by left).
    destruct (same_certificate (iqc c) exclude); [by apply IH|].
    eapply keeps_bind; [by apply keeps_passes, keeps_adapter_ValidateQC|]. intros valid Hvalid. cbv zeta.
    apply IH; [|done]. destruct valid; [|exact Hbest]. cbn [andb]. case_match; [|exact Hbest].
    intros q [= <-]. split; [done|]. apply (good_weaken ea). by apply Hvalid.
  - apply IH; [done|]. intros q Hq. apply Hwf. by right.
Qed.

Lemma keeps_fallback now ea exclude :
  keeps hs_inv (bestValidatedFallbackQC now ea exclude) (fun r => forall q, r = Some q -> good q).
Proof.
  unfold bestValidatedFallbackQC.
  eapply keeps_bind; [apply (keeps_gets _ _ (fun l => forall q, Some q ∈ l -> qc_wf (iqc q)))|].
  - intros hs [_ Hs Hl Hp _ _] q Hq. repeat (apply elem_of_cons in Hq as [Hq|Hq]).
    + symmetry in Hq. by apply Hl.
    + symmetry in Hq. by apply Hp.
    + symmetry in Hq. by eapply si_last.
    + cbn in Hq. apply list_elem_of_fmap in Hq as (q' & [= ->] & Hq). apply list_elem_of_fmap in Hq as ([h q''] & -> & Hq).
      rewrite (range_qcs_perm _) in Hq. apply elem_of_map_to_list in Hq. by eapply (si_qcs _ Hs).
  - intros candidates Hc. by apply keeps_best.
Qed.

Lemma keeps_sanitize now ea qc :
  (forall q, qc = Some q -> qc_wf (iqc q)) ->
  keeps hs_inv (sanitizeJustifyQC now ea qc) (fun r => forall q, r = Some q -> good q).
Proof.
  intros Hwf. unfold sanitizeJustifyQC. destruct qc as [q|]; [|by apply keeps_ret]. specialize (Hwf q eq_refl).
  eapply keeps_bind; [by apply keeps_passes, keeps_adapter_ValidateQC|]. intros [] Hok.
  { apply keeps_ret. intros ? [= <-]. split; [done|]. apply (good_weaken ea). by apply Hok. }
  eapply (keeps_bind _ _ _ (fun r => forall q, r = Some q -> qc_wf (iqc q))).
  { apply keeps_logged; [done|]. eapply keeps_bind; [apply keeps_rebuild|]. intros r Hr.
    apply keeps_ret. by intros ? [= <-]. }
  intros rebuilt Hreb.
  eapply (keeps_bind _ _ _ (fun ok => ok = true -> forall r, rebuilt = Some r -> good r)).
  { destruct rebuilt as [r|]; [|by apply keeps_ret]. specialize (Hreb r eq_refl).
    eapply keeps_weaken; [by apply keeps_passes, keeps_adapter_ValidateQC|].
    intros ok Hv Ht ? [= <-]. split; [done|]. apply (good_weaken ea). by apply Hv. }
  assert (Hfb : keeps hs_inv (fallback ← bestValidatedFallbackQC now ea (iqc q);
    match fallback with Some f => mret (Some f) | None => throw HRepair end)
    (fun r => forall q, r = Some q -> good q)).
  { eapply keeps_bind; [apply keeps_fallback|]. intros [f|] Hf; [|apply keeps_throw]. apply keeps_ret.
    intros ? [= <-]. by apply Hf. }
  intros [] Hgood; destruct rebuilt as [r|]; try exact Hfb. specialize (Hgood eq_refl r eq_refl).
  eapply keeps_bind; [apply (keeps_logged _ _ (fun _ => True)); [done|]|].
  - apply keeps_on_storage. intros s Hs. split; [apply StoreQC_inv; [apply Hgood|done]|done].
  - intros [] _. apply keeps_ret. by intros ? [= <-].
Qed.

(** What a turn of the proposer yields: a proposal for the given block, by this
    node, on a valid certificate for its parent (or none). *)
Definition proposed (blk : Block) (r : PacemakerReading) (p : Proposal) : Prop :=
  IsLeader (pm_view r) = true /\ p_View p = pm_view r /\ p_Round p = 0 /\ ProposerID p = GetKeyID /\
  p_Block p = Some blk /\ p_BlockHash p = GetHash blk /\ pm_height r <= p_Height p /\
  forall qc, JustifyQC p = Some qc ->
    qc_valid false (round0 qc) /\ ParentHash p = q_BlockHash qc /\ u64 (q_Height qc + 1) <= p_Height p /\ qc_wf qc.

Lemma proposal_height_ge h justify ph :
  ph <= proposal_height h justify ph /\ h <= proposal_height h justify ph /\
  forall q, justify = Some q -> u64 (q_Height (iqc q) + 1) <= proposal_height h justify ph.
Proof.
  unfold proposal_height. destruct (Z.ltb_spec ph h), justify as [q|]; cbv zeta;
    try destruct (Z.ltb_spec h (u64 (q_Height (iqc q) + 1)));
    try destruct (Z.ltb_spec ph (u64 (q_Height (iqc q) + 1))); split_and!; try lia; intros ? [= <-]; lia.
Qed.

Lemma keeps_create_attempt now ea blk r :
  (forall q, pm_highestQC r = Some q -> qc_wf (iqc q)) ->
  keeps hs_inv (create_attempt now ea blk r) (fun x => forall p, x = Some p -> proposed blk r p).
Proof.
  intros Hwf. unfold create_attempt.
  eapply keeps_bind; [apply (keeps_fail_if _ _ _ (fun _ => IsLeader (pm_view r) = true)); intros; by go_bool|intros [] Hlead].
  eapply keeps_bind; [by apply keeps_sanitize|intros justify Hj].
  eapply keeps_bind; [by apply (keeps_gets _ _ (fun _ => True))|intros view _].
  eapply keeps_bind; [by apply (keeps_gets _ _ (fun _ => True))|intros height _].
  destruct (negb (view =? pm_view r)); [by apply keeps_ret|].
  eapply keeps_bind; [by apply (keeps_gets _ _ (fun _ => True))|intros s _]. cbv zeta.
  case_match; [|apply keeps_throw].
  eapply keeps_bind; [apply (keeps_on_storage _ (fun _ => True))|intros [] _].
  { intros s' Hs. split; [|done]. apply StoreProposal_inv; [|done]. by intros b [= <-]. }
  apply keeps_ret. intros p [= <-]. pose proof (proposal_height_ge height justify (pm_height r)) as (H1 & _ & H3).
  unfold proposed. cbn. split_and!; try done. intros qc Hqc. destruct justify as [q|]; [|done].
  injection Hqc as <-. destruct (Hj q eq_refl) as [Hw Hv]. split_and!; [done|done|by apply H3|done].
Qed.
End invariant.

Section voting.
Context {CS : CryptoService} {C : LRU bytes bool} {VS : ValidatorSet}
        {B : StorageBackend} {M : Marshallers} {D : Codecs} {N : Node}.

Definition event_vote (e : event) : option Vote := match e with EvVote v => Some v | _ => None end.
(** The votes the engine has sent, last first. *)
Definition sent_votes (hs : HotStuff) : list Vote := omap event_vote (hs_events hs).

(** The views whose entry of [votesSent] a cleanup keeps, when [currentView - 100]
    does not wrap. *)
Definition fresh_view (hs : HotStuff) (view : Z) : Prop :=
  AutoCleanupOldVotes (hs_config hs) = false \/ currentView hs - 100 <= view.
Definition no_wrap (hs : HotStuff) : Prop :=
  AutoCleanupOldVotes (hs_config hs) = true -> 100 <= currentView hs < two64.

(** Steps that send no vote and forget no recent one. *)
Record quiet (hs hs' : HotStuff) : Prop := {
  q_config : hs_config hs' = hs_config hs;
  q_view : currentView hs' = currentView hs;
  q_votes : sent_votes hs' = sent_votes hs;
  q_sent view : no_wrap hs -> fresh_view hs view -> votesSent hs' !! view = votesSent hs !! view }.

Lemma quiet_fresh hs hs' view : quiet hs hs' -> fresh_view hs' view <-> fresh_view hs view.
Proof. intros [Hc Hv _ _]. unfold fresh_view. by rewrite Hc, Hv. Qed.
Lemma quiet_no_wrap hs hs' : quiet hs hs' -> no_wrap hs' <-> no_wrap hs.
Proof. intros [Hc Hv _ _]. unfold no_wrap. by rewrite Hc, Hv. Qed.
Lemma quiet_refl hs : quiet hs hs.
Proof. by constructor. Qed.
Lemma quiet_trans hs hs' hs'' : quiet hs hs' -> quiet hs' hs'' -> quiet hs hs''.
Proof.
  intros H1 H2. pose proof H1 as [c1 v1 e1 s1]. pose proof H2 as [c2 v2 e2 s2]. constructor; try congruence.
  intros view Hw Hf. rewrite s2; [by apply s1|by apply (quiet_no_wrap _ _ H1)|by apply (quiet_fresh _ _ _ H1)].
Qed.

Definition quietly {A} (m : ST HotStuff hs_error A) : Prop := forall hs, quiet hs (m hs).2.

Lemma quietly_bind {A A'} (m : ST HotStuff hs_error A) (f : A -> ST HotStuff hs_error A') :
  quietly m -> (forall a, quietly (f a)) -> quietly (m ≫= f).
Proof.
  intros Hm Hf hs. unfold mbind, ST_bind. specialize (Hm hs). destruct (m hs) as [[a|e] hs']; [|done].
  eapply quiet_trans; [exact Hm|apply Hf].
Qed.
Lemma quietly_on_validator {A} (m : ST Validator val_error A) : quietly (on_validator m).
Proof. intros hs. unfold on_validator. by destruct (m (hs_validator hs)) as [[|] ?]. Qed.
Lemma quietly_on_storage {A} (m : ST Storage storage_error A) : quietly (on_storage m).
Proof. intros hs. unfold on_storage. by destruct (m (hs_storage hs)) as [[|] ?]. Qed.
Lemma quietly_logged {A} (d : A) m : quietly m -> quietly (logged d m).
Proof. intros Hm hs. unfold logged. specialize (Hm hs). by destruct (m hs) as [[|] ?]. Qed.
Lemma quietly_modify f : (forall hs, quiet hs (f hs)) -> quietly (modify f).
Proof. by intros H hs. Qed.
Lemma quietly_gets {A} (f : HotStuff -> A) : quietly (gets f).
Proof. by intros hs. Qed.
Lemma quietly_ret {A} (a : A) : quietly (mret a).
Proof. by intros hs. Qed.
Lemma quietly_throw {A} e : quietly (A:=A) (throw e).
Proof. by intros hs. Qed.
Lemma quietly_fail b e : quietly (fail_if b e).
Proof. intros hs. unfold fail_if. by destruct b. Qed.
Lemma quietly_emit e : event_vote e = None -> quietly (emit e).
Proof. intros He hs. constructor; try done. cbn. unfold sent_votes. cbn. by rewrite He. Qed.
Create HintDb quiet.
#[local] Hint Resolve quietly_bind quietly_on_validator quietly_on_storage quietly_logged quietly_gets quietly_ret
  quietly_throw quietly_fail quietly_emit : quiet.
#[local] Hint Extern 2 (quietly (modify _)) => apply quietly_modify; intros ?; by constructor : quiet.

Lemma cleanup_quiet h hs : AutoCleanupOldVotes (hs_config hs) = true -> quiet hs (cleanupOldData h hs).
Proof.
  intros Hc. constructor; unfold cleanupOldData; try (by case_match).
  intros view Hw [Hf|Hf]; [congruence|]. specialize (Hw Hc).
  assert (Hu : u64 (currentView hs - 100) = currentView hs - 100) by (apply u64_small; lia).
  assert (Hl : forall m : gmap Z BlockHash, filter (fun '(v, _) => ~ v < u64 (currentView hs - 100)) m !! view = m !! view).
  { intros m. destruct (m !! view) as [x|] eqn:Hx.
    - apply map_lookup_filter_Some. split; [done|]. lia.
    - apply map_lookup_filter_None. by left. }
  case_match; cbn; apply Hl.
Qed.

Lemma quietly_commitBlock blk q : quietly (commitBlock blk q).
Proof.
  unfold commitBlock. do 4 (apply quietly_bind; [auto with quiet|intros ?]).
  intros hs. unfold mbind, ST_bind, gets. destruct (AutoCleanupOldVotes (hs_config hs)) eqn:Hc; [|apply quiet_refl].
  by apply cleanup_quiet.
Qed.
#[local] Hint Resolve quietly_commitBlock : quiet.

Lemma quietly_find hash : quietly (find_proposal hash).
Proof. unfold find_proposal. apply quietly_bind; [auto with quiet|]. intros [p|]; auto with quiet. Qed.
Lemma quietly_commit_proposal p q : quietly (commit_proposal p q).
Proof. unfold commit_proposal. repeat case_match; auto with quiet. Qed.
#[local] Hint Resolve quietly_find quietly_commit_proposal : quiet.

Lemma quietly_checkCommitRule q : quietly (checkCommitRule q).
Proof.
  unfold checkCommitRule. case_match; [auto with quiet|].
  apply quietly_bind; [auto with quiet|]. intros [l|]; [|auto with quiet].
  apply quietly_bind; [auto with quiet|]. intros current. cbv zeta.
  match goal with |- context [if ?b then _ else _] => destruct b end; [auto with quiet|]. case_match; auto with quiet.
Qed.
#[local] Hint Resolve quietly_checkCommitRule : quiet.

Lemma quietly_formQC now ea h view : quietly (formQC now ea h view).
Proof.
  unfold formQC. apply quietly_bind; [auto with quiet|]. intros bucket.
  repeat case_match; auto 10 with quiet.
Qed.
Lemma quietly_detect now v : quietly (detectVoteEquivocation now v).
Proof.
  unfold detectVoteEquivocation. apply quietly_bind; [auto with quiet|]. intros existing.
  case_match; auto with quiet.
Qed.
#[local] Hint Resolve quietly_formQC quietly_detect : quiet.

Lemma quietly_onVoteInternal now ea v : quietly (onVoteInternal now ea v).
Proof.
  unfold onVoteInternal. cbv zeta.
  repeat (apply quietly_bind; [auto with quiet|intros ?]). case_match; auto with quiet.
Qed.
#[local] Hint Resolve quietly_onVoteInternal : quiet.

Lemma quietly_emit_qc r : quietly (match r with Some q => emit (EvQC q) | None => mret tt end).
Proof. destruct r; auto with quiet. Qed.
#[local] Hint Resolve quietly_emit_qc : quiet.

Lemma quietly_OnVote now ea v : quietly (OnVote now ea v).
Proof. unfold OnVote. auto with quiet. Qed.

(** The leader's path sends no vote. *)
Lemma quietly_on_encoder {A} (m : ST Encoder enc_error A) : quietly (on_encoder m).
Proof. intros hs. unfold on_encoder. by destruct (m _) as [[|] ?]. Qed.
Lemma quietly_passes m : quietly m -> quietly (passes m).
Proof. intros Hm. unfold passes. auto with quiet. Qed.
#[local] Hint Resolve quietly_on_encoder quietly_passes : quiet.

Lemma quietly_collect now qc acc vs : quietly (collect_votes now qc acc vs).
Proof.
  revert acc. induction vs as [|v vs IH]; intros acc; cbn [collect_votes]; [auto with quiet|].
  case_match; [apply IH|]. apply quietly_bind; [|intros ok; apply IH].
  unfold verifyPersistedVoteForQCRepair. auto 6 with quiet.
Qed.

Lemma quietly_best now ea exclude best cs : quietly (best_qc now ea exclude best cs).
Proof.
  revert best. induction cs as [|[c|] cs IH]; intros best; cbn [best_qc]; [auto with quiet| |apply IH].
  case_match; [apply IH|]. apply quietly_bind; [auto with quiet|intros ok; apply IH].
Qed.

Lemma quietly_rebuild now qc : quietly (rebuildQCFromVotes now qc).
Proof.
  unfold rebuildQCFromVotes. apply quietly_bind; [auto with quiet|intros stored].
  apply quietly_bind; [apply quietly_collect|intros vs]. apply quietly_bind; [auto with quiet|intros _].
  case_match; auto with quiet.
Qed.

Lemma quietly_sanitize now ea qc : quietly (sanitizeJustifyQC now ea qc).
Proof.
  assert (Hf : forall q, quietly (fallback ← bestValidatedFallbackQC now ea q;
    match fallback with Some f => mret (Some f) | None => throw HRepair end)).
  { intros q. apply quietly_bind; [|intros [f|]; auto with quiet].
    apply quietly_bind; [auto with quiet|intros cs; apply quietly_best]. }
  unfold sanitizeJustifyQC. destruct qc as [q|]; [|auto with quiet].
  apply quietly_bind; [auto with quiet|intros [|]; [auto with quiet|]].
  apply quietly_bind; [apply quietly_logged, quietly_bind; [apply quietly_rebuild|auto with quiet]|intros rebuilt].
  apply quietly_bind; [destruct rebuilt; auto with quiet|intros [|]; destruct rebuilt; auto with quiet].
Qed.

Lemma quietly_create_attempt now ea blk r : quietly (create_attempt now ea blk r).
Proof.
  unfold create_attempt. apply quietly_bind; [auto with quiet|intros _].
  apply quietly_bind; [apply quietly_sanitize|intros justify].
  do 2 (apply quietly_bind; [auto with quiet|intros ?]). case_match; [auto with quiet|].
  apply quietly_bind; [auto with quiet|intros s]. case_match; auto with quiet.
Qed.

(** Sending a vote for a view and a block: the entry of the view is set and at
    most that vote is sent. *)
Record votes_for_block (view : Z) (h : BlockHash) (hs hs' : HotStuff) : Prop := {
  vb_config : hs_config hs' = hs_config hs;
  vb_view : currentView hs' = currentView hs;
  vb_votes v : v ∈ sent_votes hs' -> v ∈ sent_votes hs \/ (v_View v = view /\ v_BlockHash v = h);
  vb_sent w : no_wrap hs -> fresh_view hs w ->
    votesSent hs' !! w = if decide (w = view) then Some h else votesSent hs !! w }.

Lemma votes_for_block_quiet view h hs hs' hs'' :
  votes_for_block view h hs hs' -> quiet hs' hs'' -> votes_for_block view h hs hs''.
Proof.
  intros [c1 v1 e1 s1] [c2 v2 e2 s2]. constructor; try congruence.
  - rewrite e2. exact e1.
  - intros w Hw Hf. rewrite s2; [by apply s1| |].
    + unfold no_wrap in *. by rewrite c1, v1.
    + unfold fresh_view in *. by rewrite c1, v1.
Qed.

Lemma sendVoteLocked_effect now ea p hs :
  quiet hs (sendVoteLocked now ea p hs).2 \/
  votes_for_block (p_View p) (p_BlockHash p) hs (sendVoteLocked now ea p hs).2.
Proof.
  unfold sendVoteLocked. case_match; [right|left; apply quiet_refl]. cbv zeta.
  set (vote := MkVote _ _ _ _ _ _ _). unfold mbind at 1, ST_bind at 1, modify at 1.
  set (hs1 := set_votesSent (<[p_View p:=p_BlockHash p]> (votesSent hs)) hs).
  assert (H1 : votes_for_block (p_View p) (p_BlockHash p) hs hs1).
  { constructor; try done; [by left|]. intros w _ _. cbn. case_decide; subst.
    - by rewrite lookup_insert_eq.
    - by rewrite lookup_insert_ne. }
  unfold mbind at 1, ST_bind at 1. pose proof (quietly_on_storage (StoreVote vote) hs1) as H2.
  destruct (on_storage (StoreVote vote) hs1) as [[a|e] hs2]; cbn [snd] in H2; [|by eapply votes_for_block_quiet].
  unfold mbind at 1, ST_bind at 1, emit at 1, modify at 1.
  assert (H3 : votes_for_block (p_View p) (p_BlockHash p) hs (add_event (EvVote vote) hs2)).
  { destruct (votes_for_block_quiet _ _ _ _ _ H1 H2) as [c v e s]. constructor; try done.
    intros w. unfold sent_votes. cbn. intros [->|Hw]%elem_of_cons; [by right|by apply e]. }
  eapply votes_for_block_quiet; [exact H3|]. repeat case_match; [apply quietly_onVoteInternal..|apply quiet_refl].
Qed.

(** The effect of a proposal: none on the votes, or a vote for its block in a
    view the engine had not voted in. *)
Definition proposal_effect (p : Proposal) (hs hs' : HotStuff) : Prop :=
  quiet hs hs' \/
  ((no_wrap hs -> fresh_view hs (p_View p) -> votesSent hs !! p_View p = None) /\
   votes_for_block (p_View p) (p_BlockHash p) hs hs').

Definition unvoted (p : Proposal) (hs : HotStuff) : Prop :=
  no_wrap hs -> fresh_view hs (p_View p) -> votesSent hs !! p_View p = None.

(** After a quiet step the engine is still in the situation before it. *)
Lemma effect_after_quiet p hs hs' hs'' :
  quiet hs hs' -> unvoted p hs -> (unvoted p hs' -> proposal_effect p hs' hs'') -> proposal_effect p hs hs''.
Proof.
  intros Hq Hu Hf. pose proof Hq as [c v e s].
  assert (Hu' : unvoted p hs').
  { intros Hw Hfr. apply (quiet_no_wrap _ _ Hq) in Hw. apply (quiet_fresh _ _ _ Hq) in Hfr. rewrite s by done. by apply Hu. }
  destruct (Hf Hu') as [Hq'|[_ [c' v' e' s']]]; [left; by eapply quiet_trans|]. right. split; [exact Hu|].
  constructor; try congruence.
  - by rewrite <- e.
  - intros w Hw Hfr. rewrite s'; [|by apply (quiet_no_wrap _ _ Hq)|by apply (quiet_fresh _ _ _ Hq)].
    by rewrite s.
Qed.

Definition effective {A} (p : Proposal) (m : ST HotStuff hs_error A) : Prop :=
  forall hs, unvoted p hs -> proposal_effect p hs (m hs).2.

Lemma effective_bind {A A'} p (m : ST HotStuff hs_error A) (f : A -> ST HotStuff hs_error A') :
  quietly m -> (forall a, effective p (f a)) -> effective p (m ≫= f).
Proof.
  intros Hm Hf hs Hu. unfold mbind, ST_bind. specialize (Hm hs). destruct (m hs) as [[a|e] hs']; [|by left].
  eapply effect_after_quiet; [exact Hm|exact Hu|apply Hf].
Qed.

Lemma effective_send now ea p : effective p (sendVoteLocked now ea p).
Proof. intros hs Hu. destruct (sendVoteLocked_effect now ea p hs) as [H|H]; [by left|by right]. Qed.

Lemma effective_quietly {A} p (m : ST HotStuff hs_error A) : quietly m -> effective p m.
Proof. intros Hm hs _. left. apply Hm. Qed.

Lemma onProposalLocked_effect now ea p hs : proposal_effect p hs (onProposalLocked now ea p hs).2.
Proof.
  unfold onProposalLocked. unfold mbind at 1, ST_bind at 1.
  assert (Hq1 : quiet hs (validate_proposal now ea p hs).2) by (unfold validate_proposal; auto with quiet; apply quietly_bind; auto with quiet).
  destruct (validate_proposal now ea p hs) as [[[]|e] hs1]; cbn [snd] in Hq1; [|by left].
  unfold mbind at 1, ST_bind at 1, gets at 1.
  destruct (votesSent hs1 !! p_View p) as [voted|] eqn:Hv.
  { left. eapply quiet_trans; [exact Hq1|]. case_match; apply quiet_refl. }
  assert (Hu1 : unvoted p hs1) by (intros _ _; exact Hv).
  assert (Hu : unvoted p hs).
  { intros Hw Hf. rewrite <- (q_sent _ _ Hq1) by done. exact Hv. }
  eapply effect_after_quiet; [exact Hq1|exact Hu|]. intros _.
  match goal with |- proposal_effect _ _ (?m _).2 => enough (He : effective p m) by (by apply He) end.
  apply effective_bind.
  { destruct (JustifyQC p) as [qc|]; [|auto with quiet]. apply quietly_bind; [auto with quiet|intros _].
    apply quietly_modify. intros hs2. unfold update_lock. repeat case_match; by constructor. }
  intros _. apply effective_bind; [auto with quiet|intros safe].
  apply effective_bind; [auto with quiet|intros _]. apply effective_bind; [auto with quiet|intros _].
  apply effective_bind; [auto with quiet|intros _]. apply effective_bind; [auto with quiet|intros _].
  apply effective_bind; [auto with quiet|intros _]. apply effective_bind; [auto with quiet|intros []].
  - apply effective_send.
  - apply effective_quietly. auto with quiet.
Qed.

Lemma OnProposal_effect now ea p hs : proposal_effect p hs (OnProposal now ea p hs).2.
Proof.
  unfold OnProposal. unfold mbind, ST_bind. pose proof (onProposalLocked_effect now ea p hs) as He.
  destruct (onProposalLocked now ea p hs) as [[r|e] hs1]; cbn [snd] in *; [|exact He].
  pose proof (quietly_emit_qc r hs1) as Hq. destruct He as [He|[Hu He]]; [left; by eapply quiet_trans|].
  right. split; [exact Hu|]. by eapply votes_for_block_quiet.
Qed.

(** Every vote sent in a recent view is the one [votesSent] records. *)
Definition vote_inv (hs : HotStuff) : Prop :=
  no_wrap hs /\ forall v, v ∈ sent_votes hs -> fresh_view hs (v_View v) -> votesSent hs !! v_View v = Some (v_BlockHash v).

Lemma vote_inv_quiet hs hs' : quiet hs hs' -> vote_inv hs -> vote_inv hs'.
Proof.
  intros Hq [Hw Hv]. split; [by apply (quiet_no_wrap _ _ Hq)|].
  intros v Hin Hf. rewrite (q_votes _ _ Hq) in Hin. apply (quiet_fresh _ _ _ Hq) in Hf.
  rewrite (q_sent _ _ Hq) by done. by apply Hv.
Qed.

Lemma vote_inv_proposal p hs hs' : proposal_effect p hs hs' -> vote_inv hs -> vote_inv hs'.
Proof.
  intros [Hq|[Hu [c v e s]]] [Hw Hv]; [by eapply vote_inv_quiet|].
  split; [unfold no_wrap in *; by rewrite c, v|].
  intros w Hin Hf. assert (Hf' : fresh_view hs (v_View w)) by (unfold fresh_view in *; by rewrite c, v in Hf).
  rewrite s by done. destruct (e w Hin) as [Hold|[Hview Hh]].
  - specialize (Hv w Hold Hf'). case_decide as Hd; [|exact Hv].
    rewrite Hd in Hv, Hf'. rewrite (Hu Hw Hf') in Hv. discriminate.
  - rewrite decide_True by done. by rewrite Hh.
Qed.

(** View numbers are uint64. *)
Definition call_view_ok (c : hs_call) : Prop := match c with HAdvance newView _ => newView < two64 | _ => True end.

Lemma vote_inv_advance newView q hs :
  newView < two64 -> vote_inv hs -> vote_inv (AdvanceView newView q hs).2.
Proof.
  intros Hn [Hw Hv]. unfold AdvanceView. destruct (Z.leb_spec newView (currentView hs)) as [Hle|Hlt]; [done|].
  assert (Hgen : forall hs', hs_config hs' = hs_config hs -> currentView hs' = newView ->
    sent_votes hs' = sent_votes hs -> votesSent hs' = votesSent hs -> vote_inv hs').
  { intros hs' Hc Hcv Hs Hvs. split.
    - intros Ha. rewrite Hc in Ha. specialize (Hw Ha). lia.
    - intros v Hin Hf. rewrite Hs in Hin. rewrite Hvs. apply Hv; [done|].
      unfold fresh_view in *. rewrite Hc, Hcv in Hf. destruct Hf; [by left|right; lia]. }
  repeat (case_match; simplify_eq/=); by apply Hgen.
Qed.

Lemma vote_inv_call c hs : call_view_ok c -> vote_inv hs -> vote_inv (run_hs c hs).
Proof.
  intros Hc Hv. destruct c; cbn [run_hs].
  - eapply vote_inv_proposal; [apply OnProposal_effect|exact Hv].
  - eapply vote_inv_quiet; [apply quietly_OnVote|exact Hv].
  - by apply vote_inv_advance.
  - eapply vote_inv_quiet; [|exact Hv]. unfold RecoverProposalWindow.
    assert (H : quietly (RecoverProposalWindow now)); [|apply H].
    unfold RecoverProposalWindow. apply quietly_bind; [auto with quiet|intros r].
    apply quietly_bind; [auto with quiet|intros target]. apply quietly_bind; [|auto with quiet].
    apply quietly_modify. intros hs1. case_match; by constructor.
  - by eapply vote_inv_quiet; [|exact Hv].
  - eapply vote_inv_quiet; [apply quietly_create_attempt|exact Hv].
Qed.

Lemma vote_inv_calls cs hs : Forall call_view_ok cs -> vote_inv hs -> vote_inv (run_hs_calls cs hs).
Proof.
  intros Hcs. revert hs. induction Hcs as [|c cs Hc Hcs IH]; intros hs Hv; cbn; [exact Hv|].
  apply IH. by apply vote_inv_call.
Qed.
End voting.

(** ** Commit rule *)

Section two_chain.
Context {CS : CryptoService} {C : LRU bytes bool} {VS : ValidatorSet}
        {B : StorageBackend} {M : Marshallers} {D : Codecs} {N : Node}.

Lemma find_proposal_frame hash hs :
  storage_blocks (hs_storage hs) ->
  let '(r, hs') := find_proposal hash hs in
  hs_events hs' = hs_events hs /\ lockedQC hs' = lockedQC hs /\ storage_blocks (hs_storage hs') /\
  forall p, r = Ok (Some p) -> p_BlockHash p = hash /\ proposal_block_ok p.
Proof.
  intros Hs. unfold find_proposal, mbind, ST_bind, gets.
  destruct (GetProposal (hs_storage hs) hash) as [p|] eqn:Hp.
  { cbn. split_and!; [done..|]. intros p' [= <-]. by apply Hs. }
  unfold logged, on_storage. destruct (Recover_blocks hash (hs_storage hs) Hs) as [H1 H2].
  destruct (GetProposalOrRecover hash (hs_storage hs)) as [[r|e] s]; cbn in *; split_and!; try done.
  intros p [= ->]. by apply H2.
Qed.

Lemma commit_proposal_events p q hs :
  let '(r, hs') := commit_proposal p q hs in
  (hs_events hs' = hs_events hs \/
   exists p' b, p = Some p' /\ p_Block p' = Some b /\ hs_events hs' = EvCommit b q :: hs_events hs) /\
  lockedQC hs' = lockedQC hs.
Proof.
  unfold commit_proposal. destruct p as [p|]; [|cbn; auto]. destruct (p_Block p) as [b|] eqn:Hb; [|cbn; auto].
  unfold commitBlock, mbind, ST_bind, on_storage, modify, emit, fail_if, gets.
  destruct (CommitBlock (GetHash b) (GetHeight b) (hs_storage hs)) as [[[]|e] s]; [|cbn; auto].
  destruct (negb (OnCommit b q)); [cbn; split; [right; eauto|done]|].
  cbn. destruct (AutoCleanupOldVotes (hs_config hs)); cbn; (split; [right; exists p, b|]); unfold cleanupOldData; try done;
    try (split_and!; [done..|]); by case_match.
Qed.

(** What a commit of block [b] on certificate [c] means when certificate [q] is
    formed: [c] was the lock, [q] is one height above it, for a block whose
    proposal names [c]'s block as its parent, and [b] is [c]'s block. *)
Definition two_chain_commit (hs : HotStuff) (q : IQC) (b : Block) (c : IQC) : Prop :=
  lockedQC hs = Some c /\ q_Height (iqc q) = u64 (q_Height (iqc c) + 1) /\ GetHash b = q_BlockHash (iqc c) /\
  exists p, p_BlockHash p = q_BlockHash (iqc q) /\ ParentHash p = q_BlockHash (iqc c).

Lemma checkCommitRule_commits q hs r hs' :
  GetValidatorCount <> 1 -> storage_blocks (hs_storage hs) -> checkCommitRule q hs = (r, hs') ->
  forall b c, EvCommit b c ∈ hs_events hs' -> EvCommit b c ∈ hs_events hs \/ two_chain_commit hs q b c.
Proof.
  intros Hn Hs Hrun b c Hin. unfold checkCommitRule in Hrun. destruct (Z.eqb_spec GetValidatorCount 1); [done|].
  unfold mbind at 1, ST_bind at 1, gets at 1 in Hrun.
  destruct (lockedQC hs) as [l|] eqn:Hl; [|injection Hrun as <- <-; by left].
  unfold mbind at 1, ST_bind at 1 in Hrun. pose proof (find_proposal_frame (q_BlockHash (iqc q)) hs Hs) as Hf.
  destruct (find_proposal _ hs) as [[current|e] hs1]; destruct Hf as (He & Hl1 & Hs1 & Hp1);
    [|injection Hrun as <- <-; left; by rewrite <- He]. cbv zeta in Hrun.
  match type of Hrun with context [if ?b then _ else _] => destruct b eqn:Htc end.
  2:{ left. rewrite <- He. case_match; injection Hrun as <- <-; exact Hin. }
  unfold mbind at 1, ST_bind at 1 in Hrun. pose proof (find_proposal_frame (q_BlockHash (iqc l)) hs1 Hs1) as Hf.
  destruct (find_proposal _ hs1) as [[p|e] hs2]; destruct Hf as (He2 & _ & _ & Hp2);
    [|injection Hrun as <- <-; left; by rewrite <- He, <- He2].
  pose proof (commit_proposal_events p l hs2) as Hc. rewrite Hrun in Hc. destruct Hc as [[Hev|(p' & b' & -> & Hb & Hev)] _].
  { left. by rewrite <- He, <- He2, <- Hev. }
  rewrite Hev, He2, He in Hin. apply elem_of_cons in Hin as [[= -> ->]|Hin]; [right|by left].
  destruct current as [cur|]; [|done]. go_bool. destruct (Hp1 cur eq_refl) as [Hcur _].
  destruct (Hp2 p' eq_refl) as [Hp' Hblk]. split_and!; [done|done| |by exists cur].
  by rewrite (Hblk b').
Qed.
End two_chain.

(** ** Safety of voting *)

Section locks.
Context {CS : CryptoService} {C : LRU bytes bool} {VS : ValidatorSet}
        {B : StorageBackend} {M : Marshallers} {D : Codecs} {N : Node}.

Lemma on_validator_frame {A} (m : ST Validator val_error A) hs :
  lockedQC (on_validator m hs).2 = lockedQC hs /\ hs_config (on_validator m hs).2 = hs_config hs /\
  sent_votes (on_validator m hs).2 = sent_votes hs.
Proof. unfold on_validator. by destruct (m (hs_validator hs)) as [[|] ?]. Qed.

Lemma validate_proposal_frame now ea p hs :
  lockedQC (validate_proposal now ea p hs).2 = lockedQC hs /\
  hs_config (validate_proposal now ea p hs).2 = hs_config hs /\
  sent_votes (validate_proposal now ea p hs).2 = sent_votes hs.
Proof.
  unfold validate_proposal, mbind, ST_bind, modify.
  by destruct (on_validator_frame (ValidateProposal now ea p)
    (set_validator (with_bootstrap (hs_storage hs) (hs_validator hs)) hs)) as (-> & -> & ->).
Qed.

(** A proposal whose certificate is older than the lock gets no vote. *)
Lemma onProposalLocked_unsafe now ea p hs q r hs' :
  SafetyCheckStrict (hs_config hs) = true -> lockedQC hs = Some q ->
  (forall j, JustifyQC p = Some j -> q_View j < q_View (iqc q)) ->
  onProposalLocked now ea p hs = (r, hs') ->
  sent_votes hs' = sent_votes hs /\ forall x, r = Ok x -> x = None.
Proof.
  intros Hstrict Hl Hj Hrun. unfold onProposalLocked in Hrun. unfold mbind at 1, ST_bind at 1 in Hrun.
  destruct (validate_proposal_frame now ea p hs) as (Hl1 & Hc1 & Hs1).
  destruct (validate_proposal now ea p hs) as [[[]|e] hs1]; cbn [snd] in *; [|by injection Hrun as <- <-].
  unfold mbind at 1, ST_bind at 1, gets at 1 in Hrun.
  destruct (votesSent hs1 !! p_View p) as [voted|].
  { destruct (bool_decide (voted = p_BlockHash p)); injection Hrun as <- <-; (split; [done|congruence]). }
  assert (Hfail : forall hs2 (k : unit -> ST HotStuff hs_error (option IQC)),
    lockedQC hs2 = Some q -> hs_config hs2 = hs_config hs ->
    (safe ← gets (isSafeToVote p); fail_if (negb safe) HConflictsLocked ≫= k) hs2 = (Err HConflictsLocked, hs2)).
  { intros hs2 k Hl2 Hc2. unfold mbind, ST_bind, gets.
    assert (Hsafe : isSafeToVote p hs2 = false).
    { unfold isSafeToVote. rewrite Hc2, Hstrict, Hl2. destruct (JustifyQC p) as [j|]; [|done].
      cbn. apply Z.leb_gt. by apply Hj. }
    by rewrite Hsafe. }
  unfold mbind at 1, ST_bind at 1 in Hrun. destruct (JustifyQC p) as [j|] eqn:Hjq.
  - unfold mbind at 1, ST_bind at 1 in Hrun.
    destruct (on_validator_frame (adapter_ValidateQC now ea j) hs1) as (Hl2 & Hc2 & Hs2).
    destruct (on_validator (adapter_ValidateQC now ea j) hs1) as [[[]|e] hs2]; cbn [snd] in *;
      [|injection Hrun as <- <-; split; congruence].
    unfold modify at 1 in Hrun. assert (Hu : update_lock j hs2 = hs2).
    { unfold update_lock. rewrite Hl2, Hl1, Hl. specialize (Hj j eq_refl).
      by destruct (Z.ltb_spec (q_View (iqc q)) (q_View j)); [lia|]. }
    rewrite Hu, Hfail in Hrun by congruence. injection Hrun as <- <-. split; congruence.
  - unfold mret at 1, ST_ret at 1 in Hrun.
    rewrite Hfail in Hrun by congruence. injection Hrun as <- <-. split; congruence.
Qed.
End locks.

(** ** Poisoned buckets *)

Section poison.
Context {CS : CryptoService} {CL : @CryptoLaws CS} {C : LRU bytes bool} {LL : @LRULaws bytes bool C}
        {VS : ValidatorSet} {B : StorageBackend} {M : Marshallers} {D : Codecs} {DL : @CodecsLaws D} {N : Node}.

Lemma bucket_same key bucket first v :
  bucket_ok key bucket -> (exists i, bucket !! i = Some first) -> (exists j, bucket !! j = Some v) ->
  same_bucket first v = true.
Proof.
  intros Hb [i Hi] [j Hj]. destruct (Hb _ _ Hi) as (_ & H1 & H2 & _ & H3). destruct (Hb _ _ Hj) as (_ & H4 & H5 & _).
  destruct (H3 _ _ Hj) as [H6 H7]. unfold same_bucket. rewrite H1, H2, H4, H5, H6, H7, !Z.eqb_refl.
  by rewrite bool_decide_eq_true_2.
Qed.

(** The bucket invariant makes the mixed-votes branch of [formQC] unreachable. *)
Lemma formQC_mixed_unreachable key bucket first :
  bucket_ok key bucket -> (exists i, bucket !! i = Some first) ->
  forallb (fun p => same_bucket first p.2) (range_votes 2 bucket) = true.
Proof.
  intros Hb Hf. apply forallb_forall. intros [j v] Hv. apply list_elem_of_In, range_votes_lookup in Hv.
  eapply bucket_same; eauto.
Qed.

(** The bytes the certificate check expects under a vote's signature: the vote in
    round 0, in the name of the key that signed it. *)
Definition expected_bytes (v : Vote) : bytes :=
  Vote_SignBytes (MkVote (v_View v) (v_Height v) 0 (v_BlockHash v) (KeyID (v_Signature v))
    (sig_Timestamp (v_Signature v)) (v_Signature v)).

Lemma formQC_poisoned now ea view h id v hs :
  hs_inv hs -> votes_for hs (view, h) !! id = Some v ->
  ~ signed (KeyID (v_Signature v)) (expected_bytes v) ->
  exists e hs', formQC now ea h view hs = (Err (HValidation e), hs') /\ pendingVotes hs' = pendingVotes hs.
Proof.
  intros Hhs Hv Hns. unfold formQC, mbind at 1, ST_bind at 1, gets at 1.
  pose proof (votes_for_ok hs (view, h) Hhs) as Hb. set (bucket := votes_for hs (view, h)) in *.
  destruct (range_votes 1 bucket) as [|[i0 first] rest] eqn:Hr.
  { apply (range_votes_lookup 1) in Hv. rewrite Hr in Hv. by apply elem_of_nil in Hv. }
  assert (Hf : exists i, bucket !! i = Some first) by (exists i0; apply (range_votes_lookup 1); rewrite Hr; by left).
  rewrite (formQC_mixed_unreachable (view, h) bucket first Hb Hf). cbn [negb]. cbv zeta.
  set (qc := MkQC _ _ _ _ _ _ _).
  assert (Hwf : qc_wf qc).
  { unfold qc_wf. cbn. apply Forall_fmap, Forall_fmap, Forall_forall. intros [i w] Hw.
    apply range_votes_lookup in Hw. by destruct (Hb i w Hw) as (_ & _ & _ & Hlen & _). }
  unfold mbind at 1, ST_bind at 1, on_validator at 1.
  destruct (keeps_ValidateQC (hs_validator hs) now ea (round0 qc) Hwf (hs_validator hs)
    (val_inv_refl _ (hi_encoder _ Hhs))) as [_ Hgood]. unfold adapter_ValidateQC.
  destruct (ValidateQC now ea (Some (round0 qc)) (hs_validator hs)) as [[[]|e] val]; [|by exists e; eexists].
  exfalso. specialize (Hgood tt eq_refl). apply Hns.
  pose proof (qc_signed _ _ Hgood) as Hg. unfold qc_genuine in Hg. cbn in Hg.
  rewrite Forall_fmap, Forall_fmap, Forall_forall in Hg.
  assert (Hs : (id, v) ∈ range_votes 2 bucket) by by apply range_votes_lookup.
  specialize (Hg _ Hs). cbn in Hg. unfold sig_genuine, buildVoteSignBytesFromQC in Hg. cbn in Hg.
  destruct Hf as [i Hi]. destruct (Hb _ _ Hi) as (_ & H1 & H2 & _ & H3). destruct (H3 _ _ Hv) as [H4 _].
  destruct (Hb _ _ Hv) as (_ & H5 & H6 & _). cbn in H1, H5, H6.
  unfold expected_bytes, Vote_SignBytes. cbn. rewrite H4, H5, H6. by rewrite H1 in Hg.
Qed.

Definition call_wf (c : hs_call) : Prop :=
  match c with
  | HProposal _ _ p => proposal_wf p
  | HVote _ _ v => vote_wf v
  | HAdvance _ q => forall q', q = Some q' -> good q'
  | HPropose _ _ _ r => forall q, pm_highestQC r = Some q -> qc_wf (iqc q)
  | _ => True
  end.

Lemma hs_inv_call c hs : call_wf c -> hs_inv hs -> hs_inv (run_hs c hs).
Proof.
  intros Hc Hhs. destruct c; cbn [run_hs call_wf] in *.
  - by apply (keeps_OnProposal now enforceActive p Hc hs Hhs).
  - by apply (keeps_OnVote now enforceActive v Hc hs Hhs).
  - by apply (keeps_AdvanceView newView highestQC Hc hs Hhs).
  - by apply (keeps_RecoverProposalWindow now hs Hhs).
  - destruct Hhs. by constructor.
  - exact (proj1 (keeps_create_attempt now enforceActive blk r Hc hs Hhs)).
Qed.

Lemma hs_inv_calls cs hs : Forall call_wf cs -> hs_inv hs -> hs_inv (run_hs_calls cs hs).
Proof.
  intros Hcs. revert hs. induction Hcs as [|c cs Hc Hcs IH]; intros hs Hhs; cbn; [exact Hhs|].
  apply IH. by apply hs_inv_call.
Qed.
End poison.

(** ** Proposing *)

Section proposing.
Context {CS : CryptoService} {CL : @CryptoLaws CS} {C : LRU bytes bool} {LL : @LRULaws bytes bool C}
        {VS : ValidatorSet} {B : StorageBackend} {M : Marshallers} {D : Codecs} {DL : @CodecsLaws D} {N : Node}.

Lemma StoreProposal_stored now p s s' :
  StoreProposal now p s = (Ok tt, s') -> GetProposal s' (p_BlockHash p) = Some p.
Proof.
  unfold StoreProposal, GetProposal. cbv zeta. intros H. repeat case_match; simplify_eq/=; apply lookup_insert_eq.
Qed.

Lemma create_attempt_stored now ea blk r hs p hs' :
  create_attempt now ea blk r hs = (Ok (Some p), hs') ->
  GetProposal (hs_storage hs') (GetHash blk) = Some p /\ currentView hs' = p_View p.
Proof.
  intros H. pose proof (q_view _ _ (quietly_create_attempt now ea blk r hs)) as Hq. rewrite H in Hq. cbn in Hq.
  unfold create_attempt in H. apply ST_bind_Ok in H as ([] & hs1 & Hf & H). apply fail_if_Ok in Hf as [_ ->].
  apply ST_bind_Ok in H as (justify & hs1 & Hs & H).
  pose proof (q_view _ _ (quietly_sanitize now ea (pm_highestQC r) hs)) as Hq1. rewrite Hs in Hq1. cbn in Hq1.
  apply ST_bind_Ok in H as (view & hs2 & [= <- <-] & H). apply ST_bind_Ok in H as (height & hs2 & [= <- <-] & H).
  destruct (Z.eqb_spec (currentView hs1) (pm_view r)) as [Hview|]; cbn [negb] in H; [|discriminate].
  apply ST_bind_Ok in H as (s & hs2 & [= <- <-] & H). cbv zeta in H.
  case_match; [|discriminate]. apply ST_bind_Ok in H as ([] & hs2 & Hst & [= <- <-]).
  unfold on_storage in Hst. destruct (StoreProposal _ _ (hs_storage hs1)) as [[[]|e] s2] eqn:Hrun; [|discriminate].
  injection Hst as <-. split; [exact (StoreProposal_stored _ _ _ _ Hrun)|]. rewrite Hq, <- Hq1. exact Hview.
Qed.

Lemma create_loop_sound ea blk turns elsewhere n i hs r hs' :
  (forall j q, pm_highestQC (turns j).2 = Some q -> qc_wf (iqc q)) ->
  (forall j hs, hs_inv hs -> hs_inv (elsewhere j hs)) -> hs_inv hs ->
  create_loop ea blk turns elsewhere n i hs = (r, hs') ->
  hs_inv hs' /\ forall p, r = Ok p ->
    (exists j, (i <= j < i + n)%nat /\ proposed blk (turns j).2 p) /\
    GetProposal (hs_storage hs') (GetHash blk) = Some p /\ currentView hs' = p_View p.
Proof.
  intros Hwf Hel. revert i hs. induction n as [|n IH]; intros i hs Hhs; cbn [create_loop].
  { intros [= <- <-]. by split. }
  unfold mbind at 1, ST_bind at 1.
  destruct (keeps_create_attempt (turns i).1 ea blk (turns i).2 (Hwf i) hs Hhs) as [H1 H2].
  destruct (create_attempt (turns i).1 ea blk (turns i).2 hs) as [[[p|]|e] hs1] eqn:Hrun; cbn in H1, H2.
  - intros [= <- <-]. split; [exact H1|]. intros ? [= <-].
    split; [exists i; split; [lia|by apply (H2 (Some p))]|by eapply create_attempt_stored].
  - unfold mbind, ST_bind, modify. intros H. destruct (IH (S i) _ (Hel i _ H1) H) as [H3 H4].
    split; [exact H3|]. intros p Hp. destruct (H4 p Hp) as ((j & Hj & Hpr) & Hst).
    split; [exists j; split; [lia|exact Hpr]|exact Hst].
  - intros [= <- <-]. by split.
Qed.
End proposing.
