(* ===== verification/HotStuffRuns.v ===== *)
(** The engine's properties over runs, with concrete runs that witness them. *)
From S2P Require Import Prelude Bytes Sha256 GoTime Messages Interfaces Encoder Validation Quorum ConsensusStorage.
From S2P Require Import HotStuff HotStuffInv.

(** ** Properties *)

(** The engine's invariant, over every run of proposals, votes, view changes and
    recoveries: each certificate it locks on, prepares, announces or commits with
    is a valid quorum certificate, every committed block has the hash its
    certificate certifies, the vote buckets are homogeneous, and the caches it
    relies on are sound. *)
Theorem engine_invariant {CS : CryptoService} {CL : @CryptoLaws CS} {C : LRU bytes bool}
    {LL : @LRULaws bytes bool C} {VS : ValidatorSet} {B : StorageBackend} {M : Marshallers} {D : Codecs} {DL : @CodecsLaws D} {N : Node}
    (hs : HotStuff) (cs : list hs_call) (Hinv : hs_inv hs) (Hwf : Forall call_wf cs) :
  hs_inv (run_hs_calls cs hs) /\
  (forall q, EvQC q ∈ hs_events (run_hs_calls cs hs) -> qc_valid false (round0 (iqc q))) /\
  (forall b q, EvCommit b q ∈ hs_events (run_hs_calls cs hs) ->
     qc_valid false (round0 (iqc q)) /\ GetHash b = q_BlockHash (iqc q)).
Proof.
  pose proof (hs_inv_calls cs hs Hwf Hinv) as H. split; [exact H|]. split.
  - intros q Hq. exact (proj2 (hi_events _ H _ Hq)).
  - intros b q Hq. destruct (hi_events _ H _ Hq) as [[_ Hg] Hh]. split; [exact Hg|exact Hh].
Qed.

(** Commit agreement within a view: whatever two nodes of the same [3f+1]
    validators have been through, with at most [f] faulty, honest validators
    voting once per view and signatures unforgeable, blocks they commit on
    certificates of the same view are the same block. *)
Theorem commit_agreement {CS : CryptoService} {CL : @CryptoLaws CS} {C : LRU bytes bool}
    {LL : @LRULaws bytes bool C} {VS : ValidatorSet} {VL : @ValidatorSetLaws VS}
    {B : StorageBackend} {M : Marshallers} {D : Codecs} {DL : @CodecsLaws D} {N N' : Node}
    (honest : ValidatorID -> Prop) (faulty : list ValidatorID)
    (hs hs' : HotStuff) (cs cs' : list hs_call) (b b' : Block) (q q' : IQC)
    (Honce : votes_once honest)
    (Hhonest : forall id, id ∈ members -> honest id \/ id ∈ faulty)
    (Hfaulty : len faulty <= calculateF GetValidatorCount)
    (Hcount : GetValidatorCount mod 3 = 1)
    (Hinv : hs_inv hs) (Hinv' : hs_inv hs') (Hwf : Forall call_wf cs) (Hwf' : Forall call_wf cs')
    (Hcommit : EvCommit b q ∈ hs_events (run_hs_calls (N := N) cs hs))
    (Hcommit' : EvCommit b' q' ∈ hs_events (run_hs_calls (N := N') cs' hs'))
    (Hview : q_View (iqc q) = q_View (iqc q')) :
  GetHash b = GetHash b'.
Proof.
  destruct (hi_events _ (hs_inv_calls (N := N) cs hs Hwf Hinv) _ Hcommit) as [[_ Hg] Hh].
  destruct (hi_events _ (hs_inv_calls (N := N') cs' hs' Hwf' Hinv') _ Hcommit') as [[_ Hg'] Hh'].
  rewrite Hh, Hh'.
  exact (qc_valid_agree honest faulty false false _ _ Honce Hhonest Hfaulty Hcount Hg Hg' Hview).
Qed.

(** One vote per view: a node never sends votes for two different blocks in a
    view at most 100 below its current one, over any run, provided its current
    view is at least 100 (or the cleanup of old votes is off). *)
Theorem one_vote_per_view {CS : CryptoService} {C : LRU bytes bool} {VS : ValidatorSet}
    {B : StorageBackend} {M : Marshallers} {D : Codecs} {N : Node}
    (hs : HotStuff) (cs : list hs_call) (v w : Vote)
    (Hinv : vote_inv hs) (Hcs : Forall call_view_ok cs)
    (Hv : v ∈ sent_votes (run_hs_calls cs hs)) (Hw : w ∈ sent_votes (run_hs_calls cs hs))
    (Hfresh : fresh_view (run_hs_calls cs hs) (v_View v)) (Hview : v_View v = v_View w) :
  v_BlockHash v = v_BlockHash w.
Proof.
  destruct (vote_inv_calls cs hs Hcs Hinv) as [_ H].
  pose proof (H v Hv Hfresh) as H1. rewrite Hview in Hfresh. pose proof (H w Hw Hfresh) as H2.
  rewrite Hview in H1. congruence.
Qed.

(** C6. The two-chain commit rule: with several validators, forming a certificate
    commits a block only if the certificate is one height above the lock, for a
    block whose proposal names the locked block as its parent, and the block
    committed is the locked one, on the lock. *)
Theorem checkCommitRule_two_chain {CS : CryptoService} {C : LRU bytes bool} {VS : ValidatorSet}
    {B : StorageBackend} {M : Marshallers} {D : Codecs} {N : Node}
    (q : IQC) (hs hs' : HotStuff) (r : result hs_error unit) (b : Block) (c : IQC)
    (Hmulti : GetValidatorCount <> 1) (Hblocks : storage_blocks (hs_storage hs))
    (Hrun : checkCommitRule q hs = (r, hs'))
    (Hcommit : EvCommit b c ∈ hs_events hs') (Hnew : EvCommit b c ∉ hs_events hs) :
  lockedQC hs = Some c /\ q_Height (iqc q) = u64 (q_Height (iqc c) + 1) /\ GetHash b = q_BlockHash (iqc c) /\
  exists p, p_BlockHash p = q_BlockHash (iqc q) /\ ParentHash p = q_BlockHash (iqc c).
Proof.
  destruct (checkCommitRule_commits q hs r hs' Hmulti Hblocks Hrun b c Hcommit) as [H|H]; [done|exact H].
Qed.

(** C7. The safety rule: under the strict check, a node that is locked sends no vote
    for a proposal without a certificate or with one from a view older than its
    lock's. *)
Theorem vote_respects_lock {CS : CryptoService} {C : LRU bytes bool} {VS : ValidatorSet}
    {B : StorageBackend} {M : Marshallers} {D : Codecs} {N : Node}
    (now : Time) (enforceActive : bool) (p : Proposal) (hs : HotStuff) (q : IQC)
    (Hstrict : SafetyCheckStrict (hs_config hs) = true) (Hlock : lockedQC hs = Some q)
    (Hold : forall j, JustifyQC p = Some j -> q_View j < q_View (iqc q)) :
  sent_votes (OnProposal now enforceActive p hs).2 = sent_votes hs.
Proof.
  unfold OnProposal, mbind, ST_bind. destruct (onProposalLocked now enforceActive p hs) as [r hs1] eqn:Hrun.
  destruct (onProposalLocked_unsafe now enforceActive p hs q r hs1 Hstrict Hlock Hold Hrun) as [Hs Hr].
  destruct r as [x|e]; [|exact Hs]. by rewrite (Hr x eq_refl).
Qed.

(** One forged vote stops its block: if a pending vote's signature was not made
    by the key it names over the vote in that key's name (a signature check at
    the entrance does not ensure it), then no certificate is ever formed from its
    bucket: every attempt fails in validation and leaves the bucket as it is. *)
Theorem forged_vote_blocks_qc {CS : CryptoService} {CL : @CryptoLaws CS} {C : LRU bytes bool}
    {LL : @LRULaws bytes bool C} {VS : ValidatorSet} {B : StorageBackend} {M : Marshallers} {D : Codecs} {N : Node}
    (now : Time) (enforceActive : bool) (view : Z) (h : BlockHash) (id : ValidatorID) (v : Vote) (hs : HotStuff)
    (Hinv : hs_inv hs) (Hpending : votes_for hs (view, h) !! id = Some v)
    (Hforged : ~ signed (KeyID (v_Signature v)) (expected_bytes v)) :
  exists e hs', formQC now enforceActive h view hs = (Err (HValidation e), hs') /\
    pendingVotes hs' = pendingVotes hs.
Proof. exact (formQC_poisoned now enforceActive view h id v hs Hinv Hpending Hforged). Qed.

(** The leader's path, whatever the pacemaker answers and whatever else happens to
    the engine between its turns: a proposal it returns is for the given block, by
    this node as the leader of the view the pacemaker and the engine are then in,
    above the pacemaker's height and its certificate's; it carries a valid
    certificate for its parent, repaired from stored votes or replaced when the
    pacemaker's was invalid, or none; and it is in the store. *)
Theorem CreateProposal_sound {CS : CryptoService} {CL : @CryptoLaws CS} {C : LRU bytes bool}
    {LL : @LRULaws bytes bool C} {VS : ValidatorSet} {B : StorageBackend} {M : Marshallers} {D : Codecs}
    {DL : @CodecsLaws D} {N : Node}
    (enforceActive : bool) (blk : Block) (turns : nat -> Time * PacemakerReading)
    (elsewhere : nat -> HotStuff -> HotStuff) (hs hs' : HotStuff) (r : result hs_error Proposal)
    (Hwf : forall i q, pm_highestQC (turns i).2 = Some q -> qc_wf (iqc q))
    (Helse : forall i hs, hs_inv hs -> hs_inv (elsewhere i hs)) (Hinv : hs_inv hs)
    (Hrun : CreateProposal enforceActive blk turns elsewhere hs = (r, hs')) :
  hs_inv hs' /\ forall p, r = Ok p ->
    (exists i, (i < 50)%nat /\ proposed blk (turns i).2 p) /\
    GetProposal (hs_storage hs') (GetHash blk) = Some p /\ currentView hs' = p_View p.
Proof.
  destruct (create_loop_sound _ _ _ _ _ _ _ _ _ Hwf Helse Hinv Hrun) as [H1 H2]. split; [exact H1|].
  intros p Hp. destruct (H2 p Hp) as ((i & Hi & Hpr) & Hst). split; [|exact Hst].
  exists i. unfold createProposalMaxSyncRetries in Hi. split; [lia|exact Hpr].
Qed.

(** ** Concrete runs *)

(** Signatures by validators 1 to 3 on a vote for block 77 in view 4 and one for
    block 78 in view 5. *)
Definition run_vote (view height block voter : Z) : Vote :=
  MkVote view height 0 (demo_id block) (demo_id voter) (time_Unix 1700000000) (demo_sig voter).
Definition run_vote_list : list Vote :=
  (run_vote 4 1 77 <$> [1; 2; 3]) ++ (run_vote 5 2 78 <$> [1; 2; 3]).
Definition run_table : list (bytes * bytes) := (fun v => (VoterID v, Vote_SignBytes v)) <$> run_vote_list.
Definition run_crypto : CryptoService := table_crypto run_table.
Definition run_laws : @CryptoLaws run_crypto := table_laws run_table.
#[local] Existing Instance run_crypto.
#[local] Existing Instance run_laws.
#[local] Existing Instance demo_codecs.

(** Node [n], visiting maps in key order, or backwards. *)
Definition run_node (n : Z) (backwards : bool) : Node.
Proof.
  refine {| GetKeyID := demo_id n; GetKeyID_length := length_be_put 32 n;
    SignWithContext _ _ := Some [x01];
    IsLeader view := bool_decide (GetLeaderForView view = Some (demo_id n));
    BlockValidationFunc := None; OnCommit _ _ := true; EncodeVote := Vote_SignBytes;
    range_votes i votes := if backwards then reverse (map_to_list votes) else map_to_list votes;
    range_qcs := map_to_list; range_qcs_perm m := reflexivity _ |}.
  intros _ votes. destruct backwards; [apply reverse_Permutation|reflexivity].
Defined.
Definition run_node4 : Node := run_node 4 false.
Definition run_node3 : Node := run_node 3 true.

Definition run_validator : @Validator run_crypto map_LRU :=
  MkValidator DefaultValidationConfig
    (SetValidatorSet demo_set (@NewEncoder run_crypto map_LRU (() : @crypto run_crypto) DefaultEncoderConfig))
    0 0 ∅ None.
Definition run_start : @HotStuff run_crypto map_LRU null_backend :=
  NewHotStuff DefaultHotStuffConfig run_validator (NewStorage None DefaultStorageConfig).

(** The certificate a node forms for block 77, and the block. *)
Definition run_qc_by (node : Z) (signers : list Z) : QC :=
  MkQC 4 1 0 (demo_id 77) (demo_sig <$> signers) demo_clock (demo_id node).
Definition run_qc : QC := run_qc_by 4 [2; 1; 3].
Definition run_block : Block := MkBlock 1 (demo_id 77) zeroID 0 demo_clock.
Definition run_proposal_A : Proposal :=
  MkProposal 4 1 0 (demo_id 77) zeroID (demo_id 1) demo_clock None (Some run_block) (demo_sig 1).
(** The proposals of view 5: one per block. *)
Definition run_proposal_B (block : Z) : Proposal :=
  MkProposal 5 2 0 (demo_id block) (demo_id 77) (demo_id 2) demo_clock (Some run_qc)
    (Some (MkBlock 2 (demo_id block) (demo_id 77) 0 demo_clock)) (demo_sig 2).

Definition run_prefix : list hs_call :=
  [HPacemaker 4 1; HProposal demo_clock true run_proposal_A] ++
  (HVote demo_clock true <$> (run_vote 4 1 77 <$> [1; 2; 3])) ++
  [HAdvance 5 (Some (MessagesQC run_qc)); HPacemaker 5 2; HProposal demo_clock true (run_proposal_B 78)].
Definition run_calls5 : list hs_call := run_prefix ++ (HVote demo_clock true <$> (run_vote 5 2 78 <$> [1; 2; 3])).

Abbreviation run4 cs := (run_hs_calls (N:=run_node4) cs run_start).
Abbreviation run3 cs := (run_hs_calls (N:=run_node3) cs run_start).

Definition event_commit (e : event) : option (Block * IQC) :=
  match e with EvCommit b q => Some (b, q) | _ => None end.

Lemma event_commit_in evs b q : omap event_commit evs = [(b, q)] -> EvCommit b q ∈ evs.
Proof.
  intros H. assert (Hin : (b, q) ∈ omap event_commit evs) by (rewrite H; by left).
  apply list_elem_of_omap in Hin as ([] & Hin & [=]); by subst.
Qed.

Lemma run_start_inv : hs_inv run_start.
Proof.
  apply NewHotStuff_inv.
  - constructor; [exact I| |]; intros k Hk; cbn in Hk; by rewrite lookup_empty in Hk.
  - by constructor.
Qed.

Lemma run_qc_good q : q = run_qc -> good (MessagesQC q).
Proof.
  intros ->. pose proof (keeps_ValidateQC run_validator demo_clock false (round0 run_qc)) as H.
  assert (Hwf : qc_wf (round0 run_qc)) by (unfold qc_wf; cbn; repeat constructor).
  assert (Hr : (ValidateQC demo_clock false (Some (round0 run_qc)) run_validator).1 = Ok tt) by (vm_compute; reflexivity).
  split; [exact Hwf|]. exact (proj2 (H Hwf run_validator (val_inv_refl _ (hi_encoder _ run_start_inv))) tt Hr).
Qed.

Lemma run_votes_wf (ws : list Vote) :
  Forall vote_wf ws -> Forall call_wf (HVote demo_clock true <$> ws).
Proof. intros H. apply Forall_fmap. exact H. Qed.

Lemma run_calls5_wf : Forall call_wf run_calls5.
Proof.
  unfold run_calls5, run_prefix. repeat (apply Forall_app; split); try (apply run_votes_wf; repeat constructor).
  - apply Forall_cons; split; [exact I|]. apply Forall_singleton. split.
    + intros blk [= <-]. reflexivity.
    + intros qc [=].
  - apply Forall_cons; split; [|apply Forall_cons; split; [exact I|]].
    + intros q' [= <-]. by apply run_qc_good.
    + apply Forall_singleton. split.
      * intros blk [= <-]. reflexivity.
      * intros qc [= <-]. unfold qc_wf. cbn. repeat constructor.
Qed.

Lemma run_commit4 : EvCommit run_block (PbftQC run_qc) ∈ hs_events (run4 run_calls5).
Proof. apply event_commit_in. vm_compute. reflexivity. Qed.
Lemma run_commit3 : EvCommit run_block (PbftQC (run_qc_by 3 [3; 1; 2])) ∈ hs_events (run3 run_calls5).
Proof. apply event_commit_in. vm_compute. reflexivity. Qed.

Lemma Vote_SignBytes_View v v' : Vote_SignBytes v = Vote_SignBytes v' -> u64 (v_View v) = u64 (v_View v').
Proof.
  intros H. unfold Vote_SignBytes in H. do 2 apply app_inv_head in H.
  apply app_inj_len in H as [H _]; [|unfold appendUint64; by rewrite !length_be_put].
  apply (f_equal be_get) in H. unfold appendUint64 in H. by rewrite !be_get_put in H.
Qed.

(** In the table every validator votes once per view. *)
Lemma run_votes_once : votes_once (fun _ => True).
Proof.
  intros id v1 v2 _ Hid1 Hid2 (w1 & Hw1 & Hin1)%list_elem_of_fmap (w2 & Hw2 & Hin2)%list_elem_of_fmap Hview.
  apply pair_equal_spec in Hw1 as [He1 Hs1], Hw2 as [He2 Hs2].
  rewrite (Vote_SignBytes_BlockHash v1 w1), (Vote_SignBytes_BlockHash v2 w2) by congruence.
  apply Vote_SignBytes_View in Hs1, Hs2. rewrite Hview, Hs2 in Hs1.
  assert (Hall : forallb (fun w1 => forallb (fun w2 => negb (bool_decide (VoterID w1 = VoterID w2)) ||
      negb (u64 (v_View w1) =? u64 (v_View w2)) || bool_decide (v_BlockHash w1 = v_BlockHash w2)) run_vote_list)
    run_vote_list = true) by (vm_compute; reflexivity).
  rewrite forallb_forall in Hall. specialize (Hall w1 (proj1 (list_elem_of_In _ _) Hin1)).
  rewrite forallb_forall in Hall. specialize (Hall w2 (proj1 (list_elem_of_In _ _) Hin2)).
  rewrite bool_decide_eq_true_2 in Hall by congruence. rewrite (proj2 (Z.eqb_eq _ _)) in Hall by congruence.
  cbn [negb orb] in Hall. by apply bool_decide_eq_true in Hall.
Qed.

Lemma engine_invariant_witness :
  EvCommit run_block (PbftQC run_qc) ∈ hs_events (run4 run_calls5) /\
  qc_valid false (round0 run_qc) /\ GetHash run_block = q_BlockHash run_qc.
Proof.
  split; [exact run_commit4|].
  exact (proj2 (proj2 (engine_invariant (N:=run_node4) run_start run_calls5 run_start_inv run_calls5_wf))
    run_block (PbftQC run_qc) run_commit4).
Defined.

Lemma commit_agreement_witness :
  EvCommit run_block (PbftQC run_qc) ∈ hs_events (run4 run_calls5) /\
  EvCommit run_block (PbftQC (run_qc_by 3 [3; 1; 2])) ∈ hs_events (run3 run_calls5) /\
  GetHash run_block = GetHash run_block.
Proof.
  split; [exact run_commit4|]. split; [exact run_commit3|].
  refine (commit_agreement (N:=run_node4) (N':=run_node3) (fun _ => True) [] run_start run_start
    run_calls5 run_calls5 run_block run_block (PbftQC run_qc) (PbftQC (run_qc_by 3 [3; 1; 2]))
    run_votes_once _ _ _ run_start_inv run_start_inv run_calls5_wf run_calls5_wf run_commit4 run_commit3 _).
  - intros id _. by left.
  - vm_compute. discriminate.
  - reflexivity.
  - reflexivity.
Defined.

(** At view 100 the node votes for the first proposal of view 5 only. *)
Definition run_start100 : HotStuff := set_view 100 run_start.
Definition run_two_B : list hs_call := run_calls5 ++ [HProposal demo_clock true (run_proposal_B 79)].

Lemma run_start_votes v :
  v ∈ sent_votes run_start100 -> fresh_view run_start100 (v_View v) ->
  votesSent run_start100 !! v_View v = Some (v_BlockHash v).
Proof. intros Hv. change (sent_votes run_start100) with (@nil Vote) in Hv. inversion Hv. Qed.

Lemma one_vote_per_view_witness :
  let votes := sent_votes (run_hs_calls (N:=run_node4) run_two_B run_start100) in
  (v_View <$> votes) = [5; 4] /\
  Forall (fun v => Forall (fun w => v_View v = v_View w -> v_BlockHash v = v_BlockHash w) votes) votes.
Proof.
  cbv zeta. assert (Hviews : (v_View <$> sent_votes (run_hs_calls (N:=run_node4) run_two_B run_start100)) = [5; 4])
    by (vm_compute; reflexivity).
  assert (Hcur : currentView (run_hs_calls (N:=run_node4) run_two_B run_start100) = 100) by (vm_compute; reflexivity).
  split; [exact Hviews|]. apply Forall_forall. intros v Hv. apply Forall_forall. intros w Hw.
  apply (one_vote_per_view (N:=run_node4) run_start100 run_two_B v w); [| |exact Hv|exact Hw|].
  - split; [intros _; vm_compute; split; [discriminate|reflexivity]|]. exact run_start_votes.
  - apply Forall_forall. intros c Hc.
    assert (Hok : forallb (fun c => match c with HAdvance n _ => n <? two64 | _ => true end) run_two_B = true)
      by (vm_compute; reflexivity).
    rewrite forallb_forall in Hok. specialize (Hok c (proj1 (list_elem_of_In _ _) Hc)).
    destruct c; try exact I. by apply Z.ltb_lt.
  - right. rewrite Hcur. apply (list_elem_of_fmap_2 v_View) in Hv. rewrite Hviews in Hv.
    apply elem_of_cons in Hv as [->|Hv]; [lia|]. apply list_elem_of_singleton in Hv as ->. lia.
Defined.

(** The certificate for block 78, when the node is locked on block 77. *)
Definition run_qc_B : QC := MkQC 5 2 0 (demo_id 78) (demo_sig <$> [2; 1; 3]) demo_clock (demo_id 4).
Abbreviation run_before_B := (run4 run_prefix).

Lemma run_prefix_wf : Forall call_wf run_prefix.
Proof. pose proof run_calls5_wf as H. unfold run_calls5 in H. by apply Forall_app in H as [H _]. Qed.
Lemma run_before_B_blocks : storage_blocks (hs_storage run_before_B).
Proof.
  apply (si_blocks _ (hi_storage _ (hs_inv_calls (N:=run_node4) run_prefix run_start
    run_prefix_wf run_start_inv))).
Qed.
Lemma run_before_B_fresh : omap event_commit (hs_events run_before_B) = [].
Proof. vm_compute. reflexivity. Qed.
Lemma event_commit_not_in evs b q : omap event_commit evs = [] -> EvCommit b q ∉ evs.
Proof.
  intros H Hin. assert (Hin' : (b, q) ∈ omap event_commit evs) by (apply list_elem_of_omap; by exists (EvCommit b q)).
  rewrite H in Hin'. inversion Hin'.
Qed.

Lemma checkCommitRule_two_chain_witness :
  omap event_commit (hs_events (checkCommitRule (N:=run_node4) (PbftQC run_qc_B) run_before_B).2)
    = [(run_block, PbftQC run_qc)] /\
  lockedQC run_before_B = Some (PbftQC run_qc) /\ q_Height run_qc_B = u64 (q_Height run_qc + 1).
Proof.
  assert (Hc : omap event_commit (hs_events (checkCommitRule (N:=run_node4) (PbftQC run_qc_B) run_before_B).2)
    = [(run_block, PbftQC run_qc)]) by (vm_compute; reflexivity).
  split; [exact Hc|].
  assert (Hn : @GetValidatorCount demo_set <> 1) by (vm_compute; discriminate).
  destruct (checkCommitRule (N:=run_node4) (PbftQC run_qc_B) run_before_B) as [r hs'] eqn:Hrun.
  destruct (checkCommitRule_two_chain (N:=run_node4) (PbftQC run_qc_B) run_before_B hs' r run_block (PbftQC run_qc)
    Hn run_before_B_blocks Hrun (event_commit_in _ _ _ Hc)
    (event_commit_not_in _ _ _ run_before_B_fresh)) as (H1 & H2 & _).
  split; [exact H1|exact H2].
Defined.

(** Unlocked, the node votes for the proposal of view 4, which has no
    certificate; locked, it does not. *)
Abbreviation run_locked := (set_locked (Some (MessagesQC run_qc)) run_start).

Lemma vote_respects_lock_witness :
  length (sent_votes (OnProposal (N:=run_node4) demo_clock true run_proposal_A run_start).2) = 1%nat /\
  sent_votes (OnProposal (N:=run_node4) demo_clock true run_proposal_A run_locked).2 = sent_votes run_locked.
Proof.
  split; [vm_compute; reflexivity|].
  apply (vote_respects_lock (N:=run_node4) demo_clock true run_proposal_A run_locked (MessagesQC run_qc)).
  - reflexivity.
  - reflexivity.
  - intros j [=].
Defined.

(** A vote in the name of validator 1 under the key of validator 4. *)
Definition run_forged : Vote :=
  MkVote 5 2 0 (demo_id 78) (demo_id 1) (time_Unix 1700000000) (demo_sig 4).

Lemma run_forged_inv : hs_inv (run4 [HPacemaker 5 2; HVote demo_clock true run_forged]).
Proof.
  apply hs_inv_calls; [|exact run_start_inv].
  apply Forall_cons; split; [exact I|]. apply Forall_singleton. reflexivity.
Qed.

Lemma forged_vote_blocks_qc_witness :
  exists e hs', formQC (N:=run_node4) demo_clock true (demo_id 78) 5
    (run4 [HPacemaker 5 2; HVote demo_clock true run_forged]) = (Err (HValidation e), hs') /\
    pendingVotes hs' = pendingVotes (run4 [HPacemaker 5 2; HVote demo_clock true run_forged]).
Proof.
  apply (forged_vote_blocks_qc (N:=run_node4) demo_clock true 5 (demo_id 78) (demo_id 1) run_forged _ run_forged_inv).
  - vm_compute. reflexivity.
  - apply (bool_decide_unpack (~ (KeyID (v_Signature run_forged), expected_bytes run_forged) ∈ run_table)).
    vm_compute. exact I.
Defined.

(** A node votes for two blocks in one view. Below view 100 the unsigned
    [currentView - 100] of the cleanup wraps around, so a commit forgets every
    vote sent: from a fresh start, after voting for block 78 in view 5 and
    committing block 77, the node accepts the proposal of block 79 in the same
    view and votes for it. *)
Theorem double_vote_below_view_100 :
  let vote view height block := MkVote view height 0 (demo_id block) (demo_id 4) demo_clock
                                  (MkSig [x01] (demo_id 4) demo_clock) in
  sent_votes (run4 run_two_B) = [vote 5 2 79; vote 5 2 78; vote 4 1 77].
Proof. vm_compute. reflexivity. Qed.

(** Validator 2 leads view 5. Its pacemaker holds a certificate with a repeated
    signer: the proposal carries the one rebuilt from the stored votes. *)
Definition run_node2 : Node := run_node 2 false.
Definition run_bad_qc : QC := MkQC 4 1 0 (demo_id 77) (demo_sig <$> [1; 1; 1]) demo_clock (demo_id 3).
Definition run_turns : nat -> Time * PacemakerReading :=
  fun _ => (demo_clock, MkReading 5 (Some (MessagesQC run_bad_qc)) 0).
Definition run_next : Block := MkBlock 2 (demo_id 80) (demo_id 77) 0 demo_clock.
Abbreviation run_before_5 := (run_hs_calls (N:=run_node2) run_prefix run_start).
Abbreviation run_propose :=
  (CreateProposal (N:=run_node2) true run_next run_turns (fun _ hs => hs) run_before_5).
Definition shape (p : Proposal) : Z * Z * BlockHash * option (list Signature) :=
  (p_View p, p_Height p, ParentHash p, Signatures <$> JustifyQC p).

Lemma run_propose_shape : exists p, run_propose.1 = Ok p /\
  shape p = (5, 2, demo_id 77, Some (demo_sig <$> [1; 2; 3])).
Proof.
  assert (H : option_map shape (match run_propose.1 with Ok p => Some p | Err _ => None end) =
              Some (5, 2, demo_id 77, Some (demo_sig <$> [1; 2; 3]))) by (vm_compute; reflexivity).
  destruct (run_propose.1) as [p|]; [|discriminate H].
  exists p. split; [reflexivity|]. exact (f_equal (default (shape p)) H).
Qed.

Lemma CreateProposal_sound_witness :
  exists p, run_propose.1 = Ok p /\ shape p = (5, 2, demo_id 77, Some (demo_sig <$> [1; 2; 3])) /\
    forall qc, JustifyQC p = Some qc -> qc_valid false (round0 qc).
Proof.
  destruct run_propose_shape as (p & Hp & Hs). exists p. split; [exact Hp|]. split; [exact Hs|].
  assert (Hwf : forall (i : nat) q, pm_highestQC (run_turns i).2 = Some q -> qc_wf (iqc q)).
  { intros i q [= <-]. unfold qc_wf. cbn. repeat constructor. }
  destruct (proj2 (CreateProposal_sound (N:=run_node2) true run_next run_turns (fun _ hs => hs)
    run_before_5 run_propose.2 run_propose.1 Hwf
    (fun _ _ H => H) (hs_inv_calls (N:=run_node2) _ _ run_prefix_wf run_start_inv) (surjective_pairing _)) p Hp)
    as ((i & _ & _ & _ & _ & _ & _ & _ & _ & Hqc) & _).
  intros qc Hj. exact (proj1 (Hqc qc Hj)).
Defined.
