(* ===== verification/GoStrings.v ===== *)
(** Go's [strings.TrimSpace], and [ToLower]/[ToUpper] as far as the modelled code
    needs them, on the bytes of a string. *)
From S2P Require Import Prelude Bytes.

(** The UTF-8 encodings of the code points [unicode.IsSpace] accepts. *)
Definition spaces : list bytes :=
  [[x09]; [x0a]; [x0b]; [x0c]; [x0d]; [x20]; [xc2; x85]; [xc2; xa0]; [xe1; x9a; x80];
   [xe2; x80; x80]; [xe2; x80; x81]; [xe2; x80; x82]; [xe2; x80; x83]; [xe2; x80; x84]; [xe2; x80; x85];
   [xe2; x80; x86]; [xe2; x80; x87]; [xe2; x80; x88]; [xe2; x80; x89]; [xe2; x80; x8a];
   [xe2; x80; xa8]; [xe2; x80; xa9]; [xe2; x80; xaf]; [xe2; x81; x9f]; [xe3; x80; x80]].

Fixpoint strip_prefix (p s : bytes) : option bytes :=
  match p, s with
  | [], _ => Some s
  | x :: p', y :: s' => if byte_val x =? byte_val y then strip_prefix p' s' else None
  | _ :: _, [] => None
  end.

Fixpoint first_stripped (ps : list bytes) (s : bytes) : option bytes :=
  match ps with
  | [] => None
  | p :: ps' => match strip_prefix p s with Some s' => Some s' | None => first_stripped ps' s end
  end.

(** Every turn removes at least one byte, so [length s] turns are enough. *)
Fixpoint trim_left (fuel : nat) (ps : list bytes) (s : bytes) : bytes :=
  match fuel with
  | O => s
  | S fuel' => match first_stripped ps s with Some s' => trim_left fuel' ps s' | None => s end
  end.

Definition TrimSpace (s : bytes) : bytes :=
  let s := trim_left (length s) spaces s in
  reverse (trim_left (length s) (reverse <$> spaces) (reverse s)).

(** On ASCII, and on the two code points outside it whose lower case is in it: the
    Kelvin sign, which becomes k, and the capital I with a dot. The others stay as
    they are: the results are only compared with constants, all in ASCII, whose
    letters are no other code point's upper case. *)
Definition lower_byte (b : byte) : byte :=
  let n := byte_val b in if (65 <=? n) && (n <=? 90) then byte_of (n + 32) else b.
Definition upper_byte (b : byte) : byte :=
  let n := byte_val b in if (97 <=? n) && (n <=? 122) then byte_of (n - 32) else b.
Fixpoint ToLower (s : bytes) : bytes :=
  match s with
  | a :: s1 =>
      match s1 with
      | b :: s2 =>
          if (byte_val a =? 196) && (byte_val b =? 176) then x69 :: ToLower s2
          else match s2 with
          | c :: s3 =>
              if (byte_val a =? 226) && (byte_val b =? 132) && (byte_val c =? 170) then x6b :: ToLower s3
              else lower_byte a :: ToLower s1
          | [] => lower_byte a :: ToLower s1
          end
      | [] => [lower_byte a]
      end
  | [] => []
  end.
Definition ToUpper (s : bytes) : bytes := upper_byte <$> s.

Lemma TrimSpace_examples :
  TrimSpace (str " p0	 ") = str "p0" /\ TrimSpace (xc2 :: xa0 :: str "P1") = str "P1" /\
  TrimSpace (str "  ") = [] /\ ToLower (str "P0") = str "p0" /\
  ToLower (str "BLOC" ++ [xe2; x84; xaa]) = str "block" /\ ToUpper (str "Ed25519") = str "ED25519".
Proof. vm_compute. by split_and!. Qed.

(** [strip_prefix] removes exactly the prefix; a trimmed string starts with no space. *)
Lemma strip_prefix_Some p s r : strip_prefix p s = Some r <-> s = p ++ r.
Proof.
  revert s. induction p as [|x p IH]; intros s; cbn; [naive_solver|].
  destruct s as [|y s]; [split; [done|by intros [=]]|].
  destruct (Z.eqb_spec (byte_val x) (byte_val y)) as [H|H].
  - apply byte_val_inj in H as ->. rewrite IH. split; [by intros ->|by intros [=]].
  - split; [done|]. intros [= -> ->]. by contradict H.
Qed.

Lemma first_stripped_shorter ps s r : [] ∉ ps -> first_stripped ps s = Some r -> (length r < length s)%nat.
Proof.
  induction ps as [|p ps IH]; cbn; [done|]. intros Hn. apply not_elem_of_cons in Hn as [Hp Hn].
  destruct (strip_prefix p s) as [s'|] eqn:H; [|by apply IH].
  intros [= <-]. apply strip_prefix_Some in H as ->. rewrite length_app. destruct p; [done|]. cbn. lia.
Qed.

Lemma trim_left_done fuel ps s : [] ∉ ps -> (length s <= fuel)%nat -> first_stripped ps (trim_left fuel ps s) = None.
Proof.
  intros Hn. revert s. induction fuel as [|fuel IH]; intros s Hl; cbn.
  - destruct s; [|cbn in Hl; lia]. destruct (first_stripped ps []) eqn:H; [|done].
    apply first_stripped_shorter in H; [cbn in H; lia|done].
  - destruct (first_stripped ps s) as [s'|] eqn:H; [|done]. apply IH.
    apply first_stripped_shorter in H; [lia|done].
Qed.
