(* ===== verification/GoJson.v ===== *)
(** Go's [encoding/json] as far as the modelled code uses it: [Unmarshal] into a
    [map[string]any]. The scanner goes through its states byte by byte, with the stack
    of open containers; the decoder unquotes strings, lets the last of two equal keys
    win, and refuses numbers outside the range of a [float64]. *)
From S2P Require Import Prelude Bytes GoTime GoFloat.

Module Json.

(** The values an [any] receives. A number keeps its literal. *)
Inductive json :=
| JNull | JBool (b : bool) | JNumber (literal : bytes) | JString (s : bytes)
| JArray (items : list json) | JObject (members : list (bytes * json)).

(** ** Strings *)

Definition between (lo hi : Z) (b : byte) : bool := (lo <=? byte_val b) && (byte_val b <=? hi).

(** The length of the well-formed UTF-8 sequence a string starts with
    ([utf8.DecodeRune]); [None] is [RuneError] with size 1. *)
Definition utf8_len (s : bytes) : option nat :=
  let cont := between 128 191 in
  match s with
  | [] => None
  | a :: s' =>
      if between 0 127 a then Some 1%nat
      else match s' with
      | b :: s'' =>
          if between 194 223 a && cont b then Some 2%nat
          else match s'' with
          | c :: s3 =>
              let second := if byte_val a =? 224 then between 160 191 b
                            else if byte_val a =? 237 then between 128 159 b else cont b in
              if between 224 239 a && second && cont c then Some 3%nat
              else match s3 with
              | d :: _ =>
                  let second := if byte_val a =? 240 then between 144 191 b
                                else if byte_val a =? 244 then between 128 143 b else cont b in
                  if between 240 244 a && second && cont c && cont d then Some 4%nat else None
              | [] => None
              end
          | [] => None
          end
      | [] => None
      end
  end.

Definition replacement : bytes := [xef; xbf; xbd].

(** [utf8.EncodeRune]. *)
Definition encode_rune (r : Z) : bytes :=
  if r <? 128 then [byte_of r]
  else if r <? 2048 then [byte_of (192 + r / 64); byte_of (128 + r mod 64)]
  else if (55296 <=? r) && (r <? 57344) then replacement
  else if r <? 65536 then [byte_of (224 + r / 4096); byte_of (128 + (r / 64) mod 64); byte_of (128 + r mod 64)]
  else if r <? 1114112 then
    [byte_of (240 + r / 262144); byte_of (128 + (r / 4096) mod 64); byte_of (128 + (r / 64) mod 64); byte_of (128 + r mod 64)]
  else replacement.

Definition hex_value (b : byte) : option Z :=
  if between 48 57 b then Some (byte_val b - 48)
  else if between 97 102 b then Some (byte_val b - 87)
  else if between 65 70 b then Some (byte_val b - 55)
  else None.

(** [getu4]. *)
Definition getu4 (s : bytes) : option Z :=
  match s with
  | bs :: u :: a :: b :: c :: d :: _ =>
      if (byte_val bs =? 92) && (byte_val u =? 117) then
        match hex_value a, hex_value b, hex_value c, hex_value d with
        | Some a, Some b, Some c, Some d => Some (((a * 16 + b) * 16 + c) * 16 + d)
        | _, _, _, _ => None
        end
      else None
  | _ => None
  end.

Definition high_surrogate (r : Z) : bool := (55296 <=? r) && (r <? 56320).
Definition low_surrogate (r : Z) : bool := (56320 <=? r) && (r <? 57344).

(** [unquote] of the characters between the quotes, which the scanner has accepted;
    every turn takes at least one of them. *)
Fixpoint unquote (fuel : nat) (s : bytes) : bytes :=
  match fuel, s with
  | S fuel', c :: s' =>
      if byte_val c =? 92 then
        match s' with
        | [] => []
        | e :: s'' =>
            if byte_val e =? 117 then
              let rest := drop 6 s in
              match getu4 s with
              | None => []
              | Some r =>
                  if high_surrogate r || low_surrogate r then
                    match getu4 rest with
                    | Some r1 =>
                        if high_surrogate r && low_surrogate r1
                        then encode_rune (65536 + (r - 55296) * 1024 + (r1 - 56320)) ++ unquote fuel' (drop 6 rest)
                        else replacement ++ unquote fuel' rest
                    | None => replacement ++ unquote fuel' rest
                    end
                  else encode_rune r ++ unquote fuel' rest
              end
            else
              (if byte_val e =? 98 then x08 else if byte_val e =? 102 then x0c
               else if byte_val e =? 110 then x0a else if byte_val e =? 114 then x0d
               else if byte_val e =? 116 then x09 else e) :: unquote fuel' s''
        end
      else
        match utf8_len s with
        | Some n => take n s ++ unquote fuel' (drop n s)
        | None => replacement ++ unquote fuel' s'
        end
  | _, _ => []
  end.

(** ** The scanner *)

Inductive frame := FArray (rev_items : list json) | FObject (rev_members : list (bytes * json)) (key : bytes).

(** Where the scanner stands; inside a token with the bytes of it read, last first. *)
Inductive position :=
| BeginValue | BeginValueOrEmpty | BeginStringOrEmpty | BeginString | AfterKey | EndValue
| InString (key : bool) (raw : bytes) | InStringEsc (key : bool) (raw : bytes)
| InStringEscU (key : bool) (raw : bytes) (digits : nat)
| InLiteral (rest : bytes) (v : json)
| Neg (raw : bytes) | Zero (raw : bytes) | Digits (raw : bytes) | Dot (raw : bytes) | Frac (raw : bytes)
| Exp (raw : bytes) | ExpSign (raw : bytes) | ExpDigits (raw : bytes).

Record scanner := MkScanner { stack : list frame; position_of : position; result_of : option json }.

Definition maxNestingDepth : nat := 10000.

Definition is_ch (n : Z) (b : byte) : bool := byte_val b =? n.
Definition isSpace (b : byte) : bool := is_ch 32 b || is_ch 9 b || is_ch 10 b || is_ch 13 b.
Definition digit (b : byte) : bool := between 48 57 b.

Definition goto (p : position) (s : scanner) : scanner := MkScanner (stack s) p (result_of s).
Definition push (f : frame) (p : position) (s : scanner) : option scanner :=
  if (length (f :: stack s) <=? maxNestingDepth)%nat then Some (MkScanner (f :: stack s) p (result_of s)) else None.

(** A value is complete. *)
Definition complete (v : json) (s : scanner) : scanner :=
  match stack s with
  | [] => MkScanner [] EndValue (Some v)
  | FArray items :: fs => MkScanner (FArray (v :: items) :: fs) EndValue (result_of s)
  | FObject members key :: fs => MkScanner (FObject ((key, v) :: members) key :: fs) EndValue (result_of s)
  end.

Definition pop (v : json) (fs : list frame) (s : scanner) : scanner := complete v (MkScanner fs EndValue (result_of s)).

Definition end_string (key : bool) (raw : bytes) (s : scanner) : scanner :=
  let str := unquote (length raw) (reverse raw) in
  if key then
    match stack s with
    | FObject members _ :: fs => MkScanner (FObject members str :: fs) AfterKey (result_of s)
    | _ => s
    end
  else complete (JString str) s.

Definition begin_value (s : scanner) (c : byte) : option scanner :=
  if isSpace c then Some s
  else if is_ch 123 c then push (FObject [] []) BeginStringOrEmpty s
  else if is_ch 91 c then push (FArray []) BeginValueOrEmpty s
  else if is_ch 34 c then Some (goto (InString false []) s)
  else if is_ch 45 c then Some (goto (Neg [c]) s)
  else if is_ch 48 c then Some (goto (Zero [c]) s)
  else if is_ch 116 c then Some (goto (InLiteral (str "rue") (JBool true)) s)
  else if is_ch 102 c then Some (goto (InLiteral (str "alse") (JBool false)) s)
  else if is_ch 110 c then Some (goto (InLiteral (str "ull") JNull) s)
  else if digit c then Some (goto (Digits [c]) s)
  else None.

Definition end_value (s : scanner) (c : byte) : option scanner :=
  if isSpace c then Some s
  else
    match stack s with
    | [] => None
    | FArray items :: fs =>
        if is_ch 44 c then Some (goto BeginValue s)
        else if is_ch 93 c then Some (pop (JArray (reverse items)) fs s)
        else None
    | FObject members _ :: fs =>
        if is_ch 44 c then Some (goto BeginString s)
        else if is_ch 125 c then Some (pop (JObject (reverse members)) fs s)
        else None
    end.

(** A number ends before [c]. *)
Definition end_number (raw : bytes) (s : scanner) (c : byte) : option scanner :=
  end_value (complete (JNumber (reverse raw)) s) c.

Definition exponent (raw : bytes) (s : scanner) (c : byte) : option scanner :=
  if is_ch 101 c || is_ch 69 c then Some (goto (Exp (c :: raw)) s) else end_number raw s c.

Definition step (s : scanner) (c : byte) : option scanner :=
  match position_of s with
  | BeginValue => begin_value s c
  | BeginValueOrEmpty =>
      if is_ch 93 c then
        match stack s with FArray _ :: fs => Some (pop (JArray []) fs s) | _ => None end
      else begin_value s c
  | BeginStringOrEmpty =>
      if isSpace c then Some s
      else if is_ch 125 c then
        match stack s with FObject _ _ :: fs => Some (pop (JObject []) fs s) | _ => None end
      else if is_ch 34 c then Some (goto (InString true []) s) else None
  | BeginString =>
      if isSpace c then Some s else if is_ch 34 c then Some (goto (InString true []) s) else None
  | AfterKey => if isSpace c then Some s else if is_ch 58 c then Some (goto BeginValue s) else None
  | EndValue => end_value s c
  | InString key raw =>
      if is_ch 34 c then Some (end_string key raw s)
      else if is_ch 92 c then Some (goto (InStringEsc key (c :: raw)) s)
      else if byte_val c <? 32 then None
      else Some (goto (InString key (c :: raw)) s)
  | InStringEsc key raw =>
      if is_ch 117 c then Some (goto (InStringEscU key (c :: raw) 4) s)
      else if is_ch 98 c || is_ch 102 c || is_ch 110 c || is_ch 114 c || is_ch 116 c || is_ch 92 c || is_ch 47 c || is_ch 34 c
      then Some (goto (InString key (c :: raw)) s)
      else None
  | InStringEscU key raw n =>
      match hex_value c, n with
      | Some _, S (S n') => Some (goto (InStringEscU key (c :: raw) (S n')) s)
      | Some _, _ => Some (goto (InString key (c :: raw)) s)
      | None, _ => None
      end
  | InLiteral rest v =>
      match rest with
      | [b] => if is_ch (byte_val b) c then Some (complete v s) else None
      | b :: rest' => if is_ch (byte_val b) c then Some (goto (InLiteral rest' v) s) else None
      | [] => None
      end
  | Neg raw =>
      if is_ch 48 c then Some (goto (Zero (c :: raw)) s)
      else if digit c then Some (goto (Digits (c :: raw)) s) else None
  | Digits raw =>
      if digit c then Some (goto (Digits (c :: raw)) s)
      else if is_ch 46 c then Some (goto (Dot (c :: raw)) s) else exponent raw s c
  | Zero raw => if is_ch 46 c then Some (goto (Dot (c :: raw)) s) else exponent raw s c
  | Dot raw => if digit c then Some (goto (Frac (c :: raw)) s) else None
  | Frac raw => if digit c then Some (goto (Frac (c :: raw)) s) else exponent raw s c
  | Exp raw =>
      if is_ch 43 c || is_ch 45 c then Some (goto (ExpSign (c :: raw)) s)
      else if digit c then Some (goto (ExpDigits (c :: raw)) s) else None
  | ExpSign raw => if digit c then Some (goto (ExpDigits (c :: raw)) s) else None
  | ExpDigits raw => if digit c then Some (goto (ExpDigits (c :: raw)) s) else end_number raw s c
  end.

Fixpoint scan (s : scanner) (data : bytes) : option scanner :=
  match data with [] => Some s | c :: data' => s' ← step s c; scan s' data' end.

(** At the end of the input a space is fed, which ends a number. *)
Definition parse (data : bytes) : option json :=
  s ← scan (MkScanner [] BeginValue None) data;
  s ← step s x20;
  match position_of s, stack s with EndValue, [] => result_of s | _, _ => None end.

(** ** Numbers *)

Definition digits_value (l : bytes) : Z := foldl (fun n b => n * 10 + (byte_val b - 48)) 0 l.
(** The exponent as [strconv] accumulates it: it stops growing at 10000. *)
Definition exponent_value (l : bytes) : Z :=
  foldl (fun n b => if n <? 10000 then n * 10 + (byte_val b - 48) else n) 0 l.

Fixpoint span (p : byte -> bool) (l : bytes) : bytes * bytes :=
  match l with
  | [] => ([], [])
  | b :: l' => if p b then let '(x, y) := span p l' in (b :: x, y) else ([], l)
  end.

(** The number a literal denotes, [m * 10 ^ e] after its sign. *)
Definition decimal (literal : bytes) : Z * Z :=
  let l := match literal with b :: l' => if is_ch 45 b then l' else literal | [] => [] end in
  let '(int, l) := span digit l in
  let '(frac, l) := match l with b :: l' => if is_ch 46 b then span digit l' else ([], l) | [] => ([], []) end in
  let e := match l with
           | [] => 0
           | _ :: l' =>
               match l' with
               | b :: l'' =>
                   if is_ch 45 b then - exponent_value l'' else if is_ch 43 b then exponent_value l'' else exponent_value l'
               | [] => 0
               end
           end in
  (digits_value (int ++ frac), e - Z.of_nat (length frac)).

(** [strconv.ParseFloat(literal, 64)] succeeds: the number rounds to a finite one. *)
Definition in_float_range (literal : bytes) : bool :=
  let '(m, e) := decimal literal in
  let bound := 2 ^ 1024 - 2 ^ 970 in
  if 0 <=? e then m * 10 ^ e <? bound else m <? bound * 10 ^ (- e).

(** What it returns then: the nearest number, a quotient of two integers rounded once. *)
Definition float_of_decimal (negative : bool) (m e : Z) : float64 :=
  match m with
  | Zpos p =>
      if 0 <=? e then f_of_Z ((if negative then Zneg p else Zpos p) * 10 ^ e)
      else SFdiv 53 1024 (S754_finite negative p 0) (S754_finite false (Z.to_pos (10 ^ (- e))) 0)
  | _ => S754_zero negative
  end.
Definition ParseFloat (literal : bytes) : option float64 :=
  if in_float_range literal then
    let '(m, e) := decimal literal in
    Some (float_of_decimal (match literal with b :: _ => is_ch 45 b | [] => false end) m e)
  else None.

Fixpoint numbers_ok (v : json) : bool :=
  match v with
  | JNumber l => in_float_range l
  | JArray l => forallb numbers_ok l
  | JObject ms => forallb (fun kv => match kv with (_, v) => numbers_ok v end) ms
  | _ => true
  end.

(** ** Unmarshal *)

(** The map an object becomes: the last of several equal keys wins. *)
Definition go_map (members : list (bytes * json)) : gmap bytes json := list_to_map (reverse members).

(** [json.Unmarshal(data, &m)] for a [map[string]any] that was nil; a [null] leaves
    it nil, which reads like the empty map. *)
Definition Unmarshal_map (data : bytes) : option (gmap bytes json) :=
  match parse data with
  | Some v =>
      if numbers_ok v then
        match v with JObject ms => Some (go_map ms) | JNull => Some ∅ | _ => None end
      else None
  | None => None
  end.

(** [m[key].(string)] and [m[key].(map[string]any)]. *)
Definition get_string (m : gmap bytes json) (key : bytes) : option bytes :=
  match m !! key with Some (JString s) => Some s | _ => None end.
Definition get_map (m : gmap bytes json) (key : bytes) : option (gmap bytes json) :=
  match m !! key with Some (JObject ms) => Some (go_map ms) | _ => None end.

(** [m[key].(float64)]; the numbers of a decoded map are all in range. *)
Definition get_float (m : gmap bytes json) (key : bytes) : option float64 :=
  match m !! key with Some (JNumber l) => ParseFloat l | _ => None end.

(** [foldName] of a field's name in lower case and of a key agree: the letters of ASCII
    in either case, and the two code points outside it that fold into it, the long s and
    the Kelvin sign. *)
Fixpoint fold_key (s : bytes) : bytes :=
  match s with
  | [] => []
  | a :: s1 =>
      let low := let n := byte_val a in if (65 <=? n) && (n <=? 90) then byte_of (n + 32) else a in
      match s1 with
      | b :: s2 =>
          if (byte_val a =? 197) && (byte_val b =? 191) then x73 :: fold_key s2
          else match s2 with
          | c :: s3 =>
              if (byte_val a =? 226) && (byte_val b =? 132) && (byte_val c =? 170) then x6b :: fold_key s3
              else low :: fold_key s1
          | [] => low :: fold_key s1
          end
      | [] => [low]
      end
  end.

(** [json.Unmarshal] of the members of an object into the fields of a struct that are
    pointers to [float64], all nil at first: a number sets the field, a [null] resets it,
    and any other value, or a number out of range, is an error. Members without a field
    are skipped. *)
Definition set_float_field (fields : list bytes) (acc : option (gmap bytes float64)) (member : bytes * json)
  : option (gmap bytes float64) :=
  m ← acc;
  let name := fold_key member.1 in
  if bool_decide (name ∈ fields) then
    match member.2 with
    | JNull => Some (delete name m)
    | JNumber l => (fun x => <[name := x]> m) <$> ParseFloat l
    | _ => None
    end
  else Some m.
Definition Unmarshal_floats (fields : list bytes) (data : bytes) : option (gmap bytes float64) :=
  match parse data with
  | Some (JObject ms) => foldl (set_float_field fields) (Some ∅) ms
  | Some JNull => Some ∅
  | _ => None
  end.

(** ** Examples *)

Example parse_floats :
  ParseFloat (str "0.1") = Some (f_div (f_of_Z 1) (f_of_Z 10)) /\
  ParseFloat (str "-2.5e2") = Some (f_of_Z (-250)) /\
  ParseFloat (str "9007199254740993") = Some (f_of_Z 9007199254740992) /\
  ParseFloat (str "5e-324") = Some (S754_finite false 1 (-1074)) /\
  ParseFloat (str "1.7976931348623157e308") = Some (S754_finite false (2 ^ 53 - 1)%positive 971) /\
  ParseFloat (str "1e400") = None.
Proof. split_and!; vm_compute; reflexivity. Qed.

Definition quoted (s : string) : bytes := (fun b => if is_ch 39 b then x22 else b) <$> str s.

Example parse_values :
  parse (quoted " { 'a' : [1, -0.5e+3, true, null], 'b' : {} } ") =
    Some (JObject [(str "a", JArray [JNumber (str "1"); JNumber (str "-0.5e+3"); JBool true; JNull]); (str "b", JObject [])]) /\
  parse (quoted "'x\u0041\ud83d\ude00\n\ud83d'") = Some (JString (str "xA" ++ [xf0; x9f; x98; x80; x0a] ++ replacement)) /\
  parse (x22 :: xff :: [x22]) = Some (JString replacement) /\
  (parse <$> [quoted "[1,]"; quoted "{'a':1,}"; quoted "01"; quoted "1 2"; quoted "'a"; quoted "{'a'}"; []; quoted "nul"; quoted "-"])
    = replicate 9 None.
Proof. split_and!; vm_compute; reflexivity. Qed.

Example unmarshal_maps :
  (m ← Unmarshal_map (quoted "{'k':'a','k':'b'}"); get_string m (str "k")) = Some (str "b") /\
  Unmarshal_map (quoted "{'k':1e309}") = None /\ (numbers_ok <$> parse (quoted "[1.7e308]")) = Some true /\
  Unmarshal_map (quoted "[1]") = None /\ Unmarshal_map (quoted "null") = Some ∅.
Proof. split_and!; vm_compute; reflexivity. Qed.

Definition two_fields (s : string) : option (option float64 * option float64) :=
  (fun m => (m !! str "severity", m !! str "confidence")) <$> Unmarshal_floats [str "severity"; str "confidence"] (quoted s).
Example unmarshal_floats :
  two_fields "{'Severity':5,'x':1e999,'confidence':1,'SEVERITY':7}" = Some (Some (f_of_Z 7), Some (f_of_Z 1)) /\
  two_fields "{'severity':5,'severity':null}" = Some (None, None) /\ two_fields "{'severity':'5'}" = None.
Proof. vm_compute. by split_and!. Qed.

End Json.
