(* ===== verification/GoText.v ===== *)
(** What the enforcement agent uses of Go's [strconv], [fmt], [strings] and [time] to
    read numbers and to write texts. *)
From stdpp Require Import pretty.
From S2P Require Import Prelude Bytes GoTime GoFloat GoStrings GoJson.
Import Json.
Local Open Scope Z_scope.

(** ** [strings] *)

Fixpoint has_substring (p s : bytes) : bool :=
  match strip_prefix p s with
  | Some _ => true
  | None => match s with [] => false | _ :: s' => has_substring p s' end
  end.
(** [strings.Contains] with a constant. *)
Definition contains (s : bytes) (p : string) : bool := has_substring (str p) s.

Definition Join (sep : bytes) (l : list bytes) : bytes :=
  match l with [] => [] | s :: l' => s ++ concat ((fun x => sep ++ x) <$> l') end.
Definition join (l : list bytes) (sep : string) : bytes := Join (str sep) l.

Definition lower_trim (s : bytes) : bytes := ToLower (TrimSpace s).
(** [strings.EqualFold], case outside ASCII left aside but for the two code points that fold into it. *)
Definition EqualFold (a b : bytes) : bool := bool_decide (fold_key a = fold_key b).
Definition sort_strings (l : list bytes) : list bytes := merge_sort bytes_le l.

(** ** [strconv] *)

Definition Itoa (n : Z) : bytes := str (pretty n).

(** [strconv.ParseInt(s, 10, 64)]. *)
Definition ParseInt (s : bytes) : option Z :=
  let '(neg, digits) := match s with
                        | b :: s' => if is_ch 45 b then (true, s') else if is_ch 43 b then (false, s') else (false, s)
                        | [] => (false, [])
                        end in
  if bool_decide (digits = []) || negb (forallb digit digits) then None
  else
    let n := (if neg : bool then -1 else 1) * digits_value digits in
    if (MinInt64 <=? n) && (n <=? MaxInt64) then Some n else None.

Definition hex_digit_byte (b : byte) : bool := match hex_value b with Some _ => true | None => false end.
Definition hex_digits_value (l : bytes) : Z := foldl (fun n b => n * 16 + default 0 (hex_value b)) 0 l.

(** [underscoreOK] of a text without its sign; [prev] is the kind of the byte before:
    ["0"] a digit or the prefix, ["_"] an underscore, ["!"] something else. *)
Inductive underscore_state := AfterDigit | AfterUnderscore | AfterOther | AtStart.
Fixpoint underscore_loop (hexadecimal : bool) (s : bytes) (prev : underscore_state) : bool :=
  match s with
  | [] => match prev with AfterUnderscore => false | _ => true end
  | b :: s' =>
      if digit b || hexadecimal && hex_digit_byte b then underscore_loop hexadecimal s' AfterDigit
      else if is_ch 95 b then match prev with AfterDigit => underscore_loop hexadecimal s' AfterUnderscore | _ => false end
      else match prev with AfterUnderscore => false | _ => underscore_loop hexadecimal s' AfterOther end
  end.
Definition underscoreOK (s : bytes) : bool :=
  match s with
  | z :: x :: s' =>
      let l := lower_byte x in
      if is_ch 48 z && (is_ch 98 l || is_ch 111 l || is_ch 120 l) then underscore_loop (is_ch 120 l) s' AfterDigit
      else underscore_loop false s AtStart
  | _ => underscore_loop false s AtStart
  end.

Definition no_underscores (s : bytes) : bytes := filter (fun b => is_ch 95 b = false) s.
Definition has_underscore (s : bytes) : bool := existsb (is_ch 95) s.

(** The parts of a number: the digits before and after the point and the exponent. *)
Definition split_number (is_digit : byte -> bool) (expChar : Z) (s : bytes) : option (bytes * bytes * option Z) :=
  let part := span (fun b => is_digit b || is_ch 95 b) in
  let '(int, s) := part s in
  let '(frac, s) := match s with b :: s' => if is_ch 46 b then part s' else ([], s) | [] => ([], []) end in
  let int := no_underscores int in let frac := no_underscores frac in
  if bool_decide (int ++ frac = []) then None
  else match s with
  | [] => Some (int, frac, None)
  | b :: s =>
      if is_ch expChar (lower_byte b) then
        let '(neg, s) := match s with c :: s' => if is_ch 45 c then (true, s') else if is_ch 43 c then (false, s') else (false, s) | [] => (false, []) end in
        match s with
        | c :: _ =>
            if digit c && forallb (fun b => digit b || is_ch 95 b) s then
              let e := exponent_value (no_underscores s) in Some (int, frac, Some (if neg : bool then - e else e))
            else None
        | [] => None
        end
      else None
  end.

Definition is_finite (a : float64) : bool := match a with S754_zero _ | S754_finite _ _ _ => true | _ => false end.

(** [strconv.ParseFloat(s, 64)] without an error: the special values, decimal and
    hexadecimal numbers; what rounds beyond the largest number is an error. *)
Definition parse_unsigned (neg : bool) (s : bytes) : option float64 :=
  let hexadecimal := match s with z :: x :: _ :: _ => is_ch 48 z && is_ch 120 (lower_byte x) | _ => false end in
  if has_underscore s && negb (underscoreOK s) then None
  else if hexadecimal then
    '(int, frac, e) ← split_number hex_digit_byte 112 (drop 2 s);
    e ← e;
    let m := hex_digits_value (int ++ frac) in
    let x := if m =? 0 then S754_zero neg else binary_normalize 53 1024 (if neg then - m else m) (e - 4 * len frac) neg in
    if is_finite x then Some x else None
  else
    '(int, frac, e) ← split_number digit 101 s;
    let m := digits_value (int ++ frac) in
    let x := float_of_decimal neg m (default 0 e - len frac) in
    if is_finite x then Some x else None.
Definition ParseFloat_text (s : bytes) : option float64 :=
  let '(neg, u) := match s with
                   | b :: s' => if is_ch 45 b then (true, s') else if is_ch 43 b then (false, s') else (false, s)
                   | [] => (false, [])
                   end in
  let low := lower_byte <$> u in
  if bool_decide (low = str "inf" \/ low = str "infinity") then Some (S754_infinity neg)
  else if bool_decide ((lower_byte <$> s) = str "nan") then Some S754_nan
  else parse_unsigned neg u.

(** ** [time] *)

Definition pad (n : nat) (s : bytes) : bytes := replicate (n - length s) x30 ++ s.
Definition two_digits (n : Z) : bytes := pad 2 (Itoa n).

(** The date of a day counted from January 1, year 1. *)
Definition civil (days : Z) : Z * Z * Z :=
  let z := days + 306 in
  let era := z / 146097 in
  let doe := z mod 146097 in
  let yoe := (doe - doe / 1460 + doe / 36524 - doe / 146096) / 365 in
  let doy := doe - (365 * yoe + yoe / 4 - yoe / 100) in
  let mp := (5 * doy + 2) / 153 in
  let d := doy - (153 * mp + 2) / 5 + 1 in
  let m := if mp <? 10 then mp + 3 else mp - 9 in
  ((if m <=? 2 then yoe + era * 400 + 1 else yoe + era * 400), m, d).

Definition trim_zeros (s : bytes) : bytes := reverse (span (is_ch 48) (reverse s)).2.
(** [.] and the digits of a fraction without its final zeros. *)
Definition fraction (digits : nat) (n : Z) : bytes :=
  match trim_zeros (pad digits (Itoa n)) with [] => [] | f => x2e :: f end.

Definition date_time (t : Time) : bytes :=
  let '(y, m, d) := civil (t_sec t / 86400) in
  let s := t_sec t mod 86400 in
  pad 4 (Itoa y) ++ str "-" ++ two_digits m ++ str "-" ++ two_digits d ++ str "T" ++ two_digits (s / 3600) ++ str ":" ++
  two_digits (s / 60 mod 60) ++ str ":" ++ two_digits (s mod 60).
(** [t.Format(time.RFC3339)] and [time.RFC3339Nano] of a time in UTC. *)
Definition RFC3339 (t : Time) : bytes := date_time t ++ str "Z".
Definition RFC3339Nano (t : Time) : bytes := date_time t ++ fraction 9 (t_nsec t) ++ str "Z".

(** [d.String()]. *)
Definition Duration_String (d : Z) : bytes :=
  let u := Z.abs d in
  let text :=
    if u =? 0 then str "0s"
    else if u <? 1000 then Itoa u ++ str "ns"
    else if u <? Millisecond then Itoa (u / 1000) ++ fraction 3 (u mod 1000) ++ [xc2; xb5; x73]
    else if u <? Second then Itoa (u / Millisecond) ++ fraction 6 (u mod Millisecond) ++ str "ms"
    else
      let s := u / Second in
      let secs := Itoa (s mod 60) ++ fraction 9 (u mod Second) ++ str "s" in
      let m := s / 60 in
      if m =? 0 then secs
      else let mins := Itoa (m mod 60) ++ str "m" ++ secs in if m / 60 =? 0 then mins else Itoa (m / 60) ++ str "h" ++ mins in
  if d <? 0 then x2d :: text else text.

(** ** Examples *)

Example parse_ints :
  (ParseInt ∘ str <$> ["0"; "-5"; "+7"; "007"; "9223372036854775807"; "-9223372036854775808"; "9223372036854775808"; ""; "-"; "1_0"; "1.5"])
  = [Some 0; Some (-5); Some 7; Some 7; Some MaxInt64; Some MinInt64; None; None; None; None; None].
Proof. by vm_compute. Qed.

Example parse_float_texts :
  (ParseFloat_text ∘ str <$> ["0.5"; ".5"; "5e-1"; "0x1p-1"; "0x.8p0"; "0_5e-1"; "+0.5"]) = replicate 7 (Some (f_div (f_of_Z 1) (f_of_Z 2))) /\
  (ParseFloat_text ∘ str <$> ["1."; "1_000"; "-0"; "inf"; "-Infinity"; "NaN"; "0x10p0"]) =
    [Some (f_of_Z 1); Some (f_of_Z 1000); Some (S754_zero true); Some (S754_infinity false); Some (S754_infinity true); Some S754_nan;
     Some (f_of_Z 16)] /\
  (ParseFloat_text ∘ str <$> [""; "."; "e5"; "1e"; "1e+"; "1__0"; "_1"; "1_"; "1e400"; "0x1"; "0x1p5000"; "+nan"; "1.2.3"; "abc"])
    = replicate 14 None.
Proof. vm_compute. by split_and!. Qed.

Example format_times :
  RFC3339 (time_Unix 1700000000) = str "2023-11-14T22:13:20Z" /\ RFC3339 (time_Unix 951782400) = str "2000-02-29T00:00:00Z" /\
  RFC3339 zero_time = str "0001-01-01T00:00:00Z" /\ RFC3339Nano (Add (time_Unix 1700000000) 120000000) = str "2023-11-14T22:13:20.12Z" /\
  (Duration_String <$> [0; 5; 1500; 2 * Millisecond; Second; 90 * Second; 10 * Minute; 3661 * Second + 500000000; - Minute]) =
  [str "0s"; str "5ns"; str "1.5" ++ [xc2; xb5; x73]; str "2ms"; str "1s"; str "1m30s"; str "10m0s"; str "1h1m1.5s"; str "-1m0s"].
Proof. vm_compute. by split_and!. Qed.

Example strings_texts :
  contains (str "context deadline exceeded") "deadline" = true /\ contains (str "dead") "deadline" = false /\
  join [str "a"; str "b"; str "c"] "|" = str "a|b|c" /\ join [] "|" = [] /\ lower_trim (str " Ab ") = str "ab" /\
  EqualFold (str "ReMove") (str "remove") = true.
Proof. vm_compute. by split_and!. Qed.
