(* ===== verification/GoNet.v ===== *)
(** What the enforcement agent uses of Go's [net] and [net/netip]: addresses and prefixes
    of both families, read from their text. *)
From S2P Require Import Prelude Bytes GoTime GoFloat GoStrings GoJson GoText.
Import Json.
Local Open Scope Z_scope.

(** [netip.Addr]. An IPv4 address within IPv6 is one of IPv6. *)
Inductive Addr := V4 (n : Z) | V6 (n : Z) (zone : bytes).
#[export] Instance Addr_eq_dec : EqDecision Addr.
Proof. solve_decision. Defined.

Definition zone_of (a : Addr) : bytes := match a with V4 _ => [] | V6 _ z => z end.
Definition BitLen (a : Addr) : Z := match a with V4 _ => 32 | V6 _ _ => 128 end.
Definition bits_of (a : Addr) : Z := match a with V4 n | V6 n _ => n end.

(** ** [ParseAddr] *)

(** [parseIPv4Fields]: the loop over the rest of the text; [last] is the byte before it,
    none at the start. *)
Fixpoint ipv4_loop (s : bytes) (last : option byte) (val : Z) (digLen : nat) (fields : list Z) : option (list Z) :=
  match s with
  | [] => if Nat.eqb (length fields) 3 then Some (fields ++ [val]) else None
  | b :: s' =>
      if digit b then
        if Nat.eqb digLen 1 && (val =? 0) then None
        else
          let val := val * 10 + (byte_val b - 48) in
          if 255 <? val then None else ipv4_loop s' (Some b) val (S digLen) fields
      else if is_ch 46 b then
        if match last with None => true | Some l => is_ch 46 l end || bool_decide (s' = []) then None
        else if Nat.eqb (length fields) 3 then None
        else ipv4_loop s' (Some b) 0 0 (fields ++ [val])
      else None
  end.
Definition parseIPv4Fields (s : bytes) : option (list Z) := ipv4_loop s None 0 0 [].
Definition octets_value (l : list Z) : Z := foldl (fun n x => n * 256 + x) 0 l.
Definition parseIPv4 (s : bytes) : option Addr := (fun l => V4 (octets_value l)) <$> parseIPv4Fields s.

(** A group of hexadecimal digits, with the rest. *)
Fixpoint hex_group (s : bytes) (off : nat) (acc : Z) : option (nat * Z * bytes) :=
  match s with
  | b :: s' =>
      match hex_value b with
      | Some d => if Nat.ltb 3 off then None else hex_group s' (S off) (acc * 16 + d)
      | None => Some (off, acc, s)
      end
  | [] => Some (off, acc, [])
  end.

(** The groups read so far, as bytes in order, and where the ellipsis was. *)
Record ipv6_state := MkV6 { v6_bytes : list Z; v6_ellipsis : option nat; v6_rest : bytes }.

(** The loop of [parseIPv6]; every turn adds two bytes of sixteen. *)
Fixpoint ipv6_loop (fuel : nat) (st : ipv6_state) : option ipv6_state :=
  match fuel with
  | O => Some st
  | S fuel' =>
      let '(MkV6 ip ellipsis s) := st in
      if Nat.leb 16 (length ip) then Some st
      else
        '(off, acc, rest) ← hex_group s 0 0;
        if Nat.eqb off 0 then None
        else if match rest with b :: _ => is_ch 46 b | [] => false end then
          if bool_decide (ellipsis = None) && negb (Nat.eqb (length ip) 12) then None
          else if Nat.ltb 16 (length ip + 4) then None
          else l ← parseIPv4Fields s; Some (MkV6 (ip ++ l) ellipsis [])
        else
          let ip := ip ++ [acc / 256; acc mod 256] in
          match rest with
          | [] => Some (MkV6 ip ellipsis [])
          | c :: rest =>
              if negb (is_ch 58 c) then None
              else match rest with
              | [] => None
              | c :: rest' =>
                  if is_ch 58 c then
                    if bool_decide (ellipsis = None) then
                      match rest' with
                      | [] => Some (MkV6 ip (Some (length ip)) [])
                      | _ => ipv6_loop fuel' (MkV6 ip (Some (length ip)) rest')
                      end
                    else None
                  else ipv6_loop fuel' (MkV6 ip ellipsis rest)
              end
          end
  end.

(** The zeros an ellipsis stands for, at least one group. *)
Definition expand_ellipsis (st : ipv6_state) : option (list Z) :=
  let '(MkV6 ip ellipsis rest) := st in
  match rest with
  | _ :: _ => None
  | [] =>
      if Nat.ltb (length ip) 16 then
        e ← ellipsis; Some (take e ip ++ replicate (16 - length ip) 0 ++ drop e ip)
      else if bool_decide (ellipsis = None) then Some ip else None
  end.

Definition parseIPv6 (s : bytes) : option Addr :=
  let '(s, zone) := span (fun b => negb (is_ch 37 b)) s in
  match zone with
  | [_] => None
  | _ =>
      let zone := drop 1 zone in
      let st := match s with
                | a :: b :: s' => if is_ch 58 a && is_ch 58 b then MkV6 [] (Some 0%nat) s' else MkV6 [] None s
                | _ => MkV6 [] None s
                end in
      if bool_decide (v6_ellipsis st <> None) && bool_decide (v6_rest st = []) then Some (V6 0 zone)
      else ip ← (st ← ipv6_loop 8 st; expand_ellipsis st); Some (V6 (octets_value ip) zone)
  end.

Fixpoint first_separator (s : bytes) : option byte :=
  match s with
  | [] => None
  | b :: s' => if is_ch 46 b || is_ch 58 b || is_ch 37 b then Some b else first_separator s'
  end.
Definition ParseAddr (s : bytes) : option Addr :=
  match first_separator s with
  | Some b => if is_ch 46 b then parseIPv4 s else if is_ch 58 b then parseIPv6 s else None
  | None => None
  end.

(** [net.ParseIP(s) != nil]. *)
Definition ParseIP (s : bytes) : bool := match ParseAddr s with Some a => bool_decide (zone_of a = []) | None => false end.

(** ** Prefixes *)

(** [dtoi], which stops at the first other byte and at [0xFFFFFF]. *)
Fixpoint dtoi_loop (s : bytes) (n : Z) : option (Z * bytes) :=
  match s with
  | b :: s' => if digit b then let n := n * 10 + (byte_val b - 48) in if 16777215 <=? n then None else dtoi_loop s' n else Some (n, s)
  | [] => Some (n, [])
  end.
Definition dtoi (s : bytes) : option (Z * bytes) :=
  match s with b :: _ => if digit b then dtoi_loop s 0 else None | [] => None end.

(** [net.ParseCIDR]: the size of the mask, all the agent asks for. *)
Definition ParseCIDR (s : bytes) : option Z :=
  match span (fun b => negb (is_ch 47 b)) s with
  | (addr, _ :: mask) =>
      a ← ParseAddr addr;
      '(n, rest) ← dtoi mask;
      if bool_decide (zone_of a = []) && bool_decide (rest = []) && (n <=? BitLen a) then Some n else None
  | (_, []) => None
  end.

Record Prefix := MkPrefix { px_ip : Addr; px_bits : Z }.
#[export] Instance Prefix_eq_dec : EqDecision Prefix.
Proof. solve_decision. Defined.

(** [netip.ParsePrefix]: the last slash splits, and the bits have no sign and no leading zero. *)
Definition ParsePrefix (s : bytes) : option Prefix :=
  match span (fun b => negb (is_ch 47 b)) (reverse s) with
  | (rev_bits, _ :: rev_addr) =>
      let bitsStr := reverse rev_bits in
      a ← ParseAddr (reverse rev_addr);
      if bool_decide (zone_of a <> []) || bool_decide (bitsStr = []) || negb (forallb digit bitsStr) then None
      else if (1 <? len bitsStr) && match bitsStr with b :: _ => is_ch 48 b | [] => false end then None
      else if digits_value bitsStr <=? BitLen a then Some (MkPrefix a (digits_value bitsStr)) else None
  | (_, []) => None
  end.

Definition same_family (a b : Addr) : bool := BitLen a =? BitLen b.
(** The addresses agree on their first [bits] bits. *)
Definition agree (bits : Z) (a b : Addr) : bool :=
  bits_of a / 2 ^ (BitLen a - bits) =? bits_of b / 2 ^ (BitLen b - bits).
Definition Contains (p : Prefix) (a : Addr) : bool :=
  bool_decide (zone_of a = []) && same_family (px_ip p) a && agree (px_bits p) (px_ip p) a.
Definition Overlaps (p o : Prefix) : bool :=
  same_family (px_ip p) (px_ip o) && agree (Z.min (px_bits p) (px_bits o)) (px_ip p) (px_ip o).

(** ** [String] *)

Definition dotted (n : Z) : bytes := join ((fun k => Itoa (n / 2 ^ k mod 256)) <$> [24; 16; 8; 0]) ".".
Definition hex16 (n : Z) : bytes :=
  let d k := hex_digit (n / 16 ^ k mod 16) in
  if n <? 16 then [d 0] else if n <? 256 then [d 1; d 0] else if n <? 4096 then [d 2; d 1; d 0] else [d 3; d 2; d 1; d 0].
Definition groups (n : Z) : list Z := (fun k => n / 2 ^ k mod 65536) <$> [112; 96; 80; 64; 48; 32; 16; 0].
Fixpoint zero_run (l : list Z) : nat := match l with 0 :: l' => S (zero_run l') | _ => 0 end.
(** The first longest run of at least two zero groups, by its start and length. *)
Definition longest_run (l : list Z) : option (nat * nat) :=
  foldl (fun best i =>
    let n := zero_run (drop i l) in
    if Nat.leb 2 n && match best with Some (_, m) => Nat.ltb m n | None => true end then Some (i, n) else best) None (seq 0 8).
Definition hex_groups (l : list Z) : bytes := join (hex16 <$> l) ":".
Definition Addr_String (a : Addr) : bytes :=
  match a with
  | V4 n => dotted n
  | V6 n zone =>
      let l := groups n in
      let text :=
        if n / 2 ^ 32 =? 65535 then str "::ffff:" ++ dotted n
        else match longest_run l with
        | Some (i, k) => hex_groups (take i l) ++ str "::" ++ hex_groups (drop (i + k) l)
        | None => hex_groups l
        end in
      match zone with [] => text | _ => text ++ str "%" ++ zone end
  end.
Definition Prefix_String (p : Prefix) : bytes := Addr_String (px_ip p) ++ str "/" ++ Itoa (px_bits p).

(** ** Examples *)

Example parse_addresses :
  (ParseAddr ∘ str <$> ["10.0.0.1"; "0.0.0.0"; "255.255.255.255"]) = [Some (V4 167772161); Some (V4 0); Some (V4 4294967295)] /\
  (ParseAddr ∘ str <$> ["::1"; "::"; "1::"; "fe80::1%eth0"; "::ffff:10.0.0.1"; "1:2:3:4:5:6:7:8"]) =
    [Some (V6 1 []); Some (V6 0 []); Some (V6 (2 ^ 112) []); Some (V6 (65152 * 2 ^ 112 + 1) (str "eth0"));
     Some (V6 (65535 * 2 ^ 32 + 167772161) []); Some (V6 5192455318486707404433266433261576 [])] /\
  (ParseAddr ∘ str <$> ["010.0.0.1"; "1.2.3"; "1.2.3.4.5"; "1..2.3"; "256.1.1.1"; ""; "1:2:3:4:5:6:7"; "1:2:3:4:5:6:7:8::"; ":::";
                        "1::2::3"; "12345::"; "::1%"; "1:2:3:4:5:6:7:8:9"; "1:"; "::1.2.3"; "a"]) = replicate 16 None /\
  ParseIP (str "fe80::1%eth0") = false /\ ParseIP (str "fe80::1") = true.
Proof. vm_compute. by split_and!. Qed.

Example parse_prefixes :
  (ParseCIDR ∘ str <$> ["10.0.0.0/8"; "10.0.0.0/08"; "::/0"; "10.0.0.0/33"; "10.0.0.0"; "10.0.0.0/"; "10.0.0.0/8/8"; "10.0.0.0/+8"]) =
    [Some 8; Some 8; Some 0; None; None; None; None; None] /\
  (ParsePrefix ∘ str <$> ["10.0.0.0/8"; "::/0"; "10.0.0.0/08"; "10.0.0.0/33"; "10.0.0.0/+8"; "10.0.0.0/"]) =
    [Some (MkPrefix (V4 167772160) 8); Some (MkPrefix (V6 0 []) 0); None; None; None; None].
Proof. vm_compute. by split_and!. Qed.

Example prefix_relations :
  let p s := default (MkPrefix (V4 0) 0) (ParsePrefix (str s)) in
  let a s := default (V4 0) (ParseAddr (str s)) in
  Contains (p "10.0.0.0/8") (a "10.1.2.3") = true /\ Contains (p "10.0.0.0/8") (a "11.1.2.3") = false /\
  Contains (p "0.0.0.0/0") (a "::1") = false /\ Contains (p "::/0") (a "::1%lo") = false /\
  Overlaps (p "10.0.0.0/8") (p "10.1.0.0/16") = true /\ Overlaps (p "10.0.0.0/16") (p "10.1.0.0/16") = false /\
  Overlaps (p "10.0.0.0/0") (p "11.0.0.0/32") = true /\ Overlaps (p "::/0") (p "11.0.0.0/32") = false.
Proof. vm_compute. by split_and!. Qed.

Example address_texts :
  let again s := default [] (Addr_String <$> ParseAddr (str s)) in
  (again <$> ["10.0.0.1"; "::"; "::1"; "1::"; "1:0:0:2:0:0:0:3"; "1:0:2:3:4:5:6:7"; "::ffff:1.2.3.4"; "FE80:0::ABC%eth0"]) =
    (str <$> ["10.0.0.1"; "::"; "::1"; "1::"; "1:0:0:2::3"; "1:0:2:3:4:5:6:7"; "::ffff:1.2.3.4"; "fe80::abc%eth0"]).
Proof. by vm_compute. Qed.
