(* ===== verification/Heap.v ===== *)
(** Go's [container/heap] on a slice: the sift operations, [Push] and [Pop] as the
    library writes them, and their correctness for any ordering. *)
From S2P Require Import Prelude.

Section heap.
Context {A : Type} (less : A -> A -> bool).

(** [h.Less(i, j)] and [h.Swap(i, j)]. *)
Definition Less (l : list A) (i j : nat) : bool :=
  match l !! i, l !! j with Some x, Some y => less x y | _, _ => false end.
Definition Swap (i j : nat) (l : list A) : list A :=
  match l !! i, l !! j with Some x, Some y => <[i := y]> (<[j := x]> l) | _, _ => l end.

Definition parent (j : nat) : nat := ((j - 1) / 2)%nat.
#[local] Arguments parent : simpl never.

(** The loops of the library; [fuel] bounds their turns. *)
Fixpoint up (fuel j : nat) (l : list A) : list A :=
  match fuel with
  | O => l
  | S fuel' =>
      let i := parent j in
      if (i =? j)%nat || negb (Less l j i) then l else up fuel' i (Swap i j l)
  end.

(** The child [down] compares with: the right one when it is less than the left. *)
Definition child (l : list A) (n j1 : nat) : nat :=
  let j2 := (j1 + 1)%nat in if (j2 <? n)%nat && Less l j2 j1 then j2 else j1.

Fixpoint down (fuel i n : nat) (l : list A) : list A :=
  match fuel with
  | O => l
  | S fuel' =>
      let j1 := (2 * i + 1)%nat in
      if (n <=? j1)%nat then l
      else
        let j := child l n j1 in
        if negb (Less l j i) then l else down fuel' j n (Swap i j l)
  end.

Definition Push (x : A) (l : list A) : list A := up (length l) (length l) (l ++ [x]).

Definition Pop (l : list A) : option (A * list A) :=
  let n := (length l - 1)%nat in
  let l' := down (length l) 0 n (Swap 0 n l) in
  x ← l' !! n; Some (x, take n l').

(** ** Swaps *)

Lemma lookup_Swap i j l k : (i < length l)%nat -> (j < length l)%nat ->
  Swap i j l !! k = l !! (if decide (k = i) then j else if decide (k = j) then i else k).
Proof.
  intros Hi Hj. unfold Swap.
  destruct (lookup_lt_is_Some_2 l i Hi) as [x Hx], (lookup_lt_is_Some_2 l j Hj) as [y Hy]. rewrite Hx, Hy.
  destruct (decide (k = i)) as [->|Hki]; [rewrite list_lookup_insert_eq by (rewrite length_insert; lia); done|].
  rewrite list_lookup_insert_ne by done.
  destruct (decide (k = j)) as [->|Hkj]; [by rewrite list_lookup_insert_eq by lia|].
  by rewrite list_lookup_insert_ne.
Qed.

Lemma length_Swap i j l : length (Swap i j l) = length l.
Proof. unfold Swap. destruct (l !! i), (l !! j); by rewrite ?length_insert. Qed.

Lemma Swap_perm i j l : Swap i j l ≡ₚ l.
Proof.
  unfold Swap. destruct (l !! i) as [x|] eqn:Hi; [|done]. destruct (l !! j) as [y|] eqn:Hj; [|done].
  destruct (decide (i = j)) as [->|Hij].
  { rewrite list_insert_insert_eq. rewrite list_insert_id; [done|congruence]. }
  pose proof (lookup_lt_Some _ _ _ Hi). pose proof (lookup_lt_Some _ _ _ Hj).
  apply (Permutation_inj _ _). split; [by rewrite !length_insert|].
  exists (fun k => if decide (k = i) then j else if decide (k = j) then i else k). split.
  - intros a b. cbn. repeat case_decide; congruence.
  - intros k. rewrite <- lookup_Swap by lia. unfold Swap. by rewrite Hi, Hj.
Qed.

Lemma length_up fuel j l : length (up fuel j l) = length l.
Proof.
  revert j l. induction fuel as [|fuel IH]; intros j l; cbn; [done|].
  destruct (_ || _); [done|]. by rewrite IH, length_Swap.
Qed.

Lemma up_perm fuel j l : up fuel j l ≡ₚ l.
Proof.
  revert j l. induction fuel as [|fuel IH]; intros j l; cbn; [done|].
  destruct (_ || _); [done|]. by rewrite IH, Swap_perm.
Qed.

Lemma length_down fuel i n l : length (down fuel i n l) = length l.
Proof.
  revert i l. induction fuel as [|fuel IH]; intros i l; cbn -[Nat.mul child]; [done|].
  destruct (n <=? _)%nat; [done|]. destruct (negb _); [done|]. by rewrite IH, length_Swap.
Qed.

Lemma down_perm fuel i n l : down fuel i n l ≡ₚ l.
Proof.
  revert i l. induction fuel as [|fuel IH]; intros i l; cbn -[Nat.mul child]; [done|].
  destruct (n <=? _)%nat; [done|]. destruct (negb _); [done|]. by rewrite IH, Swap_perm.
Qed.

Lemma Push_perm x l : Push x l ≡ₚ x :: l.
Proof. unfold Push. rewrite up_perm. by rewrite Permutation_app_comm. Qed.

Lemma child_range l n j1 : (j1 < n)%nat -> (child l n j1 = j1 \/ child l n j1 = j1 + 1)%nat /\ (child l n j1 < n)%nat.
Proof. unfold child. intros H. destruct (Nat.ltb_spec (j1 + 1) n), (Less l (j1 + 1) j1); cbn [andb]; lia. Qed.

(** What lies beyond the bound of [down] stays in place. *)
Lemma down_beyond fuel i n l k : (n <= k)%nat -> (n <= length l)%nat -> (i < n)%nat ->
  down fuel i n l !! k = l !! k.
Proof.
  revert i l. induction fuel as [|fuel IH]; intros i l Hk Hn Hi; cbn -[Nat.mul child]; [done|].
  destruct (Nat.leb_spec n (2 * i + 1)) as [|Hj]; [done|]. destruct (negb _); [done|].
  pose proof (child_range l n (2 * i + 1) Hj) as Hjn. rewrite IH by (rewrite ?length_Swap; lia). rewrite lookup_Swap by lia.
  repeat case_decide; [lia|lia|done].
Qed.

Lemma Pop_perm x l : exists y l', Pop (x :: l) = Some (y, l') /\ x = y /\ x :: l ≡ₚ x :: l'.
Proof.
  unfold Pop. cbn [length]. replace (S (length l) - 1)%nat with (length l) by lia.
  set (s := Swap 0 (length l) (x :: l)).
  assert (Hlen : length (down (S (length l)) 0 (length l) s) = S (length l))
    by (unfold s; by rewrite length_down, length_Swap).
  assert (Hlast : down (S (length l)) 0 (length l) s !! length l = Some x).
  { destruct (decide (length l = 0%nat)) as [Hz|Hz].
    - destruct l; [|done]. reflexivity.
    - rewrite down_beyond by (unfold s; rewrite ?length_Swap; cbn; lia).
      unfold s. rewrite lookup_Swap by (cbn; lia). by rewrite decide_False, decide_True by done. }
  rewrite Hlast. exists x, (take (length l) (down (S (length l)) 0 (length l) s)). split; [done|]. split; [done|].
  assert (Hp : x :: l ≡ₚ down (S (length l)) 0 (length l) s) by (by rewrite down_perm; unfold s; rewrite Swap_perm).
  etrans; [exact Hp|]. clear Hp. clearbody s. generalize dependent (down (S (length l)) 0 (length l) s). intros d Hd Hx.
  rewrite <- (take_drop (length l) d) at 1. rewrite (drop_S d x (length l)) by done.
  rewrite drop_ge by lia. by rewrite Permutation_app_comm.
Qed.

(** ** The heap order *)

(** On the elements the slice holds, [less] is a strict order whose complement
    is transitive. *)
Variable P : A -> Prop.
Hypothesis less_asym : forall x y, P x -> P y -> less x y = true -> less y x = false.
Hypothesis less_neg_trans : forall x y z, P x -> P y -> P z ->
  less y x = false -> less z y = false -> less z x = false.

(** Positions [i] and [k], where both exist, are in order. *)
Definition in_order (l : list A) (i k : nat) : Prop :=
  forall x y, l !! i = Some x -> l !! k = Some y -> less y x = false.
Definition heap_upto (n : nat) (l : list A) : Prop :=
  forall k, (0 < k < n)%nat -> in_order l (parent k) k.
Definition heap (l : list A) : Prop := heap_upto (length l) l.

Lemma in_order_trans l i j k : Forall P l -> (j < length l)%nat ->
  in_order l i j -> in_order l j k -> in_order l i k.
Proof.
  intros HP Hj H1 H2 x z Hx Hz. destruct (lookup_lt_is_Some_2 l j Hj) as [y Hy].
  rewrite Forall_lookup in HP. apply (less_neg_trans x y z); [by eapply HP..|by apply H1|by apply H2].
Qed.

Lemma Less_in_order l j i : Forall P l -> Less l j i = true -> in_order l j i.
Proof.
  rewrite Forall_lookup. unfold Less. intros HP H x y Hx Hy. rewrite Hx, Hy in H.
  by apply less_asym; [eapply HP..|].
Qed.

Lemma not_Less_in_order l j i : Less l j i = false -> in_order l i j.
Proof. unfold Less. intros H x y Hx Hy. by rewrite Hx, Hy in H. Qed.

Lemma Forall_Swap i j l : Forall P l -> Forall P (Swap i j l).
Proof. by rewrite (Swap_perm i j l). Qed.

Lemma parent_lt k : (0 < k)%nat -> (parent k < k)%nat.
Proof. intros Hk. unfold parent. apply Nat.Div0.div_lt_upper_bound. lia. Qed.
Lemma parent_children i k : (0 < k)%nat -> parent k = i <-> (k = 2 * i + 1 \/ k = 2 * i + 2)%nat.
Proof.
  intros Hk. unfold parent. pose proof (Nat.div_mod_eq (k - 1) 2). pose proof (Nat.mod_upper_bound (k - 1) 2 ltac:(lia)).
  lia.
Qed.

Lemma in_order_Swap i j l a b : (i < length l)%nat -> (j < length l)%nat ->
  in_order l (if decide (a = i) then j else if decide (a = j) then i else a)
             (if decide (b = i) then j else if decide (b = j) then i else b) ->
  in_order (Swap i j l) a b.
Proof. intros Hi Hj H x y. rewrite !lookup_Swap by done. apply H. Qed.

(** Sifting up repairs a heap that is out of order above position [j] only. *)
Lemma up_heap fuel j l : (j <= fuel)%nat -> (j < length l)%nat -> Forall P l ->
  (forall k, (0 < k < length l)%nat -> k <> j -> in_order l (parent k) k) ->
  (forall c, (0 < c < length l)%nat -> parent c = j -> (0 < j)%nat -> in_order l (parent j) c) ->
  heap (up fuel j l).
Proof.
  revert j l. induction fuel as [|fuel IH]; intros j l Hf Hj HP Hk Hc; cbn.
  { intros k Hkn. apply Hk; lia. }
  destruct (Nat.eqb_spec (parent j) j) as [Hz|Hz]; cbn [orb].
  { intros k Hkn. apply Hk; [lia|]. intros ->. pose proof (parent_lt j). lia. }
  assert (Hj0 : (0 < j)%nat) by (destruct j; [done|lia]). pose proof (parent_lt j Hj0) as Hlt.
  destruct (Less l j (parent j)) eqn:HL; cbn [negb].
  2: { intros k Hkn. destruct (decide (k = j)) as [->|]; [|by apply Hk]. by apply not_Less_in_order. }
  apply Less_in_order in HL; [|done].
  apply IH; rewrite ?length_Swap; [lia|lia|by apply Forall_Swap| |].
  - intros k Hkn Hki. apply in_order_Swap; [lia|lia|].
    pose proof (parent_lt k (proj1 Hkn)).
    destruct (decide (k = parent j)); [done|].
    destruct (decide (k = j)) as [->|Hkj].
    { rewrite decide_True by done. done. }
    destruct (decide (parent k = parent j)) as [He|He].
    { apply (in_order_trans _ _ (parent j)); [done|lia|done|]. rewrite <- He. by apply Hk. }
    destruct (decide (parent k = j)) as [He'|He']; [by apply Hc|]. by apply Hk.
  - intros c Hcn Hcp Hp0. pose proof (parent_lt (parent j) Hp0). pose proof (parent_lt c (proj1 Hcn)).
    apply in_order_Swap; [lia|lia|].
    rewrite (decide_False (P := parent (parent j) = parent j)) by lia.
    rewrite (decide_False (P := parent (parent j) = j)) by lia.
    assert (Hpp : in_order l (parent (parent j)) (parent j)) by (apply Hk; lia).
    rewrite (decide_False (P := c = parent j)) by lia. destruct (decide (c = j)) as [->|Hcj]; [done|].
    apply (in_order_trans _ _ (parent j)); [done|lia|done|]. rewrite <- Hcp. by apply Hk.
Qed.

Lemma child_first l n i c : Forall P l -> (0 < c < n)%nat -> parent c = i -> c <> child l n (2 * i + 1) ->
  in_order l (child l n (2 * i + 1)) c.
Proof.
  intros HP Hc Hp. apply parent_children in Hp; [|lia]. unfold child.
  destruct (Nat.ltb_spec (2 * i + 1 + 1) n) as [Hb|Hb]; cbn [andb]; [|lia].
  destruct (Less l (2 * i + 1 + 1) (2 * i + 1)) eqn:HL; intros Hcj.
  - replace c with (2 * i + 1)%nat by lia. by apply Less_in_order.
  - replace c with (2 * i + 1 + 1)%nat by lia. by apply not_Less_in_order.
Qed.

(** Sifting down repairs the first [n] positions when they are out of order below
    position [i] only. *)
Lemma down_heap fuel i n l : (n <= fuel + i)%nat -> (n <= length l)%nat -> Forall P l ->
  (forall k, (0 < k < n)%nat -> parent k <> i -> in_order l (parent k) k) ->
  (forall c, (0 < c < n)%nat -> parent c = i -> (0 < i)%nat -> in_order l (parent i) c) ->
  heap_upto n (down fuel i n l).
Proof.
  revert i l. induction fuel as [|fuel IH]; intros i l Hf Hn HP Hk Hc; cbn -[Nat.mul child].
  { intros k Hkn. apply Hk; [lia|]. intros He. pose proof (parent_lt k). lia. }
  destruct (Nat.leb_spec n (2 * i + 1)) as [Hl|Hl].
  { intros k Hkn. apply Hk; [lia|]. rewrite parent_children by lia. lia. }
  destruct (child_range l n (2 * i + 1) Hl) as [Hji Hjn].
  pose proof (fun c => child_first l n i c HP) as Hsmall. set (j := child l n (2 * i + 1)) in *. clearbody j.
  assert (Hpj : parent j = i) by (apply parent_children; lia).
  destruct (Less l j i) eqn:HL; cbn [negb].
  2: { apply not_Less_in_order in HL. intros k Hkn. destruct (decide (parent k = i)) as [He|He]; [|by apply Hk].
       rewrite He. destruct (decide (k = j)) as [->|Hkj]; [done|].
       apply (in_order_trans _ _ j); [done|lia|done|by apply Hsmall]. }
  apply Less_in_order in HL; [|done].
  apply IH; rewrite ?length_Swap; [lia|lia|by apply Forall_Swap| |].
  - intros k Hkn Hkj. apply in_order_Swap; [lia|lia|]. pose proof (parent_lt k (proj1 Hkn)).
    destruct (decide (parent k = i)) as [He|He].
    + rewrite (decide_False (P := k = i)) by lia. destruct (decide (k = j)) as [->|Hkj']; [done|]. by apply Hsmall.
    + rewrite (decide_False (P := parent k = j)) by done. rewrite (decide_False (P := k = j)) by congruence.
      destruct (decide (k = i)) as [->|Hki]; [apply Hc; lia|by apply Hk].
  - intros c Hcn Hcp Hj0. rewrite Hpj. apply in_order_Swap; [lia|lia|].
    pose proof (parent_lt c (proj1 Hcn)).
    rewrite decide_True by done. rewrite (decide_False (P := c = i)) by lia. rewrite (decide_False (P := c = j)) by lia.
    rewrite <- Hcp. apply Hk; lia.
Qed.

Lemma Push_heap x l : P x -> Forall P l -> heap l -> heap (Push x l).
Proof.
  intros Hx Hl Hh. unfold Push. apply up_heap; rewrite ?length_app; cbn; [lia|lia| | |].
  - apply Forall_app. by rewrite Forall_singleton.
  - intros k Hk Hkj y z. pose proof (parent_lt k (proj1 Hk)). rewrite !lookup_app_l by lia. apply Hh. lia.
  - intros c Hc Hp. pose proof (parent_lt c (proj1 Hc)). lia.
Qed.

(** [Pop] returns the root and leaves a heap of the rest. *)
Lemma Pop_heap x l : Forall P (x :: l) -> heap (x :: l) ->
  exists l', Pop (x :: l) = Some (x, l') /\ x :: l ≡ₚ x :: l' /\ heap l'.
Proof.
  intros HP Hh. destruct (Pop_perm x l) as (y & l' & Hpop & <- & Hperm).
  exists l'. split; [done|]. split; [done|].
  unfold Pop in Hpop. cbn [length] in Hpop. replace (S (length l) - 1)%nat with (length l) in Hpop by lia.
  apply bind_Some in Hpop as (y & _ & [= _ <-]).
  assert (Hd : heap_upto (length l) (down (S (length l)) 0 (length l) (Swap 0 (length l) (x :: l)))).
  { apply down_heap; [lia|rewrite length_Swap; cbn; lia|by apply Forall_Swap| |lia].
    intros k Hk Hp. pose proof (parent_lt k (proj1 Hk)). apply in_order_Swap; [cbn; lia|cbn; lia|].
    rewrite !decide_False by lia. apply Hh. cbn. lia. }
  intros k Hk. rewrite length_take in Hk. intros u v. pose proof (parent_lt k (proj1 Hk)).
  rewrite !lookup_take_lt by lia. apply Hd. lia.
Qed.

(** The root is not after any other element. *)
Lemma heap_root x l y : Forall P (x :: l) -> heap (x :: l) -> y ∈ x :: l -> less y x = false.
Proof.
  intros HP Hh (k & Hk)%list_elem_of_lookup. revert y Hk.
  induction (lt_wf k) as [k _ IH]. intros y Hk. pose proof (lookup_lt_Some _ _ _ Hk) as Hlt.
  assert (HPx : P x) by (by apply Forall_cons_1 in HP as [? _]).
  destruct (decide (k = 0%nat)) as [->|Hk0].
  { injection Hk as <-. destruct (less x x) eqn:H; [|done]. by rewrite (less_asym x x) in H. }
  pose proof (parent_lt k ltac:(lia)) as Hp.
  destruct (lookup_lt_is_Some_2 (x :: l) (parent k) ltac:(lia)) as [z Hz].
  assert (HPz : P z) by (rewrite Forall_lookup in HP; by eapply HP).
  assert (HPy : P y) by (rewrite Forall_lookup in HP; by eapply HP).
  apply (less_neg_trans x z y); [done..|by apply (IH (parent k))|].
  apply (Hh k); [cbn in *; lia|done|done].
Qed.

Lemma heap_nil : heap [].
Proof. intros k Hk. cbn in Hk. lia. Qed.
End heap.
