(* ===== verification/Mempool.v ===== *)
(** backend/pkg/mempool: admission, priority order, bounded eviction and selection
    of pending transactions (mempool.go, admission.go, priority.go, errors.go). *)
From S2P Require Import Prelude Bytes Sha256 GoTime GoFloat GoStrings Codec Heap.
Import Codec Model.

(** ** Data *)

Inductive mp_error :=
| ErrDuplicate | ErrRateLimited | ErrMempoolFull | ErrInvalidTx | ErrSigInvalid
| ErrClassFull (Class_ : bytes)
| ErrState (e : state_error).

#[export] Instance mp_error_eq_dec : EqDecision mp_error.
Proof. solve_decision. Defined.

Record Config := MkConfig {
  MaxTxs : Z; MaxBytes : Z; MaxTxsP0 : Z; MaxTxsP1 : Z; MaxTxsP2 : Z;
  NonceTTL : Z; Skew : Z; RatePerSecond : Z }.

Record entry := MkEntry {
  e_Tx : Transaction; e_Hash : bytes; e_ProducerID : bytes; e_Nonce : bytes;
  Severity : Z; Confidence : float64; PriorityClass : bytes; Ts : Z; Size : Z }.

#[export] Instance spec_float_eq_dec : EqDecision spec_float.
Proof. solve_decision. Defined.
#[export] Instance Envelope_eq_dec : EqDecision Envelope.
Proof. solve_decision. Defined.
#[export] Instance CoCEntry_eq_dec : EqDecision CoCEntry.
Proof. solve_decision. Defined.
#[export] Instance EventTx_eq_dec : EqDecision EventTx.
Proof. solve_decision. Defined.
#[export] Instance EvidenceTx_eq_dec : EqDecision EvidenceTx.
Proof. solve_decision. Defined.
#[export] Instance PolicyTx_eq_dec : EqDecision PolicyTx.
Proof. solve_decision. Defined.
#[export] Instance Transaction_eq_dec : EqDecision Transaction.
Proof. solve_decision. Defined.
#[export] Instance entry_eq_dec : EqDecision entry.
Proof. solve_decision. Defined.

Record ProducerNonce := MkProducerNonce { pn_ProducerID : bytes; pn_Nonce : bytes }.

Record AdmissionMeta := MkMeta { m_Severity : Z; m_Confidence : float64; m_PriorityClass : bytes }.

Record bucket := MkBucket { capacity : Z; tokens : float64; refill : float64; last_refill : Time }.
Record producerState := MkProducer { p_bucket : bucket; nonces : gmap bytes Time }.

(** [total] and the counters are [int]s; they count bytes and transactions held
    in memory, far below [2^63]. *)
Record Mempool := MkMempool {
  cfg : Config;
  entries : gmap bytes entry;
  total : Z;
  evictHeap : list entry;
  prod : gmap bytes producerState;
  classCounts : gmap bytes Z }.

(** The order in which one [range] over the entries visits them. *)
Record map_range := MkRange {
  range_of :> gmap bytes entry -> list (bytes * entry);
  range_perm es : range_of es ≡ₚ map_to_list es }.

(** ** Priority *)

Definition p0 : bytes := str "p0".
Definition p1 : bytes := str "p1".
Definition p2 : bytes := str "p2".

Definition normalizePriorityClass (class : bytes) : bytes :=
  let s := ToLower (TrimSpace class) in
  if bool_decide (s = p0) then p0 else if bool_decide (s = p1) then p1 else p2.

Definition classRank (class : bytes) : Z :=
  let s := normalizePriorityClass class in
  if bool_decide (s = p0) then 3 else if bool_decide (s = p1) then 2 else 1.

Definition lessPriority (a b : entry) : bool :=
  if negb (classRank (PriorityClass a) =? classRank (PriorityClass b)) then
    classRank (PriorityClass b) <? classRank (PriorityClass a)
  else if negb (Severity a =? Severity b) then Severity b <? Severity a
  else if negb (f_eqb (Confidence a) (Confidence b)) then f_ltb (Confidence b) (Confidence a)
  else if negb (Ts a =? Ts b) then Ts a <? Ts b
  else bytes_ltb (hex (e_Hash a)) (hex (e_Hash b)).

(** [minHeap.Less] on the elements of the slice. *)
Definition heap_less (a b : entry) : bool := lessPriority b a.

(** [ClassFullReason]. *)
Definition ClassFullReason (err : mp_error) : option bytes :=
  match err with ErrClassFull c => Some (normalizePriorityClass c) | _ => None end.

Definition ComputeMeta (provided : AdmissionMeta) : AdmissionMeta :=
  let c := m_Confidence provided in
  let c := if f_ltb c (f_of_Z 0) then f_of_Z 0 else c in
  let c := if f_ltb (f_of_Z 1) c then f_of_Z 1 else c in
  MkMeta (m_Severity provided) c (normalizePriorityClass (m_PriorityClass provided)).

(** ** State updates *)

Definition with_entries es (m : Mempool) := MkMempool (cfg m) es (total m) (evictHeap m) (prod m) (classCounts m).
Definition with_heap h (m : Mempool) := MkMempool (cfg m) (entries m) (total m) h (prod m) (classCounts m).
Definition put_producer pid ps (m : Mempool) :=
  MkMempool (cfg m) (entries m) (total m) (evictHeap m) (<[pid := ps]> (prod m)) (classCounts m).

Definition New (c : Config) : Mempool :=
  MkMempool c ∅ 0 [] ∅ (<[p0 := 0]> (<[p1 := 0]> (<[p2 := 0]> ∅))).

Definition allow (now : Time) (b : bucket) : bool * bucket :=
  let t := f_add (tokens b) (f_mul (Seconds (Sub now (last_refill b))) (refill b)) in
  let t := if f_ltb (f_of_Z (capacity b)) t then f_of_Z (capacity b) else t in
  if f_leb (f_of_Z 1) t
  then (true, MkBucket (capacity b) (f_sub t (f_of_Z 1)) (refill b) now)
  else (false, MkBucket (capacity b) t (refill b) now).

Definition cleanupNonces (now : Time) (ps : producerState) : producerState :=
  MkProducer (p_bucket ps) (filter (fun kv => After now kv.2 = false) (nonces ps)).

Definition decClassCount (class : bytes) (counts : gmap bytes Z) : gmap bytes Z :=
  let normalized := normalizePriorityClass class in
  let n := default 0 (counts !! normalized) in
  if 0 <? n then <[normalized := n - 1]> counts else counts.

Definition classCap (c : Config) (class : bytes) : Z :=
  let s := normalizePriorityClass class in
  if bool_decide (s = p0) then MaxTxsP0 c else if bool_decide (s = p1) then MaxTxsP1 c else MaxTxsP2 c.

(** [delete(m.entries, key)] with the counters. *)
Definition drop_entry (key : bytes) (v : entry) (m : Mempool) : Mempool :=
  MkMempool (cfg m) (delete key (entries m)) (total m - Size v) (evictHeap m) (prod m)
            (decClassCount (PriorityClass v) (classCounts m)).

Definition rebuildEvictHeap (range : map_range) (m : Mempool) : Mempool :=
  with_heap (foldl (fun h e => Push heap_less e h) [] (range (entries m)).*2) m.

Definition weakestInClass (range : map_range) (class : bytes) (m : Mempool) : option (bytes * entry) :=
  let class := normalizePriorityClass class in
  foldl (fun weakest kv =>
      if negb (bool_decide (normalizePriorityClass (PriorityClass kv.2) = class)) then weakest
      else match weakest with
           | None => Some kv
           | Some (_, w) => if lessPriority w kv.2 then Some kv else weakest
           end) None (range (entries m)).

(** ** Admission *)

Definition MP (A : Type) : Type := ST Mempool mp_error A.

Definition fresh_producer (c : Config) (now : Time) : producerState :=
  MkProducer (MkBucket (RatePerSecond c) (f_of_Z (RatePerSecond c)) (f_of_Z (RatePerSecond c)) now) ∅.

Definition state_call {A} (r : result state_error A) : MP A :=
  lift (match r with Ok a => Ok a | Err e => Err (ErrState e) end).

Definition classFull (e : entry) (m : Mempool) : bool :=
  let cap := classCap (cfg m) (PriorityClass e) in
  (0 <? cap) && (cap <=? default 0 (classCounts m !! PriorityClass e)).

Definition make_class_room (range : map_range) (e : entry) : MP unit :=
  full ← gets (classFull e);
  if negb full then mret tt
  else
    weakest ← gets (weakestInClass range (PriorityClass e));
    match weakest with
    | None => throw (ErrClassFull (PriorityClass e))
    | Some (victimKey, victim) =>
        fail_if (negb (lessPriority e victim)) (ErrClassFull (PriorityClass e)) ;;
        modify (drop_entry victimKey victim) ;;
        modify (rebuildEvictHeap range)
    end.

Definition needs_room (e : entry) (m : Mempool) : bool :=
  (0 <? total m + Size e - MaxBytes (cfg m)) || (0 <? Z.of_nat (size (entries m)) + 1 - MaxTxs (cfg m)).

(** [heap.Pop(&m.evictHeap)]. *)
Definition pop_heap (m : Mempool) : Mempool :=
  match Pop heap_less (evictHeap m) with Some (_, h) => with_heap h m | None => m end.

(** Every turn pops one element of the heap. *)
Fixpoint evict_loop (fuel : nat) (e : entry) : MP unit :=
  match fuel with
  | O => mret tt
  | S fuel' =>
      room ← gets (needs_room e);
      heap ← gets evictHeap;
      match room, heap with
      | true, victim :: _ =>
          let vkey := hex (e_Hash victim) in
          held ← gets (fun m => bool_decide (is_Some (entries m !! vkey)));
          if negb held then modify pop_heap ;; evict_loop fuel' e
          else
            fail_if (negb (lessPriority e victim)) ErrMempoolFull ;;
            modify pop_heap ;;
            modify (drop_entry vkey victim) ;;
            evict_loop fuel' e
      | _, _ => mret tt
      end
  end.

Definition evict (e : entry) : MP unit :=
  heap ← gets evictHeap; evict_loop (S (length heap)) e.

Definition at_capacity (e : entry) (m : Mempool) : bool :=
  ((0 <? MaxTxs (cfg m)) && (MaxTxs (cfg m) <=? Z.of_nat (size (entries m)))) ||
  ((0 <? MaxBytes (cfg m)) && (MaxBytes (cfg m) <? total m + Size e)).

Definition insert_entry (key : bytes) (e : entry) (m : Mempool) : Mempool :=
  MkMempool (cfg m) (<[key := e]> (entries m)) (total m + Size e) (Push heap_less e (evictHeap m)) (prod m)
            (<[PriorityClass e := default 0 (classCounts m !! PriorityClass e) + 1]> (classCounts m)).

Definition remember_nonce (pid nonce : bytes) (expiry : Time) (m : Mempool) : Mempool :=
  match prod m !! pid with
  | Some ps => put_producer pid (MkProducer (p_bucket ps) (<[nonce := expiry]> (nonces ps))) m
  | None => m
  end.

(** The producer's state after the replay and rate checks, or the error of one. *)
Definition check_producer (c : Config) (now : Time) (nonce : bytes) (ps : producerState)
  : result mp_error unit * producerState :=
  let ps := cleanupNonces now ps in
  if bool_decide (is_Some (nonces ps !! nonce)) then (Err ErrInvalidTx, ps)
  else if 0 <? RatePerSecond c then
    let '(ok, b) := allow now (p_bucket ps) in
    (if ok : bool then Ok tt else Err ErrRateLimited, MkProducer b (nonces ps))
  else (Ok tt, ps).

Definition new_entry (tx : Transaction) (meta : AdmissionMeta) : entry :=
  let env := Envelope_ tx in
  MkEntry tx (EnvContentHash env) (ProducerID env) (Nonce env) (m_Severity meta) (m_Confidence meta)
          (normalizePriorityClass (m_PriorityClass meta)) (Timestamp tx) (len (Payload tx)).

Definition Add (range : map_range) (tx : option Transaction) (meta : AdmissionMeta) (now : Time) : MP unit :=
  match tx with
  | None => throw ErrInvalidTx
  | Some tx =>
      let env := Envelope_ tx in
      c ← gets cfg;
      state_call (Validate tx now (Skew c)) ;;
      let key := hex (EnvContentHash env) in
      let pid := hex (ProducerID env) in
      let nonce := hex (Nonce env) in
      dup ← gets (fun m => bool_decide (is_Some (entries m !! key)));
      fail_if dup ErrDuplicate ;;
      ps ← gets (fun m => default (fresh_producer c now) (prod m !! pid));
      let '(r, ps) := check_producer c now nonce ps in
      modify (put_producer pid ps) ;;
      lift r ;;
      let e := new_entry tx meta in
      make_class_room range e ;;
      evict e ;;
      full ← gets (at_capacity e);
      fail_if full ErrMempoolFull ;;
      modify (insert_entry key e) ;;
      modify (remember_nonce pid nonce (GoTime.Add now (NonceTTL c)))
  end.

(** ** Selection, removal and statistics *)

Fixpoint take_fitting (maxCount maxBytes count sum : Z) (l : list entry) : list Transaction :=
  match l with
  | [] => []
  | e :: l' =>
      if (0 <? maxCount) && (maxCount <=? count) then []
      else if (0 <? maxBytes) && (maxBytes <? sum + Size e) then []
      else e_Tx e :: take_fitting maxCount maxBytes (count + 1) (sum + Size e) l'
  end.

Definition Select (range : map_range) (maxCount maxBytes : Z) (m : Mempool) : list Transaction :=
  take_fitting maxCount maxBytes 0 0 (stable_sort lessPriority (range (entries m)).*2).

Definition remove_hash (m : Mempool) (h : bytes) : Mempool :=
  match entries m !! hex h with Some e => drop_entry (hex h) e m | None => m end.

Definition Remove (range : map_range) (hashes : list bytes) (m : Mempool) : Mempool :=
  rebuildEvictHeap range (foldl remove_hash m hashes).

Definition nonce_id (pid nonce : bytes) : bytes := hex pid ++ str ":" ++ hex nonce.

Definition nonce_set (keys : list ProducerNonce) : gset bytes :=
  foldl (fun set k =>
      if (len (pn_ProducerID k) =? 0) || (len (pn_Nonce k) =? 0) then set
      else {[nonce_id (pn_ProducerID k) (pn_Nonce k)]} ∪ set) ∅ keys.

Definition RemoveByProducerNonces (range : map_range) (keys : list ProducerNonce) (m : Mempool) : Mempool :=
  let set := nonce_set keys in
  if bool_decide (set = ∅) then m
  else
    let '(m, removed) :=
      foldl (fun '(m, removed) kv =>
          if bool_decide (nonce_id (e_ProducerID kv.2) (e_Nonce kv.2) ∈ set)
          then (drop_entry kv.1 kv.2 m, true) else (m, removed)) (m, false) (range (entries m)) in
    if removed : bool then rebuildEvictHeap range m else m.

Definition Stats (m : Mempool) : Z * Z := (Z.of_nat (size (entries m)), total m).

Definition StatsDetailed (range : map_range) (m : Mempool) : Z * Z * Z :=
  let oldest := foldl (fun oldest kv =>
      if (oldest =? 0) || (Ts kv.2 <? oldest) then Ts kv.2 else oldest) 0 (range (entries m)) in
  (Z.of_nat (size (entries m)), total m, oldest).

Definition ClassStats (m : Mempool) : gmap bytes Z := classCounts m.
Definition ProducerCount (m : Mempool) : Z := Z.of_nat (size (prod m)).
Definition HasPolicyTx (range : map_range) (m : Mempool) : bool :=
  existsb (fun kv => bool_decide (Type_ (e_Tx kv.2) = TxPolicy)) (range (entries m)).

(** ** Signed admission *)

(** [ed25519.Verify]. *)
Class Ed25519 := { ed25519_Verify : bytes -> bytes -> bytes -> bool }.

Definition domainFor (t : TxType) : bytes :=
  match t with TxEvent => DomainEventTx | TxEvidence => DomainEvidenceTx | TxPolicy => DomainPolicyTx end.

Definition VerifyEnvelope `{Ed25519} (tx : Transaction) : result mp_error unit :=
  let env := Envelope_ tx in
  if negb (bool_decide (ToUpper (Alg env) = str "ED25519")) then Err ErrInvalidTx
  else if negb (bool_decide (ContentHash (Payload tx) = EnvContentHash env)) then Err ErrInvalidTx
  else
    match BuildSignBytes (domainFor (Type_ tx)) (Timestamp tx) (ProducerID env) (Nonce env) (EnvContentHash env) with
    | Err e => Err (ErrState e)
    | Ok b =>
        if negb (len (PubKey env) =? PubKeyEd25519Size) || negb (len (Signature env) =? SigEd25519Size) then Err ErrSigInvalid
        else if negb (ed25519_Verify (PubKey env) b (Signature env)) then Err ErrSigInvalid
        else Ok tt
    end.

Definition Admit `{Ed25519} (range : map_range) (tx : Transaction) (meta : AdmissionMeta) (now : Time) : MP unit :=
  lift (VerifyEnvelope tx) ;;
  Add range (Some tx) meta now.
