(* ===== verification/MempoolSpec.v ===== *)
(** The mempool as the map, heap and counters it is made of implements a plain
    queue of entries in priority order: the abstract queue, the representation
    invariant, and the simulation of every operation. *)
From S2P Require Import Prelude Bytes Sha256 GoTime GoFloat GoStrings Codec Heap Mempool.
Import Codec Model.

(** ** The queue *)

(** The entries, strongest first, and the producers' sessions. *)
Record Pool := MkPool { queue : list entry; sessions : gmap bytes producerState }.

Definition bytes_held (l : list entry) : Z := foldr (fun e n => Size e + n) 0 l.
Definition of_class (class : bytes) (l : list entry) : list entry := filter (fun e => PriorityClass e = class) l.
Definition class_count (class : bytes) (l : list entry) : Z := len (of_class class l).
Definition without (h : bytes) (l : list entry) : list entry := filter (fun e => e_Hash e <> h) l.

(** A full class gives up its weakest entry, if the newcomer is stronger. *)
Definition spec_class_room (c : Config) (e : entry) (q : list entry) : result mp_error (list entry) :=
  let cap := classCap c (PriorityClass e) in
  if negb ((0 <? cap) && (cap <=? class_count (PriorityClass e) q)) then Ok q
  else
    match last (of_class (PriorityClass e) q) with
    | Some v => if lessPriority e v then Ok (without (e_Hash v) q) else Err (ErrClassFull (PriorityClass e))
    | None => Err (ErrClassFull (PriorityClass e))
    end.

(** From the weakest up, entries weaker than the newcomer go until it fits. *)
Fixpoint spec_evict (c : Config) (e : entry) (weakest_first : list entry) : result mp_error unit * list entry :=
  match weakest_first with
  | [] => (Ok tt, [])
  | v :: l =>
      if (0 <? bytes_held (v :: l) + Size e - MaxBytes c) || (0 <? len (v :: l) + 1 - MaxTxs c) then
        if lessPriority e v then spec_evict c e l else (Err ErrMempoolFull, v :: l)
      else (Ok tt, v :: l)
  end.

Definition spec_full (c : Config) (e : entry) (q : list entry) : bool :=
  ((0 <? MaxTxs c) && (MaxTxs c <=? len q)) || ((0 <? MaxBytes c) && (MaxBytes c <? bytes_held q + Size e)).

(** The queue after the room is made, and whether the newcomer may join. *)
Definition spec_make_room (c : Config) (e : entry) (q : list entry) : result mp_error unit * list entry :=
  match spec_class_room c e q with
  | Err err => (Err err, q)
  | Ok q =>
      let '(r, w) := spec_evict c e (reverse q) in
      (match r with Err err => Err err | Ok _ => if spec_full c e (reverse w) then Err ErrMempoolFull else Ok tt end,
       reverse w)
  end.

Definition spec_Add (c : Config) (tx : option Transaction) (meta : AdmissionMeta) (now : Time) (p : Pool)
  : result mp_error unit * Pool :=
  match tx with
  | None => (Err ErrInvalidTx, p)
  | Some tx =>
      match Validate tx now (Skew c) with
      | Err err => (Err (ErrState err), p)
      | Ok _ =>
          let e := new_entry tx meta in
          if bool_decide (e_Hash e ∈ e_Hash <$> queue p) then (Err ErrDuplicate, p)
          else
            let pid := hex (e_ProducerID e) in
            let nonce := hex (e_Nonce e) in
            let '(r, ps) := check_producer c now nonce (default (fresh_producer c now) (sessions p !! pid)) in
            match r with
            | Err err => (Err err, MkPool (queue p) (<[pid := ps]> (sessions p)))
            | Ok _ =>
                let '(r, q) := spec_make_room c e (queue p) in
                match r with
                | Err err => (Err err, MkPool q (<[pid := ps]> (sessions p)))
                | Ok _ =>
                    (Ok tt, MkPool (insert_stable lessPriority e q)
                       (<[pid := MkProducer (p_bucket ps) (<[nonce := GoTime.Add now (NonceTTL c)]> (nonces ps))]> (sessions p)))
                end
            end
      end
  end.

Definition spec_Remove (hashes : list bytes) (q : list entry) : list entry :=
  filter (fun e => e_Hash e ∉ hashes) q.

Definition spec_RemoveByProducerNonces (keys : list ProducerNonce) (q : list entry) : list entry :=
  filter (fun e => nonce_id (e_ProducerID e) (e_Nonce e) ∉ nonce_set keys) q.

(** The counters as one map. *)
Definition class_table (l : list entry) : gmap bytes Z :=
  <[p0 := class_count p0 l]> (<[p1 := class_count p1 l]> (<[p2 := class_count p2 l]> ∅)).

(** ** Priority as the order of a key *)

(** An entry as [Add] makes it, from a confidence that is a number. *)
Definition entry_ok (e : entry) : Prop :=
  is_nan (Confidence e) = false /\ normalizePriorityClass (PriorityClass e) = PriorityClass e.

Definition pkey (e : entry) : list Z :=
  [- classRank (PriorityClass e); - Severity e] ++ (Z.opp <$> f_key (Confidence e)) ++ [Ts e] ++
  (byte_val <$> hex (e_Hash e)).

Lemma lex_ltb_opp a b : length a = length b -> lex_ltb (Z.opp <$> a) (Z.opp <$> b) = lex_ltb b a.
Proof.
  revert b. induction a as [|x a IH]; intros [|y b]; cbn; try done. intros [= Hl]. rewrite IH by done.
  destruct (Z.eqb_spec (- x) (- y)), (Z.eqb_spec y x), (Z.ltb_spec (- x) (- y)), (Z.ltb_spec y x); try done; lia.
Qed.

Lemma length_f_key x : length (f_key x) = 3%nat.
Proof. by destruct x as [|[]| |[]]. Qed.

Lemma lex_ltb_app a b c d : length a = length b -> a <> b -> lex_ltb (a ++ c) (b ++ d) = lex_ltb a b.
Proof.
  revert b. induction a as [|x a IH]; intros [|y b]; cbn; try done. intros [= Hl] Hne.
  destruct (Z.eqb_spec x y) as [->|]; [|done]. apply IH; congruence.
Qed.

#[local] Instance opp_Inj : Inj (=) (=) Z.opp.
Proof. intros a b. lia. Qed.

Lemma lessPriority_pkey a b : entry_ok a -> entry_ok b -> lessPriority a b = lex_ltb (pkey a) (pkey b).
Proof.
  intros [Ha _] [Hb _]. unfold lessPriority, pkey. cbn -[lex_ltb classRank].
  generalize (classRank (PriorityClass a)) (classRank (PriorityClass b)). intros ra rb. cbn [lex_ltb].
  destruct (Z.eqb_spec ra rb), (Z.eqb_spec (- ra) (- rb)); try lia; cbn [negb].
  2: { destruct (Z.ltb_spec rb ra), (Z.ltb_spec (- ra) (- rb)); lia. }
  destruct (Z.eqb_spec (Severity a) (Severity b)), (Z.eqb_spec (- Severity a) (- Severity b)); try lia; cbn [negb].
  2: { destruct (Z.ltb_spec (Severity b) (Severity a)), (Z.ltb_spec (- Severity a) (- Severity b)); lia. }
  destruct (f_eqb (Confidence a) (Confidence b)) eqn:He; cbn [negb].
  - apply f_eqb_key in He; [|done..]. rewrite He, lex_ltb_app_l. cbn [app lex_ltb].
    destruct (Z.eqb_spec (Ts a) (Ts b)); cbn [negb]; [apply bytes_ltb_lex|done].
  - assert (f_key (Confidence a) <> f_key (Confidence b)).
    { intros H. apply f_eqb_key in H; [congruence|done..]. }
    rewrite lex_ltb_app; [|by rewrite !length_fmap, !length_f_key|by intros H'%(inj (fmap Z.opp))].
    by rewrite lex_ltb_opp, f_ltb_key by (rewrite ?length_f_key; done).
Qed.

Lemma heap_less_asym a b : entry_ok a -> entry_ok b -> heap_less a b = true -> heap_less b a = false.
Proof. unfold heap_less. intros Ha Hb. rewrite !lessPriority_pkey by done. apply lex_ltb_asym. Qed.

Lemma lessPriority_asym a b : entry_ok a -> entry_ok b -> lessPriority a b = true -> lessPriority b a = false.
Proof. intros Ha Hb. by apply heap_less_asym. Qed.

Lemma lessPriority_neg_trans a b c : entry_ok a -> entry_ok b -> entry_ok c ->
  lessPriority b a = false -> lessPriority c b = false -> lessPriority c a = false.
Proof. intros Ha Hb Hc. rewrite !lessPriority_pkey by done. apply lex_geb_trans. Qed.

Lemma heap_less_neg_trans a b c : entry_ok a -> entry_ok b -> entry_ok c ->
  heap_less b a = false -> heap_less c b = false -> heap_less c a = false.
Proof. unfold heap_less. intros Ha Hb Hc H1 H2. by apply (lessPriority_neg_trans c b a). Qed.

(** Ties have the same hash. *)
Lemma lessPriority_tie a b : entry_ok a -> entry_ok b ->
  lessPriority a b = false -> lessPriority b a = false -> e_Hash a = e_Hash b.
Proof.
  intros Ha Hb. rewrite !lessPriority_pkey by done. intros H1 H2.
  pose proof (lex_ltb_total _ _ H1 H2) as H. unfold pkey in H.
  injection H as _ _ H. apply app_inj_len in H as [_ H]; [|by rewrite !length_fmap, !length_f_key].
  injection H as _ H. apply (inj hex). by apply (inj (fmap byte_val)).
Qed.

(** ** The class counters *)

Lemma p01 : p0 <> p1. Proof. done. Qed.
Lemma p02 : p0 <> p2. Proof. done. Qed.
Lemma p12 : p1 <> p2. Proof. done. Qed.

Lemma normalize_cases s :
  normalizePriorityClass s = p0 \/ normalizePriorityClass s = p1 \/ normalizePriorityClass s = p2.
Proof. unfold normalizePriorityClass. repeat case_bool_decide; auto. Qed.

Lemma normalize_idem s : normalizePriorityClass (normalizePriorityClass s) = normalizePriorityClass s.
Proof. destruct (normalize_cases s) as [->|[->| ->]]; vm_compute; reflexivity. Qed.

Lemma class_count_cons c e l :
  class_count c (e :: l) = (if bool_decide (PriorityClass e = c) then 1 else 0) + class_count c l.
Proof.
  unfold class_count, of_class, len. rewrite filter_cons. case_decide; case_bool_decide; try done. cbn [length]. lia.
Qed.

Lemma class_count_nonneg c l : 0 <= class_count c l.
Proof. unfold class_count. auto with cyber. Qed.

Definition table (a b c : Z) : gmap bytes Z := <[p0 := a]> (<[p1 := b]> (<[p2 := c]> ∅)).

Lemma table_lookup a b c :
  table a b c !! p0 = Some a /\ table a b c !! p1 = Some b /\ table a b c !! p2 = Some c.
Proof.
  unfold table. pose proof p01. pose proof p02. pose proof p12.
  split_and!; [|rewrite lookup_insert_ne by done|rewrite !lookup_insert_ne by done]; by rewrite lookup_insert_eq.
Qed.

Lemma table_insert a b c x :
  <[p0 := x]> (table a b c) = table x b c /\ <[p1 := x]> (table a b c) = table a x c /\
  <[p2 := x]> (table a b c) = table a b x.
Proof.
  unfold table. pose proof p01. pose proof p02. pose proof p12. split_and!.
  - by rewrite insert_insert_eq.
  - by rewrite (insert_insert_ne _ p1 p0), insert_insert_eq by done.
  - by rewrite (insert_insert_ne _ p2 p0), (insert_insert_ne _ p2 p1), insert_insert_eq by done.
Qed.

Lemma class_table_lookup s l :
  class_table l !! normalizePriorityClass s = Some (class_count (normalizePriorityClass s) l).
Proof.
  destruct (table_lookup (class_count p0 l) (class_count p1 l) (class_count p2 l)) as (H0 & H1 & H2).
  destruct (normalize_cases s) as [->|[->| ->]]; [exact H0|exact H1|exact H2].
Qed.

(** Setting one counter, when the others stay. *)
Lemma class_table_set s l l' :
  (forall c, c <> normalizePriorityClass s -> class_count c l = class_count c l') ->
  <[normalizePriorityClass s := class_count (normalizePriorityClass s) l']> (class_table l) = class_table l'.
Proof.
  intros H. pose proof p01. pose proof p02. pose proof p12.
  destruct (normalize_cases s) as [Hs|[Hs|Hs]]; rewrite Hs in *;
    [etrans; [apply (proj1 (table_insert _ _ _ _))|]
    |etrans; [apply (proj1 (proj2 (table_insert _ _ _ _)))|]
    |etrans; [apply (proj2 (proj2 (table_insert _ _ _ _)))|]];
    unfold class_table, table; rewrite ?(H p0), ?(H p1), ?(H p2) by congruence; done.
Qed.

Lemma class_count_other v l c : c <> PriorityClass v -> class_count c (v :: l) = class_count c l.
Proof. intros H. rewrite class_count_cons, bool_decide_eq_false_2 by congruence. lia. Qed.

Lemma decClassCount_table v l : entry_ok v ->
  decClassCount (PriorityClass v) (class_table (v :: l)) = class_table l.
Proof.
  intros [_ Hv]. unfold decClassCount. rewrite class_table_lookup. cbn [default from_option id].
  rewrite class_count_cons, Hv, bool_decide_eq_true_2 by done. pose proof (class_count_nonneg (PriorityClass v) l).
  rewrite (proj2 (Z.ltb_lt _ _)) by lia.
  replace (1 + class_count (PriorityClass v) l - 1) with (class_count (PriorityClass v) l) by lia.
  rewrite <- Hv. apply class_table_set. rewrite Hv. apply class_count_other.
Qed.

Lemma incClassCount_table e l : entry_ok e ->
  <[PriorityClass e := default 0 (class_table l !! PriorityClass e) + 1]> (class_table l) = class_table (e :: l).
Proof.
  intros [_ He]. rewrite <- He, class_table_lookup. cbn [default from_option id].
  replace (class_count (normalizePriorityClass (PriorityClass e)) l + 1)
    with (class_count (normalizePriorityClass (PriorityClass e)) (e :: l))
    by (rewrite class_count_cons, bool_decide_eq_true_2 by done; lia).
  apply class_table_set. rewrite He. intros c Hc. by rewrite class_count_other.
Qed.

#[export] Instance class_count_perm c : Proper ((≡ₚ) ==> (=)) (class_count c).
Proof. intros l k H. unfold class_count, len, of_class. by rewrite H. Qed.
#[export] Instance class_table_perm : Proper ((≡ₚ) ==> (=)) class_table.
Proof. intros l k H. unfold class_table. by rewrite H. Qed.
#[export] Instance bytes_held_perm : Proper ((≡ₚ) ==> (=)) bytes_held.
Proof. intros l k H. unfold bytes_held. induction H; cbn; lia. Qed.

(** ** The representation *)

Definition values (m : Mempool) : list entry := (map_to_list (entries m)).*2.
Definition abs (m : Mempool) : Pool := MkPool (stable_sort lessPriority (values m)) (prod m).

(** The map and the counters. *)
Record books (m : Mempool) : Prop := {
  books_key k e : entries m !! k = Some e -> k = hex (e_Hash e) /\ entry_ok e;
  books_total : total m = bytes_held (values m);
  books_counts : classCounts m = class_table (values m) }.

(** The heap. *)
Record heaped (m : Mempool) : Prop := {
  heaped_perm : evictHeap m ≡ₚ values m;
  heaped_order : heap heap_less (evictHeap m) }.

Definition rep (m : Mempool) : Prop := books m /\ heaped m.

Lemma elem_of_values m e : e ∈ values m <-> exists k, entries m !! k = Some e.
Proof.
  unfold values. rewrite list_elem_of_fmap. split.
  - intros ([k e'] & -> & H%elem_of_map_to_list). by exists k.
  - intros [k H]. exists (k, e). split; [done|]. by apply elem_of_map_to_list.
Qed.

Lemma values_ok m : books m -> Forall entry_ok (values m).
Proof. intros Hb. apply Forall_forall. intros e [k H]%elem_of_values. by apply (books_key m Hb k e). Qed.

Lemma values_hashes m : books m -> NoDup (e_Hash <$> values m).
Proof.
  intros Hb. apply (NoDup_fmap_1 hex).
  assert (H : hex <$> (e_Hash <$> values m) = (map_to_list (entries m)).*1).
  { unfold values. rewrite <- !list_fmap_compose. apply list_fmap_ext. intros i [k e] Hi. cbn.
    apply list_elem_of_lookup_2, elem_of_map_to_list in Hi. by destruct (books_key m Hb k e Hi). }
  rewrite H. apply NoDup_fst_map_to_list.
Qed.

Lemma values_size m : Z.of_nat (size (entries m)) = len (values m).
Proof. unfold len, values. by rewrite length_fmap, length_map_to_list. Qed.

(** The only sorted arrangement of the entries. *)
Lemma queue_unique m l : books m -> in_less_order lessPriority l -> l ≡ₚ values m -> queue (abs m) = l.
Proof.
  intros Hb Hl Hp. cbn. symmetry. apply (StronglySorted_Permutation_eq (fun x y => lessPriority y x = false)).
  - pose proof (values_hashes m Hb) as Hnd. pose proof (values_ok m Hb) as Hok. rewrite <- Hp in Hnd, Hok.
    rewrite Forall_forall in Hok. intros x y Hx Hy H1 H2.
    assert (Hh : e_Hash x = e_Hash y) by (apply lessPriority_tie; auto).
    apply list_elem_of_lookup in Hx as [i Hi], Hy as [j Hj].
    assert (i = j) as ->; [|congruence].
    apply (NoDup_lookup _ i j (e_Hash x) Hnd); rewrite list_lookup_fmap; [by rewrite Hi|rewrite Hj; cbn; by rewrite Hh].
  - exact Hl.
  - apply (stable_sort_sorted lessPriority entry_ok lessPriority_asym lessPriority_neg_trans), values_ok, Hb.
  - by rewrite stable_sort_perm.
Qed.

Lemma queue_perm m : queue (abs m) ≡ₚ values m.
Proof. apply stable_sort_perm. Qed.
Lemma queue_sorted m : books m -> in_less_order lessPriority (queue (abs m)).
Proof. intros Hb. apply (stable_sort_sorted lessPriority entry_ok lessPriority_asym lessPriority_neg_trans), values_ok, Hb. Qed.

(** A visit in any order sorts to the queue. *)
Lemma range_queue (range : map_range) m : books m -> stable_sort lessPriority (range (entries m)).*2 = queue (abs m).
Proof.
  intros Hb. assert (Hp : (range (entries m)).*2 ≡ₚ values m) by (unfold values; by rewrite (range_perm range)).
  symmetry. apply queue_unique; [done| |by rewrite stable_sort_perm].
  apply (stable_sort_sorted lessPriority entry_ok lessPriority_asym lessPriority_neg_trans). rewrite Hp. by apply values_ok.
Qed.

(** ** Dropping, rebuilding, inserting *)

Lemma values_delete k v m : entries m !! k = Some v -> values m ≡ₚ v :: values (drop_entry k v m).
Proof. intros H. unfold values. cbn. by rewrite <- (map_to_list_delete _ _ _ H). Qed.

Lemma without_head v l : NoDup (e_Hash <$> v :: l) -> without (e_Hash v) (v :: l) = l.
Proof.
  rewrite fmap_cons, NoDup_cons. intros [Hv _]. unfold without.
  rewrite filter_cons_False by (intros H; by apply H). apply list_filter_all, Forall_forall.
  intros x Hx He. apply Hv. rewrite <- He. by apply list_elem_of_fmap_2.
Qed.

Lemma drop_books k v m : books m -> entries m !! k = Some v ->
  books (drop_entry k v m) /\ queue (abs (drop_entry k v m)) = without (e_Hash v) (queue (abs m)).
Proof.
  intros Hb Hk. pose proof (values_delete k v m Hk) as Hp.
  assert (Hb' : books (drop_entry k v m)).
  { constructor.
    - intros k' e He. cbn in He. apply lookup_delete_Some in He as [_ He]. by apply (books_key m Hb).
    - cbn. rewrite (books_total m Hb), Hp. cbn. change (foldr _ _ _) with (bytes_held (values (drop_entry k v m))). lia.
    - cbn. rewrite (books_counts m Hb), Hp. apply decClassCount_table. by destruct (books_key m Hb k v Hk). }
  split; [done|]. apply queue_unique; [done| |].
  - by apply StronglySorted_filter, queue_sorted.
  - unfold without at 1. rewrite queue_perm, Hp. fold (without (e_Hash v) (v :: values (drop_entry k v m))).
    rewrite without_head; [done|]. rewrite <- Hp. by apply values_hashes.
Qed.

Lemma push_all l h : Forall entry_ok l -> Forall entry_ok h -> heap heap_less h ->
  foldl (fun h e => Push heap_less e h) h l ≡ₚ l ++ h /\ heap heap_less (foldl (fun h e => Push heap_less e h) h l).
Proof.
  intros Hl. revert h. induction Hl as [|e l He Hl IH]; intros h Hh Ho; cbn; [done|].
  destruct (IH (Push heap_less e h)) as [H1 H2].
  - rewrite (Push_perm heap_less). by constructor.
  - by apply (Push_heap heap_less entry_ok heap_less_asym heap_less_neg_trans).
  - split; [|done]. rewrite H1, (Push_perm heap_less). by rewrite Permutation_middle.
Qed.

Lemma rebuild_rep (range : map_range) m : books m ->
  rep (rebuildEvictHeap range m) /\ queue (abs (rebuildEvictHeap range m)) = queue (abs m).
Proof.
  intros Hb. assert (Hp : (range (entries m)).*2 ≡ₚ values m) by (unfold values; by rewrite (range_perm range)).
  pose proof (values_ok m Hb) as Hok. rewrite <- Hp in Hok.
  destruct (push_all _ [] Hok (Forall_nil_2 _) (heap_nil _)) as [H1 H2].
  split; [|done]. split; [by destruct Hb|]. constructor; [|exact H2].
  cbn. rewrite H1, app_nil_r. exact Hp.
Qed.

Lemma heaped_ok m : rep m -> Forall entry_ok (evictHeap m).
Proof. intros [Hb Hh]. rewrite (heaped_perm m Hh). by apply values_ok. Qed.

(** The root of the heap is the last of the queue, and popping it keeps the
    representation. *)
Lemma pop_rep m v h : rep m -> evictHeap m = v :: h ->
  let m' := drop_entry (hex (e_Hash v)) v (pop_heap m) in
  entries m !! hex (e_Hash v) = Some v /\ rep m' /\ queue (abs m) = queue (abs m') ++ [v] /\
  cfg m' = cfg m /\ prod m' = prod m /\ S (length (evictHeap m')) = length (evictHeap m).
Proof.
  intros Hr Hv. pose proof (heaped_ok m Hr) as Hok. destruct Hr as [Hb Hh].
  pose proof (heaped_perm m Hh) as Hperm. pose proof (heaped_order m Hh) as Hord. rewrite Hv in Hok, Hperm, Hord.
  destruct (Pop_heap heap_less entry_ok heap_less_asym heap_less_neg_trans v h Hok Hord) as (h' & Hpop & Hph & Hh').
  assert (Hin : v ∈ values m) by (rewrite <- Hperm; by left).
  apply elem_of_values in Hin as [k Hk]. destruct (books_key m Hb k v Hk) as [-> _].
  assert (Hpm : pop_heap m = with_heap h' m) by (unfold pop_heap; by rewrite Hv, Hpop).
  rewrite Hpm. cbv zeta.
  assert (Hbh : books (with_heap h' m)) by (by destruct Hb).
  destruct (drop_books _ v (with_heap h' m) Hbh Hk) as [Hb' Hq].
  pose proof (values_delete _ v m Hk) as Hvals.
  assert (Hp' : h' ≡ₚ values (drop_entry (hex (e_Hash v)) v m)).
  { apply (Permutation_cons_inv (a := v)). by rewrite <- Hph, Hperm, Hvals. }
  split; [done|]. split; [by split; [|constructor]|]. split; [|split; [done|split; [done|]]].
  - apply queue_unique; [done| |].
    + apply StronglySorted_snoc; [by apply queue_sorted|]. rewrite queue_perm.
      apply Forall_forall. intros y Hy.
      apply (heap_root heap_less entry_ok heap_less_asym heap_less_neg_trans v h y Hok Hord).
      rewrite Hperm, Hvals. by right.
    + rewrite queue_perm, Hvals. rewrite Permutation_app_comm. done.
  - cbn. rewrite Hv, Hph. done.
Qed.

Lemma insert_rep e m : rep m -> entry_ok e -> entries m !! hex (e_Hash e) = None ->
  rep (insert_entry (hex (e_Hash e)) e m) /\
  queue (abs (insert_entry (hex (e_Hash e)) e m)) = insert_stable lessPriority e (queue (abs m)).
Proof.
  intros Hr He Hk. pose proof (heaped_ok m Hr) as Hok. destruct Hr as [Hb Hh].
  assert (Hp : values (insert_entry (hex (e_Hash e)) e m) ≡ₚ e :: values m).
  { unfold values. cbn. by rewrite (map_to_list_insert _ _ _ Hk). }
  assert (Hb' : books (insert_entry (hex (e_Hash e)) e m)).
  { constructor.
    - intros k e' He'. cbn in He'. apply lookup_insert_Some in He' as [[<- <-]|[_ He']]; [done|by apply (books_key m Hb)].
    - rewrite Hp. cbn. rewrite (books_total m Hb). unfold bytes_held. lia.
    - rewrite Hp. cbn. rewrite (books_counts m Hb). by apply incClassCount_table. }
  split; [split; [done|constructor]|].
  - rewrite Hp. cbn. by rewrite (Push_perm heap_less), (heaped_perm m Hh).
  - apply (Push_heap heap_less entry_ok heap_less_asym heap_less_neg_trans); [done|done|by apply heaped_order].
  - apply queue_unique; [done| |].
    + apply (insert_stable_sorted lessPriority entry_ok lessPriority_asym lessPriority_neg_trans); [done| |by apply queue_sorted].
      rewrite queue_perm. by apply values_ok.
    + rewrite insert_stable_perm, queue_perm. by rewrite Hp.
Qed.

(** ** Eviction *)

Lemma needs_room_queue e m : books m ->
  needs_room e m = (0 <? bytes_held (queue (abs m)) + Size e - MaxBytes (cfg m)) ||
                   (0 <? len (queue (abs m)) + 1 - MaxTxs (cfg m)).
Proof.
  intros Hb. unfold needs_room. rewrite values_size, (books_total m Hb). unfold len. by rewrite !queue_perm.
Qed.

Lemma evict_loop_sim e fuel m : rep m -> (length (evictHeap m) < fuel)%nat ->
  exists r m', evict_loop fuel e m = (r, m') /\
    spec_evict (cfg m) e (reverse (queue (abs m))) = (r, reverse (queue (abs m'))) /\
    rep m' /\ cfg m' = cfg m /\ prod m' = prod m.
Proof.
  revert m. induction fuel as [|fuel IH]; intros m Hr Hf; [lia|].
  pose proof (proj1 Hr) as Hb. cbn [evict_loop]. unfold mbind, ST_bind, gets. rewrite (needs_room_queue e m Hb).
  destruct (evictHeap m) as [|v h] eqn:Hh.
  - assert (Hq : queue (abs m) = []).
    { apply Permutation_nil. rewrite queue_perm, <- (heaped_perm m (proj2 Hr)). by rewrite Hh. }
    rewrite Hq. exists (Ok tt), m. destruct (_ || _); by rewrite Hq.
  - destruct (pop_rep m v h Hr Hh) as (Hk & Hr' & Hq & Hc & Hp & Hlen).
    set (m' := drop_entry (hex (e_Hash v)) v (pop_heap m)) in *. rewrite Hq, reverse_snoc. cbn [spec_evict].
    replace (bytes_held (v :: reverse (queue (abs m')))) with (bytes_held (queue (abs m') ++ [v]))
      by (rewrite <- reverse_snoc; by rewrite reverse_Permutation).
    replace (len (v :: reverse (queue (abs m')))) with (len (queue (abs m') ++ [v]))
      by (rewrite len_app; unfold len; cbn [length]; rewrite length_reverse; lia).
    destruct (_ || _).
    + rewrite bool_decide_eq_true_2 by (by exists v). cbn [negb]. unfold fail_if.
      destruct (lessPriority e v) eqn:Hless; cbn [negb].
      * unfold modify. fold m'. destruct (IH m') as (r & m'' & H1 & H2 & H3 & H4 & H5); [done|rewrite Hh in Hlen; lia|].
        exists r, m''. rewrite Hc in H2, H4. by rewrite Hp in H5.
      * exists (Err ErrMempoolFull), m. by rewrite Hq, reverse_snoc.
    + exists (Ok tt), m. by rewrite Hq, reverse_snoc.
Qed.

(** ** The weakest entry of a class *)

Lemma last_weakest q w : in_less_order lessPriority q -> NoDup (e_Hash <$> q) -> Forall entry_ok q ->
  w ∈ q -> (forall x, x ∈ q -> lessPriority w x = false) -> last q = Some w.
Proof.
  intros Hs Hnd Hok Hw Hmin. destruct q as [|u q'] using rev_ind; [by apply not_elem_of_nil in Hw|]. clear IHq'.
  rewrite last_snoc. f_equal. apply elem_of_app in Hw as [Hw|Hw%list_elem_of_singleton]; [|done].
  apply Forall_app in Hok as [Hok Hu]. rewrite Forall_singleton in Hu.
  assert (Hwu : lessPriority u w = false).
  { clear -Hs Hw. induction q' as [|x q' IH]; [by apply not_elem_of_nil in Hw|]. cbn in Hs. inversion Hs as [|? ? Hs' Hx]; subst.
    apply elem_of_cons in Hw as [->|Hw]; [|by apply IH].
    rewrite Forall_forall in Hx. apply Hx, elem_of_app. right. by left. }
  assert (Hh : e_Hash u = e_Hash w).
  { apply lessPriority_tie; [done|rewrite Forall_forall in Hok; by apply Hok|done|].
    apply Hmin, elem_of_app. right. by left. }
  rewrite fmap_app, NoDup_app in Hnd. destruct Hnd as (_ & Hnd & _). exfalso.
  apply (Hnd (e_Hash w)); [by apply list_elem_of_fmap_2|]. rewrite <- Hh. by left.
Qed.

Definition weakest_step (class : bytes) (weakest : option (bytes * entry)) (kv : bytes * entry) :=
  if negb (bool_decide (normalizePriorityClass (PriorityClass kv.2) = class)) then weakest
  else match weakest with
       | None => Some kv
       | Some (_, w) => if lessPriority w kv.2 then Some kv else weakest
       end.

Lemma weakest_fold class l : Forall (fun kv => entry_ok kv.2) l ->
  match foldl (weakest_step class) None l with
  | None => Forall (fun kv => PriorityClass kv.2 <> class) l
  | Some kv => kv ∈ l /\ PriorityClass kv.2 = class /\
               forall kv', kv' ∈ l -> PriorityClass kv'.2 = class -> lessPriority kv.2 kv'.2 = false
  end.
Proof.
  induction l as [|x l IH] using rev_ind; intros Hok; [constructor|].
  apply Forall_app in Hok as [Hok Hx]. rewrite Forall_singleton in Hx. specialize (IH Hok).
  rewrite foldl_app. cbn [foldl]. unfold weakest_step at 1.
  rewrite (proj2 Hx). rewrite Forall_forall in Hok.
  assert (Hrefl : forall y, entry_ok y -> lessPriority y y = false)
    by (intros y Hy; rewrite lessPriority_pkey by done; apply lex_ltb_irrefl).
  case_bool_decide as Hc; cbn [negb].
  - destruct (foldl _ None l) as [[k w]|] eqn:Hf; [destruct IH as (Hin & Hwc & Hw); cbn [snd] in *; destruct (lessPriority w x.2) eqn:Hless|].
    + split; [apply elem_of_app; right; by left|]. split; [done|].
      intros y [Hy|Hy%list_elem_of_singleton]%elem_of_app Hyc; [|subst; by apply Hrefl].
      specialize (Hw y Hy Hyc). apply (lessPriority_neg_trans y.2 w x.2); [by apply Hok|by apply (Hok _ Hin)|done|done|].
      by apply lessPriority_asym; [apply (Hok _ Hin)|..].
    + split; [apply elem_of_app; by left|]. split; [done|].
      intros y [Hy|Hy%list_elem_of_singleton]%elem_of_app Hyc; [by apply Hw|by subst].
    + split; [apply elem_of_app; right; by left|]. split; [done|]. rewrite Forall_forall in IH.
      intros y [Hy|Hy%list_elem_of_singleton]%elem_of_app Hyc; [by contradict Hyc; apply IH|subst; by apply Hrefl].
  - destruct (foldl _ None l) as [kv|] eqn:Hf.
    + destruct IH as (Hin & Hwc & Hw). split; [apply elem_of_app; by left|]. split; [done|].
      intros y [Hy|Hy%list_elem_of_singleton]%elem_of_app Hyc; [by apply Hw|by subst].
    + apply Forall_app. by rewrite Forall_singleton.
Qed.

Lemma weakestInClass_queue (range : map_range) e m : books m -> entry_ok e ->
  match weakestInClass range (PriorityClass e) m with
  | Some (k, v) => entries m !! k = Some v /\ last (of_class (PriorityClass e) (queue (abs m))) = Some v
  | None => last (of_class (PriorityClass e) (queue (abs m))) = None
  end.
Proof.
  intros Hb [_ He]. unfold weakestInClass. rewrite He.
  change (foldl _ None (range (entries m))) with (foldl (weakest_step (PriorityClass e)) None (range (entries m))).
  assert (Hel : forall kv, kv ∈ range (entries m) <-> entries m !! kv.1 = Some kv.2).
  { intros [k v]. rewrite (range_perm range). apply elem_of_map_to_list. }
  assert (Hok : Forall (fun kv => entry_ok kv.2) (range (entries m))).
  { apply Forall_forall. intros kv Hkv%Hel. by destruct (books_key m Hb _ _ Hkv). }
  assert (Hq : forall v, v ∈ queue (abs m) <-> exists k, (k, v) ∈ range (entries m)).
  { intros v. rewrite (queue_perm m), elem_of_values. by setoid_rewrite Hel. }
  pose proof (weakest_fold (PriorityClass e) _ Hok) as H. destruct (foldl _ None _) as [[k v]|]; cbn [fst snd] in H.
  - destruct H as (Hin & Hc & Hmin). split; [by apply (Hel (k, v))|]. apply last_weakest.
    + by apply StronglySorted_filter, queue_sorted.
    + unfold of_class. rewrite (queue_perm m). apply (sublist_NoDup _ (e_Hash <$> values m)); [by apply values_hashes|].
      apply fmap_sublist, sublist_filter.
    + apply Forall_forall. intros x (_ & Hx)%list_elem_of_filter. rewrite (queue_perm m) in Hx.
      pose proof (values_ok m Hb) as Hv. rewrite Forall_forall in Hv. by apply Hv.
    + apply list_elem_of_filter. split; [done|]. apply Hq. by exists k.
    + intros x (Hxc & [kx Hx]%Hq)%list_elem_of_filter. by apply (Hmin (kx, x)).
  - destruct (of_class _ _) as [|x l] eqn:Ho; [done|]. exfalso.
    assert (Hx : x ∈ of_class (PriorityClass e) (queue (abs m))) by (rewrite Ho; by left).
    apply list_elem_of_filter in Hx as (Hxc & [kx Hx]%Hq). rewrite Forall_forall in H. by apply (H (kx, x)).
Qed.

Lemma make_class_room_sim (range : map_range) e m : rep m -> entry_ok e ->
  exists r m', make_class_room range e m = (r, m') /\ rep m' /\ cfg m' = cfg m /\ prod m' = prod m /\
    match r with
    | Ok _ => spec_class_room (cfg m) e (queue (abs m)) = Ok (queue (abs m'))
    | Err err => spec_class_room (cfg m) e (queue (abs m)) = Err err /\ m' = m
    end.
Proof.
  intros Hr He. pose proof (proj1 Hr) as Hb. unfold make_class_room, mbind, ST_bind, gets, spec_class_room.
  assert (Hf : classFull e m = (0 <? classCap (cfg m) (PriorityClass e)) &&
      (classCap (cfg m) (PriorityClass e) <=? class_count (PriorityClass e) (queue (abs m)))).
  { unfold classFull. rewrite (books_counts m Hb), <- (proj2 He), class_table_lookup. cbn [default from_option id].
    by rewrite (queue_perm m). }
  rewrite Hf. destruct (_ && _); cbn [negb]; [|by exists (Ok tt), m].
  pose proof (weakestInClass_queue range e m Hb He) as Hw.
  destruct (weakestInClass range (PriorityClass e) m) as [[k v]|].
  - destruct Hw as [Hk Hlast]. rewrite Hlast. unfold fail_if. destruct (lessPriority e v); cbn [negb].
    + destruct (drop_books k v m Hb Hk) as [Hb' Hq]. destruct (rebuild_rep range _ Hb') as [Hr' Hq'].
      eexists (Ok tt), _. split; [reflexivity|]. split; [exact Hr'|]. by rewrite Hq', Hq.
    + by eexists (Err _), m.
  - rewrite Hw. by eexists (Err _), m.
Qed.

(** ** Admission *)

Lemma new_entry_ok tx meta : is_nan (m_Confidence meta) = false -> entry_ok (new_entry tx meta).
Proof. intros H. split; [done|]. apply normalize_idem. Qed.

Lemma put_producer_rep pid ps m : rep m -> rep (put_producer pid ps m).
Proof. intros [[] []]. by split; constructor. Qed.

(** The insertion keeps the other entries. *)
Lemma make_room_fresh e key m r m' : evict e m = (r, m') -> entries m !! key = None -> entries m' !! key = None.
Proof.
  unfold evict, mbind, ST_bind, gets. generalize (S (length (evictHeap m))) as fuel. intros fuel. revert m.
  induction fuel as [|fuel IH]; intros m; [by intros [= _ <-]|]. cbn [evict_loop]. unfold mbind, ST_bind, gets.
  assert (Hpop : forall m, entries (pop_heap m) = entries m) by (intros m0; unfold pop_heap; by destruct (Pop _ _) as [[]|]).
  destruct (needs_room e m); [|by intros [= _ <-]]. destruct (evictHeap m) as [|v h]; [by intros [= _ <-]|].
  destruct (bool_decide _); cbn [negb].
  - unfold fail_if, modify. destruct (negb _); [by intros [= _ <-]|].
    intros H Hk. apply (IH _ H). cbn. rewrite Hpop. rewrite lookup_delete_None. by right.
  - unfold modify. intros H Hk. apply (IH _ H). by rewrite Hpop.
Qed.

Lemma make_class_room_fresh (range : map_range) e key m r m' :
  make_class_room range e m = (r, m') -> entries m !! key = None -> entries m' !! key = None.
Proof.
  unfold make_class_room, mbind, ST_bind, gets. destruct (classFull e m); cbn [negb]; [|by intros [= _ <-]].
  destruct (weakestInClass _ _ _) as [[k v]|]; [|by intros [= _ <-]].
  unfold fail_if. destruct (negb _); [by intros [= _ <-]|]. unfold modify. intros [= _ <-] Hk. cbn.
  rewrite lookup_delete_None. by right.
Qed.

Lemma at_capacity_queue e m : books m -> at_capacity e m = spec_full (cfg m) e (queue (abs m)).
Proof.
  intros Hb. unfold at_capacity, spec_full. rewrite values_size, (books_total m Hb). unfold len. by rewrite !queue_perm.
Qed.

Lemma duplicate_queue e m : books m ->
  bool_decide (is_Some (entries m !! hex (e_Hash e))) = bool_decide (e_Hash e ∈ e_Hash <$> queue (abs m)).
Proof.
  intros Hb. apply bool_decide_ext. rewrite (queue_perm m). split.
  - intros [v Hv]. destruct (books_key m Hb _ _ Hv) as [->%(inj hex) _]. apply list_elem_of_fmap_2.
    apply elem_of_values. by eexists.
  - intros (v & Hh & [k Hk]%elem_of_values)%list_elem_of_fmap. rewrite Hh.
    destruct (books_key m Hb _ _ Hk) as [-> _]. by exists v.
Qed.

(** What [Add] does after the producer's checks. *)
Definition place (range : map_range) (e : entry) (expiry : Time) : MP unit :=
  make_class_room range e ;;
  evict e ;;
  full ← gets (at_capacity e);
  fail_if full ErrMempoolFull ;;
  modify (insert_entry (hex (e_Hash e)) e) ;;
  modify (remember_nonce (hex (e_ProducerID e)) (hex (e_Nonce e)) expiry).

Lemma place_sim (range : map_range) e expiry ps m : rep m -> entry_ok e -> entries m !! hex (e_Hash e) = None ->
  prod m !! hex (e_ProducerID e) = Some ps ->
  exists r m', place range e expiry m = (r, m') /\ rep m' /\ cfg m' = cfg m /\
    let '(r', q) := spec_make_room (cfg m) e (queue (abs m)) in
    r' = r /\
    match r with
    | Ok _ => queue (abs m') = insert_stable lessPriority e q /\
              prod m' = <[hex (e_ProducerID e) := MkProducer (p_bucket ps) (<[hex (e_Nonce e) := expiry]> (nonces ps))]> (prod m)
    | Err _ => queue (abs m') = q /\ prod m' = prod m
    end.
Proof.
  intros Hr He Hfresh Hps. unfold place, spec_make_room.
  destruct (make_class_room_sim range e m Hr He) as ([[]|err] & m1 & H1 & Hr1 & Hc1 & Hp1 & Hq1).
  2: { destruct Hq1 as [Hq1 ->]. rewrite Hq1. exists (Err err), m. unfold mbind at 1, ST_bind at 1. by rewrite H1. }
  pose proof (make_class_room_fresh range e _ m _ m1 H1 Hfresh) as Hfresh1.
  rewrite Hq1. unfold mbind at 1, ST_bind at 1. rewrite H1. clear H1 Hq1.
  destruct (evict_loop_sim e (S (length (evictHeap m1))) m1 Hr1 ltac:(lia)) as (r2 & m2 & H2 & Hs2 & Hr2 & Hc2 & Hp2).
  rewrite <- Hc1, Hs2, reverse_involutive. change (evict e m1 = (r2, m2)) in H2.
  pose proof (make_room_fresh e _ m1 _ m2 H2 Hfresh1) as Hfresh2.
  unfold mbind at 1, ST_bind at 1. rewrite H2. destruct r2 as [[]|err].
  2: { exists (Err err), m2. split_and!; try done; congruence. }
  unfold mbind, ST_bind, gets, fail_if. rewrite (at_capacity_queue e m2 (proj1 Hr2)), Hc2.
  destruct (spec_full _ _ _).
  { eexists (Err _), m2. split_and!; try done; congruence. }
  unfold modify. destruct (insert_rep e m2 Hr2 He Hfresh2) as [Hr3 Hq3].
  eexists (Ok tt), _. split; [reflexivity|]. unfold remember_nonce. cbn [prod insert_entry].
  rewrite Hp2, Hp1, Hps.
  split; [by apply put_producer_rep|]. split; [cbn; congruence|]. split; [done|]. split; [exact Hq3|].
  cbn. by rewrite Hp2, Hp1.
Qed.

Lemma Add_sim (range : map_range) tx meta now m : rep m -> is_nan (m_Confidence meta) = false ->
  exists r m', Add range tx meta now m = (r, m') /\ rep m' /\ cfg m' = cfg m /\
    spec_Add (cfg m) tx meta now (abs m) = (r, abs m').
Proof.
  intros Hr Hm. destruct tx as [tx|]; [|by exists (Err ErrInvalidTx), m]. cbn [Add spec_Add].
  unfold state_call, mbind, ST_bind, gets, lift. destruct (Validate tx now (Skew (cfg m))) as [[]|err].
  2: { by exists (Err (ErrState err)), m. }
  change (hex (EnvContentHash (Envelope_ tx))) with (hex (e_Hash (new_entry tx meta))).
  rewrite (duplicate_queue (new_entry tx meta) m (proj1 Hr)). unfold fail_if.
  destruct (bool_decide (_ ∈ _)) eqn:Hdup; [by exists (Err ErrDuplicate), m|].
  rewrite <- (duplicate_queue (new_entry tx meta) m (proj1 Hr)) in Hdup. go_bool.
  apply eq_None_not_Some in Hdup. cbn [sessions abs].
  change (hex (ProducerID (Envelope_ tx))) with (hex (e_ProducerID (new_entry tx meta))).
  change (hex (Nonce (Envelope_ tx))) with (hex (e_Nonce (new_entry tx meta))).
  destruct (check_producer _ _ _ _) as [[[]|err] ps].
  2: { eexists (Err err), _. split; [reflexivity|]. split; [by apply put_producer_rep|]. done. }
  set (e := new_entry tx meta) in *. cbn [modify].
  destruct (place_sim range e (GoTime.Add now (NonceTTL (cfg m))) ps (put_producer (hex (e_ProducerID e)) ps m))
    as (r & m' & H1 & H2 & H3 & H4).
  - by apply put_producer_rep.
  - by apply new_entry_ok.
  - done.
  - cbn. by rewrite lookup_insert_eq.
  - exists r, m'. split; [exact H1|]. split; [done|]. split; [done|].
    change (queue (abs (put_producer (hex (e_ProducerID e)) ps m))) with (queue (abs m)) in H4. cbn [cfg put_producer] in H4.
    cbn [queue] in *. destruct (spec_make_room _ _ _) as [r' q]. destruct H4 as [-> H4].
    destruct r as [[]|err]; destruct H4 as [Hq Hp]; unfold abs in *; cbn in *; rewrite Hp, <- Hq; [|done].
    by rewrite insert_insert_eq.
Qed.

(** ** Removal *)

Lemma remove_hash_books h m : books m ->
  books (remove_hash m h) /\ queue (abs (remove_hash m h)) = without h (queue (abs m)).
Proof.
  intros Hb. unfold remove_hash. destruct (entries m !! hex h) as [v|] eqn:Hv.
  - destruct (books_key m Hb _ _ Hv) as [->%(inj hex) _]. by apply drop_books.
  - split; [done|]. symmetry. apply list_filter_all, Forall_forall. intros e He <-.
    rewrite (queue_perm m), elem_of_values in He. destruct He as [k Hk].
    destruct (books_key m Hb _ _ Hk) as [-> _]. congruence.
Qed.

Lemma remove_hashes_books hs m : books m ->
  books (foldl remove_hash m hs) /\ queue (abs (foldl remove_hash m hs)) = spec_Remove hs (queue (abs m)).
Proof.
  revert m. induction hs as [|h hs IH]; intros m Hb; cbn [foldl].
  - split; [done|]. symmetry. apply list_filter_all, Forall_forall. intros e _. apply not_elem_of_nil.
  - destruct (remove_hash_books h m Hb) as [Hb' Hq]. destruct (IH _ Hb') as [Hb'' ->]. split; [done|].
    rewrite Hq. unfold spec_Remove, without. rewrite list_filter_filter. apply filter_ext_in.
    intros e _. rewrite not_elem_of_cons. tauto.
Qed.

Lemma remove_hash_same hs m : cfg (foldl remove_hash m hs) = cfg m /\ prod (foldl remove_hash m hs) = prod m.
Proof.
  revert m. induction hs as [|h hs IH]; intros m; cbn [foldl]; [done|]. destruct (IH (remove_hash m h)) as [-> ->].
  unfold remove_hash. by destruct (entries m !! hex h).
Qed.

Lemma Remove_sim (range : map_range) hs m : rep m ->
  rep (Remove range hs m) /\ cfg (Remove range hs m) = cfg m /\
  abs (Remove range hs m) = MkPool (spec_Remove hs (queue (abs m))) (prod m).
Proof.
  intros [Hb _]. destruct (remove_hashes_books hs m Hb) as [Hb' Hq].
  destruct (rebuild_rep range _ Hb') as [Hr Hq']. destruct (remove_hash_same hs m) as [Hc Hp].
  split; [done|]. split; [exact Hc|]. unfold Remove. rewrite <- Hq, <- Hq', <- Hp. reflexivity.
Qed.

Lemma drop_matching set l m b : books m -> NoDup l.*1 -> (forall kv, kv ∈ l -> entries m !! kv.1 = Some kv.2) ->
  foldl (fun '(m, removed) kv =>
      if bool_decide (nonce_id (e_ProducerID kv.2) (e_Nonce kv.2) ∈ set)
      then (drop_entry kv.1 kv.2 m, true) else (m, removed)) (m, b) l =
  let hs := e_Hash <$> filter (fun e => nonce_id (e_ProducerID e) (e_Nonce e) ∈ (set : gset bytes)) l.*2 in
  (foldl remove_hash m hs, b || negb (bool_decide (hs = []))).
Proof.
  revert m b. induction l as [|[k v] l IH]; intros m b Hb Hnd Hl; cbn [foldl].
  { cbv zeta. by rewrite bool_decide_eq_true_2, orb_false_r. }
  cbn [fst snd fmap list_fmap] in *. apply NoDup_cons in Hnd as [Hk Hnd].
  pose proof (Hl (k, v) ltac:(by left)) as Hkv. cbn in Hkv.
  destruct (decide (nonce_id (e_ProducerID v) (e_Nonce v) ∈ set)) as [Hin|Hin].
  - rewrite filter_cons_True, (bool_decide_eq_true_2 _ Hin) by done. rewrite IH; [|by apply drop_books|done|].
    + destruct (books_key m Hb _ _ Hkv) as [-> _]. cbn [fmap list_fmap foldl].
      replace (remove_hash m (e_Hash v)) with (drop_entry (hex (e_Hash v)) v m) by (unfold remove_hash; by rewrite Hkv).
      cbv zeta. by rewrite (bool_decide_eq_false_2 (_ :: _ = [])), orb_true_r by done.
    + intros [k' v'] Hin'. cbn. rewrite lookup_delete_ne; [by apply (Hl (k', v')); right|].
      intros ->. apply Hk. by apply (list_elem_of_fmap_2 fst) in Hin'.
  - rewrite filter_cons_False, (bool_decide_eq_false_2 _ Hin) by done. apply IH; [done|done|].
    intros kv Hkv'. apply Hl. by right.
Qed.

Lemma RemoveByProducerNonces_sim (range : map_range) keys m : rep m ->
  let m' := RemoveByProducerNonces range keys m in
  rep m' /\ cfg m' = cfg m /\ abs m' = MkPool (spec_RemoveByProducerNonces keys (queue (abs m))) (prod m).
Proof.
  intros Hr. pose proof (proj1 Hr) as Hb. cbv zeta. unfold RemoveByProducerNonces, spec_RemoveByProducerNonces.
  case_bool_decide as He.
  { split; [done|]. split; [done|]. unfold abs at 1. f_equal. symmetry. apply list_filter_all, Forall_forall.
    intros e _. rewrite He. set_solver. }
  assert (Hvals : (range (entries m)).*2 ≡ₚ values m) by (unfold values; by rewrite (range_perm range)).
  rewrite drop_matching; [|done| |].
  2: { rewrite (range_perm range). apply NoDup_fst_map_to_list. }
  2: { intros [k v] Hkv. rewrite (range_perm range) in Hkv. by apply elem_of_map_to_list in Hkv. }
  cbv zeta. set (matching := filter _ _). set (hs := e_Hash <$> matching). cbn [orb].
  assert (Hsame : spec_Remove hs (queue (abs m)) =
    filter (fun e => nonce_id (e_ProducerID e) (e_Nonce e) ∉ nonce_set keys) (queue (abs m))).
  { apply filter_ext_in. intros e Hq. rewrite (queue_perm m) in Hq. split; intros H Hin; apply H.
    - unfold hs, matching. apply list_elem_of_fmap_2, list_elem_of_filter. by rewrite Hvals.
    - apply list_elem_of_fmap in Hin as (e' & Hh & (Hin & He')%list_elem_of_filter).
      rewrite Hvals in He'. apply elem_of_values in Hq as [k Hk], He' as [k' Hk'].
      destruct (books_key m Hb _ _ Hk) as [-> _], (books_key m Hb _ _ Hk') as [-> _].
      rewrite Hh, Hk' in Hk. by injection Hk as <-. }
  destruct (remove_hashes_books hs m Hb) as [Hb' Hq']. destruct (remove_hash_same hs m) as [Hc Hp].
  case_bool_decide as Hn; cbn [negb].
  - rewrite Hn in *. cbn [foldl] in *. split; [done|]. split; [done|]. rewrite <- Hsame, <- Hq'. done.
  - destruct (rebuild_rep range _ Hb') as [Hr' Hq'']. split; [done|]. split; [done|].
    rewrite <- Hsame, <- Hq', <- Hq'', <- Hp. reflexivity.
Qed.
