(* ===== verification/MempoolRuns.v ===== *)
(** The properties of the mempool over any run of its operations, and a concrete
    run that exercises eviction. *)
From S2P Require Import Prelude Bytes Sha256 GoTime GoFloat GoStrings Codec Heap Mempool MempoolSpec.
Import Codec Model.

Section mempool.
Context {Ed : Ed25519}.

(** ** Runs *)

Inductive mp_call :=
| CAdd (range : map_range) (tx : option Transaction) (meta : AdmissionMeta) (now : Time)
| CAdmit (range : map_range) (tx : Transaction) (meta : AdmissionMeta) (now : Time)
| CRemove (range : map_range) (hashes : list bytes)
| CRemoveByProducerNonces (range : map_range) (keys : list ProducerNonce)
| CSelect (range : map_range) (maxCount maxBytes : Z)
| CStats
| CClassStats.

Inductive mp_out :=
| ODone
| OError (r : result mp_error unit)
| OTxs (txs : list Transaction)
| OStats (stats : Z * Z)
| OClasses (counts : gmap bytes Z).

Definition run_mp (c : mp_call) (m : Mempool) : mp_out * Mempool :=
  match c with
  | CAdd range tx meta now => let '(r, m') := Add range tx meta now m in (OError r, m')
  | CAdmit range tx meta now => let '(r, m') := Admit range tx meta now m in (OError r, m')
  | CRemove range hashes => (ODone, Remove range hashes m)
  | CRemoveByProducerNonces range keys => (ODone, RemoveByProducerNonces range keys m)
  | CSelect range maxCount maxBytes => (OTxs (Select range maxCount maxBytes m), m)
  | CStats => (OStats (Stats m), m)
  | CClassStats => (OClasses (ClassStats m), m)
  end.

(** The same calls on the queue: no call needs the order of a map. *)
Definition spec_run (cf : Config) (c : mp_call) (p : Pool) : mp_out * Pool :=
  match c with
  | CAdd _ tx meta now => let '(r, p') := spec_Add cf tx meta now p in (OError r, p')
  | CAdmit _ tx meta now =>
      match VerifyEnvelope tx with
      | Ok _ => let '(r, p') := spec_Add cf (Some tx) meta now p in (OError r, p')
      | Err e => (OError (Err e), p)
      end
  | CRemove _ hashes => (ODone, MkPool (spec_Remove hashes (queue p)) (sessions p))
  | CRemoveByProducerNonces _ keys => (ODone, MkPool (spec_RemoveByProducerNonces keys (queue p)) (sessions p))
  | CSelect _ maxCount maxBytes => (OTxs (take_fitting maxCount maxBytes 0 0 (queue p)), p)
  | CStats => (OStats (len (queue p), bytes_held (queue p)), p)
  | CClassStats => (OClasses (class_table (queue p)), p)
  end.

Fixpoint run_all (cs : list mp_call) (m : Mempool) : list mp_out * Mempool :=
  match cs with
  | [] => ([], m)
  | c :: cs' => let '(o, m) := run_mp c m in let '(os, m) := run_all cs' m in (o :: os, m)
  end.
Fixpoint spec_run_all (cf : Config) (cs : list mp_call) (p : Pool) : list mp_out * Pool :=
  match cs with
  | [] => ([], p)
  | c :: cs' => let '(o, p) := spec_run cf c p in let '(os, p) := spec_run_all cf cs' p in (o :: os, p)
  end.

(** Confidences are numbers. *)
Definition call_ok (c : mp_call) : Prop :=
  match c with
  | CAdd _ _ meta _ | CAdmit _ _ meta _ => is_nan (m_Confidence meta) = false
  | _ => True
  end.

Lemma run_sim c m o m' : rep m -> call_ok c -> run_mp c m = (o, m') ->
  rep m' /\ cfg m' = cfg m /\ spec_run (cfg m) c (abs m) = (o, abs m').
Proof.
  intros Hr Hc. pose proof (proj1 Hr) as Hb. destruct c; cbn [run_mp spec_run call_ok] in *.
  - destruct (Add_sim range tx meta now m Hr Hc) as (r & m1 & -> & H1 & H2 & H3). intros [= <- <-]. by rewrite H3.
  - unfold Admit, mbind, ST_bind, lift. destruct (VerifyEnvelope tx) as [[]|e]; [|by intros [= <- <-]].
    destruct (Add_sim range (Some tx) meta now m Hr Hc) as (r & m1 & -> & H1 & H2 & H3). intros [= <- <-]. by rewrite H3.
  - intros [= <- <-]. destruct (Remove_sim range hashes m Hr) as (H1 & H2 & H3). by rewrite H3.
  - intros [= <- <-]. destruct (RemoveByProducerNonces_sim range keys m Hr) as (H1 & H2 & H3). by rewrite H3.
  - intros [= <- <-]. unfold Select. by rewrite (range_queue range m Hb).
  - intros [= <- <-]. unfold Stats. rewrite values_size, (books_total m Hb). unfold len. by rewrite !(queue_perm m).
  - intros [= <- <-]. unfold ClassStats. rewrite (books_counts m Hb). by rewrite (queue_perm m).
Qed.

Lemma run_all_sim cs m os m' : rep m -> Forall call_ok cs -> run_all cs m = (os, m') ->
  rep m' /\ cfg m' = cfg m /\ spec_run_all (cfg m) cs (abs m) = (os, abs m').
Proof.
  intros Hr Hcs. revert m os m' Hr. induction Hcs as [|c cs Hc Hcs IH]; intros m os m' Hr; cbn.
  { by intros [= <- <-]. }
  destruct (run_mp c m) as [o m1] eqn:H1. destruct (run_all cs m1) as [os' m2] eqn:H2. intros [= <- <-].
  destruct (run_sim c m o m1 Hr Hc H1) as (Hr1 & Hc1 & ->). destruct (IH m1 os' m2 Hr1 H2) as (Hr2 & Hc2 & Hs).
  rewrite Hc1 in Hs, Hc2. by rewrite Hs.
Qed.

Lemma New_rep c : rep (New c).
Proof.
  split; constructor.
  - intros k e H. cbn in H. by rewrite lookup_empty in H.
  - unfold values. cbn. by rewrite map_to_list_empty.
  - unfold values. cbn. by rewrite map_to_list_empty.
  - unfold values. cbn. by rewrite map_to_list_empty.
  - apply heap_nil.
Qed.

Lemma New_abs c : abs (New c) = MkPool [] ∅.
Proof. reflexivity. Qed.

(** C8. The mempool refines the queue: over any run of its operations from empty,
    whatever order the map iterations take, every answer, errors included, is the
    one of a list kept in strict priority order that drops its weakest entries. *)
Theorem mempool_refines_queue (c : Config) (cs : list mp_call) (Hok : Forall call_ok cs) :
  (run_all cs (New c)).1 = (spec_run_all c cs (MkPool [] ∅)).1 /\
  abs (run_all cs (New c)).2 = (spec_run_all c cs (MkPool [] ∅)).2.
Proof.
  destruct (run_all cs (New c)) as [os m'] eqn:H. destruct (run_all_sim cs _ os m' (New_rep c) Hok H) as (_ & _ & Hs).
  cbn [cfg New] in Hs. rewrite New_abs in Hs. by rewrite Hs.
Qed.

(** ** Bounds *)

Record bounded (c : Config) (q : list entry) : Prop := {
  bounded_txs : 0 < MaxTxs c -> len q <= MaxTxs c;
  bounded_bytes : 0 < MaxBytes c -> bytes_held q <= MaxBytes c;
  bounded_class s : 0 < classCap c s -> class_count (normalizePriorityClass s) q <= classCap c s;
  bounded_sizes : Forall (fun e => 0 <= Size e) q }.

Lemma bytes_held_sublist q q' : Forall (fun e => 0 <= Size e) q -> sublist q' q ->
  bytes_held q' <= bytes_held q /\ Forall (fun e => 0 <= Size e) q'.
Proof.
  intros Hq Hs. unfold bytes_held. induction Hs as [|e q' q Hs IH|e q' q Hs IH]; cbn; [done|..];
    apply Forall_cons in Hq as [He Hq]; destruct (IH Hq) as [H1 H2]; (split; [lia|]); [by constructor|done].
Qed.

Lemma class_count_sublist c q q' : sublist q' q -> class_count c q' <= class_count c q.
Proof.
  induction 1 as [|e q' q Hs IH|e q' q Hs IH]; rewrite ?class_count_cons; [lia|lia|].
  case_bool_decide; lia.
Qed.

Lemma bounded_sublist c q q' : bounded c q -> sublist q' q -> bounded c q'.
Proof.
  intros [H1 H2 H3 H4] Hs. destruct (bytes_held_sublist q q' H4 Hs) as [Hb H4'].
  pose proof (sublist_length _ _ Hs). constructor; [|lia| |done].
  - intros Hm. specialize (H1 Hm). unfold len in *. lia.
  - intros s Hc. pose proof (class_count_sublist (normalizePriorityClass s) q q' Hs). specialize (H3 s Hc). lia.
Qed.

(** Eviction drops a run of entries weaker than the newcomer off the weak end. *)
Lemma spec_evict_drops c e l r l' : spec_evict c e l = (r, l') ->
  exists d, l = d ++ l' /\ Forall (fun v => lessPriority e v = true) d.
Proof.
  induction l as [|v l IH]; cbn; [intros [= <- <-]; by exists []|].
  destruct (_ || _); [|intros [= <- <-]; by exists []].
  destruct (lessPriority e v) eqn:Hv; [|intros [= <- <-]; by exists []].
  intros H. destruct (IH H) as (d & -> & Hd). exists (v :: d). split; [done|by constructor].
Qed.

Lemma spec_class_room_sublist c e q q' : spec_class_room c e q = Ok q' -> sublist q' q.
Proof.
  unfold spec_class_room. destruct (negb _); [by intros [= ->]|]. destruct (last _) as [v|]; [|done].
  destruct (lessPriority e v); [|done]. intros [= <-]. apply sublist_filter.
Qed.

Lemma spec_make_room_sublist c e q r q' : spec_make_room c e q = (r, q') -> sublist q' q.
Proof.
  unfold spec_make_room. destruct (spec_class_room c e q) as [q1|err] eqn:H1; [|by intros [= _ <-]].
  destruct (spec_evict c e (reverse q1)) as [r2 w] eqn:H2. intros [= _ <-].
  apply spec_class_room_sublist in H1. apply spec_evict_drops in H2 as (d & Hd & _).
  etrans; [|exact H1]. rewrite <- (reverse_involutive q1), Hd, reverse_app. apply sublist_inserts_r. done.
Qed.

(** A full class makes room for one. *)
Lemma spec_class_room_count c e q q' : entry_ok e -> spec_class_room c e q = Ok q' ->
  0 < classCap c (PriorityClass e) -> class_count (PriorityClass e) q <= classCap c (PriorityClass e) ->
  class_count (PriorityClass e) q' < classCap c (PriorityClass e).
Proof.
  intros He H Hcap Hle. unfold spec_class_room in H.
  destruct ((0 <? _) && (_ <=? _)) eqn:Hfull; cbn [negb] in H.
  - destruct (last (of_class (PriorityClass e) q)) as [v|] eqn:Hv; [|done].
    destruct (lessPriority e v); [|done]. injection H as <-.
    assert (Hin : v ∈ of_class (PriorityClass e) q) by (apply last_Some_elem_of, Hv).
    apply Z.lt_le_trans with (class_count (PriorityClass e) q); [|done].
    unfold class_count, of_class, without, len. rewrite list_filter_filter.
    apply inj_lt. rewrite (filter_ext_in _ (fun x => e_Hash x <> e_Hash v /\ PriorityClass x = PriorityClass e))
      by (intros x _; tauto).
    rewrite <- list_filter_filter. unfold of_class in Hin. apply list_elem_of_split in Hin as (l1 & l2 & ->).
    rewrite filter_app, filter_cons_False by naive_solver. rewrite !length_app. cbn [length].
    pose proof (length_filter (fun x => e_Hash x <> e_Hash v) l1). pose proof (length_filter (fun x => e_Hash x <> e_Hash v) l2). lia.
  - injection H as ->. apply andb_false_iff in Hfull as [Hf|Hf]; go_bool; lia.
Qed.

Lemma spec_Add_bounded c tx meta now p : is_nan (m_Confidence meta) = false ->
  bounded c (queue p) -> bounded c (queue (spec_Add c tx meta now p).2).
Proof.
  intros Hm Hb. destruct tx as [tx|]; [|done]. cbn [spec_Add]. destruct (Validate _ _ _); [|done].
  destruct (bool_decide _); [done|]. destruct (check_producer _ _ _ _) as [[[]|err] ps]; [|done].
  set (e := new_entry tx meta). pose proof (new_entry_ok tx meta Hm) as He. fold e in He.
  destruct (spec_make_room c e (queue p)) as [r q] eqn:Hroom. pose proof (spec_make_room_sublist _ _ _ _ _ Hroom) as Hsub.
  pose proof (bounded_sublist _ _ _ Hb Hsub) as Hq. destruct r as [[]|err]; cbn [snd queue]; [|done].
  unfold spec_make_room in Hroom. destruct (spec_class_room c e (queue p)) as [q1|err] eqn:H1; [|done].
  destruct (spec_evict c e (reverse q1)) as [r2 w] eqn:H2. destruct r2 as [?|err]; [|done].
  destruct (spec_full c e (reverse w)) eqn:Hfull; [done|]. injection Hroom as <-.
  assert (Hsub1 : sublist (reverse w) q1).
  { apply spec_evict_drops in H2 as (d & Hd & _). rewrite <- (reverse_involutive q1), Hd, reverse_app.
    by apply sublist_inserts_r. }
  unfold spec_full in Hfull. apply orb_false_iff in Hfull as [Hf1 Hf2].
  assert (Hp : insert_stable lessPriority e (reverse w) ≡ₚ e :: reverse w) by apply insert_stable_perm.
  constructor.
  - intros H. unfold len. rewrite Hp. apply andb_false_iff in Hf1 as [Hf1|Hf1]; go_bool; [lia|]. unfold len in Hf1. cbn [length]. lia.
  - intros H. rewrite Hp. unfold bytes_held in *. apply andb_false_iff in Hf2 as [Hf2|Hf2]; go_bool; [lia|]. cbn [foldr]. lia.
  - intros s H. rewrite Hp, class_count_cons. pose proof (bounded_class _ _ Hq s H) as Hle.
    case_bool_decide as Hs; [|lia].
    assert (Hcap : forall s', normalizePriorityClass s = normalizePriorityClass s' -> classCap c s = classCap c s')
      by (intros s' Hss; unfold classCap; by rewrite Hss).
    rewrite (Hcap (PriorityClass e)) in * by (rewrite (proj2 He); done).
    pose proof (spec_class_room_count c e _ _ He H1 H) as Hc.
    pose proof (bounded_class _ _ Hb (PriorityClass e) H) as Hle0. rewrite (proj2 He) in Hle0.
    pose proof (class_count_sublist (PriorityClass e) _ _ Hsub1). specialize (Hc Hle0). rewrite <- Hs. lia.
  - rewrite Hp. constructor; [cbn; auto with cyber|by destruct Hq].
Qed.

Lemma run_bounded c m o m' cl : rep m -> cfg m = c -> call_ok cl -> run_mp cl m = (o, m') ->
  bounded c (queue (abs m)) -> bounded c (queue (abs m')).
Proof.
  intros Hr Hc Hok Hrun Hb. destruct (run_sim cl m o m' Hr Hok Hrun) as (_ & _ & Hs). rewrite Hc in Hs.
  apply (f_equal snd) in Hs. cbn [snd] in Hs. rewrite <- Hs. clear Hs Hrun.
  destruct cl; cbn [spec_run call_ok] in *; cbn [snd queue]; try done.
  - pose proof (spec_Add_bounded c tx meta now (abs m) Hok Hb). by destruct (spec_Add _ _ _ _ _).
  - destruct (VerifyEnvelope tx); [|done]. pose proof (spec_Add_bounded c (Some tx) meta now (abs m) Hok Hb).
    by destruct (spec_Add _ _ _ _ _).
  - eapply bounded_sublist; [exact Hb|apply sublist_filter].
  - eapply bounded_sublist; [exact Hb|apply sublist_filter].
Qed.

Lemma run_all_bounded c cs m : rep m -> cfg m = c -> Forall call_ok cs ->
  bounded c (queue (abs m)) -> bounded c (queue (abs (run_all cs m).2)).
Proof.
  intros Hr Hc Hcs. revert m Hr Hc. induction Hcs as [|cl cs Hcl Hcs IH]; intros m Hr Hc Hb; [done|].
  cbn. destruct (run_mp cl m) as [o m1] eqn:H1. destruct (run_all cs m1) as [os m2] eqn:H2. cbn.
  destruct (run_sim cl m o m1 Hr Hcl H1) as (Hr1 & Hc1 & _). replace m2 with (run_all cs m1).2 by (by rewrite H2).
  apply IH; [done|congruence|]. by apply (run_bounded c m o m1 cl).
Qed.

(** C9. Configured limits hold over any run: the number of transactions, their bytes
    and the number in each priority class; the counters the pool keeps are exact
    and its eviction heap holds exactly the pool, in heap order. *)
Theorem mempool_bounded (c : Config) (cs : list mp_call) (Hok : Forall call_ok cs) :
  let m := (run_all cs (New c)).2 in
  (0 < MaxTxs c -> Z.of_nat (size (entries m)) <= MaxTxs c) /\
  (0 < MaxBytes c -> total m <= MaxBytes c) /\
  (forall s n, classCounts m !! normalizePriorityClass s = Some n -> 0 < classCap c s -> n <= classCap c s) /\
  total m = bytes_held (values m) /\ classCounts m = class_table (values m) /\
  evictHeap m ≡ₚ values m /\ heap heap_less (evictHeap m).
Proof.
  cbv zeta. destruct (run_all cs (New c)) as [os m'] eqn:H. cbn [snd].
  destruct (run_all_sim cs _ os m' (New_rep c) Hok H) as ([Hb Hh] & _ & _).
  assert (Hbound : bounded c (queue (abs m'))).
  { replace m' with (run_all cs (New c)).2 by (by rewrite H). apply run_all_bounded; [apply New_rep|done|done|].
    constructor; [change (len _) with 0; lia|change (bytes_held _) with 0; lia| |constructor].
    intros s Hs. change (class_count _ _) with 0. lia. }
  destruct Hbound as [H1 H2 H3 _]. rewrite values_size, (books_total m' Hb), (books_counts m' Hb).
  unfold len in H1 |- *. rewrite (queue_perm m') in H1, H2.
  split; [done|]. split; [done|]. split; [|by destruct Hh].
  intros s n. rewrite class_table_lookup. intros [= <-] Hs. specialize (H3 s Hs). by rewrite (queue_perm m') in H3.
Qed.

(** ** Who is evicted *)

Lemma spec_class_room_drops c e q q' v : spec_class_room c e q = Ok q' -> v ∈ q -> v ∉ q' -> NoDup (e_Hash <$> q) ->
  lessPriority e v = true /\ (0 <? classCap c (PriorityClass e)) && (classCap c (PriorityClass e) <=? class_count (PriorityClass e) q) = true.
Proof.
  unfold spec_class_room. destruct (_ && _); cbn [negb]; [|by intros [= ->]].
  destruct (last _) as [w|] eqn:Hw; [|done]. destruct (lessPriority e w) eqn:Hew; [|done]. intros [= <-] Hv Hnv Hnd.
  split; [|done]. replace v with w; [done|].
  assert (Hwq : w ∈ q) by (apply last_Some_elem_of, list_elem_of_filter in Hw; apply Hw).
  assert (Hh : e_Hash v = e_Hash w).
  { destruct (decide (e_Hash v = e_Hash w)); [done|]. contradict Hnv. by apply list_elem_of_filter. }
  apply list_elem_of_lookup in Hv as [i Hi], Hwq as [j Hj].
  assert (i = j) as ->; [|congruence].
  apply (NoDup_lookup _ i j (e_Hash w) Hnd); rewrite list_lookup_fmap; [by rewrite Hi; cbn; rewrite Hh|by rewrite Hj].
Qed.

Lemma sorted_app_order l k x y : in_less_order lessPriority (l ++ k) -> x ∈ l -> y ∈ k -> lessPriority y x = false.
Proof.
  unfold in_less_order. induction l as [|z l IH]; cbn; intros Hs Hx Hy; [by apply not_elem_of_nil in Hx|].
  apply StronglySorted_inv in Hs as [Hs Hz]. apply elem_of_cons in Hx as [->|Hx]; [|by apply IH].
  rewrite Forall_forall in Hz. apply Hz, elem_of_app. by right.
Qed.

Lemma queue_hashes m : books m -> NoDup (e_Hash <$> queue (abs m)).
Proof. intros Hb. rewrite (queue_perm m). by apply values_hashes. Qed.

Lemma spec_make_room_drops c e q r q' v : spec_make_room c e q = (r, q') -> NoDup (e_Hash <$> q) ->
  in_less_order lessPriority q -> v ∈ q -> v ∉ q' ->
  lessPriority e v = true /\
  ((0 <? classCap c (PriorityClass e)) && (classCap c (PriorityClass e) <=? class_count (PriorityClass e) q) = false ->
   forall w, w ∈ q' -> lessPriority v w = false).
Proof.
  unfold spec_make_room. intros H Hnd Hs Hv Hnv. destruct (spec_class_room c e q) as [q1|err] eqn:H1.
  2: { injection H as _ <-. done. }
  destruct (spec_evict c e (reverse q1)) as [r2 w] eqn:H2. injection H as _ <-.
  apply spec_evict_drops in H2 as (d & Hd & Hweak).
  assert (Hq1 : q1 = reverse w ++ reverse d) by (by rewrite <- (reverse_involutive q1), Hd, reverse_app).
  destruct (decide (v ∈ q1)) as [Hv1|Hv1].
  - rewrite Hq1 in Hv1. apply elem_of_app in Hv1 as [Hv1|Hv1]; [done|].
    split; [rewrite elem_of_reverse in Hv1; rewrite Forall_forall in Hweak; by apply Hweak|].
    intros Hfull x Hx. unfold spec_class_room in H1. rewrite Hfull in H1. cbn in H1. injection H1 as <-.
    rewrite Hq1 in Hs. by apply (sorted_app_order (reverse w) (reverse d)).
  - destruct (spec_class_room_drops c e q q1 v H1 Hv Hv1 Hnd) as [He Hfull]. split; [done|]. by rewrite Hfull.
Qed.

Lemma spec_Add_cases c tx meta now p r p' : spec_Add c (Some tx) meta now p = (r, p') ->
  (r <> Ok tt /\ queue p' = queue p) \/
  exists q, spec_make_room c (new_entry tx meta) (queue p) = (r, q) /\
    (queue p' = if is_ok r then insert_stable lessPriority (new_entry tx meta) q else q).
Proof.
  cbn [spec_Add]. destruct (Validate _ _ _); [|by intros [= <- <-]; left].
  destruct (bool_decide _); [by intros [= <- <-]; left|].
  destruct (check_producer _ _ _ _) as [[[]|err] ps]; [|by intros [= <- <-]; left].
  destruct (spec_make_room _ _ _) as [[[]|err] q]; intros [= <- <-]; right; by exists q.
Qed.

(** Whatever [Add] answers, an entry that leaves the pool is weaker than the
    newcomer; when the newcomer's class is not full, it is also weaker than every
    entry that stays. On success the newcomer is in the pool; nothing else enters. *)
Theorem Add_evicts_weakest (range : map_range) (tx : Transaction) (meta : AdmissionMeta) (now : Time)
    (m m' : Mempool) (r : result mp_error unit)
    (Hrep : rep m) (Hmeta : is_nan (m_Confidence meta) = false) (Hrun : Add range (Some tx) meta now m = (r, m')) :
  let e := new_entry tx meta in
  (forall v, v ∈ values m -> v ∉ values m' -> lessPriority e v = true /\
     (classFull e m = false -> forall w, w ∈ values m' -> w <> e -> lessPriority v w = false)) /\
  (forall w, w ∈ values m' -> w ∈ values m \/ (r = Ok tt /\ w = e)) /\
  (r = Ok tt -> e ∈ values m').
Proof.
  intros e. pose proof (proj1 Hrep) as Hb. pose proof (new_entry_ok tx meta Hmeta) as He. fold e in He.
  destruct (Add_sim range (Some tx) meta now m Hrep Hmeta) as (r0 & m0 & Hrun0 & Hr' & _ & Hs).
  rewrite Hrun in Hrun0. injection Hrun0 as <- <-.
  assert (Hin : forall m v, v ∈ values m <-> v ∈ queue (abs m)) by (intros; by rewrite (queue_perm _)).
  setoid_rewrite Hin. assert (Hfull : classFull e m = false -> (0 <? classCap (cfg m) (PriorityClass e)) &&
    (classCap (cfg m) (PriorityClass e) <=? class_count (PriorityClass e) (queue (abs m))) = false).
  { unfold classFull. rewrite (books_counts m Hb), <- (proj2 He), class_table_lookup. cbn [default from_option id].
    by rewrite (queue_perm m). }
  apply spec_Add_cases in Hs as [[Hne ->]|(q & Hroom & Hq)].
  { split; [done|]. split; [by left|done]. }
  assert (Hq' : forall v, v ∈ queue (abs m') <-> (r = Ok tt /\ v = e) \/ v ∈ q).
  { intros v. rewrite Hq. destruct r as [[]|err]; cbn [is_ok];
      [|split; [by right|by intros [[[=] _]|Hv]]].
    fold e. rewrite (insert_stable_perm lessPriority e q), elem_of_cons.
    split; [intros [Hv|Hv]; [by left|by right]|intros [[_ Hv]|Hv]; [by left|by right]]. }
  assert (Hsub : forall v, v ∈ q -> v ∈ queue (abs m))
    by (intros v Hv; exact (elem_of_sublist _ _ _ Hv (spec_make_room_sublist _ _ _ _ _ Hroom))).
  setoid_rewrite Hq'. split; [|split; [intros w [[Hok Hw]|Hw]; [right; done|left; by apply Hsub]|by left]].
  intros v Hv Hnv. destruct (spec_make_room_drops _ e _ r q v Hroom (queue_hashes m Hb) (queue_sorted m Hb) Hv) as [H1 H2];
    [intros Hvq; apply Hnv; by right|]. split; [done|].
  intros Hf w [[_ Hw]|Hw] Hwe; [done|]. apply H2; [by apply Hfull|done].
Qed.

(** ** Replayed nonces *)

(** The session of a producer remembers a nonce until its expiry. *)
Definition remembers (pid nonce : bytes) (expiry : Time) (s : gmap bytes producerState) : Prop :=
  exists ps, s !! pid = Some ps /\ nonces ps !! nonce = Some expiry.

Lemma check_producer_remembers c now nonce n expiry ps :
  After now expiry = false -> nonces ps !! n = Some expiry ->
  nonces (check_producer c now nonce ps).2 !! n = Some expiry /\
  (n = nonce -> exists err, (check_producer c now nonce ps).1 = Err err).
Proof.
  intros Hnow Hn. assert (Hclean : nonces (cleanupNonces now ps) !! n = Some expiry).
  { cbn. by apply map_lookup_filter_Some. }
  unfold check_producer. case_bool_decide as Hu.
  - split; [done|]. by eexists.
  - split; [destruct (_ <? _); [by destruct (allow _ _)|done]|]. intros ->. destruct Hu. by eexists.
Qed.

Definition call_time (c : mp_call) : option Time :=
  match c with CAdd _ _ _ now | CAdmit _ _ _ now => Some now | _ => None end.

Lemma spec_Add_remembers cf tx meta now pid n expiry p : After now expiry = false ->
  remembers pid n expiry (sessions p) -> remembers pid n expiry (sessions (spec_Add cf tx meta now p).2).
Proof.
  intros Hnow (ps & Hps & Hn). destruct tx as [tx|]; [|by exists ps]. cbn [spec_Add].
  destruct (Validate _ _ _); [|by exists ps]. destruct (bool_decide _); [by exists ps|].
  set (e := new_entry tx meta). destruct (decide (hex (e_ProducerID e) = pid)) as [<-|Hpid].
  - rewrite Hps. cbn [default from_option id].
    destruct (check_producer_remembers cf now (hex (e_Nonce e)) n expiry ps Hnow Hn) as [H1 H2].
    destruct (check_producer _ _ _ _) as [[[]|err] ps']; cbn [fst snd] in *; [|exists ps'; cbn; by rewrite lookup_insert_eq].
    destruct (spec_make_room _ _ _) as [[[]|err] q]; cbn; eexists; (split; [apply lookup_insert_eq|]); [cbn|done].
    rewrite lookup_insert_ne; [done|]. intros <-. by destruct H2.
  - destruct (check_producer _ _ _ _) as [[[]|err] ps']; [|exists ps; cbn; by rewrite lookup_insert_ne].
    destruct (spec_make_room _ _ _) as [[[]|err] q]; exists ps; cbn; by rewrite lookup_insert_ne.
Qed.

Lemma spec_run_remembers cf cl pid n expiry p : (forall now, call_time cl = Some now -> After now expiry = false) ->
  remembers pid n expiry (sessions p) -> remembers pid n expiry (sessions (spec_run cf cl p).2).
Proof.
  intros Hnow Hr. destruct cl; cbn [spec_run]; try done.
  - pose proof (spec_Add_remembers cf tx meta now pid n expiry p (Hnow _ eq_refl) Hr). by destruct (spec_Add _ _ _ _ _).
  - destruct (VerifyEnvelope tx); [|done].
    pose proof (spec_Add_remembers cf (Some tx) meta now pid n expiry p (Hnow _ eq_refl) Hr). by destruct (spec_Add _ _ _ _ _).
Qed.

Lemma spec_run_all_remembers cf cs pid n expiry p :
  Forall (fun cl => forall now, call_time cl = Some now -> After now expiry = false) cs ->
  remembers pid n expiry (sessions p) -> remembers pid n expiry (sessions (spec_run_all cf cs p).2).
Proof.
  intros Hcs. revert p. induction Hcs as [|cl cs Hcl Hcs IH]; intros p Hr; [done|]. cbn.
  pose proof (spec_run_remembers cf cl pid n expiry p Hcl Hr) as H1. destruct (spec_run cf cl p) as [o p1].
  specialize (IH p1 H1). by destruct (spec_run_all cf cs p1).
Qed.

Lemma spec_Add_Ok_remembers cf tx meta now p p' : spec_Add cf (Some tx) meta now p = (Ok tt, p') ->
  remembers (hex (ProducerID (Envelope_ tx))) (hex (Nonce (Envelope_ tx))) (GoTime.Add now (NonceTTL cf)) (sessions p').
Proof.
  cbn [spec_Add]. destruct (Validate _ _ _); [|done]. destruct (bool_decide _); [done|].
  destruct (check_producer _ _ _ _) as [[[]|err] ps]; [|done].
  destruct (spec_make_room _ _ _) as [[[]|err] q]; [|done]. intros [= <-]. eexists. split; [apply lookup_insert_eq|].
  apply lookup_insert_eq.
Qed.

(** C17. A producer's nonce is used once: after a transaction was admitted, and any
    run of other calls, no transaction of the same producer with the same nonce is
    admitted until the nonce expires, even when the first was evicted or removed. *)
Theorem nonce_used_once (c : Config) (before after : list mp_call) (range range' : map_range)
    (tx tx' : Transaction) (meta meta' : AdmissionMeta) (now now' : Time)
    (Hok : Forall call_ok (before ++ CAdd range (Some tx) meta now :: after))
    (Hmeta' : is_nan (m_Confidence meta') = false)
    (Hfirst : (Add range (Some tx) meta now (run_all before (New c)).2).1 = Ok tt)
    (Hsame : ProducerID (Envelope_ tx') = ProducerID (Envelope_ tx) /\ Nonce (Envelope_ tx') = Nonce (Envelope_ tx))
    (Htimes : Forall (fun cl => forall t, call_time cl = Some t -> After t (GoTime.Add now (NonceTTL c)) = false) after)
    (Hnow' : After now' (GoTime.Add now (NonceTTL c)) = false) :
  let m := (run_all after (Add range (Some tx) meta now (run_all before (New c)).2).2).2 in
  (Add range' (Some tx') meta' now' m).1 <> Ok tt.
Proof.
  apply Forall_app in Hok as [Hok1 Hok2]. apply Forall_cons in Hok2 as [Hm Hok2]. cbn [call_ok] in Hm.
  destruct (run_all before (New c)) as [os m0] eqn:H0.
  destruct (run_all_sim before _ os m0 (New_rep c) Hok1 H0) as (Hr0 & Hc0 & _). cbn [snd] in *.
  destruct (Add_sim range (Some tx) meta now m0 Hr0 Hm) as (r1 & m1 & H1 & Hr1 & Hc1 & Hs1).
  rewrite H1 in *. cbn [fst snd] in *. subst r1. destruct (run_all after m1) as [os2 m2] eqn:H2. cbn [snd].
  destruct (run_all_sim after m1 os2 m2 Hr1 Hok2 H2) as (Hr2 & Hc2 & Hs2).
  destruct (Add_sim range' (Some tx') meta' now' m2 Hr2 Hmeta') as (r3 & m3 & H3 & _ & _ & Hs3).
  rewrite H3. cbn [fst]. intros ->. cbn [cfg New] in Hc0. rewrite Hc0 in *.
  apply spec_Add_Ok_remembers in Hs1.
  pose proof (spec_run_all_remembers (cfg m1) after _ _ _ (abs m1) Htimes Hs1) as Hmem.
  rewrite Hs2 in Hmem. cbn [snd] in Hmem. destruct Hmem as (ps & Hps & Hn). destruct Hsame as [Hp Hno].
  cbn [spec_Add] in Hs3. destruct (Validate _ _ _); [|done]. destruct (bool_decide _); [done|].
  cbn [e_ProducerID e_Nonce new_entry] in Hs3. rewrite Hp, Hno, Hps in Hs3. cbn [default from_option id] in Hs3.
  destruct (check_producer_remembers (cfg m2) now' (hex (Nonce (Envelope_ tx))) _ _ ps Hnow' Hn) as [_ Hbad].
  destruct (Hbad eq_refl) as [err Herr]. destruct (check_producer _ _ _ _) as [r ps']. cbn [fst] in Herr.
  rewrite Herr in Hs3. discriminate Hs3.
Qed.

(** ** Selection *)

Lemma take_fitting_spec maxCount maxBytes count sum l :
  exists k, (k <= length l)%nat /\ take_fitting maxCount maxBytes count sum l = e_Tx <$> take k l /\
    (0 < maxCount -> count <= maxCount -> count + Z.of_nat k <= maxCount) /\
    (0 < maxBytes -> sum <= maxBytes -> sum + bytes_held (take k l) <= maxBytes) /\
    forall e, l !! k = Some e ->
      (0 < maxCount /\ maxCount <= count + Z.of_nat k) \/ (0 < maxBytes /\ maxBytes < sum + bytes_held (take k l) + Size e).
Proof.
  revert count sum. induction l as [|x l IH]; intros count sum; cbn [take_fitting].
  { exists 0%nat. cbn. split_and!; [lia|done|lia|lia|done]. }
  destruct ((0 <? maxCount) && (maxCount <=? count)) eqn:H1.
  { go_bool. exists 0%nat. change (bytes_held (take 0 (x :: l))) with 0. split_and!; [lia|done|lia|lia|]. left. lia. }
  destruct ((0 <? maxBytes) && (maxBytes <? sum + Size x)) eqn:H2.
  { go_bool. exists 0%nat. change (bytes_held (take 0 (x :: l))) with 0. split_and!; [lia|done|lia|lia|].
    intros e [= <-]. right. lia. }
  destruct (IH (count + 1) (sum + Size x)) as (k & Hk & Htx & Hc & Hb & Hmax). exists (S k).
  change (bytes_held (take (S k) (x :: l))) with (Size x + bytes_held (take k l)).
  apply andb_false_iff in H1, H2. split_and!.
  - cbn. lia.
  - by rewrite Htx.
  - intros Hp Hle. destruct H1 as [H1|H1]; go_bool; lia.
  - intros Hp Hle. destruct H2 as [H2|H2]; go_bool; lia.
  - intros e He. specialize (Hmax e He). lia.
Qed.

(** [Select] returns the strongest entries, strongest first: the longest prefix of
    the pool's priority order within the limits, however the map is visited. *)
Theorem Select_greedy (range : map_range) (maxCount maxBytes : Z) (m : Mempool) (Hrep : rep m) :
  exists (q : list entry) (k : nat),
    q ≡ₚ values m /\ in_less_order lessPriority q /\
    Select range maxCount maxBytes m = e_Tx <$> take k q /\
    (0 < maxCount -> Z.of_nat k <= maxCount) /\ (0 < maxBytes -> bytes_held (take k q) <= maxBytes) /\
    (forall e, q !! k = Some e ->
       (0 < maxCount /\ maxCount <= Z.of_nat k) \/ (0 < maxBytes /\ maxBytes < bytes_held (take k q) + Size e)) /\
    forall range' : map_range, Select range' maxCount maxBytes m = Select range maxCount maxBytes m.
Proof.
  pose proof (proj1 Hrep) as Hb. unfold Select.
  destruct (take_fitting_spec maxCount maxBytes 0 0 (queue (abs m))) as (k & Hk & Htx & Hc & Hbytes & Hmax).
  exists (queue (abs m)), k. rewrite (range_queue range m Hb).
  split; [apply queue_perm|]. split; [by apply queue_sorted|]. split; [done|].
  split; [intros H; specialize (Hc H); lia|]. split; [intros H; specialize (Hbytes H); lia|].
  split; [exact Hmax|]. intros range'. by rewrite (range_queue range' m Hb).
Qed.

(** ** Signed admission *)

(** What [VerifyEnvelope] establishes. *)
Definition envelope_signed (tx : Transaction) : Prop :=
  let env := Envelope_ tx in
  EnvContentHash env = ContentHash (Payload tx) /\
  exists b, BuildSignBytes (domainFor (Type_ tx)) (Timestamp tx) (ProducerID env) (Nonce env) (EnvContentHash env) = Ok b /\
    ed25519_Verify (PubKey env) b (Signature env) = true /\
    len (PubKey env) = PubKeyEd25519Size /\ len (Signature env) = SigEd25519Size.

Lemma VerifyEnvelope_Ok tx : VerifyEnvelope tx = Ok tt -> envelope_signed tx.
Proof.
  unfold VerifyEnvelope. destruct (negb _); [done|]. destruct (negb (bool_decide _)) eqn:Hc; [done|].
  destruct (BuildSignBytes _ _ _ _ _) as [b|] eqn:Hb; [|done]. destruct (_ || _) eqn:Hl; [done|].
  destruct (negb (ed25519_Verify _ _ _)) eqn:Hv; [done|]. intros _. go_bool.
  split; [done|]. exists b. by split_and!.
Qed.

Definition signed_call (c : mp_call) : Prop := match c with CAdd _ _ _ _ => False | _ => True end.

(** What enters the pool with a call. *)
Definition adds (c : mp_call) (tx : Transaction) (meta : AdmissionMeta) : Prop :=
  match c with
  | CAdd _ (Some t) meta' _ => t = tx /\ meta' = meta
  | CAdmit _ t meta' _ => t = tx /\ meta' = meta /\ VerifyEnvelope t = Ok tt
  | _ => False
  end.

Lemma run_elems (P : entry -> Prop) c m o m' : rep m -> call_ok c -> run_mp c m = (o, m') ->
  (forall tx meta, adds c tx meta -> P (new_entry tx meta)) -> Forall P (values m) -> Forall P (values m').
Proof.
  intros Hr Hok Hrun HP Hall. destruct (run_sim c m o m' Hr Hok Hrun) as (_ & _ & Hsp).
  rewrite <- (queue_perm m) in Hall. rewrite <- (queue_perm m').
  replace (abs m') with (spec_run (cfg m) c (abs m)).2 by (by rewrite Hsp). clear Hsp Hrun.
  assert (Hsub : forall q, sublist q (queue (abs m)) -> Forall P q).
  { intros q Hq. rewrite Forall_forall in Hall |- *. intros e He. apply Hall. exact (elem_of_sublist _ _ _ He Hq). }
  assert (Hadd : forall tx meta now, P (new_entry tx meta) -> Forall P (queue (spec_Add (cfg m) (Some tx) meta now (abs m)).2)).
  { intros tx meta now Hnew. destruct (spec_Add _ _ _ _ _) as [r p'] eqn:Hadd. cbn [snd].
    apply spec_Add_cases in Hadd as [[_ ->]|(q & Hroom & ->)]; [done|].
    pose proof (Hsub q (spec_make_room_sublist _ _ _ _ _ Hroom)) as Hq.
    destruct (is_ok r); [|done]. rewrite (insert_stable_perm _ _ q). by constructor. }
  destruct c; cbn [spec_run adds snd queue] in *; try done; try (apply Hsub, sublist_filter).
  - destruct tx as [tx|]; [|done]. specialize (Hadd tx meta now (HP tx meta ltac:(done))). by destruct (spec_Add _ _ _ _ _).
  - destruct (VerifyEnvelope tx) as [[]|err] eqn:Hv; [|done].
    specialize (Hadd tx meta now (HP tx meta ltac:(done))). by destruct (spec_Add _ _ _ _ _).
Qed.

Lemma run_all_elems (P : entry -> Prop) cs m : rep m -> Forall call_ok cs ->
  Forall (fun c => forall tx meta, adds c tx meta -> P (new_entry tx meta)) cs ->
  Forall P (values m) -> Forall P (values (run_all cs m).2).
Proof.
  intros Hr Hok. revert m Hr. induction Hok as [|cl cs Hcl Hok IH]; intros m Hr Hs Hall; [done|].
  apply Forall_cons in Hs as [Hs1 Hs]. cbn. destruct (run_mp cl m) as [o m1] eqn:H1.
  destruct (run_sim cl m o m1 Hr Hcl H1) as (Hr1 & _ & _).
  specialize (IH m1 Hr1 Hs (run_elems P cl m o m1 Hr Hcl H1 Hs1 Hall)). by destruct (run_all cs m1).
Qed.

(** Every entry was made from the transaction it holds. *)
Definition made (e : entry) : Prop := exists tx meta, e = new_entry tx meta.

Lemma run_all_made c cs : Forall call_ok cs -> Forall made (values (run_all cs (New c)).2).
Proof.
  intros Hok. apply run_all_elems; [apply New_rep|done| |constructor].
  apply Forall_forall. intros cl _ tx meta _. by exists tx, meta.
Qed.

Lemma run_all_rep c cs : Forall call_ok cs -> rep (run_all cs (New c)).2.
Proof.
  intros Hok. destruct (run_all cs (New c)) as [os m] eqn:H. by destruct (run_all_sim cs (New c) os m (New_rep c) Hok H).
Qed.

(** While transactions enter through [Admit] only, every pending transaction is
    signed: its Ed25519 signature verified, under the key in its envelope, on its
    domain, timestamp, producer, nonce and the hash of its payload. *)
Theorem admitted_signed (c : Config) (cs : list mp_call) (Hok : Forall call_ok cs) (Hsigned : Forall signed_call cs) :
  Forall (fun e => envelope_signed (e_Tx e)) (values (run_all cs (New c)).2).
Proof.
  apply run_all_elems; [apply New_rep|done| |constructor].
  eapply Forall_impl; [exact Hsigned|]. intros cl Hcl tx meta. destruct cl; cbn in *; try done.
  intros (-> & -> & Hv). by apply VerifyEnvelope_Ok.
Qed.
End mempool.

(** ** Concrete runs *)

(** A verifier that accepts one signature, and a visit in key order. *)
Definition demo_signature : bytes := replicate 64 x01.
Definition demo_ed25519 : Ed25519 := {| ed25519_Verify _ _ sig := bool_decide (sig = demo_signature) |}.
#[local] Existing Instance demo_ed25519.
Definition in_key_order : map_range := MkRange map_to_list (fun _ => reflexivity _).

Definition demo_tx (producer : string) (nonce : byte) (payload : string) : Transaction :=
  AnEvent (MkEventTx 1700000000 (str payload)
    (MkEnvelope (str producer) (replicate 16 nonce) (ContentHash (str payload)) (str "Ed25519")
                (replicate 32 x02) demo_signature)).
Definition demo_meta (severity : Z) : AdmissionMeta := MkMeta severity (f_of_Z 1) (str " P0").
Definition demo_limits : Config := MkConfig 3 10 2 0 0 (900 * Second) (300 * Second) 5.
Definition demo_now : Time := time_Unix 1700000010.

Definition tx_weak : Transaction := demo_tx "sensor-a" x01 "aaa".
Definition tx_strong : Transaction := demo_tx "sensor-b" x02 "bbbbbbb".
Definition tx_middle : Transaction := demo_tx "sensor-c" x03 "ccccc".
Definition tx_small : Transaction := demo_tx "sensor-c" x04 "dd".
(** The nonce of [tx_weak] again, on another payload. *)
Definition tx_replay : Transaction := demo_tx "sensor-a" x01 "e".

Definition admitting (tx : Transaction) (severity : Z) : mp_call := CAdmit in_key_order tx (demo_meta severity) demo_now.
Definition demo_calls : list mp_call :=
  [admitting tx_weak 1; admitting tx_strong 9; admitting tx_small 5; CSelect in_key_order 0 0; CStats; CClassStats].

Lemma demo_calls_ok : Forall call_ok demo_calls.
Proof. repeat (constructor; [done|]). constructor. Qed.

(** The full class gives up its weakest entry to a stronger newcomer. *)
Lemma mempool_refines_queue_witness :
  (run_all demo_calls (New demo_limits)).1 =
    [OError (Ok tt); OError (Ok tt); OError (Ok tt); OTxs [tx_strong; tx_small]; OStats (2, 9);
     OClasses (class_table [new_entry tx_strong (demo_meta 9); new_entry tx_small (demo_meta 5)])] /\
  (run_all demo_calls (New demo_limits)).1 = (spec_run_all demo_limits demo_calls (MkPool [] ∅)).1.
Proof.
  split; [vm_compute; reflexivity|]. exact (proj1 (mempool_refines_queue demo_limits demo_calls demo_calls_ok)).
Defined.

Lemma mempool_bounded_witness :
  let m := (run_all demo_calls (New demo_limits)).2 in
  size (entries m) = 2%nat /\ Z.of_nat (size (entries m)) <= 3 /\ total m <= 10 /\ total m = bytes_held (values m).
Proof.
  destruct (mempool_bounded demo_limits demo_calls demo_calls_ok) as (H1 & H2 & _ & H3 & _).
  split; [vm_compute; reflexivity|]. split; [exact (H1 eq_refl)|]. split; [exact (H2 eq_refl)|exact H3].
Defined.

Abbreviation demo_two := (run_all [admitting tx_weak 1; admitting tx_strong 9] (New demo_limits)).2.

Lemma demo_two_rep : rep demo_two.
Proof.
  destruct (run_all [admitting tx_weak 1; admitting tx_strong 9] (New demo_limits)) as [os m] eqn:H.
  apply (run_all_sim [admitting tx_weak 1; admitting tx_strong 9] (New demo_limits) os m (New_rep _)); [by repeat constructor|exact H].
Qed.

Lemma Add_evicts_weakest_witness :
  let m' := (Add in_key_order (Some tx_small) (demo_meta 5) demo_now demo_two).2 in
  bool_decide (new_entry tx_weak (demo_meta 1) ∈ values demo_two) = true /\
  bool_decide (new_entry tx_weak (demo_meta 1) ∈ values m') = false /\
  lessPriority (new_entry tx_small (demo_meta 5)) (new_entry tx_weak (demo_meta 1)) = true /\
  new_entry tx_small (demo_meta 5) ∈ values m'.
Proof.
  assert (H1 : bool_decide (new_entry tx_weak (demo_meta 1) ∈ values demo_two) = true) by (vm_compute; reflexivity).
  assert (H2 : bool_decide (new_entry tx_weak (demo_meta 1) ∈
    values (Add in_key_order (Some tx_small) (demo_meta 5) demo_now demo_two).2) = false) by (vm_compute; reflexivity).
  assert (H3 : (Add in_key_order (Some tx_small) (demo_meta 5) demo_now demo_two).1 = Ok tt) by (vm_compute; reflexivity).
  destruct (Add_evicts_weakest in_key_order tx_small (demo_meta 5) demo_now demo_two _ _ demo_two_rep eq_refl
    (surjective_pairing _)) as (Hev & _ & Hin).
  split; [exact H1|]. split; [exact H2|]. split; [|exact (Hin H3)].
  exact (proj1 (Hev (new_entry tx_weak (demo_meta 1)) (bool_decide_eq_true_1 _ H1) (bool_decide_eq_false_1 _ H2))).
Defined.

(** [tx_weak] was evicted, its nonce is still refused. *)
Lemma nonce_used_once_witness :
  let m := (run_all [admitting tx_strong 9; admitting tx_small 5]
             (Add in_key_order (Some tx_weak) (demo_meta 1) demo_now (New demo_limits)).2).2 in
  bool_decide (new_entry tx_weak (demo_meta 1) ∈ values m) = false /\
  (Add in_key_order (Some tx_replay) (demo_meta 9) (time_Unix 1700000200) m).1 <> Ok tt.
Proof.
  split; [vm_compute; reflexivity|].
  apply (nonce_used_once demo_limits [] [admitting tx_strong 9; admitting tx_small 5] in_key_order in_key_order
    tx_weak tx_replay (demo_meta 1) (demo_meta 9) demo_now (time_Unix 1700000200)).
  - by repeat constructor.
  - reflexivity.
  - vm_compute. reflexivity.
  - split; reflexivity.
  - repeat constructor; intros t [= <-]; vm_compute; reflexivity.
  - vm_compute. reflexivity.
Defined.

Lemma Select_greedy_witness :
  Select in_key_order 1 0 demo_two = [tx_strong] /\
  exists q k, q ≡ₚ values demo_two /\ Select in_key_order 1 0 demo_two = e_Tx <$> take k q.
Proof.
  split; [vm_compute; reflexivity|].
  destruct (Select_greedy in_key_order 1 0 demo_two demo_two_rep) as (q & k & H1 & _ & H2 & _).
  exists q, k. split; [exact H1|exact H2].
Defined.

Lemma admitted_signed_witness :
  bool_decide (values (run_all demo_calls (New demo_limits)).2 = []) = false /\
  Forall (fun e => envelope_signed (e_Tx e)) (values (run_all demo_calls (New demo_limits)).2).
Proof.
  split; [vm_compute; reflexivity|]. apply (admitted_signed demo_limits demo_calls demo_calls_ok).
  repeat (constructor; [exact I|]). constructor.
Defined.

(** A refused transaction can still cost the pool an entry: [Add] evicts the weak
    entry to make room, finds the next one stronger than the newcomer, and returns
    [ErrMempoolFull] with the weak entry gone. *)
Theorem refused_add_evicts :
  let cf := MkConfig 3 10 0 0 0 (900 * Second) (300 * Second) 5 in
  (run_all [admitting tx_weak 1; admitting tx_strong 9; CStats; admitting tx_middle 5; CSelect in_key_order 0 0; CStats] (New cf)).1 =
    [OError (Ok tt); OError (Ok tt); OStats (2, 10); OError (Err ErrMempoolFull); OTxs [tx_strong]; OStats (1, 7)].
Proof. vm_compute. reflexivity. Qed.

(** [MaxTxs = 0], which the final checks take as "no limit", makes every admission
    evict all weaker entries. *)
Example unlimited_evicts :
  let cf := MkConfig 0 1000 0 0 0 (900 * Second) (300 * Second) 5 in
  (run_all [admitting tx_weak 1; admitting tx_middle 5; CStats; admitting tx_strong 9; CStats] (New cf)).1 =
    [OError (Ok tt); OError (Ok tt); OStats (1, 5); OError (Ok tt); OStats (1, 7)].
Proof. vm_compute. reflexivity. Qed.

(** A confidence that is not a number passes [ComputeMeta]'s clamp. *)
Example ComputeMeta_nan : m_Confidence (ComputeMeta (MkMeta 5 S754_nan (str "p1"))) = S754_nan.
Proof. reflexivity. Qed.
