(* ===== verification/FairShare.v ===== *)
(** appendFairShare of backend/pkg/block/builder.go: producers take turns in rounds,
    each with a quota per round. The function that accepts or refuses a transaction
    is a parameter, as in the code; its contract is the class [PickerLaws]. *)
From S2P Require Import Prelude Bytes Codec.
Import Codec Model.

(** ** The loops *)

Section fair_share.
(** [appendTx] with the variables it captures: whether it appended the transaction. *)
Context {P : Type} (appendTx : Transaction -> P -> bool * P).

(** The local variables of the function; [countdown] is its [maxCount]. *)
Record fair := MkFair {
  byProducer : gmap bytes (list Transaction); selectedPerProducer : gmap bytes Z;
  totalPicks : Z; progress : bool; countdown : Z; picked_so_far : P }.

Definition producer_key (tx : Transaction) : bytes := hex (ProducerID (Envelope_ tx)).

(** The queues, and the producers in the order of their first transaction. *)
Definition group (candidates : list Transaction) : list bytes * gmap bytes (list Transaction) :=
  foldl (fun '(order, q) tx =>
      let key := producer_key tx in
      (match q !! key with Some _ => order | None => order ++ [key] end,
       <[key := default [] (q !! key) ++ [tx]]> q)) ([], ∅) candidates.

(** At most [attempts] heads are tried; those refused go to the tail. *)
Fixpoint rotate (attempts : nat) (queue : list Transaction) (p : P) : bool * list Transaction * P :=
  match attempts, queue with
  | S n, tx :: queue' =>
      let '(ok, p') := appendTx tx p in
      if ok : bool then (true, queue', p') else rotate n (queue' ++ [tx]) p'
  | _, _ => (false, queue, p)
  end.

Definition count_starved (order : list bytes) (s : fair) : Z :=
  len (filter (fun p => default [] (byProducer s !! p) <> [] /\ default 0 (selectedPerProducer s !! p) = 0) order).

Definition requeued (producer : bytes) (queue : list Transaction) (p : P) (s : fair) : fair :=
  MkFair (<[producer := queue]> (byProducer s)) (selectedPerProducer s) (totalPicks s) (progress s) (countdown s) p.

Definition taken (producer : bytes) (queue : list Transaction) (p : P) (s : fair) : fair :=
  MkFair (<[producer := queue]> (byProducer s))
    (<[producer := default 0 (selectedPerProducer s !! producer) + 1]> (selectedPerProducer s))
    (totalPicks s + 1) true
    (if 0 <? countdown s then countdown s - 1 else countdown s) p.

(** The turn of one producer. The second component is set when the function returns
    from inside it: the number of starved producers. *)
Fixpoint serve (order : list bytes) (quota : nat) (producer : bytes) (s : fair) : fair * option Z :=
  match quota with
  | O => (s, None)
  | S n =>
      let queue := default [] (byProducer s !! producer) in
      match queue with
      | [] => (s, None)
      | _ :: _ =>
          let '(ok, queue', p) := rotate (length queue) queue (picked_so_far s) in
          if ok : bool then
            let s' := taken producer queue' p s in
            if (0 <? countdown s) && (countdown s' <=? 0) then (s', Some (count_starved order s'))
            else serve order n producer s'
          else serve order n producer (requeued producer queue' p s)
      end
  end.

Fixpoint serve_all (order : list bytes) (quota : nat) (producers : list bytes) (s : fair) : fair * option Z :=
  match producers with
  | [] => (s, None)
  | producer :: producers' =>
      match serve order quota producer s with
      | (s', None) => serve_all order quota producers' s'
      | r => r
      end
  end.

Definition new_round (s : fair) : fair :=
  MkFair (byProducer s) (selectedPerProducer s) (totalPicks s) false (countdown s) (picked_so_far s).

(** [for { ... }]: the final variables, the number of rounds, the starved producers.
    A round that goes on has taken a transaction from a queue. *)
Fixpoint rounds (fuel : nat) (order : list bytes) (quota : nat) (n : Z) (s : fair) : fair * Z * Z :=
  match fuel with
  | O => (s, n, 0)
  | S fuel' =>
      match serve_all order quota order (new_round s) with
      | (s', Some starved) => (s', n + 1, starved)
      | (s', None) => if progress s' then rounds fuel' order quota (n + 1) s' else (s', n + 1, 0)
      end
  end.

Definition quota_of (maxPerProducer : Z) : nat := if 0 <? maxPerProducer then Z.to_nat maxPerProducer else 1%nat.

(** Picks, rounds and starved producers. *)
Definition appendFairShare (candidates : list Transaction) (maxCount maxPerProducer : Z) (p : P) : (Z * Z * Z) * P :=
  let '(order, queues) := group candidates in
  match order with
  | [] => ((0, 0, 0), p)
  | _ :: _ =>
      let '(s, n, starved) :=
        rounds (S (length candidates)) order (quota_of maxPerProducer) 0 (MkFair queues ∅ 0 false maxCount p) in
      ((totalPicks s, n, starved), picked_so_far s)
  end.

(** ** The contract of [appendTx] *)

(** A transaction is refused because it is blocked, for ever, or because the block is
    full. *)
Class PickerLaws (blocked : P -> Transaction -> Prop) (full : P -> Prop) := {
  append_refuses tx p p' : appendTx tx p = (false, p') -> p' = p /\ (blocked p tx \/ full p);
  append_accepts tx p p' : appendTx tx p = (true, p') -> ~ blocked p tx /\ ~ full p /\ blocked p' tx;
  append_blocked tx tx' p p' : appendTx tx p = (true, p') -> blocked p tx' -> blocked p' tx' }.

Context {blocked : P -> Transaction -> Prop} {full : P -> Prop} {PL : PickerLaws blocked full}.

Definition refused (p : P) (tx : Transaction) : Prop := blocked p tx \/ full p.

Lemma append_cases tx p :
  (appendTx tx p = (false, p) /\ refused p tx) \/
  (exists p', appendTx tx p = (true, p') /\ ~ refused p tx /\ blocked p' tx).
Proof.
  destruct (appendTx tx p) as [[] p'] eqn:H.
  - right. exists p'. apply append_accepts in H as (H1 & H2 & H3). split_and!; [done| |done]. by intros [].
  - left. apply append_refuses in H as [-> H]. done.
Qed.

Lemma rotate_spec l2 l1 p : Forall (refused p) l1 ->
  match rotate (length l2) (l2 ++ l1) p with
  | (true, q, p') => exists pre tx post, l2 = pre ++ tx :: post /\ Forall (refused p) pre /\
                       appendTx tx p = (true, p') /\ q = post ++ l1 ++ pre
  | (false, q, p') => q = l1 ++ l2 /\ p' = p /\ Forall (refused p) l2
  end.
Proof.
  revert l1. induction l2 as [|tx l2 IH]; intros l1 Hl1; cbn.
  - rewrite app_nil_r. destruct l1; by split_and!.
  - destruct (append_cases tx p) as [[H Hr]|(p' & H & _)]; rewrite H.
    + rewrite <- app_assoc. specialize (IH (l1 ++ [tx])). destruct (rotate (length l2) (l2 ++ l1 ++ [tx]) p) as [[ok q] p'].
      assert (Hl : Forall (refused p) (l1 ++ [tx])) by (apply Forall_app; split; [done|by constructor]).
      specialize (IH Hl). destruct ok.
      * destruct IH as (pre & y & post & -> & Hpre & Ha & ->). exists (tx :: pre), y, post.
        split_and!; [done|by constructor|done|]. by rewrite <- !app_assoc.
      * destruct IH as (-> & -> & Hall). split_and!; [by rewrite <- app_assoc|done|by constructor].
    + exists [], tx, l2. split_and!; [done|done|done|]. by rewrite app_nil_r.
Qed.

Lemma rotate_whole q p :
  match rotate (length q) q p with
  | (true, q', p') => exists pre tx post, q = pre ++ tx :: post /\ Forall (refused p) pre /\
                        appendTx tx p = (true, p') /\ q' = post ++ pre
  | (false, q', p') => q' = q /\ p' = p /\ Forall (refused p) q
  end.
Proof. pose proof (rotate_spec q [] p) as H. rewrite app_nil_r in H. apply H. by constructor. Qed.

(** ** A turn as a sequence of picks *)

Definition queue_of (s : fair) (x : bytes) : list Transaction := default [] (byProducer s !! x).
Definition chosen (s : fair) (x : bytes) : Z := default 0 (selectedPerProducer s !! x).

Inductive picks (x : bytes) : nat -> fair -> fair -> Prop :=
| picks_O s : picks x 0 s s
| picks_S k s s' pre tx post p' :
    byProducer s !! x = Some (pre ++ tx :: post) -> Forall (refused (picked_so_far s)) pre ->
    appendTx tx (picked_so_far s) = (true, p') -> picks x k (taken x (post ++ pre) p' s) s' ->
    picks x (S k) s s'.

Definition exhausted (s : fair) (x : bytes) : Prop := Forall (refused (picked_so_far s)) (queue_of s x).

Lemma accepted_not_refused tx p p' : appendTx tx p = (true, p') -> ~ refused p tx.
Proof. intros H%append_accepts [|]; tauto. Qed.

Lemma picks_exhausted x k s s' : exhausted s x -> picks x k s s' -> k = 0%nat /\ s' = s.
Proof.
  intros He. destruct 1 as [|k s s' pre tx post p' Hq _ Ha _]; [done|].
  unfold exhausted, queue_of in He. rewrite Hq in He. cbn in He. apply Forall_app in He as [_ He].
  apply Forall_cons in He as [He _]. by destruct (accepted_not_refused _ _ _ Ha).
Qed.

Lemma requeued_id x q s : byProducer s !! x = Some q -> requeued x q (picked_so_far s) s = s.
Proof. intros H. unfold requeued. rewrite insert_id by done. by destruct s. Qed.

Lemma serve_spec order quota x s :
  exists k s', (serve order quota x s).1 = s' /\ picks x k s s' /\ (k <= quota)%nat /\
    match (serve order quota x s).2 with
    | None => k = quota \/ exhausted s' x
    | Some _ => 0 < countdown s /\ countdown s' <= 0
    end.
Proof.
  revert s. induction quota as [|n IH]; intros s.
  { exists 0%nat, s. split_and!; [done|constructor|lia|by left]. }
  cbn [serve]. destruct (byProducer s !! x) as [[|tx0 q0]|] eqn:Hq; cbn [default from_option id].
  1, 3: exists 0%nat, s; split_and!; [done|constructor|lia|right; unfold exhausted, queue_of; rewrite Hq; by constructor].
  pose proof (rotate_whole (tx0 :: q0) (picked_so_far s)) as Hr.
  destruct (rotate (length (tx0 :: q0)) (tx0 :: q0) (picked_so_far s)) as [[[] q] p'].
  - destruct Hr as (pre & tx & post & Heq & Hpre & Ha & ->). rewrite Heq in Hq.
    set (s1 := taken x (post ++ pre) p' s).
    assert (Hone : forall k s', picks x k s1 s' -> picks x (S k) s s') by (intros k s' H; by econstructor).
    destruct ((0 <? countdown s) && (countdown s1 <=? 0)) eqn:Hc.
    + go_bool. exists 1%nat, s1. split_and!; [done|apply Hone; constructor|lia|done..].
    + destruct (IH s1) as (k & s' & H1 & H2 & H3 & H4). exists (S k), s'. split_and!; [done|auto|lia|].
      destruct (serve order n x s1).2; [|destruct H4 as [->|H4]; auto].
      destruct H4 as [H4 H5]. split; [|done]. clear -H4. unfold s1, taken in H4. cbn in H4.
      destruct (Z.ltb_spec 0 (countdown s)); lia.
  - destruct Hr as (-> & -> & Hall). rewrite requeued_id by done.
    assert (He : exhausted s x) by (unfold exhausted, queue_of; by rewrite Hq).
    destruct (IH s) as (k & s' & H1 & H2 & H3 & H4). apply (picks_exhausted _ _ _ _ He) in H2 as Hk.
    destruct Hk as [-> ->]. exists 0%nat, s. split_and!; [done|constructor|lia|].
    destruct (serve order n x s).2; [done|by right].
Qed.

(** ** What holds throughout *)

(** The transactions appended, in order. *)
Inductive appends : list Transaction -> P -> P -> Prop :=
| appends_nil p : appends [] p p
| appends_snoc l tx p p1 p2 : appends l p p1 -> appendTx tx p1 = (true, p2) -> appends (l ++ [tx]) p p2.

Definition of_producer (x : bytes) (l : list Transaction) : list Transaction := filter (fun tx => producer_key tx = x) l.

Lemma of_producer_snoc x l tx :
  len (of_producer x (l ++ [tx])) = len (of_producer x l) + (if bool_decide (producer_key tx = x) then 1 else 0).
Proof.
  unfold of_producer, len. rewrite filter_app, length_app, filter_cons. case_decide; case_bool_decide; try done; cbn; lia.
Qed.

Section run.
Context (candidates : list Transaction) (maxCount : Z) (p0 : P).

Record fair_inv (s : fair) : Prop := {
  fi_log : exists l, appends l p0 (picked_so_far s) /\ (forall x, chosen s x = len (of_producer x l)) /\
             totalPicks s = len l /\ (forall tx, tx ∈ l -> tx ∈ candidates);
  fi_queue x q tx : byProducer s !! x = Some q -> tx ∈ q -> producer_key tx = x /\ tx ∈ candidates;
  fi_cover tx : tx ∈ candidates -> tx ∈ queue_of s (producer_key tx) \/ blocked (picked_so_far s) tx;
  fi_count : countdown s = if 0 <? maxCount then Z.max 0 (maxCount - totalPicks s) else maxCount }.

Lemma pick_inv x pre tx post p' s :
  byProducer s !! x = Some (pre ++ tx :: post) -> appendTx tx (picked_so_far s) = (true, p') ->
  fair_inv s -> fair_inv (taken x (post ++ pre) p' s).
Proof.
  intros Hq Ha [(l & Hl & Hch & Ht & Hin) Hqs Hcov Hcount].
  assert (Htx : producer_key tx = x /\ tx ∈ candidates) by (apply (Hqs x _ tx Hq); set_solver). destruct Htx as [Hx Htx].
  constructor; cbn.
  - exists (l ++ [tx]). split_and!.
    + by eapply appends_snoc.
    + intros y. unfold chosen. cbn. rewrite of_producer_snoc, <- Hch. unfold chosen.
      destruct (decide (x = y)) as [<-|Hne].
      * by rewrite lookup_insert_eq, bool_decide_true.
      * rewrite lookup_insert_ne, bool_decide_false by congruence. lia.
    + unfold len in *. rewrite length_app. cbn. lia.
    + intros y [Hy| ->%list_elem_of_singleton]%elem_of_app; auto.
  - intros y q z. destruct (decide (x = y)) as [<-|Hne].
    + rewrite lookup_insert_eq. intros [= <-] Hz. apply (Hqs x _ z Hq). set_solver.
    + rewrite lookup_insert_ne by done. apply Hqs.
  - intros y Hy. unfold queue_of. cbn. destruct (Hcov y Hy) as [Hin'|Hb].
    + unfold queue_of in Hin'. destruct (decide (x = producer_key y)) as [Heq|Hne].
      * rewrite Heq, lookup_insert_eq. rewrite <- Heq, Hq in Hin'. cbn in *.
        rewrite elem_of_app, elem_of_cons in Hin'. destruct Hin' as [?|[->|?]]; [left; set_solver| |left; set_solver].
        right. by apply append_accepts in Ha as (_ & _ & ?).
      * rewrite lookup_insert_ne by done. by left.
    + right. by eapply append_blocked.
  - rewrite Hcount. assert (0 <= totalPicks s) by (rewrite Ht; unfold len; lia).
    destruct (Z.ltb_spec 0 maxCount); [|destruct (Z.ltb_spec 0 maxCount); lia].
    destruct (Z.ltb_spec 0 (Z.max 0 (maxCount - totalPicks s))); lia.
Qed.

Lemma picks_inv x k s s' : picks x k s s' -> fair_inv s -> fair_inv s'.
Proof. induction 1; [done|]. intros Hs. apply IHpicks. by eapply pick_inv. Qed.

Lemma picks_blocked x k s s' tx : picks x k s s' -> blocked (picked_so_far s) tx -> blocked (picked_so_far s') tx.
Proof. induction 1; [done|]. intros Hs. apply IHpicks. by eapply append_blocked. Qed.

Lemma picks_chosen x k s s' y : picks x k s s' ->
  chosen s' y = chosen s y + (if bool_decide (y = x) then Z.of_nat k else 0).
Proof.
  induction 1 as [s|k s s' pre tx post p' Hq Hpre Ha H IH]; [case_bool_decide; lia|].
  rewrite IH. unfold chosen. cbn. case_bool_decide; subst; [rewrite lookup_insert_eq; cbn; lia|].
  rewrite lookup_insert_ne by done. lia.
Qed.

Lemma picks_other x k s s' y : picks x k s s' -> y <> x -> queue_of s' y = queue_of s y.
Proof.
  intros H Hy. induction H as [s|k s s' pre tx post p' Hq Hpre Ha H IH]; [done|].
  rewrite IH. unfold queue_of. cbn. by rewrite lookup_insert_ne.
Qed.

Lemma picks_progress x k s s' : picks x k s s' -> progress s' = progress s || bool_decide (0 < k)%nat.
Proof.
  induction 1 as [s|k s s' pre tx post p' Hq Hpre Ha H IH]; [by rewrite orb_false_r|].
  rewrite IH. cbn. rewrite bool_decide_true by lia. by rewrite orb_true_r.
Qed.

(** Picks take one transaction each out of the queue; what is left was there before. *)
Lemma picks_queue x k s s' : picks x k s s' ->
  length (queue_of s x) = (k + length (queue_of s' x))%nat /\ (forall tx, tx ∈ queue_of s' x -> tx ∈ queue_of s x).
Proof.
  induction 1 as [s|k s s' pre tx post p' Hq Hpre Ha H [IHn IHin]]; [done|].
  assert (Hq1 : queue_of (taken x (post ++ pre) p' s) x = post ++ pre) by (unfold queue_of; cbn; by rewrite lookup_insert_eq).
  assert (Hqs : queue_of s x = pre ++ tx :: post) by (unfold queue_of; by rewrite Hq).
  rewrite Hq1 in IHn, IHin. rewrite Hqs. split.
  - rewrite length_app in *. cbn. lia.
  - intros y Hy%IHin. rewrite elem_of_app in *. rewrite elem_of_cons. tauto.
Qed.

(** ** A round *)

Fixpoint remaining (order : list bytes) (s : fair) : nat :=
  match order with [] => O | x :: order' => (length (queue_of s x) + remaining order' s)%nat end.

Lemma remaining_ext order s s' : (forall x, x ∈ order -> queue_of s' x = queue_of s x) -> remaining order s' = remaining order s.
Proof.
  induction order as [|x order IH]; [done|]. intros H. cbn. rewrite (H x), IH; [done| |by left].
  intros y Hy. apply H. by right.
Qed.

Lemma picks_remaining x k s s' order : picks x k s s' -> NoDup order ->
  remaining order s = ((if decide (x ∈ order) then k else 0) + remaining order s')%nat.
Proof.
  intros H. induction order as [|y order IH]; intros Hnd; [done|]. apply NoDup_cons in Hnd as [Hy Hnd].
  cbn [remaining]. rewrite IH by done. destruct (decide (y = x)) as [->|Hne].
  - rewrite (decide_False (P:=x ∈ order)) by done. rewrite decide_True by (by left).
    destruct (picks_queue _ _ _ _ H) as [-> _]. lia.
  - rewrite (picks_other _ _ _ _ y H Hne). destruct (decide (x ∈ order)), (decide (x ∈ y :: order)); try set_solver; lia.
Qed.

(** What a sequence of turns preserves, and how far it can go. *)
Lemma serve_all_inv order quota producers s : fair_inv s -> fair_inv (serve_all order quota producers s).1.
Proof.
  revert s. induction producers as [|x l IH]; intros s Hs; [done|]. cbn.
  destruct (serve_spec order quota x s) as (k & s' & He & Hp & _). destruct (serve order quota x s) as [s1 [n|]]; cbn in *; subst.
  - by eapply picks_inv.
  - apply IH. by eapply picks_inv.
Qed.

(** A round in which nothing was picked has left the variables as they were, and
    tried everything. *)
Lemma serve_all_idle order quota producers s : (0 < quota)%nat -> progress (serve_all order quota producers s).1 = false ->
  serve_all order quota producers s = (s, None) /\ forall x, x ∈ producers -> exhausted s x.
Proof.
  intros Hquota. revert s. induction producers as [|x l IH]; intros s; cbn.
  { intros _. split; [done|]. by intros x Hx%elem_of_nil. }
  destruct (serve_spec order quota x s) as (k & s' & He & Hp & _ & Hend).
  pose proof (picks_progress _ _ _ _ Hp) as Hpr.
  assert (Hmono : forall ps t, progress t = true -> progress (serve_all order quota ps t).1 = true).
  { intros ps. induction ps as [|y ps IHps]; intros t Ht; [done|]. cbn.
    destruct (serve_spec order quota y t) as (k' & t' & He' & Hp' & _). apply picks_progress in Hp'. rewrite Ht in Hp'.
    destruct (serve order quota y t) as [t1 [n|]]; cbn in *; subst; [done|]. by apply IHps. }
  destruct (serve order quota x s) as [s1 [n|]]; cbn in *; subst.
  - intros Hf. rewrite Hf in Hpr. symmetry in Hpr. apply orb_false_iff in Hpr as [_ Hk].
    apply bool_decide_eq_false in Hk. assert (k = 0%nat) as -> by lia. inversion Hp; subst. lia.
  - intros Hf. assert (Hs' : progress s' = false).
    { destruct (progress s') eqn:E; [|done]. by rewrite Hmono in Hf. }
    rewrite Hs' in Hpr. symmetry in Hpr. apply orb_false_iff in Hpr as [_ Hk].
    apply bool_decide_eq_false in Hk. assert (k = 0%nat) as -> by lia. inversion Hp; subst.
    destruct (IH _ Hf) as [-> Hall]. split; [done|]. intros y [->|Hy]%elem_of_cons; [|auto].
    destruct Hend as [Hend|Hend]; [lia|done].
Qed.

Lemma serve_all_stop order quota producers s n : fair_inv s -> (serve_all order quota producers s).2 = Some n ->
  0 < maxCount /\ maxCount <= totalPicks (serve_all order quota producers s).1.
Proof.
  revert s. induction producers as [|x l IH]; intros s Hs; cbn; [done|].
  destruct (serve_spec order quota x s) as (k & s' & He & Hp & _ & Hend).
  assert (Hs' : fair_inv s') by (by eapply picks_inv).
  destruct (serve order quota x s) as [s1 [m|]]; cbn in *; subst; [|by apply IH].
  intros _. destruct Hend as [H1 H2]. rewrite (fi_count _ Hs) in H1. rewrite (fi_count _ Hs') in H2.
  destruct (Z.ltb_spec 0 maxCount); lia.
Qed.

Lemma serve_all_remaining order quota producers s : NoDup order -> (forall x, x ∈ producers -> x ∈ order) ->
  (remaining order (serve_all order quota producers s).1 <= remaining order s)%nat /\
  (progress s = false -> progress (serve_all order quota producers s).1 = true ->
   (remaining order (serve_all order quota producers s).1 < remaining order s)%nat).
Proof.
  intros Hnd. revert s. induction producers as [|x l IH]; intros s Hsub; cbn; [split; [lia|congruence]|].
  destruct (serve_spec order quota x s) as (k & s' & He & Hp & _).
  pose proof (picks_remaining _ _ _ _ order Hp Hnd) as Hr. rewrite decide_True in Hr by (apply Hsub; by left).
  pose proof (picks_progress _ _ _ _ Hp) as Hpr. destruct (serve order quota x s) as [s1 [n|]]; cbn in *; subst.
  - split; [lia|]. intros Hf Ht. rewrite Hf in Hpr. rewrite Hpr in Ht. apply bool_decide_eq_true in Ht. lia.
  - destruct (IH s') as [H1 H2]; [intros y Hy; apply Hsub; by right|]. split; [lia|]. intros Hf Ht.
    rewrite Hf in Hpr. cbn in Hpr. case_bool_decide; [lia|]. specialize (H2 Hpr Ht). lia.
Qed.

(** ** All rounds *)

Lemma new_round_inv s : fair_inv s -> fair_inv (new_round s).
Proof. intros []. by constructor. Qed.

Lemma rounds_inv fuel order quota n s : fair_inv s -> fair_inv (rounds fuel order quota n s).1.1.
Proof.
  revert n s. induction fuel as [|fuel IH]; intros n s Hs; [done|]. cbn.
  pose proof (serve_all_inv order quota order (new_round s) (new_round_inv _ Hs)) as Hi.
  destruct (serve_all order quota order (new_round s)) as [s' [m|]]; cbn in *; [done|].
  destruct (progress s'); [by apply IH|done].
Qed.

(** The fuel of the function is enough: the loop ends by itself, having tried every
    transaction or reached the count. *)
Lemma rounds_end fuel order quota n s : (0 < quota)%nat -> NoDup order -> fair_inv s -> (remaining order s < fuel)%nat ->
  (forall x, x ∈ order -> exhausted (rounds fuel order quota n s).1.1 x) \/
  (0 < maxCount /\ maxCount <= totalPicks (rounds fuel order quota n s).1.1).
Proof.
  intros Hq Hnd. revert n s. induction fuel as [|fuel IH]; intros n s Hs Hf; [lia|]. cbn [rounds].
  pose proof (serve_all_idle order quota order (new_round s) Hq) as Hidle.
  pose proof (serve_all_stop order quota order (new_round s)) as Hstop.
  pose proof (serve_all_inv order quota order (new_round s) (new_round_inv _ Hs)) as Hi.
  pose proof (serve_all_remaining order quota order (new_round s) Hnd) as Hr.
  destruct (serve_all order quota order (new_round s)) as [s' [m|]]; cbn [fst snd] in *.
  - right. by eapply Hstop; [apply new_round_inv|].
  - destruct (progress s') eqn:Hp.
    + apply IH; [done|]. destruct (Hr ltac:(done)) as [_ Hlt]. specialize (Hlt eq_refl eq_refl).
      assert (remaining order (new_round s) = remaining order s) by (by apply remaining_ext). lia.
    + left. destruct (Hidle eq_refl) as [Heq Hall]. injection Heq as ->. exact Hall.
Qed.

Lemma rounds_fuel fuel fuel' order quota n s : NoDup order ->
  (remaining order s < fuel)%nat -> (remaining order s < fuel')%nat -> rounds fuel order quota n s = rounds fuel' order quota n s.
Proof.
  intros Hnd. revert fuel' n s. induction fuel as [|fuel IH]; intros [|fuel'] n s Hf Hf'; try lia. cbn [rounds].
  pose proof (serve_all_remaining order quota order (new_round s) Hnd) as Hr.
  assert (Hsame : remaining order (new_round s) = remaining order s) by (by apply remaining_ext).
  destruct (serve_all order quota order (new_round s)) as [s' [m|]]; [done|]. destruct (progress s') eqn:Hp; [|done].
  destruct (Hr ltac:(done)) as [_ Hlt]. specialize (Hlt eq_refl Hp). cbn [fst] in Hlt. apply IH; lia.
Qed.

(** ** Fairness *)

Definition all_blocked (s : fair) (x : bytes) : Prop := Forall (blocked (picked_so_far s)) (queue_of s x).

(** After [r] rounds every producer has had its quota in each, or has nothing left
    that could be appended. *)
Definition share (lo hi : Z) (s : fair) (x : bytes) : Prop := chosen s x <= hi /\ (lo <= chosen s x \/ all_blocked s x).

Lemma refused_all p l : Forall (refused p) l -> Forall (blocked p) l \/ full p.
Proof.
  induction 1 as [|tx l Hx Hl IH]; [by left|]. destruct Hx as [Hx|Hx]; [|by right].
  destruct IH as [IH|IH]; [left; by constructor|by right].
Qed.

Lemma picks_share_other x k s s' y lo hi : picks x k s s' -> y <> x -> share lo hi s y -> share lo hi s' y.
Proof.
  intros H Hy [H1 H2]. unfold share, all_blocked. rewrite (picks_chosen _ _ _ _ y H), bool_decide_false by done.
  rewrite (picks_other _ _ _ _ y H Hy), Z.add_0_r. split; [done|]. destruct H2 as [H2|H2]; [by left|right].
  eapply Forall_impl; [exact H2|]. intros tx. by apply (picks_blocked _ _ _ _ tx H).
Qed.

Lemma full_exhausted s x : full (picked_so_far s) -> exhausted s x.
Proof. intros H. apply Forall_forall. intros tx _. by right. Qed.

Lemma serve_all_full order quota l s : full (picked_so_far s) -> serve_all order quota l s = (s, None).
Proof.
  intros Hf. induction l as [|x l IH]; [done|]. cbn.
  destruct (serve_spec order quota x s) as (k & s' & He & Hp & _ & Hend).
  apply (picks_exhausted _ _ _ _ (full_exhausted s x Hf)) in Hp as [-> ->].
  destruct (serve order quota x s) as [s1 [m|]]; cbn in *; subst; [lia|done].
Qed.

Lemma share_weaken lo hi lo' hi' s x : lo' <= lo -> hi <= hi' -> share lo hi s x -> share lo' hi' s x.
Proof. intros Hl Hh [H1 H2]. split; [lia|]. destruct H2; [left; lia|by right]. Qed.

Section fairness.
Context (quota : nat).
#[local] Abbreviation q := (Z.of_nat quota).
Definition started (r : Z) (s : fair) (x : bytes) : Prop := share (r * q) (r * q) s x.
Definition during (r : Z) (s : fair) (x : bytes) : Prop := share (r * q) ((r + 1) * q) s x.

Lemma started_during r s x : started r s x -> during r s x.
Proof. apply share_weaken; nia. Qed.
Lemma started_next r s x : started (r + 1) s x -> during r s x.
Proof. apply share_weaken; nia. Qed.

(** A turn brings its producer to the next round, unless the block is full or the
    count is reached. *)
Lemma turn_share order r x s : started r s x ->
  let '(s', stop) := serve order quota x s in
  during r s' x /\ (stop = None -> started (r + 1) s' x \/ full (picked_so_far s')).
Proof.
  intros Hx. destruct (serve_spec order quota x s) as (k & s' & He & Hp & Hk & Hend).
  destruct (serve order quota x s) as [s1 stop]. cbn in *. subst s1.
  pose proof (picks_chosen _ _ _ _ x Hp) as Hc. rewrite bool_decide_true in Hc by done. destruct Hx as [H1 H2].
  assert (Hlo : r * q <= chosen s' x \/ all_blocked s' x).
  { destruct H2 as [H2|H2]; [left; lia|right]. assert (He : exhausted s x).
    { eapply Forall_impl; [exact H2|]. by left. }
    by apply (picks_exhausted _ _ _ _ He) in Hp as [_ ->]. }
  split; [split; [nia|done]|]. intros ->. destruct Hend as [->|Hend].
  - left. split; [nia|]. destruct H2 as [H2|H2]; [left; nia|right].
    assert (He : exhausted s x) by (eapply Forall_impl; [exact H2|]; by left).
    by apply (picks_exhausted _ _ _ _ He) in Hp as [_ ->].
  - apply refused_all in Hend as [Hend|Hend]; [|by right]. left. split; [nia|by right].
Qed.

Lemma round_share order r done todo s : NoDup (done ++ todo) ->
  (forall x, x ∈ done -> started (r + 1) s x) -> (forall x, x ∈ todo -> started r s x) ->
  let '(s', stop) := serve_all order quota todo s in
  (forall x, x ∈ done ++ todo -> during r s' x) /\
  (stop = None -> (forall x, x ∈ done ++ todo -> started (r + 1) s' x) \/ full (picked_so_far s')).
Proof.
  revert done s. induction todo as [|x todo IH]; intros done s Hnd Hd Ht; cbn [serve_all].
  { rewrite app_nil_r. split; [|by left]. intros x Hx. apply started_next. auto. }
  assert (Hne : forall y, y ∈ done ++ todo -> y <> x).
  { intros y Hy ->. apply NoDup_app in Hnd as (_ & Hdis & Hnd). apply NoDup_cons in Hnd as [Hx _].
    apply elem_of_app in Hy as [Hy|Hy]; [|done]. apply (Hdis x Hy). by left. }
  destruct (serve_spec order quota x s) as (k & s' & He & Hp & _ & _).
  pose proof (turn_share order r x s (Ht x ltac:(by left))) as Hturn.
  destruct (serve order quota x s) as [s1 stop]. cbn in He. subst s1. destruct Hturn as [Hx Hnext].
  assert (Hd' : forall y, y ∈ done -> started (r + 1) s' y).
  { intros y Hy. eapply picks_share_other; [done|apply Hne; set_solver|by apply Hd]. }
  assert (Ht' : forall y, y ∈ todo -> started r s' y).
  { intros y Hy. eapply picks_share_other; [done|apply Hne; set_solver|apply Ht; by right]. }
  assert (Hmid : forall y, y ∈ done ++ x :: todo -> during r s' y).
  { intros y [Hy|[->|Hy]%elem_of_cons]%elem_of_app; [apply started_next; auto|done|apply started_during; auto]. }
  destruct stop as [m|]; [by split|]. destruct (Hnext eq_refl) as [Hs|Hf].
  - specialize (IH (done ++ [x]) s'). rewrite <- app_assoc in IH. apply IH; [done| |done].
    intros y [Hy|Hy]%elem_of_app; [auto|]. apply list_elem_of_singleton in Hy as ->. done.
  - rewrite serve_all_full by done. split; [done|]. by right.
Qed.

Lemma rounds_share fuel order n s : NoDup order ->
  (exists r, forall x, x ∈ order -> started r s x) \/ (full (picked_so_far s) /\ exists r, forall x, x ∈ order -> during r s x) ->
  exists r, forall x, x ∈ order -> during r (rounds fuel order quota n s).1.1 x.
Proof.
  intros Hnd. revert n s. induction fuel as [|fuel IH]; intros n s Hs; cbn [rounds].
  { destruct Hs as [[r Hs]|[_ Hs]]; [|done]. exists r. intros x Hx. by apply started_during, Hs. }
  destruct Hs as [[r Hs]|[Hf [r Hs]]].
  - pose proof (round_share order r [] order (new_round s) Hnd) as Hr. specialize (Hr (fun x Hx => match not_elem_of_nil x Hx with end) Hs).
    destruct (serve_all order quota order (new_round s)) as [s' [m|]]; destruct Hr as [Hd Hn]; [by exists r|].
    destruct (progress s'); [|by exists r]. apply IH. destruct (Hn eq_refl) as [Hn'|Hf]; [left; by exists (r + 1)|right].
    split; [done|]. by exists r.
  - rewrite serve_all_full by done. cbn. by exists r.
Qed.
End fairness.
End run.

(** ** Grouping *)

Lemma group_spec candidates :
  NoDup (group candidates).1 /\ (forall x, x ∈ (group candidates).1 <-> is_Some ((group candidates).2 !! x)) /\
  (forall x, default [] ((group candidates).2 !! x) = of_producer x candidates).
Proof.
  unfold group. induction candidates as [|tx l IH] using rev_ind.
  { cbn. split_and!; [constructor| |].
    - intros x. rewrite lookup_empty. split; [by intros ?%elem_of_nil|by intros [? [=]]].
    - intros x. by rewrite lookup_empty. }
  rewrite foldl_snoc. destruct (foldl _ _ l) as [order m]. cbn [fst snd] in *. destruct IH as (Hnd & Hdom & Hq).
  assert (Hfold : forall x, default [] (<[producer_key tx := default [] (m !! producer_key tx) ++ [tx]]> m !! x) = of_producer x (l ++ [tx])).
  { intros x. unfold of_producer. rewrite filter_app, filter_cons, filter_nil. destruct (decide (producer_key tx = x)) as [<-|Hne].
    - rewrite lookup_insert_eq. cbn. by rewrite Hq.
    - rewrite lookup_insert_ne, app_nil_r by done. apply Hq. }
  destruct (m !! producer_key tx) as [y|] eqn:Hy; cbn [fst snd].
  - split_and!; [done| |exact Hfold]. intros x. rewrite Hdom. destruct (decide (producer_key tx = x)) as [<-|Hne].
    + rewrite lookup_insert_eq, Hy. split; by eexists.
    + by rewrite lookup_insert_ne.
  - split_and!; [| |exact Hfold].
    + apply NoDup_app. split_and!; [done| |apply NoDup_singleton]. intros x Hx ->%list_elem_of_singleton.
      apply Hdom in Hx as [z Hz]. congruence.
    + intros x. rewrite elem_of_app, list_elem_of_singleton, Hdom. destruct (decide (producer_key tx = x)) as [<-|Hne].
      * rewrite lookup_insert_eq. split; [by eexists|by right].
      * rewrite lookup_insert_ne by done. split; [by intros [?| ->]|by left].
Qed.

Lemma of_producer_cons x tx l :
  length (of_producer x (tx :: l)) = ((if decide (producer_key tx = x) then 1 else 0) + length (of_producer x l))%nat.
Proof. unfold of_producer. rewrite filter_cons. by case_decide. Qed.

Fixpoint total (order : list bytes) (l : list Transaction) : nat :=
  match order with [] => O | x :: order' => (length (of_producer x l) + total order' l)%nat end.

Lemma total_cons order tx l : NoDup order ->
  total order (tx :: l) = ((if decide (producer_key tx ∈ order) then 1 else 0) + total order l)%nat.
Proof.
  induction order as [|x order IH]; intros Hnd; [done|]. apply NoDup_cons in Hnd as [Hx Hnd].
  cbn [total]. rewrite IH, of_producer_cons by done. destruct (decide (producer_key tx = x)) as [<-|Hne].
  - rewrite (decide_False (P:=producer_key tx ∈ order)) by done. rewrite decide_True by (by left). lia.
  - destruct (decide (producer_key tx ∈ order)) as [Hin|Hin]; [rewrite decide_True by (by right); lia|].
    rewrite decide_False; [lia|]. by intros [?|?]%elem_of_cons.
Qed.

Lemma remaining_bound order candidates s : NoDup order -> (forall x, queue_of s x = of_producer x candidates) ->
  (remaining order s <= length candidates)%nat.
Proof.
  intros Hnd Hq. assert (remaining order s = total order candidates) as ->.
  { clear Hnd. induction order as [|x order IH]; [done|]. cbn. by rewrite IH, Hq. }
  clear Hq s. induction candidates as [|tx l IH].
  - induction order as [|x order IHo]; [done|]. apply NoDup_cons in Hnd as [_ Hnd]. by apply IHo.
  - rewrite total_cons by done. cbn [length]. destruct (decide _); lia.
Qed.

Lemma exhausted_refused candidates maxCount p0 (order : list bytes) s : fair_inv candidates maxCount p0 s ->
  (forall tx, tx ∈ candidates -> producer_key tx ∈ order) -> (forall x, x ∈ order -> exhausted s x) ->
  forall tx, tx ∈ candidates -> refused (picked_so_far s) tx.
Proof.
  intros Hs Hkey Hend tx Htx. destruct (fi_cover _ _ _ _ Hs tx Htx) as [Hin|Hb]; [|by left].
  specialize (Hend _ (Hkey tx Htx)). unfold exhausted in Hend. by rewrite Forall_forall in Hend; apply Hend.
Qed.

Lemma during_fair candidates maxCount p0 (order : list bytes) s quota r l x y : fair_inv candidates maxCount p0 s ->
  (forall tx, tx ∈ candidates -> producer_key tx ∈ order) -> (forall x, x ∈ order -> during quota r s x) ->
  (forall x, chosen s x = len (of_producer x l)) -> (forall tx, tx ∈ l -> tx ∈ candidates) ->
  len (of_producer x l) <= len (of_producer y l) + Z.of_nat quota \/
  forall tx, tx ∈ candidates -> producer_key tx = y -> blocked (picked_so_far s) tx.
Proof.
  intros Hs Hkey Hr Hch Hin. pose proof (len_nonneg (of_producer y l)).
  destruct (decide (y ∈ order)) as [Hy|Hy].
  2: { right. intros tx Htx <-. by destruct Hy; apply Hkey. }
  destruct (decide (x ∈ order)) as [Hx|Hx].
  2: { left. assert (of_producer x l = []) as ->; [|unfold len in *; cbn; lia].
       unfold of_producer. apply list_filter_none, Forall_forall. intros tx Htx He. subst x. by apply Hx, Hkey, Hin. }
  destruct (Hr x Hx) as [H1 _]. destruct (Hr y Hy) as [_ [H2|H2]]; [left; rewrite <- !Hch; nia|right].
  intros tx Htx <-. destruct (fi_cover _ _ _ _ Hs tx Htx) as [Hq|Hb]; [|done].
  unfold all_blocked in H2. rewrite Forall_forall in H2. auto.
Qed.

(** Everything about a call: what it appends, that it stops for no other reason than
    a full block or nothing left to append, and that no producer gets a whole quota
    more than another that still had something to append. *)
Lemma appendFairShare_spec candidates maxCount maxPerProducer p :
  let quota := Z.of_nat (quota_of maxPerProducer) in
  let '((n, _, _), p') := appendFairShare candidates maxCount maxPerProducer p in
  exists l, appends l p p' /\ (forall tx, tx ∈ l -> tx ∈ candidates) /\ n = len l /\
    ((forall tx, tx ∈ candidates -> refused p' tx) \/ (0 < maxCount /\ maxCount <= len l)) /\
    (forall x y, len (of_producer x l) <= len (of_producer y l) + quota \/
                 forall tx, tx ∈ candidates -> producer_key tx = y -> blocked p' tx).
Proof.
  unfold appendFairShare. destruct (group_spec candidates) as (Hnd & Hdom & Hq).
  destruct (group candidates) as [order queues]. cbn [fst snd] in *. destruct order as [|x0 order0] eqn:Horder.
  { assert (Hnone : forall tx, tx ∉ candidates).
    { intros tx Htx. assert (Hin : tx ∈ of_producer (producer_key tx) candidates) by (by apply list_elem_of_filter).
      rewrite <- Hq in Hin. destruct (queues !! producer_key tx) as [q|] eqn:Hl; [|by apply elem_of_nil in Hin].
      by apply (not_elem_of_nil (producer_key tx)), Hdom. }
    exists []. split_and!; [constructor|by intros ? ?%elem_of_nil|done|left; intros tx Htx; by destruct (Hnone tx)|].
    intros x y. right. intros tx Htx. by destruct (Hnone tx). }
  rewrite <- Horder in *. clear x0 order0 Horder.
  set (s0 := MkFair queues ∅ 0 false maxCount p). set (quota := quota_of maxPerProducer).
  assert (Hquota : (0 < quota)%nat) by (unfold quota, quota_of; destruct (Z.ltb_spec 0 maxPerProducer); lia).
  assert (Hkey : forall tx, tx ∈ candidates -> producer_key tx ∈ order).
  { intros tx Htx. apply Hdom. assert (Hin : tx ∈ of_producer (producer_key tx) candidates) by (by apply list_elem_of_filter).
    rewrite <- Hq in Hin. destruct (queues !! producer_key tx); [by eexists|]. by apply elem_of_nil in Hin. }
  assert (Hch0 : forall x, chosen s0 x = 0) by (intros x; unfold chosen; cbn; by rewrite lookup_empty).
  assert (Hinv : fair_inv candidates maxCount p s0).
  { constructor.
    - exists []. split_and!; [constructor|exact Hch0|done|by intros ? ?%elem_of_nil].
    - intros x q tx Hx Htx. specialize (Hq x). cbn in Hx. rewrite Hx in Hq. cbn in Hq. subst q.
      by apply list_elem_of_filter in Htx.
    - intros tx Htx. left. unfold queue_of. cbn. rewrite Hq. by apply list_elem_of_filter.
    - cbn. destruct (Z.ltb_spec 0 maxCount); lia. }
  pose proof (remaining_bound order candidates s0 Hnd Hq) as Hrem.
  pose proof (rounds_inv candidates maxCount p (S (length candidates)) order quota 0 s0 Hinv) as Hfin.
  destruct (rounds_end candidates maxCount p (S (length candidates)) order quota 0 s0 Hquota Hnd Hinv ltac:(lia)) as [Hend|Hend];
    destruct (rounds_share quota (S (length candidates)) order 0 s0 Hnd) as [r Hr];
    try (left; exists 0; intros x _; split; [rewrite Hch0; lia|left; rewrite Hch0; lia]).
  all: destruct (rounds (S (length candidates)) order quota 0 s0) as [[s n] starved]; cbn [fst snd] in *.
  all: pose proof Hfin as [(l & Hl & Hch & Ht & Hin) Hqs Hcov Hcount]; exists l; split_and!; [done|done|done| |].
  all: try (intros x y; by eapply (during_fair candidates maxCount p order)).
  - left. by apply (exhausted_refused candidates maxCount p order).
  - right. lia.
Qed.
End fair_share.
