(* ===== verification/Builder.v ===== *)
(** backend/pkg/block/builder.go and limits.go: how the leader of a view fills a
    block from the mempool. *)
From S2P Require Import Prelude Bytes Sha256 GoTime GoFloat GoStrings GoJson Codec Merkle Store Messages Block.
From S2P Require Import Mempool MempoolSpec MempoolRuns FairShare.
Import Codec Model Json.

(** ** State *)

Record Config := MkConfig {
  MaxTxsPerBlock : Z; MaxBlockBytes : Z; ProposalSizeReserveBytes : Z; MinMempoolTxs : Z; BuildInterval : Z;
  PolicyPriorityMinTxs : Z; P0PriorityMinTxs : Z; MempoolCapacity : Z; BackpressureThreshold : float64;
  LatencyThresholdSeconds : Z; MaxTxsBackpressure : Z; MaxTxsLatency : Z;
  FairShareEnabled : bool; FairShareMaxPerProducer : Z }.

(** The counters wrap at 64 bits; the mempool and the store are arguments. *)
Record Builder := MkBuilder {
  b_cfg : Config; p0ReservedPickTotal : Z; fairSharePickTotal : Z; fairShareRoundsTotal : Z; fairShareStarvedTotal : Z }.

Definition NewBuilder (c : Config) : Builder := MkBuilder c 0 0 0 0.

Definition count_p0 (n : Z) (b : Builder) : Builder :=
  MkBuilder (b_cfg b) (u64 (p0ReservedPickTotal b + n)) (fairSharePickTotal b) (fairShareRoundsTotal b) (fairShareStarvedTotal b).
Definition count_shares (picks rounds starved : Z) (b : Builder) : Builder :=
  MkBuilder (b_cfg b) (p0ReservedPickTotal b) (u64 (fairSharePickTotal b + picks))
    (u64 (fairShareRoundsTotal b + rounds)) (u64 (fairShareStarvedTotal b + starved)).

(** [BuilderStats]. *)
Definition Stats (b : Builder) : Z * Z * Z * Z :=
  (p0ReservedPickTotal b, fairSharePickTotal b, fairShareRoundsTotal b, fairShareStarvedTotal b).

(** ** Limits *)

(** [b] positive and in [a, b]: the clamp [if a > b]. *)
Definition clamp (floor maxCount : Z) : Z :=
  let floor := if floor <? 0 then 0 else floor in
  if (0 <? maxCount) && (maxCount <? floor) then maxCount else floor.

Definition max_bytes (c : Config) : Z :=
  if (0 <? MaxBlockBytes c) && (0 <? ProposalSizeReserveBytes c) && (ProposalSizeReserveBytes c <? MaxBlockBytes c)
  then MaxBlockBytes c - ProposalSizeReserveBytes c else MaxBlockBytes c.

(** [maxCount], of which zero and below mean no limit. *)
Definition max_count (c : Config) (count oldest : Z) (now : Time) : Z :=
  let backpressureThreshold := f_to_int64 (f_mul (f_of_Z (MempoolCapacity c)) (BackpressureThreshold c)) in
  let maxCount := if backpressureThreshold <? count then Z.min count (MaxTxsBackpressure c) else MaxTxsPerBlock c in
  if (0 <? oldest) && (LatencyThresholdSeconds c <? i64 (Unix now - oldest)) then Z.min count (MaxTxsLatency c) else maxCount.

(** ** Selection *)

(** The variables [appendTx] captures and changes. *)
Record pick := MkPick { p_txs : list Transaction; p_selected : gset bytes; currentBytes : Z }.

Definition content_hash (tx : Transaction) : bytes := EnvContentHash (Envelope_ tx).

Definition appendTx (exclusions : gset bytes) (maxBytes maxCount : Z) (tx : Transaction) (p : pick) : bool * pick :=
  let hash := content_hash tx in
  if bool_decide (hash ∈ p_selected p) then (false, p)
  else if bool_decide (hash ∈ exclusions) then (false, p)
  else
    let size := len (Payload tx) in
    if (0 <? maxBytes) && (maxBytes <? currentBytes p + size) then (false, p)
    else if (0 <? maxCount) && (maxCount <=? len (p_txs p)) then (false, p)
    else (true, MkPick (p_txs p ++ [tx]) ({[hash]} ∪ p_selected p) (currentBytes p + size)).

(** The two loops that fill a floor, with what they count. *)
Fixpoint reserve (append : Transaction -> pick -> bool * pick) (want : Transaction -> bool) (floor picked : Z)
  (candidates : list Transaction) (p : pick) : Z * pick :=
  match candidates with
  | [] => (picked, p)
  | tx :: l =>
      if negb (want tx) then reserve append want floor picked l p
      else
        let '(ok, p') := append tx p in
        if ok : bool then
          if floor <=? picked + 1 then (picked + 1, p') else reserve append want floor (picked + 1) l p'
        else reserve append want floor picked l p'
  end.

(** The loop without fair shares. *)
Fixpoint fill (append : Transaction -> pick -> bool * pick) (maxCount : Z) (candidates : list Transaction) (p : pick) : pick :=
  match candidates with
  | [] => p
  | tx :: l =>
      let '(_, p') := append tx p in
      if (0 <? maxCount) && (maxCount <=? len (p_txs p')) then p' else fill append maxCount l p'
  end.

Definition isPolicy (tx : Transaction) : bool := bool_decide (Type_ tx = TxPolicy).

Definition critical : list bytes := [str "drop"; str "reject"; str "freeze"; str "block"; str "remove"].

(** The closure [lookup]. *)
Definition lookup_word (m : gmap bytes json) (key : bytes) : bytes :=
  match get_string m key with Some s => ToLower (TrimSpace s) | None => [] end.

Definition isP0CriticalTx (tx : Transaction) : bool :=
  if negb (isPolicy tx) then false
  else if len (Payload tx) =? 0 then false
  else
    match Unmarshal_map (Payload tx) with
    | None => false
    | Some root =>
        let action := lookup_word root (str "action") in
        let controlAction := lookup_word root (str "control_action") in
        let '(action, controlAction) :=
          match get_map root (str "params") with
          | Some nested =>
              (if bool_decide (action = []) then lookup_word nested (str "action") else action,
               if bool_decide (controlAction = []) then lookup_word nested (str "control_action") else controlAction)
          | None => (action, controlAction)
          end in
        bool_decide (controlAction ∈ critical) || bool_decide (action ∈ critical)
    end.

(** ** The block *)

Definition computeTxRoot (txs : list Transaction) : BlockHash :=
  if len txs =? 0 then HashBytes []
  else BuildRoot ((fun tx => (EnvContentHash (Envelope_ tx), [])) <$> txs).

(** The transactions of the block and the counters. *)
Definition select_txs (c : Config) (maxBytes maxCount : Z) (exclusions : gset bytes) (candidates : list Transaction)
  (b : Builder) : list Transaction * Builder :=
  let append := appendTx exclusions maxBytes maxCount in
  let policyFloor := clamp (PolicyPriorityMinTxs c) maxCount in
  let p0Floor := clamp (P0PriorityMinTxs c) maxCount in
  let p := MkPick [] ∅ 0 in
  let p := if 0 <? policyFloor then (reserve append isPolicy policyFloor 0 candidates p).2 else p in
  let '(n, p) := if 0 <? p0Floor then reserve append isP0CriticalTx p0Floor 0 candidates p else (0, p) in
  let b := count_p0 n b in
  if FairShareEnabled c then
    let '((picks, rounds, starved), p) := appendFairShare append candidates maxCount (FairShareMaxPerProducer c) p in
    (p_txs p, count_shares picks rounds starved b)
  else (p_txs (fill append maxCount candidates p), b).

(** The mempool is visited twice, for the statistics and for the candidates; the
    exclusions may be nil, which is the empty set. *)
Definition BuildWithExclusions (stats_range select_range : map_range) (mp : Mempool) (store : MemStore)
  (height : Z) (parent : BlockHash) (proposer : ValidatorID) (now : Time) (exclusions : gset bytes) (b : Builder)
  : AppBlock * Builder :=
  let c := b_cfg b in
  let '(count, _, oldest) := StatsDetailed stats_range mp in
  let maxBytes := max_bytes c in
  let maxCount := max_count c count oldest now in
  let '(txs, b) := select_txs c maxBytes maxCount exclusions (Select select_range 0 maxBytes mp) b in
  let hint := match Root store (Latest store) with Some root => root | None => zero32 end in
  (NewAppBlock height parent (computeTxRoot txs) hint proposer now txs, b).

Definition Build (stats_range select_range : map_range) (mp : Mempool) (store : MemStore)
  (height : Z) (parent : BlockHash) (proposer : ValidatorID) (now : Time) (b : Builder) : AppBlock * Builder :=
  BuildWithExclusions stats_range select_range mp store height parent proposer now ∅ b.

(** ** The contract of [appendTx] *)

Section picking.
Context (exclusions : gset bytes) (maxBytes maxCount : Z).
#[local] Abbreviation append := (appendTx exclusions maxBytes maxCount).

Definition blocked (p : pick) (tx : Transaction) : Prop :=
  content_hash tx ∈ p_selected p \/ content_hash tx ∈ exclusions \/
  (0 < maxBytes /\ maxBytes < currentBytes p + len (Payload tx)).
Definition full (p : pick) : Prop := 0 < maxCount /\ maxCount <= len (p_txs p).

Lemma appendTx_true tx p p' : append tx p = (true, p') ->
  ~ blocked p tx /\ ~ full p /\
  p' = MkPick (p_txs p ++ [tx]) ({[content_hash tx]} ∪ p_selected p) (currentBytes p + len (Payload tx)).
Proof.
  unfold appendTx. case_bool_decide; [done|]. case_bool_decide; [done|].
  destruct (_ && _) eqn:H1; [done|]. destruct ((0 <? maxCount) && _) eqn:H2; [done|]. intros [= <-].
  apply andb_false_iff in H1, H2. unfold blocked, full. split_and!; [|intros [? ?]; destruct H2; go_bool; lia|done].
  intros [?|[?|[? ?]]]; [done|done|]. destruct H1; go_bool; lia.
Qed.

Lemma appendTx_false tx p p' : append tx p = (false, p') -> p' = p /\ (blocked p tx \/ full p).
Proof.
  unfold appendTx. case_bool_decide; [intros [= <-]; split; [done|left; by left]|].
  case_bool_decide; [intros [= <-]; split; [done|left; right; by left]|].
  destruct (_ && _) eqn:H1; [go_bool; intros [= <-]; split; [done|left; right; by right]|].
  destruct ((0 <? maxCount) && _) eqn:H2; [go_bool; intros [= <-]; split; [done|by right]|done].
Qed.

#[export] Instance appendTx_laws : PickerLaws append blocked full.
Proof.
  constructor.
  - apply appendTx_false.
  - intros tx p p' (H1 & H2 & ->)%appendTx_true. split_and!; [done..|]. left. cbn. set_solver.
  - intros tx tx' p p' (_ & _ & ->)%appendTx_true [H|[H|[H1 H2]]]; [left; cbn; set_solver|right; by left|].
    right; right. split; [done|]. cbn. pose proof (len_nonneg (Payload tx)). lia.
Qed.
End picking.

(** ** What a selection holds *)

Definition payload_bytes (l : list Transaction) : Z := foldr (fun tx n => len (Payload tx) + n) 0 l.

Lemma payload_bytes_app l k : payload_bytes (l ++ k) = payload_bytes l + payload_bytes k.
Proof. induction l as [|tx l IH]; [done|]. unfold payload_bytes in *. cbn [app foldr]. lia. Qed.

Lemma payload_bytes_nonneg l : 0 <= payload_bytes l.
Proof. induction l as [|tx l IH]; [done|]. pose proof (len_nonneg (Payload tx)). unfold payload_bytes in *. cbn [foldr]. lia. Qed.

#[export] Instance payload_bytes_perm : Proper ((≡ₚ) ==> (=)) payload_bytes.
Proof. intros l k H. unfold payload_bytes. induction H as [|x l k H IH|x y l|l1 l2 l3 H1 IH1 H2 IH2]; cbn [foldr]; [done|lia|lia|congruence]. Qed.

Lemma payload_bytes_submseteq l k : l ⊆+ k -> payload_bytes l <= payload_bytes k.
Proof.
  intros [r Hr]%submseteq_Permutation. rewrite Hr, payload_bytes_app. pose proof (payload_bytes_nonneg r). lia.
Qed.

Section selection.
Context (exclusions : gset bytes) (maxBytes maxCount : Z) (candidates : list Transaction).
Context (Hdistinct : NoDup (content_hash <$> candidates)).
Context (Hfits : 0 < maxBytes -> payload_bytes candidates <= maxBytes).
#[local] Abbreviation append := (appendTx exclusions maxBytes maxCount).
#[local] Abbreviation refused := (refused (blocked := blocked exclusions maxBytes) (full := full maxCount)).

Definition eligible : list Transaction := filter (fun tx => content_hash tx ∉ exclusions) candidates.

Record pick_inv (p : pick) : Prop := {
  pk_nodup : NoDup (p_txs p);
  pk_hashes h : h ∈ p_selected p <-> h ∈ content_hash <$> p_txs p;
  pk_bytes : currentBytes p = payload_bytes (p_txs p);
  pk_eligible tx : tx ∈ p_txs p -> tx ∈ eligible;
  pk_count : 0 < maxCount -> len (p_txs p) <= maxCount }.

Lemma candidates_nodup : NoDup candidates.
Proof. by apply (NoDup_fmap_1 content_hash). Qed.

Lemma hash_candidate tx tx' : tx ∈ candidates -> tx' ∈ candidates -> content_hash tx = content_hash tx' -> tx = tx'.
Proof.
  intros [i Hi]%list_elem_of_lookup [j Hj]%list_elem_of_lookup He.
  assert (i = j) as ->; [|congruence].
  apply (NoDup_lookup _ i j (content_hash tx) Hdistinct); rewrite list_lookup_fmap; [by rewrite Hi|rewrite Hj; cbn; by rewrite He].
Qed.

Lemma eligible_candidate tx : tx ∈ eligible -> tx ∈ candidates.
Proof. by intros [_ ?]%list_elem_of_filter. Qed.

Lemma append_inv tx p p' : tx ∈ candidates -> append tx p = (true, p') -> pick_inv p -> pick_inv p'.
Proof.
  intros Htx Ha [Hnd Hh Hb He Hc]. apply appendTx_true in Ha as (Hblk & Hfull & ->). unfold blocked, full in *.
  assert (Hnew : content_hash tx ∉ p_selected p) by tauto. rewrite Hh in Hnew.
  constructor; cbn.
  - apply NoDup_app. split_and!; [done| |apply NoDup_singleton]. intros x Hx ->%list_elem_of_singleton.
    apply Hnew. by apply list_elem_of_fmap_2.
  - intros h. rewrite fmap_app, elem_of_app, elem_of_union, Hh, elem_of_singleton. cbn. rewrite list_elem_of_singleton. tauto.
  - rewrite payload_bytes_app, Hb. cbn. lia.
  - intros x [Hx|Hx]%elem_of_app; [auto|]. apply list_elem_of_singleton in Hx as ->. apply list_elem_of_filter.
    split; [tauto|done].
  - intros Hm. specialize (Hc Hm). unfold len in *. rewrite length_app. cbn. lia.
Qed.

Lemma empty_pick_inv : pick_inv (MkPick [] ∅ 0).
Proof.
  constructor; cbn; [constructor|intros h|done|by intros ? ?%elem_of_nil|unfold len; cbn; lia].
  split; [set_solver|by intros ?%elem_of_nil].
Qed.

(** Every step of the selection appends candidates to what was selected. *)
Definition extends (p p' : pick) : Prop :=
  exists l, p_txs p' = p_txs p ++ l /\ (forall tx, tx ∈ l -> tx ∈ candidates) /\
            (pick_inv p -> pick_inv p') /\ (forall tx, refused p tx -> refused p' tx).

Lemma extends_refl p : extends p p.
Proof. exists []. rewrite app_nil_r. split_and!; [done|by intros ? ?%elem_of_nil|done..]. Qed.

Lemma extends_trans p p1 p2 : extends p p1 -> extends p1 p2 -> extends p p2.
Proof.
  intros (l & H1 & H2 & H3 & H4) (k & K1 & K2 & K3 & K4). exists (l ++ k). rewrite K1, H1, app_assoc.
  split_and!; [done| |auto|auto]. intros tx [?|?]%elem_of_app; auto.
Qed.

Lemma extends_refused p p' tx : extends p p' -> refused p tx -> refused p' tx.
Proof. intros (_ & _ & _ & _ & H). apply H. Qed.

Lemma extends_inv p p' : extends p p' -> pick_inv p -> pick_inv p'.
Proof. intros (_ & _ & _ & H & _). apply H. Qed.

Lemma extends_prefix p p' : extends p p' -> exists l, p_txs p' = p_txs p ++ l.
Proof. intros (l & H & _). by exists l. Qed.

Lemma append_extends tx p p' : tx ∈ candidates -> append tx p = (true, p') -> extends p p'.
Proof.
  intros Htx Ha. exists [tx]. pose proof Ha as (_ & Hf & Heq)%appendTx_true. split_and!.
  - by rewrite Heq.
  - by intros x ->%list_elem_of_singleton.
  - by eapply append_inv.
  - intros x [Hx|Hx]; [left|done]. by eapply (append_blocked append (full := full maxCount)).
Qed.

Lemma appends_extends l p p' : (forall tx, tx ∈ l -> tx ∈ candidates) -> appends append l p p' -> extends p p' /\ p_txs p' = p_txs p ++ l.
Proof.
  intros Hl H. induction H as [p|l tx p p1 p2 H IH Ha]; [split; [apply extends_refl|by rewrite app_nil_r]|].
  destruct IH as [IH1 IH2]; [intros x Hx; apply Hl; set_solver|]. split.
  - eapply extends_trans; [exact IH1|]. apply (append_extends tx); [apply Hl; set_solver|exact Ha].
  - apply appendTx_true in Ha as (_ & _ & ->). cbn. by rewrite IH2, app_assoc.
Qed.

Lemma refused_false tx p : refused p tx -> append tx p = (false, p).
Proof.
  intros H. destruct (append tx p) as [[] p'] eqn:Ha; [|by apply appendTx_false in Ha as [-> _]].
  apply appendTx_true in Ha as (H1 & H2 & _). by destruct H.
Qed.

Lemma reserve_spec want floor picked l p : (forall tx, tx ∈ l -> tx ∈ candidates) ->
  let '(n, p') := reserve append want floor picked l p in
  extends p p' /\
  exists k, p_txs p' = p_txs p ++ k /\ Forall (fun tx => want tx = true) k /\ n = picked + len k /\ (picked < floor -> n <= floor) /\
    (floor <= n \/ forall tx, tx ∈ l -> want tx = true -> refused p' tx).
Proof.
  revert picked p. induction l as [|tx l IH]; intros picked p Hl; cbn [reserve].
  { split; [apply extends_refl|]. exists []. rewrite app_nil_r. split_and!; [done|constructor|unfold len; cbn; lia|lia|].
    right. by intros tx ?%elem_of_nil. }
  assert (Hl' : forall x, x ∈ l -> x ∈ candidates) by (intros x Hx; apply Hl; by right).
  destruct (want tx) eqn:Hw; cbn [negb].
  - destruct (append tx p) as [[] p1] eqn:Ha.
    + pose proof (append_extends tx p p1 (Hl tx ltac:(by left)) Ha) as He.
      apply appendTx_true in Ha as (_ & _ & Hp1). destruct (Z.leb_spec floor (picked + 1)).
      * split; [done|]. exists [tx]. rewrite Hp1. split_and!; [done|by constructor|done|lia|by left].
      * specialize (IH (picked + 1) p1 Hl'). destruct (reserve _ _ _ _ _ p1) as [n p'].
        destruct IH as (He' & k & Hk & Hall & Hn & Hle & Hend). split; [by eapply extends_trans|]. exists (tx :: k).
        rewrite Hk, Hp1. cbn. rewrite <- app_assoc. split_and!; [done|by constructor|unfold len in *; cbn [length]; lia|lia|].
        destruct Hend as [Hend|Hend]; [by left|right]. intros x [->|Hx]%elem_of_cons Hwx; [|auto].
        eapply extends_refused; [exact He'|]. left; left. rewrite Hp1. cbn. set_solver.
    + pose proof Ha as [-> Hr]%appendTx_false. specialize (IH picked p Hl'). destruct (reserve _ _ _ _ _ p) as [n p'].
      destruct IH as (He' & k & Hk & Hall & Hn & Hle & Hend). split; [done|]. exists k. split_and!; [done..|].
      destruct Hend as [Hend|Hend]; [by left|right]. intros x [->|Hx]%elem_of_cons Hwx; [|auto].
      by eapply extends_refused.
  - specialize (IH picked p Hl'). destruct (reserve _ _ _ _ _ p) as [n p'].
    destruct IH as (He' & k & Hk & Hall & Hn & Hle & Hend). split; [done|]. exists k. split_and!; [done..|].
    destruct Hend as [Hend|Hend]; [by left|right]. intros x [->|Hx]%elem_of_cons Hwx; [congruence|auto].
Qed.

Lemma fill_spec l p : (forall tx, tx ∈ l -> tx ∈ candidates) ->
  extends p (fill append maxCount l p) /\ forall tx, tx ∈ l -> refused (fill append maxCount l p) tx.
Proof.
  revert p. induction l as [|tx l IH]; intros p Hl; cbn [fill]; [split; [apply extends_refl|by intros tx ?%elem_of_nil]|].
  assert (Hl' : forall x, x ∈ l -> x ∈ candidates) by (intros x Hx; apply Hl; by right).
  assert (Hstep : exists p1, (append tx p).2 = p1 /\ extends p p1 /\ refused p1 tx).
  { destruct (append tx p) as [[] p1] eqn:Ha; exists p1.
    - split_and!; [done|apply (append_extends tx); [apply Hl; by left|exact Ha]|].
      apply appendTx_true in Ha as (_ & _ & ->). left; left. cbn. set_solver.
    - pose proof Ha as [-> Hr]%appendTx_false. split_and!; [done|apply extends_refl|done]. }
  destruct (append tx p) as [ok p1']. cbn in Hstep. destruct Hstep as (p1 & -> & He & Hr).
  destruct ((0 <? maxCount) && (maxCount <=? len (p_txs p1))) eqn:Hf.
  - go_bool. split; [done|]. intros x _. right. by split.
  - destruct (IH p1 Hl') as [IH1 IH2]. split; [by eapply extends_trans|]. intros x [->|Hx]%elem_of_cons; [|auto].
    by eapply extends_refused.
Qed.

Lemma share_spec maxPerProducer p :
  let '(_, p') := appendFairShare append candidates maxCount maxPerProducer p in
  extends p p' /\ (forall tx, tx ∈ candidates -> refused p' tx) /\
  exists l, p_txs p' = p_txs p ++ l /\
    forall x y, len (of_producer x l) <= len (of_producer y l) + Z.of_nat (quota_of maxPerProducer) \/
                forall tx, tx ∈ candidates -> producer_key tx = y -> blocked exclusions maxBytes p' tx.
Proof.
  pose proof (appendFairShare_spec append (PL := appendTx_laws exclusions maxBytes maxCount) candidates maxCount maxPerProducer p) as H.
  cbv zeta in H. destruct (appendFairShare _ _ _ _ _) as [[[n r] st] p'].
  destruct H as (l & Hl & Hin & _ & Hend & Hfair). destruct (appends_extends l p p' Hin Hl) as [He Hp].
  split_and!; [done| |by exists l]. destruct Hend as [Hend|[Hc1 Hc2]]; [done|]. intros tx _. right. split; [done|].
  rewrite Hp. unfold len in *. rewrite length_app. lia.
Qed.

(** An eligible transaction is blocked only by being there: all candidates fit. *)
Lemma blocked_selected p tx : pick_inv p -> tx ∈ eligible -> blocked exclusions maxBytes p tx -> tx ∈ p_txs p.
Proof.
  intros Hp Htx Hb. pose proof Htx as [Hex Hc]%list_elem_of_filter. destruct Hb as [Hs|[Hs|[Hm Hs]]]; [|done|].
  - apply (pk_hashes _ Hp), list_elem_of_fmap in Hs as (tx' & Heq & Hin).
    rewrite (hash_candidate tx tx' Hc (eligible_candidate _ (pk_eligible _ Hp _ Hin)) Heq). done.
  - destruct (decide (tx ∈ p_txs p)) as [|Hn]; [done|exfalso].
    assert (Hsub : tx :: p_txs p ⊆+ candidates).
    { apply NoDup_submseteq; [constructor; [done|apply Hp]|]. intros x [->|Hx]%elem_of_cons; [done|].
      by apply eligible_candidate, Hp. }
    apply payload_bytes_submseteq in Hsub. specialize (Hfits Hm). rewrite (pk_bytes _ Hp) in Hs.
    unfold payload_bytes in *. cbn [foldr] in Hsub. lia.
Qed.

(** Nothing left to append means everything eligible is in, or the count is reached. *)
Lemma filled p : pick_inv p -> (forall tx, tx ∈ candidates -> refused p tx) ->
  (full maxCount p /\ len (p_txs p) = maxCount) \/ (forall tx, tx ∈ eligible -> tx ∈ p_txs p).
Proof.
  intros Hp Hr. destruct (refused_all (blocked := blocked exclusions maxBytes) (full := full maxCount) p candidates) as [Hb|Hf].
  - by apply Forall_forall.
  - right. intros tx Htx. apply blocked_selected; [done..|]. rewrite Forall_forall in Hb. by apply Hb, eligible_candidate.
  - left. split; [done|]. destruct Hf as [Hf1 Hf2]. pose proof (pk_count _ Hp Hf1). lia.
Qed.

Lemma filled_length p : pick_inv p -> (forall tx, tx ∈ candidates -> refused p tx) ->
  len (p_txs p) = if 0 <? maxCount then Z.min maxCount (len eligible) else len eligible.
Proof.
  intros Hp Hr.
  assert (Hle : len (p_txs p) <= len eligible).
  { unfold len. apply inj_le. apply submseteq_length, NoDup_submseteq; [apply Hp|]. intros tx. apply Hp. }
  destruct (filled p Hp Hr) as [[Hf Heq]|Hall].
  - destruct Hf as [Hf _]. rewrite (proj2 (Z.ltb_lt _ _) Hf). lia.
  - assert (Hge : len eligible <= len (p_txs p)).
    { unfold len. apply inj_le. apply submseteq_length, NoDup_submseteq; [|done].
      unfold eligible. apply NoDup_filter, candidates_nodup. }
    destruct (Z.ltb_spec 0 maxCount) as [Hm|]; [|lia]. pose proof (pk_count _ Hp Hm). lia.
Qed.

Definition policies (l : list Transaction) : Z := len (filter (fun tx => isPolicy tx = true) l).

Lemma policies_app l k : policies (l ++ k) = policies l + policies k.
Proof. unfold policies, len. rewrite filter_app, length_app. lia. Qed.

Lemma policies_nonneg l : 0 <= policies l.
Proof. unfold policies, len. lia. Qed.

Lemma policies_all l : Forall (fun tx => isPolicy tx = true) l -> policies l = len l.
Proof. intros H. unfold policies. by rewrite list_filter_all. Qed.

(** The floor loop keeps its promise: the floor, or every eligible policy. *)
Lemma policy_reserve floor : (0 < maxCount -> floor <= maxCount) -> 0 < floor ->
  let '(_, p) := reserve append isPolicy floor 0 candidates (MkPick [] ∅ 0) in
  Z.min floor (policies eligible) <= policies (p_txs p).
Proof.
  intros Hfloor Hpos. pose proof (reserve_spec isPolicy floor 0 candidates (MkPick [] ∅ 0) ltac:(done)) as H.
  destruct (reserve _ _ _ _ _ _) as [n p]. destruct H as (He & k & Hk & Hall & Hn & Hle & Hend).
  cbn in Hk. rewrite Hk, (policies_all k Hall). destruct Hend as [Hend|Hend]; [lia|].
  destruct (decide (floor <= n)) as [|Hlt]; [lia|].
  assert (Hp : pick_inv p) by (by eapply extends_inv, empty_pick_inv).
  assert (Hnf : ~ full maxCount p) by (intros [Hm1 Hm2]; specialize (Hfloor Hm1); rewrite Hk in Hm2; lia).
  assert (Hin : forall tx, tx ∈ filter (fun tx => isPolicy tx = true) eligible -> tx ∈ k).
  { intros tx [Hpol Htx]%list_elem_of_filter.
    destruct (Hend tx (eligible_candidate _ Htx) Hpol) as [Hb|Hf]; [|done].
    rewrite <- Hk. by apply blocked_selected. }
  unfold policies at 1. assert (len (filter (fun tx => isPolicy tx = true) eligible) <= len k); [|lia].
  unfold len. apply inj_le. apply submseteq_length, NoDup_submseteq; [|done].
  unfold eligible. apply NoDup_filter, NoDup_filter, candidates_nodup.
Qed.

(** What [select_txs] returns. [reserved] is what the two floors took. *)
Record selection (c : Config) (txs : list Transaction) : Prop := {
  sel_eligible : NoDup txs /\ forall tx, tx ∈ txs -> tx ∈ eligible;
  sel_length : len txs = if 0 <? maxCount then Z.min maxCount (len eligible) else len eligible;
  sel_policies : Z.min (clamp (PolicyPriorityMinTxs c) maxCount) (policies eligible) <= policies txs;
  sel_fair : FairShareEnabled c = true ->
    exists reserved shared, txs = reserved ++ shared /\ Forall (fun tx => isPolicy tx = true) reserved /\
      len reserved <= clamp (PolicyPriorityMinTxs c) maxCount + clamp (P0PriorityMinTxs c) maxCount /\
      forall x y, len (of_producer x shared) <= len (of_producer y shared) + Z.of_nat (quota_of (FairShareMaxPerProducer c)) \/
                  forall tx, tx ∈ eligible -> producer_key tx = y -> tx ∈ txs }.

Lemma clamp_spec floor : 0 <= clamp floor maxCount /\ (0 < maxCount -> clamp floor maxCount <= maxCount).
Proof.
  unfold clamp. destruct (Z.ltb_spec floor 0), (Z.ltb_spec 0 maxCount); cbn [andb];
    try (destruct (Z.ltb_spec maxCount 0)); try (destruct (Z.ltb_spec maxCount floor)); lia.
Qed.

Lemma isP0_policy tx : isP0CriticalTx tx = true -> isPolicy tx = true.
Proof. unfold isP0CriticalTx. by destruct (isPolicy tx). Qed.

(** The two floors, one after the other. *)
Lemma floors_spec c :
  let policyFloor := clamp (PolicyPriorityMinTxs c) maxCount in
  let p0Floor := clamp (P0PriorityMinTxs c) maxCount in
  let p := if 0 <? policyFloor then (reserve append isPolicy policyFloor 0 candidates (MkPick [] ∅ 0)).2 else MkPick [] ∅ 0 in
  let p1 := (if 0 <? p0Floor then reserve append isP0CriticalTx p0Floor 0 candidates p else (0, p)).2 in
  pick_inv p1 /\ Forall (fun tx => isPolicy tx = true) (p_txs p1) /\ len (p_txs p1) <= policyFloor + p0Floor /\
  Z.min policyFloor (policies eligible) <= policies (p_txs p1).
Proof.
  destruct (clamp_spec (PolicyPriorityMinTxs c)) as [Ha1 Ha2]. destruct (clamp_spec (P0PriorityMinTxs c)) as [Hb1 Hb2].
  cbv zeta. set (policyFloor := clamp _ _) in *. set (p0Floor := clamp (P0PriorityMinTxs c) _) in *.
  set (p := if 0 <? policyFloor then _ else _).
  assert (Hp : pick_inv p /\ Forall (fun tx => isPolicy tx = true) (p_txs p) /\ len (p_txs p) <= policyFloor /\
               Z.min policyFloor (policies eligible) <= policies (p_txs p)).
  { unfold p. destruct (Z.ltb_spec 0 policyFloor) as [H0|H0].
    - pose proof (policy_reserve policyFloor Ha2 H0) as Hpol.
      pose proof (reserve_spec isPolicy policyFloor 0 candidates (MkPick [] ∅ 0) ltac:(done)) as H.
      destruct (reserve _ _ _ _ _ _) as [n p']. destruct H as (He & k & Hk & Hall & Hn & Hle & _). cbn in *. subst k.
      split_and!; [by eapply extends_inv, empty_pick_inv|done|lia|done].
    - cbn. split_and!; [apply empty_pick_inv|constructor|unfold len; cbn; lia|].
      pose proof (policies_nonneg eligible). unfold policies at 2, len. cbn. lia. }
  destruct Hp as (Hp & Hall & Hlen & Hpol). destruct (Z.ltb_spec 0 p0Floor) as [H0|H0]; [|cbn [snd]; split_and!; [done|done|lia|done]].
  pose proof (reserve_spec isP0CriticalTx p0Floor 0 candidates p ltac:(done)) as H.
  clearbody p. destruct (reserve append isP0CriticalTx p0Floor 0 candidates p) as [n p'].
  destruct H as (He & k & Hk & Hall' & Hn & Hle & _). cbn [snd].
  assert (Hallk : Forall (fun tx => isPolicy tx = true) k) by (eapply Forall_impl; [exact Hall'|]; apply isP0_policy).
  rewrite Hk. split_and!; [by eapply extends_inv|by apply Forall_app| |].
  - unfold len in *. rewrite length_app. lia.
  - rewrite policies_app. pose proof (policies_nonneg k). lia.
Qed.

Lemma select_txs_spec c b : selection c (select_txs c maxBytes maxCount exclusions candidates b).1.
Proof.
  pose proof (floors_spec c) as H. cbv zeta in H. unfold select_txs. cbv zeta.
  set (p := if 0 <? clamp (PolicyPriorityMinTxs c) maxCount then _ else _) in *.
  destruct (if 0 <? clamp (P0PriorityMinTxs c) maxCount then _ else (0, p)) as [n p1]. cbn [snd] in H.
  destruct H as (Hp1 & Hall & Hlen & Hpol).
  assert (Hsel : forall p2, extends p1 p2 -> (forall tx, tx ∈ candidates -> refused p2 tx) ->
    (FairShareEnabled c = true -> exists l, p_txs p2 = p_txs p1 ++ l /\ forall x y,
       len (of_producer x l) <= len (of_producer y l) + Z.of_nat (quota_of (FairShareMaxPerProducer c)) \/
       forall tx, tx ∈ candidates -> producer_key tx = y -> blocked exclusions maxBytes p2 tx) -> selection c (p_txs p2)).
  { intros p2 He Hr Hfair. pose proof (extends_inv _ _ He Hp1) as Hp2. constructor.
    - split; [apply Hp2|]. intros tx. apply Hp2.
    - by apply filled_length.
    - destruct (extends_prefix _ _ He) as [l ->]. rewrite policies_app. pose proof (policies_nonneg l). lia.
    - intros Hen. destruct (Hfair Hen) as (l & Hl & Hxy). exists (p_txs p1), l. split_and!; [done..|].
      intros x y. destruct (Hxy x y) as [H|H]; [by left|right]. intros tx Htx Hy.
      apply blocked_selected; [done..|]. by apply H; [apply eligible_candidate|]. }
  destruct (FairShareEnabled c) eqn:Hen.
  - pose proof (share_spec (FairShareMaxPerProducer c) p1) as H.
    destruct (appendFairShare _ _ _ _ _) as [[[picks rounds] starved] p2]. destruct H as (He & Hr & Hl). cbn [fst].
    apply Hsel; [done..|]. intros _. exact Hl.
  - cbn [fst]. destruct (fill_spec candidates p1 ltac:(done)) as [He Hr]. by apply Hsel.
Qed.
End selection.

(** ** The block *)

Lemma computeTxRoot_eq l : computeTxRoot l = computeTxRootForPayload l.
Proof. rewrite computeTxRootForPayload_eq. unfold computeTxRoot, root_pairs. by destruct l. Qed.

Section build.
Context (range : map_range) (mp : Mempool) (maxBytes : Z) (Hrep : rep mp) (Hmade : Forall made (values mp)).

(** The candidates: what [Select] returns without a count. *)
Definition candidates_of : list Transaction := Select range 0 maxBytes mp.

Lemma candidates_spec : exists k, candidates_of = e_Tx <$> take k (queue (abs mp)) /\
  (0 < maxBytes -> bytes_held (take k (queue (abs mp))) <= maxBytes).
Proof.
  unfold candidates_of, Select. rewrite (range_queue range mp (proj1 Hrep)).
  destruct (take_fitting_spec 0 maxBytes 0 0 (queue (abs mp))) as (k & _ & Htx & _ & Hb & _).
  exists k. split; [done|]. intros H. specialize (Hb H). lia.
Qed.

Lemma made_queue : Forall made (queue (abs mp)).
Proof. by rewrite queue_perm. Qed.

Lemma made_hash l : Forall made l -> content_hash <$> (e_Tx <$> l) = e_Hash <$> l.
Proof. induction 1 as [|e l (tx & meta & ->) H IH]; [done|]. by rewrite !fmap_cons, IH. Qed.

Lemma made_bytes l : Forall made l -> payload_bytes (e_Tx <$> l) = bytes_held l.
Proof. induction 1 as [|e l (tx & meta & ->) H IH]; [done|]. rewrite fmap_cons. unfold payload_bytes in *. cbn [foldr bytes_held]. by rewrite IH. Qed.

Lemma candidates_distinct : NoDup (content_hash <$> candidates_of).
Proof.
  destruct candidates_spec as (k & -> & _). rewrite made_hash by (apply Forall_take, made_queue).
  eapply sublist_NoDup; [apply (queue_hashes mp (proj1 Hrep))|]. rewrite fmap_take. apply sublist_take.
Qed.

Lemma candidates_fit : 0 < maxBytes -> payload_bytes candidates_of <= maxBytes.
Proof.
  destruct candidates_spec as (k & -> & Hb). rewrite made_bytes by (apply Forall_take, made_queue). exact Hb.
Qed.

(** Some pending entry holds the transaction. *)
Definition pending (tx : Transaction) : Prop := exists e, e ∈ values mp /\ e_Tx e = tx.

Lemma candidates_pending tx : tx ∈ candidates_of -> pending tx.
Proof.
  destruct candidates_spec as (k & -> & _). intros (e & -> & He)%list_elem_of_fmap. exists e. split; [|done].
  rewrite <- (queue_perm mp). by eapply elem_of_sublist, sublist_take.
Qed.
End build.

(** Where the transactions of a block come from. *)
Lemma Build_txs r1 r2 mp store height parent proposer now exclusions b (Hrep : rep mp) (Hmade : Forall made (values mp)) :
  let blk := (BuildWithExclusions r1 r2 mp store height parent proposer now exclusions b).1 in
  rooted blk /\ forall tx, tx ∈ txs blk -> pending mp tx /\ content_hash tx ∉ exclusions.
Proof.
  unfold BuildWithExclusions. destruct (StatsDetailed r1 mp) as [[count total] oldest]. cbv zeta.
  set (maxBytes := max_bytes (b_cfg b)). set (maxCount := max_count _ _ _ _).
  pose proof (candidates_distinct r2 mp maxBytes Hrep Hmade) as Hd. pose proof (candidates_fit r2 mp maxBytes Hrep Hmade) as Hf.
  pose proof (select_txs_spec exclusions maxBytes maxCount _ Hd Hf (b_cfg b) b) as Hs. unfold candidates_of in *.
  destruct (select_txs _ _ _ _ _ _) as [l b']. cbn [fst] in *. destruct (sel_eligible _ _ _ _ _ Hs) as [_ Hin].
  rewrite computeTxRoot_eq. split; [apply NewAppBlock_rooted|].
  intros tx Htx. apply Hin in Htx. split; [eapply candidates_pending, eligible_candidate; eauto|].
  by apply list_elem_of_filter in Htx as [? _].
Qed.

(** ** Properties *)

(** C26. The block a leader builds: its header names the position it was asked for and the
    root of the latest state; its root is the root of its transactions, so that it
    survives the wire; and its transactions are pending in the mempool, distinct, not
    excluded, and within the byte limit. *)
Theorem Build_sound (r1 r2 : map_range) (mp : Mempool) (store : MemStore) (height : Z) (parent : BlockHash)
    (proposer : ValidatorID) (now : Time) (exclusions : gset bytes) (b : Builder)
    (Hrep : rep mp) (Hmade : Forall made (values mp)) :
  let blk := (BuildWithExclusions r1 r2 mp store height parent proposer now exclusions b).1 in
  Block.height blk = height /\ parentHash blk = parent /\ proposerID blk = proposer /\ timestamp blk = now /\
  (forall root, Root store (Latest store) = Some root -> stateRootHint blk = root) /\
  rooted blk /\ NoDup (contents blk) /\
  (forall tx, tx ∈ txs blk -> pending mp tx /\ content_hash tx ∉ exclusions) /\
  (0 < max_bytes (b_cfg b) -> payload_bytes (txs blk) <= max_bytes (b_cfg b)).
Proof.
  pose proof (Build_txs r1 r2 mp store height parent proposer now exclusions b Hrep Hmade) as Ht.
  unfold BuildWithExclusions in *. destruct (StatsDetailed r1 mp) as [[count total] oldest]. cbv zeta in *.
  set (maxBytes := max_bytes (b_cfg b)) in *. set (maxCount := max_count _ _ _ _) in *.
  pose proof (candidates_distinct r2 mp maxBytes Hrep Hmade) as Hd. pose proof (candidates_fit r2 mp maxBytes Hrep Hmade) as Hf.
  pose proof (select_txs_spec exclusions maxBytes maxCount _ Hd Hf (b_cfg b) b) as Hs. unfold candidates_of in *.
  destruct (select_txs _ _ _ _ _ _) as [l b']. cbn [fst] in *. destruct (sel_eligible _ _ _ _ _ Hs) as [Hnd Hin].
  split_and!; [done..| |apply Ht| |apply Ht|].
  - by intros root ->.
  - unfold contents. cbn [txs NewAppBlock with_hash]. change (NoDup (content_hash <$> l)).
    apply NoDup_fmap_2_strong; [|done]. intros x y Hx Hy. apply (hash_candidate _ Hd); eapply eligible_candidate; eauto.
  - intros Hm. specialize (Hf Hm). cbn [txs NewAppBlock with_hash].
    assert (Hsub : l ⊆+ Select r2 0 maxBytes mp).
    { apply NoDup_submseteq; [done|]. intros tx Htx. by eapply eligible_candidate, Hin. }
    apply payload_bytes_submseteq in Hsub. lia.
Qed.

(** A block is as full as its limits allow: it takes every candidate that is not
    excluded, or as many as the count admits, whether or not producers share it; and
    policies get the places reserved for them. *)
Theorem Build_fills (r1 r2 : map_range) (mp : Mempool) (store : MemStore) (height : Z) (parent : BlockHash)
    (proposer : ValidatorID) (now : Time) (exclusions : gset bytes) (b : Builder)
    (Hrep : rep mp) (Hmade : Forall made (values mp)) :
  let blk := (BuildWithExclusions r1 r2 mp store height parent proposer now exclusions b).1 in
  let '(count, _, oldest) := StatsDetailed r1 mp in
  let maxCount := max_count (b_cfg b) count oldest now in
  let offered := eligible exclusions (Select r2 0 (max_bytes (b_cfg b)) mp) in
  len (txs blk) = (if 0 <? maxCount then Z.min maxCount (len offered) else len offered) /\
  Z.min (clamp (PolicyPriorityMinTxs (b_cfg b)) maxCount) (policies offered) <= policies (txs blk).
Proof.
  unfold BuildWithExclusions. destruct (StatsDetailed r1 mp) as [[count total] oldest]. cbv zeta.
  pose proof (candidates_distinct r2 mp (max_bytes (b_cfg b)) Hrep Hmade) as Hd.
  pose proof (candidates_fit r2 mp (max_bytes (b_cfg b)) Hrep Hmade) as Hf.
  pose proof (select_txs_spec exclusions (max_bytes (b_cfg b)) (max_count (b_cfg b) count oldest now) _ Hd Hf (b_cfg b) b) as Hs.
  unfold candidates_of in *. destruct (select_txs _ _ _ _ _ _) as [l b']. cbn [fst] in *.
  cbn [txs NewAppBlock with_hash]. split; [apply (sel_length _ _ _ _ _ Hs)|apply (sel_policies _ _ _ _ _ Hs)].
Qed.

(** With fair shares, besides the policies the floors took, no producer has a whole
    quota more transactions in the block than another one that was left with
    something to offer. *)
Theorem Build_fair (r1 r2 : map_range) (mp : Mempool) (store : MemStore) (height : Z) (parent : BlockHash)
    (proposer : ValidatorID) (now : Time) (exclusions : gset bytes) (b : Builder)
    (Hrep : rep mp) (Hmade : Forall made (values mp)) (Hfair : FairShareEnabled (b_cfg b) = true) :
  let blk := (BuildWithExclusions r1 r2 mp store height parent proposer now exclusions b).1 in
  exists reserved shared, txs blk = reserved ++ shared /\ Forall (fun tx => isPolicy tx = true) reserved /\
    (PolicyPriorityMinTxs (b_cfg b) <= 0 -> P0PriorityMinTxs (b_cfg b) <= 0 -> reserved = []) /\
    forall x y, len (of_producer x shared) <= len (of_producer y shared) + Z.of_nat (quota_of (FairShareMaxPerProducer (b_cfg b))) \/
      forall tx, tx ∈ eligible exclusions (Select r2 0 (max_bytes (b_cfg b)) mp) -> producer_key tx = y -> tx ∈ txs blk.
Proof.
  unfold BuildWithExclusions. destruct (StatsDetailed r1 mp) as [[count total] oldest]. cbv zeta.
  pose proof (candidates_distinct r2 mp (max_bytes (b_cfg b)) Hrep Hmade) as Hd.
  pose proof (candidates_fit r2 mp (max_bytes (b_cfg b)) Hrep Hmade) as Hf. set (maxCount := max_count _ _ _ _).
  pose proof (select_txs_spec exclusions (max_bytes (b_cfg b)) maxCount _ Hd Hf (b_cfg b) b) as Hs.
  unfold candidates_of in *. destruct (select_txs _ _ _ _ _ _) as [l b']. cbn [fst txs NewAppBlock with_hash] in *.
  destruct (sel_fair _ _ _ _ _ Hs Hfair) as (reserved & shared & Hl & Hall & Hlen & Hxy).
  exists reserved, shared. split_and!; [done..| |done]. intros H1 H2.
  assert (Hc : forall f, f <= 0 -> clamp f maxCount <= 0).
  { intros f Hle. unfold clamp. destruct (Z.ltb_spec f 0), (Z.ltb_spec 0 maxCount); cbn [andb];
      try (destruct (Z.ltb_spec maxCount 0)); try (destruct (Z.ltb_spec maxCount f)); lia. }
  pose proof (Hc _ H1). pose proof (Hc _ H2). destruct reserved; [done|]. unfold len in Hlen. cbn in Hlen. lia.
Qed.

(** ** Concrete blocks *)

Definition quoted (s : string) : bytes := Json.quoted s.
Definition block_p0_rule : bytes := quoted "{'params': {'action': ' Block '}}".

Example critical_rules :
  (isP0CriticalTx ∘ policy_tx x07 <$> [block_p0_rule; quoted "{'action':'allow'}"; quoted "{'control_action':'FREEZE'}"; str "drop"; []])
    = [true; false; true; false; false].
Proof. vm_compute. reflexivity. Qed.

Definition pool_limits : Mempool.Config := Mempool.MkConfig 100 1000 0 0 0 (900 * Second) (300 * Second) 50.
Definition from (producer : string) (nonce : byte) (data : bytes) : Transaction :=
  AnEvent (MkEventTx 1700000000 data
    (MkEnvelope (str producer) (replicate 16 nonce) (ContentHash data) (str "Ed25519") (replicate 32 x02) demo_signature)).
Definition busy_1 : Transaction := from "busy" x01 (str "busy-1").
Definition busy_2 : Transaction := from "busy" x02 (str "busy-2").
Definition busy_3 : Transaction := from "busy" x03 (str "busy-3").
Definition quiet_1 : Transaction := from "quiet" x04 (str "q").
Definition a_rule : Transaction := policy_tx x05 block_p0_rule.

Definition pool_call (severity : Z) (tx : Transaction) : mp_call :=
  CAdd in_key_order (Some tx) (demo_meta severity) MempoolRuns.demo_now.
Definition pool_calls : list mp_call :=
  [pool_call 9 busy_1; pool_call 8 busy_2; pool_call 7 busy_3; pool_call 2 quiet_1; pool_call 1 a_rule].
Definition demo_pool : Mempool := (run_all (Ed := demo_ed25519) pool_calls (New pool_limits)).2.

Lemma pool_calls_ok : Forall call_ok pool_calls.
Proof. repeat (constructor; [done|]). constructor. Qed.
Lemma demo_pool_rep : rep demo_pool.
Proof. apply run_all_rep, pool_calls_ok. Qed.
Lemma demo_pool_made : Forall made (values demo_pool).
Proof. apply run_all_made, pool_calls_ok. Qed.

(** Three transactions per block, one of them reserved for policies. *)
Definition demo_config (floor : Z) (fair : bool) (maxBytes : Z) : Config :=
  MkConfig 3 maxBytes 0 0 Second floor 0 100 (f_div (f_of_Z 8) (f_of_Z 10)) 3600 10 10 fair 1.
Definition demo_build (floor : Z) (fair : bool) (maxBytes : Z) (exclusions : gset bytes) : AppBlock * Builder :=
  BuildWithExclusions in_key_order in_key_order demo_pool NewMemStore 7 zero32 (replicate 32 x09)
    MempoolRuns.demo_now exclusions (NewBuilder (demo_config floor fair maxBytes)).

(** Priority order takes the busy producer three times; shares let the quiet one in;
    a floor puts the policy first. *)
Example demo_builds :
  txs (demo_build 0 false 0 ∅).1 = [busy_1; busy_2; busy_3] /\
  txs (demo_build 0 true 0 ∅).1 = [busy_1; quiet_1; a_rule] /\
  txs (demo_build 1 false 0 ∅).1 = [a_rule; busy_1; busy_2] /\
  txs (demo_build 1 true 0 {[content_hash busy_1]}).1 = [a_rule; busy_2; quiet_1].
Proof. split_and!; vm_compute; reflexivity. Qed.

(** The candidates are cut at the byte limit before the exclusions are looked at, so
    excluded transactions at the front keep everything else out: nothing is built
    although [quiet_1] is pending, not excluded, and fits. *)
Theorem excluded_prefix_starves :
  let c := content_hash <$> [busy_1; busy_2; busy_3] in
  txs (demo_build 0 true 18 (list_to_set c)).1 = [] /\
  pending demo_pool quiet_1 /\ content_hash quiet_1 ∉ (list_to_set c : gset bytes) /\ len (Payload quiet_1) <= 18.
Proof.
  split_and!; [vm_compute; reflexivity| | |vm_compute; discriminate].
  - exists (new_entry quiet_1 (demo_meta 2)). split; [|done]. apply elem_of_values. exists (hex (content_hash quiet_1)).
    vm_compute. reflexivity.
  - apply (bool_decide_eq_false_1 (content_hash quiet_1 ∈ _)). vm_compute. reflexivity.
Qed.

(** Once a floor has taken a place, the shares never count down to zero, and the
    producers left without any are not counted as starved. *)
Example starved_uncounted :
  fairShareStarvedTotal (demo_build 0 true 0 ∅).2 = 0 /\
  fairShareStarvedTotal (BuildWithExclusions in_key_order in_key_order demo_pool NewMemStore 7 zero32 (replicate 32 x09)
    MempoolRuns.demo_now ∅ (NewBuilder (MkConfig 1 0 0 0 Second 0 0 100 (f_of_Z 1) 3600 10 10 true 1))).2 = 2 /\
  fairShareStarvedTotal (BuildWithExclusions in_key_order in_key_order demo_pool NewMemStore 7 zero32 (replicate 32 x09)
    MempoolRuns.demo_now ∅ (NewBuilder (MkConfig 2 0 0 0 Second 1 0 100 (f_of_Z 1) 3600 10 10 true 1))).2 = 0.
Proof. split_and!; vm_compute; reflexivity. Qed.

Lemma Build_sound_witness :
  let blk := (demo_build 1 true 20 {[content_hash busy_1]}).1 in
  txs blk = [busy_2; quiet_1; busy_3] /\ NoDup (contents blk) /\ payload_bytes (txs blk) <= 20.
Proof.
  destruct (Build_sound in_key_order in_key_order demo_pool NewMemStore 7 zero32 (replicate 32 x09) MempoolRuns.demo_now
    {[content_hash busy_1]} (NewBuilder (demo_config 1 true 20)) demo_pool_rep demo_pool_made)
    as (_ & _ & _ & _ & _ & _ & Hd & _ & Hb).
  split; [vm_compute; reflexivity|]. split; [exact Hd|exact (Hb eq_refl)].
Defined.

Lemma Build_fills_witness :
  len (txs (demo_build 1 true 0 ∅).1) = 3 /\ 1 <= policies (txs (demo_build 1 true 0 ∅).1).
Proof.
  pose proof (Build_fills in_key_order in_key_order demo_pool NewMemStore 7 zero32 (replicate 32 x09) MempoolRuns.demo_now
    ∅ (NewBuilder (demo_config 1 true 0)) demo_pool_rep demo_pool_made) as H.
  vm_compute in H. vm_compute. exact H.
Defined.

Lemma Build_fair_witness :
  exists reserved shared, txs (demo_build 1 true 0 ∅).1 = reserved ++ shared /\
    forall x y, len (of_producer x shared) <= len (of_producer y shared) + 1 \/
      forall tx, tx ∈ eligible ∅ (Select in_key_order 0 0 demo_pool) -> producer_key tx = y -> tx ∈ txs (demo_build 1 true 0 ∅).1.
Proof.
  destruct (Build_fair in_key_order in_key_order demo_pool NewMemStore 7 zero32 (replicate 32 x09) MempoolRuns.demo_now
    ∅ (NewBuilder (demo_config 1 true 0)) demo_pool_rep demo_pool_made eq_refl) as (reserved & shared & H1 & _ & _ & H2).
  exists reserved, shared. split; [exact H1|exact H2].
Defined.
