(* ===== verification/Ingest.v ===== *)
(** backend/pkg/ingest/kafka, schema.go and verifier.go, and the normalisation of
    utils/timestamp_normalize.go: the messages of the AI service, their checks and the
    transactions they become. *)
From S2P Require Import Prelude Bytes Sha256 GoTime GoFloat GoStrings GoJson Codec Crypto.
Import Codec Model Json.

(** ** Messages *)

(** The structs generated from the .proto files, as far as they are read. *)
Record pb_AnomalyEvent := MkPbAnomaly {
  pa_Id : bytes; pa_Type : bytes; pa_Source : bytes; pa_Severity : Z; pa_Confidence : float64; pa_Ts : Z; pa_Payload : bytes;
  pa_ModelVersion : bytes; pa_ProducerId : bytes; pa_Nonce : bytes; pa_Signature : bytes; pa_Pubkey : bytes; pa_Alg : bytes;
  pa_ContentHash : bytes }.
Record pb_CustodyEntry := MkPbCustody { pc_RefHash : bytes; pc_ActorId : bytes; pc_Ts : Z; pc_Signature : bytes }.
Record pb_EvidenceEvent := MkPbEvidence {
  pe_Id : bytes; pe_EvidenceType : bytes; pe_Refs : list bytes; pe_ProofBlob : bytes; pe_Coc : list pb_CustodyEntry; pe_Ts : Z;
  pe_ProducerId : bytes; pe_Nonce : bytes; pe_Signature : bytes; pe_Pubkey : bytes; pe_Alg : bytes; pe_ContentHash : bytes }.
Record pb_PolicyEvent := MkPbPolicy {
  pp_Id : bytes; pp_Action : bytes; pp_Rule : bytes; pp_Params : bytes; pp_Ts : Z; pp_ProducerId : bytes; pp_Nonce : bytes;
  pp_Signature : bytes; pp_Pubkey : bytes; pp_Alg : bytes; pp_ContentHash : bytes }.

(** [proto.Unmarshal] into each of them. *)
Class Protobuf := {
  Unmarshal_AnomalyEvent : bytes -> option pb_AnomalyEvent;
  Unmarshal_EvidenceEvent : bytes -> option pb_EvidenceEvent;
  Unmarshal_PolicyEvent : bytes -> option pb_PolicyEvent }.

Definition MaxMessageSize : Z := 1024 * 1024.
Definition MaxPayloadSize : Z := 512 * 1024.
Definition MaxProofSize : Z := 256 * 1024.
Definition MaxIDLength : Z := 128.
Definition MaxStringLength : Z := 256.
Definition MaxRefsCount : Z := 1000.
Definition MaxCoCEntries : Z := 100.

(** What signs a message, shared by the three kinds. *)
Record Signed := MkSigned {
  s_ProducerID : bytes; s_Nonce : bytes; s_Signature : bytes; s_PubKey : bytes; s_Alg : bytes; s_ContentHash : bytes }.

Record AnomalyMsg := MkAnomaly {
  am_ID : bytes; am_Type : bytes; am_Source : bytes; am_Severity : Z; am_Confidence : float64; am_TS : Z; am_Payload : bytes;
  am_ModelVersion : bytes; am_Signed : Signed }.
Record EvidenceMsg := MkEvidence {
  em_ID : bytes; em_EvidenceType : bytes; em_Refs : list bytes; em_ProofBlob : bytes; em_TS : Z; em_Signed : Signed;
  em_CoC : list CoCEntry }.
Record PolicyMsg := MkPolicy {
  pm_ID : bytes; pm_Action : bytes; pm_Rule : bytes; pm_Params : bytes; pm_TS : Z; pm_Signed : Signed }.

Inductive field :=
| FID | FType | FSource | FSeverity | FConfidence | FTS | FPayload | FModelVersion | FProducerID | FNonce | FSignature | FPubKey | FAlg
| FRefs | FProofBlob | FCoC | FAction | FRule | FParams.

#[export] Instance field_eq_dec : EqDecision field.
Proof. solve_decision. Defined.

Inductive verify_error :=
| ErrTooLarge | ErrUnmarshal | ErrRef | ErrField (f : field) | ErrTimestampSkew | ErrSize | ErrHashMismatch | ErrSignBytes | ErrSignature
| ErrProducerMismatch | ErrMetadata | ErrSeverityMismatch | ErrConfidenceNaN | ErrConfidenceMismatch | ErrNotAllowlisted | ErrTraceContract.
#[export] Instance verify_error_eq_dec : EqDecision verify_error.
Proof. solve_decision. Defined.

(** [if b { return err }]. *)
Definition reject_if (b : bool) (e : verify_error) : result verify_error unit := if b then Err e else Ok tt.

(** *** Decoding *)

(** [copy] into a [\[32\]byte] that stays zero unless the length is right. *)
Definition hash_field (b : bytes) : bytes := if len b =? 32 then b else zero32.

Section decoding.
Context {PB : Protobuf}.

Definition DecodeAnomalyMsg (data : bytes) : result verify_error AnomalyMsg :=
  _ ← reject_if (MaxMessageSize <? len data) ErrTooLarge;
  match Unmarshal_AnomalyEvent data with
  | None => Err ErrUnmarshal
  | Some p =>
      Ok (MkAnomaly (pa_Id p) (pa_Type p) (pa_Source p) (pa_Severity p mod 256) (pa_Confidence p) (pa_Ts p) (pa_Payload p) (pa_ModelVersion p)
           (MkSigned (pa_ProducerId p) (pa_Nonce p) (pa_Signature p) (pa_Pubkey p) (pa_Alg p) (hash_field (pa_ContentHash p))))
  end.

Definition DecodeEvidenceMsg (data : bytes) : result verify_error EvidenceMsg :=
  _ ← reject_if (MaxMessageSize <? len data) ErrTooLarge;
  match Unmarshal_EvidenceEvent data with
  | None => Err ErrUnmarshal
  | Some p =>
      _ ← reject_if (existsb (fun r => negb (len r =? 32)) (pe_Refs p)) ErrRef;
      Ok (MkEvidence (pe_Id p) (pe_EvidenceType p) (pe_Refs p) (pe_ProofBlob p) (pe_Ts p)
           (MkSigned (pe_ProducerId p) (pe_Nonce p) (pe_Signature p) (pe_Pubkey p) (pe_Alg p) (hash_field (pe_ContentHash p)))
           ((fun e => MkCoC (hash_field (pc_RefHash e)) (pc_ActorId e) (pc_Ts e) (pc_Signature e)) <$> pe_Coc p))
  end.

Definition DecodePolicyMsg (data : bytes) : result verify_error PolicyMsg :=
  _ ← reject_if (MaxMessageSize <? len data) ErrTooLarge;
  match Unmarshal_PolicyEvent data with
  | None => Err ErrUnmarshal
  | Some p =>
      Ok (MkPolicy (pp_Id p) (pp_Action p) (pp_Rule p) (pp_Params p) (pp_Ts p)
           (MkSigned (pp_ProducerId p) (pp_Nonce p) (pp_Signature p) (pp_Pubkey p) (pp_Alg p) (hash_field (pp_ContentHash p))))
  end.
End decoding.

(** *** Validation *)

Definition bad_length (lo hi : Z) (b : bytes) : bool := (len b <? lo) || (hi <? len b).

(** The last checks of the three validations, except for the chain of custody. *)
Definition validate_signed (s : Signed) : result verify_error unit :=
  _ ← reject_if (negb (len (s_ProducerID s) =? 32)) (ErrField FProducerID);
  _ ← reject_if (negb (len (s_Nonce s) =? 16)) (ErrField FNonce);
  _ ← reject_if (negb (len (s_Signature s) =? 64)) (ErrField FSignature);
  _ ← reject_if (negb (len (s_PubKey s) =? 32)) (ErrField FPubKey);
  reject_if (negb (bool_decide (s_Alg s = str "Ed25519"))) (ErrField FAlg).

Definition ValidateAnomalyMsg (m : AnomalyMsg) : result verify_error unit :=
  _ ← reject_if (bad_length 1 MaxIDLength (am_ID m)) (ErrField FID);
  _ ← reject_if (bad_length 1 MaxStringLength (am_Type m)) (ErrField FType);
  _ ← reject_if (bad_length 1 MaxStringLength (am_Source m)) (ErrField FSource);
  _ ← reject_if ((am_Severity m =? 0) || (10 <? am_Severity m)) (ErrField FSeverity);
  _ ← reject_if (f_ltb (am_Confidence m) (f_of_Z 0) || f_ltb (f_of_Z 1) (am_Confidence m)) (ErrField FConfidence);
  _ ← reject_if (am_TS m =? 0) (ErrField FTS);
  _ ← reject_if (bad_length 1 MaxPayloadSize (am_Payload m)) (ErrField FPayload);
  _ ← reject_if (bad_length 1 MaxStringLength (am_ModelVersion m)) (ErrField FModelVersion);
  validate_signed (am_Signed m).

Definition custody_entry_bad (e : CoCEntry) : bool := negb (len (ActorID e) =? 32) || negb (len (CoCSignature e) =? 64).

Definition ValidateEvidenceMsg (m : EvidenceMsg) : result verify_error unit :=
  _ ← reject_if (bad_length 1 MaxIDLength (em_ID m)) (ErrField FID);
  _ ← reject_if (bad_length 1 MaxStringLength (em_EvidenceType m)) (ErrField FType);
  _ ← reject_if (MaxRefsCount <? len (em_Refs m)) (ErrField FRefs);
  _ ← reject_if (MaxProofSize <? len (em_ProofBlob m)) (ErrField FProofBlob);
  _ ← reject_if (em_TS m =? 0) (ErrField FTS);
  _ ← validate_signed (em_Signed m);
  _ ← reject_if (MaxCoCEntries <? len (em_CoC m)) (ErrField FCoC);
  reject_if (existsb custody_entry_bad (em_CoC m)) (ErrField FCoC).

Definition ValidatePolicyMsg (m : PolicyMsg) : result verify_error unit :=
  _ ← reject_if (bad_length 1 MaxIDLength (pm_ID m)) (ErrField FID);
  _ ← reject_if (bad_length 1 MaxStringLength (pm_Action m)) (ErrField FAction);
  _ ← reject_if (bad_length 1 MaxStringLength (pm_Rule m)) (ErrField FRule);
  _ ← reject_if (MaxPayloadSize <? len (pm_Params m)) (ErrField FParams);
  _ ← reject_if (pm_TS m =? 0) (ErrField FTS);
  validate_signed (pm_Signed m).

(** ** Verification *)

Definition domainAnomaly : bytes := str "ai.anomaly.v1".
Definition domainEvidence : bytes := str "ai.evidence.v1".
Definition domainPolicy : bytes := str "ai.policy.v1".

Record VerifierConfig := MkVerifierConfig {
  MaxTimestampSkew : Z; PolicyPubKeyAllowlist : gset bytes; PolicyRequireTrace : bool; PolicyRequireQCRef : bool;
  PolicyTraceFutureSkew : Z }.

(** Without a configured allow list. *)
Definition DefaultVerifierConfig : VerifierConfig := MkVerifierConfig (5 * Minute) ∅ false false (5 * Minute).

Definition skew_exceeded (c : VerifierConfig) (now : Time) (ts : Z) : bool :=
  let skewSeconds := f_to_int64 (Seconds (MaxTimestampSkew c)) in
  (i64 (Unix now + skewSeconds) <? ts) || (ts <? i64 (Unix now - skewSeconds)).

(** The bytes an AI producer signs for anomalies and evidence; those for policies are
    [BuildSignBytes]. *)
Definition ai_sign_bytes (domain : bytes) (ts : Z) (s : Signed) : bytes :=
  domain ++ be_put 8 (u64 ts) ++ be_put 2 (len (s_ProducerID s) mod 2 ^ 16) ++ s_ProducerID s ++ s_Nonce s ++ s_ContentHash s.

Definition envelope_of (s : Signed) : Envelope :=
  MkEnvelope (s_ProducerID s) (s_Nonce s) (s_ContentHash s) (s_Alg s) (s_PubKey s) (s_Signature s).

(** [math.Mod(x, 1)] of a number between 0 and 10: what is left of its integer part. *)
Definition fraction (x : float64) : float64 := f_sub x (f_of_Z (f_to_int64 x)).

Definition extractPriorityMetadata (payload : bytes) : result verify_error (Z * float64) :=
  match Unmarshal_floats [str "severity"; str "confidence"] payload with
  | None => Err ErrMetadata
  | Some meta =>
      match meta !! str "severity", meta !! str "confidence" with
      | Some sev, Some conf =>
          _ ← reject_if (is_nan sev) ErrMetadata;
          _ ← reject_if (f_ltb sev (f_of_Z 0) || f_ltb (f_of_Z 10) sev) ErrMetadata;
          _ ← reject_if (negb (f_eqb (fraction sev) (f_of_Z 0))) ErrMetadata;
          _ ← reject_if (is_nan conf) ErrMetadata;
          _ ← reject_if (f_ltb conf (f_of_Z 0) || f_ltb (f_of_Z 1) conf) ErrMetadata;
          Ok (f_to_int64 sev mod 256, conf)
      | _, _ => Err ErrMetadata
      end
  end.

(** 1e-6. *)
Definition epsilon : float64 := float_of_decimal false 1 (-6).

Section verification.
Context {ED : Ed25519}.

Definition VerifyAnomalyMsg (c : VerifierConfig) (now : Time) (m : AnomalyMsg) : result verify_error EventTx :=
  let s := am_Signed m in
  _ ← ValidateAnomalyMsg m;
  _ ← reject_if (skew_exceeded c now (am_TS m)) ErrTimestampSkew;
  _ ← reject_if (MaxPayloadSize <? len (am_Payload m)) ErrSize;
  _ ← reject_if (negb (bool_decide (s_ContentHash s = sha256 (am_Payload m)))) ErrHashMismatch;
  _ ← reject_if (negb (ed_verify (s_PubKey s) (ai_sign_bytes domainAnomaly (am_TS m) s) (s_Signature s))) ErrSignature;
  _ ← reject_if (negb (bool_decide (s_ProducerID s = s_PubKey s))) ErrProducerMismatch;
  meta ← extractPriorityMetadata (am_Payload m);
  let '(severity, confidence) := (meta : Z * float64) in
  _ ← reject_if (negb (severity =? am_Severity m)) ErrSeverityMismatch;
  _ ← reject_if (is_nan confidence || is_nan (am_Confidence m)) ErrConfidenceNaN;
  _ ← reject_if (f_ltb epsilon (SFabs (f_sub confidence (am_Confidence m)))) ErrConfidenceMismatch;
  Ok (MkEventTx (am_TS m) (am_Payload m) (envelope_of s)).

Definition VerifyEvidenceMsg (c : VerifierConfig) (now : Time) (m : EvidenceMsg) : result verify_error EvidenceTx :=
  let s := em_Signed m in
  _ ← ValidateEvidenceMsg m;
  _ ← reject_if (skew_exceeded c now (em_TS m)) ErrTimestampSkew;
  _ ← reject_if (MaxProofSize <? len (em_ProofBlob m)) ErrSize;
  _ ← reject_if (negb (bool_decide (s_ContentHash s = sha256 (em_ProofBlob m)))) ErrHashMismatch;
  _ ← reject_if (negb (ed_verify (s_PubKey s) (ai_sign_bytes domainEvidence (em_TS m) s) (s_Signature s))) ErrSignature;
  _ ← reject_if (negb (bool_decide (s_ProducerID s = s_PubKey s))) ErrProducerMismatch;
  Ok (MkEvidenceTx (em_TS m) (em_ProofBlob m) (envelope_of s) (em_CoC m)).
End verification.

(** *** The trace contract of policies *)

Definition epochMsYear2000 : Z := 946684800000.
Definition epochMsYear2100 : Z := 4102444800000.

Definition in_century (n : Z) : bool := negb ((n <? epochMsYear2000) || (epochMsYear2100 <? n)).

(** [NormalizeUnixMillis]: milliseconds from seconds, milliseconds, microseconds or
    nanoseconds, told apart by their size; [None] when not valid. *)
Definition normalizeStrictEpochMillis (ts : Z) : option Z :=
  if ts <=? 0 then None
  else if ts <? epochMsYear2000 then
    if Z.quot MaxInt64 1000 <? ts then None else if in_century (ts * 1000) then Some (ts * 1000) else None
  else if ts <=? epochMsYear2100 then Some ts
  else if ts <=? epochMsYear2100 * 10000 then
    if in_century (Z.quot ts 1000) then Some (Z.quot ts 1000) else None
  else if in_century (Z.quot ts 1000000) then Some (Z.quot ts 1000000) else None.
Definition NormalizeUnixMillis : Z -> option Z := normalizeStrictEpochMillis.

(** What the contract reads, from the outer object first. *)
Record trace_fields := MkTrace {
  t_qcReference : bytes; t_traceID : bytes; t_traceIDAlt : bytes; t_aiEventTSMs : Z; t_traceTSMs : Z }.

Definition extractNum (m : gmap bytes json) (key : bytes) : Z :=
  match get_float m key with Some x => f_to_int64 x | None => 0 end.

(** The first of two strings that is not empty. *)
Definition keep (old new : bytes) : bytes := match old with [] => new | _ => old end.
Definition keep_num (old new : Z) : Z := if old =? 0 then new else old.

Definition parseFrom (src : gmap bytes json) (t : trace_fields) : trace_fields :=
  let string m key := default [] (get_string m key) in
  let qc := keep (t_qcReference t) (string src (str "qc_reference")) in
  let '(id, ai) :=
    match get_map src (str "metadata") with
    | Some metadata =>
        (keep (t_traceID t) (string metadata (str "trace_id")),
         keep_num (keep_num (t_aiEventTSMs t) (extractNum metadata (str "ai_event_ts_ms"))) (extractNum metadata (str "ai_event_timestamp_ms")))
    | None => (t_traceID t, t_aiEventTSMs t)
    end in
  let '(alt, ts) :=
    match get_map src (str "trace") with
    | Some trace => (keep (t_traceIDAlt t) (string trace (str "id")), keep_num (t_traceTSMs t) (extractNum trace (str "ai_event_ts_ms")))
    | None => (t_traceIDAlt t, t_traceTSMs t)
    end in
  MkTrace qc (keep id (string src (str "trace_id"))) alt ai ts.

Definition trace_of (payload : gmap bytes json) : trace_fields :=
  let t := parseFrom payload (MkTrace [] [] [] 0 0) in
  match get_map payload (str "params") with Some wrapped => parseFrom wrapped t | None => t end.

Definition is_empty (b : bytes) : bool := len b =? 0.

(** The future skew the contract allows. *)
Definition trace_skew (c : VerifierConfig) : Z :=
  if 0 <? PolicyTraceFutureSkew c then PolicyTraceFutureSkew c
  else if 0 <? MaxTimestampSkew c then MaxTimestampSkew c else 5 * Minute.

Definition validatePolicyTraceContract (c : VerifierConfig) (now : Time) (params : bytes) : result verify_error unit :=
  if negb (PolicyRequireTrace c) && negb (PolicyRequireQCRef c) then Ok tt
  else
    match Unmarshal_map params with
    | None => Err ErrTraceContract
    | Some payload =>
        let t := trace_of payload in
        _ ← reject_if (PolicyRequireTrace c && is_empty (t_traceID t) && is_empty (t_traceIDAlt t)) ErrTraceContract;
        _ ← reject_if (PolicyRequireTrace c && (t_aiEventTSMs t =? 0) && (t_traceTSMs t =? 0)) ErrTraceContract;
        _ ← reject_if (negb (is_empty (t_traceID t)) && negb (is_empty (t_traceIDAlt t)) && negb (bool_decide (t_traceID t = t_traceIDAlt t)))
              ErrTraceContract;
        _ ← reject_if (PolicyRequireQCRef c && is_empty (t_qcReference t) && is_empty (keep (t_traceID t) (t_traceIDAlt t))) ErrTraceContract;
        let ts := keep_num (t_aiEventTSMs t) (t_traceTSMs t) in
        if 0 <? ts then
          match NormalizeUnixMillis ts with
          | None => Err ErrTraceContract
          | Some ts => reject_if (UnixMilli (GoTime.Add now (trace_skew c)) <? ts) ErrTraceContract
          end
        else Ok tt
    end.

Definition VerifyPolicyMsg `{ED : Ed25519} (c : VerifierConfig) (now : Time) (m : PolicyMsg) : result verify_error PolicyTx :=
  let s := pm_Signed m in
  _ ← ValidatePolicyMsg m;
  _ ← reject_if (skew_exceeded c now (pm_TS m)) ErrTimestampSkew;
  _ ← reject_if (MaxPayloadSize <? len (pm_Params m)) ErrSize;
  _ ← reject_if (negb (bool_decide (s_ContentHash s = sha256 (pm_Params m)))) ErrHashMismatch;
  signBytes ← match BuildSignBytes domainPolicy (pm_TS m) (s_ProducerID s) (s_Nonce s) (s_ContentHash s) with
              | Ok b => Ok b | Err _ => Err ErrSignBytes end;
  _ ← reject_if (negb (ed_verify (s_PubKey s) signBytes (s_Signature s))) ErrSignature;
  _ ← reject_if (negb (bool_decide (s_ProducerID s = s_PubKey s))) ErrProducerMismatch;
  _ ← reject_if (negb (bool_decide (PolicyPubKeyAllowlist c = ∅)) && negb (bool_decide (hex (s_PubKey s) ∈ PolicyPubKeyAllowlist c))) ErrNotAllowlisted;
  _ ← validatePolicyTraceContract c now (pm_Params m);
  Ok (MkPolicyTx (pm_TS m) (pm_Params m) (envelope_of s)).

(** *** Priority class of a policy *)

Definition asString (m : gmap bytes json) (key : bytes) : bytes := default [] (get_string m key).
Definition lowered (b : bytes) : bytes := ToLower (TrimSpace b).

Definition critical_actions : list bytes := [str "drop"; str "reject"; str "freeze"; str "block"; str "remove"].
Definition maintenance_actions : list bytes :=
  [str "refresh"; str "suppress"; str "bypass"; str "noop"; str "reconcile"; str "ttl"].
Definition isCriticalPolicyAction (action controlAction : bytes) : bool :=
  bool_decide (lowered controlAction ∈ critical_actions) || bool_decide (lowered action ∈ critical_actions).
Definition isMaintenancePolicyAction (action controlAction : bytes) : bool :=
  bool_decide (lowered controlAction ∈ maintenance_actions) || bool_decide (lowered action ∈ maintenance_actions).

(** The control action of the parameters, wherever it is given first. *)
Definition control_action (params : bytes) : bytes :=
  if is_empty params then []
  else
    match Unmarshal_map params with
    | None => []
    | Some root =>
        let ca := keep (lowered (asString root (str "control_action"))) (lowered (asString root (str "action"))) in
        match get_map root (str "params") with
        | Some nested => keep ca (keep (lowered (asString nested (str "control_action"))) (lowered (asString nested (str "action"))))
        | None => ca
        end
    end.

Definition classifyPolicyPriorityClass (action params : bytes) : bytes :=
  let act := lowered action in
  let ca := control_action params in
  if isCriticalPolicyAction act ca then str "p0"
  else if isMaintenancePolicyAction act ca then str "p2" else str "p1".
