(* ===== verification/IngestRuns.v ===== *)
(** What the checks of the AI messages establish: who signed an accepted transaction,
    that the state accepts it, and what the signature does not bind. *)
From S2P Require Import Prelude Bytes Sha256 GoTime GoFloat GoStrings GoJson Codec Crypto CryptoRuns Ingest.
Import Codec Model Json.

Inductive ai_msg := Anomaly (m : AnomalyMsg) | Evidence (m : EvidenceMsg) | Policy (m : PolicyMsg).

(** What the producer of a transaction signs. *)
Definition producer_bytes (tx : Transaction) : bytes :=
  let env := Envelope_ tx in
  let rest := be_put 8 (u64 (Timestamp tx)) ++ be_put 2 (len (ProducerID env) mod 2 ^ 16) ++ ProducerID env ++ Nonce env ++ EnvContentHash env in
  match tx with
  | AnEvent _ => domainAnomaly ++ rest
  | AnEvidence _ => domainEvidence ++ rest
  | APolicy _ => domainPolicy ++ x00 :: rest
  end.

(** The chain of custody the state asks for. *)
Definition custody_ok (tx : Transaction) : bool :=
  match tx with AnEvidence t => (0 <? len (CoC t)) && (len (CoC t) <=? Codec.MaxCoCEntries) | _ => true end.

Lemma reject_if_Ok b e u : reject_if b e = Ok u -> b = false.
Proof. by destruct b. Qed.

(** [reject_inv H] takes the checks of a successful verification apart. *)
Ltac reject_inv H :=
  go_inv H;
  repeat match goal with H : reject_if _ _ = Ok _ |- _ => apply reject_if_Ok in H end; go_bool.

(** [replay] passes the goal through the checks that have succeeded before. *)
Ltac replay :=
  repeat match goal with H : ?l = Ok ?a |- context [?l] => try destruct a as []; rewrite H; clear H; cbn [mbind result_bind] end.

Section verify.
Context {ED : Ed25519}.

Definition verify (c : VerifierConfig) (now : Time) (m : ai_msg) : result verify_error Transaction :=
  match m with
  | Anomaly m => t ← VerifyAnomalyMsg c now m; Ok (AnEvent t)
  | Evidence m => t ← VerifyEvidenceMsg c now m; Ok (AnEvidence t)
  | Policy m => t ← VerifyPolicyMsg c now m; Ok (APolicy t)
  end.

Record accepted (c : VerifierConfig) (now : Time) (tx : Transaction) : Prop := {
  acc_skew : skew_exceeded c now (Timestamp tx) = false;
  acc_producer : len (ProducerID (Envelope_ tx)) = 32;
  acc_nonce : len (Nonce (Envelope_ tx)) = 16;
  acc_signature : len (Signature (Envelope_ tx)) = 64;
  acc_alg : Alg (Envelope_ tx) = str "Ed25519";
  acc_hash : EnvContentHash (Envelope_ tx) = sha256 (Payload tx);
  acc_size : len (Payload tx) <= MaxPayloadSize;
  acc_same : ProducerID (Envelope_ tx) = PubKey (Envelope_ tx);
  acc_verify : ed_verify (PubKey (Envelope_ tx)) (producer_bytes tx) (Signature (Envelope_ tx)) = true;
  acc_custody : match tx with AnEvidence t => existsb custody_entry_bad (CoC t) = false | _ => True end;
  acc_listed : match tx with
    | APolicy _ => PolicyPubKeyAllowlist c = ∅ \/ hex (PubKey (Envelope_ tx)) ∈ PolicyPubKeyAllowlist c | _ => True end }.

Lemma validate_signed_Ok s u : validate_signed s = Ok u ->
  len (s_ProducerID s) = 32 /\ len (s_Nonce s) = 16 /\ len (s_Signature s) = 64 /\ len (s_PubKey s) = 32 /\ s_Alg s = str "Ed25519".
Proof. unfold validate_signed. intros H. reject_inv H. done. Qed.

Ltac checks :=
  match goal with H : mbind _ _ = Ok _ |- _ => reject_inv H end;
  match goal with H : validate_signed _ = Ok _ |- _ => apply validate_signed_Ok in H as (? & ? & ? & ? & ?) end.

Lemma verify_accepted c now m tx : verify c now m = Ok tx -> accepted c now tx.
Proof.
  destruct m as [m|m|m]; cbn [verify]; intros Hv; go_inv Hv.
  - unfold VerifyAnomalyMsg in Hstep. reject_inv Hstep. unfold ValidateAnomalyMsg in *. checks. by split.
  - unfold VerifyEvidenceMsg in Hstep. reject_inv Hstep. unfold ValidateEvidenceMsg in *. checks.
    split; try done. cbn. unfold MaxProofSize, MaxPayloadSize in *. lia.
  - unfold VerifyPolicyMsg in Hstep. reject_inv Hstep. unfold ValidatePolicyMsg in *. checks.
    match goal with H : match BuildSignBytes _ _ _ _ _ with _ => _ end = Ok _ |- _ =>
      destruct (BuildSignBytes _ _ _ _ _) as [b|] eqn:Hb; [injection H as H; subst|done] end.
    apply BuildSignBytes_ok in Hb as (_ & _ & ->).
    split; try done. cbn. match goal with H : negb _ && negb _ = false |- _ => apply andb_false_iff in H as [H|H] end; go_bool; auto.
Qed.

(** C39. What the AI checks accept the state accepts too, for as long as its own skew leaves
    room, unless the chain of custody of an evidence is empty or too long. *)
Theorem verified_valid c now now' m tx n skew
  (Hv : verify c now m = Ok tx) (Hn : f_to_int64 (Seconds (MaxTimestampSkew c)) = n) (Hpos : 0 <= n)
  (Hnow : time_sane now) (Hlate : t_sec now + n <= 2 ^ 32 * Hour) (Hnow' : nanos now <= nanos now')
  (Hskew : (n + 1) * Second + (nanos now' - nanos now) <= skew) (Hmax : skew <= MaxInt64) :
  Validate tx now' skew = if custody_ok tx then Ok tt else Err ErrInvalidValue.
Proof.
  apply verify_accepted in Hv. destruct Hv as [Hsk Hp Hno Hsig Halg Hh Hsz Hsame Hver Hcoc _].
  assert (Hts : CheckSkew (Timestamp tx) now' skew = Ok tt).
  { unfold skew_exceeded in Hsk. rewrite Hn in Hsk. go_bool. destruct Hnow as [Hwf Hs].
    unfold Unix, time_wf, Hour, Minute, MinInt64, MaxInt64, unixToInternal, nanos, Second in *.
    rewrite (i64_small (t_sec now - _)) in Hsk0, Hsk by (unfold MinInt64, MaxInt64; lia).
    rewrite i64_small in Hsk0, Hsk by (unfold MinInt64, MaxInt64; lia).
    apply CheckSkew_window; unfold nanos, unixToInternal, Second, MinInt64, MaxInt64; lia. }
  assert (Hcommon : validate_common (Timestamp tx) (Payload tx) (Envelope_ tx) now' skew = Ok tt).
  { unfold validate_common, ValidateSize. pose proof (len_nonneg (Payload tx)).
    assert (Hb : (len (Payload tx) <? 0) || (MaxTxPayloadSize <? len (Payload tx)) = false).
    { apply orb_false_iff. rewrite !Z.ltb_ge. unfold MaxPayloadSize in Hsz. change MaxTxPayloadSize with (1024 * 1024). lia. }
    rewrite Hb. cbn [mbind result_bind]. rewrite Hts. cbn [mbind result_bind]. rewrite Hp, Hno, Hsig, Halg, <- Hsame, Hp.
    change (ContentHash (Payload tx)) with (sha256 (Payload tx)). by rewrite bool_decide_eq_true_2. }
  destruct tx as [t|t|t]; cbn [Validate custody_ok]; [done| |done].
  unfold EvidenceTx_Validate. change (validate_common _ _ _ _ _) with (validate_common (Timestamp (AnEvidence t)) (Payload (AnEvidence t)) (Envelope_ (AnEvidence t)) now' skew).
  rewrite Hcommon. cbn [mbind result_bind]. pose proof (len_nonneg (CoC t)).
  destruct (Z.eqb_spec (len (CoC t)) 0), (Z.ltb_spec Codec.MaxCoCEntries (len (CoC t))), (Z.ltb_spec 0 (len (CoC t))),
    (Z.leb_spec (len (CoC t)) Codec.MaxCoCEntries); try lia; cbn [orb andb]; try done.
  assert (Hbad : existsb coc_entry_bad (CoC t) = false); [|by rewrite Hbad].
  clear - Hcoc. induction (CoC t) as [|e l IH]; [done|]. cbn [existsb] in *. apply orb_false_iff in Hcoc as [He Hl].
  rewrite (IH Hl), orb_false_r. unfold custody_entry_bad, coc_entry_bad in *. go_bool. by rewrite He, He0.
Qed.

(** A transaction that passes the checks was signed by its producer, whose key it names,
    over its kind, time, producer, nonce and content hash; its content has that hash, and
    a policy's producer is listed when there is a list. *)
Theorem verified_signed `{EL : !Ed25519Laws} c now m tx (Hv : verify c now m = Ok tx) :
  ed_signed (PubKey (Envelope_ tx)) (producer_bytes tx) /\ ProducerID (Envelope_ tx) = PubKey (Envelope_ tx) /\
  EnvContentHash (Envelope_ tx) = sha256 (Payload tx) /\
  (Type_ tx = TxPolicy -> PolicyPubKeyAllowlist c = ∅ \/ hex (PubKey (Envelope_ tx)) ∈ PolicyPubKeyAllowlist c).
Proof.
  apply verify_accepted in Hv. destruct Hv. split_and!; [by eapply ed_unforgeable|done..|]. by destruct tx.
Qed.

(** One signature stands for one transaction: accepted ones whose producers signed the same
    bytes have the same kind, time, producer, nonce and content, or exhibit a collision. *)
Theorem signature_binds c c' now now' m m' tx tx'
  (Hv : verify c now m = Ok tx) (Hv' : verify c' now' m' = Ok tx')
  (Hts : int64 (Timestamp tx)) (Hts' : int64 (Timestamp tx')) (Hb : producer_bytes tx = producer_bytes tx') :
  Type_ tx = Type_ tx' /\ Timestamp tx = Timestamp tx' /\ ProducerID (Envelope_ tx) = ProducerID (Envelope_ tx') /\
  Nonce (Envelope_ tx) = Nonce (Envelope_ tx') /\ (Payload tx = Payload tx' \/ Collides (Payload tx) (Payload tx')).
Proof.
  apply verify_accepted in Hv as [_ Hp Hn _ _ Hh _ _ _ _ _]. apply verify_accepted in Hv' as [_ Hp' Hn' _ _ Hh' _ _ _ _ _].
  assert (Hrest : Type_ tx = Type_ tx' /\
    be_put 8 (u64 (Timestamp tx)) ++ be_put 2 (len (ProducerID (Envelope_ tx)) mod 2 ^ 16) ++ ProducerID (Envelope_ tx) ++ Nonce (Envelope_ tx) ++ EnvContentHash (Envelope_ tx) =
    be_put 8 (u64 (Timestamp tx')) ++ be_put 2 (len (ProducerID (Envelope_ tx')) mod 2 ^ 16) ++ ProducerID (Envelope_ tx') ++ Nonce (Envelope_ tx') ++ EnvContentHash (Envelope_ tx')).
  { unfold producer_bytes in Hb. revert Hb. generalize (be_put 8 (u64 (Timestamp tx))) (be_put 8 (u64 (Timestamp tx'))). intros x x' Hb.
    destruct tx, tx'; try (exfalso; apply (f_equal (take 4)) in Hb; vm_compute in Hb; discriminate);
      (split; [done|]); apply app_inv_head in Hb; [exact Hb..|]. by apply (f_equal tail) in Hb. }
  destruct Hrest as [Ht Hrest]. split; [done|].
  apply app_inj_len in Hrest as [Hx Hrest]; [|by rewrite !length_be_put].
  apply app_inj_len in Hrest as [_ Hrest]; [|by rewrite !length_be_put].
  unfold len in Hp, Hp', Hn, Hn'.
  apply app_inj_len in Hrest as [Hpid Hrest]; [|lia]. apply app_inj_len in Hrest as [Hno Hhash]; [|lia].
  split_and!; [by apply be_put8_u64_inj|done|done|]. apply sha256_inj_or_collision. congruence.
Qed.

(** *** What the signature does not bind *)

(** The chain of custody of an accepted evidence can be replaced. *)
Theorem custody_unbound c now m t coc (Hv : VerifyEvidenceMsg c now m = Ok t)
  (Hlen : len coc <= Ingest.MaxCoCEntries) (Hcoc : existsb custody_entry_bad coc = false) :
  VerifyEvidenceMsg c now (MkEvidence (em_ID m) (em_EvidenceType m) (em_Refs m) (em_ProofBlob m) (em_TS m) (em_Signed m) coc) =
    Ok (MkEvidenceTx (evi_Ts t) (evi_Data t) (evi_Env t) coc).
Proof.
  unfold VerifyEvidenceMsg in *. cbn [em_Signed em_TS em_ProofBlob em_CoC] in *.
  apply bind_Ok_inv in Hv as (u & Hval & Hv). 
  assert (Hval' : ValidateEvidenceMsg (MkEvidence (em_ID m) (em_EvidenceType m) (em_Refs m) (em_ProofBlob m) (em_TS m) (em_Signed m) coc) = Ok tt).
  { unfold ValidateEvidenceMsg in *. cbn [em_ID em_EvidenceType em_Refs em_ProofBlob em_TS em_Signed em_CoC] in *.
    go_inv Hval. replay.
    rewrite (proj2 (Z.ltb_ge _ _)) by done. by rewrite Hcoc. }
  rewrite Hval'. go_inv Hv. replay. done.
Qed.

(** The action of an accepted policy can be replaced, and with it its priority class. *)
Theorem action_unbound c now m t (Hv : VerifyPolicyMsg c now m = Ok t) :
  let m' := MkPolicy (pm_ID m) (str "block") (pm_Rule m) (pm_Params m) (pm_TS m) (pm_Signed m) in
  VerifyPolicyMsg c now m' = Ok t /\ classifyPolicyPriorityClass (pm_Action m') (pm_Params m') = str "p0".
Proof.
  intros m'. split.
  - unfold VerifyPolicyMsg in *. cbn [pm_ID pm_Action pm_Rule pm_Params pm_TS pm_Signed m'].
    apply bind_Ok_inv in Hv as (u & Hval & Hv).
    assert (Hval' : ValidatePolicyMsg m' = Ok tt).
    { unfold ValidatePolicyMsg in *. cbn [pm_ID pm_Action pm_Rule pm_Params pm_TS pm_Signed m']. go_inv Hval. by replay. }
    rewrite Hval'. go_inv Hv. by replay.
  - unfold classifyPolicyPriorityClass, isCriticalPolicyAction. cbn [pm_Action pm_Params m'].
    replace (bool_decide (lowered (lowered (str "block")) ∈ critical_actions)) with true by by vm_compute.
    by rewrite orb_true_r.
Qed.
End verify.

(** ** Concrete messages *)

Definition demo_pub : bytes := sha256 demo_seed.
Definition signed_with (nonce domain : bytes) (ts : Z) (payload : bytes) : Signed :=
  let s := MkSigned demo_pub nonce [] demo_pub (str "Ed25519") (sha256 payload) in
  let b := if bool_decide (domain = domainPolicy)
           then domainPolicy ++ x00 :: drop (length domainPolicy) (ai_sign_bytes domain ts s) else ai_sign_bytes domain ts s in
  MkSigned demo_pub (s_Nonce s) (@ed_sign toy_ed demo_seed b) demo_pub (s_Alg s) (s_ContentHash s).

Definition demo_signed : bytes -> Z -> bytes -> Signed := signed_with (replicate 16 x07).

Definition demo_ts : Z := 1700000000.
Definition anomaly_payload : bytes := quoted "{'severity':7,'confidence':0.5,'host':'a'}".
Definition demo_anomaly : AnomalyMsg :=
  MkAnomaly (str "an-1") (str "ddos") (str "sensor") 7 (float_of_decimal false 5 (-1)) demo_ts anomaly_payload (str "v1")
    (demo_signed domainAnomaly demo_ts anomaly_payload).
Definition demo_evidence : EvidenceMsg :=
  MkEvidence (str "ev-1") (str "pcap") [] (str "proof") demo_ts (demo_signed domainEvidence demo_ts (str "proof")) [].
Definition policy_params : bytes := quoted "{'policy_id':'p-1','action':'monitor'}".
Definition demo_policy : PolicyMsg :=
  MkPolicy (str "po-1") (str "monitor") (str "rule") policy_params demo_ts (demo_signed domainPolicy demo_ts policy_params).
Definition demo_verifier : VerifierConfig := MkVerifierConfig (5 * Minute) {[hex demo_pub]} false false 0.
Definition custody_entry : CoCEntry := MkCoC zero32 (replicate 32 x01) demo_ts (replicate 64 x02).

Definition tx_of (m : ai_msg) : Transaction :=
  match @verify toy_ed demo_verifier (at_ 3) m with Ok tx => tx | Err _ => APolicy (MkPolicyTx 0 [] (MkEnvelope [] [] [] [] [] [])) end.

(** The three messages are accepted; a change of the severity, the time or the proof is
    noticed. *)
Example demo_verify :
  @verify toy_ed demo_verifier (at_ 3) (Anomaly demo_anomaly) = Ok (tx_of (Anomaly demo_anomaly)) /\
  @verify toy_ed demo_verifier (at_ 3) (Evidence demo_evidence) = Ok (tx_of (Evidence demo_evidence)) /\
  @verify toy_ed demo_verifier (at_ 3) (Policy demo_policy) = Ok (tx_of (Policy demo_policy)) /\
  @verify toy_ed demo_verifier (at_ 301) (Policy demo_policy) = Err ErrTimestampSkew /\
  @verify toy_ed demo_verifier (at_ 3)
    (Anomaly (MkAnomaly (str "an-1") (str "ddos") (str "sensor") 8 (float_of_decimal false 5 (-1)) demo_ts anomaly_payload (str "v1")
      (demo_signed domainAnomaly demo_ts anomaly_payload))) = Err ErrSeverityMismatch /\
  @verify toy_ed demo_verifier (at_ 3)
    (Evidence (MkEvidence (str "ev-1") (str "pcap") [] (str "prooF") demo_ts (demo_signed domainEvidence demo_ts (str "proof")) [])) =
    Err ErrHashMismatch.
Proof. vm_compute. by split_and!. Qed.

Lemma verified_valid_witness : Validate (tx_of (Evidence demo_evidence)) (at_ 4) (6 * Minute) = Err ErrInvalidValue.
Proof.
  assert (Hn : time_sane (at_ 3)) by (split; by vm_compute).
  rewrite (@verified_valid toy_ed demo_verifier (at_ 3) (at_ 4) (Evidence demo_evidence) (tx_of (Evidence demo_evidence)) 300 (6 * Minute));
    by vm_compute.
Defined.

Lemma verified_signed_witness :
  let tx := tx_of (Policy demo_policy) in
  Type_ tx = TxPolicy /\ @ed_signed toy_ed toy_laws (PubKey (Envelope_ tx)) (producer_bytes tx) /\
  hex (PubKey (Envelope_ tx)) ∈ PolicyPubKeyAllowlist demo_verifier.
Proof.
  destruct (@verified_signed toy_ed toy_laws demo_verifier (at_ 3) (Policy demo_policy) (tx_of (Policy demo_policy))) as (H1 & _ & _ & H2);
    [by vm_compute|]. split_and!; [by vm_compute|done|]. destruct H2 as [H2|H2]; [by vm_compute| |done].
  by apply (f_equal (fun s => bool_decide (hex demo_pub ∈ s))) in H2.
Defined.

(** The same policy with another action and identifier. *)
Definition other_policy : PolicyMsg := MkPolicy (str "po-2") (str "block") (str "rule") policy_params demo_ts (pm_Signed demo_policy).

Lemma signature_binds_witness :
  let tx := tx_of (Policy demo_policy) in let tx' := tx_of (Policy other_policy) in
  Type_ tx = TxPolicy /\ (Payload tx = Payload tx' \/ Collides (Payload tx) (Payload tx')).
Proof.
  destruct (@signature_binds toy_ed demo_verifier demo_verifier (at_ 3) (at_ 4) (Policy demo_policy) (Policy other_policy)
    (tx_of (Policy demo_policy)) (tx_of (Policy other_policy))) as (_ & _ & _ & _ & H); try by vm_compute.
Defined.

Lemma custody_unbound_witness :
  exists t, @VerifyEvidenceMsg toy_ed demo_verifier (at_ 3)
    (MkEvidence (str "ev-1") (str "pcap") [] (str "proof") demo_ts (em_Signed demo_evidence) [custody_entry]) = Ok t.
Proof.
  eexists. refine (@custody_unbound toy_ed demo_verifier (at_ 3) demo_evidence
    (MkEvidenceTx demo_ts (str "proof") (envelope_of (em_Signed demo_evidence)) []) [custody_entry] _ _ _); by vm_compute.
Defined.

Lemma action_unbound_witness : classifyPolicyPriorityClass (pm_Action demo_policy) (pm_Params demo_policy) = str "p1" /\
  exists t, @VerifyPolicyMsg toy_ed demo_verifier (at_ 3)
    (MkPolicy (str "po-1") (str "block") (str "rule") policy_params demo_ts (pm_Signed demo_policy)) = Ok t.
Proof.
  split; [by vm_compute|]. exists (MkPolicyTx demo_ts policy_params (envelope_of (pm_Signed demo_policy))).
  refine (proj1 (@action_unbound toy_ed demo_verifier (at_ 3) demo_policy _ _)). by vm_compute.
Defined.
