(* ===== verification/Replay.v ===== *)
(** backend/pkg/wiring/replay_filter.go, replay_refresh.go and the transaction holds
    of proposer.go: what a node remembers of committed and of proposed transactions,
    so that it neither takes them in nor proposes them again. *)
From S2P Require Import Prelude Bytes Sha256 GoTime Codec Merkle Messages Block Mempool.
Import Codec Model.

(** ** State *)

Record ReplayConfig := MkReplayConfig {
  replayFilterEnabled : bool; replayFilterTTL : Z; replayFilterMax : Z;
  replayRefreshEnabled : bool; replayRefreshLeaderOnly : bool;
  replayRefreshHeightWindow : Z; replayRefreshMaxHeightsTick : Z }.

(** The map from identity hash to expiry, the counters (which wrap at 64 bits) and the
    next height of the refresh. *)
Record Replay := MkReplay {
  replayCommittedTx : gmap bytes Time; replayFilterEvictions : Z;
  replayRejectedAdmit : Z; replayRejectedBuild : Z; replayRefreshNext : Z }.

Definition NewReplay : Replay := MkReplay ∅ 0 0 0 0.

Definition with_committed (m : gmap bytes Time) (r : Replay) : Replay :=
  MkReplay m (replayFilterEvictions r) (replayRejectedAdmit r) (replayRejectedBuild r) (replayRefreshNext r).
Definition count_eviction (r : Replay) : Replay :=
  MkReplay (replayCommittedTx r) (u64 (replayFilterEvictions r + 1)) (replayRejectedAdmit r) (replayRejectedBuild r) (replayRefreshNext r).
Definition count_admit (r : Replay) : Replay :=
  MkReplay (replayCommittedTx r) (replayFilterEvictions r) (u64 (replayRejectedAdmit r + 1)) (replayRejectedBuild r) (replayRefreshNext r).
Definition count_build (n : Z) (r : Replay) : Replay :=
  MkReplay (replayCommittedTx r) (replayFilterEvictions r) (replayRejectedAdmit r) (u64 (replayRejectedBuild r + n)) (replayRefreshNext r).
Definition with_next (n : Z) (r : Replay) : Replay :=
  MkReplay (replayCommittedTx r) (replayFilterEvictions r) (replayRejectedAdmit r) (replayRejectedBuild r) n.

(** ** Identities *)

Definition txIdentityHash (tx : Transaction) : option bytes :=
  let env := Envelope_ tx in
  let domain := match Type_ tx with
                | TxEvent => DomainEventTx | TxEvidence => DomainEvidenceTx | TxPolicy => DomainPolicyTx end in
  match BuildSignBytes domain (Timestamp tx) (ProducerID env) (Nonce env) (EnvContentHash env) with
  | Err _ => None
  | Ok signBytes => Some (HashBytes signBytes)
  end.

(** ** The filter *)

Section filter_ops.
Context (c : ReplayConfig) (range : visit_order bytes Time).

Definition pruneReplayFilterExpiredLocked (now : Time) (r : Replay) : Replay :=
  with_committed (filter (fun kv => After now kv.2 = false) (replayCommittedTx r)) r.

(** The first of the earliest expiries in the order of the iteration. *)
Definition oldest_entry (l : list (bytes * Time)) : option (bytes * Time) :=
  foldl (fun found kv =>
    match found with
    | None => Some kv
    | Some (_, oldestExp) => if Before kv.2 oldestExp then Some kv else found
    end) None l.

Definition rememberCommittedTxHash (hash : bytes) (now : Time) (r : Replay) : Replay :=
  if negb (replayFilterEnabled c) then r
  else
    let exp := GoTime.Add now (replayFilterTTL c) in
    let r := pruneReplayFilterExpiredLocked now r in
    let r :=
      if (0 <? replayFilterMax c) && (replayFilterMax c <=? Z.of_nat (size (replayCommittedTx r))) then
        match oldest_entry (range (replayCommittedTx r)) with
        | Some (oldestHash, _) => count_eviction (with_committed (delete oldestHash (replayCommittedTx r)) r)
        | None => r
        end
      else r in
    with_committed (<[hash := exp]> (replayCommittedTx r)) r.

Definition rememberCommittedTransactions (txs : list Transaction) (now : Time) (r : Replay) : Replay :=
  if negb (replayFilterEnabled c) then r
  else foldl (fun r tx => match txIdentityHash tx with
                          | Some hash => rememberCommittedTxHash hash now r
                          | None => r
                          end) r txs.

(** Whether the hash is remembered; an expired entry is dropped. The second critical
    section looks the entry up again, so the result is the one at that moment. *)
Definition isCommittedTxHash (hash : bytes) (now : Time) (r : Replay) : bool * Replay :=
  if negb (replayFilterEnabled c) then (false, r)
  else
    match replayCommittedTx r !! hash with
    | None => (false, r)
    | Some expiry =>
        if negb (After now expiry) then (true, r)
        else (false, with_committed (delete hash (replayCommittedTx r)) r)
    end.

Definition shouldRejectReplayOnAdmit (tx : Transaction) (now : Time) (r : Replay) : bool * Replay :=
  if negb (replayFilterEnabled c) then (false, r)
  else
    match txIdentityHash tx with
    | None => (false, r)
    | Some hash =>
        let '(known, r) := isCommittedTxHash hash now r in
        if known : bool then (true, count_admit r) else (false, r)
    end.

Definition replayFilterSize (now : Time) (r : Replay) : Z * Replay :=
  if negb (replayFilterEnabled c) then (0, r)
  else let r := pruneReplayFilterExpiredLocked now r in (Z.of_nat (size (replayCommittedTx r)), r).

Definition computeTxRootFromTransactions (txs : list Transaction) : BlockHash :=
  if len txs =? 0 then HashBytes []
  else BuildRoot ((fun tx => (EnvContentHash (Envelope_ tx), [])) <$> txs).

(** The loop of [filterCommittedTxFromBlock]: what is kept, and how many are not. *)
Fixpoint filter_txs (now : Time) (txs : list Transaction) (r : Replay) : list Transaction * Z * Replay :=
  match txs with
  | [] => ([], 0, r)
  | tx :: txs' =>
      let '(known, r) := match txIdentityHash tx with
                         | Some hash => isCommittedTxHash hash now r
                         | None => (false, r)
                         end in
      let '(filtered, rejected, r) := filter_txs now txs' r in
      if known : bool then (filtered, rejected + 1, r) else (tx :: filtered, rejected, r)
  end.

Definition filterCommittedTxFromBlock (blk : AppBlock) (now : Time) (r : Replay) : AppBlock * Z * Replay :=
  if negb (replayFilterEnabled c) then (blk, 0, r)
  else if len (txs blk) =? 0 then (blk, 0, r)
  else
    let '(filtered, rejected, r) := filter_txs now (txs blk) r in
    if rejected =? 0 then (blk, 0, r)
    else
      let rebuilt := NewAppBlock (Block.height blk) (parentHash blk) (computeTxRootFromTransactions filtered)
                       (stateRootHint blk) (proposerID blk) (timestamp blk) filtered in
      (rebuilt, rejected, count_build rejected r).

(** ** The refresh from the database *)

(** The transaction hashes of the blocks from height [h] on, [n] of them; stops at the
    first height that cannot be read. *)
Fixpoint refresh_heights (list_block : Z -> option (list bytes)) (now : Time) (h : Z) (n : nat) (r : Replay) : bool * Replay :=
  match n with
  | O => (true, r)
  | S n' =>
      match list_block h with
      | None => (false, r)
      | Some metas =>
          let r := foldl (fun r txh => if len txh =? 32 then rememberCommittedTxHash txh now r else r) r metas in
          refresh_heights list_block now (u64 (h + 1)) n' r
      end
  end.

(** Where a refresh starts and ends. *)
Definition refresh_start (latest next : Z) : Z * Z :=
  let windowStart := if replayRefreshHeightWindow c <? latest then u64 (latest - replayRefreshHeightWindow c + 1) else 1 in
  (windowStart, if (next <? windowStart) || (latest <? next) then windowStart else next).

Definition refresh_end (latest start : Z) : Z :=
  let maxHeights := if replayRefreshMaxHeightsTick c <=? 0 then 32 else replayRefreshMaxHeightsTick c in
  if u64 (start + maxHeights - 1) <? latest then u64 (start + maxHeights - 1) else latest.

(** [latest_height] and [list_block] are the adapter's answers, [None] an error;
    [not_leader] is the leader gate's verdict. The result says whether the call
    returned nil. *)
Definition refreshReplayFilterFromDBWithOptions (bypassLeaderGate not_leader proposerOnly : bool)
  (latest_height : option Z) (list_block : Z -> option (list bytes)) (now : Time) (r : Replay) : bool * Replay :=
  if negb (replayFilterEnabled c) || negb (replayRefreshEnabled c) then (true, r)
  else if negb bypassLeaderGate && replayRefreshLeaderOnly c && proposerOnly && not_leader then (true, r)
  else
    match latest_height with
    | None => (false, r)
    | Some latest =>
        if latest =? 0 then (true, r)
        else
          let '(windowStart, start) := refresh_start latest (replayRefreshNext r) in
          let r := with_next start r in
          let last := refresh_end latest start in
          let '(ok, r) := refresh_heights list_block now start (Z.to_nat (last - start + 1)) r in
          if negb ok then (false, r)
          else if latest <=? last then (true, with_next windowStart r)
          else (true, with_next (u64 (last + 1)) r)
    end.
End filter_ops.

(** ** Holds on proposed transactions *)

Definition snapshotProposedTxExclusions (now : Time) (proposedTxHold : gmap bytes Time) : gset bytes * gmap bytes Time :=
  let kept := filter (fun kv => After now kv.2 = false) proposedTxHold in
  (dom kept, kept).

Definition recordTxHoldUntil (txs : list Transaction) (until : Time) (proposedTxHold : gmap bytes Time) : gmap bytes Time :=
  foldl (fun h tx => <[EnvContentHash (Envelope_ tx) := until]> h) proposedTxHold txs.

Definition recordProposedTxHold (proposalTxHoldDuration : Z) (blk : AppBlock) (now : Time) (hold : gmap bytes Time) : gmap bytes Time :=
  if proposalTxHoldDuration <=? 0 then hold
  else recordTxHoldUntil (txs blk) (GoTime.Add now proposalTxHoldDuration) hold.

(** A proposal whose block is no [AppBlock] has no transactions. *)
Definition proposalTransactions (blk : option AppBlock) : list Transaction :=
  match blk with Some b => txs b | None => [] end.

Definition recordObservedProposalTxHold (proposalTxHoldDuration : Z) (blk : option AppBlock) (now : Time)
  (hold : gmap bytes Time) : gmap bytes Time :=
  if proposalTxHoldDuration <=? 0 then hold
  else
    let txs := proposalTransactions blk in
    if len txs =? 0 then hold else recordTxHoldUntil txs (GoTime.Add now proposalTxHoldDuration) hold.

Definition clearProposedTxHold (hashes : list bytes) (proposedTxHold : gmap bytes Time) : gmap bytes Time :=
  foldl (fun h hash => delete hash h) proposedTxHold hashes.

(** ** Runs of the filter *)

Section filter_runs.
Context (c : ReplayConfig) (range : visit_order bytes Time).

Inductive replay_op :=
| ORemember (txs : list Transaction) (now : Time)
| OAdmit (tx : Transaction) (now : Time)
| OBlock (blk : AppBlock) (now : Time)
| OSize (now : Time)
| ORefresh (bypass not_leader proposerOnly : bool) (latest : option Z) (list_block : Z -> option (list bytes)) (now : Time).

Definition op_time (o : replay_op) : Time :=
  match o with ORemember _ now | OAdmit _ now | OBlock _ now | OSize now | ORefresh _ _ _ _ _ now => now end.

Definition run_op (r : Replay) (o : replay_op) : Replay :=
  match o with
  | ORemember txs now => rememberCommittedTransactions c range txs now r
  | OAdmit tx now => (shouldRejectReplayOnAdmit c tx now r).2
  | OBlock blk now => (filterCommittedTxFromBlock c blk now r).2
  | OSize now => (replayFilterSize c now r).2
  | ORefresh b nl po latest lb now => (refreshReplayFilterFromDBWithOptions c range b nl po latest lb now r).2
  end.

Definition run_ops (ops : list replay_op) (r : Replay) : Replay := foldl run_op r ops.

(** The hashes an operation may add. *)
Definition offered (o : replay_op) (h : bytes) : Prop :=
  match o with
  | ORemember txs _ => exists tx, tx ∈ txs /\ txIdentityHash tx = Some h
  | ORefresh _ _ _ _ list_block _ => exists n metas, list_block n = Some metas /\ h ∈ metas
  | OAdmit _ _ | OBlock _ _ | OSize _ => False
  end.

(** What the operations do to the map, one entry or one sweep at a time. *)
Inductive prim (now : Time) (offer : bytes -> Prop) : Replay -> Replay -> Prop :=
| prim_remember h r : offer h -> prim now offer r (rememberCommittedTxHash c range h now r)
| prim_expire h e r : replayCommittedTx r !! h = Some e -> After now e = true ->
    prim now offer r (with_committed (delete h (replayCommittedTx r)) r)
| prim_prune r : prim now offer r (pruneReplayFilterExpiredLocked now r)
| prim_count r r' : replayCommittedTx r' = replayCommittedTx r -> prim now offer r r'.

#[local] Hint Constructors prim rtc : core.

Lemma isCommitted_prims h now offer r : rtc (prim now offer) r (isCommittedTxHash c h now r).2.
Proof.
  unfold isCommittedTxHash. destruct (negb _); [done|]. destruct (_ !! h) as [e|] eqn:He; [|done].
  destruct (After now e) eqn:Ha; [|done]. apply rtc_once. by eapply prim_expire.
Qed.

Lemma filter_txs_prims now offer l r : rtc (prim now offer) r (filter_txs c now l r).2.
Proof.
  revert r. induction l as [|tx l IH]; intros r; [done|]. cbn.
  assert (H : rtc (prim now offer) r (match txIdentityHash tx with Some hash => isCommittedTxHash c hash now r | None => (false, r) end).2).
  { destruct (txIdentityHash tx); [apply isCommitted_prims|done]. }
  destruct (match txIdentityHash tx with Some _ => _ | None => _ end) as [known r1]. specialize (IH r1).
  destruct (filter_txs c now l r1) as [[f n] r2]. cbn in *. destruct known; by etrans.
Qed.

Lemma foldl_prims {A} (f : Replay -> A -> Replay) now offer (l : list A) r :
  (forall r x, x ∈ l -> rtc (prim now offer) r (f r x)) -> rtc (prim now offer) r (foldl f r l).
Proof.
  revert r. induction l as [|x l IH]; intros r Hf; [done|]. cbn. etrans; [apply Hf; by left|].
  apply IH. intros r' y Hy. apply Hf. by right.
Qed.

Lemma refresh_heights_prims lb now (offer : bytes -> Prop) h n r :
  (forall i metas x, lb i = Some metas -> x ∈ metas -> offer x) ->
  rtc (prim now offer) r (refresh_heights c range lb now h n r).2.
Proof.
  intros Ho. revert h r. induction n as [|n IH]; intros h r; [done|]. cbn. destruct (lb h) as [metas|] eqn:Hm; [|done].
  etrans; [|apply IH]. apply foldl_prims. intros r' x Hx. destruct (len x =? 32); [|done]. apply rtc_once, prim_remember. eauto.
Qed.

Lemma run_op_prims o r : rtc (prim (op_time o) (offered o)) r (run_op r o).
Proof.
  destruct o as [l now|tx now|blk now|now|b nl po latest lb now]; cbn [run_op op_time].
  - unfold rememberCommittedTransactions. destruct (negb _); [done|].
    apply foldl_prims. intros r' x Hx. destruct (txIdentityHash x) eqn:He; [|done]. apply rtc_once, prim_remember. by exists x.
  - unfold shouldRejectReplayOnAdmit. destruct (negb _); [done|]. destruct (txIdentityHash tx) as [h|]; [|done].
    pose proof (isCommitted_prims h now (offered (OAdmit tx now)) r) as H. destruct (isCommittedTxHash c h now r) as [[] r1]; [|done].
    etrans; [exact H|]. apply rtc_once. by apply prim_count.
  - unfold filterCommittedTxFromBlock. destruct (negb _); [done|]. destruct (len _ =? 0); [done|].
    pose proof (filter_txs_prims now (offered (OBlock blk now)) (txs blk) r) as H. destruct (filter_txs c now (txs blk) r) as [[f n] r1].
    destruct (n =? 0); [done|]. etrans; [exact H|]. apply rtc_once. by apply prim_count.
  - unfold replayFilterSize. destruct (negb _); [done|]. by apply rtc_once.
  - unfold refreshReplayFilterFromDBWithOptions. destruct (_ || _); [done|]. destruct (_ && _); [done|].
    destruct latest as [L|]; [|done]. destruct (L =? 0); [done|]. destruct (refresh_start c L _) as [w s].
    set (n := Z.to_nat _). set (offer := offered _).
    assert (H : rtc (prim now offer) (with_next s r) (refresh_heights c range lb now s n (with_next s r)).2).
    { apply refresh_heights_prims. intros i metas x Hm Hx. by exists i, metas. }
    destruct (refresh_heights c range lb now s n (with_next s r)) as [ok r1].
    assert (H1 : rtc (prim now offer) r r1) by (etrans; [apply rtc_once; by apply (prim_count _ _ r (with_next s r))|exact H]).
    destruct ok; cbn; [|done]. destruct (L <=? _); (etrans; [exact H1|]; apply rtc_once; by apply prim_count).
Qed.

(** A property of the map kept by every primitive is kept by every run. *)
Lemma run_ops_invariant (P : gmap bytes Time -> Prop) ops r :
  (forall o r r', o ∈ ops -> prim (op_time o) (offered o) r r' -> P (replayCommittedTx r) -> P (replayCommittedTx r')) ->
  P (replayCommittedTx r) -> P (replayCommittedTx (run_ops ops r)).
Proof.
  intros Hprim Hr. unfold run_ops. apply foldl_invariant; [done|]. intros r1 o Ho H1.
  pose proof (run_op_prims o r1) as H. induction H as [|x y z Hxy Hyz IH]; [done|]. apply IH. by eapply Hprim.
Qed.

(** ** The earliest expiry goes first *)

Lemma oldest_entry_spec l : match oldest_entry l with
  | None => l = []
  | Some (h, e) => (h, e) ∈ l /\ forall h' e', (h', e') ∈ l -> Before e' e = false
  end.
Proof.
  unfold oldest_entry. induction l as [|[h e] l IH] using rev_ind; [done|]. rewrite foldl_app. cbn.
  destruct (foldl _ None l) as [[h0 e0]|].
  - destruct IH as [Hin Hmin]. destruct (Before e e0) eqn:Hb.
    + split; [set_solver|]. intros h' e' [H|H]%elem_of_app.
      * eapply Before_trans_neg; [exact Hb|by eapply Hmin].
      * apply list_elem_of_singleton in H as [= -> ->]. apply After_irrefl.
    + split; [set_solver|]. intros h' e' [H|H]%elem_of_app; [by eapply Hmin|].
      by apply list_elem_of_singleton in H as [= -> ->].
  - subst l. cbn. split; [by left|]. intros h' e' H. apply list_elem_of_singleton in H as [= -> ->]. apply After_irrefl.
Qed.

(** ** The bound on the filter *)

Definition within_max (m : gmap bytes Time) : Prop := 0 < replayFilterMax c -> Z.of_nat (size m) <= replayFilterMax c.

Lemma size_filter_le {P : bytes * Time -> Prop} `{forall x, Decision (P x)} (m : gmap bytes Time) : (size (filter P m) <= size m)%nat.
Proof. apply map_subseteq_size, map_filter_subseteq. Qed.

(** What remembering a hash leaves: the unexpired entries, without the one with the
    earliest expiry if they are too many, and the hash with its new expiry. *)
Lemma remember_cases h now r : replayFilterEnabled c = true ->
  let live := filter (fun kv => After now kv.2 = false) (replayCommittedTx r) in
  let exp := GoTime.Add now (replayFilterTTL c) in
  exists kept, replayCommittedTx (rememberCommittedTxHash c range h now r) = <[h := exp]> kept /\
    ((kept = live /\ ~ (0 < replayFilterMax c <= Z.of_nat (size live))) \/
     (exists h0 e0, live !! h0 = Some e0 /\ kept = delete h0 live /\ 0 < replayFilterMax c <= Z.of_nat (size live) /\
        forall h' e', live !! h' = Some e' -> Before e' e0 = false)).
Proof.
  intros Hen. cbn. unfold rememberCommittedTxHash, pruneReplayFilterExpiredLocked. rewrite Hen. cbn.
  set (live := filter _ (replayCommittedTx r)).
  destruct ((0 <? replayFilterMax c) && _) eqn:Hfull; cbn.
  - go_bool. pose proof (oldest_entry_spec (range live)) as Ho. destruct (oldest_entry (range live)) as [[h0 e0]|].
    + destruct Ho as [Hin Hmin]. exists (delete h0 live). split; [done|]. right. exists h0, e0.
      rewrite elem_of_visit in Hin. split_and!; [done|done|lia|lia|]. intros h' e' He. eapply Hmin. by rewrite elem_of_visit.
    + exfalso. assert (Hl : map_to_list live = []).
      { apply Permutation_nil. rewrite <- (visit_perm _ _ range live), Ho. done. }
      apply map_to_list_empty_iff in Hl. rewrite Hl, map_size_empty in Hfull. lia.
  - exists live. split; [done|]. left. split; [done|]. intros [H1 H2]. apply andb_false_iff in Hfull as [H|H]; go_bool; lia.
Qed.

Lemma remember_disabled h now r : replayFilterEnabled c = false -> rememberCommittedTxHash c range h now r = r.
Proof. intros H. unfold rememberCommittedTxHash. by rewrite H. Qed.

Lemma prim_within_max now offer r r' : prim now offer r r' -> within_max (replayCommittedTx r) -> within_max (replayCommittedTx r').
Proof.
  unfold within_max. intros H Hm Hpos. specialize (Hm Hpos). destruct H as [h r _|h e r He _|r|r r' ->]; [| | |done].
  - destruct (replayFilterEnabled c) eqn:Hen; [|by rewrite remember_disabled].
    destruct (remember_cases h now r Hen) as (kept & -> & Hk). cbn in Hk.
    pose proof (size_filter_le (P := fun kv => After now kv.2 = false) (replayCommittedTx r)) as Hsz.
    set (live := filter _ (replayCommittedTx r)) in *.
    assert (Hk' : Z.of_nat (size kept) < replayFilterMax c).
    { destruct Hk as [[-> Hn]|(h0 & e0 & H0 & -> & [_ Hf] & _)]; [lia|]. rewrite map_size_delete_Some by (by eexists).
      assert (size live <> 0%nat) by (intros Hz%map_size_empty_inv; by rewrite Hz, lookup_empty in H0). lia. }
    destruct (kept !! h) as [x|] eqn:Hl; [rewrite map_size_insert_Some by (by eexists); lia|].
    rewrite map_size_insert_None by done. lia.
  - cbn. rewrite map_size_delete_Some by (by eexists). lia.
  - pose proof (size_filter_le (P := fun kv => After now kv.2 = false) (replayCommittedTx r)). cbn. lia.
Qed.

(** ** What the filter forgets *)

(** The hash has an expiry no earlier than [e], or the filter is full, up to one place,
    of others that expire no earlier: remembering a hash again makes room for it although
    it has its place already. *)
Definition kept_until (h : bytes) (e : Time) (m : gmap bytes Time) : Prop :=
  (exists e', m !! h = Some e' /\ Before e' e = false) \/
  (0 < replayFilterMax c /\ replayFilterMax c - 1 <= Z.of_nat (size m) /\ forall h' e', m !! h' = Some e' -> Before e' e = false).

Lemma size_insert_ge (m : gmap bytes Time) h x : (size m <= size (<[h := x]> m))%nat.
Proof.
  destruct (m !! h) eqn:Hl; [by rewrite map_size_insert_Some by (by eexists)|]. rewrite map_size_insert_None by done. lia.
Qed.

Lemma kept_until_live h e now m : After now e = false -> kept_until h e m ->
  kept_until h e (filter (fun kv => After now kv.2 = false) m).
Proof.
  intros Hnow Hk.
  assert (Hlive : forall e', Before e' e = false -> After now e' = false).
  { intros e' Hb. unfold Before in Hb. rewrite After_false in *. lia. }
  destruct Hk as [(e' & Hl & Hb)|(Hpos & Hs & Hall)].
  - left. exists e'. split; [|done]. apply map_lookup_filter_Some. cbn. auto.
  - right. rewrite map_filter_id; [done|]. intros i x Hi. cbn. apply Hlive. by eapply Hall.
Qed.

Lemma kept_until_insert h e h1 x m : Before x e = false -> kept_until h e m -> kept_until h e (<[h1 := x]> m).
Proof.
  intros Hx [(e' & Hl & Hb)|(Hpos & Hs & Hall)].
  - left. destruct (decide (h1 = h)) as [->|Hne]; [exists x; by rewrite lookup_insert_eq|].
    exists e'. by rewrite lookup_insert_ne.
  - right. pose proof (size_insert_ge m h1 x). split_and!; [done|lia|]. intros h' e'. rewrite lookup_insert.
    case_decide; [by intros [= <-]|by apply Hall].
Qed.

(** Evicting the earliest entry of a full filter. *)
Lemma kept_until_evict h e h0 e0 m : 0 < replayFilterMax c <= Z.of_nat (size m) ->
  m !! h0 = Some e0 -> (forall h' e', m !! h' = Some e' -> Before e' e0 = false) ->
  kept_until h e m -> kept_until h e (delete h0 m).
Proof.
  intros [Hpos Hfull] H0 Hmin Hk.
  assert (Hsize : replayFilterMax c - 1 <= Z.of_nat (size (delete h0 m))).
  { rewrite map_size_delete_Some by (by eexists). lia. }
  destruct Hk as [(e' & Hl & Hb)|(_ & _ & Hall)].
  - destruct (decide (h0 = h)) as [->|Hne]; [|left; exists e'; by rewrite lookup_delete_ne].
    right. split_and!; [done..|]. intros h' e1 [_ H1]%lookup_delete_Some. specialize (Hmin _ _ H1).
    assert (e' = e0) as -> by congruence. unfold Before in *. rewrite After_false in *. lia.
  - right. split_and!; [done..|]. intros h' e1 [_ H1]%lookup_delete_Some. by eapply Hall.
Qed.

Lemma prim_kept h e now offer r r' :
  prim now offer r r' -> After now e = false -> Before (GoTime.Add now (replayFilterTTL c)) e = false ->
  kept_until h e (replayCommittedTx r) -> kept_until h e (replayCommittedTx r').
Proof.
  intros H Hnow Hexp Hk. destruct H as [h1 r _|h1 e1 r He1 Ha1|r|r r' ->]; [| | |done].
  - destruct (replayFilterEnabled c) eqn:Hen; [|by rewrite remember_disabled].
    destruct (remember_cases h1 now r Hen) as (kept & -> & Hc). apply kept_until_insert; [done|].
    apply (kept_until_live _ _ now) in Hk; [|done].
    destruct Hc as [[-> _]|(h0 & e0 & H0 & -> & Hf & Hmin)]; [done|]. by eapply kept_until_evict.
  - assert (Hb : Before e1 e = true).
    { destruct (Before e1 e) eqn:Hb; [done|]. unfold Before in Hb. rewrite After_false in Hb, Hnow. rewrite After_true in Ha1. lia. }
    destruct Hk as [(e' & Hl & He)|(_ & _ & Hall)]; [|by rewrite (Hall _ _ He1) in Hb].
    left. exists e'. cbn. rewrite lookup_delete_ne; [done|]. intros ->. congruence.
  - by apply kept_until_live.
Qed.

Lemma remember_kept h now r : replayFilterEnabled c = true ->
  kept_until h (GoTime.Add now (replayFilterTTL c)) (replayCommittedTx (rememberCommittedTxHash c range h now r)).
Proof.
  intros Hen. destruct (remember_cases h now r Hen) as (kept & -> & _). left. rewrite lookup_insert_eq.
  eexists. split; [done|]. apply After_irrefl.
Qed.

(** Every hash in the filter was offered. *)
Definition all_offered (ops : list replay_op) (m : gmap bytes Time) : Prop :=
  forall h, is_Some (m !! h) -> exists o, o ∈ ops /\ offered o h.

Lemma prim_offered ops o r r' : o ∈ ops -> prim (op_time o) (offered o) r r' ->
  all_offered ops (replayCommittedTx r) -> all_offered ops (replayCommittedTx r').
Proof.
  intros Ho H Hall h' [x Hx]. destruct H as [h r Hh|h e r He _|r|r r' Heq].
  - destruct (replayFilterEnabled c) eqn:Hen; [|rewrite remember_disabled in Hx by done; apply Hall; by eexists].
    destruct (remember_cases h (op_time o) r Hen) as (kept & Heq & Hc). rewrite Heq, lookup_insert in Hx.
    case_decide as Hd; [subst; by exists o|].
    assert (Hl : filter (fun kv => After (op_time o) kv.2 = false) (replayCommittedTx r) !! h' = Some x).
    { destruct Hc as [[-> _]|(h0 & e0 & _ & -> & _ & _)]; [done|]. by apply lookup_delete_Some in Hx as [_ ?]. }
    apply map_lookup_filter_Some in Hl as [Hl _]. apply Hall. by eexists.
  - cbn in Hx. apply lookup_delete_Some in Hx as [_ Hx]. apply Hall. by eexists.
  - apply map_lookup_filter_Some in Hx as [Hl _]. apply Hall. by eexists.
  - rewrite Heq in Hx. apply Hall. by eexists.
Qed.
End filter_runs.

(** ** Lemmas on the queries *)

Lemma isCommitted_hit c h now r e : replayFilterEnabled c = true -> replayCommittedTx r !! h = Some e -> After now e = false ->
  isCommittedTxHash c h now r = (true, r).
Proof. intros Hen Hl Ha. unfold isCommittedTxHash. by rewrite Hen, Hl, Ha. Qed.

(** A query changes no other entry, and none that is alive. *)
Lemma isCommitted_keeps c h' now r h e : replayCommittedTx r !! h = Some e -> After now e = false ->
  replayCommittedTx (isCommittedTxHash c h' now r).2 !! h = Some e.
Proof.
  intros Hl Ha. unfold isCommittedTxHash. destruct (negb _); [done|]. destruct (_ !! h') as [e'|] eqn:He; [|done].
  destruct (After now e') eqn:Ha'; [|done]. cbn. rewrite lookup_delete_ne; [done|]. intros ->. congruence.
Qed.

(** The transactions a filter knows at a time. *)
Definition known_at (c : ReplayConfig) (now : Time) (r : Replay) (tx : Transaction) : Prop :=
  match txIdentityHash tx with
  | Some h => match replayCommittedTx r !! h with Some e => After now e = false | None => False end
  | None => False
  end.
#[export] Instance known_at_dec c now r tx : Decision (known_at c now r tx).
Proof. unfold known_at. repeat case_match; apply _. Defined.

Lemma isCommitted_known c h now r : replayFilterEnabled c = true ->
  (isCommittedTxHash c h now r).1 = true <-> exists e, replayCommittedTx r !! h = Some e /\ After now e = false.
Proof.
  intros Hen. unfold isCommittedTxHash. rewrite Hen. cbn. destruct (_ !! h) as [e|]; [|naive_solver].
  destruct (After now e) eqn:Ha; cbn; naive_solver.
Qed.

(** What is known does not change while a block is filtered. *)
Lemma isCommitted_known_same c h now r tx : known_at c now (isCommittedTxHash c h now r).2 tx <-> known_at c now r tx.
Proof.
  unfold known_at. destruct (txIdentityHash tx) as [h1|]; [|done]. unfold isCommittedTxHash.
  destruct (negb _); [done|]. destruct (_ !! h) as [e|] eqn:He; [|done]. destruct (After now e) eqn:Ha; [|done]. cbn.
  destruct (decide (h = h1)) as [->|Hne]; [rewrite lookup_delete_eq, He, Ha; done|]. by rewrite lookup_delete_ne.
Qed.

Lemma filter_txs_spec c now l r : replayFilterEnabled c = true ->
  (filter_txs c now l r).1 = (filter (fun tx => ~ known_at c now r tx) l, len (filter (known_at c now r) l)).
Proof.
  intros Hen. revert r. induction l as [|tx l IH]; intros r; [done|]. cbn [filter_txs].
  set (q := match txIdentityHash tx with Some hash => isCommittedTxHash c hash now r | None => (false, r) end).
  assert (Hq : q.1 = true <-> known_at c now r tx).
  { unfold q, known_at. destruct (txIdentityHash tx) as [h|]; [|done].
    rewrite isCommitted_known by done. destruct (_ !! h); naive_solver. }
  assert (Hs : forall x, known_at c now q.2 x <-> known_at c now r x).
  { unfold q. destruct (txIdentityHash tx); [intros x; apply isCommitted_known_same|done]. }
  destruct q as [known r1]. cbn in Hq, Hs. specialize (IH r1).
  assert (H1 : filter (fun x => ~ known_at c now r1 x) l = filter (fun x => ~ known_at c now r x) l).
  { apply filter_ext_in. intros x _. by rewrite Hs. }
  assert (H2 : filter (known_at c now r1) l = filter (known_at c now r) l).
  { apply filter_ext_in. intros x _. by rewrite Hs. }
  rewrite H1, H2 in IH. destruct (filter_txs c now l r1) as [[f n] r2]. cbn in IH. injection IH as -> ->.
  rewrite !filter_cons. destruct known; repeat case_decide; try tauto; cbn;
    try (assert (false = true) by tauto; done).
  f_equal. unfold len. cbn. lia.
Qed.

(** ** Identities *)

Record tx_identity := MkIdentity { id_Type : TxType; id_Timestamp : Z; id_ProducerID : bytes; id_Nonce : bytes; id_ContentHash : bytes }.
Definition identity_of (tx : Transaction) : tx_identity :=
  MkIdentity (Type_ tx) (Timestamp tx) (ProducerID (Envelope_ tx)) (Nonce (Envelope_ tx)) (EnvContentHash (Envelope_ tx)).

Lemma BuildSignBytes_inj d ts p n h d' ts' p' n' h' b : txn_domain d -> txn_domain d' -> int64 ts -> int64 ts' ->
  BuildSignBytes d ts p n h = Ok b -> BuildSignBytes d' ts' p' n' h' = Ok b ->
  d = d' /\ ts = ts' /\ p = p' /\ n = n' /\ h = h'.
Proof.
  intros Hd Hd' Ht Ht' (Hp & Hn & ->)%BuildSignBytes_ok (Hp' & Hn' & H)%BuildSignBytes_ok.
  apply nul_prefix_inj in H as [-> H]; [|by apply txn_domain_no_nul..].
  apply app_inj_len in H as [H1 H]; [|by rewrite !length_be_put]. apply be_put8_u64_inj in H1; [|done..].
  apply app_inj_len in H as [H2 H]; [|by rewrite !length_be_put].
  unfold MaxProducerIDSize, NonceSize in *. rewrite !Z.mod_small in H2 by lia.
  apply be_put_inj in H2; [|change (256 ^ Z.of_nat 2) with 65536; lia..].
  apply app_inj_len in H as [-> H]; [|unfold len in *; lia]. apply app_inj_len in H as [-> ->]; [done|unfold len in *; lia].
Qed.

(** SHA-256 has a collision on the hash [h]. *)
Definition hash_broken (h : bytes) : Prop := exists x y, Collides x y /\ sha256 x = h.

Lemma txIdentityHash_Some tx h : txIdentityHash tx = Some h -> exists d b,
  d = match Type_ tx with TxEvent => DomainEventTx | TxEvidence => DomainEvidenceTx | TxPolicy => DomainPolicyTx end /\
  BuildSignBytes d (Timestamp tx) (ProducerID (Envelope_ tx)) (Nonce (Envelope_ tx)) (EnvContentHash (Envelope_ tx)) = Ok b /\
  sha256 b = h.
Proof.
  unfold txIdentityHash, HashBytes. destruct (BuildSignBytes _ _ _ _ _) as [b|] eqn:Hb; [|done].
  intros H. eexists _, b. split_and!; [done|exact Hb|congruence].
Qed.

Lemma txIdentityHash_inj tx tx' h : int64 (Timestamp tx) -> int64 (Timestamp tx') ->
  txIdentityHash tx = Some h -> txIdentityHash tx' = Some h -> identity_of tx = identity_of tx' \/ hash_broken h.
Proof.
  intros Ht Ht' (d & b & Hd & Hb & Hh)%txIdentityHash_Some (d' & b' & Hd' & Hb' & Hh')%txIdentityHash_Some.
  destruct (sha256_inj_or_collision b b') as [<-|Hc]; [congruence| |right; by exists b, b']. left.
  assert (Hdom : txn_domain d) by (subst d; unfold txn_domain; destruct (Type_ tx); auto).
  assert (Hdom' : txn_domain d') by (subst d'; unfold txn_domain; destruct (Type_ tx'); auto).
  destruct (BuildSignBytes_inj _ _ _ _ _ _ _ _ _ _ _ Hdom Hdom' Ht Ht' Hb Hb') as (He & H1 & H2 & H3 & H4).
  unfold identity_of. f_equal; try done. subst d d'. by destruct (Type_ tx), (Type_ tx').
Qed.

(** ** Properties *)

(** However the filter is used, it never holds more entries than its maximum. *)
Theorem filter_bounded (c : ReplayConfig) (range : visit_order bytes Time) (ops : list replay_op) (Hmax : 0 < replayFilterMax c) :
  Z.of_nat (size (replayCommittedTx (run_ops c range ops NewReplay))) <= replayFilterMax c.
Proof.
  apply (run_ops_invariant c range (within_max c)); [| |done].
  2: { intros _. change (replayCommittedTx NewReplay) with (∅ : gmap bytes Time). rewrite map_size_empty. lia. }
  intros o r r' _. apply prim_within_max.
Qed.

(** The times at which a hash remembered at [t] has not expired. *)
Definition while_fresh (c : ReplayConfig) (t now : Time) : Prop :=
  time_sane now /\ After t now = false /\ After now (GoTime.Add t (replayFilterTTL c)) = false.

Lemma remember_txs_kept c range tx h t txs r : replayFilterEnabled c = true ->
  After t (GoTime.Add t (replayFilterTTL c)) = false -> txIdentityHash tx = Some h -> tx ∈ txs ->
  kept_until c h (GoTime.Add t (replayFilterTTL c)) (replayCommittedTx (rememberCommittedTransactions c range txs t r)).
Proof.
  intros Hen Hpos Hid Hin. unfold rememberCommittedTransactions. rewrite Hen. cbn.
  revert r. induction txs as [|x l IH]; intros r; [by apply elem_of_nil in Hin|]. cbn.
  apply elem_of_cons in Hin as [<-|Hin]; [|by apply IH]. rewrite Hid.
  pose proof (remember_kept c range h t r Hen) as H.
  revert H. generalize (rememberCommittedTxHash c range h t r). clear IH r. induction l as [|y l IH]; intros r H; [done|].
  cbn. apply IH. destruct (txIdentityHash y) as [h'|]; [|done].
  eapply (prim_kept c range _ _ t (fun _ => True)); [by apply prim_remember|done|apply After_irrefl|done].
Qed.

(** C27. A committed transaction is refused at admission and filtered out of every block
    until its entry expires, whatever happens in between, unless the filter is full (up
    to one place) of transactions that expire no earlier. *)
Theorem committed_refused (c : ReplayConfig) (range : visit_order bytes Time) (r : Replay) (l : list Transaction)
  (t now : Time) (tx : Transaction) (h : bytes) (ops : list replay_op)
  (Hen : replayFilterEnabled c = true) (Httl : 0 <= replayFilterTTL c <= MaxInt64) (Ht : time_sane t)
  (Htx : tx ∈ l) (Hid : txIdentityHash tx = Some h)
  (Hops : Forall (fun o => while_fresh c t (op_time o)) ops) (Hnow : while_fresh c t now) :
  let r' := run_ops c range ops (rememberCommittedTransactions c range l t r) in
  ((shouldRejectReplayOnAdmit c tx now r').1 = true /\
   forall blk, tx ∉ txs (filterCommittedTxFromBlock c blk now r').1.1) \/
  (0 < replayFilterMax c /\ replayFilterMax c - 1 <= Z.of_nat (size (replayCommittedTx r')) /\
   forall h' e', replayCommittedTx r' !! h' = Some e' -> Before e' (GoTime.Add t (replayFilterTTL c)) = false).
Proof.
  cbv zeta. set (r' := run_ops _ _ _ _). set (e := GoTime.Add t (replayFilterTTL c)).
  assert (Hd : MinInt64 <= replayFilterTTL c <= MaxInt64) by (unfold MinInt64; lia).
  assert (Hte : After t e = false).
  { destruct (Add_nanos t (replayFilterTTL c) Ht Hd). destruct Ht. unfold e. rewrite After_nanos by done. apply Z.ltb_ge. lia. }
  assert (Hk : kept_until c h e (replayCommittedTx r')).
  { apply (run_ops_invariant c range (kept_until c h e)); [|by apply (remember_txs_kept c range tx)].
    rewrite Forall_forall in Hops. intros o r1 r2 Ho Hp. destruct (Hops o Ho) as (Hs & Ha & Hb).
    eapply prim_kept; [exact Hp|done|]. apply (After_Add_mono e t); auto; [apply Add_nanos; auto|apply After_irrefl]. }
  destruct Hk as [(e' & Hl & He')|Hk]; [left|by right].
  destruct Hnow as (Hs & Ha & Hb). assert (Hal : After now e' = false).
  { fold e in Hb. unfold Before in He'. rewrite After_false in *. lia. }
  split.
  - unfold shouldRejectReplayOnAdmit. rewrite Hen, Hid, (isCommitted_hit c h now r' e') by done. done.
  - intros blk. assert (Hkn : known_at c now r' tx) by (unfold known_at; by rewrite Hid, Hl).
    unfold filterCommittedTxFromBlock. rewrite Hen. cbn [negb].
    destruct (len (txs blk) =? 0) eqn:H0.
    { go_bool. cbn. destruct (txs blk); [apply not_elem_of_nil|unfold len in H0; cbn in H0; lia]. }
    pose proof (filter_txs_spec c now (txs blk) r' Hen) as Hf. destruct (filter_txs c now (txs blk) r') as [[f n] r1].
    cbn in Hf. injection Hf as -> ->. destruct (len (filter (known_at c now r') (txs blk)) =? 0) eqn:Hz; cbn.
    + intros Hin. go_bool. assert (Hin' : tx ∈ filter (known_at c now r') (txs blk)) by (by apply list_elem_of_filter).
      destruct (filter (known_at c now r') (txs blk)); [by apply elem_of_nil in Hin'|]. unfold len in Hz. cbn in Hz. lia.
    + by intros [? _]%list_elem_of_filter.
Qed.

(** A transaction is only refused for one that was committed here, with the same type,
    timestamp, producer, nonce and content hash, or for a hash the database lists,
    unless SHA-256 fails. *)
Theorem refused_was_committed (c : ReplayConfig) (range : visit_order bytes Time) (ops : list replay_op) (now : Time) (tx : Transaction)
  (Hts : int64 (Timestamp tx)) (Hall : forall l t tx', ORemember l t ∈ ops -> tx' ∈ l -> int64 (Timestamp tx'))
  (H : (shouldRejectReplayOnAdmit c tx now (run_ops c range ops NewReplay)).1 = true) :
  exists h, txIdentityHash tx = Some h /\
    ((exists l t tx', ORemember l t ∈ ops /\ tx' ∈ l /\ identity_of tx' = identity_of tx) \/ hash_broken h \/
     exists b nl po latest lb t n metas, ORefresh b nl po latest lb t ∈ ops /\ lb n = Some metas /\ h ∈ metas).
Proof.
  unfold shouldRejectReplayOnAdmit in H. destruct (replayFilterEnabled c) eqn:Hen; [|done]. cbn in H.
  destruct (txIdentityHash tx) as [h|] eqn:Hid; [|done]. exists h. split; [done|].
  pose proof (isCommitted_known c h now (run_ops c range ops NewReplay) Hen) as Hk.
  destruct (isCommittedTxHash c h now (run_ops c range ops NewReplay)) as [[] r1]; [|done]. cbn in Hk.
  destruct (proj1 Hk eq_refl) as (e & He & _).
  assert (Ho : all_offered ops (replayCommittedTx (run_ops c range ops NewReplay))).
  { apply run_ops_invariant; [|by intros h' [x Hx]]. intros o r r' Hin Hp. by eapply prim_offered. }
  destruct (Ho h) as (o & Hin & Hoff); [by eexists|].
  destruct o as [l t|? ?|? ?|?|b nl po latest lb t]; cbn in Hoff; try done.
  - destruct Hoff as (tx' & Htx' & Hid'). destruct (txIdentityHash_inj tx' tx h) as [?|?]; [by eapply Hall|done..| |].
    + left. by exists l, t, tx'.
    + right. by left.
  - destruct Hoff as (n & metas & Hn & Hh). right. right. do 8 eexists. eauto.
Qed.

(** A block that passed the filter keeps its header and its root fits its
    transactions: exactly those that are not known, in their order; the count is of
    those left out, and a block without known transactions is passed on as it is. *)
Theorem filtered_block (c : ReplayConfig) (blk : AppBlock) (now : Time) (r : Replay)
  (Hen : replayFilterEnabled c = true) (Hr : rooted blk) :
  let '(b, rejected, _) := filterCommittedTxFromBlock c blk now r in
  rooted b /\ txs b = filter (fun tx => ~ known_at c now r tx) (txs blk) /\
  rejected = len (txs blk) - len (txs b) /\ (rejected = 0 -> b = blk) /\
  Block.height b = Block.height blk /\ parentHash b = parentHash blk /\ proposerID b = proposerID blk /\
  stateRootHint b = stateRootHint blk /\ timestamp b = timestamp blk.
Proof.
  assert (Hlen : forall l : list Transaction,
    len (filter (fun tx => ~ known_at c now r tx) l) + len (filter (known_at c now r) l) = len l).
  { unfold len. induction l as [|x l IH]; [done|]. rewrite !filter_cons. repeat case_decide; try tauto; cbn [length]; lia. }
  specialize (Hlen (txs blk)). unfold filterCommittedTxFromBlock. rewrite Hen. cbn [negb].
  destruct (len (txs blk) =? 0) eqn:H0.
  { go_bool. cbn. destruct (txs blk); [|unfold len in H0; cbn in H0; lia]. split_and!; done. }
  pose proof (filter_txs_spec c now (txs blk) r Hen) as Hf. destruct (filter_txs c now (txs blk) r) as [[f n] r1].
  cbn in Hf. injection Hf as -> ->. destruct (len (filter (known_at c now r) (txs blk)) =? 0) eqn:Hz.
  - go_bool. rewrite Hz in Hlen. assert (Hall : filter (fun tx => ~ known_at c now r tx) (txs blk) = txs blk).
    { apply list_filter_all, Forall_forall. intros x Hx Hk.
      assert (Hin : x ∈ filter (known_at c now r) (txs blk)) by (by apply list_elem_of_filter).
      destruct (filter (known_at c now r) (txs blk)); [by apply elem_of_nil in Hin|]. unfold len in Hz. cbn in Hz. lia. }
    rewrite Hall. split_and!; done || lia.
  - go_bool. split.
    + unfold rooted, NewAppBlock, with_hash. cbn [txRoot Block.txs txCount hash]. split_and!; [|reflexivity|reflexivity].
      rewrite computeTxRootForPayload_eq. unfold computeTxRootFromTransactions, root_pairs.
      destruct (filter _ (txs blk)); reflexivity.
    + unfold NewAppBlock, with_hash.
      cbn [Block.height parentHash proposerID stateRootHint timestamp Block.txs].
      split_and!; [reflexivity|lia|intros; lia|reflexivity..].
Qed.

(** ** Concrete runs *)

Definition demo_replay : ReplayConfig := MkReplayConfig true (30 * Minute) 2 true true 512 32.
Definition at_second (n : Z) : Time := time_Unix (1700000000 + n).

Definition demo_tx (n : byte) : Transaction := policy_tx n (str "allow").

(** Two blocks are committed, the second of which is the first again. *)
Definition demo_ops : list replay_op :=
  [ORemember [demo_tx x01; demo_tx x02] (at_second 1); OAdmit (demo_tx x01) (at_second 2);
   OBlock (demo_app_block [demo_tx x01; demo_tx x03]) (at_second 3)].

Lemma filter_bounded_witness :
  Z.of_nat (size (replayCommittedTx (run_ops demo_replay key_order demo_ops NewReplay))) <= 2.
Proof. apply (filter_bounded demo_replay key_order demo_ops). vm_compute. reflexivity. Defined.

Lemma at_second_eq n : 0 <= n <= 3600 -> at_second n = MkTime (1700000000 + n + unixToInternal) 0.
Proof. intros Hn. unfold at_second, time_Unix. rewrite i64_small by (unfold unixToInternal, MinInt64, MaxInt64; lia). done. Qed.

Lemma demo_fresh n : 1 <= n <= 60 -> while_fresh demo_replay (at_second 1) (at_second n).
Proof.
  intros Hn. assert (Hv : GoTime.Add (at_second 1) (replayFilterTTL demo_replay) = MkTime 63835598601 0) by (vm_compute; reflexivity).
  unfold while_fresh. rewrite Hv, !at_second_eq by lia. rewrite !After_false.
  unfold time_sane, time_wf, unixToInternal, Second. cbn [t_sec t_nsec]. lia.
Qed.

Definition demo_hash : bytes := default [] (txIdentityHash (demo_tx x01)).

Lemma committed_refused_witness :
  let r' := run_ops demo_replay key_order [OAdmit (demo_tx x01) (at_second 2)]
              (rememberCommittedTransactions demo_replay key_order [demo_tx x01; demo_tx x02] (at_second 1) NewReplay) in
  ((shouldRejectReplayOnAdmit demo_replay (demo_tx x01) (at_second 3) r').1 = true /\
   forall blk, demo_tx x01 ∉ txs (filterCommittedTxFromBlock demo_replay blk (at_second 3) r').1.1) \/
  (0 < 2 /\ 2 - 1 <= Z.of_nat (size (replayCommittedTx r')) /\
   forall h' e', replayCommittedTx r' !! h' = Some e' ->
     Before e' (GoTime.Add (at_second 1) (replayFilterTTL demo_replay)) = false).
Proof.
  apply (committed_refused demo_replay key_order NewReplay [demo_tx x01; demo_tx x02] (at_second 1) (at_second 3) (demo_tx x01) demo_hash).
  - reflexivity.
  - vm_compute. split; discriminate.
  - apply demo_fresh. lia.
  - by left.
  - vm_compute. reflexivity.
  - apply Forall_singleton. apply demo_fresh. lia.
  - apply demo_fresh. lia.
Defined.

Lemma refused_was_committed_witness :
  exists h, txIdentityHash (demo_tx x01) = Some h /\
    ((exists l t tx', ORemember l t ∈ take 1 demo_ops /\ tx' ∈ l /\ identity_of tx' = identity_of (demo_tx x01)) \/ hash_broken h \/
     exists b nl po latest lb t n metas, ORefresh b nl po latest lb t ∈ take 1 demo_ops /\ lb n = Some metas /\ h ∈ metas).
Proof.
  apply (refused_was_committed demo_replay key_order (take 1 demo_ops) (at_second 2) (demo_tx x01)).
  - unfold int64. vm_compute. split; discriminate.
  - intros l t tx' [= -> ->]%list_elem_of_singleton Hin.
    repeat (apply elem_of_cons in Hin as [->|Hin]; [unfold int64; vm_compute; split; discriminate|]). by apply elem_of_nil in Hin.
  - vm_compute. reflexivity.
Defined.

Lemma filtered_block_witness :
  let r := run_ops demo_replay key_order (take 1 demo_ops) NewReplay in
  let blk := demo_app_block [demo_tx x01; demo_tx x03] in
  let '(b, rejected, _) := filterCommittedTxFromBlock demo_replay blk (at_second 3) r in
  rooted b /\ txs b = filter (fun tx => ~ known_at demo_replay (at_second 3) r tx) (txs blk) /\
  rejected = len (txs blk) - len (txs b) /\ (rejected = 0 -> b = blk) /\
  Block.height b = Block.height blk /\ parentHash b = parentHash blk /\ proposerID b = proposerID blk /\
  stateRootHint b = stateRootHint blk /\ timestamp b = timestamp blk.
Proof.
  apply (filtered_block demo_replay (demo_app_block [demo_tx x01; demo_tx x03]) (at_second 3)
           (run_ops demo_replay key_order (take 1 demo_ops) NewReplay)); [reflexivity|apply NewAppBlock_rooted].
Defined.

(** A refresh that lists a hash the full filter holds already drops another one, which
    is then taken for new: two places, both taken, are one after the refresh. *)
Example refresh_forgets :
  let full := run_ops demo_replay key_order (take 1 demo_ops) NewReplay in
  let refresh := ORefresh false false false (Some 1) (fun _ => Some [default [] (txIdentityHash (demo_tx x02))]) (at_second 5) in
  let after := run_ops demo_replay key_order [refresh; refresh] full in
  (size (replayCommittedTx full), size (replayCommittedTx after),
   (shouldRejectReplayOnAdmit demo_replay (demo_tx x01) (at_second 6) full).1,
   (shouldRejectReplayOnAdmit demo_replay (demo_tx x01) (at_second 6) after).1) = (2%nat, 1%nat, true, false).
Proof. vm_compute. reflexivity. Qed.
