(* ===== verification/Consumer.v ===== *)
(** backend/pkg/ingest/kafka, consumer.go, preadmit.go and admission_helpers.go, with the
    error classes of consumercontract: a message from Kafka is decoded, verified, offered
    to the hooks and to the mempool, retried or marked. *)
From S2P Require Import Prelude Bytes Sha256 GoTime GoFloat GoStrings GoJson Codec Heap Mempool Crypto Ingest.
From stdpp Require Import pretty.
Import Codec Model Json.
Local Open Scope Z_scope.

(** ** Errors *)

(** The errors [processMessage] returns, as far as they are told apart. [EHook] is an
    error of a hook that is none of the others. *)
Inductive ingest_error :=
| EUnknownTopic | EVerify (e : verify_error) | EReplayRejected | EPreAdmit (reason : bytes) (cause : option ingest_error)
| EHookPanic | EMempool (e : mp_error) | EDeadlineExceeded | ECanceled | EHook.

(** [errors.Is] goes along the causes. *)
Fixpoint errors_is (p : ingest_error -> bool) (e : ingest_error) : bool :=
  p e || match e with EPreAdmit _ (Some cause) => errors_is p cause | _ => false end.

Definition is_replay (e : ingest_error) : bool := match e with EReplayRejected => true | _ => false end.
Definition is_mempool (l : list mp_error) (e : ingest_error) : bool := match e with EMempool e => bool_decide (e ∈ l) | _ => false end.

(** The reasons are constants in ASCII. *)
Definition NewPreAdmitRejected (reason : bytes) (cause : option ingest_error) : ingest_error :=
  let normalized := lowered reason in
  EPreAdmit (if is_empty normalized then str "pre_admit_rejected" else normalized) cause.
Definition PreAdmitReason (e : ingest_error) : option bytes := match e with EPreAdmit reason _ => Some reason | _ => None end.
Definition sanitizeReasonKey (reason : bytes) : bytes := let r := lowered reason in if is_empty r then str "unknown" else r.

Inductive ErrorClass := ErrorClassPermanent | ErrorClassTransient | ErrorClassTimeout | ErrorClassCanceled.
#[export] Instance ErrorClass_eq_dec : EqDecision ErrorClass.
Proof. solve_decision. Defined.

Definition ClassifyContextError (e : ingest_error) : option ErrorClass :=
  if errors_is (fun e => match e with EDeadlineExceeded => true | _ => false end) e then Some ErrorClassTimeout
  else if errors_is (fun e => match e with ECanceled => true | _ => false end) e then Some ErrorClassCanceled
  else None.

Definition classifyProcessError (e : ingest_error) : option ErrorClass :=
  match ClassifyContextError e with
  | Some class => Some class
  | None =>
      if errors_is (is_mempool [ErrRateLimited; ErrMempoolFull]) e then Some ErrorClassTransient
      else if errors_is is_replay e || errors_is (is_mempool [ErrDuplicate; ErrInvalidTx]) e then Some ErrorClassPermanent
      else None
  end.

Definition isPermanentErr (e : ingest_error) : bool :=
  match classifyProcessError e with
  | Some class => bool_decide (class = ErrorClassPermanent)
  | None => negb (errors_is (is_mempool [ErrRateLimited; ErrMempoolFull]) e)
  end.

(** ** The consumer *)

Record message := MkMessage { g_Topic : bytes; g_Partition : Z; g_Offset : Z; g_Value : bytes }.

Definition topicAnomalies : bytes := str "ai.anomalies.v1".
Definition topicEvidence : bytes := str "ai.evidence.v1".
Definition topicPolicy : bytes := str "ai.policy.v1".

Record ConsumerConfig := MkConsumerConfig {
  Brokers : list bytes; GroupID : bytes; Topics : list bytes; DLQTopic : bytes; VerifierCfg : VerifierConfig;
  RetryMax : Z; RetryBackoffBase : Z; RetryBackoffMax : Z }.

(** The counters, all from zero by one; they stay far below [2^64]. *)
Record counters := MkCounters {
  messagesConsumed : Z; messagesVerified : Z; messagesAdmitted : Z; messagesFailed : Z; messagesRetried : Z;
  transientFailures : Z; replayRejectedAdmit : Z;
  preAdmitRejected : gmap bytes Z; classAdmitted : gmap bytes Z; classRejected : gmap bytes Z }.

Record partitions := MkPartitions {
  partitionOffsets : gmap bytes Z; partitionLag : gmap bytes Z; partitionHighwater : gmap bytes Z; topicPartitions : gmap bytes Z;
  assignedParts : Z }.

Record Consumer := MkConsumer {
  topics : list bytes; verifierCfg : VerifierConfig; dlqTopic : bytes; groupID : bytes; closed : bool;
  retryMax : Z; retryBackoffBase : Z; retryBackoffMax : Z; lifecycleMode : bytes; lifecycleRollbackEnabled : bool;
  counts : counters; parts : partitions; lastMessageUnix : Z }.

Definition with_counts f (c : Consumer) : Consumer :=
  MkConsumer (topics c) (verifierCfg c) (dlqTopic c) (groupID c) (closed c) (retryMax c) (retryBackoffBase c) (retryBackoffMax c)
    (lifecycleMode c) (lifecycleRollbackEnabled c) (f (counts c)) (parts c) (lastMessageUnix c).
Definition with_parts f (c : Consumer) : Consumer :=
  MkConsumer (topics c) (verifierCfg c) (dlqTopic c) (groupID c) (closed c) (retryMax c) (retryBackoffBase c) (retryBackoffMax c)
    (lifecycleMode c) (lifecycleRollbackEnabled c) (counts c) (f (parts c)) (lastMessageUnix c).
Definition with_closed (b : bool) (c : Consumer) : Consumer :=
  MkConsumer (topics c) (verifierCfg c) (dlqTopic c) (groupID c) b (retryMax c) (retryBackoffBase c) (retryBackoffMax c)
    (lifecycleMode c) (lifecycleRollbackEnabled c) (counts c) (parts c) (lastMessageUnix c).

Definition no_counts : counters := MkCounters 0 0 0 0 0 0 0 ∅ ∅ ∅.
Definition no_partitions : partitions := MkPartitions ∅ ∅ ∅ ∅ 0.

Inductive consumer_error := ErrNoBrokers | ErrNoGroup | ErrNoTopics | ErrNoMempool | ErrCreate | ErrCreateDLQ | ErrClosed | ErrCloseFailed.

Definition is_nil {A} (l : list A) : bool := match l with [] => true | _ => false end.
Definition positive_or (x d : Z) : Z := if x <=? 0 then d else x.

(** [created] and [dlq_created] say whether the clients of the brokers could be made. *)
Definition NewConsumer (cfg : ConsumerConfig) (mempool created dlq_created : bool) : result consumer_error Consumer :=
  if is_nil (Brokers cfg) then Err ErrNoBrokers
  else if is_nil (GroupID cfg) then Err ErrNoGroup
  else if is_nil (Topics cfg) then Err ErrNoTopics
  else if negb mempool then Err ErrNoMempool
  else if negb created then Err ErrCreate
  else if negb (is_nil (DLQTopic cfg)) && negb dlq_created then Err ErrCreateDLQ
  else
    Ok (MkConsumer (Topics cfg) (VerifierCfg cfg) (DLQTopic cfg) (GroupID cfg) false
         (positive_or (RetryMax cfg) 5) (positive_or (RetryBackoffBase cfg) (100 * Millisecond)) (positive_or (RetryBackoffMax cfg) (5 * Second))
         (str "enforce") true no_counts no_partitions 0).

Definition Start (c : Consumer) : result consumer_error unit := if closed c then Err ErrClosed else Ok tt.
(** [group_closed]: the consumer group closes without an error. *)
Definition Stop (group_closed : bool) (c : Consumer) : result consumer_error unit * Consumer :=
  if closed c then (Ok tt, c) else (if group_closed then Ok tt else Err ErrCloseFailed, with_closed true c).

Definition SetLifecycleAdmissionMode (mode : bytes) (rollbackEnabled : bool) (c : Consumer) : Consumer :=
  let m := lowered mode in
  MkConsumer (topics c) (verifierCfg c) (dlqTopic c) (groupID c) (closed c) (retryMax c) (retryBackoffBase c) (retryBackoffMax c)
    (if is_empty m then str "enforce" else m) rollbackEnabled (counts c) (parts c) (lastMessageUnix c).

(** *** Statistics *)

Definition bump (key : bytes) (m : gmap bytes Z) : gmap bytes Z := <[key := default 0 (m !! key) + 1]> m.

Definition incrementConsumed (k : counters) : counters :=
  MkCounters (messagesConsumed k + 1) (messagesVerified k) (messagesAdmitted k) (messagesFailed k) (messagesRetried k)
    (transientFailures k) (replayRejectedAdmit k) (preAdmitRejected k) (classAdmitted k) (classRejected k).
Definition incrementVerified (k : counters) : counters :=
  MkCounters (messagesConsumed k) (messagesVerified k + 1) (messagesAdmitted k) (messagesFailed k) (messagesRetried k)
    (transientFailures k) (replayRejectedAdmit k) (preAdmitRejected k) (classAdmitted k) (classRejected k).
Definition incrementAdmitted (k : counters) : counters :=
  MkCounters (messagesConsumed k) (messagesVerified k) (messagesAdmitted k + 1) (messagesFailed k) (messagesRetried k)
    (transientFailures k) (replayRejectedAdmit k) (preAdmitRejected k) (classAdmitted k) (classRejected k).
Definition incrementFailed (k : counters) : counters :=
  MkCounters (messagesConsumed k) (messagesVerified k) (messagesAdmitted k) (messagesFailed k + 1) (messagesRetried k)
    (transientFailures k) (replayRejectedAdmit k) (preAdmitRejected k) (classAdmitted k) (classRejected k).
Definition incrementRetried (k : counters) : counters :=
  MkCounters (messagesConsumed k) (messagesVerified k) (messagesAdmitted k) (messagesFailed k) (messagesRetried k + 1)
    (transientFailures k) (replayRejectedAdmit k) (preAdmitRejected k) (classAdmitted k) (classRejected k).
Definition incrementTransientFailure (k : counters) : counters :=
  MkCounters (messagesConsumed k) (messagesVerified k) (messagesAdmitted k) (messagesFailed k) (messagesRetried k)
    (transientFailures k + 1) (replayRejectedAdmit k) (preAdmitRejected k) (classAdmitted k) (classRejected k).
Definition incrementReplayRejectedAdmit (k : counters) : counters :=
  MkCounters (messagesConsumed k) (messagesVerified k) (messagesAdmitted k) (messagesFailed k) (messagesRetried k)
    (transientFailures k) (replayRejectedAdmit k + 1) (preAdmitRejected k) (classAdmitted k) (classRejected k).
Definition incrementPreAdmitRejected (reason : bytes) (k : counters) : counters :=
  MkCounters (messagesConsumed k) (messagesVerified k) (messagesAdmitted k) (messagesFailed k) (messagesRetried k)
    (transientFailures k) (replayRejectedAdmit k) (bump (sanitizeReasonKey reason) (preAdmitRejected k)) (classAdmitted k) (classRejected k).
Definition incrementClassAdmitted (class : bytes) (k : counters) : counters :=
  MkCounters (messagesConsumed k) (messagesVerified k) (messagesAdmitted k) (messagesFailed k) (messagesRetried k)
    (transientFailures k) (replayRejectedAdmit k) (preAdmitRejected k) (bump (normalizePriorityClass class) (classAdmitted k)) (classRejected k).
Definition incrementClassRejected (class : bytes) (k : counters) : counters :=
  MkCounters (messagesConsumed k) (messagesVerified k) (messagesAdmitted k) (messagesFailed k) (messagesRetried k)
    (transientFailures k) (replayRejectedAdmit k) (preAdmitRejected k) (classAdmitted k) (bump (normalizePriorityClass class) (classRejected k)).

Definition setLastMessageTime (t : Time) (c : Consumer) : Consumer :=
  MkConsumer (topics c) (verifierCfg c) (dlqTopic c) (groupID c) (closed c) (retryMax c) (retryBackoffBase c) (retryBackoffMax c)
    (lifecycleMode c) (lifecycleRollbackEnabled c) (counts c) (parts c) (Unix t).

(** [fmt.Sprintf("%s-%d", topic, partition)]. *)
Definition partition_key (topic : bytes) (partition : Z) : bytes := topic ++ str "-" ++ str (pretty partition).

Definition resetPartitionTracking (p : partitions) : partitions := MkPartitions ∅ ∅ ∅ ∅ (assignedParts p).
Definition setAssignedPartitions (n : Z) (p : partitions) : partitions :=
  MkPartitions (partitionOffsets p) (partitionLag p) (partitionHighwater p) (topicPartitions p) n.
Definition setTopicPartitionCount (topic : bytes) (count : Z) (p : partitions) : partitions :=
  MkPartitions (partitionOffsets p) (partitionLag p) (partitionHighwater p) (<[topic := count]> (topicPartitions p)) (assignedParts p).
Definition trackPartitionStats (topic : bytes) (partition offset lag highwater : Z) (p : partitions) : partitions :=
  let key := partition_key topic partition in
  MkPartitions (<[key := offset]> (partitionOffsets p)) (<[key := lag]> (partitionLag p)) (<[key := highwater]> (partitionHighwater p))
    (topicPartitions p) (assignedParts p).

(** [Setup] of a session, with the claims in the order the map is visited. *)
Definition Setup (claims : list (bytes * list Z)) (c : Consumer) : Consumer :=
  let c := with_parts resetPartitionTracking c in
  let c := foldl (fun c claim => with_parts (setTopicPartitionCount claim.1 (len claim.2)) c) c claims in
  with_parts (setAssignedPartitions (foldl (fun total claim => total + len claim.2) 0 claims)) c.

(** ** A message *)

(** What a call reads besides its arguments: the clock, in the order it is read, and the
    orders in which the mempool's map is visited. *)
Record instants := MkInstants {
  at_verify : Time; at_seen : Time; at_admit : Time; at_hook : nat -> Time; range_add : map_range; range_hook : map_range }.

(** The consumer, the mempool it fills, the state [ext] of its hooks, the messages routed
    to the dead letter queue and the offsets marked, the last one first. *)
Record node {X : Type} := MkNode {
  consumer : Consumer; pool : Mempool; ext : X; dlq : list (message * ingest_error); marked : list message }.
Arguments node : clear implicits.
Arguments MkNode {X}.

(** What a hook does: it returns an error or none, or panics. *)
Inductive hook_result := HookReturns (e : option ingest_error) | HookPanics.

(** The callbacks, which work on their own state, the one after an admission also on the
    mempool. Of a panic in the last two only the state it leaves remains. *)
Record Hooks {X : Type} := MkHooks {
  onPreAdmit : option (instants -> bytes -> Transaction -> X -> hook_result * X);
  onAdmitted : option (instants -> bytes -> Transaction -> Mempool * X -> Mempool * X);
  onAdmitFailed : option (instants -> bytes -> Transaction -> ingest_error -> X -> X) }.
Arguments Hooks : clear implicits.
Arguments MkHooks {X}.
Arguments onPreAdmit {X}.
Arguments onAdmitted {X}.
Arguments onAdmitFailed {X}.

Section consume.
Context {PB : Protobuf} {ED : Crypto.Ed25519} {X : Type} (h : Hooks X).

Definition upd (f : Consumer -> Consumer) (n : node X) : node X := MkNode (f (consumer n)) (pool n) (ext n) (dlq n) (marked n).
Definition count (f : counters -> counters) (n : node X) : node X := upd (with_counts f) n.
Definition set_pool (p : Mempool) (n : node X) : node X := MkNode (consumer n) p (ext n) (dlq n) (marked n).
Definition set_ext (x : X) (n : node X) : node X := MkNode (consumer n) (pool n) x (dlq n) (marked n).

Definition emitPreAdmit (at_ : instants) (topic : bytes) (tx : Transaction) (n : node X) : option ingest_error * node X :=
  match onPreAdmit h with
  | None => (None, n)
  | Some hook =>
      let '(r, x) := hook at_ topic tx (ext n) in
      (match r with HookReturns e => e | HookPanics => Some EHookPanic end, set_ext x n)
  end.
Definition emitAdmitted (at_ : instants) (topic : bytes) (tx : Transaction) (n : node X) : node X :=
  match onAdmitted h with
  | None => n
  | Some hook => let '(p, x) := hook at_ topic tx (pool n, ext n) in set_ext x (set_pool p n)
  end.
Definition emitAdmitFailed (at_ : instants) (topic : bytes) (tx : Transaction) (cause : ingest_error) (n : node X) : node X :=
  match onAdmitFailed h with None => n | Some hook => set_ext (hook at_ topic tx cause (ext n)) n end.

Definition processAnomalyMessage (c : VerifierConfig) (now : Time) (m : message) : result verify_error (Transaction * AdmissionMeta) :=
  msg ← DecodeAnomalyMsg (g_Value m);
  tx ← VerifyAnomalyMsg c now msg;
  Ok (AnEvent tx, ComputeMeta (MkMeta (am_Severity msg) (am_Confidence msg) p2)).
Definition processEvidenceMessage (c : VerifierConfig) (now : Time) (m : message) : result verify_error (Transaction * AdmissionMeta) :=
  msg ← DecodeEvidenceMsg (g_Value m);
  tx ← VerifyEvidenceMsg c now msg;
  Ok (AnEvidence tx, ComputeMeta (MkMeta 5 (f_of_Z 1) p2)).
Definition processPolicyMessage (c : VerifierConfig) (now : Time) (m : message) : result verify_error (Transaction * AdmissionMeta) :=
  msg ← DecodePolicyMsg (g_Value m);
  tx ← VerifyPolicyMsg c now msg;
  Ok (APolicy tx, ComputeMeta (MkMeta 8 (f_of_Z 1) (classifyPolicyPriorityClass (pm_Action msg) (pm_Params msg)))).

(** The handler of a topic. *)
Definition handler (topic : bytes) : option (VerifierConfig -> Time -> message -> result verify_error (Transaction * AdmissionMeta)) :=
  if bool_decide (topic = topicAnomalies) then Some processAnomalyMessage
  else if bool_decide (topic = topicEvidence) then Some processEvidenceMessage
  else if bool_decide (topic = topicPolicy) then Some processPolicyMessage
  else None.

Definition routeToDLQ (m : message) (e : ingest_error) (n : node X) : node X :=
  if is_empty (dlqTopic (consumer n)) then n else MkNode (consumer n) (pool n) (ext n) ((m, e) :: dlq n) (marked n).

(** The hook, the mempool and the hooks after it. *)
Definition offer (at_ : instants) (topic : bytes) (tx : Transaction) (meta : AdmissionMeta) : ST (node X) ingest_error unit := fun n =>
  match emitPreAdmit at_ topic tx n with
  | (Some e, n) =>
      let n := count (incrementPreAdmitRejected (default (str "other") (PreAdmitReason e))) n in
      (Err e, if errors_is is_replay e then count incrementReplayRejectedAdmit n else n)
  | (None, n) =>
      match Mempool.Add (range_add at_) (Some tx) meta (at_admit at_) (pool n) with
      | (Err e, p) =>
          let n := emitAdmitFailed at_ topic tx (EMempool e) (set_pool p n) in
          (Err (EMempool e), match ClassFullReason e with Some class => count (incrementClassRejected class) n | None => n end)
      | (Ok _, p) => (Ok tt, emitAdmitted at_ topic tx (count (incrementClassAdmitted (m_PriorityClass meta)) (set_pool p n)))
      end
  end.

Definition processMessage (at_ : instants) (m : message) : ST (node X) ingest_error unit :=
  match handler (g_Topic m) with
  | None => throw EUnknownTopic
  | Some handle =>
      c ← gets (fun n => verifierCfg (consumer n));
      match handle c (at_verify at_) m with
      | Err e => modify (routeToDLQ m (EVerify e)) ;; throw (EVerify e)
      | Ok (tx, meta) =>
          modify (count incrementVerified) ;;
          modify (upd (setLastMessageTime (at_seen at_))) ;;
          offer at_ (g_Topic m) tx meta
      end
  end.

(** ** A claim *)

(** One turn of the retry loop: what its call reads, and whether the session ends while
    the loop waits after it. *)
Record turn := MkTurn { t_at : instants; t_ended : bool }.

Inductive verdict := Accepted | Failed | Exhausted | Ended.
#[export] Instance verdict_eq_dec : EqDecision verdict.
Proof. solve_decision. Defined.

Definition MarkMessage (m : message) (n : node X) : node X := MkNode (consumer n) (pool n) (ext n) (dlq n) (m :: marked n).

Definition next_backoff (max backoff : Z) : Z := let b := i64 (backoff * 2) in if max <? b then max else b.

(** The turns from [k] on, [left] of them at most, with the waits between them. *)
Fixpoint attempt_loop (m : message) (turns : nat -> turn) (left k : nat) (backoff : Z) (n : node X) : verdict * list Z * node X :=
  match left with
  | O => (Exhausted, [], count incrementTransientFailure n)
  | S left' =>
      match processMessage (t_at (turns k)) m n with
      | (Ok _, n) => (Accepted, [], count incrementAdmitted (MarkMessage m n))
      | (Err e, n) =>
          if isPermanentErr e then (Failed, [], count incrementFailed (MarkMessage m n))
          else
            let n := count incrementRetried n in
            if t_ended (turns k) then (Ended, [backoff], n)
            else
              let '(v, waits, n) := attempt_loop m turns left' (S k) (next_backoff (retryBackoffMax (consumer n)) backoff) n in
              (v, backoff :: waits, n)
      end
  end.

Definition lag_of (hw offset : Z) : Z := let lag := if hw =? 0 then 0 else i64 (i64 (hw - offset) - 1) in if lag <? 0 then 0 else lag.

Definition handle_message (m : message) (hw : Z) (turns : nat -> turn) (n : node X) : verdict * list Z * node X :=
  let n := upd (with_parts (trackPartitionStats (g_Topic m) (g_Partition m) (g_Offset m) (lag_of hw (g_Offset m)) (Z.max hw (g_Offset m)))) n in
  let n := count incrementConsumed n in
  attempt_loop m turns (Z.to_nat (retryMax (consumer n))) 0 (retryBackoffBase (consumer n)) n.

(** What the two channels of a claim deliver: the end of the session, the zero value of the
    closed channel of messages, or a message with the high water mark at its time. *)
Inductive claim_event := SessionDone | ChannelClosed | Delivered (m : message) (hw : Z) (turns : nat -> turn).

(** Whether the loop has returned, has panicked, or waits for the next event. *)
Inductive claim_status := Returned | Panicked | Waiting.

(** The logger reads the topic of the message before the message is compared with nil. *)
Fixpoint ConsumeClaim (has_logger : bool) (events : list claim_event) (n : node X) : claim_status * node X :=
  match events with
  | [] => (Waiting, n)
  | SessionDone :: _ => (Returned, n)
  | ChannelClosed :: _ => (if has_logger then Panicked else Returned, n)
  | Delivered m hw turns :: events' =>
      match handle_message m hw turns n with
      | (Ended, _, n) => (Returned, n)
      | (_, _, n) => ConsumeClaim has_logger events' n
      end
  end.
End consume.
