(* ===== verification/ConsumerRuns.v ===== *)
(** The properties of the consumer for any hooks: every message is accounted for, how
    often and how long it is retried, and who signed what the mempool receives. *)
From S2P Require Import Prelude Bytes Sha256 GoTime GoFloat GoStrings GoJson Codec Heap Mempool MempoolSpec MempoolRuns Crypto CryptoRuns Ingest IngestRuns Consumer.
Import Codec Model Json.
Local Open Scope Z_scope.

(** ** Errors *)

(** The errors that are retried. *)
Definition transient (e : ingest_error) : bool :=
  errors_is (fun e => match e with EDeadlineExceeded | ECanceled => true | _ => is_mempool [ErrRateLimited; ErrMempoolFull] e end) e.

Lemma errors_is_or p q e : errors_is (fun e => p e || q e) e = errors_is p e || errors_is q e.
Proof.
  revert e. fix IH 1. intros e. destruct e; cbn; rewrite ?orb_false_r; try done.
  destruct cause as [c|]; rewrite ?orb_false_r; [|done]. rewrite IH. by destruct (p _), (q _), (errors_is p c).
Qed.

Lemma errors_is_ext p q e : (forall e, p e = q e) -> errors_is p e = errors_is q e.
Proof.
  intros H. revert e. fix IH 1. intros e. destruct e; cbn; rewrite ?H; try done. destruct cause as [c|]; [|done]. by rewrite IH.
Qed.

Lemma permanent_transient e : isPermanentErr e = negb (transient e).
Proof.
  assert (Ht : transient e = errors_is (fun e => match e with EDeadlineExceeded => true | _ => false end) e
    || (errors_is (fun e => match e with ECanceled => true | _ => false end) e || errors_is (is_mempool [ErrRateLimited; ErrMempoolFull]) e)).
  { rewrite <- !errors_is_or. apply errors_is_ext. by intros []. }
  rewrite Ht. unfold isPermanentErr, classifyProcessError, ClassifyContextError.
  destruct (errors_is _ e); [done|]. destruct (errors_is (fun e => match e with ECanceled => true | _ => false end) e); [done|].
  destruct (errors_is (is_mempool [ErrRateLimited; ErrMempoolFull]) e); [done|]. cbn. destruct (errors_is is_replay e || _); reflexivity.
Qed.

Section consume.
Context {PB : Protobuf} {ED : Crypto.Ed25519} {X : Type} (h : Hooks X).

(** ** What processing a message leaves alone *)

(** The marks, the settings, and the counters of what becomes of messages. *)
Definition core (n : node X) :=
  let c := consumer n in let k := counts c in
  (marked n, (verifierCfg c, retryMax c, retryBackoffBase c, retryBackoffMax c),
   (messagesConsumed k, messagesAdmitted k, messagesFailed k, messagesRetried k, transientFailures k)).

Lemma offer_core at_ topic tx meta n : core (offer h at_ topic tx meta n).2 = core n.
Proof.
  unfold offer, emitPreAdmit, emitAdmitFailed, emitAdmitted.
  repeat case_match; simplify_eq/=; done.
Qed.

(** [processMessage] with its state written out. *)
Definition seen (at_ : instants) (n : node X) : node X := upd (setLastMessageTime (at_seen at_)) (count incrementVerified n).

Lemma processMessage_eq at_ m n :
  processMessage h at_ m n =
    match handler (g_Topic m) with
    | None => (Err EUnknownTopic, n)
    | Some f =>
        match f (verifierCfg (consumer n)) (at_verify at_) m with
        | Err e => (Err (EVerify e), routeToDLQ m (EVerify e) n)
        | Ok (tx, meta) => offer h at_ (g_Topic m) tx meta (seen at_ n)
        end
    end.
Proof.
  unfold processMessage. destruct (handler _) as [f|]; [|done]. cbv [gets mbind ST_bind].
  by destruct (f _ _ _) as [[tx meta]|e].
Qed.

Lemma processMessage_core at_ m n : core (processMessage h at_ m n).2 = core n.
Proof.
  rewrite processMessage_eq. destruct (handler _) as [f|]; [|done]. destruct (f _ _ _) as [[tx meta]|e].
  - by rewrite offer_core.
  - cbn. unfold routeToDLQ. by destruct (is_empty _).
Qed.

Lemma processMessage_settled at_ m n r n1 : processMessage h at_ m n = (r, n1) -> core n1 = core n.
Proof. intros H. by rewrite <- (processMessage_core at_ m n), H. Qed.

(** ** The retry loop *)

Definition is_marked (v : verdict) : bool := match v with Accepted | Failed => true | _ => false end.
Definition one (b : bool) : Z := if b then 1 else 0.

(** What a verdict after some waits changes. *)
Definition settle (m : message) (v : verdict) (waits : list Z) (n : node X) :=
  let c := consumer n in let k := counts c in
  (if is_marked v then m :: marked n else marked n, (verifierCfg c, retryMax c, retryBackoffBase c, retryBackoffMax c),
   (messagesConsumed k, messagesAdmitted k + one (match v with Accepted => true | _ => false end),
    messagesFailed k + one (match v with Failed => true | _ => false end), messagesRetried k + len waits,
    transientFailures k + one (match v with Exhausted => true | _ => false end))).

Lemma settle_core m v waits n n1 : core n1 = core n -> settle m v waits n1 = settle m v waits n.
Proof. unfold core, settle. cbn zeta. intros H. injection H as -> -> -> -> -> -> -> -> -> ->. done. Qed.

Definition backoff_at (max base : Z) (i : nat) : Z := Nat.iter i (next_backoff max) base.

Lemma attempt_loop_spec m turns left k b n v waits n' :
  attempt_loop h m turns left k b n = (v, waits, n') ->
  core n' = settle m v waits n /\ (length waits <= left)%nat /\ (v = Exhausted -> length waits = left) /\
  (forall i w, waits !! i = Some w -> w = backoff_at (retryBackoffMax (consumer n)) b i).
Proof.
  revert k b n v waits n'. induction left as [|left IH]; intros k b n v waits n'; cbn [attempt_loop].
  { intros [= <- <- <-]. split_and!; [|done..]. unfold core, settle, one, len. cbn. by rewrite !Z.add_0_r. }
  destruct (processMessage h _ m n) as [r n1] eqn:Hp. apply processMessage_settled in Hp.
  assert (Hmax : retryBackoffMax (consumer n1) = retryBackoffMax (consumer n)) by (unfold core in Hp; congruence).
  destruct r as [u|e].
  { intros [= <- <- <-]. rewrite <- (settle_core _ _ _ _ _ Hp).
    split_and!; [|cbn; lia|done..]. unfold core, settle, one, len. cbn. by rewrite !Z.add_0_r. }
  destruct (isPermanentErr e).
  { intros [= <- <- <-]. rewrite <- (settle_core _ _ _ _ _ Hp).
    split_and!; [|cbn; lia|done..]. unfold core, settle, one, len. cbn. by rewrite !Z.add_0_r. }
  destruct (t_ended _).
  { intros [= <- <- <-]. rewrite <- (settle_core _ _ _ _ _ Hp).
    split_and!; [|cbn; lia|done|by intros [|[]] ? [= <-]]. unfold core, settle, one, len. cbn. by rewrite !Z.add_0_r. }
  destruct (attempt_loop _ _ _ _ _ _ _) as [[v1 ws] n2] eqn:Hl. intros [= <- <- <-].
  apply IH in Hl as (Hc & Hlen & Hex & Hw). cbn [length] in *. split_and!; [|lia|intros ->; by rewrite Hex|].
  - rewrite Hc, <- (settle_core _ _ _ _ _ Hp). unfold settle, len. cbn -[Z.of_nat]. by rewrite Nat2Z.inj_succ, <- Z.add_assoc, Z.add_1_l.
  - intros [|i] w Hi; [by injection Hi as <-|]. cbn in Hi. apply Hw in Hi as ->. cbn. rewrite Hmax.
    unfold backoff_at. by rewrite <- Nat.iter_succ_r.
Qed.

Lemma handle_message_spec m hw turns n v waits n' :
  handle_message h m hw turns n = (v, waits, n') ->
  core n' = settle m v waits (count incrementConsumed n) /\ (length waits <= Z.to_nat (retryMax (consumer n)))%nat /\
  (v = Exhausted -> length waits = Z.to_nat (retryMax (consumer n))) /\
  (forall i w, waits !! i = Some w -> w = backoff_at (retryBackoffMax (consumer n)) (retryBackoffBase (consumer n)) i).
Proof. unfold handle_message. intros H. by apply attempt_loop_spec in H. Qed.

(** ** Accounts *)

(** The messages taken and those marked; what is left was given up, or is being processed. *)
Definition settled (n : node X) : Z := let k := counts (consumer n) in messagesAdmitted k + messagesFailed k.
Definition unsettled (n : node X) : Z := let k := counts (consumer n) in messagesConsumed k - settled n - transientFailures k.

Lemma handle_message_accounts m hw turns n v waits n' : handle_message h m hw turns n = (v, waits, n') ->
  unsettled n' = unsettled n + one (match v with Ended => true | _ => false end) /\
  len (marked n') - settled n' = len (marked n) - settled n.
Proof.
  intros H. apply handle_message_spec in H as (H & _). unfold core, settle in H. cbv zeta in H.
  injection H as Hm _ _ _ _ Hc Ha Hf _ Ht. unfold unsettled, settled. cbv zeta. rewrite Hm, Hc, Ha, Hf, Ht.
  destruct v; unfold one, len; cbn -[Z.of_nat]; rewrite ?Nat2Z.inj_succ; lia.
Qed.

(** Every message a claim takes is counted once, as admitted, failed or given up, except
    for one that the end of the session interrupts; a message is marked exactly when it is
    counted as admitted or failed. *)
Theorem claim_accounted (has_logger : bool) (events : list claim_event) (n : node X) :
  let '(status, n') := ConsumeClaim h has_logger events n in
  unsettled n <= unsettled n' <= unsettled n + 1 /\
  (status <> Returned -> unsettled n' = unsettled n) /\
  len (marked n') - settled n' = len (marked n) - settled n.
Proof.
  revert n. induction events as [|[| |m hw turns] events IH]; intros n; cbn [ConsumeClaim]; [split_and!; lia|split_and!; lia| |].
  - destruct has_logger; split_and!; lia.
  - destruct (handle_message h m hw turns n) as [[v waits] n1] eqn:Hm. apply handle_message_accounts in Hm as [Hu Hk].
    assert (Hgo : v <> Ended -> unsettled n1 = unsettled n) by (intros Hv; destruct v; [cbn in Hu; lia..|done]).
    destruct v; try (by split_and!; cbn in Hu; try lia); specialize (IH n1); destruct (ConsumeClaim _ _ _ _);
      rewrite Hgo, Hk in IH; done.
Qed.

(** ** Waits *)

Lemma backoff_at_pow max base i : 0 < base <= max -> 2 * max <= MaxInt64 -> backoff_at max base i = Z.min max (base * 2 ^ Z.of_nat i).
Proof.
  intros Hb Hm. induction i as [|i IH]; [change (2 ^ Z.of_nat 0) with 1; cbn; lia|].
  rewrite Nat2Z.inj_succ, Z.pow_succ_r by lia. change (backoff_at max base (S i)) with (next_backoff max (backoff_at max base i)). rewrite IH. unfold next_backoff.
  assert (0 < 2 ^ Z.of_nat i) by (apply Z.pow_pos_nonneg; lia).
  unfold MaxInt64 in *. rewrite i64_small by (unfold MinInt64, MaxInt64; nia).
  destruct (Z.ltb_spec max (Z.min max (base * 2 ^ Z.of_nat i) * 2)); nia.
Qed.

Lemma decided_waits m turns left k b n v waits n' : attempt_loop h m turns left k b n = (v, waits, n') ->
  v = Accepted \/ v = Failed -> (length waits < left)%nat.
Proof.
  revert k b n waits n'. induction left as [|left IH]; intros k b n waits n' Hrun; cbn [attempt_loop] in Hrun.
  { injection Hrun as <- _ _. by intros []. }
  destruct (processMessage h _ m n) as [[u|e] n1]; [injection Hrun as <- <- _; cbn; lia|].
  destruct (isPermanentErr e); [injection Hrun as <- <- _; cbn; lia|].
  destruct (t_ended (turns k)); [injection Hrun as <- _ _; by intros []|].
  destruct (attempt_loop h m turns left (S k) _ _) as [[v2 w2] n2] eqn:Hr. injection Hrun as <- <- _. intros Hv.
  specialize (IH _ _ _ _ _ Hr Hv). cbn. lia.
Qed.

(** C40. With a first wait that is positive and within the limit, the waits between the
    attempts double from it up to the limit. They are at most as many as attempts are
    allowed: as many when the message is given up, fewer when it is accepted or refused for
    good. Each is counted as a retry. *)
Theorem waits_bounded (m : message) (hw : Z) (turns : nat -> turn) (n n' : node X) (v : verdict) (waits : list Z)
  (Hbase : 0 < retryBackoffBase (consumer n) <= retryBackoffMax (consumer n)) (Hmax : 2 * retryBackoffMax (consumer n) <= MaxInt64)
  (Hrun : handle_message h m hw turns n = (v, waits, n')) :
  waits = (fun i => Z.min (retryBackoffMax (consumer n)) (retryBackoffBase (consumer n) * 2 ^ Z.of_nat i)) <$> seq 0 (length waits) /\
  (length waits <= Z.to_nat (retryMax (consumer n)))%nat /\ (v = Exhausted -> length waits = Z.to_nat (retryMax (consumer n))) /\
  (v = Accepted \/ v = Failed -> (length waits < Z.to_nat (retryMax (consumer n)))%nat) /\
  messagesRetried (counts (consumer n')) = messagesRetried (counts (consumer n)) + len waits.
Proof.
  pose proof (decided_waits _ _ _ _ _ _ _ _ _ Hrun) as Hdec.
  apply handle_message_spec in Hrun as (Hc & Hlen & Hex & Hw). split_and!; [|done..|].
  - apply list_eq. intros i. rewrite list_lookup_fmap. destruct (waits !! i) as [w|] eqn:Hi.
    + rewrite lookup_seq_lt by (by apply lookup_lt_Some in Hi). cbn. rewrite (Hw i w Hi). by rewrite backoff_at_pow.
    + rewrite lookup_seq_ge; [done|]. by apply lookup_ge_None in Hi.
  - unfold core, settle in Hc. cbv zeta in Hc. by injection Hc as _ _ _ _ _ _ _ _ -> _.
Qed.
End consume.

(** ** Who signed what is pending *)

Section signed.
Context {PB : Protobuf} {ED : Crypto.Ed25519} {EL : Crypto.Ed25519Laws}.

(** What the checks of a message establish of its transaction. *)
Definition attested (tx : Transaction) : Prop :=
  ed_signed (PubKey (Envelope_ tx)) (producer_bytes tx) /\ ProducerID (Envelope_ tx) = PubKey (Envelope_ tx) /\
  EnvContentHash (Envelope_ tx) = sha256 (Payload tx).

Lemma verify_attested c now msg tx : verify c now msg = Ok tx -> attested tx.
Proof. intros H. apply verify_accepted in H. destruct H. split_and!; [by eapply ed_unforgeable|done..]. Qed.

Lemma ComputeMeta_finite meta : is_nan (m_Confidence meta) = false -> is_nan (m_Confidence (ComputeMeta meta)) = false.
Proof.
  unfold ComputeMeta. cbn [m_Confidence]. intros H. destruct (f_ltb (m_Confidence meta) (f_of_Z 0)); [done|].
  by destruct (f_ltb (f_of_Z 1) (m_Confidence meta)).
Qed.

Lemma handler_verified topic f c now m tx meta : handler topic = Some f -> f c now m = Ok (tx, meta) ->
  is_nan (m_Confidence meta) = false /\ exists msg, verify c now msg = Ok tx.
Proof.
  unfold handler. intros Hf Hr. repeat case_bool_decide; simplify_eq.
  - unfold processAnomalyMessage in Hr. go_inv Hr. simplify_eq. split; [|exists (Anomaly a); cbn; by rewrite Hstep0].
    apply ComputeMeta_finite. cbn. unfold VerifyAnomalyMsg in Hstep0. reject_inv Hstep0. done.
  - unfold processEvidenceMessage in Hr. go_inv Hr. simplify_eq. split; [by vm_compute|]. exists (Evidence a). cbn. by rewrite Hstep0.
  - unfold processPolicyMessage in Hr. go_inv Hr. simplify_eq. split; [by apply ComputeMeta_finite|].
    exists (Policy a). cbn. by rewrite Hstep0.
Qed.

Context {X : Type} (h : Hooks X).
(** The hook after an admission only takes entries away. *)
Definition only_removes : Prop := forall hook at_ topic tx p x, onAdmitted h = Some hook -> rep p ->
  rep (hook at_ topic tx (p, x)).1 /\ forall P, Forall P (values p) -> Forall P (values (hook at_ topic tx (p, x)).1).
Context (Hrem : only_removes).

Definition pool_ok (n : node X) : Prop := rep (pool n) /\ Forall (fun e => attested (e_Tx e)) (values (pool n)).

Lemma pool_ok_same n n' : pool n' = pool n -> pool_ok n -> pool_ok n'.
Proof. unfold pool_ok. by intros ->. Qed.

Lemma Add_pool_ok (range : map_range) tx meta now p r p' : attested tx -> is_nan (m_Confidence meta) = false ->
  rep p -> Forall (fun e => attested (e_Tx e)) (values p) -> Mempool.Add range (Some tx) meta now p = (r, p') ->
  rep p' /\ Forall (fun e => attested (e_Tx e)) (values p').
Proof.
  intros Ha Hn Hr Hall Hadd.
  assert (Hrun : @run_mp demo_ed25519 (CAdd range (Some tx) meta now) p = (OError r, p')) by (unfold run_mp; by rewrite Hadd).
  split; [by eapply run_sim in Hrun as (? & _)|]. eapply run_elems in Hrun; [exact Hrun|done..| |done].
  intros tx' meta' [<- <-]. exact Ha.
Qed.

Lemma offer_pool_ok at_ topic tx meta n : attested tx -> is_nan (m_Confidence meta) = false -> pool_ok n ->
  pool_ok (offer h at_ topic tx meta n).2.
Proof.
  intros Ha Hn [Hr Hall]. unfold offer, emitPreAdmit.
  destruct (match onPreAdmit h with Some _ => _ | None => _ end) as [e n1] eqn:Hpre.
  assert (H1 : pool n1 = pool n) by (repeat case_match; by simplify_eq/=). clear Hpre.
  destruct e as [e|]; [by destruct (errors_is _ e); apply (pool_ok_same n)|]. rewrite <- H1 in Hr, Hall.
  destruct (Mempool.Add _ _ _ _ _) as [r p] eqn:Hadd. apply Add_pool_ok in Hadd as [Hr' Hall']; [|done..].
  destruct r as [u|e].
  - unfold emitAdmitted. destruct (onAdmitted h) as [hook|] eqn:Hh; [|done]. cbn [pool count upd set_pool ext].
    destruct (Hrem hook at_ topic tx p (ext n1) Hh Hr') as [H2 H3]. specialize (H3 _ Hall').
    by destruct (hook at_ topic tx (p, ext n1)) as [p2 x2].
  - unfold emitAdmitFailed. by destruct (onAdmitFailed h), (ClassFullReason e).
Qed.

Lemma processMessage_pool_ok at_ m n : pool_ok n -> pool_ok (processMessage h at_ m n).2.
Proof.
  intros Hok. rewrite processMessage_eq. destruct (handler _) as [f|] eqn:Hf; [|done].
  destruct (f _ _ _) as [[tx meta]|e] eqn:Hr; [|cbn; unfold routeToDLQ; by destruct (is_empty _)].
  destruct (handler_verified _ _ _ _ _ _ _ Hf Hr) as (Hn & msg & Hv). apply offer_pool_ok; [|done|by apply (pool_ok_same n)].
  by eapply verify_attested.
Qed.

Lemma attempt_loop_pool_ok m turns left k b n : pool_ok n -> pool_ok (attempt_loop h m turns left k b n).2.
Proof.
  revert k b n. induction left as [|left IH]; intros k b n Hok; [done|]. cbn [attempt_loop].
  pose proof (processMessage_pool_ok (t_at (turns k)) m n Hok) as H1. destruct (processMessage h _ m n) as [[u|e] n1]; [done|].
  destruct (isPermanentErr e); [done|]. destruct (t_ended _); [done|].
  specialize (IH (S k) (next_backoff (retryBackoffMax (consumer (count incrementRetried n1))) b) (count incrementRetried n1) H1).
  by destruct (attempt_loop _ _ _ _ _ _ _) as [[v ws] n2].
Qed.

(** C36. Every transaction a claim leaves in a mempool that was empty, or held such transactions
    only, is signed by its producer, whose key it names, and its content has the hash its
    envelope names: neither an unverified message nor a failed attempt gets in. *)
Theorem consumed_signed (has_logger : bool) (events : list claim_event) (n : node X) (Hok : pool_ok n) :
  pool_ok (ConsumeClaim h has_logger events n).2.
Proof.
  revert n Hok. induction events as [|[| |m hw turns] events IH]; intros n Hok; cbn [ConsumeClaim]; try done.
  unfold handle_message. set (n1 := count incrementConsumed _).
  pose proof (attempt_loop_pool_ok m turns (Z.to_nat (retryMax (consumer n1))) 0 (retryBackoffBase (consumer n1)) n1 Hok) as H.
  destruct (attempt_loop _ _ _ _ _ _ _) as [[v ws] n2]. cbn in H. by destruct v; [apply IH..|].
Qed.
End signed.

(** ** Concrete runs *)

(** A wire format in which a policy is its parameters, signed with a nonce of their own. *)
Definition policy_signed (params : bytes) : Signed := signed_with (take 16 (sha256 params)) domainPolicy demo_ts params.
Definition toy_policy (params : bytes) : pb_PolicyEvent :=
  let s := policy_signed params in
  MkPbPolicy (str "po-1") (str "monitor") (str "rule") params demo_ts (s_ProducerID s) (s_Nonce s) (s_Signature s) (s_PubKey s) (s_Alg s)
    (s_ContentHash s).
Definition toy_pb : Protobuf :=
  {| Unmarshal_AnomalyEvent _ := None; Unmarshal_EvidenceEvent _ := None; Unmarshal_PolicyEvent data := Some (toy_policy data) |}.

Definition instants_at (n : Z) : instants := MkInstants (at_ n) (at_ n) (at_ n) (fun _ => at_ n) in_key_order in_key_order.
Definition turns_at (n : Z) : nat -> turn := fun k => MkTurn (instants_at (n + Z.of_nat k / 4)) false.
Definition policy_message (offset : Z) (params : string) : message := MkMessage topicPolicy 0 offset (quoted params).

Definition demo_consumer_config : ConsumerConfig :=
  MkConsumerConfig [str "broker:9092"] (str "backend") [topicPolicy] (str "ai.dlq.v1") demo_verifier 0 0 0.
Definition demo_consumer : Consumer :=
  match NewConsumer demo_consumer_config true true true with
  | Ok k => k | Err _ => MkConsumer [] demo_verifier [] [] true 0 0 0 [] false no_counts no_partitions 0
  end.
(** One transaction a second for each producer. *)
Definition one_a_second : Config := MkConfig 100 100000 0 0 0 (900 * Second) (300 * Second) 1.
Definition node_of {X} (x : X) : node X := MkNode demo_consumer (New one_a_second) x [] [].

Definition no_hooks : Hooks unit := MkHooks None None None.
Definition msg1 : message := policy_message 1 "{'action':'monitor','n':1}".
Definition msg2 : message := policy_message 2 "{'action':'monitor','n':2}".
Definition msg3 : message := policy_message 3 "{'action':'monitor','n':3}".

(** The first message is admitted; the second is rate limited in all its attempts, given
    up and never marked, though the third, admitted later, is. A message of an unknown
    topic fails, and the closed channel panics. *)
Definition demo_events : list claim_event :=
  [Delivered msg1 4 (turns_at 1); Delivered msg2 4 (fun _ => MkTurn (instants_at 1) false); Delivered msg3 4 (turns_at 3);
   Delivered (MkMessage (str "other") 0 4 []) 5 (turns_at 4); ChannelClosed].
Definition demo_claim (has_logger : bool) : claim_status * node unit :=
  @ConsumeClaim toy_pb toy_ed unit no_hooks has_logger demo_events (node_of tt).

Example demo_claim_runs :
  (demo_claim true).1 = Panicked /\ (demo_claim false).1 = Returned /\
  g_Offset <$> marked (demo_claim true).2 = [4; 3; 1] /\ settled (demo_claim true).2 = 3 /\
  transientFailures (counts (consumer (demo_claim true).2)) = 1 /\ messagesRetried (counts (consumer (demo_claim true).2)) = 5 /\
  size (entries (pool (demo_claim true).2)) = 2%nat /\ length (dlq (demo_claim true).2) = 0%nat.
Proof. vm_compute. by split_and!. Qed.

Definition after_first : node unit := (@ConsumeClaim toy_pb toy_ed unit no_hooks true [Delivered msg1 4 (turns_at 1)] (node_of tt)).2.
Definition given_up : verdict * list Z * node unit :=
  @handle_message toy_pb toy_ed unit no_hooks msg2 4 (fun _ => MkTurn (instants_at 1) false) after_first.

Lemma waits_bounded_witness : given_up.1.1 = Exhausted /\
  given_up.1.2 = (fun i => Z.min (5 * Second) (100 * Millisecond * 2 ^ Z.of_nat i)) <$> seq 0 (length given_up.1.2).
Proof.
  split; [by vm_compute|].
  destruct (@waits_bounded toy_pb toy_ed unit no_hooks msg2 4 (fun _ => MkTurn (instants_at 1) false) after_first given_up.2
    given_up.1.1 given_up.1.2) as [H _]; [by vm_compute..| |].
  - unfold given_up. generalize (@handle_message toy_pb toy_ed unit no_hooks msg2 4 (fun _ => MkTurn (instants_at 1) false) after_first).
    by intros [[v ws] n].
  - rewrite H at 1. by vm_compute.
Defined.

Lemma consumed_signed_witness : @pool_ok toy_ed toy_laws unit (demo_claim true).2 /\ size (entries (pool (demo_claim true).2)) = 2%nat.
Proof.
  split; [|by vm_compute]. unfold demo_claim.
  apply (@consumed_signed toy_pb toy_ed toy_laws unit no_hooks ltac:(done) true demo_events (node_of tt)).
  split; [apply New_rep|]. replace (values (pool (node_of tt))) with (@nil entry) by by vm_compute. constructor.
Defined.

(** A full class is backpressure too, but is not retried. *)
Example class_full_permanent :
  isPermanentErr (EMempool ErrMempoolFull) = false /\ isPermanentErr (EMempool (ErrClassFull p2)) = true /\
  isPermanentErr (EPreAdmit (str "other") (Some ECanceled)) = false.
Proof. by split_and!. Qed.
