(* ===== verification/Lifecycle.v ===== *)
(** backend/pkg/wiring/service_lifecycle.go: the admission gate of policy lifecycles. What
    a policy intends is read from its payload; of the intents for one policy the stale
    and the repeated ones are refused, and an accepted one removes the one before it from
    the mempool once it is there itself. *)
From S2P Require Import Prelude Bytes Sha256 GoTime GoFloat GoStrings GoJson Codec Heap Mempool Crypto Ingest Consumer Replay.
Import Codec Model Json.
Local Open Scope Z_scope.

Record lifecycleIntentState := MkIntentState {
  st_TsMs : Z; st_Action : bytes; st_ControlAction : bytes; st_SeenAt : Time; st_Hash : bytes; st_HasHash : bool }.
Record lifecycleEvictionPlan := MkPlan { pl_Hashes : list bytes; pl_SeenAt : Time }.

Record LifecycleConfig := MkLifecycleConfig {
  mode : bytes; rollbackEnabled : bool; compactionWindow : Z }.

(** The part of the service the gate keeps; the counters stay far below [2^64]. *)
Record Lifecycle := MkLifecycle {
  compactionState : gmap bytes lifecycleIntentState; compactionLastSweep : Time; compactionSweepInterval : Z;
  postAdmitEvictions : gmap bytes lifecycleEvictionPlan;
  preAdmitAllowed : Z; compactionRejected : Z; compactionSuperseded : Z;
  mempoolAddSuccess : Z; mempoolAddFailure : Z; postAdmitEvicted : Z }.

Definition NewLifecycle : Lifecycle := MkLifecycle ∅ zero_time (5 * Second) ∅ 0 0 0 0 0 0.

Definition with_state m (l : Lifecycle) : Lifecycle :=
  MkLifecycle m (compactionLastSweep l) (compactionSweepInterval l) (postAdmitEvictions l) (preAdmitAllowed l) (compactionRejected l)
    (compactionSuperseded l) (mempoolAddSuccess l) (mempoolAddFailure l) (postAdmitEvicted l).
Definition with_sweep t d (l : Lifecycle) : Lifecycle :=
  MkLifecycle (compactionState l) t d (postAdmitEvictions l) (preAdmitAllowed l) (compactionRejected l)
    (compactionSuperseded l) (mempoolAddSuccess l) (mempoolAddFailure l) (postAdmitEvicted l).
Definition with_evictions m (l : Lifecycle) : Lifecycle :=
  MkLifecycle (compactionState l) (compactionLastSweep l) (compactionSweepInterval l) m (preAdmitAllowed l) (compactionRejected l)
    (compactionSuperseded l) (mempoolAddSuccess l) (mempoolAddFailure l) (postAdmitEvicted l).
Definition count_allowed (l : Lifecycle) : Lifecycle :=
  MkLifecycle (compactionState l) (compactionLastSweep l) (compactionSweepInterval l) (postAdmitEvictions l) (preAdmitAllowed l + 1)
    (compactionRejected l) (compactionSuperseded l) (mempoolAddSuccess l) (mempoolAddFailure l) (postAdmitEvicted l).
Definition count_rejected (superseded : bool) (l : Lifecycle) : Lifecycle :=
  MkLifecycle (compactionState l) (compactionLastSweep l) (compactionSweepInterval l) (postAdmitEvictions l) (preAdmitAllowed l)
    (compactionRejected l + 1) (compactionSuperseded l + (if superseded then 1 else 0)) (mempoolAddSuccess l) (mempoolAddFailure l)
    (postAdmitEvicted l).
Definition count_admission (success : bool) (evicted : Z) (l : Lifecycle) : Lifecycle :=
  MkLifecycle (compactionState l) (compactionLastSweep l) (compactionSweepInterval l) (postAdmitEvictions l) (preAdmitAllowed l)
    (compactionRejected l) (compactionSuperseded l) (mempoolAddSuccess l + (if success then 1 else 0))
    (mempoolAddFailure l + (if success then 0 else 1)) (postAdmitEvicted l + evicted).

Definition lifecyclePlanKey (env : Envelope) : bytes :=
  hex (ProducerID env) ++ str ":" ++ hex (Nonce env) ++ str ":" ++ hex (EnvContentHash env).

(** [strings.EqualFold] with a string in lower case of ASCII. *)
Definition equal_fold (s : bytes) (t : string) : bool := bool_decide (fold_key s = str t).
Definition is_policy_topic (topic : bytes) : bool := equal_fold (TrimSpace topic) "ai.policy.v1".

Section gate.
(** [strings.ToLower], whose table of Unicode is not in the repository's sources. *)
Context (lower : bytes -> bytes).

(** The settings from their configured values; the second interval goes into the state. *)
Definition configure (LIFECYCLE_MODE : bytes) (rollback : bool) (window sweepInterval : Z) (l : Lifecycle) : LifecycleConfig * Lifecycle :=
  let m := lower (TrimSpace LIFECYCLE_MODE) in
  let m := if bool_decide (m ∈ [str "off"; str "audit"; str "enforce"]) then m else str "enforce" in
  (MkLifecycleConfig m rollback (if window <? 0 then 0 else window),
   with_sweep (compactionLastSweep l) (if sweepInterval <? 0 then 0 else sweepInterval) l).

(** ** Intents *)

Record intent := MkIntent { i_Action : bytes; i_ControlAction : bytes; i_RollbackID : bytes; i_Key : bytes; i_TsMs : Z }.
Definition no_intent : intent := MkIntent [] [] [] [] 0.

Definition lookup_key (m : gmap bytes json) (key : string) : bytes :=
  match get_string m (str key) with Some s => lower (TrimSpace s) | None => [] end.
Definition asInt64 (m : gmap bytes json) (key : string) : Z :=
  match get_float m (str key) with Some x => f_to_int64 x | None => 0 end.

(** The fields of a payload as they are gathered. *)
Record fields := MkFields {
  f_action : bytes; f_control : bytes; f_rollback : bytes; f_policy : bytes; f_scope : bytes; f_tenant : bytes; f_region : bytes; f_ts : Z }.
Definition if_unset (old new : Z) : Z := if old <=? 0 then new else old.

(** What one object adds to what has been found before. *)
Definition gather (m : gmap bytes json) (f : fields) : fields :=
  MkFields (keep (f_action f) (lookup_key m "action")) (keep (f_control f) (lookup_key m "control_action"))
    (keep (f_rollback f) (TrimSpace (lookup_key m "rollback_policy_id"))) (keep (f_policy f) (TrimSpace (lookup_key m "policy_id")))
    (keep (f_scope f) (TrimSpace (lookup_key m "scope"))) (keep (f_tenant f) (TrimSpace (lookup_key m "tenant")))
    (keep (f_region f) (TrimSpace (lookup_key m "region"))) (if_unset (f_ts f) (asInt64 m "ts_ms")).
Definition with_ts (t : Z) (f : fields) : fields :=
  MkFields (f_action f) (f_control f) (f_rollback f) (f_policy f) (f_scope f) (f_tenant f) (f_region f) t.
Definition gather_nested (root : gmap bytes json) (key : string) (f : fields) : fields :=
  match get_map root (str key) with Some m => gather m f | None => f end.

Definition lifecycleEntityKey (policyID scope tenant region : bytes) : bytes :=
  let clean b := TrimSpace (lower b) in
  if is_empty (clean policyID) then []
  else clean policyID ++ str "|" ++ clean scope ++ str "|" ++ clean tenant ++ str "|" ++ clean region.

Definition extractLifecycleIntent (payload : bytes) : intent :=
  if is_empty payload then no_intent
  else
    match Unmarshal_map payload with
    | None => no_intent
    | Some root =>
        let f := gather root (MkFields [] [] [] [] [] [] [] 0) in
        let f := with_ts (if_unset (f_ts f) (asInt64 root "source_event_ts_ms")) f in
        let f := gather_nested root "metadata" (gather_nested root "params" f) in
        MkIntent (f_action f) (f_control f) (f_rollback f) (lifecycleEntityKey (f_policy f) (f_scope f) (f_tenant f) (f_region f)) (f_ts f)
    end.

Definition isRollbackIntent (i : intent) : bool :=
  negb (is_empty (TrimSpace (i_RollbackID i))) || equal_fold (TrimSpace (i_Action i)) "rollback"
  || equal_fold (TrimSpace (i_ControlAction i)) "rollback".

Definition lifecycle_actions : list bytes :=
  [str "add"; str "update"; str "remove"; str "approve"; str "reject"; str "refresh"; str "promote"; str "suppress"; str "bypass"].
Definition isLifecycleIntent (i : intent) : bool :=
  isRollbackIntent i || bool_decide (lower (TrimSpace (i_Action i)) ∈ lifecycle_actions)
  || bool_decide (lower (TrimSpace (i_ControlAction i)) ∈ lifecycle_actions).

Definition isLifecycleTransaction (tx : Transaction) : bool :=
  bool_decide (Type_ tx = TxPolicy) && isLifecycleIntent (extractLifecycleIntent (Payload tx)).

(** ** Compaction *)

Inductive compaction := Accept (evicted : list bytes) | Stale | Duplicate | Superseded.

(** What may follow a removal no more. *)
Definition revivals : list bytes :=
  [str "refresh"; str "update"; str "add"; str "approve"; str "promote"; str "suppress"; str "bypass"].

(** The intents not seen for the window are forgotten, at most once in an interval. *)
Definition sweep (window : Z) (now : Time) (l : Lifecycle) : Lifecycle :=
  let interval := positive_or (compactionSweepInterval l) (5 * Second) in
  if IsZero (compactionLastSweep l) || (interval <=? Sub now (compactionLastSweep l)) then
    with_sweep now interval (with_state (filter (fun kv => negb (window <? Sub now (st_SeenAt kv.2)) = true) (compactionState l)) l)
  else with_sweep (compactionLastSweep l) interval l.

Definition is_remove (b : bytes) : bool := bool_decide (b = str "remove").

Definition compactionDecision (window : Z) (now : Time) (i : intent) (env : Envelope) (l : Lifecycle) : compaction * Lifecycle :=
  if (window <=? 0) || is_empty (i_Key i) then (Accept [], l)
  else
    let tsMs := if_unset (i_TsMs i) (UnixMilli now) in
    let action := lower (TrimSpace (i_Action i)) in
    let control := lower (TrimSpace (i_ControlAction i)) in
    let l := sweep window now l in
    let accept evicted :=
      (Accept evicted, with_state (<[i_Key i := MkIntentState tsMs action control now (EnvContentHash env) true]> (compactionState l)) l) in
    match compactionState l !! i_Key i with
    | None => accept []
    | Some prev =>
        if tsMs <? st_TsMs prev then (Stale, l)
        else if (tsMs =? st_TsMs prev) && bool_decide (action = st_Action prev) && bool_decide (control = st_ControlAction prev) then (Duplicate, l)
        else if (is_remove (st_Action prev) || is_remove (st_ControlAction prev)) && bool_decide (action ∈ revivals) then (Superseded, l)
        else accept (if st_HasHash prev && negb (bool_decide (st_Hash prev = EnvContentHash env)) then [st_Hash prev] else [])
    end.

(** ** The hooks *)

Definition rejection (reason : string) : option ingest_error := Some (NewPreAdmitRejected (str reason) None).
Definition rejection_of (d : compaction) : option ingest_error :=
  match d with
  | Accept _ => None
  | Stale => rejection "lifecycle_compact_stale"
  | Duplicate => rejection "lifecycle_compact_duplicate"
  | Superseded => rejection "lifecycle_compact_superseded"
  end.
Definition is_superseded (d : compaction) : bool := match d with Superseded => true | _ => false end.

Definition stageLifecyclePostAdmitEvictions (window : Z) (now : Time) (env : Envelope) (hashes : list bytes) (l : Lifecycle) : Lifecycle :=
  if is_nil hashes then l
  else
    let ttl := positive_or window (30 * Second) in
    with_evictions
      (filter (fun kv => negb (ttl <? Sub now (pl_SeenAt kv.2)) = true)
        (<[lifecyclePlanKey env := MkPlan hashes now]> (postAdmitEvictions l))) l.

Definition consumeLifecyclePostAdmitEvictions (env : Envelope) (l : Lifecycle) : list bytes * Lifecycle :=
  match postAdmitEvictions l !! lifecyclePlanKey env with
  | Some plan => (pl_Hashes plan, with_evictions (delete (lifecyclePlanKey env) (postAdmitEvictions l)) l)
  | None => ([], l)
  end.

(** [clock 0] is read by the decision, [clock 1] where the evictions are staged. *)
Definition enforceLifecyclePreAdmit (c : LifecycleConfig) (clock : nat -> Time) (topic : bytes) (tx : Transaction) (l : Lifecycle)
  : option ingest_error * Lifecycle :=
  if negb (is_policy_topic topic) then (None, l)
  else
    let i := extractLifecycleIntent (Payload tx) in
    if negb (isLifecycleIntent i) then (None, l)
    else
      let mode := lower (TrimSpace (mode c)) in
      let auditOnly := bool_decide (mode = str "audit") in
      if bool_decide (mode = str "off") then (None, count_allowed l)
      else if negb (rollbackEnabled c) && isRollbackIntent i then
        let l := count_rejected false l in
        if auditOnly then (None, count_allowed l) else (rejection "lifecycle_rollback_disabled", l)
      else if is_empty (i_Key i) then
        let l := count_rejected false l in
        if auditOnly then (None, count_allowed l) else (rejection "lifecycle_policy_id_missing", l)
      else
        let '(d, l) := compactionDecision (compactionWindow c) (clock 0%nat) i (Envelope_ tx) l in
        match d with
        | Accept evicted =>
            if auditOnly then (None, count_allowed l)
            else (None, count_allowed (stageLifecyclePostAdmitEvictions (compactionWindow c) (clock 1%nat) (Envelope_ tx) evicted l))
        | _ =>
            let l := count_rejected (is_superseded d) l in
            if auditOnly then (None, count_allowed l) else (rejection_of d, l)
        end.

Definition applyLifecyclePostAdmit (range : map_range) (topic : bytes) (tx : Transaction) (s : Mempool * Lifecycle) : Mempool * Lifecycle :=
  let '(m, l) := s in
  if negb (is_policy_topic topic) || negb (isLifecycleTransaction tx) then (m, l)
  else
    let '(hashes, l) := consumeLifecyclePostAdmitEvictions (Envelope_ tx) (count_admission true 0 l) in
    if is_nil hashes then (m, l)
    else (Remove range hashes m,
          MkLifecycle (compactionState l) (compactionLastSweep l) (compactionSweepInterval l) (postAdmitEvictions l) (preAdmitAllowed l)
            (compactionRejected l) (compactionSuperseded l) (mempoolAddSuccess l) (mempoolAddFailure l) (postAdmitEvicted l + len hashes)).

Definition handleLifecycleAdmitFailed (topic : bytes) (tx : Transaction) (l : Lifecycle) : Lifecycle :=
  if negb (is_policy_topic topic) || negb (isLifecycleTransaction tx) then l
  else (consumeLifecyclePostAdmitEvictions (Envelope_ tx) (count_admission false 0 l)).2.

(** ** The hooks of the service *)

(** The replay filter comes first; a proposal is asked for after every admission, which
    [proposeTriggers] counts. *)
Record admission := MkAdmission { replay : Replay; lifecycle : Lifecycle; proposeTriggers : Z }.

Definition service_hooks (rc : ReplayConfig) (c : LifecycleConfig) : Hooks admission :=
  MkHooks
    (Some (fun at_ topic tx x =>
       let '(known, r) := shouldRejectReplayOnAdmit rc tx (at_hook at_ 0) (replay x) in
       if known : bool then (HookReturns (Some EReplayRejected), MkAdmission r (lifecycle x) (proposeTriggers x))
       else
         let '(e, l) := enforceLifecyclePreAdmit c (fun n => at_hook at_ (S n)) topic tx (lifecycle x) in
         (HookReturns e, MkAdmission r l (proposeTriggers x))))
    (Some (fun at_ topic tx s =>
       let '(m, l) := applyLifecyclePostAdmit (range_hook at_) topic tx (s.1, lifecycle s.2) in
       (m, MkAdmission (replay s.2) l (proposeTriggers s.2 + 1))))
    (Some (fun at_ topic tx cause x => MkAdmission (replay x) (handleLifecycleAdmitFailed topic tx (lifecycle x)) (proposeTriggers x))).
End gate.
