(* ===== verification/LifecycleRuns.v ===== *)
(** The properties of the lifecycle gate, and of the path of a message through it into
    the mempool. *)
From S2P Require Import Prelude Bytes Sha256 GoTime GoFloat GoStrings GoJson Codec Heap Mempool MempoolSpec MempoolRuns Crypto CryptoRuns Ingest IngestRuns Replay Consumer ConsumerRuns Lifecycle.
Import Codec Model Json.
Local Open Scope Z_scope.

Section gate.
Context (lower : bytes -> bytes).

(** ** Decisions *)

Definition normal (b : bytes) : bytes := lower (TrimSpace b).

Lemma sweep_keeps w now l k st : compactionState l !! k = Some st -> Sub now (st_SeenAt st) <= w ->
  compactionState (sweep w now l) !! k = Some st.
Proof.
  intros Hk Hs. unfold sweep. destruct (_ || _); [|done]. cbn [with_sweep with_state compactionState].
  apply map_lookup_filter_Some. split; [done|]. cbn. apply negb_true_iff, Z.ltb_ge. done.
Qed.

Lemma sweep_evictions w now l : postAdmitEvictions (sweep w now l) = postAdmitEvictions l.
Proof. unfold sweep. by destruct (_ || _). Qed.

Definition noted (now : Time) (i : intent) (env : Envelope) : lifecycleIntentState :=
  MkIntentState (if_unset (i_TsMs i) (UnixMilli now)) (normal (i_Action i)) (normal (i_ControlAction i)) now (EnvContentHash env) true.

Lemma is_empty_iff b : is_empty b = true <-> b = [].
Proof. unfold is_empty, len. rewrite Z.eqb_eq. destruct b; cbn; [done|]. split; [lia|done]. Qed.

Lemma no_bypass w (key : bytes) : 0 < w -> key <> [] -> (w <=? 0) || is_empty key = false.
Proof.
  intros Hw Hk. apply orb_false_iff. split; [by apply Z.leb_gt|]. apply not_true_iff_false. by rewrite is_empty_iff.
Qed.

(** What a decision does to the entry of its key, and to the others. *)
Lemma decision_cases w now i env l d l' : 0 < w -> i_Key i <> [] -> compactionDecision lower w now i env l = (d, l') ->
  postAdmitEvictions l' = postAdmitEvictions l /\
  (if d is Accept _ then compactionState l' = <[i_Key i := noted now i env]> (compactionState (sweep w now l))
   else compactionState l' = compactionState (sweep w now l)).
Proof.
  intros Hw Hk. unfold compactionDecision.
  rewrite no_bypass by done. destruct (_ !! i_Key i) as [prev|] eqn:Hp.
  - destruct (_ <? _); [intros [= <- <-]; by rewrite sweep_evictions|].
    destruct (_ && bool_decide (_ = st_ControlAction prev)); [intros [= <- <-]; by rewrite sweep_evictions|].
    destruct ((_ || _) && _); intros [= <- <-]; cbn; by rewrite sweep_evictions.
  - intros [= <- <-]. cbn. by rewrite sweep_evictions.
Qed.

(** A second decision on the same intent within the window refuses it, when it has a time
    of its own. *)
Lemma decision_repeated w now i env l : i_Key i <> [] -> 0 < w -> 0 < i_TsMs i ->
  (exists st, compactionState l !! i_Key i = Some st /\ Sub now (st_SeenAt st) <= w /\ st_TsMs st = i_TsMs i /\
    st_Action st = normal (i_Action i) /\ st_ControlAction st = normal (i_ControlAction i)) ->
  (compactionDecision lower w now i env l).1 = Duplicate.
Proof.
  intros Hk Hw Hts (st & Hst & Hs & H1 & H2 & H3). unfold compactionDecision.
  rewrite no_bypass by done.
  rewrite (sweep_keeps _ _ _ _ st) by done. unfold if_unset. rewrite (proj2 (Z.leb_gt _ _)) by done.
  rewrite H1, Z.ltb_irrefl, Z.eqb_refl, H2, H3. unfold normal.
  by rewrite (bool_decide_eq_true_2 _ (eq_refl (lower (TrimSpace (i_Action i))))), (bool_decide_eq_true_2 _ (eq_refl (lower (TrimSpace (i_ControlAction i))))).
Qed.

(** After a removal nothing that would bring the policy back is accepted. *)
Lemma decision_removed w now i env l st : i_Key i <> [] -> 0 < w -> normal (i_Action i) ∈ revivals ->
  compactionState l !! i_Key i = Some st -> Sub now (st_SeenAt st) <= w ->
  is_remove (st_Action st) || is_remove (st_ControlAction st) = true ->
  match (compactionDecision lower w now i env l).1 with Accept _ => False | _ => True end.
Proof.
  intros Hk Hw Ha Hst Hs Hr. unfold compactionDecision. rewrite no_bypass by done.
  rewrite (sweep_keeps _ _ _ _ st) by done. destruct (_ <? _); [done|]. destruct (_ && _); [done|]. cbv zeta.
  rewrite Hr. fold (normal (i_Action i)). by rewrite bool_decide_eq_true_2.
Qed.

(** ** The gate when it enforces *)

Definition enforcing (c : LifecycleConfig) : Prop := normal (mode c) <> str "off" /\ normal (mode c) <> str "audit".
Definition intent_of (tx : Transaction) : intent := extractLifecycleIntent lower (Payload tx).
(** The gate looks at the transaction. *)
Definition gated (topic : bytes) (tx : Transaction) : Prop := is_policy_topic topic = true /\ isLifecycleIntent lower (intent_of tx) = true.

Lemma enforce_gated c clock topic tx l : enforcing c -> gated topic tx ->
  enforceLifecyclePreAdmit lower c clock topic tx l =
    if negb (rollbackEnabled c) && isRollbackIntent (intent_of tx) then (rejection "lifecycle_rollback_disabled", count_rejected false l)
    else if is_empty (i_Key (intent_of tx)) then (rejection "lifecycle_policy_id_missing", count_rejected false l)
    else
      let '(d, l) := compactionDecision lower (compactionWindow c) (clock 0%nat) (intent_of tx) (Envelope_ tx) l in
      match d with
      | Accept evicted =>
          (None, count_allowed (stageLifecyclePostAdmitEvictions (compactionWindow c) (clock 1%nat) (Envelope_ tx) evicted l))
      | _ => (rejection_of d, count_rejected (is_superseded d) l)
      end.
Proof.
  intros [Ho Ha] [Ht Hi]. unfold enforceLifecyclePreAdmit. fold (intent_of tx) (normal (mode c)). rewrite Ht, Hi. cbn [negb].
  rewrite (bool_decide_eq_false_2 _ Ho), (bool_decide_eq_false_2 _ Ha).
  destruct (negb (rollbackEnabled c) && _); [done|]. destruct (is_empty _); [done|].
  destruct (compactionDecision _ _ _ _ _ _) as [d l1]. by destruct d.
Qed.

(** What the gate answers is permanent. *)
Lemma enforce_permanent c clock topic tx l e l' : enforceLifecyclePreAdmit lower c clock topic tx l = (Some e, l') -> isPermanentErr e = true.
Proof.
  unfold enforceLifecyclePreAdmit, rejection_of, rejection, NewPreAdmitRejected. intros H. repeat case_match; simplify_eq; done.
Qed.

Lemma stage_state w now env hs l : compactionState (stageLifecyclePostAdmitEvictions w now env hs l) = compactionState l.
Proof. unfold stageLifecyclePostAdmitEvictions. by destruct (is_nil hs). Qed.

(** A gated transaction that passes was accepted by the compaction. *)
Lemma enforce_passes c clock topic tx l l' : enforcing c -> gated topic tx ->
  enforceLifecyclePreAdmit lower c clock topic tx l = (None, l') ->
  i_Key (intent_of tx) <> [] /\ negb (rollbackEnabled c) && isRollbackIntent (intent_of tx) = false /\
  exists evicted l1, compactionDecision lower (compactionWindow c) (clock 0%nat) (intent_of tx) (Envelope_ tx) l = (Accept evicted, l1) /\
    l' = count_allowed (stageLifecyclePostAdmitEvictions (compactionWindow c) (clock 1%nat) (Envelope_ tx) evicted l1).
Proof.
  intros He Hg. rewrite (enforce_gated _ _ _ _ _ He Hg). destruct (negb (rollbackEnabled c) && _); [done|].
  destruct (is_empty _) eqn:Hk; [done|]. intros H. split; [by rewrite <- is_empty_iff, Hk|]. split; [done|].
  destruct (compactionDecision _ _ _ _ _ _) as [[evicted| | |] l1]; try done. injection H as <-. by exists evicted, l1.
Qed.

(** ** Runs of the gate *)

Definition gate_call : Type := (nat -> Time) * bytes * Transaction.
Fixpoint run_gate (c : LifecycleConfig) (calls : list gate_call) (l : Lifecycle) : list (option ingest_error) * Lifecycle :=
  match calls with
  | [] => ([], l)
  | (clock, topic, tx) :: calls' =>
      let '(r, l) := enforceLifecyclePreAdmit lower c clock topic tx l in
      let '(rs, l) := run_gate c calls' l in (r :: rs, l)
  end.

Definition concerns (k : bytes) (call : gate_call) : Prop := let '(_, topic, tx) := call in gated topic tx /\ i_Key (intent_of tx) = k.

Definition in_window (w : Z) (st : lifecycleIntentState) (call : gate_call) : Prop := Sub (call.1.1 0%nat) (st_SeenAt st) <= w.
#[export] Instance in_window_dec w st call : Decision (in_window w st call).
Proof. unfold in_window. apply _. Defined.
(** An intent for the policy whose action would not bring it back: a reject, another removal,
    or no action beside a control action. The compaction lets it take the removal's place. *)
Definition other_intent (k : bytes) (call : gate_call) : Prop :=
  concerns k call /\ normal (i_Action (intent_of call.2)) ∉ revivals.
#[export] Instance other_intent_dec k call : Decision (other_intent k call).
Proof. destruct call as [[clock topic] tx]. unfold other_intent, concerns, gated. apply _. Defined.

Lemma enforce_removed c clock topic tx l k st : enforcing c -> 0 < compactionWindow c -> k <> [] ->
  compactionState l !! k = Some st -> is_remove (st_Action st) || is_remove (st_ControlAction st) = true ->
  in_window (compactionWindow c) st (clock, topic, tx) -> ~ other_intent k (clock, topic, tx) ->
  compactionState (enforceLifecyclePreAdmit lower c clock topic tx l).2 !! k = Some st /\
  (concerns k (clock, topic, tx) -> (enforceLifecyclePreAdmit lower c clock topic tx l).1 <> None).
Proof.
  intros He Hw Hk Hst Hr Hs Ho. unfold in_window in Hs. cbn [fst snd] in Hs. destruct (decide (gated topic tx)) as [Hg|Hg].
  2: { split; [|by intros [? _]]. unfold enforceLifecyclePreAdmit, gated, intent_of in *. destruct (is_policy_topic topic); [|done].
       destruct (isLifecycleIntent _ _); [tauto|done]. }
  rewrite (enforce_gated _ _ _ _ _ He Hg). destruct (negb (rollbackEnabled c) && _); [done|].
  destruct (is_empty _) eqn:Hempty; [done|].
  assert (Hk' : i_Key (intent_of tx) <> []) by (by rewrite <- is_empty_iff, Hempty).
  destruct (decide (i_Key (intent_of tx) = k)) as [<-|Hne].
  - assert (Ha : normal (i_Action (intent_of tx)) ∈ revivals).
    { destruct (decide (normal (i_Action (intent_of tx)) ∈ revivals)) as [|Hn]; [done|]. exfalso. apply Ho. by split. }
    pose proof (decision_removed _ _ (intent_of tx) (Envelope_ tx) l st Hk' Hw Ha Hst Hs Hr) as Hno.
    destruct (compactionDecision _ _ _ _ _ _) as [d l1] eqn:Hd. apply decision_cases in Hd as [_ Hd]; [|done..].
    destruct d; [done|..]; cbn; rewrite Hd, (sweep_keeps _ _ _ _ st); done.
  - destruct (compactionDecision _ _ _ _ _ _) as [d l1] eqn:Hd. apply decision_cases in Hd as [_ Hd]; [|done..].
    split; [|by intros [_ ?]]. destruct d; cbn; rewrite ?stage_state, Hd, ?lookup_insert_ne by done; by apply sweep_keeps.
Qed.

(** C38. While a removal is fresh, every intent to add, update, refresh, approve, promote,
    suppress or bypass the policy is refused, whatever the gate is asked in between for other
    policies and on other topics, up to the first intent for the policy with another action:
    a reject, another removal or a control action alone takes the removal's place. *)
Theorem removal_holds (c : LifecycleConfig) (calls : list gate_call) (l : Lifecycle) (k : bytes) (st : lifecycleIntentState)
  (i : nat) (call : gate_call)
  (He : enforcing c) (Hw : 0 < compactionWindow c) (Hk : k <> []) (Hst : compactionState l !! k = Some st)
  (Hr : is_remove (st_Action st) || is_remove (st_ControlAction st) = true)
  (Hcalls : Forall (in_window (compactionWindow c) st) calls) (Hi : calls !! i = Some call) (Hc : concerns k call)
  (Hfirst : Forall (fun earlier => ~ other_intent k earlier) (take (S i) calls)) :
  exists e, (run_gate c calls l).1 !! i = Some (Some e).
Proof.
  revert l i Hst Hi Hfirst. induction Hcalls as [|[[clock topic] tx] calls Hin _ IH]; intros l i Hst Hi Hfirst; [done|].
  cbn [take] in Hfirst. apply Forall_cons in Hfirst as [Ho Hfirst]. cbn [run_gate].
  destruct (enforce_removed c clock topic tx l k st He Hw Hk Hst Hr Hin Ho) as [H1 H2].
  destruct (enforceLifecyclePreAdmit _ _ _ _ _ _) as [r l1]. cbn [fst snd] in *.
  destruct i as [|i].
  - cbn in Hi. injection Hi as <-. destruct (run_gate c calls l1) as [rs l2]. cbn. destruct r as [e|]; [by exists e|]. by destruct (H2 Hc).
  - destruct (IH l1 i H1 Hi Hfirst) as [e Hrs]. exists e. by destruct (run_gate c calls l1) as [rs l2].
Qed.
End gate.

(** ** The path of a policy *)

Section path.
Context {PB : Protobuf} {ED : Crypto.Ed25519}.
Context (lower : bytes -> bytes) (rc : ReplayConfig) (c : LifecycleConfig).
Notation hooks := (service_hooks lower rc c).

Lemma service_only_removes : only_removes hooks.
Proof.
  intros hook at_ topic tx p x Hh Hr. injection Hh as <-. cbn.
  unfold applyLifecyclePostAdmit. destruct (_ || _); [done|].
  destruct (consumeLifecyclePostAdmitEvictions _ _) as [hs l]. destruct (is_nil hs); [done|]. cbn.
  pose (call := CRemove (range_hook at_) hs). assert (Hrun : @run_mp demo_ed25519 call p = (ODone, Remove (range_hook at_) hs p)) by done.
  split; [by eapply run_sim in Hrun as (? & _)|]. intros P HP. by eapply run_elems in Hrun.
Qed.

(** *** After a failed attempt *)

Lemma handleAdmitFailed_state topic tx l : compactionState (handleLifecycleAdmitFailed lower topic tx l) = compactionState l.
Proof.
  unfold handleLifecycleAdmitFailed, consumeLifecyclePostAdmitEvictions. destruct (_ || _); [done|]. by destruct (_ !! _).
Qed.

(** The hook before admission, replay filter and gate. *)
Lemma emitPreAdmit_service at_ topic tx n :
  emitPreAdmit hooks at_ topic tx n =
    let '(known, r) := shouldRejectReplayOnAdmit rc tx (at_hook at_ 0) (replay (ext n)) in
    let '(e, l) := if known : bool then (Some EReplayRejected, lifecycle (ext n))
                   else enforceLifecyclePreAdmit lower c (fun k => at_hook at_ (S k)) topic tx (lifecycle (ext n)) in
    (e, set_ext (MkAdmission r l (proposeTriggers (ext n))) n).
Proof.
  unfold emitPreAdmit. cbn [onPreAdmit service_hooks]. destruct (shouldRejectReplayOnAdmit _ _ _ _) as [[] r]; [done|].
  by destruct (enforceLifecyclePreAdmit _ _ _ _ _ _) as [e l].
Qed.

Lemma emitPreAdmit_permanent at_ topic tx n e n1 : emitPreAdmit hooks at_ topic tx n = (Some e, n1) -> isPermanentErr e = true.
Proof.
  rewrite emitPreAdmit_service. destruct (shouldRejectReplayOnAdmit _ _ _ _) as [[] r]; [by intros [= <- _]|].
  destruct (enforceLifecyclePreAdmit _ _ _ _ _ _) as [e' l] eqn:He. intros [= -> _]. by eapply enforce_permanent.
Qed.

(** An attempt the mempool has refused leaves the intent noted. *)
Lemma offer_refused at_ topic tx meta n e n1 : enforcing lower c -> 0 < compactionWindow c -> gated lower topic tx ->
  offer hooks at_ topic tx meta n = (Err (EMempool e), n1) ->
  i_Key (intent_of lower tx) <> [] /\ negb (rollbackEnabled c) && isRollbackIntent (intent_of lower tx) = false /\
  compactionState (lifecycle (ext n1)) !! i_Key (intent_of lower tx) = Some (noted lower (at_hook at_ 1) (intent_of lower tx) (Envelope_ tx)).
Proof.
  intros He Hw Hg. unfold offer. destruct (emitPreAdmit hooks at_ topic tx n) as [[e'|] n'] eqn:Hpre.
  { intros H. exfalso. injection H as -> _. rewrite emitPreAdmit_service in Hpre.
    destruct (shouldRejectReplayOnAdmit _ _ _ _) as [[] r]; [done|].
    unfold enforceLifecyclePreAdmit, rejection_of, rejection, NewPreAdmitRejected in Hpre. repeat case_match; simplify_eq. }
  rewrite emitPreAdmit_service in Hpre. destruct (shouldRejectReplayOnAdmit _ _ _ _) as [[] r]; [done|].
  destruct (enforceLifecyclePreAdmit _ _ _ _ _ _) as [e' l] eqn:Hen. injection Hpre as -> <-.
  apply enforce_passes in Hen as (Hk & Hrb & ev & l1 & Hd & ->); [|done..].
  apply decision_cases in Hd as [_ Hd]; [|done..].
  destruct (Mempool.Add _ _ _ _ _) as [[u|e'] p]; [done|]. intros H. split; [done|]. split; [done|]. injection H as _ <-.
  destruct (ClassFullReason e'); cbn; rewrite handleAdmitFailed_state; cbn; rewrite stage_state, Hd; apply lookup_insert_eq.
Qed.

Definition duplicate_rejection : ingest_error := NewPreAdmitRejected (str "lifecycle_compact_duplicate") None.

Lemma enforce_noted clock topic tx l seen_at : enforcing lower c -> 0 < compactionWindow c -> gated lower topic tx ->
  negb (rollbackEnabled c) && isRollbackIntent (intent_of lower tx) = false ->
  i_Key (intent_of lower tx) <> [] -> 0 < i_TsMs (intent_of lower tx) ->
  compactionState l !! i_Key (intent_of lower tx) = Some (noted lower seen_at (intent_of lower tx) (Envelope_ tx)) ->
  Sub (clock 0%nat) seen_at <= compactionWindow c ->
  (enforceLifecyclePreAdmit lower c clock topic tx l).1 = Some duplicate_rejection.
Proof.
  intros He Hw Hg Hrb Hk Hts Hst Hs. rewrite (enforce_gated _ _ _ _ _ _ He Hg), Hrb.
  destruct (is_empty (i_Key (intent_of lower tx))) eqn:Hempty; [apply is_empty_iff in Hempty; contradiction|].
  pose proof (decision_repeated lower (compactionWindow c) (clock 0%nat) (intent_of lower tx) (Envelope_ tx) l Hk Hw Hts) as Hdup.
  destruct (compactionDecision _ _ _ _ _ _) as [d l1]. cbn [fst] in Hdup. rewrite Hdup; [done|].
  exists (noted lower seen_at (intent_of lower tx) (Envelope_ tx)). split_and!; [done..| |done|done].
  cbn. unfold if_unset. by rewrite (proj2 (Z.leb_gt _ _)).
Qed.

(** An attempt on a noted intent is refused before the mempool: by the replay filter, or as
    a duplicate. *)
Lemma offer_noted at_ topic tx meta n seen_at : enforcing lower c -> 0 < compactionWindow c -> gated lower topic tx ->
  negb (rollbackEnabled c) && isRollbackIntent (intent_of lower tx) = false ->
  i_Key (intent_of lower tx) <> [] -> 0 < i_TsMs (intent_of lower tx) ->
  compactionState (lifecycle (ext n)) !! i_Key (intent_of lower tx) = Some (noted lower seen_at (intent_of lower tx) (Envelope_ tx)) ->
  Sub (at_hook at_ 1) seen_at <= compactionWindow c ->
  exists n1, offer hooks at_ topic tx meta n =
      (Err (if (shouldRejectReplayOnAdmit rc tx (at_hook at_ 0) (replay (ext n))).1 then EReplayRejected else duplicate_rejection), n1) /\
    pool n1 = pool n /\ marked n1 = marked n.
Proof.
  intros He Hw Hg Hrb Hk Hts Hst Hs.
  pose proof (enforce_noted (fun k => at_hook at_ (S k)) topic tx (lifecycle (ext n)) seen_at He Hw Hg Hrb Hk Hts Hst Hs) as Hen.
  unfold offer. rewrite emitPreAdmit_service. destruct (shouldRejectReplayOnAdmit _ _ _ _) as [[] r]; cbn [fst].
  - eexists. split; [done|]. by destruct (errors_is _ _).
  - destruct (enforceLifecyclePreAdmit _ _ _ _ _ _) as [e l]. cbn [fst] in Hen. subst e. eexists. split; [done|]. by destruct (errors_is _ _).
Qed.

Lemma processPolicyMessage_same vc now now' m r r' :
  processPolicyMessage vc now m = Ok r -> processPolicyMessage vc now' m = Ok r' -> r = r'.
Proof.
  unfold processPolicyMessage. intros H H'. destruct (DecodePolicyMsg _) as [msg|]; [|done]. cbn in H, H'.
  go_inv H. go_inv H'. unfold VerifyPolicyMsg in *. go_inv Hstep. go_inv Hstep0. congruence.
Qed.

Lemma processMessage_policy at_ m n : g_Topic m = topicPolicy ->
  processMessage hooks at_ m n =
    match processPolicyMessage (verifierCfg (consumer n)) (at_verify at_) m with
    | Err e => (Err (EVerify e), routeToDLQ m (EVerify e) n)
    | Ok (tx, meta) => offer hooks at_ topicPolicy tx meta (seen at_ n)
    end.
Proof. intros Ht. rewrite processMessage_eq, Ht. change (handler topicPolicy) with (Some processPolicyMessage). done. Qed.

(** Why the second attempt at a noted intent is refused. *)
Definition second_refusal (at_ : instants) (m : message) (tx : Transaction) (n : node admission) : ingest_error :=
  match processPolicyMessage (verifierCfg (consumer n)) (at_verify at_) m with
  | Err e => EVerify e
  | Ok _ => if (shouldRejectReplayOnAdmit rc tx (at_hook at_ 0) (replay (ext n))).1 then EReplayRejected else duplicate_rejection
  end.

Lemma second_refusal_permanent at_ m tx n : isPermanentErr (second_refusal at_ m tx n) = true.
Proof. unfold second_refusal. destruct (processPolicyMessage _ _ _); [by destruct (shouldRejectReplayOnAdmit _ _ _ _).1|done]. Qed.

(** A message whose intent is noted fails for good. *)
Lemma processMessage_noted at_ m n tx meta now seen_at : enforcing lower c -> 0 < compactionWindow c -> g_Topic m = topicPolicy ->
  processPolicyMessage (verifierCfg (consumer n)) now m = Ok (tx, meta) ->
  isLifecycleIntent lower (intent_of lower tx) = true -> negb (rollbackEnabled c) && isRollbackIntent (intent_of lower tx) = false ->
  i_Key (intent_of lower tx) <> [] -> 0 < i_TsMs (intent_of lower tx) ->
  compactionState (lifecycle (ext n)) !! i_Key (intent_of lower tx) = Some (noted lower seen_at (intent_of lower tx) (Envelope_ tx)) ->
  Sub (at_hook at_ 1) seen_at <= compactionWindow c ->
  exists n1, processMessage hooks at_ m n = (Err (second_refusal at_ m tx n), n1) /\ pool n1 = pool n /\ marked n1 = marked n.
Proof.
  intros He Hw Ht Hm Hi Hrb Hk Hts Hst Hs. rewrite processMessage_policy by done. unfold second_refusal.
  destruct (processPolicyMessage _ (at_verify at_) m) as [[tx' meta']|e] eqn:Hm'.
  - pose proof (processPolicyMessage_same _ _ _ _ _ _ Hm Hm') as [= <- <-].
    destruct (offer_noted at_ topicPolicy tx meta (seen at_ n) seen_at) as (n1 & H1 & H2 & H3); try done. by exists n1.
  - eexists. split; [done|]. unfold routeToDLQ. by destruct (is_empty _).
Qed.

Definition taken (m : message) (hw : Z) (n : node admission) : node admission :=
  count incrementConsumed
    (upd (with_parts (trackPartitionStats (g_Topic m) (g_Partition m) (g_Offset m) (lag_of hw (g_Offset m)) (Z.max hw (g_Offset m)))) n).

(** C35. Under an enforcing gate with a window, the retry after a full or rate limited
    mempool cannot succeed for a lifecycle policy that carries a time of its own, when it
    comes within the window of the first attempt: the first attempt has noted the intent, and
    the second is refused for good, as a duplicate of it unless it no longer verifies or the
    replay filter knows it by then. The message counts as failed and is marked, and the
    mempool is as the first attempt left it. *)
Theorem transient_failure_is_final (m : message) (hw : Z) (turns : nat -> turn) (n n1 : node admission)
  (tx : Transaction) (meta : AdmissionMeta) (e : mp_error)
  (He : enforcing lower c) (Hw : 0 < compactionWindow c) (Ht : g_Topic m = topicPolicy)
  (Hm : processPolicyMessage (verifierCfg (consumer n)) (at_verify (t_at (turns 0%nat))) m = Ok (tx, meta))
  (Hi : isLifecycleIntent lower (intent_of lower tx) = true) (Hts : 0 < i_TsMs (intent_of lower tx))
  (Hmax : 2 <= retryMax (consumer n))
  (Hfirst : processMessage hooks (t_at (turns 0%nat)) m (taken m hw n) = (Err (EMempool e), n1))
  (Htrans : e = ErrRateLimited \/ e = ErrMempoolFull) (Hgo : t_ended (turns 0%nat) = false)
  (Hsoon : Sub (at_hook (t_at (turns 1%nat)) 1) (at_hook (t_at (turns 0%nat)) 1) <= compactionWindow c) :
  (processMessage hooks (t_at (turns 1%nat)) m (count incrementRetried n1)).1 = Err (second_refusal (t_at (turns 1%nat)) m tx n1) /\
  ((exists r, processPolicyMessage (verifierCfg (consumer n1)) (at_verify (t_at (turns 1%nat))) m = Ok r) ->
   (shouldRejectReplayOnAdmit rc tx (at_hook (t_at (turns 1%nat)) 0) (replay (ext n1))).1 = false ->
   second_refusal (t_at (turns 1%nat)) m tx n1 = duplicate_rejection) /\
  exists n', handle_message hooks m hw turns n = (Failed, [retryBackoffBase (consumer n)], n') /\
    marked n' = m :: marked n /\ pool n' = pool n1.
Proof.
  pose proof (processMessage_settled _ _ _ _ _ _ Hfirst) as Hcore.
  unfold core in Hcore. cbn in Hcore. injection Hcore as Hmk Hcfg _ _ _ _ _ _ _ _.
  assert (Hg : gated lower topicPolicy tx) by (split; [by vm_compute|done]).
  pose proof Hfirst as Hoff. rewrite processMessage_policy in Hoff by done.
  change (verifierCfg (consumer (taken m hw n))) with (verifierCfg (consumer n)) in Hoff. rewrite Hm in Hoff.
  apply offer_refused in Hoff as (Hk & Hrb & Hst); [|done..].
  destruct (processMessage_noted (t_at (turns 1%nat)) m (count incrementRetried n1) tx meta (at_verify (t_at (turns 0%nat))) (at_hook (t_at (turns 0%nat)) 1))
    as (n2 & H2 & Hpool & Hmk2); try done; [by rewrite <- Hm, <- Hcfg|].
  pose proof (second_refusal_permanent (t_at (turns 1%nat)) m tx n1) as Hp2.
  change (second_refusal (t_at (turns 1%nat)) m tx (count incrementRetried n1)) with (second_refusal (t_at (turns 1%nat)) m tx n1) in H2.
  split; [by rewrite H2|]. split.
  { intros [r Hr] Hrep. unfold second_refusal. by rewrite Hr, Hrep. }
  change (handle_message hooks m hw turns n) with
    (attempt_loop hooks m turns (Z.to_nat (retryMax (consumer n))) 0 (retryBackoffBase (consumer n)) (taken m hw n)).
  destruct (Z.to_nat (retryMax (consumer n))) as [|[|left]] eqn:Hleft; [lia..|]. cbn [attempt_loop]. rewrite Hfirst.
  replace (isPermanentErr (EMempool e)) with false by (by destruct Htrans as [-> | ->]).
  rewrite Hgo, H2, Hp2. eexists. split; [done|]. cbn. by rewrite Hmk2, Hpool, <- Hmk.
Qed.

(** *** After an admission *)







End path.

(** ** Concrete runs *)

Definition demo_lifecycle : LifecycleConfig := MkLifecycleConfig (str " Enforce") true (30 * Second).
Definition demo_hooks : Hooks admission := service_hooks ToLower demo_replay demo_lifecycle.
Definition demo_admission : admission := MkAdmission NewReplay NewLifecycle 0.

Definition add_message : message := policy_message 1 "{'policy_id':'P-1','action':'Add','ts_ms':1000}".
Definition update_message : message := policy_message 2 "{'params':{'policy_id':'p-1 ','action':'update','ts_ms':2000}}".
Definition tx_of_message (m : message) : Transaction :=
  match @processPolicyMessage toy_pb toy_ed demo_verifier (at_ 1) m with
  | Ok (tx, _) => tx | Err _ => APolicy (MkPolicyTx 0 [] (MkEnvelope [] [] [] [] [] [])) end.
Definition policy_meta : AdmissionMeta := MkMeta 8 (f_of_Z 1) p1.

(** The addition admitted at 1. *)
Definition after_add : node admission :=
  (@ConsumeClaim toy_pb toy_ed admission demo_hooks true [Delivered add_message 4 (turns_at 1)] (node_of demo_admission)).2.

Example demo_lifecycle_runs :
  extractLifecycleIntent ToLower (Payload (tx_of_message update_message)) = MkIntent (str "update") [] [] (str "p-1|||") 2000 /\
  size (entries (pool after_add)) = 1%nat /\ settled after_add = 1 /\
  st_TsMs <$> compactionState (lifecycle (ext after_add)) !! str "p-1|||" = Some 1000.
Proof. vm_compute. by split_and!. Qed.

(** The update in the same second is rate limited, and its retry is refused. *)
Definition same_second : nat -> turn := fun _ => MkTurn (instants_at 1) false.
Definition first_attempt : result ingest_error unit * node admission :=
  @processMessage toy_pb toy_ed admission demo_hooks (instants_at 1) update_message (taken update_message 4 after_add).

Lemma transient_failure_is_final_witness :
  (first_attempt.1 = Err (EMempool ErrRateLimited) /\ retryMax (consumer after_add) = 5) /\
  @second_refusal toy_pb toy_ed demo_replay (instants_at 1) update_message (tx_of_message update_message) first_attempt.2 = duplicate_rejection /\
  exists n', @handle_message toy_pb toy_ed admission demo_hooks update_message 4 same_second after_add =
    (Failed, [retryBackoffBase (consumer after_add)], n') /\ marked n' = update_message :: marked after_add /\ pool n' = pool first_attempt.2.
Proof.
  split; [split; by vm_compute|]. split; [by vm_compute|].
  apply (@transient_failure_is_final toy_pb toy_ed ToLower demo_replay demo_lifecycle update_message 4 same_second after_add first_attempt.2
    (tx_of_message update_message) policy_meta ErrRateLimited).
  all: lazymatch goal with |- processMessage _ _ _ _ = _ => idtac | |- _ \/ _ => by left | |- _ => by vm_compute end.
  assert (E : processMessage (service_hooks ToLower demo_replay demo_lifecycle) (t_at (same_second 0%nat)) update_message
    (taken update_message 4 after_add) = first_attempt) by (unfold first_attempt, demo_hooks; reflexivity).
  assert (H : first_attempt.1 = Err (EMempool ErrRateLimited)) by by vm_compute.
  rewrite E, <- H. apply surjective_pairing.
Defined.



(** A removal, and what is tried after it. *)
Definition tx_policy (params : string) : Transaction := tx_of_message (policy_message 9 params).
Definition removal_tx : Transaction := tx_policy "{'policy_id':'p-1','action':'remove','ts_ms':3000}".
Definition removed : Lifecycle := (enforceLifecyclePreAdmit ToLower demo_lifecycle (fun _ => at_ 5) topicPolicy removal_tx NewLifecycle).2.
Definition noted_removal : lifecycleIntentState := noted ToLower (at_ 5) (intent_of ToLower removal_tx) (Envelope_ removal_tx).
Definition revival_calls : list gate_call :=
  [((fun _ => at_ 6), topicPolicy, tx_policy "{'policy_id':'p-2','action':'remove','ts_ms':1}");
   ((fun _ => at_ 7), topicPolicy, tx_policy "{'policy_id':'p-1','action':'add','ts_ms':4000}");
   ((fun _ => at_ 30), str " AI.Policy.v1", tx_policy "{'policy_id':'P-1','action':'refresh'}")].

Definition last_revival : gate_call := nth 2 revival_calls ((fun _ => at_ 0), [], removal_tx).

Lemma removal_holds_witness :
  is_Some (compactionState removed !! str "p-1|||") /\
  exists e, (run_gate ToLower demo_lifecycle revival_calls removed).1 !! 2%nat = Some (Some e).
Proof.
  split; [vm_compute; by eexists|].
  apply (removal_holds ToLower demo_lifecycle revival_calls removed (str "p-1|||") noted_removal 2 last_revival).
  all: lazymatch goal with |- Forall _ _ => apply (bool_decide_unpack _); vm_compute; exact I | |- _ => by vm_compute end.
Defined.

(** The removal is noted no more once an intent to reject was accepted, which is no revival
    and no removal; and it does not stop an intent whose control action alone would bring
    the policy back. *)
Definition gate_at (n : Z) (params : string) : gate_call := ((fun _ => at_ n), topicPolicy, tx_policy params).
Example removal_overwritten :
  (run_gate ToLower demo_lifecycle
     [gate_at 6 "{'policy_id':'p-1','action':'reject','ts_ms':3500}"; gate_at 7 "{'policy_id':'p-1','action':'add','ts_ms':4000}"] removed).1 =
    [None; None] /\
  (run_gate ToLower demo_lifecycle [gate_at 6 "{'policy_id':'p-1','control_action':'add','ts_ms':3500}"] removed).1 = [None].
Proof. vm_compute. by split_and!. Qed.

(** In audit mode the second intent is let through, though it is counted as rejected. *)
Example audit_observes :
  let c := (configure ToLower (str "AUDIT ") true (30 * Second) (-1) NewLifecycle).1 in
  let r := run_gate ToLower c [gate_at 6 "{'policy_id':'p-1','action':'add','ts_ms':3500}"; gate_at 7 "{'policy_id':'p-1','action':'add','ts_ms':3000}"] NewLifecycle in
  r.1 = [None; None] /\ compactionRejected r.2 = 1 /\ preAdmitAllowed r.2 = 2 /\ size (compactionState r.2) = 1%nat.
Proof. vm_compute. by split_and!. Qed.
