(* ===== verification/Peers.v ===== *)
(** backend/pkg/p2p, state.go and the parts of router.go that decide with it: the record
    of every peer, its score, its quarantine, and what the router and the service ask
    about the peers. *)
From S2P Require Import Prelude Bytes Sha256 GoTime GoFloat GoStrings GoJson.
Import Json.
Local Open Scope Z_scope.

Record PeerState := MkPeer {
  LastSeen : Time; LastDecay : Time; BytesIn : Z; MsgIn : Z; Score : float64; Connected : bool; Quarantined : bool;
  QuarantineAt : Time; Labels : gmap bytes bytes; MessageGapEMA : float64; PingRTTEMA : float64 }.

(** The settings; the threshold is read anew at every use. *)
Record PeerConfig := MkPeerConfig {
  heartbeatInterval : Z; livenessTimeout : Z; decayInterval : Z; decayFactor : float64; quarantineTTL : Z; maxPeers : Z;
  quarantineThreshold : float64 }.

Record State := MkState {
  peers : gmap bytes PeerState; seen : gmap bytes Time; startup : Time; started : bool; stopped : bool }.

Definition with_peers m (s : State) : State := MkState m (seen s) (startup s) (started s) (stopped s).
Definition put (id : bytes) (ps : PeerState) (s : State) : State := with_peers (<[id := ps]> (peers s)) s.
Definition saw (id : bytes) (t : Time) (s : State) : State :=
  MkState (peers s) (<[id := t]> (seen s)) (startup s) (started s) (stopped s).

Definition set_score x (p : PeerState) : PeerState :=
  MkPeer (LastSeen p) (LastDecay p) (BytesIn p) (MsgIn p) x (Connected p) (Quarantined p) (QuarantineAt p) (Labels p) (MessageGapEMA p)
    (PingRTTEMA p).
Definition set_seen connected t (p : PeerState) : PeerState :=
  MkPeer t (LastDecay p) (BytesIn p) (MsgIn p) (Score p) connected (Quarantined p) (QuarantineAt p) (Labels p) (MessageGapEMA p) (PingRTTEMA p).
Definition set_decay t (p : PeerState) : PeerState :=
  MkPeer (LastSeen p) t (BytesIn p) (MsgIn p) (Score p) (Connected p) (Quarantined p) (QuarantineAt p) (Labels p) (MessageGapEMA p)
    (PingRTTEMA p).
Definition set_quarantine b t (p : PeerState) : PeerState :=
  MkPeer (LastSeen p) (LastDecay p) (BytesIn p) (MsgIn p) (Score p) (Connected p) b t (Labels p) (MessageGapEMA p) (PingRTTEMA p).
Definition set_labels l (p : PeerState) : PeerState :=
  MkPeer (LastSeen p) (LastDecay p) (BytesIn p) (MsgIn p) (Score p) (Connected p) (Quarantined p) (QuarantineAt p) l (MessageGapEMA p)
    (PingRTTEMA p).
Definition set_gap x (p : PeerState) : PeerState :=
  MkPeer (LastSeen p) (LastDecay p) (BytesIn p) (MsgIn p) (Score p) (Connected p) (Quarantined p) (QuarantineAt p) (Labels p) x (PingRTTEMA p).
Definition set_rtt x (p : PeerState) : PeerState :=
  MkPeer (LastSeen p) (LastDecay p) (BytesIn p) (MsgIn p) (Score p) (Connected p) (Quarantined p) (QuarantineAt p) (Labels p) (MessageGapEMA p) x.
Definition add_traffic n (p : PeerState) : PeerState :=
  MkPeer (LastSeen p) (LastDecay p) (u64 (BytesIn p + u64 n)) (u64 (MsgIn p + 1)) (Score p) (Connected p) (Quarantined p) (QuarantineAt p)
    (Labels p) (MessageGapEMA p) (PingRTTEMA p).

(** The constants of the code. *)
Definition dec (m e : Z) : float64 := float_of_decimal false m e.
Definition f_neg100 : float64 := f_of_Z (-100).
Definition MaxFloat64 : float64 := S754_finite false (2 ^ 53 - 1) 971.

Definition clamp (v lo hi : float64) : float64 := if f_ltb v lo then lo else if f_ltb hi v then hi else v.

(** [NewState] with what the configuration gives. *)
Definition NewState (hb live decay : Z) (df : float64) (qttl maxp : Z) (threshold : float64) (now : Time) : PeerConfig * State :=
  (MkPeerConfig hb live decay (clamp df (dec 80 (-2)) (dec 999 (-3))) qttl
     (if (maxp <? 1) || (10000 <? maxp) then 512 else maxp) threshold,
   MkState ∅ ∅ now false false).

Definition ResetPeersSeen (now : Time) (s : State) : State := MkState (peers s) ∅ now (started s) (stopped s).
(** Under [sync.Once]. *)
Definition Start (now : Time) (s : State) : State :=
  if started s then s else let s := ResetPeersSeen now s in MkState (peers s) (seen s) (startup s) true (stopped s).
Definition Stop (s : State) : State := MkState (peers s) (seen s) (startup s) (started s) true.

Section state.
Context (c : PeerConfig).

(** The callers pass a reading of the clock, never the zero time. *)
Definition isQuarantinedLocked (ps : PeerState) (now : Time) : bool :=
  Quarantined ps && (Sub now (QuarantineAt ps) <? quarantineTTL c).

(** ** Changes *)

(** One visited peer in the search for the lowest score. *)
Definition lower_of (now : Time) (acc : bytes * float64) (kv : bytes * PeerState) : bytes * float64 :=
  if isQuarantinedLocked kv.2 now then acc else if f_ltb (Score kv.2) acc.2 then (kv.1, Score kv.2) else acc.
Definition lowest (range : visit_order bytes PeerState) (now : Time) (m : gmap bytes PeerState) : bytes :=
  (foldl (lower_of now) ([], MaxFloat64) (range m)).1.
Definition evictLowestScorePeer (range : visit_order bytes PeerState) (now : Time) (m : gmap bytes PeerState) : gmap bytes PeerState :=
  match lowest range now m with [] => m | id => delete id m end.

Definition fresh_peer (t t' : Time) : PeerState :=
  MkPeer t t' 0 0 (f_of_Z 0) false false zero_time ∅ (f_of_Z 0) (f_of_Z 0).

(** What one call reads: the clock, reading by reading, and the order of its map. *)
Record reading := MkReading { clock : nat -> Time; order : visit_order bytes PeerState }.

(** The record of a peer, made when there is none; it reads the clock three times. *)
Definition ensure (r : reading) (id : bytes) (s : State) : PeerState * State :=
  let s := if maxPeers c <=? Z.of_nat (size (peers s)) then with_peers (evictLowestScorePeer (order r) (clock r 0) (peers s)) s else s in
  match peers s !! id with
  | Some ps => (ps, s)
  | None => let ps := fresh_peer (clock r 1) (clock r 2) in (ps, put id ps s)
  end.

Definition OnConnect (r : reading) (id : bytes) (labels : option (gmap bytes bytes)) (s : State) : State :=
  let '(ps, s) := ensure r id s in
  let ps := set_decay (clock r 4) (set_seen true (clock r 3) ps) in
  let ps := match labels with Some l => set_labels l ps | None => ps end in
  put id (set_score (f_add (Score ps) (dec 2 (-1))) ps) (saw id (clock r 3) s).

Definition OnDisconnect (id : bytes) (s : State) : State :=
  match peers s !! id with Some ps => put id (set_seen false (LastSeen ps) ps) s | None => s end.

(** A moving average that starts with its first sample. *)
Definition ema (keep new avg sample : float64) : float64 :=
  if f_eqb avg (f_of_Z 0) then sample else f_add (f_mul avg keep) (f_mul sample new).

Definition OnMessage (r : reading) (from : bytes) (n : Z) (s : State) : State :=
  let '(ps, s) := ensure r from s in
  let now := clock r 3 in
  let ps :=
    if IsZero (LastSeen ps) then ps
    else
      let interval := Seconds (Sub now (LastSeen ps)) in
      if f_leb (f_of_Z 0) interval then set_gap (ema (dec 9 (-1)) (dec 1 (-1)) (MessageGapEMA ps) interval) ps else ps in
  let ps := add_traffic n (set_seen true now ps) in
  put from (set_score (clamp (f_add (Score ps) (dec 5 (-2))) f_neg100 (f_of_Z 100)) ps) (saw from now s).

Definition quarantine (now : Time) (ps : PeerState) : PeerState := set_quarantine true now ps.

Definition Penalize (r : reading) (id : bytes) (severity : float64) (s : State) : State :=
  let '(ps, s) := ensure r id s in
  let pen := clamp severity (dec 1 (-1)) (f_of_Z 10) in
  let ps := set_score (f_sub (Score ps) pen) ps in
  put id (if f_ltb (Score ps) (quarantineThreshold c) then quarantine (clock r 3) ps else ps) s.

(** [now] is the reading taken for the quarantine; the zero [ts] is replaced by [now']. *)
Definition TouchPeer (now now' : Time) (id : bytes) (ts : Time) (s : State) : State :=
  match peers s !! id with
  | None => s
  | Some ps =>
      if isQuarantinedLocked ps now then s
      else let ts := if IsZero ts then now' else ts in put id (set_seen true ts ps) (saw id ts s)
  end.

Definition RecordLatencySample (r : reading) (id : bytes) (latency : Z) (s : State) : State :=
  let now := clock r 3 in
  let '(ps, s) := ensure r id s in
  let '(ps, s) := if isQuarantinedLocked ps now then (ps, s) else (set_seen true now ps, saw id now s) in
  put id (if 0 <? latency then set_rtt (ema (dec 8 (-1)) (dec 2 (-1)) (PingRTTEMA ps) (Seconds latency)) ps else ps) s.

(** [math.Pow], which is computed by the machine's own instructions on some platforms. *)
Definition decay_one (pow : float64 -> float64 -> float64) (now : Time) (ps : PeerState) : PeerState :=
  let timeSinceDecay := Sub now (LastDecay ps) in
  if timeSinceDecay <? decayInterval c then ps
  else
    let steps := f_div (f_of_Z timeSinceDecay) (f_of_Z (decayInterval c)) in
    let ps := if f_ltb (f_of_Z 0) steps then set_decay now (set_score (f_mul (Score ps) (pow (decayFactor c) steps)) ps) else ps in
    if Quarantined ps && (quarantineTTL c <=? Sub now (QuarantineAt ps)) then set_quarantine false (QuarantineAt ps) ps else ps.
Definition applyDecay (pow : float64 -> float64 -> float64) (now : Time) (s : State) : State :=
  with_peers (decay_one pow now <$> peers s) s.

(** [at_] is the reading a quarantine of this peer takes. *)
Definition liveness_one (now at_ : Time) (ps : PeerState) : PeerState :=
  if negb (Connected ps) then ps
  else if livenessTimeout c <? Sub now (LastSeen ps) then
    let ps := set_score (f_sub (Score ps) (dec 5 (-1))) ps in
    if f_ltb (Score ps) (quarantineThreshold c) && negb (Quarantined ps) then quarantine at_ ps else ps
  else ps.
Definition checkLiveness (now : Time) (at_ : bytes -> Time) (s : State) : State :=
  with_peers (map_imap (fun id ps => Some (liveness_one now (at_ id) ps)) (peers s)) s.

(** ** Questions *)

Definition IsQuarantined (now : Time) (id : bytes) (s : State) : bool :=
  match peers s !! id with Some ps => isQuarantinedLocked ps now | None => false end.
Definition ScoreFor (id : bytes) (s : State) : float64 := match peers s !! id with Some ps => Score ps | None => f_of_Z 0 end.
Definition GetPeerCount (s : State) : Z := Z.of_nat (size (peers s)).

(** The records a condition holds of, the excluded peer left out. *)
Definition count_peers (excluded : bytes) (p : PeerState -> bool) (s : State) : Z :=
  Z.of_nat (size (filter (fun kv => (kv.1 <> excluded \/ excluded = []) /\ p kv.2 = true) (peers s))).

Definition GetConnectedPeerCountExcluding (now : Time) (excluded : bytes) (s : State) : Z :=
  count_peers excluded (fun ps => Connected ps && negb (isQuarantinedLocked ps now)) s.
Definition GetActivePeerCountExcluding (now : Time) (excluded : bytes) (since : Z) (s : State) : Z :=
  count_peers excluded (fun ps => Connected ps && negb (isQuarantinedLocked ps now) && (Sub now (LastSeen ps) <? since)) s.
Definition GetQuarantinedCount (now : Time) (s : State) : Z := count_peers [] (fun ps => isQuarantinedLocked ps now) s.
Definition GetPeersSeenSinceStartupExcluding (now : Time) (excluded : bytes) (s : State) : Z :=
  Z.of_nat (size (filter (fun kv =>
    (kv.1 <> excluded \/ excluded = []) /\ Before kv.2 (startup s) = false /\
    match peers s !! kv.1 with Some ps => negb (isQuarantinedLocked ps now) | None => false end = true) (seen s))).

(** ** The router *)

Inductive ValidationResult := ValidationAccept | ValidationReject | ValidationIgnore.

(** The validator of every topic; [id] is the peer the message comes from. *)
Definition validator (TopicMaxSize : gmap bytes Z) (now : Time) (id : bytes) (topic : option bytes) (data : bytes) (s : State) : ValidationResult :=
  if IsQuarantined now id s then ValidationReject
  else
    match topic with
    | None => ValidationIgnore
    | Some t => match TopicMaxSize !! t with
                | Some max => if max <? len data then ValidationReject else ValidationAccept
                | None => ValidationAccept
                end
    end.

(** The gater, after the addresses have been compared. *)
Definition InterceptPeerDial (trusted : gset bytes) (now : Time) (p : bytes) (s : State) : bool :=
  negb (IsQuarantined now p s && negb (bool_decide (p ∈ trusted))).
Definition InterceptSecured (trusted : gset bytes) (allowIP : bool) (now : Time) (p : bytes) (s : State) : bool :=
  allowIP && InterceptPeerDial trusted now p s.

(** What the reader of a topic does with a message before the handlers run; [None] is a
    message passed over. The node hears its own messages too. *)
Definition DebugConsume (r : reading) (received_from data : bytes) (s : State) : option State :=
  match received_from, data with
  | [], _ | _, [] => None
  | _, _ => Some (OnMessage r received_from (len data) s)
  end.

(** [conns] are the peers of the transport with the number of their connections, [clocks]
    the readings of the quarantine test. *)
Definition refreshConnectionActivity (now : Time) (clocks : bytes -> Time) (conns : list (bytes * Z)) (s : State) : State :=
  foldl (fun s conn => if conn.2 =? 0 then s else TouchPeer (clocks conn.1) now conn.1 now s) s conns.
Definition Router_GetConnectedPeerCount (now : Time) (self : bytes) (s : State) : Z := GetConnectedPeerCountExcluding now self s.
Definition Router_GetActivePeerCount (now : Time) (clocks : bytes -> Time) (conns : list (bytes * Z)) (now' : Time) (self : bytes) (since : Z)
  (s : State) : Z * State :=
  let s := refreshConnectionActivity now clocks conns s in (GetActivePeerCountExcluding now' self since s, s).
End state.

(** [PeerHash] over the printed identifiers: this node and the peers it has a record of. *)
Definition PeerHash (show : bytes -> bytes) (self : bytes) (s : State) : bytes :=
  let ids := merge_sort bytes_le (show self :: (show <$> (map_to_list (peers s)).*1)) in
  sha256 (concat ((fun id => id ++ [x00]) <$> ids)).

Inductive peer_status := Critical | Offline | Unknown | Warning | Healthy.
Definition derivePeerStatus (ps : PeerState) (now : Time) : peer_status :=
  if Quarantined ps then Critical
  else if negb (Connected ps) then Offline
  else if IsZero (LastSeen ps) then Unknown
  else
    let elapsed := Sub now (LastSeen ps) in
    if 2 * Minute <? elapsed then Critical else if 30 * Second <? elapsed then Warning else Healthy.

(** *** How many peers to keep connected *)

(** The entries of a list that are not blank. *)
Definition listed_nodes (consensusNodesRaw : list bytes) : Z := len (filter (fun p => TrimSpace p <> []) consensusNodesRaw).

Definition computeBootstrapRedialMinPeers (explicit : Z) (consensusNodesRaw : list bytes) : Z :=
  if 0 <=? explicit then explicit
  else
    let nodes := listed_nodes consensusNodesRaw in
    if nodes <=? 1 then 0
    else
      let f := Z.quot (nodes - 1) 3 in
      let requiredReady := Z.max 1 (2 * f + 1) in
      Z.min (nodes - 1) (Z.max 1 (requiredReady - 1)).
Definition computeExpectedValidatorPeerCount (consensusNodesRaw : list bytes) : Z :=
  let nodes := listed_nodes consensusNodesRaw in if nodes <=? 1 then 0 else nodes - 1.
Definition computeBootstrapConnectivityTarget (configuredTargets : Z) (consensusNodesRaw : list bytes) : Z :=
  if configuredTargets <=? 0 then computeBootstrapRedialMinPeers (-1) consensusNodesRaw
  else
    let expectedPeers := computeExpectedValidatorPeerCount consensusNodesRaw in
    if expectedPeers <=? 0 then configuredTargets
    else if configuredTargets <? expectedPeers then configuredTargets else expectedPeers.
