(* ===== verification/PeersRuns.v ===== *)
(** The properties of the records of the peers over runs: quarantines hold until they
    expire; what a full table forgets; what counts as activity. *)
From S2P Require Import Prelude Bytes Sha256 GoTime GoFloat GoStrings GoJson Peers.
Import Json.
Local Open Scope Z_scope.

(** ** Runs *)

Inductive peer_op :=
| PConnect (r : reading) (id : bytes) (labels : option (gmap bytes bytes))
| PDisconnect (id : bytes)
| PMessage (r : reading) (id : bytes) (n : Z)
| PPenalize (r : reading) (id : bytes) (severity : float64)
| PTouch (now now' : Time) (id : bytes) (ts : Time)
| PLatency (r : reading) (id : bytes) (latency : Z)
| PDecay (now : Time)
| PLiveness (now : Time) (at_ : bytes -> Time)
| PReset (now : Time).

(** The readings of the clock an operation takes, as far as quarantines depend on them. *)
Definition reads (o : peer_op) (t : Time) : Prop :=
  match o with
  | PConnect r _ _ | PMessage r _ _ | PPenalize r _ _ | PLatency r _ _ => exists k, t = clock r k
  | PTouch now _ _ _ => t = now
  | PDecay now => t = now
  | PLiveness now at_ => t = now \/ exists id, t = at_ id
  | PDisconnect _ | PReset _ => False
  end.

Section runs.
Context (c : PeerConfig) (pow : float64 -> float64 -> float64).

Definition run_peer_op (s : State) (o : peer_op) : State :=
  match o with
  | PConnect r id labels => OnConnect c r id labels s
  | PDisconnect id => OnDisconnect id s
  | PMessage r id n => OnMessage c r id n s
  | PPenalize r id sev => Penalize c r id sev s
  | PTouch now now' id ts => TouchPeer c now now' id ts s
  | PLatency r id l => RecordLatencySample c r id l s
  | PDecay now => applyDecay c pow now s
  | PLiveness now at_ => checkLiveness c now at_ s
  | PReset now => ResetPeersSeen now s
  end.
Definition run_peer_ops (ops : list peer_op) (s : State) : State := foldl run_peer_op s ops.

(** ** Quarantine *)

Lemma Sub_later t u u' : nanos u <= nanos u' -> Sub t u' <= Sub t u.
Proof. unfold Sub. lia. Qed.

(** The clock has not gone back behind [t0], and the quarantine of [t0] has not expired. *)
Definition within (t0 t : Time) : Prop := nanos t0 <= nanos t /\ Sub t t0 < quarantineTTL c.

Definition held (t0 : Time) (ps : PeerState) : Prop := Quarantined ps = true /\ nanos t0 <= nanos (QuarantineAt ps).

Lemma held_quarantined t0 t ps : held t0 ps -> within t0 t -> isQuarantinedLocked c ps t = true.
Proof.
  intros [Hq Ht] [_ Hs]. unfold isQuarantinedLocked. rewrite Hq. apply Z.ltb_lt. pose proof (Sub_later t _ _ Ht). lia.
Qed.

Lemma lowest_spec range now m : lowest c range now m <> [] ->
  exists ps, m !! lowest c range now m = Some ps /\ isQuarantinedLocked c ps now = false.
Proof.
  unfold lowest.
  assert (Hin : forall kv, kv ∈ range m -> m !! kv.1 = Some kv.2).
  { intros [k ps] Hkv. rewrite (visit_perm _ _ range m) in Hkv. by apply elem_of_map_to_list. }
  revert Hin. generalize (range m). intros l Hin.
  assert (Hacc : forall acc : bytes * float64, (acc.1 = [] \/ exists ps, m !! acc.1 = Some ps /\ isQuarantinedLocked c ps now = false) ->
    ((foldl (lower_of c now) acc l).1 = [] \/ exists ps, m !! (foldl (lower_of c now) acc l).1 = Some ps /\ isQuarantinedLocked c ps now = false)).
  { induction l as [|kv l IH]; intros acc Ha; [done|]. cbn [foldl]. apply IH; [intros kv' Hkv'; apply Hin; by right|].
    unfold lower_of. destruct (isQuarantinedLocked c kv.2 now) eqn:Hq; [done|]. destruct (f_ltb _ _); [|done].
    right. exists kv.2. split; [|done]. cbn. apply Hin. by left. }
  destruct (Hacc ([], MaxFloat64)) as [H|H]; [by left|done|done].
Qed.

(** A peer in quarantine is not evicted. *)
Lemma evict_held range now m id ps : m !! id = Some ps -> isQuarantinedLocked c ps now = true ->
  evictLowestScorePeer c range now m !! id = Some ps.
Proof.
  intros Hid Hq. unfold evictLowestScorePeer. pose proof (lowest_spec range now m) as Hl.
  revert Hl. destruct (lowest c range now m) as [|b l]; [done|]. intros Hl. destruct Hl as (ps' & Hps' & Hq'); [done|].
  rewrite lookup_delete_ne; [done|]. intros Heq. rewrite Heq in Hps'. congruence.
Qed.

Definition kept (t0 : Time) (id : bytes) (s : State) : Prop := exists ps, peers s !! id = Some ps /\ held t0 ps.

Lemma ensure_kept t0 id r id' s ps s' : within t0 (clock r 0) -> kept t0 id s -> ensure c r id' s = (ps, s') ->
  kept t0 id s' /\ (id' = id -> held t0 ps) /\ peers s' !! id' = Some ps.
Proof.
  intros Hw (q & Hq & Hheld). unfold ensure.
  set (s1 := if _ <=? _ then _ else s).
  assert (H1 : peers s1 !! id = Some q).
  { unfold s1. destruct (_ <=? _); [|done]. cbn. apply evict_held; [done|]. by eapply held_quarantined. }
  destruct (peers s1 !! id') as [q'|] eqn:Hq'; intros [= <- <-].
  - split_and!; [by exists q|intros ->; congruence|done].
  - split_and!; [|intros ->; congruence|by cbn; rewrite lookup_insert_eq].
    exists q. cbn. rewrite lookup_insert_ne; [done|]. intros ->. congruence.
Qed.

Lemma put_kept t0 id id' ps s : kept t0 id s -> (id' = id -> held t0 ps) -> kept t0 id (put id' ps s).
Proof.
  intros (q & Hq & Hheld) Hps. destruct (decide (id' = id)) as [->|Hne].
  - exists ps. cbn. rewrite lookup_insert_eq. auto.
  - exists q. cbn. by rewrite lookup_insert_ne.
Qed.

Lemma kept_peers t0 id s s' : peers s' = peers s -> kept t0 id s -> kept t0 id s'.
Proof. unfold kept. by intros ->. Qed.

Lemma run_peer_op_kept t0 id s o : (forall t, reads o t -> within t0 t) -> kept t0 id s -> kept t0 id (run_peer_op s o).
Proof.
  intros Hr Hk. destruct o as [r i l|i|r i n|r i sev|now now' i ts|r i lat|now|now at_|now]; cbn [run_peer_op reads] in *.
  - unfold OnConnect. destruct (ensure c r i s) as [ps s1] eqn:He.
    apply (ensure_kept t0 id) in He as (H1 & H2 & _); [|by apply Hr; exists 0%nat|done].
    apply put_kept; [by apply (kept_peers t0 id s1)|]. intros Hi. by destruct l; apply H2.
  - unfold OnDisconnect. destruct (peers s !! i) as [ps|] eqn:Hi; [|done]. apply put_kept; [done|].
    intros ->. destruct Hk as (q & Hq & Hh). by simplify_eq.
  - unfold OnMessage. destruct (ensure c r i s) as [ps s1] eqn:He.
    apply (ensure_kept t0 id) in He as (H1 & H2 & _); [|by apply Hr; exists 0%nat|done].
    apply put_kept; [by apply (kept_peers t0 id s1)|]. intros Hi. specialize (H2 Hi).
    destruct (IsZero _); [done|]. by destruct (f_leb _ _).
  - unfold Penalize. destruct (ensure c r i s) as [ps s1] eqn:He.
    apply (ensure_kept t0 id) in He as (H1 & H2 & _); [|by apply Hr; exists 0%nat|done].
    apply put_kept; [done|]. intros Hi. specialize (H2 Hi). destruct (f_ltb _ _); [|done]. split; [done|]. cbn.
    apply (Hr (clock r 3)). by exists 3%nat.
  - unfold TouchPeer. destruct (peers s !! i) as [ps|] eqn:Hi; [|done]. destruct (isQuarantinedLocked _ _ _); [done|].
    apply put_kept; [by apply (kept_peers t0 id s)|]. intros ->. destruct Hk as (q & Hq & Hh). by simplify_eq.
  - unfold RecordLatencySample. destruct (ensure c r i s) as [ps s1] eqn:He.
    apply (ensure_kept t0 id) in He as (H1 & H2 & _); [|by apply Hr; exists 0%nat|done].
    destruct (isQuarantinedLocked _ _ _); (apply put_kept; [by apply (kept_peers t0 id s1)|]);
      intros Hi; specialize (H2 Hi); by destruct (0 <? lat).
  - destruct Hk as (q & Hq & Hh). exists (decay_one c pow now q). unfold applyDecay. cbn. rewrite lookup_fmap, Hq. split; [done|].
    pose proof (held_quarantined t0 now q Hh (Hr now eq_refl)) as Hloc. unfold isQuarantinedLocked in Hloc. go_bool.
    unfold decay_one. destruct (_ <? decayInterval c); [done|].
    destruct (f_ltb _ _); cbn; rewrite (proj1 Hh); cbn [andb]; rewrite (proj2 (Z.leb_gt _ _)) by lia; done.
  - destruct Hk as (q & Hq & Hh). exists (liveness_one c now (at_ id) q). unfold checkLiveness. cbn. rewrite map_lookup_imap, Hq.
    split; [done|]. unfold liveness_one. destruct (Connected q); [|done]. cbn [negb]. destruct (livenessTimeout c <? _); [|done]. cbn.
    destruct Hh as [Hqt Ht]. by rewrite Hqt, andb_false_r.
  - by apply (kept_peers t0 id s).
Qed.

(** C34. A quarantine holds until it expires: whatever the peer and the others do, and however
    full the table is, its messages are rejected and it is not connected to, unless the
    operator trusts it. *)
Theorem quarantine_holds (ops : list peer_op) (s : State) (id : bytes) (ps : PeerState) (now : Time)
  (Hid : peers s !! id = Some ps) (Hq : Quarantined ps = true)
  (Hops : Forall (fun o => forall t, reads o t -> within (QuarantineAt ps) t) ops) (Hnow : within (QuarantineAt ps) now) :
  let s' := run_peer_ops ops s in
  IsQuarantined c now id s' = true /\
  (forall sizes topic data, validator c sizes now id topic data s' = ValidationReject) /\
  (forall trusted, id ∉ trusted -> InterceptPeerDial c trusted now id s' = false).
Proof.
  assert (Hk : kept (QuarantineAt ps) id (run_peer_ops ops s)).
  { assert (H0 : kept (QuarantineAt ps) id s) by (exists ps; done). revert H0. clear Hid. revert s.
    induction Hops as [|o ops Ho _ IH]; intros s H0; [done|]. apply IH. by apply run_peer_op_kept. }
  destruct Hk as (q & Hq' & Hh).
  assert (HI : IsQuarantined c now id (run_peer_ops ops s) = true) by (unfold IsQuarantined; rewrite Hq'; by eapply held_quarantined).
  cbv zeta. split_and!; [done| |].
  - intros sizes topic data. unfold validator. by rewrite HI.
  - intros trusted Ht. unfold InterceptPeerDial. by rewrite HI, bool_decide_eq_false_2.
Qed.

(** ** A full table *)

Lemma f_ltb_numbers a b : f_ltb a b = true -> is_nan a = false /\ is_nan b = false.
Proof. unfold f_ltb, SFltb. destruct a as [?|?| |? ? ?], b as [?|?| |? ? ?]; cbn; try done; by repeat case_match. Qed.

Lemma f_ltb_asym a b : f_ltb a b = true -> f_ltb b a = false.
Proof. intros H. destruct (f_ltb_numbers a b H). rewrite f_ltb_key in * by done. by apply lex_ltb_asym. Qed.

Lemma f_ltb_irrefl a : f_ltb a a = false.
Proof. destruct (f_ltb a a) eqn:H; [|done]. by rewrite f_ltb_asym in H. Qed.

(** The peer every other one is quarantined or scores above. *)
Definition weakest (now : Time) (id : bytes) (x : float64) (m : gmap bytes PeerState) : Prop :=
  forall k p, m !! k = Some p -> k <> id -> isQuarantinedLocked c p now = true \/ f_ltb x (Score p) = true.

Lemma lowest_weakest range now m id ps : m !! id = Some ps -> isQuarantinedLocked c ps now = false ->
  weakest now id (Score ps) m -> f_ltb (Score ps) MaxFloat64 = true -> lowest c range now m = id.
Proof.
  intros Hid Hq Hw Hmax. unfold lowest.
  assert (Hin : (id, ps) ∈ range m) by (rewrite (visit_perm _ _ range m); by apply elem_of_map_to_list).
  assert (Hall : forall kv, kv ∈ range m -> kv = (id, ps) \/ isQuarantinedLocked c kv.2 now = true \/ f_ltb (Score ps) (Score kv.2) = true).
  { intros [k p] Hkv. rewrite (visit_perm _ _ range m) in Hkv. apply elem_of_map_to_list in Hkv.
    destruct (decide (k = id)) as [->|Hne]; [left; congruence|right; by eapply Hw]. }
  revert Hin Hall. generalize (range m). intros l Hin Hall.
  assert (Hafter : forall l acc, acc = (id, Score ps) ->
    (forall kv, kv ∈ l -> kv = (id, ps) \/ isQuarantinedLocked c kv.2 now = true \/ f_ltb (Score ps) (Score kv.2) = true) ->
    foldl (lower_of c now) acc l = (id, Score ps)).
  { clear - Hq. induction l as [|kv l IH]; intros acc -> Hl; [done|]. cbn [foldl]. apply IH; [|intros kv' H; apply Hl; by right].
    unfold lower_of. destruct (Hl kv ltac:(by left)) as [->|[H|H]]; cbn [fst snd].
    - by rewrite Hq, f_ltb_irrefl.
    - by rewrite H.
    - destruct (isQuarantinedLocked c kv.2 now); [done|]. by rewrite (f_ltb_asym _ _ H). }
  assert (Hbefore : forall l acc, (id, ps) ∈ l -> f_ltb (Score ps) acc.2 = true ->
    (forall kv, kv ∈ l -> kv = (id, ps) \/ isQuarantinedLocked c kv.2 now = true \/ f_ltb (Score ps) (Score kv.2) = true) ->
    foldl (lower_of c now) acc l = (id, Score ps)).
  { clear Hin Hall. induction l0 as [|kv l0 IH]; intros acc Hin Ha Hl; [by apply not_elem_of_nil in Hin|]. cbn [foldl].
    destruct (Hl kv ltac:(by left)) as [->|[H|H]].
    - apply Hafter; [|intros kv' H; apply Hl; by right]. unfold lower_of. cbn [fst snd]. by rewrite Hq, Ha.
    - apply elem_of_cons in Hin as [<-|Hin]; [cbn in H; congruence|].
      apply IH; [done| |intros kv' H'; apply Hl; by right]. unfold lower_of. by rewrite H.
    - apply elem_of_cons in Hin as [<-|Hin]; [by rewrite f_ltb_irrefl in H|].
      apply IH; [done| |intros kv' H'; apply Hl; by right]. unfold lower_of.
      destruct (isQuarantinedLocked c kv.2 now); [exact Ha|]. destruct (f_ltb (Score kv.2) acc.2); [exact H|exact Ha]. }
  by rewrite Hbefore.
Qed.

(** The record of the weakest peer of a full table is forgotten when the peer is next looked up. *)
Lemma ensure_forgets r id s ps : maxPeers c <= Z.of_nat (size (peers s)) -> id <> [] ->
  peers s !! id = Some ps -> Quarantined ps = false -> weakest (clock r 0) id (Score ps) (peers s) -> f_ltb (Score ps) MaxFloat64 = true ->
  ensure c r id s = (fresh_peer (clock r 1) (clock r 2),
    with_peers (<[id := fresh_peer (clock r 1) (clock r 2)]> (peers s)) s).
Proof.
  intros Hfull Hne Hid Hq Hw Hmax. unfold ensure. rewrite (proj2 (Z.leb_le _ _)) by done.
  assert (Hl : lowest c (order r) (clock r 0) (peers s) = id).
  { eapply lowest_weakest; [done| |done..]. unfold isQuarantinedLocked. by rewrite Hq. }
  unfold evictLowestScorePeer. rewrite Hl. destruct id as [|b id]; [done|]. cbn [peers with_peers]. rewrite lookup_delete_eq.
  unfold put. cbn [peers with_peers]. by rewrite insert_delete_eq.
Qed.

Definition penalty (severity : float64) : float64 := f_sub (f_of_Z 0) (clamp severity (dec 1 (-1)) (f_of_Z 10)).

(** What the others are to a peer that has been penalized from a fresh record. *)
Definition below_others (id : bytes) (x : float64) (m : gmap bytes PeerState) : Prop :=
  forall k p, m !! k = Some p -> k <> id -> f_ltb x (Score p) = true.

Lemma Penalize_forgets r id severity s ps : maxPeers c <= Z.of_nat (size (peers s)) -> id <> [] ->
  peers s !! id = Some ps -> Quarantined ps = false -> below_others id (Score ps) (peers s) -> f_ltb (Score ps) MaxFloat64 = true ->
  f_ltb (penalty severity) (quarantineThreshold c) = false ->
  peers (Penalize c r id severity s) = <[id := set_score (penalty severity) (fresh_peer (clock r 1) (clock r 2))]> (peers s).
Proof.
  intros Hfull Hne Hid Hq Hb Hmax Ht. unfold Penalize. rewrite (ensure_forgets r id s ps); try done.
  - cbn [Score fresh_peer]. fold (penalty severity). cbn [set_score Score]. rewrite Ht. unfold put. cbn [peers with_peers].
    by rewrite insert_insert_eq.
  - intros k p Hk Hki. right. by eapply Hb.
Qed.

(** Penalties do not add up for the lowest peer of a full table: each is counted from a
    fresh record, so that one that is not enough for a quarantine alone never leads to
    one, however often it is repeated. *)
Theorem penalties_forgotten (rs : list reading) (severity : float64) (s : State) (id : bytes) (ps : PeerState)
  (Hfull : maxPeers c <= Z.of_nat (size (peers s))) (Hne : id <> []) (Hid : peers s !! id = Some ps) (Hq : Quarantined ps = false)
  (Hlow : below_others id (Score ps) (peers s)) (Hmax : f_ltb (Score ps) MaxFloat64 = true)
  (Hpen : below_others id (penalty severity) (peers s)) (Hpmax : f_ltb (penalty severity) MaxFloat64 = true)
  (Ht : f_ltb (penalty severity) (quarantineThreshold c) = false) (Hsome : rs <> []) :
  exists ps', peers (foldl (fun s r => Penalize c r id severity s) s rs) !! id = Some ps' /\
    Score ps' = penalty severity /\ Quarantined ps' = false.
Proof.
  assert (Hgen : forall s ps, maxPeers c <= Z.of_nat (size (peers s)) -> peers s !! id = Some ps -> Quarantined ps = false ->
    below_others id (Score ps) (peers s) -> f_ltb (Score ps) MaxFloat64 = true -> below_others id (penalty severity) (peers s) ->
    rs = [] \/ exists ps', peers (foldl (fun s r => Penalize c r id severity s) s rs) !! id = Some ps' /\
      Score ps' = penalty severity /\ Quarantined ps' = false).
  { clear - Hne Hpmax Ht. induction rs as [|r rs IH]; intros s ps Hfull Hid Hq Hlow Hmax Hpen; [by left|right].
    pose proof (Penalize_forgets r id severity s ps Hfull Hne Hid Hq Hlow Hmax Ht) as Hp. cbn [foldl].
    set (fresh := set_score _ _) in Hp. set (s1 := Penalize c r id severity s) in *.
    assert (Hid1 : peers s1 !! id = Some fresh) by (rewrite Hp; apply lookup_insert_eq).
    assert (Hoth : below_others id (penalty severity) (peers s1)).
    { intros k p Hk Hki. rewrite Hp, lookup_insert_ne in Hk by done. by eapply Hpen. }
    destruct (IH s1 fresh) as [->|H]; [|done..| |done].
    - rewrite Hp, map_size_insert_Some by (by rewrite Hid; eexists). done.
    - exists fresh. by split_and!. }
  by destruct (Hgen s ps) as [->|H].
Qed.

(** ** Activity *)

Definition has_conn (conns : list (bytes * Z)) (id : bytes) : bool := existsb (fun conn => bool_decide (conn.1 = id) && negb (conn.2 =? 0)) conns.

Lemma refresh_record now clocks conns id ps s : IsZero now = false -> peers s !! id = Some ps -> isQuarantinedLocked c ps (clocks id) = false ->
  peers (refreshConnectionActivity c now clocks conns s) !! id = Some (if has_conn conns id then set_seen true now ps else ps).
Proof.
  intros Hz. unfold refreshConnectionActivity. revert s ps. induction conns as [|[k n] conns IH]; intros s ps Hid Hq; [done|].
  cbn [foldl fst snd has_conn existsb]. fold (has_conn conns id). destruct (Z.eqb_spec n 0) as [->|Hn].
  { rewrite andb_false_r. by apply IH. }
  unfold TouchPeer at 2. rewrite Hz. rewrite andb_true_r. destruct (bool_decide_reflect (k = id)) as [->|Hne].
  - rewrite Hid, Hq. cbn [orb]. rewrite (IH _ (set_seen true now ps)); [by destruct (has_conn conns id)|cbn; apply lookup_insert_eq|done].
  - cbn [orb]. apply IH; [|done]. destruct (peers s !! k) as [p|]; [|done].
    destruct (isQuarantinedLocked c p (clocks k)); [done|]. cbn. by rewrite lookup_insert_ne.
Qed.

Lemma unquarantined_later ps t t' : nanos t <= nanos t' -> isQuarantinedLocked c ps t = false -> isQuarantinedLocked c ps t' = false.
Proof.
  intros Ht. unfold isQuarantinedLocked. destruct (Quarantined ps); [|done]. cbn. rewrite !Z.ltb_ge.
  assert (Sub t (QuarantineAt ps) <= Sub t' (QuarantineAt ps)) by (unfold Sub; lia). lia.
Qed.

(** A peer counts as active when it has a connection, however long it has been silent: the
    router renews the time of every connected peer before it counts. *)
Theorem silent_peers_active (now now' : Time) (clocks : bytes -> Time) (conns : list (bytes * Z)) (self : bytes) (since : Z) (s : State)
  (l : list bytes) (Hl : NoDup l) (Hself : self ∉ l) (Hz : IsZero now = false) (Hsince : Sub now' now < since)
  (Hclock : forall id, nanos (clocks id) <= nanos now')
  (Hconn : Forall (fun id => has_conn conns id = true /\
    exists ps, peers s !! id = Some ps /\ isQuarantinedLocked c ps (clocks id) = false) l) :
  len l <= (Router_GetActivePeerCount c now clocks conns now' self since s).1.
Proof.
  unfold Router_GetActivePeerCount, GetActivePeerCountExcluding, count_peers, len. cbn [fst]. apply inj_le.
  rewrite <- (size_list_to_set (C:=gset bytes) l Hl), <- (size_dom (D:=gset bytes)). apply subseteq_size.
  intros id Hid. apply elem_of_list_to_set in Hid. rewrite Forall_forall in Hconn.
  destruct (Hconn id Hid) as (Hc & ps & Hps & Hq). apply elem_of_dom. exists (set_seen true now ps).
  apply map_lookup_filter_Some. split; [by rewrite (refresh_record _ _ _ _ ps), Hc|].
  cbn [fst snd]. split; [left; by intros ->|]. cbn [set_seen Connected LastSeen andb].
  replace (isQuarantinedLocked c (set_seen true now ps) now') with false
    by (symmetry; change (isQuarantinedLocked c ps now' = false); exact (unquarantined_later ps (clocks id) now' (Hclock id) Hq)).
  by apply Z.ltb_lt.
Qed.
End runs.

(** ** Concrete runs *)

Definition second (n : Z) : Time := time_Unix (1700000000 + n).
Definition by_key : visit_order bytes PeerState := MkVisit map_to_list (fun _ => reflexivity _).
Definition at_time (n : Z) : reading := MkReading (fun _ => second n) by_key.
Definition three_peers : PeerConfig * State :=
  NewState (5 * Second) (20 * Second) (30 * Second) (dec 98 (-2)) (5 * Minute) 3 (f_of_Z (-5)) (second 0).
Definition peer_cfg : PeerConfig := three_peers.1.
Definition peer_a : bytes := str "peer-a".
Definition peer_b : bytes := str "peer-b".
Definition peer_c : bytes := str "peer-c".
Definition peer_d : bytes := str "peer-d".

(** No decay but to the initial score. *)
Definition toy_pow (x y : float64) : float64 := f_of_Z 0.

Definition quarantined_at_3 : State :=
  run_peer_ops peer_cfg toy_pow
    [PConnect (at_time 1) peer_a None; PMessage (at_time 2) peer_a 100; PPenalize (at_time 3) peer_a (f_of_Z 9)] three_peers.2.
Definition later_ops : list peer_op :=
  [PMessage (at_time 10) peer_a 5; PConnect (at_time 11) peer_b None; PConnect (at_time 12) peer_c None; PConnect (at_time 13) peer_d None;
   PDecay (second 100); PMessage (at_time 200) peer_a 7; PLiveness (second 290) (fun _ => second 290)].
Definition record_a : PeerState := default (fresh_peer zero_time zero_time) (peers quarantined_at_3 !! peer_a).

Lemma quarantine_holds_witness :
  let s := run_peer_ops peer_cfg toy_pow later_ops quarantined_at_3 in
  IsQuarantined peer_cfg (second 302) peer_a s = true /\ IsQuarantined peer_cfg (second 303) peer_a s = false /\ GetPeerCount s = 2.
Proof.
  cbv zeta. split; [|split; by vm_compute].
  refine (proj1 (quarantine_holds peer_cfg toy_pow later_ops quarantined_at_3 peer_a record_a (second 302) _ _ _ _)); [by vm_compute..| |].
  - repeat apply Forall_cons_2; [..|apply Forall_nil_2]; intros t Ht; cbn in Ht;
      repeat match goal with
      | H : _ \/ _ |- _ => destruct H
      | H : exists _, _ |- _ => destruct H
      end; subst; split; by vm_compute.
  - split; by vm_compute.
Defined.

(** A full table, with [peer_a] below the others. *)
Definition full_table : State :=
  run_peer_ops peer_cfg toy_pow
    [PPenalize (at_time 1) peer_a (f_of_Z 3); PConnect (at_time 2) peer_b None; PConnect (at_time 3) peer_c None] three_peers.2.
Definition low_record : PeerState := default (fresh_peer zero_time zero_time) (peers full_table !! peer_a).

Lemma penalties_forgotten_witness :
  exists ps', peers (foldl (fun s r => Penalize peer_cfg r peer_a (f_of_Z 3) s) full_table (replicate 10 (at_time 5))) !! peer_a = Some ps' /\
    Score ps' = f_of_Z (-3) /\ Quarantined ps' = false.
Proof.
  assert (Hall : forall x, map_fold (fun k p b => (bool_decide (k = peer_a) || f_ltb x (Score p)) && b) true (peers full_table) = true ->
    below_others peer_a x (peers full_table)).
  { intros x H k p Hk Hne. rewrite (map_fold_delete_L _ _ k p) in H; [|intros; apply eq_true_iff_eq; rewrite !andb_true_iff; tauto|done].
    apply andb_true_iff in H as [H _]. by rewrite bool_decide_eq_false_2 in H. }
  replace (f_of_Z (-3)) with (penalty (f_of_Z 3)) by by vm_compute.
  apply (penalties_forgotten peer_cfg (replicate 10 (at_time 5)) (f_of_Z 3) full_table peer_a low_record).
  all: lazymatch goal with |- below_others _ _ _ => apply Hall; by vm_compute | |- _ <> _ => done | |- _ => by vm_compute end.
Defined.

Definition two_connected : State :=
  run_peer_ops peer_cfg toy_pow [PConnect (at_time 1) peer_b None; PConnect (at_time 1) peer_c None] three_peers.2.
Definition two_conns : list (bytes * Z) := [(peer_b, 1); (peer_c, 2)].

Lemma silent_peers_active_witness :
  GetActivePeerCountExcluding peer_cfg (second 900) peer_d (20 * Second) two_connected = 0 /\
  len [peer_b; peer_c] <=
    (Router_GetActivePeerCount peer_cfg (second 899) (fun _ => second 899) two_conns (second 900) peer_d (20 * Second) two_connected).1.
Proof.
  split; [by vm_compute|].
  apply (silent_peers_active peer_cfg (second 899) (second 900) (fun _ => second 899) two_conns peer_d (20 * Second) two_connected
    [peer_b; peer_c]).
  - by apply (bool_decide_unpack _).
  - by apply (bool_decide_unpack _).
  - by vm_compute.
  - by vm_compute.
  - intros _. by vm_compute.
  - repeat apply Forall_cons_2; [..|apply Forall_nil_2]; (split; [by vm_compute|]);
      match goal with |- exists ps, peers ?s !! ?k = _ /\ _ => exists (default (fresh_peer zero_time zero_time) (peers s !! k)) end;
      split; by vm_compute.
Defined.

(** With every record in quarantine the table grows beyond its limit, and stays there. *)
Example quarantine_overflows :
  let s := run_peer_ops peer_cfg toy_pow
    [PPenalize (at_time 1) peer_a (f_of_Z 9); PPenalize (at_time 1) peer_b (f_of_Z 9); PPenalize (at_time 1) peer_c (f_of_Z 9);
     PConnect (at_time 2) peer_d None; PDecay (second 400); PMessage (at_time 401) (str "peer-e") 1] three_peers.2 in
  GetPeerCount s = 4 /\ maxPeers peer_cfg = 3 /\ GetQuarantinedCount peer_cfg (second 401) s = 0.
Proof. vm_compute. by split_and!. Qed.

(** A message of a known peer evicts another one from a full table. *)
Example message_evicts :
  let s := OnMessage peer_cfg (at_time 6) peer_b 1 full_table in
  GetPeerCount full_table = 3 /\ GetPeerCount s = 2 /\ peers s !! peer_a = None.
Proof. vm_compute. by split_and!. Qed.

(** Reconnecting raises the score beyond the limit that messages keep. *)
Example score_runs_away :
  f_ltb (f_of_Z 100) (ScoreFor peer_a (run_peer_ops peer_cfg toy_pow (replicate 600 (PConnect (at_time 1) peer_a None)) three_peers.2)) = true.
Proof. by vm_compute. Qed.
