(* ===== verification/AgentPolicy.v ===== *)
(** enforcement-agent/internal/policy: the policies an agent enforces, read from the rule
    data of an event (spec.go, parser.go), their scopes (scope.go) and the verification of
    the events (event.go, fast_mitigation.go). Letters outside ASCII count as without
    case. *)
From S2P Require Import Prelude Bytes Sha256 GoTime GoFloat GoStrings GoJson GoText GoNet.
Import Json.
Local Open Scope Z_scope.

(** ** Policies *)

Record PortRange := MkPortRange { From : Z; To : Z }.

Record Target := MkTarget {
  tg_IPs : list bytes; tg_CIDRs : list bytes; tg_Direction : bytes; tg_Scope : bytes; tg_Selectors : gmap bytes bytes;
  tg_Namespace : bytes; tg_Ports : list PortRange; tg_Protocols : list bytes; tg_Tenant : bytes; tg_Region : bytes }.

Record Criteria := MkCriteria { cr_MinConfidence : option float64; cr_AttemptsPerWindow : option Z; cr_WindowSeconds : option Z }.

Record RateLimit := MkRateLimit { rl_WindowSeconds : Z; rl_MaxActions : Z }.

Record Guardrails := MkGuardrails {
  TTLSeconds : Z; CIDRMaxPrefixLen : option Z; MaxTargets : option Z; DryRun : bool; CanaryScope : bool;
  RollbackIfNoCommitAfter : option Z; PreConsensusTTLSeconds : option Z; FastPathEnabled : bool; FastPathTTLSeconds : option Z;
  FastPathSignalsRequired : option Z; FastPathConfidenceMin : option float64; FastPathCanaryScope : bool;
  AllowlistIPs : list bytes; AllowlistCIDRs : list bytes; AllowlistNamespaces : list bytes; MaxActivePolicies : option Z;
  MaxPoliciesPerMinute : option Z; ApprovalRequired : bool; gr_RateLimit : option RateLimit; RateLimitPerTenant : option Z;
  RateLimitPerRegion : option Z; EscalationCooldown : option Z }.

Record Audit := MkAudit { ReasonCode : bytes; EvidenceRefs : list bytes }.

Record PolicySpec := MkSpec {
  sp_ID : bytes; sp_RuleType : bytes; sp_Action : bytes; sp_Target : Target; sp_Criteria : Criteria; sp_Guardrails : Guardrails;
  sp_Audit : Audit; sp_EffectiveHeight : Z; sp_ExpirationHeight : Z; sp_Timestamp : Time; sp_Raw : gmap bytes json;
  sp_Tenant : bytes; sp_Region : bytes }.

Definition no_target : Target := MkTarget [] [] [] [] ∅ [] [] [] [] [].
Definition no_criteria : Criteria := MkCriteria None None None.
Definition no_guardrails : Guardrails :=
  MkGuardrails 0 None None false false None None false None None None false [] [] [] None None false None None None None.
Definition no_audit : Audit := MkAudit [] [].

(** ** Values of rule data *)

Inductive policy_error :=
| EDecode | EUnsupportedRuleType | EField (name : string) | ENotObject (name : string) | ENoTargets | ETooManyTargets | ECanaryNeedsScope
| EPrefixTooLong | EDeadlineBeyondTTL (name : string)
| ETrustStoreNil | EPubkeySize | EUnknownSigner | ESignatureSize | EMarshal | ESignature | ERuleHashLength | ERuleHash
| EFast (what : string).

Notation res := (result policy_error).

(** The value of a key, [JNull] when there is none: a [null] and a missing key are alike
    to the code that reads without asking whether the key is there. *)
Definition at_key (m : gmap bytes json) (key : string) : json := default JNull (m !! str key).

Definition toString (v : json) : option bytes := match v with JString (b :: s) => Some (b :: s) | _ => None end.
Definition getString (m : gmap bytes json) (key : string) : option bytes := v ← m !! str key; toString v.

Definition toInt (v : json) : option Z :=
  match v with JNumber l => f_to_int64 <$> ParseFloat l | JString s => ParseInt s | _ => None end.
Definition toFloat (v : json) : option float64 :=
  match v with JNumber l => ParseFloat l | JString s => ParseFloat_text s | _ => None end.
Definition toBool (v : json) : bool :=
  match v with JBool b => b | JString s => bool_decide (s = str "true" \/ s = str "1") | _ => false end.

(** A value that has to be there in this form once its key is. *)
Definition when_present {A : Type} (m : gmap bytes json) (key : string) (absent : A) (f : json -> option A) : res A :=
  match m !! str key with
  | None => Ok absent
  | Some v => match f v with Some a => Ok a | None => Err (EField key) end
  end.
Definition positive (v : json) : option (option Z) := i ← toInt v; if i <=? 0 then None else Some (Some i).
Definition optional_positive (m : gmap bytes json) (key : string) : res (option Z) := when_present m key None positive.
Definition unit_float (v : json) : option (option float64) :=
  f ← toFloat v; if f_ltb f (f_of_Z 0) || f_ltb (f_of_Z 1) f || is_nan f then None else Some (Some f).
Definition flag (m : gmap bytes json) (key : string) : bool := match m !! str key with Some v => toBool v | None => false end.

(** The strings of an array that satisfy a condition; anything that is no array counts as empty. *)
Definition strings_where (p : bytes -> bool) (v : json) : option (list bytes) :=
  match v with
  | JArray l => mapM (fun v => s ← toString v; if p s then Some s else None) l
  | _ => Some []
  end.
Definition strings_at (m : gmap bytes json) (key : string) (p : bytes -> bool) : res (list bytes) :=
  match strings_where p (at_key m key) with Some l => Ok l | None => Err (EField key) end.
Definition valid_cidr (s : bytes) : bool := match ParseCIDR s with Some _ => true | None => false end.

(** ** parser.go *)

Definition canonicalNamespace (ns : bytes) : bytes := lower_trim ns.

Definition in_port_range (p : Z) : bool := (0 <? p) && (p <=? 65535).
Definition parse_port (entry : json) : option PortRange :=
  match entry with
  | JNumber _ => p ← toInt entry; if in_port_range p then Some (MkPortRange p p) else None
  | JObject ms =>
      let m := go_map ms in
      from ← (v ← m !! str "from"; toInt v);
      to ← (v ← m !! str "to"; toInt v);
      if in_port_range from && in_port_range to && (from <=? to) then Some (MkPortRange from to) else None
  | _ => None
  end.
Definition parsePorts (v : json) : option (list PortRange) := match v with JArray l => mapM parse_port l | _ => None end.

Definition normalizeProtocol (proto : bytes) : bytes :=
  let p := ToUpper (TrimSpace proto) in if bool_decide (p = []) then str "ANY" else p.
Definition parseProtocols (v : json) : option (list bytes) :=
  match v with JArray l => mapM (fun v => normalizeProtocol <$> toString v) l | _ => None end.

Definition selector_strings (m : gmap bytes json) : option (gmap bytes bytes) :=
  if forallb (fun kv => bool_decide (is_Some (toString kv.2))) (map_to_list m) then Some (omap toString m) else None.

(** Trimmed text; a value that is there has to be a string that is not empty. *)
Definition trimmed_at (m : gmap bytes json) (key : string) : res bytes := when_present m key [] (fun v => TrimSpace <$> toString v).

(** The namespace field overrides the selector, whose value is made canonical. *)
Definition with_namespace (m : gmap bytes json) (selectors : gmap bytes bytes) : res (bytes * gmap bytes bytes) :=
  ns ← when_present m "namespace" None (fun v => Some ∘ canonicalNamespace <$> toString v);
  let selectors := match ns with Some ns => <[str "namespace" := ns]> selectors | None => selectors end in
  Ok (match selectors !! str "namespace" with
      | Some ns => (canonicalNamespace ns, <[str "namespace" := canonicalNamespace ns]> selectors)
      | None => ([], selectors)
      end).

Definition scopes : list bytes := str <$> ["cluster"; "namespace"; "node"; "tenant"; "region"; "global"].

Definition parseTarget (m : gmap bytes json) : res Target :=
  ips ← strings_at m "ips" ParseIP;
  cidrs ← strings_at m "cidrs" valid_cidr;
  selectors ← (match get_map m (str "selectors") with
               | Some sel => match selector_strings sel with Some s => Ok s | None => Err (EField "selectors") end
               | None => Ok ∅
               end);
  '(ns, selectors) ← with_namespace m selectors;
  ports ← when_present m "ports" [] parsePorts;
  protocols ← (match m !! str "protocols" with
               | Some v => match parseProtocols v with Some l => Ok l | None => Err (EField "protocols") end
               | None => when_present m "protocol" [] (fun v => (fun s => [ToUpper (TrimSpace s)]) <$> toString v)
               end);
  tenant ← trimmed_at m "tenant";
  region ← trimmed_at m "region";
  if bool_decide (ips = []) && bool_decide (cidrs = []) && bool_decide (selectors = ∅) then Err ENoTargets
  else
    direction ← (match getString m "direction" with
                 | Some d => if bool_decide (d = str "ingress" \/ d = str "egress") then Ok d else Err (EField "direction")
                 | None => Ok []
                 end);
    scope ← (match getString m "scope" with
             | Some s => let n := lower_trim s in if bool_decide (n ∈ scopes) then Ok n else Err (EField "scope")
             | None => Ok []
             end);
    Ok (MkTarget ips cidrs direction scope selectors ns ports protocols tenant region).

Definition parseCriteria (v : json) : res Criteria :=
  match v with
  | JNull => Ok no_criteria
  | JObject ms =>
      let m := go_map ms in
      confidence ← when_present m "min_confidence" None unit_float;
      attempts ← optional_positive m "attempts_per_window";
      window ← optional_positive m "window_s";
      Ok (MkCriteria confidence attempts window)
  | _ => Err (ENotObject "criteria")
  end.

Definition parseRateLimit (m : gmap bytes json) : res RateLimit :=
  match positive (at_key m "window_s") with
  | Some (Some window) =>
      match positive (at_key m "max_actions") with
      | Some (Some max) => Ok (MkRateLimit window max)
      | _ => Err (EField "max_actions")
      end
  | _ => Err (EField "window_s")
  end.

Definition optional_rate_limit (m : gmap bytes json) : res (option RateLimit) :=
  match get_map m (str "rate_limit") with Some r => r ← parseRateLimit r; Ok (Some r) | None => Ok None end.

(** A flat allowlist is sorted into its three kinds. *)
Definition allowlist_entry (acc : option (list bytes * list bytes * list bytes)) (v : json) : option (list bytes * list bytes * list bytes) :=
  '(ips, cidrs, namespaces) ← acc;
  entry ← TrimSpace <$> toString v;
  if bool_decide (entry = []) then None
  else match strip_prefix (str "ns:") (ToLower entry) with
  | Some _ => let ns := TrimSpace (drop 3 entry) in if bool_decide (ns = []) then None else Some (ips, cidrs, namespaces ++ [ns])
  | None => if contains entry "/" then Some (ips, cidrs ++ [entry], namespaces) else Some (ips ++ [entry], cidrs, namespaces)
  end.
Definition string_array (l : list bytes) : json := JArray (JString <$> l).
Definition normalize_allowlist (v : json) : option (gmap bytes json) :=
  match v with
  | JObject ms => Some (go_map ms)
  | JArray l =>
      '(ips, cidrs, namespaces) ← foldl allowlist_entry (Some ([], [], [])) l;
      Some (<[str "ips" := string_array ips]> (<[str "cidrs" := string_array cidrs]> {[str "namespaces" := string_array namespaces]}))
  | _ => None
  end.
Definition parse_allowlist (m : gmap bytes json) : res (list bytes * list bytes * list bytes) :=
  match m !! str "allowlist" with
  | None => Ok ([], [], [])
  | Some v =>
      match normalize_allowlist v with
      | None => Err (EField "allowlist")
      | Some a =>
          ips ← strings_at a "ips" ParseIP;
          cidrs ← strings_at a "cidrs" valid_cidr;
          namespaces ← strings_at a "namespaces" (fun _ => true);
          Ok (ips, cidrs, map canonicalNamespace namespaces)
      end
  end.

Definition parseGuardrails (v : json) : res Guardrails :=
  match v with
  | JObject ms =>
      let m := go_map ms in
      ttl ← (match positive (at_key m "ttl_seconds") with Some (Some i) => Ok i | _ => Err (EField "ttl_seconds") end);
      max_prefix ← when_present m "cidr_max_prefix_len" None
        (fun v => i ← toInt v; if (i <=? 0) || (128 <? i) then None else Some (Some i));
      max_targets ← optional_positive m "max_targets";
      let rollback := v ← m !! str "rollback_if_no_commit_after_s"; i ← toInt v; if 0 <? i then Some i else None in
      pre_consensus ← optional_positive m "pre_consensus_ttl_seconds";
      fast_ttl ← optional_positive m "fast_path_ttl_seconds";
      fast_signals ← optional_positive m "fast_path_signals_required";
      fast_confidence ← when_present m "fast_path_confidence_min" None unit_float;
      rate_limit ← optional_rate_limit m;
      per_tenant ← optional_positive m "rate_limit_per_tenant";
      per_region ← optional_positive m "rate_limit_per_region";
      cooldown ← optional_positive m "escalation_cooldown_s";
      '(ips, cidrs, namespaces) ← parse_allowlist m;
      max_active ← optional_positive m "max_active_policies";
      per_minute ← optional_positive m "max_policies_per_minute";
      Ok (MkGuardrails ttl max_prefix max_targets (flag m "dry_run") (flag m "canary_scope") rollback pre_consensus
            (flag m "fast_path_enabled") fast_ttl fast_signals fast_confidence (flag m "fast_path_canary_scope") ips cidrs namespaces
            max_active per_minute (flag m "approval_required") rate_limit per_tenant per_region cooldown)
  | _ => Err (ENotObject "guardrails")
  end.

Definition parseAudit (v : json) : res Audit :=
  match v with
  | JNull => Ok no_audit
  | JObject ms =>
      let m := go_map ms in
      reason ← when_present m "reason_code" [] toString;
      refs ← strings_at m "evidence_refs" (fun _ => true);
      Ok (MkAudit reason refs)
  | _ => Err (ENotObject "audit")
  end.

(** The conditions between target and guardrails. *)
Definition cross_checks (t : Target) (g : Guardrails) : res () :=
  if match MaxTargets g with Some max => max <? len (tg_IPs t) + len (tg_CIDRs t) | None => false end then Err ETooManyTargets
  else if FastPathCanaryScope g && bool_decide (tg_Scope t = []) then Err ECanaryNeedsScope
  else if match CIDRMaxPrefixLen g with Some max => existsb (fun c => max <? default 0 (ParseCIDR c)) (tg_CIDRs t) | None => false end
  then Err EPrefixTooLong
  else if CanaryScope g && bool_decide (tg_Scope t = []) then Err ECanaryNeedsScope
  else if match PreConsensusTTLSeconds g with Some p => (0 <? TTLSeconds g) && (TTLSeconds g <? p) | None => false end
  then Err (EDeadlineBeyondTTL "pre_consensus_ttl_seconds")
  else if match RollbackIfNoCommitAfter g with Some p => (0 <? TTLSeconds g) && (TTLSeconds g <? p) | None => false end
  then Err (EDeadlineBeyondTTL "rollback_if_no_commit_after_s")
  else Ok tt.

Definition of_option {A : Type} (e : policy_error) (o : option A) : res A := match o with Some a => Ok a | None => Err e end.

Definition parseBlockPolicy (raw : gmap bytes json) (ruleType : bytes) (effective expiration : Z) (ts : Time) : res PolicySpec :=
  id ← of_option (EField "policy_id") (getString raw "policy_id");
  if match getString raw "rule_type" with Some t => bool_decide (t <> str "block") | None => false end then Err (EField "rule_type")
  else
    action ← of_option (EField "action") (lower_trim <$> getString raw "action");
    let spec t c g tenant region audit := MkSpec id ruleType action t c g audit effective expiration ts raw tenant region in
    if bool_decide (action = str "remove") then
      tenant ← trimmed_at raw "tenant";
      region ← trimmed_at raw "region";
      audit ← parseAudit (at_key raw "audit");
      Ok (spec no_target no_criteria no_guardrails tenant region audit)
    else
      target ← of_option (ENotObject "target") (get_map raw (str "target"));
      target ← parseTarget target;
      criteria ← parseCriteria (at_key raw "criteria");
      guardrails ← parseGuardrails (at_key raw "guardrails");
      tenant ← trimmed_at raw "tenant";
      region ← trimmed_at raw "region";
      _ ← cross_checks target guardrails;
      audit ← parseAudit (at_key raw "audit");
      Ok (spec target criteria guardrails tenant region audit).

Definition ParseSpec (ruleType ruleData : bytes) (effectiveHeight expirationHeight timestamp : Z) : res PolicySpec :=
  raw ← of_option EDecode (Unmarshal_map ruleData);
  if bool_decide (ruleType = str "block") then parseBlockPolicy raw ruleType effectiveHeight expirationHeight (time_Unix timestamp)
  else Err EUnsupportedRuleType.

(** ** scope.go *)

(** The field of the target, or else the one of the policy. *)
Definition either (target own : bytes) : bytes := if bool_decide (target = []) then lower_trim own else lower_trim target.
Definition effectiveTenant (s : PolicySpec) : bytes := either (tg_Tenant (sp_Target s)) (sp_Tenant s).
Definition effectiveRegion (s : PolicySpec) : bytes := either (tg_Region (sp_Target s)) (sp_Region s).
Definition selector (s : PolicySpec) (key : string) : option bytes := tg_Selectors (sp_Target s) !! str key.
Definition effectiveNode (s : PolicySpec) : bytes := match selector s "node" with Some n => lower_trim n | None => [] end.
Definition effectiveNamespace (s : PolicySpec) : bytes :=
  if bool_decide (tg_Namespace (sp_Target s) <> []) then canonicalNamespace (tg_Namespace (sp_Target s))
  else match selector s "namespace" with
  | Some ns => canonicalNamespace ns
  | None => match selector s "kubernetes_namespace" with Some ns => canonicalNamespace ns | None => [] end
  end.

Definition globalScopeKey : bytes := str "global".
Definition clusterScopeKey : bytes := str "cluster".
Definition prefixed (p : string) (s : bytes) : bytes := if bool_decide (s = []) then globalScopeKey else str p ++ s.
Definition ScopeIdentifier (s : PolicySpec) : bytes :=
  let scope := lower_trim (tg_Scope (sp_Target s)) in
  if bool_decide (scope = str "namespace") then prefixed "namespace:" (effectiveNamespace s)
  else if bool_decide (scope = str "tenant") then prefixed "tenant:" (effectiveTenant s)
  else if bool_decide (scope = str "region") then prefixed "region:" (effectiveRegion s)
  else if bool_decide (scope = str "node") then prefixed "node:" (effectiveNode s)
  else if bool_decide (scope ∈ str <$> ["global"; ""; "any"; "both"]) then globalScopeKey
  else scope.

Definition normalizeSorted (l : list bytes) : list bytes := sort_strings (filter (fun s => s <> []) (lower_trim <$> l)).
Definition normalizePorts (l : list PortRange) : list bytes :=
  sort_strings ((fun p => Itoa (From p) ++ str "-" ++ Itoa (To p)) <$> l).

Definition labelled (name : string) (l : list bytes) : list bytes :=
  match l with [] => [] | _ => [str name ++ join l ","] end.
Definition targetDiscriminator (s : PolicySpec) : bytes :=
  let t := sp_Target s in
  let direction := lower_trim (tg_Direction t) in
  let ips := normalizeSorted (tg_IPs t) in
  let cidrs := normalizeSorted (tg_CIDRs t) in
  let directed base := if bool_decide (direction = []) then base else base ++ str ":dir:" ++ direction in
  match ips, cidrs with
  | [ip], [] => directed (str "ip:" ++ ip)
  | [], [cidr] => directed (str "cidr:" ++ cidr)
  | _, _ =>
      if bool_decide (effectiveNamespace s <> []) then directed (str "namespace:" ++ effectiveNamespace s)
      else if bool_decide (effectiveNode s <> []) then directed (str "node:" ++ effectiveNode s)
      else
        match (if bool_decide (direction = []) then [] else [str "dir=" ++ direction]) ++ labelled "ips=" ips ++ labelled "cidrs=" cidrs ++
              labelled "protocols=" (normalizeSorted (tg_Protocols t)) ++ labelled "ports=" (normalizePorts (tg_Ports t)) with
        | [] => []
        | parts => str "target:" ++ hex (take 8 (sha256 (join parts "|")))
        end
  end.

Definition keyed (name : string) (s : bytes) : list bytes := if bool_decide (s = []) then [] else [str name; s].
Definition rateScopeSuffix (s : PolicySpec) : bytes :=
  join (keyed "tenant" (effectiveTenant s) ++ keyed "region" (effectiveRegion s) ++
        (if bool_decide (targetDiscriminator s = []) then [] else [targetDiscriminator s])) ":".
Definition RateScope (s : PolicySpec) : bytes :=
  let base := ScopeIdentifier s in
  if bool_decide (base ∈ [clusterScopeKey; globalScopeKey]) && bool_decide (rateScopeSuffix s <> []) then base ++ str ":" ++ rateScopeSuffix s
  else base.
Definition WindowScope (s : PolicySpec) : bytes := str "window:" ++ RateScope s.

(** ** event.go *)

Record PolicyUpdateEvent := MkUpdate {
  ev_PolicyId : bytes; ev_Action : bytes; ev_RuleType : bytes; ev_RuleData : bytes; ev_RuleHash : bytes; ev_RequiresAck : bool;
  ev_RollbackPolicyId : bytes; ev_Timestamp : Z; ev_EffectiveHeight : Z; ev_ExpirationHeight : Z; ev_ProducerId : bytes;
  ev_Signature : bytes; ev_Pubkey : bytes; ev_Alg : bytes }.

Record FastMitigationEnvelope := MkFast {
  f_SchemaVersion : bytes; f_MitigationID : bytes; f_PolicyID : bytes; f_Action : bytes; f_RuleType : bytes; f_Timestamp : Z;
  f_Payload : json; f_ContentHash : bytes; f_Nonce : bytes; f_Signature : bytes; f_Pubkey : bytes; f_ProducerID : bytes; f_Alg : bytes }.

Record Event := MkEvent { Proto : option PolicyUpdateEvent; Fast : option FastMitigationEnvelope; Spec : PolicySpec }.

(** Ed25519 and the encoders. [proto_Marshal] and [proto_Unmarshal] are those of the
    generated message, [Marshal_map] is [json.Marshal] of a [map[string]any]. *)
Class Signing := {
  ed25519_Verify : bytes -> bytes -> bytes -> bool;
  proto_Marshal : PolicyUpdateEvent -> option bytes;
  proto_Unmarshal : bytes -> option PolicyUpdateEvent;
  Marshal_map : gmap bytes json -> bytes }.

(** The keys, by their bytes. *)
Definition TrustedKeys : Type := gset bytes.
Definition NewTrustedKeys (keys : list bytes) : TrustedKeys := list_to_set (filter (fun k => len k = 32) keys).

Definition legacyPolicyDomain : bytes := str "control.policy.v2".
Definition hashMatches (payload expected : bytes) : bool := (len expected =? 32) && bool_decide (sha256 payload = expected).

(** What the signature is over: all but the signature, the key and the name of the algorithm. *)
Definition signed_part (evt : PolicyUpdateEvent) : PolicyUpdateEvent :=
  MkUpdate (ev_PolicyId evt) (ev_Action evt) (ev_RuleType evt) (ev_RuleData evt) (ev_RuleHash evt) (ev_RequiresAck evt)
    (ev_RollbackPolicyId evt) (ev_Timestamp evt) (ev_EffectiveHeight evt) (ev_ExpirationHeight evt) (ev_ProducerId evt) [] [] [].

Section signing.
Context `{Signing} (t : TrustedKeys).

Definition VerifyAndParseWithDomain (evt : PolicyUpdateEvent) (domain : bytes) : res Event :=
  if negb (len (ev_Pubkey evt) =? 32) then Err EPubkeySize
  else if negb (bool_decide (ev_Pubkey evt ∈ t)) then Err EUnknownSigner
  else if negb (len (ev_Signature evt) =? 64) then Err ESignatureSize
  else
    let domain := if bool_decide (domain = []) then legacyPolicyDomain else domain in
    payload ← of_option EMarshal (proto_Marshal (signed_part evt));
    let verifyWithDomain d := ed25519_Verify (ev_Pubkey evt) (d ++ payload) (ev_Signature evt) in
    if negb (verifyWithDomain domain) && (bool_decide (domain <> legacyPolicyDomain) && negb (verifyWithDomain legacyPolicyDomain))
    then Err ESignature
    else if negb (len (ev_RuleHash evt) =? 32) then Err ERuleHashLength
    else if negb (hashMatches (ev_RuleData evt) (ev_RuleHash evt)) then Err ERuleHash
    else
      spec ← ParseSpec (ev_RuleType evt) (ev_RuleData evt) (ev_EffectiveHeight evt) (ev_ExpirationHeight evt) (ev_Timestamp evt);
      Ok (MkEvent (Some evt) None spec).

Definition VerifyAndParse (evt : PolicyUpdateEvent) : res Event := VerifyAndParseWithDomain evt legacyPolicyDomain.

(** ** fast_mitigation.go *)

Definition FastMitigationDomain : bytes := str "control.fast_mitigation.v1".
Definition fastMitigationMaxTTLSeconds : Z := 60.

Definition appendU16 (n : Z) : bytes := be_put 2 (n mod 65536).
Definition sized (s : bytes) : bytes := appendU16 (len s) ++ s.
Definition buildFastSignBytes (mitigationID policyID action ruleType : bytes) (timestamp : Z) (pubkey nonce contentHash : bytes) : bytes :=
  x01 :: sized mitigationID ++ sized policyID ++ sized action ++ sized ruleType ++ be_put 8 (u64 timestamp) ++ sized pubkey ++ nonce ++
  contentHash.

(** The envelope from its members: a string field takes a string and skips a null; the
    timestamp takes the literal of an integer. *)
Definition string_field (name : string) (ms : list (bytes * json)) : option bytes :=
  foldl (fun acc m => s ← acc; if bool_decide (fold_key m.1 = str name) then
    match m.2 with JString v => Some v | JNull => Some s | _ => None end else Some s) (Some []) ms.
Definition int_field (name : string) (ms : list (bytes * json)) : option Z :=
  foldl (fun acc m => s ← acc; if bool_decide (fold_key m.1 = str name) then
    match m.2 with JNumber v => ParseInt v | JNull => Some s | _ => None end else Some s) (Some 0) ms.
Definition raw_field (name : string) (ms : list (bytes * json)) : option json :=
  foldl (fun acc m => if bool_decide (fold_key m.1 = str name) then Some m.2 else acc) None ms.

Definition decode_fast (raw : bytes) : option FastMitigationEnvelope :=
  v ← parse raw;
  ms ← (match v with JObject ms => Some ms | JNull => Some [] | _ => None end);
  let s name := string_field name ms in
  schema ← s "schema_version"; mitigation ← s "mitigation_id"; policy ← s "policy_id"; action ← s "action"; rule ← s "rule_type";
  ts ← int_field "timestamp" ms;
  hash ← s "content_hash"; nonce ← s "nonce"; signature ← s "signature"; pubkey ← s "pubkey"; producer ← s "producer_id"; alg ← s "alg";
  Some (MkFast schema mitigation policy action rule ts (default (JArray []) (raw_field "payload" ms)) hash nonce signature pubkey producer alg).

(** [hex.DecodeString]. *)
Fixpoint DecodeString (s : bytes) : option bytes :=
  match s with
  | [] => Some []
  | a :: s' =>
      match s' with
      | b :: s'' => x ← hex_value a; y ← hex_value b; r ← DecodeString s''; Some (byte_of (x * 16 + y) :: r)
      | [] => None
      end
  end.

(** [json.Unmarshal] of the raw message, which has to be an object or a null. *)
Definition payload_map (v : json) : option (gmap bytes json) :=
  if numbers_ok v then match v with JObject ms => Some (go_map ms) | JNull => Some ∅ | _ => None end else None.

Definition named (m : gmap bytes json) (key : string) : bool :=
  match get_string m (str key) with Some s => bool_decide (TrimSpace s <> []) | None => false end.
Definition string_or_nil (m : gmap bytes json) (key : string) : bool :=
  match m !! str key with Some (JString _) | Some JNull | None => true | _ => false end.

Definition check (b : bool) (e : string) : res () := if b then Ok tt else Err (EFast e).

Definition validateFastPayloadAndSpec (payload : gmap bytes json) (spec : PolicySpec) (action : bytes) : res () :=
  let tg := sp_Target spec in
  let a := lower_trim action in
  let scope := lower_trim (tg_Scope tg) in
  _ ← check (bool_decide (lower_trim (sp_RuleType spec) = str "block")) "rule_type must be block";
  _ ← check (bool_decide (a = str "drop" \/ a = str "rate_limit")) "action not allowed";
  _ ← check (bool_decide (lower_trim (sp_Action spec) = a)) "action mismatch";
  metadata ← of_option (EFast "metadata missing") (get_map payload (str "metadata"));
  _ ← check (named metadata "trace_id") "metadata.trace_id required";
  _ ← check (named metadata "anomaly_id") "metadata.anomaly_id required";
  _ ← check (string_or_nil metadata "source_event_id" && string_or_nil metadata "sentinel_event_id") "metadata must be string";
  _ ← check (bool_decide (scope = str "cluster" \/ scope = str "namespace")) "scope not allowed";
  _ ← check (bool_decide (TrimSpace (tg_Tenant tg) = []) && bool_decide (TrimSpace (sp_Tenant spec) = [])) "tenant targeting not allowed";
  _ ← check (bool_decide (TrimSpace (tg_Region tg) = []) && bool_decide (TrimSpace (sp_Region spec) = [])) "region targeting not allowed";
  _ ← check (negb (bool_decide (tg_IPs tg = []) && bool_decide (tg_CIDRs tg = []))) "requires ips or cidrs";
  _ ← check (forallb (fun kv => bool_decide (lower_trim kv.1 ∈ str <$> ["namespace"; "kubernetes_namespace"])) (map_to_list (tg_Selectors tg)))
    "selector not allowed";
  _ ← check (bool_decide (scope = str "namespace") || bool_decide (tg_Selectors tg = ∅)) "selectors only allowed for namespace scope";
  check ((0 <? TTLSeconds (sp_Guardrails spec)) && (TTLSeconds (sp_Guardrails spec) <=? fastMitigationMaxTTLSeconds)) "ttl_seconds out of range".

Definition decoded (e : string) (n : Z) (s : bytes) : res bytes :=
  match DecodeString s with Some b => if len b =? n then Ok b else Err (EFast e) | None => Err (EFast e) end.

(** The payload is encoded anew and parsed again from these bytes. *)
Definition VerifyAndParseFast (raw : bytes) : res Event :=
  env ← of_option EDecode (decode_fast raw);
  _ ← check (bool_decide (f_SchemaVersion env = FastMitigationDomain)) "schema_version";
  _ ← check (bool_decide (f_Alg env = str "Ed25519")) "alg";
  _ ← check (bool_decide ([] ∉ [f_MitigationID env; f_PolicyID env; f_Action env; f_RuleType env])) "missing required fields";
  pub ← decoded "pubkey" 32 (f_Pubkey env);
  _ ← check (bool_decide (pub ∈ t)) "unknown signer";
  _ ← check (bool_decide (f_ProducerID env <> [])) "producer_id required";
  _ ← check (bool_decide (f_ProducerID env = f_Pubkey env)) "producer_id mismatch";
  signature ← decoded "signature" 64 (f_Signature env);
  contentHash ← decoded "content hash" 32 (f_ContentHash env);
  nonce ← decoded "nonce" 16 (f_Nonce env);
  _ ← check (0 <? f_Timestamp env) "timestamp";
  payload ← of_option (EFast "payload") (payload_map (f_Payload env));
  let payloadBytes := Marshal_map payload in
  _ ← check (bool_decide (sha256 payloadBytes = contentHash)) "content hash mismatch";
  _ ← check (ed25519_Verify pub (FastMitigationDomain ++ buildFastSignBytes (f_MitigationID env) (f_PolicyID env) (f_Action env) (f_RuleType env)
       (f_Timestamp env) pub nonce contentHash) signature) "signature verification failed";
  spec ← ParseSpec (f_RuleType env) payloadBytes 0 0 (f_Timestamp env);
  _ ← check (bool_decide (sp_ID spec = f_PolicyID env)) "policy_id mismatch";
  _ ← validateFastPayloadAndSpec (sp_Raw spec) spec (f_Action env);
  Ok (MkEvent None (Some env) spec).
End signing.
