(* ===== verification/AgentStore.v ===== *)
(** enforcement-agent/internal/state/store.go: the records of the policies an agent
    enforces, the history its rate limits count, the approvals it waits for and the
    watermarks of its ordering keys. The file of the store is in [AgentLoops]. *)
From S2P Require Import Prelude Bytes GoTime GoStrings GoJson GoText AgentPolicy.
Local Open Scope Z_scope.

Record Record_ := MkRecord {
  r_Spec : PolicySpec; AppliedAt : Time; ExpiresAt : Time; GuardrailTTL : Z; PreConsensus : Time; Rollback : Time; FastPathDeadline : Time;
  PendingConsensus : bool; MitigationID : bytes; Provisional : bool; PromotionState : bytes; RenewalCount : Z; PromotedAt : Time;
  RevokedAt : Time }.

Record Store := MkStore {
  records : gmap bytes Record_; history : gmap bytes (list Time); pending : gmap bytes bytes; lastApplied : gmap bytes Time;
  scopeWatermarks : gmap bytes Time; historyRetention : Z }.

Definition NewStore (retention : Z) : Store := MkStore ∅ ∅ ∅ ∅ ∅ (if retention <=? 0 then 10 * Minute else retention).

Definition with_records m (s : Store) : Store :=
  MkStore m (history s) (pending s) (lastApplied s) (scopeWatermarks s) (historyRetention s).
Definition with_history h (s : Store) : Store :=
  MkStore (records s) h (pending s) (lastApplied s) (scopeWatermarks s) (historyRetention s).
Definition with_pending p (s : Store) : Store :=
  MkStore (records s) (history s) p (lastApplied s) (scopeWatermarks s) (historyRetention s).
Definition with_lastApplied l (s : Store) : Store :=
  MkStore (records s) (history s) (pending s) l (scopeWatermarks s) (historyRetention s).
Definition with_watermarks w (s : Store) : Store :=
  MkStore (records s) (history s) (pending s) (lastApplied s) w (historyRetention s).

(** ** Helpers *)

(** [time.Duration(n) * time.Second], which wraps. *)
Definition seconds (n : Z) : Z := i64 (n * Second).
Definition deadline (appliedAt : Time) (s : option Z) : Time :=
  match s with Some n => if n <=? 0 then zero_time else Add appliedAt (seconds n) | None => zero_time end.

(** The first entry that is not before the horizon and all that follow. *)
Fixpoint drop_before (threshold : Time) (l : list Time) : list Time :=
  match l with [] => [] | t :: l' => if Before t threshold then drop_before threshold l' else l end.
Definition pruneHistory (l : list Time) (now : Time) (horizon : Z) : list Time :=
  if horizon <=? 0 then l else drop_before (Add now (i64 (- horizon))) l.

Definition globalScope : bytes := str "global".
Definition recordHistory (scope : bytes) (ts : Time) (s : Store) : Store :=
  let l := default [] (history s !! scope) ++ [ts] in with_history (<[scope := pruneHistory l ts (historyRetention s)]> (history s)) s.

Definition normalizedTenant (sp : PolicySpec) : bytes := either (tg_Tenant (sp_Target sp)) (sp_Tenant sp).
Definition normalizedRegion (sp : PolicySpec) : bytes := either (tg_Region (sp_Target sp)) (sp_Region sp).
Definition normalizedNamespace (sp : PolicySpec) : bytes :=
  if bool_decide (tg_Namespace (sp_Target sp) <> []) then lower_trim (tg_Namespace (sp_Target sp))
  else match selector sp "namespace" with Some ns => lower_trim ns | None => [] end.
Definition normalizedNode (sp : PolicySpec) : bytes := match selector sp "node" with Some n => lower_trim n | None => [] end.

Definition when_named (p : string) (s : bytes) : list bytes := if bool_decide (s = []) then [] else [str p ++ s].
(** The scopes one policy is counted under, in the order of the code; the scope of the rate
    limits only when it is none of the others. *)
Definition counted_scopes (sp : PolicySpec) : list bytes :=
  let l := globalScope :: when_named "tenant:" (normalizedTenant sp) ++ when_named "region:" (normalizedRegion sp) ++
           when_named "namespace:" (normalizedNamespace sp) ++
           (if EqualFold (tg_Scope (sp_Target sp)) (str "cluster") then [clusterScopeKey] else []) ++
           when_named "node:" (normalizedNode sp) in
  l ++ (if bool_decide (RateScope sp = [] \/ RateScope sp ∈ l) then [] else [RateScope sp]).
Definition count_policy (sp : PolicySpec) (ts : Time) (s : Store) : Store :=
  foldl (fun s scope => recordHistory scope ts s) s (counted_scopes sp).

(** A change with the error of writing the file, [None] when there is none or no file; what
    is in memory stays changed either way. *)
Definition persisted (err : option bytes) (s : Store) : option bytes * Store := (err, s).

(** ** Changes *)

Definition fresh_record (sp : PolicySpec) (appliedAt expires : Time) : Record_ :=
  let g := sp_Guardrails sp in
  MkRecord sp appliedAt expires (seconds (TTLSeconds g)) (deadline appliedAt (PreConsensusTTLSeconds g))
    (deadline appliedAt (RollbackIfNoCommitAfter g)) zero_time false [] false [] 0 zero_time zero_time.
(** What an existing record keeps of its own. *)
Definition inherit (existing r : Record_) : Record_ :=
  MkRecord (r_Spec r) (AppliedAt r) (ExpiresAt r) (GuardrailTTL r) (PreConsensus r) (Rollback r) (FastPathDeadline existing)
    (PendingConsensus existing) (MitigationID existing) (Provisional existing) (PromotionState existing) (RenewalCount existing)
    (PromotedAt existing) (RevokedAt existing).
Definition set_fast_deadline d (r : Record_) : Record_ :=
  MkRecord (r_Spec r) (AppliedAt r) (ExpiresAt r) (GuardrailTTL r) (PreConsensus r) (Rollback r) d (PendingConsensus r) (MitigationID r)
    (Provisional r) (PromotionState r) (RenewalCount r) (PromotedAt r) (RevokedAt r).

(** The record an applied policy gets, [existing] being the one it replaces. *)
Definition upserted (sp : PolicySpec) (appliedAt : Time) (existing : option Record_) : Record_ :=
  let g := sp_Guardrails sp in
  let expires := if 0 <? TTLSeconds g then Add appliedAt (seconds (TTLSeconds g)) else appliedAt in
  let r := fresh_record sp appliedAt expires in
  let r := match existing with Some e => inherit e r | None => r end in
  match FastPathTTLSeconds g with Some n => set_fast_deadline (Add appliedAt (seconds n)) r | None => r end.

Definition Upsert (err : option bytes) (sp : PolicySpec) (appliedAt : Time) (s : Store) : option bytes * Store :=
  let s := with_records (<[sp_ID sp := upserted sp appliedAt (records s !! sp_ID sp)]> (records s)) s in
  let s := count_policy sp appliedAt s in
  persisted err (with_lastApplied (<[sp_ID sp := appliedAt]> (lastApplied s)) s).

Definition Remove (err : option bytes) (policyID : bytes) (s : Store) : option bytes * Store :=
  persisted err (with_records (delete policyID (records s)) s).

Definition not_found (what : string) (policyID : bytes) : bytes := str "state store: " ++ str what ++ str ": policy " ++ policyID ++ str " not found".

Definition MarkPendingConsensus (err : option bytes) (policyID : bytes) (d : Time) (s : Store) : option bytes * Store :=
  match records s !! policyID with
  | None => (Some (not_found "mark pending consensus" policyID), s)
  | Some r =>
      let r := MkRecord (r_Spec r) (AppliedAt r) (ExpiresAt r) (GuardrailTTL r) (PreConsensus r) (Rollback r)
                 (if IsZero d then FastPathDeadline r else d) true (MitigationID r) (Provisional r) (PromotionState r) (RenewalCount r)
                 (PromotedAt r) (RevokedAt r) in
      persisted err (with_records (<[policyID := r]> (records s)) s)
  end.

Definition provisional_record (mitigationID : bytes) (d appliedAt : Time) (r : Record_) : Record_ :=
  MkRecord (r_Spec r) (if IsZero appliedAt then AppliedAt r else appliedAt) (ExpiresAt r) (GuardrailTTL r) (PreConsensus r) (Rollback r)
    (if IsZero d then FastPathDeadline r else d) true (TrimSpace mitigationID) true (str "provisional")
    (if PendingConsensus r && Provisional r then RenewalCount r + 1 else 0) zero_time zero_time.
Definition MarkProvisional (err : option bytes) (policyID mitigationID : bytes) (d appliedAt : Time) (s : Store) : option bytes * Store :=
  match records s !! policyID with
  | None => (Some (not_found "mark provisional" policyID), s)
  | Some r => persisted err (with_records (<[policyID := provisional_record mitigationID d appliedAt r]> (records s)) s)
  end.

Definition cleared_record (r : Record_) : Record_ :=
  MkRecord (r_Spec r) (AppliedAt r) (ExpiresAt r) (GuardrailTTL r) (PreConsensus r) (Rollback r) zero_time false (MitigationID r)
    (Provisional r) (PromotionState r) 0 (PromotedAt r) (RevokedAt r).
Definition ClearPendingConsensus (err : option bytes) (policyID : bytes) (s : Store) : option bytes * Store :=
  match records s !! policyID with
  | None => (None, s)
  | Some r => persisted err (with_records (<[policyID := cleared_record r]> (records s)) s)
  end.

Definition promoted_record (promotedAt : Time) (r : Record_) : Record_ :=
  MkRecord (r_Spec r) (AppliedAt r) (ExpiresAt r) (GuardrailTTL r) (PreConsensus r) (Rollback r) zero_time false (MitigationID r) false
    (str "promoted") 0 promotedAt (RevokedAt r).
Definition MarkPromoted (err : option bytes) (policyID : bytes) (promotedAt : Time) (s : Store) : option bytes * Store :=
  match records s !! policyID with
  | None => (None, s)
  | Some r => persisted err (with_records (<[policyID := promoted_record promotedAt r]> (records s)) s)
  end.

Definition SavePendingApproval (err : option bytes) (key payload : bytes) (s : Store) : option bytes * Store :=
  persisted err (with_pending (match payload with [] => delete key (pending s) | _ => <[key := payload]> (pending s) end) s).
Definition RemovePendingApproval (err : option bytes) (key : bytes) (s : Store) : option bytes * Store :=
  persisted err (with_pending (delete key (pending s)) s).

(** In memory only. *)
Definition AdvanceScopeWatermark (scopeKey : bytes) (eventAt : Time) (s : Store) : Store :=
  let scopeKey := TrimSpace scopeKey in
  if bool_decide (scopeKey = []) || IsZero eventAt then s
  else if After eventAt (default zero_time (scopeWatermarks s !! scopeKey)) then
    with_watermarks (<[scopeKey := eventAt]> (scopeWatermarks s)) s
  else s.

(** ** Questions *)

Definition PendingFastPath (range : visit_order bytes Record_) (s : Store) : list Record_ := filter (fun r => PendingConsensus r = true) (range (records s)).*2.
Definition Get (policyID : bytes) (s : Store) : option Record_ := records s !! policyID.
Definition List (range : visit_order bytes Record_) (s : Store) : list Record_ := (range (records s)).*2.
Definition PendingApproval (key : bytes) (s : Store) : option bytes := pending s !! key.
Definition LastAppliedWithin (policyID : bytes) (window : Z) (now : Time) (s : Store) : bool :=
  if window <=? 0 then false else match lastApplied s !! policyID with Some last => Sub now last <? window | None => false end.
Definition IsScopeEventStale (scopeKey : bytes) (eventAt : Time) (s : Store) : bool :=
  let scopeKey := TrimSpace scopeKey in
  if bool_decide (scopeKey = []) || IsZero eventAt then false
  else let last := default zero_time (scopeWatermarks s !! scopeKey) in if IsZero last then false else Before eventAt last.
Definition ActiveCount (s : Store) : Z := Z.of_nat (size (records s)).

(** Counted from the last entry back to the first that is too old. *)
Fixpoint count_recent (threshold : Time) (rev_entries : list Time) : Z :=
  match rev_entries with [] => 0 | t :: l => if Before t threshold then 0 else 1 + count_recent threshold l end.
Definition RecentCountFor (scope : bytes) (window : Z) (now : Time) (s : Store) : Z :=
  let entries := default [] (history s !! scope) in
  if window <=? 0 then len entries else count_recent (Add now (i64 (- window))) (reverse entries).
Definition RecentCount (window : Z) (now : Time) (s : Store) : Z := RecentCountFor globalScope window now s.

Inductive expiry := FastPathTTL | TTLExpired | PreConsensusTTL | RollbackTimeout.
Definition passed (now d : Time) : bool := negb (IsZero d) && After now d.
Definition expiry_of (now : Time) (r : Record_) : option expiry :=
  if PendingConsensus r && passed now (FastPathDeadline r) then Some FastPathTTL
  else if passed now (ExpiresAt r) then Some TTLExpired
  else if passed now (PreConsensus r) then Some PreConsensusTTL
  else if passed now (Rollback r) then Some RollbackTimeout
  else None.
Definition Expired (range : visit_order bytes Record_) (now : Time) (s : Store) : list Record_ :=
  filter (fun r => bool_decide (expiry_of now r <> None) = true) (range (records s)).*2.

Definition NextPreConsensusDeadline (range : visit_order bytes Record_) (now : Time) (s : Store) : option Time :=
  foldl (fun acc r =>
    if IsZero (PreConsensus r) || negb (Before now (PreConsensus r)) then acc
    else match acc with Some t => if Before (PreConsensus r) t then Some (PreConsensus r) else acc | None => Some (PreConsensus r) end)
    None (range (records s)).*2.

(** ** The ledger *)

(** [None] is a provider without a snapshot. [err] is the file's; with it the caller
    learns nothing of what changed. *)
Definition ledger_add (appliedAt : Time) (acc : list PolicySpec * Store) (kv : bytes * PolicySpec) : list PolicySpec * Store :=
  let '(added, s) := acc in
  let '(id, sp) := kv in
  if bool_decide (sp_ID sp = []) then acc
  else match records s !! id with
  | Some _ => acc
  | None =>
      let expires := if 0 <? TTLSeconds (sp_Guardrails sp) then Add appliedAt (seconds (TTLSeconds (sp_Guardrails sp))) else zero_time in
      let s := with_records (<[id := fresh_record sp appliedAt expires]> (records s)) s in
      let s := count_policy sp appliedAt s in
      (added ++ [sp], with_lastApplied (<[sp_ID sp := appliedAt]> (lastApplied s)) s)
  end.
Definition ReconcileLedger (err : option bytes) (range : visit_order bytes Record_) (range' : visit_order bytes PolicySpec)
    (ledger : option (gmap bytes PolicySpec)) (appliedAt : Time) (s : Store) : result bytes (list Record_ * list PolicySpec) * Store :=
  match ledger with
  | None => (Ok ([], []), s)
  | Some m =>
      let gone := filter (fun kv => m !! kv.1 = None) (range (records s)) in
      let s1 := with_records (filter (fun kv => m !! kv.1 <> None) (records s)) s in
      let '(added, s2) := foldl (ledger_add appliedAt) ([], s1) (range' m) in
      if bool_decide (gone = []) && bool_decide (added = []) then (Ok ([], []), s2)
      else
        let '(err, s3) := persisted err s2 in
        (match err with Some e => Err e | None => Ok (gone.*2, added) end, s3)
  end.
