(* ===== verification/AgentController.v ===== *)
(** enforcement-agent/internal/controller: how the agent handles a policy event, from its
    verification through replay protection, approvals and guardrails to the enforcement
    backend, the store and the acknowledgement (controller.go, fast_handler.go, fastpath.go,
    lane_scheduler.go, lifecycle_compactor.go), with ratelimit/ and the noop backend of
    enforcer/enforcer.go as the contract of a backend. Metrics, spans and the stage marks
    in the raw rule data are left out. *)
From S2P Require Import Prelude Bytes Sha256 GoTime GoFloat GoStrings GoJson GoText GoNet AgentPolicy AgentStore.
Import Json.
Local Open Scope Z_scope.

(** ** State *)

Inductive ack_result := ResultAccepted | ResultApplied | ResultNoop | ResultRejected | ResultTimeout | ResultRetryExhausted | ResultFailed.
#[export] Instance ack_result_eq_dec : EqDecision ack_result.
Proof. solve_decision. Defined.

Inductive ack_status := AckSkipped | AckPublisherUnavailable | AckEnqueueFailed | AckEnqueueOK.
Record DecisionRecord := MkDecision {
  d_PolicyID : bytes; d_Action : bytes; d_Scope : bytes; d_Tenant : bytes; d_Result : ack_result; d_ErrorCode : bytes; d_Reason : bytes;
  d_AppliedAt : Time; d_AckRequired : bool; d_AckStatus : ack_status }.

Record compactionEntry := MkCompaction { ce_seenAt : Time; ce_action : bytes }.

(** What the agent did to the world, in order. *)
Inductive effect :=
| EApply (spec : PolicySpec) (ok : bool) | ERemove (policyID : bytes) (ok : bool)
| EAck (policyID : bytes) (result : ack_result) (errorCode reason : bytes) | EReject
| EReserve (scope : bytes) | ECommit (scope : bytes) | ERelease (scope : bytes) | EWait (d : Z).

Record Agent := MkAgent {
  store : Store; plane : gmap bytes PolicySpec; seenHashes : gmap bytes bytes; approvals : gmap bytes Event;
  replaySeen : gmap bytes Time; compactor : gmap bytes compactionEntry; applyTimeoutStreak : Z; applyTimeoutBreakerUntilNs : Z;
  decisions : list DecisionRecord; effects : list effect }.

Definition with_store f (a : Agent) : Agent :=
  MkAgent (f (store a)) (plane a) (seenHashes a) (approvals a) (replaySeen a) (compactor a) (applyTimeoutStreak a)
    (applyTimeoutBreakerUntilNs a) (decisions a) (effects a).
Definition with_plane f (a : Agent) : Agent :=
  MkAgent (store a) (f (plane a)) (seenHashes a) (approvals a) (replaySeen a) (compactor a) (applyTimeoutStreak a)
    (applyTimeoutBreakerUntilNs a) (decisions a) (effects a).
Definition with_seen f (a : Agent) : Agent :=
  MkAgent (store a) (plane a) (f (seenHashes a)) (approvals a) (replaySeen a) (compactor a) (applyTimeoutStreak a)
    (applyTimeoutBreakerUntilNs a) (decisions a) (effects a).
Definition with_approvals f (a : Agent) : Agent :=
  MkAgent (store a) (plane a) (seenHashes a) (f (approvals a)) (replaySeen a) (compactor a) (applyTimeoutStreak a)
    (applyTimeoutBreakerUntilNs a) (decisions a) (effects a).
Definition with_replay f (a : Agent) : Agent :=
  MkAgent (store a) (plane a) (seenHashes a) (approvals a) (f (replaySeen a)) (compactor a) (applyTimeoutStreak a)
    (applyTimeoutBreakerUntilNs a) (decisions a) (effects a).
Definition with_compactor f (a : Agent) : Agent :=
  MkAgent (store a) (plane a) (seenHashes a) (approvals a) (replaySeen a) (f (compactor a)) (applyTimeoutStreak a)
    (applyTimeoutBreakerUntilNs a) (decisions a) (effects a).
Definition with_breaker streak until (a : Agent) : Agent :=
  MkAgent (store a) (plane a) (seenHashes a) (approvals a) (replaySeen a) (compactor a) streak until (decisions a) (effects a).
Definition with_decisions f (a : Agent) : Agent :=
  MkAgent (store a) (plane a) (seenHashes a) (approvals a) (replaySeen a) (compactor a) (applyTimeoutStreak a)
    (applyTimeoutBreakerUntilNs a) (f (decisions a)) (effects a).
Definition did (l : list effect) (a : Agent) : Agent :=
  MkAgent (store a) (plane a) (seenHashes a) (approvals a) (replaySeen a) (compactor a) (applyTimeoutStreak a)
    (applyTimeoutBreakerUntilNs a) (decisions a) (effects a ++ l).

(** ** Settings *)

Inductive lane := LaneCritical | LaneMaintenance.
(** [LocalRate] counts the history of the store; of [RedisRate] every answer is the environment's. *)
Inductive rate_backend := NoRate | LocalRate | RedisRate.

Record Options := MkOptions {
  o_FastPathEnabled : bool; o_FastPathMinConfidence : float64; o_FastPathSignals : Z; o_AckPublisher : bool;
  o_ApplyRetryMax : Z; o_ApplyRetryBackoff : Z; o_ApplyRetryBaseBackoff : Z; o_ApplyRetryMaxBackoff : Z; o_ApplyRetryJitterRatio : float64;
  o_ApplyTimeoutBreakerThreshold : Z; o_ApplyTimeoutBreakerCooldown : Z; o_ExpiredShedding : bool; o_ReplayWindow : Z;
  o_ReplayFutureSkew : Z; o_ReplayCacheMaxEntries : Z; o_CommandRejectSink : bool; o_CommandRejectRequired : bool; o_CommandTopic : bytes;
  o_LifecycleCompactionEnabled : bool; o_LifecycleCompactionWindow : Z; o_EmitAcceptedAck : bool; o_CriticalMode : bytes;
  o_MaintenanceMode : bytes; o_PromotionGateEnabled : bool; o_PromotionMinWindow : Z }.

Record Config := MkConfig {
  fp_Enabled : bool; fp_MinConfidence : float64; fp_SignalsRequired : Z; acks : bool;
  applyRetryMax : Z; applyRetryBase : Z; applyRetryMaxCap : Z; applyRetryJitter : float64; breakerThreshold : Z; breakerCooldown : Z;
  enableExpiredShed : bool; replayWindow : Z; replayFutureSkew : Z; replayCacheMax : Z; commandRejects : bool; commandRejectRequired : bool;
  commandTopic : bytes; compactionWindow : option Z; emitAcceptedAck : bool; criticalEnforced : bool; maintenanceEnforced : bool;
  promotionGateEnabled : bool; promotionMinWindow : Z; startedAt : Time; rate : rate_backend }.

Definition unless_positive (x d : Z) : Z := if x <=? 0 then d else x.
(** Every mode but [dry_run] enforces. *)
Definition enforces (mode : bytes) : bool := bool_decide (lower_trim mode <> str "dry_run").

Definition New (o : Options) (r : rate_backend) (now : Time) : Config :=
  let backoff := unless_positive (o_ApplyRetryBackoff o) (100 * Millisecond) in
  let base := unless_positive (o_ApplyRetryBaseBackoff o) backoff in
  let cap := Z.max (unless_positive (o_ApplyRetryMaxBackoff o) Second) base in
  let jitter := if f_ltb (o_ApplyRetryJitterRatio o) (f_of_Z 0) then f_of_Z 0
                else if f_ltb (f_of_Z 1) (o_ApplyRetryJitterRatio o) then f_of_Z 1 else o_ApplyRetryJitterRatio o in
  MkConfig (o_FastPathEnabled o) (o_FastPathMinConfidence o) (o_FastPathSignals o) (o_AckPublisher o)
    (Z.max 0 (o_ApplyRetryMax o)) base cap jitter (Z.max 0 (o_ApplyTimeoutBreakerThreshold o)) (Z.max 0 (o_ApplyTimeoutBreakerCooldown o))
    (o_ExpiredShedding o) (unless_positive (o_ReplayWindow o) (10 * Minute)) (unless_positive (o_ReplayFutureSkew o) (30 * Second))
    (unless_positive (o_ReplayCacheMaxEntries o) 20000) (o_CommandRejectSink o) (o_CommandRejectRequired o) (TrimSpace (o_CommandTopic o))
    (if o_LifecycleCompactionEnabled o then Some (unless_positive (o_LifecycleCompactionWindow o) (2 * Minute)) else None)
    (o_EmitAcceptedAck o) (enforces (o_CriticalMode o)) (enforces (o_MaintenanceMode o)) (o_PromotionGateEnabled o) (o_PromotionMinWindow o)
    now r.

(** ** Answers of the environment to one message *)

(** An error of the backend, as [applyErrorClass] looks at it. *)
Record apply_error := MkApplyError {
  ae_deadline : bool; ae_canceled : bool; ae_api_timeout : bool; ae_api_transient : bool; ae_net_timeout : option bool; ae_text : bytes }.

(** A wait that is cut short by the caller or by the budget of the retries. *)
Inductive wait_answer := Waited | ParentCanceled | BudgetEnded (e : apply_error).
Record attempt := MkAttempt { at_canceled : bool; at_result : option apply_error; at_jitter : float64; at_wait : wait_answer }.

Inductive reserve_answer := Reserved | LimitExceeded | ReserveError (text : bytes).

(** [clock n] is the n-th place that reads the clock, [file n] the error of the n-th place
    that writes the store's file, [lane_wait] the error of waiting for a slot. *)
Record answers := MkAnswers {
  clock : nat -> Time; kill : bool; file : nat -> option bytes; backend_Remove : option bytes; backend_Apply : nat -> attempt;
  lane_wait : lane -> option bytes; redis_Reserve : bytes -> reserve_answer; reject_Publish : option bytes; ack_Publish : ack_result -> bool;
  replay_range : visit_order bytes Time }.

Inductive handler_error :=
| RejectSinkUnavailable | RejectPublish (text : bytes) | LaneError (text : bytes) | RemoveError (text : bytes) | PersistError (text : bytes)
| BreakerOpen | ApplyFailed (e : apply_error) | FastEnvelopeMissing.

(** ** Functions of an event *)

Inductive fast_path_reason := FPDisabled | FPTTLMissing | FPSignalsMissing | FPConfidenceLow | FPEligible.
Definition EvaluateFastPath (c : Config) (spec : PolicySpec) : fast_path_reason :=
  let g := sp_Guardrails spec in
  if negb (fp_Enabled c) || negb (FastPathEnabled g) then FPDisabled
  else if match FastPathTTLSeconds g with Some n => n <=? 0 | None => true end then FPTTLMissing
  else if default (fp_SignalsRequired c) (FastPathSignalsRequired g) <=? 0 then FPSignalsMissing
  else
    let minConfidence := default (fp_MinConfidence c) (FastPathConfidenceMin g) in
    match cr_MinConfidence (sp_Criteria spec) with
    | Some f => if f_ltb f minConfidence then FPConfidenceLow else FPEligible
    | None => FPConfidenceLow
    end.

(** The action of a message decides its lane before it is handled. *)
Definition maintenance_actions : list bytes := str <$> ["refresh"; "renew"; "ttl_refresh"; "reconcile"; "sync"; "heartbeat"].
Definition MessageLane `{Signing} (value : bytes) : lane :=
  match value with
  | [] => LaneCritical
  | _ => match proto_Unmarshal value with
         | Some evt => if bool_decide (lower_trim (ev_Action evt) ∈ maintenance_actions) then LaneMaintenance else LaneCritical
         | None => LaneCritical
         end
  end.

Definition enforcementCommandDomain : bytes := str "control.enforcement_command.v1".
Definition policyDomainForTopic (c : Config) (topic : bytes) : bytes :=
  let t := TrimSpace topic in
  let ct := TrimSpace (commandTopic c) in
  if bool_decide (t = []) then legacyPolicyDomain
  else if bool_decide (ct = legacyPolicyDomain) then legacyPolicyDomain
  else if bool_decide (ct <> []) && bool_decide (t = ct) then enforcementCommandDomain
  else if bool_decide (t = enforcementCommandDomain) then enforcementCommandDomain
  else legacyPolicyDomain.

(** What two policies are compared by, with [json.Marshal] of it. *)
Record effective_rule := MkRule {
  er_id : bytes; er_ruleType : bytes; er_action : bytes; er_tenant : bytes; er_region : bytes;
  er_ips : list bytes; er_cidrs : list bytes; er_direction : bytes; er_scope : bytes; er_selectors : gmap bytes bytes; er_namespace : bytes;
  er_ports : list bytes; er_protocols : list bytes; er_ttenant : bytes; er_tregion : bytes; er_criteria : Criteria;
  er_dry_run : bool; er_canary : bool; er_max_prefix : option Z; er_max_targets : option Z; er_fast : bool; er_fast_canary : bool;
  er_allow_ips : list bytes; er_allow_cidrs : list bytes; er_allow_ns : list bytes; er_approval : bool }.

(** Selector keys in lower case, the last visited of two that become equal winning. *)
Definition cloneStringMap (range : visit_order bytes bytes) (m : gmap bytes bytes) : gmap bytes bytes :=
  foldl (fun acc kv => <[lower_trim kv.1 := TrimSpace kv.2]> acc) ∅ (range m).
Definition effectiveRule (range : visit_order bytes bytes) (s : PolicySpec) : effective_rule :=
  let t := sp_Target s in
  let g := sp_Guardrails s in
  MkRule (TrimSpace (sp_ID s)) (lower_trim (sp_RuleType s)) (lower_trim (sp_Action s)) (lower_trim (sp_Tenant s)) (lower_trim (sp_Region s))
    (tg_IPs t) (tg_CIDRs t) (lower_trim (tg_Direction t)) (lower_trim (tg_Scope t)) (cloneStringMap range (tg_Selectors t))
    (lower_trim (tg_Namespace t)) (normalizePorts (tg_Ports t)) (normalizeSorted (tg_Protocols t)) (lower_trim (tg_Tenant t))
    (lower_trim (tg_Region t)) (sp_Criteria s) (DryRun g) (CanaryScope g) (CIDRMaxPrefixLen g) (MaxTargets g) (FastPathEnabled g)
    (FastPathCanaryScope g) (normalizeSorted (AllowlistIPs g)) (normalizeSorted (AllowlistCIDRs g)) (normalizeSorted (AllowlistNamespaces g))
    (ApprovalRequired g).
Class RuleEncoding := { Marshal_rule : effective_rule -> bytes; selector_range : visit_order bytes bytes }.
Definition effectiveRuleFingerprint `{RuleEncoding} (s : PolicySpec) : bytes := hex (sha256 (Marshal_rule (effectiveRule selector_range s))).
Definition sameEffectiveRule `{RuleEncoding} (a b : PolicySpec) : bool := bool_decide (effectiveRuleFingerprint a = effectiveRuleFingerprint b).

Definition evtRuleHash (evt : Event) : bytes :=
  match Proto evt, Fast evt with
  | Some p, _ => ev_RuleHash p
  | None, Some f => default [] (DecodeString (TrimSpace (f_ContentHash f)))
  | None, None => []
  end.
Definition duplicateFingerprint (evt : Event) : bytes :=
  match Fast evt with
  | Some f => join [str "fast"; TrimSpace (f_MitigationID f); TrimSpace (f_ContentHash f)] "|"
  | None => hex (evtRuleHash evt)
  end.
Definition approvalKey (s : PolicySpec) : bytes := sp_ID s ++ str ":" ++ ScopeIdentifier s.
Definition isDuplicate (evt : Event) (a : Agent) : bool := bool_decide (seenHashes a !! approvalKey (Spec evt) = Some (duplicateFingerprint evt)).
Definition commitDuplicateFingerprint (evt : Event) : Agent -> Agent := with_seen <[approvalKey (Spec evt) := duplicateFingerprint evt]>.

(** [strings.TrimSpace(stringValue(m[key]))]. *)
Definition text_at (m : gmap bytes json) (key : string) : bytes := TrimSpace (default [] (get_string m (str key))).
Definition first_set (l : list bytes) : bytes := default [] (head (filter (fun s => s <> []) l)).
Definition eventCommandID (evt : Event) : bytes :=
  let raw := sp_Raw (Spec evt) in
  let nested key := match get_map raw (str key) with Some m => text_at m "command_id" | None => [] end in
  first_set [text_at raw "command_id"; nested "metadata"; nested "trace"].
Definition replayKey (evt : Event) (p : PolicyUpdateEvent) : bytes :=
  let id := eventCommandID evt in
  if bool_decide (id <> []) then str "cmd:" ++ id
  else
    let policyID := if bool_decide (TrimSpace (ev_PolicyId p) <> []) then TrimSpace (ev_PolicyId p) else sp_ID (Spec evt) in
    join [policyID; hex (ev_RuleHash p); hex (ev_ProducerId p); Itoa (ev_Timestamp p)] "|".
Definition fastReplayKey (f : FastMitigationEnvelope) : bytes :=
  join [str "fast"; f_MitigationID f; f_PolicyID f; TrimSpace (f_ContentHash f); TrimSpace (f_Pubkey f); TrimSpace (f_Nonce f);
        Itoa (f_Timestamp f)] "|".

Definition policyEventTimestamp (evt : Event) : option Time :=
  match Proto evt with Some p => if ev_Timestamp p <=? 0 then None else Some (time_Unix (ev_Timestamp p)) | None => None end.
(** The time a policy is too old to be applied, when it has one. *)
Definition policyExpiryDeadline (evt : Event) : option Time :=
  let ttl := TTLSeconds (sp_Guardrails (Spec evt)) in
  if ttl <=? 0 then None else (fun ts => Add ts (seconds ttl)) <$> policyEventTimestamp evt.
Definition orderingKey (evt : Event) : bytes :=
  let policyID := match Proto evt with Some p => TrimSpace (ev_PolicyId p) | None => [] end in
  match first_set [policyID; TrimSpace (sp_ID (Spec evt))] with
  | [] => str "scope:" ++ ScopeIdentifier (Spec evt)
  | id => str "policy:" ++ id
  end.

Definition isApprovalAction (action : bytes) : bool :=
  bool_decide (lower_trim action ∈ str <$> ["approve"; "approved"; "ack"; "acknowledge"; "approval"]).
Definition isRejectAction (action : bytes) : bool := bool_decide (lower_trim action ∈ str <$> ["reject"; "rejected"; "deny"; "denied"]).
Definition proto_action (evt : Event) : bytes := match Proto evt with Some p => ev_Action p | None => [] end.
Definition isRemoveAction (evt : Event) : bool :=
  EqualFold (TrimSpace (sp_Action (Spec evt))) (str "remove") || EqualFold (TrimSpace (proto_action evt)) (str "remove").

(** A member set in a map or in an object within it. *)
Definition set_text (source : gmap bytes json) (m : gmap bytes json) (key : string) : gmap bytes json :=
  let v := text_at source key in if bool_decide (v = []) then m else <[str key := JString v]> m.
Definition map_json (m : gmap bytes json) : json := JObject (map_to_list m).
(** [mergePendingDecisionContext]: the pending event with the identifiers and the action of
    the decision. The raw rule data it changes are those of the pending event itself. *)
Definition merged_raw (pending decision : gmap bytes json) : gmap bytes json :=
  let nested m key := default ∅ (get_map m (str key)) in
  let m := foldl (set_text decision) pending ["request_id"; "command_id"; "workflow_id"; "control_action"] in
  let metadata := foldl (set_text (nested decision "metadata")) (nested m "metadata")
    ["request_id"; "command_id"; "workflow_id"; "decision_reason_code"; "decision_reason_text"; "control_action"] in
  let m := <[str "metadata" := map_json metadata]> m in
  let trace := foldl (set_text (nested decision "trace")) (nested m "trace") ["request_id"; "command_id"; "workflow_id"] in
  <[str "trace" := map_json trace]> m.
Definition with_raw m (s : PolicySpec) : PolicySpec :=
  MkSpec (sp_ID s) (sp_RuleType s) (sp_Action s) (sp_Target s) (sp_Criteria s) (sp_Guardrails s) (sp_Audit s) (sp_EffectiveHeight s)
    (sp_ExpirationHeight s) (sp_Timestamp s) m (sp_Tenant s) (sp_Region s).
Definition unapproved (g : Guardrails) : Guardrails :=
  MkGuardrails (TTLSeconds g) (CIDRMaxPrefixLen g) (MaxTargets g) (DryRun g) (CanaryScope g) (RollbackIfNoCommitAfter g)
    (PreConsensusTTLSeconds g) (FastPathEnabled g) (FastPathTTLSeconds g) (FastPathSignalsRequired g) (FastPathConfidenceMin g)
    (FastPathCanaryScope g) (AllowlistIPs g) (AllowlistCIDRs g) (AllowlistNamespaces g) (MaxActivePolicies g) (MaxPoliciesPerMinute g) false
    (gr_RateLimit g) (RateLimitPerTenant g) (RateLimitPerRegion g) (EscalationCooldown g).
Definition with_guardrails g (s : PolicySpec) : PolicySpec :=
  MkSpec (sp_ID s) (sp_RuleType s) (sp_Action s) (sp_Target s) (sp_Criteria s) g (sp_Audit s) (sp_EffectiveHeight s)
    (sp_ExpirationHeight s) (sp_Timestamp s) (sp_Raw s) (sp_Tenant s) (sp_Region s).
Definition with_action (action : bytes) (p : PolicyUpdateEvent) : PolicyUpdateEvent :=
  MkUpdate (ev_PolicyId p) action (ev_RuleType p) (ev_RuleData p) (ev_RuleHash p) false (ev_RollbackPolicyId p) (ev_Timestamp p)
    (ev_EffectiveHeight p) (ev_ExpirationHeight p) (ev_ProducerId p) (ev_Signature p) (ev_Pubkey p) (ev_Alg p).
(** With the two assignments that follow it: no approval and no acknowledgement is asked for again. *)
Definition mergePendingDecisionContext (pending decision : Event) : Event :=
  let spec := with_raw (merged_raw (sp_Raw (Spec pending)) (sp_Raw (Spec decision))) (Spec pending) in
  MkEvent (with_action (proto_action decision) <$> Proto pending) (Fast pending) (with_guardrails (unapproved (sp_Guardrails spec)) spec).
Definition rejectDecisionReason (s : PolicySpec) : bytes :=
  let m := default ∅ (get_map (sp_Raw s) (str "metadata")) in
  match first_set [text_at m "decision_reason_text"; text_at m "decision_reason_code"] with [] => str "policy manually rejected" | r => r end.

Definition canonicalAckResult (result : ack_result) (errorCode reason : bytes) : ack_result :=
  let code := lower_trim errorCode in
  let rsn := lower_trim reason in
  let either p := contains code p || contains rsn p in
  let isTimeout := either "timeout" || either "deadline" in
  let isRetryExhausted := either "retry_exhausted" || either "retries_exhausted" in
  let isNoop := either "noop" || contains code "duplicate" in
  match result with
  | ResultApplied => if isNoop then ResultNoop else ResultApplied
  | ResultFailed => if isTimeout then ResultTimeout else if isRetryExhausted then ResultRetryExhausted else ResultRejected
  | r => r
  end.

(** ** Allowlists *)

Definition ctl_namespace (s : PolicySpec) : bytes :=
  if bool_decide (tg_Namespace (sp_Target s) <> []) then tg_Namespace (sp_Target s)
  else match selector s "namespace" with Some ns => lower_trim ns | None => [] end.
Definition parseAddrs (l : list bytes) : list Addr := omap (fun s => ParseAddr (TrimSpace s)) l.
Definition parsePrefixes (l : list bytes) : list Prefix := omap (fun s => ParsePrefix (TrimSpace s)) l.
(** The text of the first violation, in the order of the checks. *)
Definition first_of {A} (p : A -> option bytes) (l : list A) : option bytes := head (omap p l).
Definition checkAllowlist (s : PolicySpec) : option bytes :=
  let g := sp_Guardrails s in
  let t := sp_Target s in
  let allowCIDRs := parsePrefixes (AllowlistCIDRs g) in
  let ips := parseAddrs (tg_IPs t) in
  let ns := ctl_namespace s in
  if bool_decide (AllowlistIPs g = []) && bool_decide (AllowlistCIDRs g = []) && bool_decide (AllowlistNamespaces g = []) then None
  else
    head (omap id
      [first_of (fun a => if bool_decide (a ∈ parseAddrs (AllowlistIPs g)) then Some (str "target ip " ++ Addr_String a ++ str " is allowlisted")
                          else None) ips;
       if bool_decide (ns <> []) then
         if existsb (fun allowed => EqualFold ns (lower_trim allowed)) (AllowlistNamespaces g)
         then Some (str "target namespace " ++ ns ++ str " is allowlisted") else None
       else if bool_decide (tg_Scope t = str "namespace") && negb (bool_decide (AllowlistNamespaces g = []))
       then Some (str "target namespace unspecified but namespace allowlist present") else None;
       first_of (fun a => if existsb (fun p => Contains p a) allowCIDRs
                          then Some (str "target ip " ++ Addr_String a ++ str " falls within allowlisted cidr") else None) ips;
       first_of (fun pq => if Overlaps pq.1 pq.2
                           then Some (str "target cidr " ++ Prefix_String pq.2 ++ str " overlaps allowlisted cidr " ++ Prefix_String pq.1) else None)
         (p ← allowCIDRs; q ← parsePrefixes (tg_CIDRs t); [(p, q)]);
       first_of (fun target => p ← ParsePrefix (TrimSpace target); if bool_decide (p ∈ allowCIDRs)
                               then Some (str "target cidr " ++ target ++ str " is allowlisted") else None) (tg_CIDRs t)]).

(** ** Errors of the backend *)

Inductive ErrorClass := ErrorClassPermanent | ErrorClassTransient | ErrorClassTimeout | ErrorClassCanceled.
#[export] Instance ErrorClass_eq_dec : EqDecision ErrorClass.
Proof. solve_decision. Defined.

Definition timeout_texts : list string := ["timeout"; "i/o timeout"; "deadline exceeded"; "context deadline exceeded"].
Definition transient_texts : list string :=
  ["connection reset"; "connection refused"; "broken pipe"; "temporary"; "try again"; "econnreset"; "econnrefused"; "503"; "429"].
Definition applyErrorClass (e : apply_error) : ErrorClass :=
  let msg := lower_trim (ae_text e) in
  if ae_deadline e then ErrorClassTimeout
  else if ae_canceled e then ErrorClassCanceled
  else if ae_api_timeout e then ErrorClassTimeout
  else if ae_api_transient e then ErrorClassTransient
  else match ae_net_timeout e with
  | Some t => if t then ErrorClassTimeout else ErrorClassTransient
  | None =>
      if existsb (contains msg) timeout_texts then ErrorClassTimeout
      else if existsb (contains msg) transient_texts then ErrorClassTransient
      else ErrorClassPermanent
  end.
Definition applyErrorCode (e : apply_error) : bytes :=
  match applyErrorClass e with
  | ErrorClassCanceled => str "apply_canceled"
  | ErrorClassTimeout => str "apply_timeout"
  | _ => str "apply_error"
  end.
Definition retryable (e : apply_error) : bool := bool_decide (applyErrorClass e ∈ [ErrorClassTimeout; ErrorClassTransient]).
(** Whether a failure for good is published: what retries could not mend, and what retries would not. *)
Definition terminalRejectPolicy (class : ErrorClass) (exhausted : bool) : bool := exhausted || bool_decide (class = ErrorClassPermanent).

Definition canceled_error : apply_error := MkApplyError false true false false None (str "context canceled").

(** ** The compaction of events *)

Definition compactionKey (s : PolicySpec) : bytes :=
  let id := lower_trim (sp_ID s) in
  if bool_decide (id <> []) then str "id:" ++ id
  else
    let t := sp_Target s in
    let of_selector key := lower_trim (default [] (selector s key)) in
    let ns := if bool_decide (lower_trim (tg_Namespace t) = []) then of_selector "namespace" else lower_trim (tg_Namespace t) in
    let target := join [join (sort_strings (tg_IPs t)) ","; join (sort_strings (tg_CIDRs t)) ","; ns; of_selector "node"] "|" in
    str "fallback:" ++ lower_trim (ScopeIdentifier s) ++ str "|" ++ (if bool_decide (target = str "|||") then str "unknown" else target).
Definition normalizeCompactionAction (action : bytes) : bytes :=
  let a := lower_trim action in if bool_decide (a = []) then str "apply" else a.

(** Whether the event is superseded, with the entries after it. *)
Definition Observe (window : Z) (evt : Event) (eventTS now : Time) (m : gmap bytes compactionEntry) : bool * gmap bytes compactionEntry :=
  let eventTS := if IsZero eventTS then now else eventTS in
  let m := filter (fun kv => Before (ce_seenAt kv.2) (Add now (i64 (- window))) = false) m in
  let key := compactionKey (Spec evt) in
  match m !! key with
  | Some last => if negb (After eventTS (ce_seenAt last)) then (true, m)
                 else (false, <[key := MkCompaction eventTS (normalizeCompactionAction (sp_Action (Spec evt)))]> m)
  | None => (false, <[key := MkCompaction eventTS (normalizeCompactionAction (sp_Action (Spec evt)))]> m)
  end.

(** ** The handler *)

Section handler.
Context `{Signing, RuleEncoding} (t : TrustedKeys) (c : Config) (w : answers).

Definition recordDecision (d : DecisionRecord) : Agent -> Agent :=
  with_decisions (fun l => let l := l ++ [d] in drop (length l - 500) l).

Definition emitAck (evt : Event) (requiresAck : bool) (result : ack_result) (errorCode reason : bytes) (appliedAt : Time) (a : Agent) : Agent :=
  let result := canonicalAckResult result errorCode reason in
  let attempted := requiresAck && acks c in
  let status := if attempted then (if ack_Publish w result then AckEnqueueOK else AckEnqueueFailed)
                else if requiresAck then AckPublisherUnavailable else AckSkipped in
  let spec := Spec evt in
  recordDecision (MkDecision (sp_ID spec) (sp_Action spec) (ScopeIdentifier spec) (effectiveTenant spec) result errorCode reason appliedAt
    requiresAck status)
    (did (if attempted then [EAck (sp_ID spec) result errorCode reason] else []) a).

(** [publishCommandReject] of a message; the artifact of an event without one is skipped. *)
Definition publishCommandReject (has_message : bool) (a : Agent) : option handler_error * Agent :=
  if negb has_message then (None, a)
  else if negb (commandRejects c) then (if commandRejectRequired c then Some RejectSinkUnavailable else None, a)
  else match reject_Publish w with Some e => (Some (RejectPublish e), a) | None => (None, did [EReject] a) end.

(** *** Replay *)

Inductive replay_verdict := ReplayOK (key : bytes) | ReplayDuplicate | ReplayRejected (reason : string) (text : bytes).

Definition pruneReplay (now : Time) (m : gmap bytes Time) : gmap bytes Time :=
  filter (fun kv => Before kv.2 (Add now (i64 (- replayWindow c))) = false) m.
Definition evictReplay (m : gmap bytes Time) : gmap bytes Time :=
  let excess := (size m - Z.to_nat (replayCacheMax c))%nat in
  foldl (fun m k => delete k m) m (take excess (replay_range w m).*1).
Definition seen_within (key : bytes) (now : Time) (m : gmap bytes Time) : bool :=
  match m !! key with Some seenAt => Sub now seenAt <=? replayWindow c | None => false end.

(** The times an envelope may have; [what] names it in the texts. *)
Definition check_times (what : string) (timestamp : Z) (now : Time) : option (string * bytes) :=
  let eventTS := time_Unix timestamp in
  if timestamp <=? 0 then
    Some ("replay_invalid_timestamp"%string, str "invalid timestamp in " ++ str what ++ str " envelope")
  else if Before (Add now (replayFutureSkew c)) eventTS then
    Some ("replay_future_timestamp"%string, str what ++ str " timestamp " ++ RFC3339 eventTS ++ str " exceeds future skew " ++ Duration_String (replayFutureSkew c))
  else if Before eventTS (Add now (i64 (- replayWindow c))) then
    Some ("replay_stale_timestamp"%string, str what ++ str " timestamp " ++ RFC3339 eventTS ++ str " outside replay window " ++ Duration_String (replayWindow c))
  else None.

Definition checkReplay (evt : Event) (now : Time) (a : Agent) : replay_verdict * Agent :=
  match Proto evt with
  | None => (ReplayRejected "replay_missing_envelope" (str "missing policy envelope for replay validation"), a)
  | Some p =>
      match check_times "policy" (ev_Timestamp p) now with
      | Some (reason, text) => (ReplayRejected reason text, a)
      | None =>
          let key := replayKey evt p in
          let a := with_replay (pruneReplay now) a in
          (if seen_within key now (replaySeen a) then ReplayDuplicate else ReplayOK key, a)
      end
  end.
Definition commitReplayKey (key : bytes) (now : Time) (a : Agent) : Agent :=
  let key := TrimSpace key in
  if bool_decide (key = []) then a else with_replay (fun m => evictReplay (<[key := now]> (pruneReplay now m))) a.

(** A fast mitigation is noted as soon as it is checked. *)
Definition checkFastReplay (f : FastMitigationEnvelope) (now : Time) (a : Agent) : option (string * bytes) * Agent :=
  match check_times "fast mitigation" (f_Timestamp f) now with
  | Some e => (Some e, a)
  | None =>
      let key := fastReplayKey f in
      let a := with_replay (pruneReplay now) a in
      if seen_within key now (replaySeen a) then
        (Some ("replay_duplicate"%string, str "duplicate fast mitigation replay key within window"), a)
      else (None, with_replay (fun m => evictReplay (<[key := now]> m)) a)
  end.

(** *** Guardrails *)

Inductive limit_answer := LimitOK (reserved : list bytes) | LimitViolated (text : bytes).

Definition reserve (scope : bytes) (window max : Z) (now : Time) (s : Store) : reserve_answer :=
  match rate c with
  | RedisRate => redis_Reserve w scope
  | _ =>
      let current := if bool_decide (scope = []) then RecentCount window now s else RecentCountFor scope window now s in
      if max <=? current then LimitExceeded else Reserved
  end.
(** A limit over a scope; without a coordinator the history of [local] is counted. *)
Definition limit (scope local : bytes) (window max : Z) (now : Time) (exceeded : bytes) (exceeded_local : Z -> bytes) (s : Store) : limit_answer :=
  match rate c with
  | NoRate => let count := RecentCountFor local window now s in if max <=? count then LimitViolated (exceeded_local count) else LimitOK []
  | _ => match reserve scope window max now s with
         | Reserved => LimitOK [scope]
         | LimitExceeded => LimitViolated exceeded
         | ReserveError text => LimitViolated text
         end
  end.

Fixpoint run_limits (l : list (Store -> limit_answer)) (reserved : list bytes) (a : Agent) : result bytes (list bytes) * Agent :=
  match l with
  | [] => (Ok reserved, a)
  | f :: l' =>
      match f (store a) with
      | LimitOK r => run_limits l' (reserved ++ r) (did (EReserve <$> r) a)
      | LimitViolated text => (Err text, did (ERelease <$> reserved) a)
      end
  end.

Definition when_limited {A} (o : option A) (f : A -> Store -> limit_answer) : list (Store -> limit_answer) :=
  match o with Some x => [f x] | None => [] end.
(** The limit on a tenant or a region, whose name has to be known. *)
Definition named_limit (kind : string) (name : bytes) (max : Z) (now : Time) (s : Store) : limit_answer :=
  if bool_decide (name = []) then LimitViolated (str "rate_limit_per_" ++ str kind ++ str " configured but " ++ str kind ++ str " metadata missing")
  else
    let scope := str kind ++ str ":" ++ name in
    let text := str kind ++ str " " ++ name ++ str " exceeded rate limit" in
    limit scope scope Minute max now text (fun _ => text) s.

Definition too_many_active (spec : PolicySpec) (s : Store) : option bytes :=
  max ← MaxActivePolicies (sp_Guardrails spec);
  if max <=? ActiveCount s then
    Some (str "active policies " ++ Itoa (ActiveCount s) ++ str " exceeds guardrails.max_active_policies " ++ Itoa max)
  else None.

Definition checkGuardrails (spec : PolicySpec) (a : Agent) : result bytes (list bytes) * Agent :=
  let g := sp_Guardrails spec in
  match checkAllowlist spec with
  | Some text => (Err text, a)
  | None =>
      if match EscalationCooldown g with
         | Some n => (0 <? seconds n) && LastAppliedWithin (sp_ID spec) (seconds n) (clock w 10) (store a)
         | None => false
         end
      then (Err (str "policy " ++ sp_ID spec ++ str " within escalation cooldown"), a)
      else
        match too_many_active spec (store a) with
        | Some text => (Err text, a)
        | None =>
            run_limits
              (when_limited (MaxPoliciesPerMinute g) (fun max =>
                 limit (RateScope spec) (RateScope spec) Minute max (clock w 11) (str "rate limit exceeded for scope " ++ RateScope spec)
                   (fun n => str "policies applied in last minute " ++ Itoa n ++ str " exceeds guardrails.max_policies_per_minute " ++ Itoa max)) ++
               when_limited (gr_RateLimit g) (fun rl =>
                 let window := unless_positive (seconds (rl_WindowSeconds rl)) Minute in
                 limit (WindowScope spec) globalScope window (rl_MaxActions rl) (clock w 12) (str "rate limit exceeded for scope " ++ WindowScope spec)
                   (fun n => str "policies applied in last " ++ Duration_String window ++ str " " ++ Itoa n ++
                             str " exceeds guardrails.rate_limit.max_actions " ++ Itoa (rl_MaxActions rl))) ++
               when_limited (RateLimitPerTenant g) (fun max => named_limit "tenant" (effectiveTenant spec) max (clock w 13)) ++
               when_limited (RateLimitPerRegion g) (fun max => named_limit "region" (effectiveRegion spec) max (clock w 14)))
              [] a
        end
  end.

Definition EvaluateGuardrails (spec : PolicySpec) (a : Agent) : result bytes (list bytes) * Agent :=
  match checkGuardrails spec a with
  | (Ok reserved, a) => (Ok reserved, did (ERelease <$> reserved) a)
  | r => r
  end.

(** *** Applying *)

Definition call_Apply (spec : PolicySpec) (ok : bool) (a : Agent) : Agent :=
  did [EApply spec ok] (if ok then with_plane <[sp_ID spec := spec]> a else a).
Definition call_Remove (policyID : bytes) (ok : bool) (a : Agent) : Agent :=
  did [ERemove policyID ok] (if ok then with_plane (delete policyID) a else a).

Definition jitteredBackoff (u : float64) (base : Z) : Z :=
  if base <=? 0 then 0
  else
    let wait :=
      if f_ltb (f_of_Z 0) (applyRetryJitter c) then
        let span := f_mul (f_of_Z base) (applyRetryJitter c) in
        let j := f_mul (f_sub (f_mul u (f_of_Z 2)) (f_of_Z 1)) span in
        Z.max 0 (f_to_int64 (f_add (f_of_Z base) j))
      else base in
    if (0 <? applyRetryMaxCap c) && (applyRetryMaxCap c <? wait) then applyRetryMaxCap c else wait.

(** The attempts from the n-th on, [fuel] of them being left: the error, the attempts made,
    and whether they are used up. *)
Fixpoint apply_loop (fuel n : nat) (backoff : Z) (spec : PolicySpec) (a : Agent) : option apply_error * nat * bool * Agent :=
  match fuel with
  | O => (None, n, true, a)
  | S fuel' =>
      let x := backend_Apply w n in
      if at_canceled x then (Some canceled_error, n, false, a)
      else match at_result x with
      | None => (None, S n, false, call_Apply spec true a)
      | Some e =>
          let a := call_Apply spec false a in
          if negb (retryable e) then (Some e, S n, false, a)
          else match fuel' with
          | O => (Some e, S n, true, a)
          | S _ =>
              let d := jitteredBackoff (at_jitter x) backoff in
              let a := did [EWait d] a in
              match (if d <=? 0 then Waited else at_wait x) with
              | ParentCanceled => (Some canceled_error, S n, false, a)
              | BudgetEnded e => (Some e, S n, false, a)
              | Waited =>
                  apply_loop fuel' (S n) (if backoff <? applyRetryMaxCap c then Z.min (backoff * 2) (applyRetryMaxCap c) else backoff) spec a
              end
          end
      end
  end.
Definition applyWithRetries (spec : PolicySpec) : Agent -> option apply_error * nat * bool * Agent :=
  apply_loop (Z.to_nat (Z.max 1 (applyRetryMax c + 1))) 0 (applyRetryBase c) spec.

Definition isApplyTimeoutBreakerOpen (now : Time) (a : Agent) : bool :=
  if (breakerCooldown c <=? 0) || (breakerThreshold c <=? 0) || (applyTimeoutBreakerUntilNs a <=? 0) then false
  else UnixNano now <? applyTimeoutBreakerUntilNs a.
Definition recordApplyTimeoutOutcome (timeout : bool) (now : Time) (a : Agent) : Agent :=
  if negb timeout then with_breaker 0 (applyTimeoutBreakerUntilNs a) a
  else if (breakerCooldown c <=? 0) || (breakerThreshold c <=? 0) then a
  else
    let streak := applyTimeoutStreak a + 1 in
    if streak <? breakerThreshold c then with_breaker streak (applyTimeoutBreakerUntilNs a) a
    else with_breaker 0 (UnixNano (Add now (breakerCooldown c))) a.

Definition applyWithTerminalHandling (has_message : bool) (spec : PolicySpec) (requiresAck : bool) (evt : Event) (a : Agent)
  : option handler_error * Agent :=
  if isApplyTimeoutBreakerOpen (clock w 20) a then
    (Some BreakerOpen,
     emitAck evt requiresAck ResultTimeout (str "apply_timeout_breaker_open")
       (str "apply timeout breaker open; skipping apply attempt during cooldown") (clock w 21) a)
  else
    let '(err, attempts, exhausted, a) := applyWithRetries spec a in
    match err with
    | None => (None, recordApplyTimeoutOutcome false (clock w 22) a)
    | Some e =>
        let class := applyErrorClass e in
        let a := recordApplyTimeoutOutcome (bool_decide (class = ErrorClassTimeout)) (clock w 22) a in
        let '(rejected, a) := if terminalRejectPolicy class exhausted then publishCommandReject has_message a else (None, a) in
        match rejected with
        | Some err => (Some err, a)
        | None =>
            let '(result, code, reason) :=
              if exhausted then (ResultRetryExhausted, str "apply_retry_exhausted",
                str "apply retries exhausted after " ++ Itoa (Z.of_nat attempts) ++ str " attempts: " ++ ae_text e)
              else (ResultFailed, applyErrorCode e, ae_text e) in
            (Some (ApplyFailed e), emitAck evt requiresAck result code reason (clock w 23) a)
        end
    end.

(** *** Lanes and compaction *)

Definition lane_enforced (l : lane) : bool := match l with LaneCritical => criticalEnforced c | LaneMaintenance => maintenanceEnforced c end.
(** Before the promotion window has passed nothing is enforced. *)
Definition dry_run (l : lane) (now : Time) : bool :=
  negb (lane_enforced l) ||
  (promotionGateEnabled c && (0 <? promotionMinWindow c) && (Sub now (startedAt c) <? promotionMinWindow c)).
Definition lane_name (l : lane) : bytes := match l with LaneCritical => str "critical" | LaneMaintenance => str "maintenance" end.
Definition enterLane (l : lane) : option bytes :=
  (fun text => str "lane " ++ lane_name l ++ str " wait canceled: " ++ text) <$> lane_wait w l.

Definition shouldCompactEvent (evt : Event) (eventTS : option Time) (a : Agent) : bool * Agent :=
  match compactionWindow c with
  | None => (false, a)
  | Some window =>
      let '(superseded, m) := Observe window evt (default (clock w 30) eventTS) (clock w 31) (compactor a) in
      (superseded, with_compactor (fun _ => m) a)
  end.

(** *** Approvals *)

Definition stored (r : option bytes * Store) (a : Agent) : option bytes * Agent := (r.1, with_store (fun _ => r.2) a).
Definition savePendingApproval (key : bytes) (evt : Event) (a : Agent) : Agent :=
  let a := match (p ← Proto evt; proto_Marshal p) with
           | Some payload => (stored (SavePendingApproval (file w 0) key payload (store a)) a).2
           | None => a
           end in
  with_approvals <[key := evt]> a.
Definition clearPendingApproval (key : bytes) (a : Agent) : Agent :=
  (stored (RemovePendingApproval (file w 1) key (store a)) (with_approvals (delete key) a)).2.

(** *** [HandleMessage] *)

(** What the handling of one event carries along. *)
Record handling := MkHandling {
  h_evt : Event; h_requiresAck : bool; h_replayKey : bytes; h_ts : option Time; h_scopeKey : bytes; h_pendingKey : bytes; h_approved : bool }.

Definition ack (h : handling) (result : ack_result) (code reason : string) (at_ : Time) : Agent -> Agent :=
  emitAck (h_evt h) (h_requiresAck h) result (str code) (str reason) at_.
(** The event counts as done: its time, its fingerprint and its replay key are noted. *)
Definition settle (h : handling) (a : Agent) : Agent :=
  let a := match h_ts h with Some ts => with_store (AdvanceScopeWatermark (h_scopeKey h) ts) a | None => a end in
  commitReplayKey (h_replayKey h) (clock w 40) (commitDuplicateFingerprint (h_evt h) a).
Definition clear_if_approved (h : handling) (a : Agent) : Agent := if h_approved h then clearPendingApproval (h_pendingKey h) a else a.

Definition compacted (h : handling) (a : Agent) : Agent :=
  clear_if_approved h (ack h ResultNoop "lifecycle_compacted_superseded" "superseded lifecycle intent compacted" (clock w 41) (settle h a)).

(** The reservations of a message are committed once, or released when it ends. *)
Definition finalize (reserved : list bytes) (commit : bool) : Agent -> Agent := did ((if commit then ECommit else ERelease) <$> reserved).

(** The gates before a lane is entered: compaction, the dry run and the wait for a slot;
    [early]: the reservations are released before a failed wait is acknowledged. [None] is
    an event that goes on. *)
Definition lane_gates (h : handling) (l : lane) (reserved : list bytes) (early : bool) (a : Agent) : option (option handler_error) * Agent :=
  let '(superseded, a) := shouldCompactEvent (h_evt h) (h_ts h) a in
  let name := lane_name l in
  if superseded then (Some None, finalize reserved false (compacted h a))
  else if dry_run l (clock w 42) then
    (Some None, finalize reserved false
       (emitAck (h_evt h) (h_requiresAck h) ResultNoop (str "lifecycle_class_" ++ name ++ str "_dry_run")
          (name ++ str " lifecycle class in dry_run mode") (clock w 43) a))
  else match enterLane l with
  | Some text =>
      let acked := emitAck (h_evt h) (h_requiresAck h) ResultFailed (name ++ str "_lane_wait_failed") text (clock w 44) in
      let release := finalize reserved false in
      (Some (Some (LaneError text)), if early then acked (release a) else release (acked a))
  | None => (None, a)
  end.

Definition handle_remove (h : handling) (a : Agent) : option handler_error * Agent :=
  let evt := h_evt h in
  let id := sp_ID (Spec evt) in
  match lane_gates h LaneCritical [] false a with
  | (Some r, a) => (r, a)
  | (None, a) =>
      let reason := match Get id (store a) with Some r => if PendingConsensus r then "provisional_revoked"%string else ""%string | None => ""%string end in
      match backend_Remove w with
      | Some text =>
          (Some (RemoveError text), emitAck evt (h_requiresAck h) ResultFailed (str "remove_error") text (clock w 45) (call_Remove id false a))
      | None =>
          let a := ack h ResultApplied "" reason (clock w 46) (call_Remove id true a) in
          let a := (stored (Remove (file w 2) id (store a)) a).2 in
          (None, clear_if_approved h (settle h a))
      end
  end.

(** After the record is written: promoted, or no longer pending. *)
Definition mark_committed (promoted : bool) (id : bytes) (appliedAt : Time) (a : Agent) : Agent :=
  (stored (if promoted then MarkPromoted (file w 4) id appliedAt (store a) else ClearPendingConsensus (file w 4) id (store a)) a).2.

Definition handle_refresh (h : handling) (reserved : list bytes) (promoted : bool) (a : Agent) : option handler_error * Agent :=
  let spec := Spec (h_evt h) in
  match lane_gates h LaneMaintenance reserved false a with
  | (Some r, a) => (r, a)
  | (None, a) =>
      let appliedAt := clock w 50 in
      let '(err, a) := stored (Upsert (file w 3) spec appliedAt (store a)) a in
      match err with
      | Some text =>
          (Some (PersistError text),
           finalize reserved false (emitAck (h_evt h) (h_requiresAck h) ResultFailed (str "refresh_persist_error") text appliedAt a))
      | None =>
          let a := finalize reserved true a in
          let a := settle h (mark_committed promoted (sp_ID spec) appliedAt a) in
          (None, clear_if_approved h (ack h ResultApplied "" (if promoted then "applied_promoted" else "applied_refresh") appliedAt a))
      end
  end.

Definition handle_apply (h : handling) (reserved : list bytes) (reason : string) (promoted : bool) (a : Agent) : option handler_error * Agent :=
  let spec := Spec (h_evt h) in
  match lane_gates h LaneCritical reserved true a with
  | (Some r, a) => (r, a)
  | (None, a) =>
      match applyWithTerminalHandling true spec (h_requiresAck h) (h_evt h) a with
      | (Some err, a) => (Some err, finalize reserved false a)
      | (None, a) =>
          let appliedAt := clock w 51 in
          let a := finalize reserved true (ack h ResultApplied "" reason appliedAt a) in
          let a := (stored (Upsert (file w 3) spec (clock w 52) (store a)) a).2 in
          (None, clear_if_approved h (settle h (mark_committed promoted (sp_ID spec) appliedAt a)))
      end
  end.

(** What an event that is to be applied finds in the store: the reason it is acknowledged
    with, whether only its record has to be renewed, and whether it promotes a fast one. *)
Definition refresh_plan (spec : PolicySpec) (s : Store) : string * bool * bool :=
  match Get (sp_ID spec) s with
  | None => ("applied_new"%string, false, false)
  | Some existing =>
      let promoted := PendingConsensus existing && Provisional existing in
      if sameEffectiveRule (r_Spec existing) spec then ((if promoted then "applied_promoted" else "applied_refresh")%string, true, promoted)
      else ((if promoted then "applied_promoted_reapply" else "applied_refresh_reapply")%string, false, promoted)
  end.

Definition handle_guarded (h : handling) (a : Agent) : option handler_error * Agent :=
  let spec := Spec (h_evt h) in
  match checkGuardrails spec a with
  | (Err text, a) => (None, emitAck (h_evt h) (h_requiresAck h) ResultFailed (str "guardrail_violation") text zero_time a)
  | (Ok reserved, a) =>
      let a := if emitAcceptedAck c
               then ack h ResultAccepted "accepted_pre_apply" "policy accepted after verification and guardrails" (clock w 53) a else a in
      let '(reason, refreshOnly, promoted) := refresh_plan spec (store a) in
      if refreshOnly then handle_refresh h reserved promoted a else handle_apply h reserved reason promoted a
  end.

(** The decisions on approvals and what follows them. *)
Definition handle_decided (h : handling) (requiresApproval rejected : bool) (a : Agent) : option handler_error * Agent :=
  let evt := h_evt h in
  if requiresApproval then (None, commitReplayKey (h_replayKey h) (clock w 54) (savePendingApproval (h_pendingKey h) evt a))
  else if rejected then
    (None, emitAck evt (h_requiresAck h) ResultFailed (str "manual_reject") (rejectDecisionReason (Spec evt)) (clock w 55)
             (settle h (clearPendingApproval (h_pendingKey h) a)))
  else if isDuplicate evt a then
    (None, ack h ResultApplied "duplicate_noop" "policy duplicate detected" (clock w 56) (settle h a))
  else if isRemoveAction evt then handle_remove h a
  else handle_guarded h a.

(** The pending event a decision is about, changed in place by the merge. *)
Definition merge_pending (h : handling) (pending_ : Event) (a : Agent) : handling * Agent :=
  let merged := mergePendingDecisionContext pending_ (h_evt h) in
  let pending_ := MkEvent (Proto pending_) (Fast pending_) (with_raw (sp_Raw (Spec merged)) (Spec pending_)) in
  (MkHandling merged (h_requiresAck h) (h_replayKey h) (h_ts h) (h_scopeKey h) (h_pendingKey h) (isApprovalAction (proto_action (h_evt h))),
   with_approvals <[h_pendingKey h := pending_]> a).

Definition handle_approval (h : handling) (a : Agent) : option handler_error * Agent :=
  let action := proto_action (h_evt h) in
  if isApprovalAction action then
    match approvals a !! h_pendingKey h with
    | Some p => let '(h, a) := merge_pending h p a in handle_decided h false false a
    | None => (None, ack h ResultFailed "approval_not_pending" "approval received without pending policy" (clock w 57) a)
    end
  else if isRejectAction action then
    match approvals a !! h_pendingKey h with
    | Some p => let '(h, a) := merge_pending h p a in handle_decided h false true a
    | None => (None, ack h ResultFailed "reject_not_pending" "rejection received without pending policy" (clock w 57) a)
    end
  else handle_decided h (ApprovalRequired (sp_Guardrails (Spec (h_evt h)))) false a.

Definition handle_ordered (h : handling) (a : Agent) : option handler_error * Agent :=
  if match h_ts h with Some ts => IsScopeEventStale (h_scopeKey h) ts (store a) | None => false end then
    (None, ack h ResultFailed "stale_out_of_order" "policy event timestamp older than accepted scope watermark" zero_time a)
  else handle_approval h a.

(** The events that are shed because their time is over. *)
Definition shed (evt : Event) : option bytes :=
  if enableExpiredShed c then
    match policyExpiryDeadline evt with
    | Some expiry =>
        if After (clock w 1) expiry then
          Some (str "policy expired before enforcement apply (expiry=" ++ RFC3339Nano expiry ++ str " now=" ++ RFC3339Nano (clock w 1) ++ str ")")
        else None
    | None => None
    end
  else None.

Definition handle_verified (evt : Event) (a : Agent) : option handler_error * Agent :=
  let requiresAck := match Proto evt with Some p => ev_RequiresAck p | None => false end in
  let h key := MkHandling evt requiresAck key (policyEventTimestamp evt) (orderingKey evt) (approvalKey (Spec evt)) false in
  match checkReplay evt (clock w 0) a with
  | (ReplayDuplicate, a) => (None, ack (h []) ResultApplied "duplicate_noop" "policy replay duplicate detected" (clock w 2) a)
  | (ReplayRejected reason text, a) =>
      let publishes := bool_decide (reason ∈ ["replay_invalid_timestamp"%string; "replay_future_timestamp"%string]) in
      let '(err, a) := if publishes then publishCommandReject true a else (None, a) in
      match err with
      | Some e => (Some e, a)
      | None => (None, emitAck evt requiresAck ResultFailed (str reason) text zero_time a)
      end
  | (ReplayOK key, a) =>
      match shed evt with
      | Some reason =>
          match publishCommandReject true a with
          | (Some e, a) => (Some e, a)
          | (None, a) => (None, emitAck evt requiresAck ResultFailed (str "shed_expired_policy") reason (clock w 1) a)
          end
      | None =>
          if kill w then (None, ack (h key) ResultFailed "kill_switch" "enforcement disabled via kill switch" zero_time a)
          else handle_ordered (h key) a
      end
  end.

Definition HandleMessage (topic value : bytes) (a : Agent) : option handler_error * Agent :=
  match proto_Unmarshal value with
  | None => publishCommandReject true a
  | Some event =>
      match VerifyAndParseWithDomain t event (policyDomainForTopic c topic) with
      | Err _ => publishCommandReject true a
      | Ok evt => handle_verified evt a
      end
  end.

(** ** Fast mitigations *)

Definition maxFastMitigationRenewals : Z := 1.
Definition fastDeadline (spec : PolicySpec) (appliedAt : Time) : Time :=
  let g := sp_Guardrails spec in
  match FastPathTTLSeconds g with
  | Some n => if 0 <? n then Add appliedAt (seconds n)
              else if 0 <? TTLSeconds g then Add appliedAt (seconds (TTLSeconds g)) else zero_time
  | None => if 0 <? TTLSeconds g then Add appliedAt (seconds (TTLSeconds g)) else zero_time
  end.

(** The record and its mark, whose error is only logged. *)
Definition write_provisional (f : FastMitigationEnvelope) (spec : PolicySpec) (appliedAt : Time) (a : Agent) : option bytes * Agent :=
  let '(err, a) := stored (Upsert (file w 3) spec appliedAt (store a)) a in
  match err with
  | Some text => (Some text, a)
  | None => (None, (stored (MarkProvisional (file w 4) (sp_ID spec) (f_MitigationID f) (fastDeadline spec appliedAt) appliedAt (store a)) a).2)
  end.

Inductive fast_plan := RenewalExceeded | RefreshProvisional | ApplyProvisional (reason : string).
Definition plan_fast (spec : PolicySpec) (s : Store) : fast_plan :=
  match Get (sp_ID spec) s with
  | None => ApplyProvisional "applied_provisional"
  | Some r =>
      if PendingConsensus r && Provisional r && (maxFastMitigationRenewals <=? RenewalCount r) then RenewalExceeded
      else if sameEffectiveRule (r_Spec r) spec then RefreshProvisional
      else ApplyProvisional "applied_provisional_reapply"
  end.

Definition HandleFastEvent (evt : Event) (a : Agent) : option handler_error * Agent :=
  match Fast evt with
  | None => (Some FastEnvelopeMissing, a)
  | Some f =>
      let ack result code reason at_ := emitAck evt true result (str code) reason at_ in
      match checkFastReplay f (clock w 0) a with
      | (Some (reason, text), a) => (None, ack ResultFailed reason text zero_time a)
      | (None, a) =>
          if kill w then (None, ack ResultFailed "kill_switch"%string (str "enforcement disabled via kill switch") zero_time a)
          else if isDuplicate evt a then
            (None, ack ResultApplied "duplicate_noop"%string (str "fast mitigation duplicate detected") (clock w 2) a)
          else match plan_fast (Spec evt) (store a) with
          | RenewalExceeded =>
              (None, ack ResultFailed "fast_renewal_exceeded"%string (str "fast mitigation renewal limit exceeded") zero_time a)
          | RefreshProvisional =>
              let appliedAt := clock w 50 in
              match write_provisional f (Spec evt) appliedAt a with
              | (Some text, a) => (Some (PersistError text), ack ResultFailed "refresh_persist_error"%string text appliedAt a)
              | (None, a) => (None, ack ResultApplied ""%string (str "applied_provisional_refresh") appliedAt a)
              end
          | ApplyProvisional reason =>
              match applyWithTerminalHandling false (Spec evt) true evt a with
              | (Some err, a) => (Some err, a)
              | (None, a) =>
                  let appliedAt := clock w 51 in
                  match write_provisional f (Spec evt) appliedAt (ack ResultApplied ""%string (str reason) appliedAt a) with
                  | (Some text, a) => (Some (PersistError text), a)
                  | (None, a) => (None, a)
                  end
              end
          end
      end
  end.

(** The handler of the fast topic; the artifact of a rejected message is the sink's. *)
Definition FastHandler_HandleMessage (value : bytes) (a : Agent) : option handler_error * Agent :=
  match VerifyAndParseFast t value with
  | Err _ => (None, a)
  | Ok evt => HandleFastEvent evt a
  end.

(** ** Start and questions *)

(** The approvals a store still waits for, as far as they verify. *)
Definition loadPendingApprovals (s : Store) : gmap bytes Event :=
  omap (fun payload =>
    evt ← proto_Unmarshal payload;
    match VerifyAndParse t evt with Ok e => Some e | Err _ => None end) (AgentStore.pending s).
(** [enforced] is what the backend still enforces from before. *)
Definition start (s : Store) (enforced : gmap bytes PolicySpec) : Agent := MkAgent s enforced ∅ (loadPendingApprovals s) ∅ ∅ 0 0 [] [].

(** The latest decisions that match. *)
Definition result_text (r : ack_result) : string :=
  match r with
  | ResultAccepted => "accepted" | ResultApplied => "applied" | ResultNoop => "noop" | ResultRejected => "rejected"
  | ResultTimeout => "timeout" | ResultRetryExhausted => "retry_exhausted" | ResultFailed => "failed"
  end.
Definition ListDecisions (limit : Z) (policyID result : bytes) (a : Agent) : list DecisionRecord :=
  let limit := if limit <=? 0 then 50 else Z.min limit 200 in
  let policyID := TrimSpace policyID in
  let result := lower_trim result in
  take (Z.to_nat limit)
    (filter (fun d => (policyID = [] \/ d_PolicyID d = policyID) /\ (result = [] \/ str (result_text (d_Result d)) = result))
       (reverse (decisions a))).
End handler.
