(* ===== verification/AgentLoops.v ===== *)
(** The background loops of the enforcement agent: scheduler/scheduler.go, which takes
    expired policies out, and reconciler/reconciler.go, which follows the ledger and applies
    every stored policy again; and the file of the store (internal/state/store.go,
    persistence), whose writes leave the lock of the store half-way. *)
From S2P Require Import Prelude Bytes GoTime GoStrings GoJson GoText AgentPolicy AgentStore AgentController.
Local Open Scope Z_scope.

(** The answers of the backend and of the file to one turn of a loop. *)
Record turn := MkTurn {
  now : Time; apply_ok : bytes -> bool; remove_ok : bytes -> bool; write : bytes -> option bytes; recs : visit_order bytes Record_;
  specs : visit_order bytes PolicySpec; snapshot_of_ledger : result bytes (option (gmap bytes PolicySpec)); ledger_write : option bytes }.

Section loops.
Context (w : turn).

(** One policy taken out of the backend and then of the store; true is an error. *)
Definition expire (id : bytes) (a : Agent) : bool * Agent :=
  let a := call_Remove id (remove_ok w id) a in
  if remove_ok w id then
    let '(err, a) := stored (Remove (write w id) id (store a)) a in (bool_decide (err <> None), a)
  else (true, a).

Definition run_all {A} (f : A -> Agent -> bool * Agent) (l : list A) (a : Agent) : bool * Agent :=
  foldl (fun acc x => let '(err, a) := acc in let '(e, a) := f x a in (err || e, a)) (false, a) l.

(** *** scheduler.go *)

Definition Scheduler_reconcile (a : Agent) : bool * Agent :=
  run_all (fun r => expire (sp_ID (r_Spec r))) (Expired (recs w) (now w) (store a)) a.

(** *** reconciler.go *)

(** The policies a ledger no longer has leave the backend; those it has anew are applied, or
    leave the store again. *)
Definition ledger_remove (r : Record_) (a : Agent) : bool * Agent :=
  let id := sp_ID (r_Spec r) in (negb (remove_ok w id), call_Remove id (remove_ok w id) a).
Definition ledger_apply (spec : PolicySpec) (a : Agent) : bool * Agent :=
  let id := sp_ID spec in
  let a := call_Apply spec (apply_ok w id) a in
  if apply_ok w id then (false, a) else (true, (stored (Remove (write w id) id (store a)) a).2).

Definition follow_ledger (a : Agent) : bool * Agent :=
  match snapshot_of_ledger w with
  | Err _ => (true, a)
  | Ok ledger =>
      let '(r, s) := ReconcileLedger (ledger_write w) (recs w) (specs w) ledger (now w) (store a) in
      let a := with_store (fun _ => s) a in
      match r with
      | Err _ => (true, a)
      | Ok (removed, added) =>
          let '(e1, a) := run_all ledger_remove removed a in
          let '(e2, a) := run_all ledger_apply added a in
          (e1 || e2, a)
      end
  end.
(** Whether the ledger is due. *)
Definition ledger_due (has_ledger : bool) (driftGrace : Z) (lastLedgerSync : Time) : bool :=
  has_ledger && ((driftGrace <=? 0) || (driftGrace <=? Sub (now w) lastLedgerSync)).
(** The snapshot failed, or the ledger was followed and its time is noted. *)
Definition synced (lastLedgerSync : Time) : Time := match snapshot_of_ledger w with Ok _ => now w | Err _ => lastLedgerSync end.

(** One stored policy: taken out when its time is over, else applied again. *)
Definition reapply (r : Record_) (a : Agent) : bool * Agent :=
  let id := sp_ID (r_Spec r) in
  if passed (now w) (ExpiresAt r) then expire id a
  else (negb (apply_ok w id), call_Apply (r_Spec r) (apply_ok w id) a).
Definition awaits_consensus (r : Record_) : bool := negb (IsZero (PreConsensus r)) && Before (now w) (PreConsensus r).
(** The policies that wait for consensus go first. *)
Definition reconcile_order (l : list Record_) : list Record_ :=
  filter (fun r => awaits_consensus r = true) l ++ filter (fun r => awaits_consensus r = false) l.

Definition Reconciler_reconcile (killed has_ledger : bool) (driftGrace : Z) (lastLedgerSync : Time) (a : Agent) : bool * Agent * Time :=
  if killed then (false, a, lastLedgerSync)
  else
    let due := ledger_due has_ledger driftGrace lastLedgerSync in
    let '(e1, a) := if due then follow_ledger a else (false, a) in
    let '(e2, a) := run_all reapply (reconcile_order (List (recs w) (store a))) a in
    (e1 || e2, a, if due then synced lastLedgerSync else lastLedgerSync).
End loops.

(** *** The pace of the loops *)

(** The time to the next turn; [interval] is the default when none is set. [now'] is read
    again for the remaining time. *)
Definition nextInterval (interval default_interval : Z) (killed : bool) (recs : visit_order bytes Record_) (now now' : Time) (s : Store) : Z :=
  let interval := if interval <=? 0 then default_interval else interval in
  if killed then interval
  else match NextPreConsensusDeadline recs now s with
  | Some d =>
      let remaining := Sub d now' in
      if remaining <=? 0 then Second else if remaining <? interval then Z.max remaining Second else interval
  | None => interval
  end.
Definition bumpBackoff (interval default_interval maxBackoff current : Z) : Z :=
  let base := if interval <=? 0 then default_interval else interval in
  if current =? 0 then if (0 <? maxBackoff) && (maxBackoff <? base) then maxBackoff else base
  else let next := i64 (current * 2) in if (0 <? maxBackoff) && (maxBackoff <? next) then maxBackoff else next.

(** ** The file of the store *)

(** What is written: the JSON form and its checksum are left out. *)
Record snapshot := MkSnapshot {
  sn_Records : list Record_; sn_RateHistory : gmap bytes (list Time); sn_PendingApprovals : gmap bytes bytes;
  sn_LastApplied : gmap bytes Time; sn_ScopeWatermarks : gmap bytes Time }.
Definition take_snapshot (range : visit_order bytes Record_) (s : Store) : snapshot :=
  MkSnapshot (range (records s)).*2 (history s) (pending s) (lastApplied s) (scopeWatermarks s).

(** The deadlines are computed anew from the guardrails. *)
Definition load_record (now : Time) (r : Record_) : Record_ :=
  let g := sp_Guardrails (r_Spec r) in
  let ttl := seconds (TTLSeconds g) in
  let applied := if (0 <? ttl) && IsZero (AppliedAt r) then now else AppliedAt r in
  MkRecord (r_Spec r) applied (if 0 <? ttl then Add applied ttl else zero_time) ttl
    (match PreConsensusTTLSeconds g with Some n => Add applied (seconds n) | None => PreConsensus r end)
    (match RollbackIfNoCommitAfter g with Some n => Add applied (seconds n) | None => Rollback r end)
    (FastPathDeadline r) (PendingConsensus r) (MitigationID r) (Provisional r) (PromotionState r) (RenewalCount r) (PromotedAt r) (RevokedAt r).
Definition Load (now : Time) (snap : snapshot) (s : Store) : Store :=
  let loaded := filter (fun r => sp_ID (r_Spec r) <> []) (load_record now <$> sn_Records snap) in
  let by_id {A} (f : Record_ -> A) : gmap bytes A := foldl (fun m r => <[sp_ID (r_Spec r) := f r]> m) ∅ loaded in
  let histories := (fun l => pruneHistory l now (historyRetention s)) <$> sn_RateHistory snap in
  let histories := match histories !! globalScope with Some _ => histories | None => <[globalScope := []]> histories end in
  MkStore (by_id id) histories (sn_PendingApprovals snap)
    (if bool_decide (sn_LastApplied snap = ∅) then by_id AppliedAt else sn_LastApplied snap) (sn_ScopeWatermarks snap) (historyRetention s).

(** One writer from the moment it took its snapshot. *)
Inductive phase := WaitsForLock | HoldsLock | Wrote | Compared (current : bool).
Record writer := MkWriter { wr_version : Z; wr_snap : snapshot; wr_phase : phase }.

Record disk_state := MkDisk {
  memory : Store; version : Z; dirty : bool; disk : option snapshot; writers : gmap nat writer; nextWriter : nat }.

Definition with_writers m (d : disk_state) : disk_state := MkDisk (memory d) (version d) (dirty d) (disk d) m (nextWriter d).
Definition set_phase (i : nat) (x : writer) (p : phase) (d : disk_state) : disk_state :=
  with_writers (<[i := MkWriter (wr_version x) (wr_snap x) p]> (writers d)) d.
(** A new writer leaves the lock of the store with a copy of it. *)
Definition begin_write (d : disk_state) : disk_state :=
  MkDisk (memory d) (version d) (dirty d) (disk d)
    (<[nextWriter d := MkWriter (version d) (take_snapshot key_order (memory d)) WaitsForLock]> (writers d)) (S (nextWriter d)).
Definition lock_free (d : disk_state) : Prop := map_Forall (fun _ x => wr_phase x = WaitsForLock) (writers d).
#[export] Instance lock_free_dec d : Decision (lock_free d).
Proof. apply map_Forall_dec. intros _ x. destruct (wr_phase x); [left|right..]; done. Defined.

(** [DMutate]: a change of the store, which writes at once when no gap is set. [DFlush]:
    the flush loop. The other actions are those of a writer, by its number; it compares
    versions and clears the mark without the lock of the store. *)
Inductive disk_action :=
| DMutate (f : Store -> Store) | DFlush | DLock (i : nat) | DWrite (i : nat) | DCompare (i : nat) | DUnlock (i : nat) | DFail (i : nat).
Definition disk_step (minGap : Z) (act : disk_action) (d : disk_state) : option disk_state :=
  let at_phase i (p : phase -> option disk_state) := match writers d !! i with Some x => p (wr_phase x) | None => None end in
  match act with
  | DMutate f =>
      let d := MkDisk (f (memory d)) (u64 (version d + 1)) true (disk d) (writers d) (nextWriter d) in
      Some (if 0 <? minGap then d else begin_write d)
  | DFlush => Some (if dirty d then begin_write d else d)
  | DLock i =>
      x ← writers d !! i;
      match wr_phase x with WaitsForLock => if decide (lock_free d) then Some (set_phase i x HoldsLock d) else None | _ => None end
  | DWrite i =>
      x ← writers d !! i;
      match wr_phase x with
      | HoldsLock => Some (set_phase i x Wrote (MkDisk (memory d) (version d) (dirty d) (Some (wr_snap x)) (writers d) (nextWriter d)))
      | _ => None
      end
  | DCompare i =>
      x ← writers d !! i;
      match wr_phase x with Wrote => Some (set_phase i x (Compared (version d =? wr_version x)) d) | _ => None end
  | DUnlock i =>
      x ← writers d !! i;
      match wr_phase x with
      | Compared current =>
          Some (MkDisk (memory d) (version d) (if current then false else dirty d) (disk d) (delete i (writers d)) (nextWriter d))
      | _ => None
      end
  | DFail i =>
      x ← writers d !! i;
      match wr_phase x with
      | WaitsForLock | HoldsLock => Some (with_writers (delete i (writers d)) d)
      | _ => None
      end
  end.
Definition disk_run (minGap : Z) (acts : list disk_action) (d : disk_state) : option disk_state :=
  foldl (fun d act => d ← d; disk_step minGap act d) (Some d) acts.
