(* ===== verification/AgentRuns.v ===== *)
(** Runs of the enforcement agent: what its messages, its fast channel and its loops keep
    true of the store and of what the backend enforces. *)
From S2P Require Import Prelude Bytes Sha256 GoTime GoStrings GoJson GoText GoNet AgentPolicy AgentStore AgentController AgentLoops.
Import Json.
Local Open Scope Z_scope.

(** ** Verification *)

Section verification.
Context `{Signing, RuleEncoding} (t : TrustedKeys).

Lemma VerifyAndParseWithDomain_Ok evt domain e : VerifyAndParseWithDomain t evt domain = Ok e ->
  exists spec, e = MkEvent (Some evt) None spec /\
    ParseSpec (ev_RuleType evt) (ev_RuleData evt) (ev_EffectiveHeight evt) (ev_ExpirationHeight evt) (ev_Timestamp evt) = Ok spec /\
    ev_Pubkey evt ∈ t /\ ev_RuleHash evt = sha256 (ev_RuleData evt) /\
    exists payload, proto_Marshal (signed_part evt) = Some payload /\
      (domain <> [] -> domain <> legacyPolicyDomain ->
       ed25519_Verify (ev_Pubkey evt) (domain ++ payload) (ev_Signature evt) = true \/
       ed25519_Verify (ev_Pubkey evt) (legacyPolicyDomain ++ payload) (ev_Signature evt) = true).
Proof.
  unfold VerifyAndParseWithDomain. destruct (negb (len (ev_Pubkey evt) =? 32)); [done|].
  destruct (bool_decide_reflect (ev_Pubkey evt ∈ t)) as [Hk|]; [|done]. cbn [negb].
  destruct (negb (len (ev_Signature evt) =? 64)); [done|].
  intros Hv. apply bind_Ok_inv in Hv as (payload & Hp & Hv).
  assert (Hp' : proto_Marshal (signed_part evt) = Some payload) by (destruct (proto_Marshal _); cbn in Hp; congruence).
  cbv zeta beta in Hv.
  match type of Hv with (if ?b then _ else _) = _ => destruct b eqn:Hsig; [done|] end.
  destruct (negb (len (ev_RuleHash evt) =? 32)); [done|].
  destruct (hashMatches (ev_RuleData evt) (ev_RuleHash evt)) eqn:Hh; [|done]. cbn [negb] in Hv.
  apply bind_Ok_inv in Hv as (spec & Hs & Hv). injection Hv as <-. exists spec. split_and!; [done..| |].
  - unfold hashMatches in Hh. go_bool. done.
  - exists payload. split; [done|]. intros Hd Hl. rewrite (bool_decide_eq_false_2 (domain = [])) in Hsig by done.
    rewrite (bool_decide_eq_true_2 (domain <> legacyPolicyDomain)) in Hsig by done.
    destruct (ed25519_Verify (ev_Pubkey evt) (domain ++ payload) (ev_Signature evt)); [by left|].
    destruct (ed25519_Verify (ev_Pubkey evt) (legacyPolicyDomain ++ payload) (ev_Signature evt)); [by right|done].
Qed.

End verification.

(** ** The records of the store *)

(** A record is filed under the identifier of its policy, and its deadlines are those of
    the guardrails from the time it was applied. *)
Definition record_ok (id : bytes) (r : Record_) : Prop :=
  sp_ID (r_Spec r) = id /\
  PreConsensus r = deadline (AppliedAt r) (PreConsensusTTLSeconds (sp_Guardrails (r_Spec r))) /\
  Rollback r = deadline (AppliedAt r) (RollbackIfNoCommitAfter (sp_Guardrails (r_Spec r))).
Definition records_ok (m : gmap bytes Record_) : Prop := map_Forall record_ok m.

(** The backend enforces what the store has records of, and the records are in order. *)
Definition tracked (a : Agent) : Prop := dom (plane a) = dom (records (store a)) /\ records_ok (records (store a)).

Lemma tracked_ext a a' : plane a' = plane a -> records (store a') = records (store a) -> tracked a -> tracked a'.
Proof. unfold tracked. by intros -> ->. Qed.

Lemma records_recordHistory scope ts s : records (recordHistory scope ts s) = records s.
Proof. done. Qed.

Lemma records_count_policy sp ts s : records (count_policy sp ts s) = records s.
Proof. unfold count_policy. generalize (counted_scopes sp). intros l. revert s. induction l as [|x l IH]; intros s; [done|]. cbn. by rewrite IH. Qed.

Lemma records_Upsert err sp ts s :
  records (Upsert err sp ts s).2 = <[sp_ID sp := upserted sp ts (records s !! sp_ID sp)]> (records s).
Proof. unfold Upsert, persisted. cbn [snd records with_lastApplied]. by rewrite records_count_policy. Qed.

Lemma upserted_ok sp ts e : record_ok (sp_ID sp) (upserted sp ts e) /\ AppliedAt (upserted sp ts e) = ts.
Proof. unfold upserted. destruct (FastPathTTLSeconds _), e; done. Qed.

Lemma upserted_spec sp ts e : r_Spec (upserted sp ts e) = sp.
Proof. unfold upserted. destruct (FastPathTTLSeconds _), e; done. Qed.

Lemma records_Remove err id s : records (Remove err id s).2 = delete id (records s).
Proof. done. Qed.

(** The marks of a committed policy. *)
Lemma records_marked (promoted : bool) err id ts s : exists f, (forall id r, record_ok id r -> record_ok id (f r)) /\
  records (if promoted then MarkPromoted err id ts s else ClearPendingConsensus err id s).2 = alter f id (records s).
Proof.
  exists (if promoted then promoted_record ts else cleared_record). split; [by destruct promoted|].
  destruct promoted; unfold MarkPromoted, ClearPendingConsensus; destruct (records s !! id) as [r|] eqn:Hr; cbn;
    apply map_eq; intros k; destruct (decide (k = id)) as [->|Hne]; rewrite ?lookup_alter_eq, ?lookup_alter_ne, ?lookup_insert_eq, ?lookup_insert_ne by done; by rewrite ?Hr.
Qed.

Lemma records_AdvanceScopeWatermark key ts s : records (AdvanceScopeWatermark key ts s) = records s.
Proof. unfold AdvanceScopeWatermark. by repeat case_match. Qed.

(** ** What leaves store and backend alone *)

(** The parts of the state that are about policies. *)
Definition core (a : Agent) : gmap bytes PolicySpec * gmap bytes Record_ := (plane a, records (store a)).

Lemma tracked_core a a' : core a' = core a -> tracked a -> tracked a'.
Proof. unfold core. intros [= H1 H2]. by apply tracked_ext. Qed.

Section handlers.
Context `{Signing, RuleEncoding} (t : TrustedKeys) (c : Config) (w : answers).

Lemma core_emitAck evt req res code reason at_ a : core (emitAck c w evt req res code reason at_ a) = core a.
Proof. done. Qed.

Lemma core_publishCommandReject b a : core (publishCommandReject c w b a).2 = core a.
Proof. unfold publishCommandReject. by repeat case_match. Qed.

Lemma core_checkReplay evt now a : core (checkReplay c evt now a).2 = core a.
Proof. unfold checkReplay. by repeat case_match. Qed.

Lemma core_checkFastReplay f now a : core (checkFastReplay c w f now a).2 = core a.
Proof. unfold checkFastReplay. by repeat case_match. Qed.

Lemma core_commitReplayKey key now a : core (commitReplayKey c w key now a) = core a.
Proof. unfold commitReplayKey. by repeat case_match. Qed.

Lemma core_settle h a : core (settle c w h a) = core a.
Proof.
  unfold settle. cbv zeta. rewrite core_commitReplayKey. destruct (h_ts h); [|done]. unfold core. cbn [plane store with_store with_seen commitDuplicateFingerprint].
  by rewrite records_AdvanceScopeWatermark.
Qed.

Lemma core_clear_if_approved h a : core (clear_if_approved w h a) = core a.
Proof. unfold clear_if_approved. by destruct (h_approved h). Qed.

Lemma core_compacted h a : core (compacted c w h a) = core a.
Proof. unfold compacted. by rewrite core_clear_if_approved; unfold ack; rewrite core_emitAck, core_settle. Qed.

Lemma core_shouldCompactEvent evt ts a : core (shouldCompactEvent c w evt ts a).2 = core a.
Proof. unfold shouldCompactEvent. destruct (compactionWindow c); [|done]. by destruct (Observe _ _ _ _ _). Qed.

Lemma core_run_limits l reserved a : core (run_limits l reserved a).2 = core a.
Proof. revert reserved a. induction l as [|f l IH]; intros reserved a; cbn; [done|]. destruct (f (store a)); [|done]. by rewrite IH. Qed.

Lemma core_checkGuardrails spec a : core (checkGuardrails c w spec a).2 = core a.
Proof.
  unfold checkGuardrails. destruct (checkAllowlist spec); [done|]. cbv zeta.
  match goal with |- context [if ?b then _ else _] => destruct b end; [done|].
  destruct (too_many_active spec (store a)); [done|]. apply core_run_limits.
Qed.

Lemma core_lane_gates h l reserved early a : core (lane_gates c w h l reserved early a).2 = core a.
Proof.
  unfold lane_gates. pose proof (core_shouldCompactEvent (h_evt h) (h_ts h) a) as Hc.
  destruct (shouldCompactEvent c w (h_evt h) (h_ts h) a) as [[] a1]; cbn in Hc.
  - cbn [snd]. unfold finalize. change (core (compacted c w h a1) = core a). by rewrite core_compacted.
  - destruct (dry_run _ _ _); [done|]. destruct (enterLane _ _); [|done]. by destruct early.
Qed.

Lemma core_savePendingApproval key evt a : core (savePendingApproval w key evt a) = core a.
Proof. unfold savePendingApproval. cbv zeta. match goal with |- context [match ?x with Some _ => _ | None => _ end] => by destruct x end. Qed.

(** ** What the backend is told *)

Lemma apply_loop_spec fuel n b spec a :
  let '(err, _, _, a') := apply_loop c w (S fuel) n b spec a in
  records (store a') = records (store a) /\
  plane a' = match err with None => <[sp_ID spec := spec]> (plane a) | Some _ => plane a end.
Proof.
  revert n b a. induction fuel as [|fuel IH]; intros n b a.
  { cbn [apply_loop]. cbv zeta. destruct (at_canceled _); [done|]. destruct (at_result _); [|done]. by destruct (negb (retryable _)). }
  remember (S fuel) as k eqn:Hk. cbn [apply_loop]. cbv zeta. destruct (at_canceled _); [done|]. destruct (at_result _); [|done].
  destruct (negb (retryable _)); [done|]. destruct k as [|k]; [done|].
  destruct (if _ <=? 0 then _ else _); [|done..].
  match goal with |- context [apply_loop c w (S k) ?m ?b' spec ?a'] => specialize (IH m b' a'); revert IH; by destruct (apply_loop c w (S k) m b' spec a') as [[[??]?]?] end.
Qed.

Lemma applyWithTerminalHandling_spec has_message spec req evt a :
  let r := applyWithTerminalHandling c w has_message spec req evt a in
  records (store r.2) = records (store a) /\
  plane r.2 = match r.1 with None => <[sp_ID spec := spec]> (plane a) | Some _ => plane a end.
Proof.
  unfold applyWithTerminalHandling. destruct (isApplyTimeoutBreakerOpen _ _ _); [done|]. unfold applyWithRetries.
  assert (exists fuel, Z.to_nat (Z.max 1 (applyRetryMax c + 1)) = S fuel) as [fuel ->].
  { exists (pred (Z.to_nat (Z.max 1 (applyRetryMax c + 1)))). lia. }
  pose proof (apply_loop_spec fuel 0 (applyRetryBase c) spec a) as Hl.
  destruct (apply_loop c w (S fuel) 0 (applyRetryBase c) spec a) as [[[err n] ex] a1]. destruct Hl as [Hr Hp].
  destruct err as [e|]; [|done].
  set (a2 := recordApplyTimeoutOutcome _ _ _ _).
  assert (H2 : core a2 = core a1) by (unfold a2, recordApplyTimeoutOutcome; by repeat case_match).
  destruct (if terminalRejectPolicy _ _ then _ else _) as [rej a3] eqn:Hrej.
  assert (H3 : core a3 = core a2).
  { destruct (terminalRejectPolicy _ _); [|by injection Hrej as _ <-]. by rewrite <- (core_publishCommandReject has_message a2), Hrej. }
  rewrite H2 in H3. injection H3 as H31 H32. destruct rej; cbn [fst snd]; [by rewrite H31, H32|].
  destruct ex; cbn; by rewrite H31, H32.
Qed.
End handlers.

(** ** Backend and store agree *)

Lemma records_ok_insert id r m : record_ok id r -> records_ok m -> records_ok (<[id := r]> m).
Proof. intros Hr Hm. by apply map_Forall_insert_2. Qed.

Lemma records_ok_delete id m : records_ok m -> records_ok (delete id m).
Proof. intros Hm k r Hk. apply lookup_delete_Some in Hk as [_ Hk]. by apply Hm. Qed.

Lemma records_ok_alter f id m : (forall id r, record_ok id r -> record_ok id (f r)) -> records_ok m -> records_ok (alter f id m).
Proof.
  intros Hf Hm k r Hk. apply lookup_alter_Some in Hk as [(-> & r' & Hr' & ->)|[_ Hk]]; [|by apply Hm]. by apply Hf, Hm.
Qed.

(** A policy that was applied gets its record, marked or not. *)
Lemma tracked_applied a a' sp ts f : (forall id r, record_ok id r -> record_ok id (f r)) ->
  plane a' = <[sp_ID sp := sp]> (plane a) ->
  records (store a') = alter f (sp_ID sp) (<[sp_ID sp := upserted sp ts (records (store a) !! sp_ID sp)]> (records (store a))) ->
  tracked a -> tracked a'.
Proof.
  intros Hf Hp Hr [Hd Ho]. split.
  - by rewrite Hp, Hr, dom_alter_L, !dom_insert_L, Hd.
  - rewrite Hr. apply records_ok_alter; [done|]. apply records_ok_insert; [|done]. apply upserted_ok.
Qed.

(** A policy that has a record may have it renewed. *)
Lemma tracked_renewed a a' sp ts f : (forall id r, record_ok id r -> record_ok id (f r)) ->
  is_Some (records (store a) !! sp_ID sp) -> plane a' = plane a ->
  records (store a') = alter f (sp_ID sp) (<[sp_ID sp := upserted sp ts (records (store a) !! sp_ID sp)]> (records (store a))) ->
  tracked a -> tracked a'.
Proof.
  intros Hf Hs Hp Hr [Hd Ho]. split.
  - rewrite Hp, Hr, dom_alter_L, dom_insert_L, Hd. apply elem_of_dom in Hs. set_solver.
  - rewrite Hr. apply records_ok_alter; [done|]. apply records_ok_insert; [|done]. apply upserted_ok.
Qed.

Lemma tracked_removed a a' id : plane a' = delete id (plane a) -> records (store a') = delete id (records (store a)) -> tracked a -> tracked a'.
Proof.
  intros Hp Hr [Hd Ho]. split; [by rewrite Hp, Hr, !dom_delete_L, Hd|]. rewrite Hr. by apply records_ok_delete.
Qed.

Section handlers.
Context `{Signing, RuleEncoding} (t : TrustedKeys) (c : Config) (w : answers).

Lemma tracked_handle_remove h a : tracked a -> tracked (handle_remove c w h a).2.
Proof.
  intros Ha. unfold handle_remove. pose proof (core_lane_gates c w h LaneCritical [] false a) as Hg. cbv zeta.
  destruct (lane_gates c w h LaneCritical [] false a) as [[r|] a1]; cbn [snd] in Hg; [by eapply tracked_core|].
  apply tracked_core in Hg; [|done]. destruct (backend_Remove w); [done|]. cbn [snd].
  eapply tracked_core; [by rewrite core_clear_if_approved, core_settle|]. by eapply (tracked_removed a1 _ (sp_ID (Spec (h_evt h)))).
Qed.

Lemma core_marked a (promoted : bool) id ts : exists f, (forall id r, record_ok id r -> record_ok id (f r)) /\
  plane (mark_committed w promoted id ts a) = plane a /\ records (store (mark_committed w promoted id ts a)) = alter f id (records (store a)).
Proof.
  destruct (records_marked promoted (file w 4) id ts (store a)) as (f & Hf & Hr). exists f. by split_and!.
Qed.

Lemma tracked_handle_refresh h reserved promoted a : is_Some (records (store a) !! sp_ID (Spec (h_evt h))) ->
  tracked a -> tracked (handle_refresh c w h reserved promoted a).2.
Proof.
  intros Hs Ha. unfold handle_refresh. pose proof (core_lane_gates c w h LaneMaintenance reserved false a) as Hg. cbv zeta.
  destruct (lane_gates c w h LaneMaintenance reserved false a) as [[r|] a1]; cbn [snd] in Hg; [by eapply tracked_core|].
  assert (Hs1 : is_Some (records (store a1) !! sp_ID (Spec (h_evt h)))) by (by injection Hg as _ ->).
  apply tracked_core in Hg; [|done]. unfold stored at 1. pose proof (records_Upsert (file w 3) (Spec (h_evt h)) (clock w 50) (store a1)) as Hu.
  destruct (Upsert _ _ _ _) as [err s1]. cbn [fst snd] in *. destruct err as [text|]; cbn [snd].
  - apply (tracked_renewed a1 _ (Spec (h_evt h)) (clock w 50) id); [done|done|done| |done]. rewrite alter_id; [exact Hu|done].
  - eapply tracked_core.
    { rewrite core_clear_if_approved. unfold ack. by rewrite core_emitAck, core_settle. }
    set (a2 := finalize reserved true _). destruct (core_marked a2 promoted (sp_ID (Spec (h_evt h))) (clock w 50)) as (f & Hf & Hp & Hr).
    eapply (tracked_renewed a1 _ (Spec (h_evt h)) (clock w 50) f); [done|done|by rewrite Hp| |done].
    rewrite Hr. by rewrite <- Hu.
Qed.

Lemma tracked_handle_apply h reserved reason promoted a : tracked a -> tracked (handle_apply c w h reserved reason promoted a).2.
Proof.
  intros Ha. unfold handle_apply. pose proof (core_lane_gates c w h LaneCritical reserved true a) as Hg. cbv zeta.
  destruct (lane_gates c w h LaneCritical reserved true a) as [[r|] a1]; cbn [snd] in Hg; [by eapply tracked_core|].
  apply tracked_core in Hg; [|done].
  pose proof (applyWithTerminalHandling_spec c w true (Spec (h_evt h)) (h_requiresAck h) (h_evt h) a1) as [Hr Hp].
  destruct (applyWithTerminalHandling c w true _ _ _ a1) as [[err|] a2]; cbn [fst snd] in *.
  { apply (tracked_ext a1); [exact Hp|exact Hr|done]. }
  eapply tracked_core; [by rewrite core_clear_if_approved, core_settle|].
  set (a3 := finalize reserved true _).
  assert (H3 : plane a3 = plane a2 /\ records (store a3) = records (store a2)) by done. destruct H3 as [H3p H3r].
  set (a4 := (stored _ a3).2).
  assert (H4 : plane a4 = plane a3 /\ records (store a4) =
    <[sp_ID (Spec (h_evt h)) := upserted (Spec (h_evt h)) (clock w 52) (records (store a3) !! sp_ID (Spec (h_evt h)))]> (records (store a3))).
  { split; [done|]. unfold a4, stored. cbn [snd store with_store]. apply records_Upsert. }
  destruct H4 as [H4p H4r]. destruct (core_marked a4 promoted (sp_ID (Spec (h_evt h))) (clock w 51)) as (f & Hf & Hmp & Hmr).
  eapply (tracked_applied a1 _ (Spec (h_evt h)) (clock w 52) f); [done| | |done].
  - by rewrite Hmp, H4p, H3p, Hp.
  - by rewrite Hmr, H4r, H3r, Hr.
Qed.

Lemma refresh_plan_existing spec s reason promoted : refresh_plan spec s = (reason, true, promoted) -> is_Some (records s !! sp_ID spec).
Proof. unfold refresh_plan, Get. destruct (records s !! sp_ID spec); [by eexists|done]. Qed.

Lemma tracked_handle_guarded h a : tracked a -> tracked (handle_guarded c w h a).2.
Proof.
  intros Ha. unfold handle_guarded. cbv zeta. pose proof (core_checkGuardrails c w (Spec (h_evt h)) a) as Hc.
  destruct (checkGuardrails c w (Spec (h_evt h)) a) as [[reserved|text] a1]; cbn [snd] in Hc; (apply tracked_core in Hc; [|done]); [|done].
  set (a2 := if emitAcceptedAck c then _ else a1). assert (H2 : tracked a2) by (unfold a2; by destruct (emitAcceptedAck c)).
  destruct (refresh_plan (Spec (h_evt h)) (store a2)) as [[reason []] promoted] eqn:Hplan.
  - apply tracked_handle_refresh; [|done]. by eapply refresh_plan_existing.
  - by apply tracked_handle_apply.
Qed.

Lemma tracked_handle_decided h req rej a : tracked a -> tracked (handle_decided c w h req rej a).2.
Proof.
  intros Ha. unfold handle_decided. cbv zeta. destruct req.
  { eapply tracked_core; [cbn [snd]; rewrite core_commitReplayKey; apply core_savePendingApproval|done]. }
  destruct rej; [eapply tracked_core; [cbn [snd]; rewrite core_emitAck, core_settle; done|done]|].
  destruct (isDuplicate _ _); [eapply tracked_core; [cbn [snd]; unfold ack; rewrite core_emitAck, core_settle; done|done]|].
  destruct (isRemoveAction _); [by apply tracked_handle_remove|by apply tracked_handle_guarded].
Qed.

Lemma tracked_handle_verified evt a : tracked a -> tracked (handle_verified c w evt a).2.
Proof.
  intros Ha. unfold handle_verified. cbv zeta. pose proof (core_checkReplay c evt (clock w 0) a) as Hc.
  destruct (checkReplay c evt (clock w 0) a) as [[key| |reason text] a1]; cbn [snd] in Hc; (apply tracked_core in Hc; [|done]).
  - destruct (shed c w evt).
    { pose proof (core_publishCommandReject c w true a1) as Hp. destruct (publishCommandReject c w true a1) as [[e|] a2]; cbn [snd] in *;
        by eapply tracked_core. }
    destruct (kill w); [done|]. unfold handle_ordered. destruct (match h_ts _ with Some _ => _ | None => _ end); [done|].
    unfold handle_approval. cbv zeta. destruct (isApprovalAction _); [|destruct (isRejectAction _)].
    + destruct (approvals a1 !! _) as [p|]; [|done]. unfold merge_pending. cbv beta iota zeta. by apply tracked_handle_decided.
    + destruct (approvals a1 !! _) as [p|]; [|done]. unfold merge_pending. cbv beta iota zeta. by apply tracked_handle_decided.
    + by apply tracked_handle_decided.
  - done.
  - set (r := if bool_decide _ then _ else _).
    assert (Hr : core r.2 = core a1) by (unfold r; destruct (bool_decide _); [apply core_publishCommandReject|done]).
    destruct r as [[e|] a2]; cbn [snd] in *; by eapply tracked_core.
Qed.

Lemma tracked_HandleMessage topic value a : tracked a -> tracked (HandleMessage t c w topic value a).2.
Proof.
  intros Ha. unfold HandleMessage. destruct (proto_Unmarshal value); [|by eapply tracked_core; [apply core_publishCommandReject|]].
  destruct (VerifyAndParseWithDomain _ _ _); [by apply tracked_handle_verified|by eapply tracked_core; [apply core_publishCommandReject|]].
Qed.

Lemma provisional_record_ok f d ts r id : AppliedAt r = ts -> record_ok id r -> record_ok id (provisional_record f d ts r).
Proof. intros <- (H1 & H2 & H3). unfold record_ok, provisional_record. cbn. by destruct (IsZero (AppliedAt r)). Qed.

(** What a fast mitigation leaves in the store. *)
Lemma records_write_provisional f spec ts a :
  let r := upserted spec ts (records (store a) !! sp_ID spec) in
  plane (write_provisional w f spec ts a).2 = plane a /\
  records (store (write_provisional w f spec ts a).2) =
    <[sp_ID spec := match (write_provisional w f spec ts a).1 with
                    | Some _ => r | None => provisional_record (f_MitigationID f) (fastDeadline spec ts) ts r end]> (records (store a)).
Proof.
  cbv zeta. unfold write_provisional. unfold stored at 1 3 5. pose proof (records_Upsert (file w 3) spec ts (store a)) as Hu.
  destruct (Upsert (file w 3) spec ts (store a)) as [err s1]. cbn [fst snd] in *. destruct err as [text|]; cbn [fst snd]; [done|].
  split; [done|]. unfold stored, MarkProvisional. cbn [store with_store snd]. rewrite Hu, lookup_insert_eq. cbn. by rewrite insert_insert_eq.
Qed.

Lemma tracked_write_provisional f spec ts a a0 : records (store a) = records (store a0) ->
  (plane a = <[sp_ID spec := spec]> (plane a0) \/ (plane a = plane a0 /\ is_Some (records (store a0) !! sp_ID spec))) ->
  tracked a0 -> tracked (write_provisional w f spec ts a).2.
Proof.
  intros Hr Hp [Hd Ho]. destruct (records_write_provisional f spec ts a) as [H1 H2]. cbv zeta in H2. split.
  - rewrite H1, H2, dom_insert_L, Hr, <- Hd. destruct Hp as [->|[-> Hs]]; [by rewrite dom_insert_L|].
    rewrite <- elem_of_dom, <- Hd in Hs. set_solver.
  - rewrite H2. apply records_ok_insert; [|by rewrite Hr]. destruct (upserted_ok spec ts (records (store a) !! sp_ID spec)) as [Hu Hts].
    destruct (write_provisional _ _ _ _ _).1; [done|]. by apply provisional_record_ok.
Qed.

Lemma tracked_HandleFastEvent evt a : tracked a -> tracked (HandleFastEvent c w evt a).2.
Proof.
  intros Ha. unfold HandleFastEvent. destruct (Fast evt) as [f|]; [|done]. cbv zeta. pose proof (core_checkFastReplay c w f (clock w 0) a) as Hc.
  destruct (checkFastReplay c w f (clock w 0) a) as [[[reason text]|] a1]; cbn [snd] in Hc; (apply tracked_core in Hc; [|done]); [done|].
  destruct (kill w); [done|]. destruct (isDuplicate _ _); [done|].
  destruct (plan_fast (Spec evt) (store a1)) as [| |reason] eqn:Hplan; [done| |].
  - assert (Hs : is_Some (records (store a1) !! sp_ID (Spec evt))) by (unfold plan_fast, Get in Hplan; by destruct (records (store a1) !! _)).
    pose proof (tracked_write_provisional f (Spec evt) (clock w 50) a1 a1 eq_refl (or_intror (conj eq_refl Hs)) Hc) as Ht.
    by destruct (write_provisional w f (Spec evt) (clock w 50) a1) as [[text|] a2].
  - pose proof (applyWithTerminalHandling_spec c w false (Spec evt) true evt a1) as [Hr Hp].
    destruct (applyWithTerminalHandling c w false _ _ _ a1) as [[err|] a2]; cbn [fst snd] in *; [by apply (tracked_ext a1)|].
    set (a3 := emitAck _ _ _ _ _ _ _ _ a2).
    assert (Ht : tracked (write_provisional w f (Spec evt) (clock w 51) a3).2).
    { apply (tracked_write_provisional f (Spec evt) (clock w 51) a3 a1); [exact Hr|left; exact Hp|done]. }
    by destruct (write_provisional w f (Spec evt) (clock w 51) a3) as [[text|] a4].
Qed.
End handlers.
