(* ===== verification/AgentProps.v ===== *)
(** The properties of the enforcement agent: what its signatures establish, what it keeps
    enforced and for how long, and what its guardrails and its memory of events let pass. *)
From S2P Require Import Prelude Bytes Sha256 GoTime GoStrings GoJson GoText GoNet AgentPolicy AgentStore AgentController AgentLoops AgentRuns.
Import Json.
Local Open Scope Z_scope.

(** ** Signatures *)

Section verification.
Context `{Signing} (t : TrustedKeys).

(** On every topic but the one of enforcement commands the signature of an event is not
    checked: whoever knows a trusted public key has any rule accepted, with any 64 bytes as
    its signature. *)
Theorem legacy_unsigned (c : Config) (topic : bytes) (evt : PolicyUpdateEvent) (spec : PolicySpec)
  (Hdomain : policyDomainForTopic c topic = legacyPolicyDomain)
  (Hkey : ev_Pubkey evt ∈ t) (Hlen : len (ev_Pubkey evt) = 32) (Hsig : len (ev_Signature evt) = 64)
  (Hmarshal : proto_Marshal (signed_part evt) <> None) (Hhash : ev_RuleHash evt = sha256 (ev_RuleData evt))
  (Hparse : ParseSpec (ev_RuleType evt) (ev_RuleData evt) (ev_EffectiveHeight evt) (ev_ExpirationHeight evt) (ev_Timestamp evt) = Ok spec) :
  VerifyAndParseWithDomain t evt (policyDomainForTopic c topic) = Ok (MkEvent (Some evt) None spec).
Proof.
  rewrite Hdomain. unfold VerifyAndParseWithDomain. rewrite Hlen, Hsig, (bool_decide_eq_true_2 (ev_Pubkey evt ∈ t)) by done.
  cbn [negb Z.eqb]. destruct (proto_Marshal (signed_part evt)) as [payload|]; [|done]. cbn [of_option]. rewrite bind_Ok. cbv zeta.
  rewrite (bool_decide_eq_false_2 (legacyPolicyDomain = [])) by done.
  rewrite (bool_decide_eq_false_2 (legacyPolicyDomain <> legacyPolicyDomain)) by tauto. rewrite andb_false_r.
  unfold hashMatches. rewrite Hhash. rewrite (bool_decide_eq_true_2 (sha256 _ = _)) by done.
  assert (Hl : len (sha256 (ev_RuleData evt)) = 32) by (unfold len; by rewrite length_sha256).
  rewrite Hl. cbn. by rewrite Hparse.
Qed.
End verification.

(** ** What the backend is told to apply *)

(** The policies handed to the backend, with whether it took them. *)
Definition apply_of (e : effect) : option (PolicySpec * bool) := match e with EApply s ok => Some (s, ok) | _ => None end.
Definition applied (a : Agent) : list (PolicySpec * bool) := omap apply_of (effects a).

Lemma applied_did l a : applied (did l a) = applied a ++ omap apply_of l.
Proof. unfold applied. cbn. by rewrite omap_app. Qed.

Lemma applied_quiet l a : omap apply_of l = [] -> applied (did l a) = applied a.
Proof. intros Hl. by rewrite applied_did, Hl, app_nil_r. Qed.

Lemma quiet_fmap {A} (f : A -> effect) l : (forall x, apply_of (f x) = None) -> omap apply_of (f <$> l) = [].
Proof. intros Hf. induction l as [|x l IH]; [done|]. cbn. by rewrite Hf, IH. Qed.

Lemma apply_in_applied s ok a : EApply s ok ∈ effects a <-> (s, ok) ∈ applied a.
Proof.
  unfold applied. rewrite list_elem_of_omap. split; [by intros He; exists (EApply s ok)|]. intros ([] & He & Ha); cbn in Ha; congruence.
Qed.

(** Nothing but policies that satisfy [P] were applied in between. *)
Definition only (P : PolicySpec -> Prop) (a a' : Agent) : Prop := forall x, x ∈ applied a' -> x ∈ applied a \/ P x.1.

Lemma only_same P a a' : applied a' = applied a -> only P a a'.
Proof. intros He x Hx. left. by rewrite <- He. Qed.

Lemma only_trans P a a1 a2 : only P a a1 -> only P a1 a2 -> only P a a2.
Proof. intros H1 H2 x Hx. destruct (H2 x Hx) as [Hx1|]; [by apply H1|by right]. Qed.

Lemma only_from P a a1 a2 : applied a1 = applied a -> only P a1 a2 -> only P a a2.
Proof. intros He Ho. eapply only_trans; [by apply only_same|done]. Qed.

Lemma only_weaken (P Q : PolicySpec -> Prop) a a' : (forall s, P s -> Q s) -> only P a a' -> only Q a a'.
Proof. intros Hi Ho x Hx. destruct (Ho x Hx); [by left|right; auto]. Qed.

Section handlers.
Context `{Signing, RuleEncoding} (t : TrustedKeys) (c : Config) (w : answers).

Lemma applied_emitAck evt req res code reason at_ a : applied (emitAck c w evt req res code reason at_ a) = applied a.
Proof. unfold emitAck. cbv zeta. change (applied (recordDecision ?d ?b)) with (applied b). apply applied_quiet. by destruct (_ && _). Qed.

Lemma applied_publishCommandReject b a : applied (publishCommandReject c w b a).2 = applied a.
Proof. unfold publishCommandReject. repeat case_match; try done. by apply applied_quiet. Qed.

Lemma applied_checkReplay evt now a : applied (checkReplay c evt now a).2 = applied a.
Proof. unfold checkReplay. by repeat case_match. Qed.

Lemma applied_commitReplayKey key now a : applied (commitReplayKey c w key now a) = applied a.
Proof. unfold commitReplayKey. by repeat case_match. Qed.

Lemma applied_settle h a : applied (settle c w h a) = applied a.
Proof. unfold settle. cbv zeta. rewrite applied_commitReplayKey. by destruct (h_ts h). Qed.

Lemma applied_clear_if_approved h a : applied (clear_if_approved w h a) = applied a.
Proof. unfold clear_if_approved. by destruct (h_approved h). Qed.

Lemma applied_finalize reserved commit a : applied (finalize reserved commit a) = applied a.
Proof. apply applied_quiet, quiet_fmap. by destruct commit. Qed.

Lemma applied_shouldCompactEvent evt ts a : applied (shouldCompactEvent c w evt ts a).2 = applied a.
Proof. unfold shouldCompactEvent. destruct (compactionWindow c); [|done]. by destruct (Observe _ _ _ _ _). Qed.

Lemma applied_compacted h a : applied (compacted c w h a) = applied a.
Proof. unfold compacted, ack. by rewrite applied_clear_if_approved, applied_emitAck, applied_settle. Qed.

Lemma applied_run_limits l reserved a : applied (run_limits l reserved a).2 = applied a.
Proof.
  revert reserved a. induction l as [|f l IH]; intros reserved a; cbn [run_limits]; [done|].
  destruct (f (store a)); [rewrite IH|cbn [snd]]; by apply applied_quiet, quiet_fmap.
Qed.

Lemma applied_checkGuardrails spec a :
  applied (checkGuardrails c w spec a).2 = applied a /\
  ((exists reserved, (checkGuardrails c w spec a).1 = Ok reserved) -> checkAllowlist spec = None).
Proof.
  unfold checkGuardrails. destruct (checkAllowlist spec); [split; [done|by intros []]|]. cbv zeta.
  match goal with |- context [if ?b then _ else _] => destruct b end; [done|].
  destruct (too_many_active spec (store a)); [done|]. split; [apply applied_run_limits|done].
Qed.

Lemma applied_lane_gates h l reserved early a : applied (lane_gates c w h l reserved early a).2 = applied a.
Proof.
  unfold lane_gates. pose proof (applied_shouldCompactEvent (h_evt h) (h_ts h) a) as Hc.
  destruct (shouldCompactEvent c w (h_evt h) (h_ts h) a) as [[] a1]; cbn [snd] in *.
  - by rewrite applied_finalize, applied_compacted.
  - destruct (dry_run _ _ _); cbn [snd]; [by rewrite applied_finalize, applied_emitAck|].
    destruct (enterLane _ _); [|done]. cbn [snd]. destruct early; by rewrite ?applied_finalize, ?applied_emitAck, ?applied_finalize.
Qed.

Lemma applied_savePendingApproval key evt a : applied (savePendingApproval w key evt a) = applied a.
Proof. unfold savePendingApproval. cbv zeta. match goal with |- context [match ?x with Some _ => _ | None => _ end] => by destruct x end. Qed.

Lemma only_call_Apply (spec : PolicySpec) ok a : only (eq spec) a (call_Apply spec ok a).
Proof.
  intros x. unfold call_Apply. rewrite applied_did. rewrite elem_of_app. intros [Hx|Hx]; [left; by destruct ok|].
  right. apply list_elem_of_singleton in Hx. by subst x.
Qed.

Lemma only_apply_loop fuel n b spec a : only (eq spec) a (apply_loop c w fuel n b spec a).2.
Proof.
  revert n b a. induction fuel as [|fuel IH]; intros n b a; [by apply only_same|]. cbn [apply_loop]. cbv zeta.
  destruct (at_canceled _); [by apply only_same|]. destruct (at_result _); [|apply only_call_Apply].
  destruct (negb (retryable _)); [apply only_call_Apply|]. destruct fuel as [|fuel]; [apply only_call_Apply|].
  assert (Hw : only (eq spec) a (did [EWait (jitteredBackoff c (at_jitter (backend_Apply w n)) b)] (call_Apply spec false a))).
  { eapply only_trans; [apply only_call_Apply|]. apply only_same. by apply applied_quiet. }
  destruct (if _ <=? 0 then _ else _); [|done..]. eapply only_trans; [exact Hw|apply IH].
Qed.

Lemma only_applyWithTerminalHandling has_message spec req evt a : only (eq spec) a (applyWithTerminalHandling c w has_message spec req evt a).2.
Proof.
  unfold applyWithTerminalHandling. destruct (isApplyTimeoutBreakerOpen _ _ _); [apply only_same; apply applied_emitAck|].
  unfold applyWithRetries. pose proof (only_apply_loop (Z.to_nat (Z.max 1 (applyRetryMax c + 1))) 0 (applyRetryBase c) spec a) as Hl.
  destruct (apply_loop c w _ 0 (applyRetryBase c) spec a) as [[[err n] ex] a1]. cbn [snd] in Hl.
  assert (Hb : forall b, applied (recordApplyTimeoutOutcome c b (clock w 22) a1) = applied a1).
  { intros b. unfold recordApplyTimeoutOutcome. by repeat case_match. }
  destruct err as [e|]; (eapply only_trans; [exact Hl|]; apply only_same); [|cbn [snd]; apply Hb].
  set (b := bool_decide (applyErrorClass e = ErrorClassTimeout)).
  destruct (if terminalRejectPolicy _ _ then _ else _) as [rej a3] eqn:Hrej.
  assert (H3 : applied a3 = applied a1).
  { destruct (terminalRejectPolicy _ _); [|injection Hrej as _ <-; by rewrite Hb].
    rewrite <- (Hb b), <- (applied_publishCommandReject has_message (recordApplyTimeoutOutcome c b (clock w 22) a1)).
    by rewrite Hrej. }
  destruct rej; cbn [snd]; [done|]. by destruct ex; cbn [snd]; rewrite applied_emitAck.
Qed.

(** *** The handlers *)

Lemma applied_handle_remove h a : applied (handle_remove c w h a).2 = applied a.
Proof.
  unfold handle_remove. pose proof (applied_lane_gates h LaneCritical [] false a) as Hg. cbv zeta.
  destruct (lane_gates c w h LaneCritical [] false a) as [[r|] a1]; cbn [snd] in Hg; [done|].
  destruct (backend_Remove w); cbn [snd].
  - rewrite applied_emitAck. unfold call_Remove. by rewrite applied_quiet.
  - rewrite applied_clear_if_approved, applied_settle. unfold stored. cbn [snd]. change (applied (with_store ?f ?b)) with (applied b).
    unfold ack. rewrite applied_emitAck. unfold call_Remove. by rewrite applied_quiet.
Qed.

Lemma applied_stored r a : applied (stored r a).2 = applied a.
Proof. done. Qed.

Lemma applied_handle_refresh h reserved promoted a : applied (handle_refresh c w h reserved promoted a).2 = applied a.
Proof.
  unfold handle_refresh. pose proof (applied_lane_gates h LaneMaintenance reserved false a) as Hg. cbv zeta.
  destruct (lane_gates c w h LaneMaintenance reserved false a) as [[r|] a1]; cbn [snd] in Hg; [done|].
  unfold stored at 1. destruct (Upsert _ _ _ _) as [err s1]. cbn [fst snd]. destruct err; cbn [snd].
  - by rewrite applied_finalize, applied_emitAck.
  - rewrite applied_clear_if_approved. unfold ack. rewrite applied_emitAck, applied_settle. unfold mark_committed.
    rewrite applied_stored. by rewrite applied_finalize.
Qed.

Lemma only_handle_apply h reserved reason promoted a : only (eq (Spec (h_evt h))) a (handle_apply c w h reserved reason promoted a).2.
Proof.
  unfold handle_apply. pose proof (applied_lane_gates h LaneCritical reserved true a) as Hg. cbv zeta.
  destruct (lane_gates c w h LaneCritical reserved true a) as [[r|] a1]; cbn [snd] in Hg; [by apply only_same|].
  pose proof (only_applyWithTerminalHandling true (Spec (h_evt h)) (h_requiresAck h) (h_evt h) a1) as Ho.
  destruct (applyWithTerminalHandling c w true _ _ _ a1) as [err a2]; cbn [snd] in Ho.
  eapply only_trans; [by apply only_same|]. eapply only_trans; [exact Ho|]. apply only_same.
  destruct err; cbn [snd]; [by rewrite applied_finalize|].
  rewrite applied_clear_if_approved, applied_settle. unfold mark_committed. rewrite !applied_stored, applied_finalize.
  unfold ack. by rewrite applied_emitAck.
Qed.

Definition allowed (spec s : PolicySpec) : Prop := s = spec /\ checkAllowlist s = None.

Lemma only_handle_guarded h a : only (allowed (Spec (h_evt h))) a (handle_guarded c w h a).2.
Proof.
  unfold handle_guarded. cbv zeta. destruct (applied_checkGuardrails (Spec (h_evt h)) a) as [Hc Ho].
  destruct (checkGuardrails c w (Spec (h_evt h)) a) as [[reserved|text] a1]; cbn [fst snd] in *.
  - specialize (Ho (ex_intro _ reserved eq_refl)). set (a2 := if emitAcceptedAck c then _ else a1).
    assert (H2 : applied a2 = applied a) by (rewrite <- Hc; unfold a2, ack; destruct (emitAcceptedAck c); [apply applied_emitAck|done]).
    destruct (refresh_plan (Spec (h_evt h)) (store a2)) as [[reason []] promoted].
    + apply only_same. by rewrite applied_handle_refresh.
    + eapply only_trans; [by apply only_same|]. eapply only_weaken; [|apply only_handle_apply]. by intros s <-.
  - apply only_same. by rewrite applied_emitAck.
Qed.

Lemma only_handle_decided h req rej a : only (fun s => allowed (Spec (h_evt h)) s /\ req = false /\ rej = false) a (handle_decided c w h req rej a).2.
Proof.
  unfold handle_decided. cbv zeta. destruct req.
  { apply only_same. cbn [snd]. by rewrite applied_commitReplayKey, applied_savePendingApproval. }
  destruct rej; [apply only_same; cbn [snd]; by rewrite applied_emitAck, applied_settle|].
  destruct (isDuplicate _ _); [apply only_same; cbn [snd]; unfold ack; by rewrite applied_emitAck, applied_settle|].
  destruct (isRemoveAction _); [apply only_same, applied_handle_remove|].
  eapply only_weaken; [|apply only_handle_guarded]. by intros s Hs.
Qed.

(** What stands behind a policy that is applied: the event itself when it needs no approval,
    or the pending event an approval is about. *)
Definition ordered_by (a : Agent) (e : Event) (s : PolicySpec) : Prop :=
  s = Spec e /\ isApprovalAction (proto_action e) = false /\ isRejectAction (proto_action e) = false \/
  isApprovalAction (proto_action e) = true /\ exists p, approvals a !! approvalKey (Spec e) = Some p /\ s = Spec (mergePendingDecisionContext p e).

Lemma only_handle_verified e a :
  only (fun s => kill w = false /\ checkAllowlist s = None /\ ApprovalRequired (sp_Guardrails s) = false /\ ordered_by a e s) a
    (handle_verified c w e a).2.
Proof.
  unfold handle_verified. cbv zeta. pose proof (applied_checkReplay e (clock w 0) a) as Hc.
  assert (Ha : approvals (checkReplay c e (clock w 0) a).2 = approvals a) by (unfold checkReplay; by repeat case_match).
  destruct (checkReplay c e (clock w 0) a) as [[key| |reason text] a1]; cbn [snd] in *.
  - destruct (shed c w e).
    { pose proof (applied_publishCommandReject true a1) as Hp. destruct (publishCommandReject c w true a1) as [[?|] a2]; cbn [snd] in *;
        apply only_same; rewrite ?applied_emitAck; congruence. }
    destruct (kill w); [apply only_same; cbn [snd]; unfold ack; by rewrite applied_emitAck|].
    unfold handle_ordered. destruct (match h_ts _ with Some _ => _ | None => _ end); [apply only_same; cbn [snd]; unfold ack; by rewrite applied_emitAck|].
    unfold handle_approval. cbn [h_evt h_pendingKey]. destruct (isApprovalAction (proto_action e)) eqn:Happ; [|destruct (isRejectAction (proto_action e)) eqn:Hrej].
    + destruct (approvals a1 !! _) as [p|] eqn:Hp; [|apply only_same; cbn [snd]; unfold ack; by rewrite applied_emitAck].
      unfold merge_pending. cbn [h_evt h_requiresAck h_replayKey h_ts h_scopeKey h_pendingKey].
      eapply only_from; [|eapply only_weaken; [|apply only_handle_decided]]; [exact Hc|]. cbn [h_evt]. intros s [[-> Hal] _]. split_and!; [done|done|done|right]. rewrite <- Ha. eauto.
    + destruct (approvals a1 !! _) as [p|] eqn:Hp; [|apply only_same; cbn [snd]; unfold ack; by rewrite applied_emitAck].
      unfold merge_pending. cbn [h_evt h_requiresAck h_replayKey h_ts h_scopeKey h_pendingKey].
      eapply only_from; [|eapply only_weaken; [|apply only_handle_decided]]; [exact Hc|]. cbn [h_evt]. by intros s (_ & _ & [=]).
    + eapply only_from; [|eapply only_weaken; [|apply only_handle_decided]]; [exact Hc|]. cbn [h_evt].
      intros s ([-> Hal] & Hq & _). split_and!; [done..|]. by left.
  - apply only_same. cbn [snd]. unfold ack. by rewrite applied_emitAck.
  - set (r := if bool_decide _ then _ else _).
    assert (Hr : applied r.2 = applied a1) by (unfold r; destruct (bool_decide _); [apply applied_publishCommandReject|done]).
    destruct r as [[?|] a2]; cbn [snd] in *; apply only_same; rewrite ?applied_emitAck; congruence.
Qed.

(** A message has the backend apply a policy only with the kill switch off, when no
    allowlist of the policy protects a target of it, and when it needs no approval or is
    pending and the message approves it; what the message says is the work of a trusted
    key, on the topic of the commands under a signature that verifies. *)
Theorem applied_is_permitted (topic value : bytes) (a : Agent) (s : PolicySpec) (ok : bool)
  (Happly : EApply s ok ∈ effects (HandleMessage t c w topic value a).2) (Hnew : EApply s ok ∉ effects a) :
  kill w = false /\ checkAllowlist s = None /\ ApprovalRequired (sp_Guardrails s) = false /\
  exists evt e payload, proto_Unmarshal value = Some evt /\ Proto e = Some evt /\ ordered_by a e s /\
    ev_Pubkey evt ∈ t /\ ev_RuleHash evt = sha256 (ev_RuleData evt) /\ proto_Marshal (signed_part evt) = Some payload /\
    (policyDomainForTopic c topic = enforcementCommandDomain ->
     ed25519_Verify (ev_Pubkey evt) (enforcementCommandDomain ++ payload) (ev_Signature evt) = true \/
     ed25519_Verify (ev_Pubkey evt) (legacyPolicyDomain ++ payload) (ev_Signature evt) = true).
Proof.
  apply apply_in_applied in Happly. rewrite apply_in_applied in Hnew. unfold HandleMessage in Happly.
  destruct (proto_Unmarshal value) as [evt|]; [|rewrite applied_publishCommandReject in Happly; done].
  destruct (VerifyAndParseWithDomain t evt _) as [e|] eqn:Hv; [|rewrite applied_publishCommandReject in Happly; done].
  destruct (only_handle_verified e a _ Happly) as [|(Hk & Hal & Hap & Ho)]; [done|]. split_and!; [done..|].
  apply VerifyAndParseWithDomain_Ok in Hv as (spec & -> & _ & Hkey & Hhash & payload & Hm & Hsig).
  exists evt, (MkEvent (Some evt) None spec), payload. split_and!; [done..|]. intros Hd. rewrite Hd in Hsig. by apply Hsig.
Qed.
End handlers.

(** ** The loops *)

Section loops.
Context (w : turn).

Lemma run_all_ind {A} (P : list A -> Agent -> Prop) (f : A -> Agent -> bool * Agent) (l : list A) (a : Agent) :
  (forall x l a, P (x :: l) a -> P l (f x a).2) -> P l a -> P [] (run_all f l a).2.
Proof.
  intros Hf. unfold run_all. generalize false. revert a. induction l as [|x l IH]; intros a b HP; [done|]. cbn [foldl].
  pose proof (Hf x l a HP) as H1. destruct (f x a) as [e a1]. by apply IH.
Qed.

Lemma run_all_keeps {A} (P : Agent -> Prop) (f : A -> Agent -> bool * Agent) (l : list A) (a : Agent) :
  (forall x a, P a -> P (f x a).2) -> P a -> P (run_all f l a).2.
Proof. intros Hf. apply (run_all_ind (fun _ => P)). intros x _. apply Hf. Qed.

Lemma tracked_expire id a : tracked a -> tracked (expire w id a).2.
Proof.
  intros Ha. unfold expire. destruct (remove_ok w id); [|done]. cbn [stored fst snd]. by apply (tracked_removed a _ id).
Qed.

Lemma tracked_Scheduler_reconcile a : tracked a -> tracked (Scheduler_reconcile w a).2.
Proof. intros Ha. unfold Scheduler_reconcile. apply run_all_keeps; [|done]. intros r a'. apply tracked_expire. Qed.

Definition id_of (r : Record_) : bytes := sp_ID (r_Spec r).
Definition has_record (a : Agent) (id : bytes) : Prop := is_Some (records (store a) !! id).

Lemma ids_of_records (range : visit_order bytes Record_) m : records_ok m -> id_of <$> (range m).*2 ≡ₚ (map_to_list m).*1.
Proof.
  intros Hm. rewrite (visit_perm _ _ range m), <- list_fmap_compose.
  rewrite (list_fmap_ext (id_of ∘ snd) fst); [done|]. intros i [k r] Hk. apply list_elem_of_lookup_2, elem_of_map_to_list in Hk.
  by destruct (Hm k r Hk).
Qed.

Lemma tracked_reapply r a : tracked a -> has_record a (id_of r) -> tracked (reapply w r a).2.
Proof.
  intros Ha Hr. unfold reapply. destruct (passed _ _); [by apply tracked_expire|]. cbn [snd]. unfold call_Apply.
  destruct (apply_ok w _); [|done]. destruct Ha as [Hd Ho]. split; [|done]. cbn. rewrite dom_insert_L, <- Hd.
  apply elem_of_dom in Hr. rewrite <- Hd in Hr. unfold id_of in Hr. set_solver.
Qed.

Lemma has_record_reapply r a id : id <> id_of r -> has_record a id -> has_record (reapply w r a).2 id.
Proof.
  intros Hne. unfold reapply, expire, has_record. destruct (passed _ _); [|by unfold call_Apply; destruct (apply_ok w _)].
  destruct (remove_ok w _); cbn; [|done]. by rewrite lookup_delete_ne.
Qed.

Lemma Permutation_reconcile_order l : reconcile_order w l ≡ₚ l.
Proof.
  unfold reconcile_order. induction l as [|r l IH]; [done|]. rewrite !filter_cons. destruct (awaits_consensus w r) eqn:H.
  - rewrite decide_True, decide_False by done. cbn. by f_equiv.
  - rewrite decide_False, decide_True by done. rewrite <- Permutation_middle. by f_equiv.
Qed.

Lemma tracked_reapply_all a : tracked a -> tracked (run_all (reapply w) (reconcile_order w (List (recs w) (store a))) a).2.
Proof.
  intros Ha. assert (Hids : id_of <$> reconcile_order w (List (recs w) (store a)) ≡ₚ (map_to_list (records (store a))).*1).
  { rewrite Permutation_reconcile_order. apply ids_of_records, Ha. }
  apply (run_all_ind (fun l a => tracked a /\ NoDup (id_of <$> l) /\ Forall (has_record a) (id_of <$> l))).
  - intros r l a' (Ht & Hnd & Hf). cbn in Hnd, Hf. apply NoDup_cons in Hnd as [Hr Hnd]. apply Forall_cons in Hf as [Hr' Hf].
    split_and!; [by apply tracked_reapply|done|]. apply Forall_forall. intros id Hid. rewrite Forall_forall in Hf.
    apply has_record_reapply; [|by apply Hf]. intros ->. done.
  - split_and!; [done|rewrite Hids; apply NoDup_fst_map_to_list|]. rewrite Hids. apply Forall_forall. intros id Hid.
    apply list_elem_of_fmap in Hid as ([k r] & -> & Hk). apply elem_of_map_to_list in Hk. by exists r.
Qed.
End loops.

(** ** Runs *)

(** What happens to an agent: a message of a policy topic, one of the fast topic, a turn of
    the scheduler, or one of the reconciler, without a ledger. *)
Inductive agent_op :=
| OMessage (w : answers) (topic value : bytes) | OFast (w : answers) (value : bytes) | OSchedule (w : turn) | OReconcile (w : turn) (killed : bool).

Section runs.
Context `{Signing, RuleEncoding} (t : TrustedKeys) (c : Config).

Definition run_op (a : Agent) (o : agent_op) : Agent :=
  match o with
  | OMessage w topic value => (HandleMessage t c w topic value a).2
  | OFast w value => (FastHandler_HandleMessage t c w value a).2
  | OSchedule w => (Scheduler_reconcile w a).2
  | OReconcile w killed => (Reconciler_reconcile w killed false 0 zero_time a).1.2
  end.
Definition run_ops (ops : list agent_op) (a : Agent) : Agent := foldl run_op a ops.

Lemma tracked_run_op a o : tracked a -> tracked (run_op a o).
Proof.
  intros Ha. destruct o as [w topic value|w value|w|w killed]; cbn [run_op].
  - by apply tracked_HandleMessage.
  - unfold FastHandler_HandleMessage. destruct (VerifyAndParseFast t value); [by apply tracked_HandleFastEvent|done].
  - by apply tracked_Scheduler_reconcile.
  - unfold Reconciler_reconcile. destruct killed; [done|]. cbn [ledger_due andb]. pose proof (tracked_reapply_all w a Ha) as Ht.
    by destruct (run_all (reapply w) _ a).
Qed.

Lemma tracked_run_ops ops a : tracked a -> tracked (run_ops ops a).
Proof. intros Ha. unfold run_ops. apply foldl_invariant; [done|]. intros a' o _. apply tracked_run_op. Qed.

(** Whatever messages, fast mitigations and turns of the loops an agent goes through, with
    whatever errors of the backend and of its file, the backend enforces exactly the
    policies the store has records of. *)
Theorem enforced_as_recorded (ops : list agent_op) (a : Agent) (Hd : dom (plane a) = dom (records (store a)))
  (Hr : records_ok (records (store a))) :
  dom (plane (run_ops ops a)) = dom (records (store (run_ops ops a))).
Proof. by apply (tracked_run_ops ops a). Qed.

(** No commit ever clears the deadlines that are meant for policies without one: every
    record whose guardrails have such a deadline is expired once that time has passed since
    it was applied, whether it was committed, promoted or renewed in between. *)
Theorem deadlines_never_cleared (ops : list agent_op) (a : Agent) (Hd : dom (plane a) = dom (records (store a)))
  (Hr : records_ok (records (store a))) (range : visit_order bytes Record_) (now : Time) (id : bytes) (r : Record_) (n : Z)
  (Hrec : records (store (run_ops ops a)) !! id = Some r)
  (Hn : PreConsensusTTLSeconds (sp_Guardrails (r_Spec r)) = Some n \/ RollbackIfNoCommitAfter (sp_Guardrails (r_Spec r)) = Some n)
  (Hpos : 0 < n) (Hnz : IsZero (Add (AppliedAt r) (seconds n)) = false) (Hnow : After now (Add (AppliedAt r) (seconds n)) = true) :
  r ∈ Expired range now (store (run_ops ops a)).
Proof.
  destruct (tracked_run_ops ops a (conj Hd Hr)) as [_ Ho]. destruct (Ho id r Hrec) as (_ & Hp & Hb).
  apply list_elem_of_filter. split.
  - apply bool_decide_eq_true_2. unfold expiry_of.
    assert (Hdl : deadline (AppliedAt r) (Some n) = Add (AppliedAt r) (seconds n)) by (cbn; by rewrite (proj2 (Z.leb_gt _ _))).
    destruct (_ && _); [done|]. destruct (passed now (ExpiresAt r)); [done|].
    destruct (passed now (PreConsensus r)) eqn:H1; [done|]. destruct (passed now (Rollback r)) eqn:H2; [done|]. exfalso.
    destruct Hn as [Hn|Hn].
    + rewrite Hp, Hn, Hdl in H1. unfold passed in H1. by rewrite Hnz, Hnow in H1.
    + rewrite Hb, Hn, Hdl in H2. unfold passed in H2. by rewrite Hnz, Hnow in H2.
  - apply list_elem_of_fmap. exists (id, r). split; [done|]. by apply elem_of_visit.
Qed.
End runs.

(** ** The turns of the scheduler *)

Section scheduler.
Context (w : turn).

Lemma run_expire l a :
  let gone id := bool_decide (id ∈ id_of <$> l) && remove_ok w id in
  let a' := (run_all (fun r => expire w (id_of r)) l a).2 in
  (forall id, records (store a') !! id = if gone id then None else records (store a) !! id) /\
  (forall id, plane a' !! id = if gone id then None else plane a !! id).
Proof.
  cbv zeta. unfold run_all. generalize false. revert a. induction l as [|r l IH]; intros a b; [done|]. cbn [foldl].
  destruct (expire w (id_of r) a) as [e a1] eqn:He. destruct (IH a1 (b || e)) as [H1 H2].
  assert (Ha1 : a1 = (expire w (id_of r) a).2) by (by rewrite He). clear He IH.
  assert (Hr : forall id, records (store a1) !! id = if bool_decide (id = id_of r) && remove_ok w id then None else records (store a) !! id).
  { intros id. rewrite Ha1. unfold expire. destruct (remove_ok w (id_of r)) eqn:Hok; cbn; destruct (bool_decide_reflect (id = id_of r)) as [->|];
      rewrite ?Hok, ?lookup_delete_eq, ?lookup_delete_ne by done; done. }
  assert (Hp : forall id, plane a1 !! id = if bool_decide (id = id_of r) && remove_ok w id then None else plane a !! id).
  { intros id. rewrite Ha1. unfold expire. destruct (remove_ok w (id_of r)) eqn:Hok; cbn; destruct (bool_decide_reflect (id = id_of r)) as [->|];
      rewrite ?Hok, ?lookup_delete_eq, ?lookup_delete_ne by done; done. }
  assert (Hg : forall id, bool_decide (id ∈ id_of <$> r :: l) = bool_decide (id = id_of r) || bool_decide (id ∈ id_of <$> l)).
  { intros id. rewrite <- bool_decide_or. apply bool_decide_ext. cbn. by rewrite elem_of_cons. }
  split; intros id; [rewrite H1, Hr|rewrite H2, Hp]; rewrite Hg; by destruct (bool_decide (id = id_of r)), (bool_decide (id ∈ id_of <$> l)), (remove_ok w id).
Qed.

(** A turn of the scheduler takes exactly those policies out of the store and out of the
    backend whose time is over and which the backend lets go; a policy the backend keeps is
    left in both for the next turn. *)
Theorem expired_policies_leave (a : Agent) (Hr : records_ok (records (store a))) (id : bytes) (r : Record_)
  (Hrec : records (store a) !! id = Some r) :
  let gone := bool_decide (expiry_of (now w) r <> None) && remove_ok w id in
  let a' := (Scheduler_reconcile w a).2 in
  records (store a') !! id = (if gone then None else Some r) /\ plane a' !! id = if gone then None else plane a !! id.
Proof.
  cbv zeta. unfold Scheduler_reconcile. destruct (run_expire (Expired (recs w) (now w) (store a)) a) as [H1 H2].
  assert (Hin : bool_decide (id ∈ id_of <$> Expired (recs w) (now w) (store a)) = bool_decide (expiry_of (now w) r <> None)).
  { apply bool_decide_ext. unfold Expired. rewrite list_elem_of_fmap. split.
    - intros (r' & Hid & Hr'). apply list_elem_of_filter in Hr' as [He Hr']. apply list_elem_of_fmap in Hr' as ([k r0] & -> & Hk).
      apply elem_of_visit in Hk. cbn [snd] in *. destruct (Hr k r0 Hk) as [Hk' _]. unfold id_of in Hid. rewrite Hk' in Hid. subst k.
      rewrite Hrec in Hk. injection Hk as <-. by apply bool_decide_eq_true in He.
    - intros He. exists r. split; [by destruct (Hr id r Hrec) as [<- _]|]. apply list_elem_of_filter. split; [by apply bool_decide_eq_true_2|].
      apply list_elem_of_fmap. exists (id, r). split; [done|]. by apply elem_of_visit. }
  rewrite <- Hin. split; [rewrite H1|rewrite H2]; [|done]. by rewrite Hrec.
Qed.
End scheduler.

(** ** Events that come again *)

Section reissue.
Context `{Signing, RuleEncoding} (t : TrustedKeys) (c : Config).

Definition is_turn (o : agent_op) : Prop := match o with OSchedule _ | OReconcile _ _ => True | _ => False end.

Lemma seen_expire w id a : seenHashes (expire w id a).2 = seenHashes a.
Proof. unfold expire. by destruct (remove_ok w id). Qed.

Lemma seen_run_op a o : is_turn o -> seenHashes (run_op t c a o) = seenHashes a.
Proof.
  destruct o as [| |w|w killed]; [done|done|intros _..]; cbn [run_op].
  - unfold Scheduler_reconcile. apply (run_all_keeps (fun a' => seenHashes a' = seenHashes a)); [|done]. intros r a' <-. apply seen_expire.
  - unfold Reconciler_reconcile. destruct killed; [done|]. cbn [ledger_due andb].
    pose proof (run_all_keeps (fun a' => seenHashes a' = seenHashes a) (reapply w) (reconcile_order w (List (recs w) (store a))) a) as Hk.
    destruct (run_all (reapply w) _ a) as [e a1]. cbn [fst snd] in *. apply Hk; [|done]. intros r a' <-. unfold reapply.
    destruct (passed _ _); [apply seen_expire|]. unfold call_Apply. by destruct (apply_ok w _).
Qed.

Lemma seen_run_ops ops a : Forall is_turn ops -> seenHashes (run_ops t c ops a) = seenHashes a.
Proof.
  intros Hops. unfold run_ops. revert a. induction Hops as [|o ops Ho _ IH]; intros a; [done|]. cbn [foldl]. rewrite IH. by apply seen_run_op.
Qed.

(** An event whose rule was handled before changes nothing, even when the scheduler or the
    reconciler has taken the policy out since: a policy that has expired is not enforced
    again when it is issued again. *)
Theorem reissued_not_enforced (turns : list agent_op) (Hturns : Forall is_turn turns) (a : Agent) (w : answers) (topic value : bytes)
  (evt : PolicyUpdateEvent) (e : Event) (Hdec : proto_Unmarshal value = Some evt)
  (Hv : VerifyAndParseWithDomain t evt (policyDomainForTopic c topic) = Ok e) (Hnone : isApprovalAction (proto_action e) = false)
  (Hseen : isDuplicate e a = true) :
  core (HandleMessage t c w topic value (run_ops t c turns a)).2 = core (run_ops t c turns a).
Proof.
  assert (Hd : isDuplicate e (run_ops t c turns a) = true) by (unfold isDuplicate in *; by rewrite seen_run_ops).
  revert Hd. generalize (run_ops t c turns a). clear Hseen a. intros a Hseen. unfold HandleMessage. rewrite Hdec, Hv. unfold handle_verified. cbv zeta.
  pose proof (core_checkReplay c e (clock w 0) a) as Hc.
  assert (Hs : seenHashes (checkReplay c e (clock w 0) a).2 = seenHashes a) by (unfold checkReplay; by repeat case_match).
  assert (Hdecided : forall h req rej b, h_evt h = e -> seenHashes b = seenHashes a -> core (handle_decided c w h req rej b).2 = core b).
  { intros h req rej b He Hb. unfold handle_decided. cbv zeta. rewrite He. destruct req; [cbn [snd]; by rewrite core_commitReplayKey, core_savePendingApproval|].
    destruct rej; [cbn [snd]; by rewrite core_emitAck, core_settle|]. unfold isDuplicate in Hseen |- *. rewrite Hb, Hseen.
    cbn [snd]. unfold ack. by rewrite core_emitAck, core_settle. }
  destruct (checkReplay c e (clock w 0) a) as [[key| |reason text] a1]; cbn [snd] in *.
  - destruct (shed c w e).
    { pose proof (core_publishCommandReject c w true a1) as Hp. destruct (publishCommandReject c w true a1) as [[?|] a2]; cbn [snd] in *; by rewrite <- Hc. }
    destruct (kill w); [done|]. unfold handle_ordered. destruct (match h_ts _ with Some _ => _ | None => _ end); [done|].
    unfold handle_approval. cbn [h_evt h_pendingKey]. rewrite Hnone. destruct (isRejectAction (proto_action e)).
    + destruct (approvals a1 !! _); [|done]. unfold merge_pending. cbn [h_evt h_requiresAck h_replayKey h_ts h_scopeKey h_pendingKey].
      unfold handle_decided. cbv zeta. cbn [snd]. by rewrite core_emitAck, core_settle.
    + rewrite Hdecided; done.
  - done.
  - set (r := if bool_decide _ then _ else _).
    assert (Hr : core r.2 = core a1) by (unfold r; destruct (bool_decide _); [apply core_publishCommandReject|done]).
    destruct r as [[?|] a2]; cbn [snd] in *; by rewrite <- Hc.
Qed.
End reissue.

(** ** Fast mitigations *)

Section fast.
Context `{Signing, RuleEncoding} (t : TrustedKeys) (c : Config) (w : answers).

Lemma check_Ok b e u : check b e = Ok u -> b = true.
Proof. by destruct b. Qed.

(** What the envelope of an accepted fast mitigation establishes. *)
Definition fast_signed (f : FastMitigationEnvelope) : Prop :=
  exists pub signature nonce contentHash, DecodeString (f_Pubkey f) = Some pub /\ pub ∈ t /\ DecodeString (f_Signature f) = Some signature /\
    DecodeString (f_Nonce f) = Some nonce /\ DecodeString (f_ContentHash f) = Some contentHash /\
    ed25519_Verify pub (FastMitigationDomain ++ buildFastSignBytes (f_MitigationID f) (f_PolicyID f) (f_Action f) (f_RuleType f)
      (f_Timestamp f) pub nonce contentHash) signature = true.

Lemma decoded_Ok e n s b : decoded e n s = Ok b -> DecodeString s = Some b.
Proof. unfold decoded. destruct (DecodeString s); [|done]. destruct (_ =? n); [|done]. by intros [= ->]. Qed.

Lemma validateFast_Ok payload spec action u : validateFastPayloadAndSpec payload spec action = Ok u ->
  (lower_trim (sp_Action spec) = str "drop" \/ lower_trim (sp_Action spec) = str "rate_limit") /\ 1 <= TTLSeconds (sp_Guardrails spec) <= 60.
Proof.
  intros Hv. unfold validateFastPayloadAndSpec in Hv. cbv zeta in Hv.
  repeat match type of Hv with (_ ≫= _) = Ok _ => let a := fresh "u" in let Hs := fresh "Hs" in apply bind_Ok_inv in Hv as (a & Hs & Hv) end.
  repeat match goal with Hs : check _ _ = Ok _ |- _ => apply check_Ok in Hs end. go_bool. unfold fastMitigationMaxTTLSeconds in *.
  split; [|lia]. match goal with He : lower_trim (sp_Action spec) = _ |- _ => by rewrite He end.
Qed.

Lemma VerifyAndParseFast_Ok value e : VerifyAndParseFast t value = Ok e ->
  exists f, Fast e = Some f /\ Proto e = None /\ fast_signed f /\ sp_ID (Spec e) = f_PolicyID f /\
    (lower_trim (sp_Action (Spec e)) = str "drop" \/ lower_trim (sp_Action (Spec e)) = str "rate_limit") /\
    1 <= TTLSeconds (sp_Guardrails (Spec e)) <= 60.
Proof.
  unfold VerifyAndParseFast. intros Hv. apply bind_Ok_inv in Hv as (f & _ & Hv).
  do 3 apply bind_Ok_inv in Hv as (? & _ & Hv). apply bind_Ok_inv in Hv as (pub & Hpub & Hv).
  apply bind_Ok_inv in Hv as (? & Ht & Hv). do 2 apply bind_Ok_inv in Hv as (? & _ & Hv).
  apply bind_Ok_inv in Hv as (signature & Hsig & Hv). apply bind_Ok_inv in Hv as (hash & Hhash & Hv). apply bind_Ok_inv in Hv as (nonce & Hnonce & Hv).
  apply bind_Ok_inv in Hv as (? & _ & Hv). apply bind_Ok_inv in Hv as (payload & _ & Hv). cbv zeta in Hv.
  apply bind_Ok_inv in Hv as (? & _ & Hv). apply bind_Ok_inv in Hv as (? & Hver & Hv). apply bind_Ok_inv in Hv as (spec & _ & Hv).
  apply bind_Ok_inv in Hv as (? & Hid & Hv). apply bind_Ok_inv in Hv as (u & Hval & Hv). injection Hv as <-. cbn [Fast Proto Spec].
  apply check_Ok in Ht, Hver, Hid. apply decoded_Ok in Hpub, Hsig, Hhash, Hnonce. apply validateFast_Ok in Hval as [Hact Httl]. go_bool.
  exists f. split; [done|]. split; [done|]. split; [by exists pub, signature, nonce, hash|done].
Qed.

(** A record whose policy is over at most sixty seconds after it was applied. *)
Definition short_lived (r : Record_) : Prop := exists n ts, 1 <= n <= 60 /\ ExpiresAt r = Add ts (n * Second).

Lemma seconds_small n : 1 <= n <= 60 -> seconds n = n * Second.
Proof. intros Hn. unfold seconds. apply i64_small. unfold MinInt64, MaxInt64, Second. lia. Qed.

Lemma upserted_short spec ts e : 1 <= TTLSeconds (sp_Guardrails spec) <= 60 -> short_lived (upserted spec ts e).
Proof.
  intros Hn. exists (TTLSeconds (sp_Guardrails spec)), ts. split; [done|]. rewrite <- seconds_small by done.
  unfold upserted. cbv zeta. rewrite (proj2 (Z.ltb_lt 0 _)) by lia. by destruct e, (FastPathTTLSeconds _).
Qed.

Lemma fast_write_short f spec ts a id : 1 <= TTLSeconds (sp_Guardrails spec) <= 60 ->
  records (store (write_provisional w f spec ts a).2) !! id <> records (store a) !! id ->
  id = sp_ID spec /\ exists r, records (store (write_provisional w f spec ts a).2) !! id = Some r /\ r_Spec r = spec /\ short_lived r.
Proof.
  intros Hn. destruct (records_write_provisional w f spec ts a) as [_ ->]. destruct (decide (id = sp_ID spec)) as [->|Hne]; [intros _|by rewrite lookup_insert_ne].
  split; [done|]. rewrite lookup_insert_eq. eexists. split; [done|].
  pose proof (upserted_short spec ts (records (store a) !! sp_ID spec) Hn) as Hs.
  pose proof (upserted_spec spec ts (records (store a) !! sp_ID spec)) as Hsp. by destruct (write_provisional _ _ _ _ _).1.
Qed.

(** What a message of the fast topic changes in the store is the record of one policy that a
    trusted key has signed, that drops or limits traffic and that is over within sixty
    seconds; whatever that policy was before, and whether or not it had been committed. *)
Theorem fast_is_short (value : bytes) (a : Agent) (id : bytes)
  (Hchange : records (store (FastHandler_HandleMessage t c w value a).2) !! id <> records (store a) !! id) :
  exists r e f, VerifyAndParseFast t value = Ok e /\ Fast e = Some f /\ fast_signed f /\ id = f_PolicyID f /\ kill w = false /\
    records (store (FastHandler_HandleMessage t c w value a).2) !! id = Some r /\ r_Spec r = Spec e /\ short_lived r /\
    (lower_trim (sp_Action (Spec e)) = str "drop" \/ lower_trim (sp_Action (Spec e)) = str "rate_limit").
Proof.
  unfold FastHandler_HandleMessage in *. destruct (VerifyAndParseFast t value) as [e|] eqn:Hv; [|done].
  apply VerifyAndParseFast_Ok in Hv as (f & Hf & _ & Hsig & Hid & Hact & Httl).
  assert (Hgoal : kill w = false /\ id = sp_ID (Spec e) /\
    exists r, records (store (HandleFastEvent c w e a).2) !! id = Some r /\ r_Spec r = Spec e /\ short_lived r).
  { revert Hchange. unfold HandleFastEvent. rewrite Hf. cbv zeta. pose proof (core_checkFastReplay c w f (clock w 0) a) as Hc.
    destruct (checkFastReplay c w f (clock w 0) a) as [[[reason text]|] a1]; cbn [snd] in Hc; injection Hc as _ Hc; cbn [snd];
      [by rewrite <- Hc|]. destruct (kill w); [by rewrite <- Hc|]. destruct (isDuplicate _ _); [by rewrite <- Hc|].
    destruct (plan_fast (Spec e) (store a1)) as [| |reason]; [by rewrite <- Hc| |].
    - pose proof (fast_write_short f (Spec e) (clock w 50) a1 id Httl) as Hw. rewrite Hc in Hw.
      destruct (write_provisional w f (Spec e) (clock w 50) a1) as [[text|] a2]; intros Hch; (split; [done|by apply Hw]).
    - pose proof (applyWithTerminalHandling_spec c w false (Spec e) true e a1) as [Hr _].
      destruct (applyWithTerminalHandling c w false _ _ _ a1) as [[err|] a2]; cbn [fst snd] in *; [by rewrite Hr, Hc|].
      set (a3 := emitAck _ _ _ _ _ _ _ _ a2). pose proof (fast_write_short f (Spec e) (clock w 51) a3 id Httl) as Hw.
      assert (H3 : records (store a3) = records (store a)) by (by rewrite <- Hc, <- Hr). rewrite H3 in Hw.
      destruct (write_provisional w f (Spec e) (clock w 51) a3) as [[text|] a4]; intros Hch; (split; [done|by apply Hw]). }
  destruct Hgoal as (Hk & Hid' & r & Hr & Hspec & Hshort). exists r, e, f. rewrite <- Hid. done.
Qed.
End fast.

(** ** The file of the store *)

(** A store whose writes can be told apart. *)
Definition waiting_for (key : string) (s : Store) : Store := (SavePendingApproval None (str key) [x01] s).2.
Definition new_disk : disk_state := MkDisk (NewStore 0) 0 false None ∅ 0.

Definition losing_actions : list disk_action :=
  [DMutate (waiting_for "first"); DFlush; DLock 0; DWrite 0; DCompare 0; DMutate (waiting_for "second"); DUnlock 0].
Definition lost : disk_state := default new_disk (disk_run 1 losing_actions new_disk).

Lemma disk_run_lost : disk_run 1 losing_actions new_disk = Some lost.
Proof.
  unfold lost. assert (H : bool_decide (is_Some (disk_run 1 losing_actions new_disk)) = true) by (vm_compute; reflexivity).
  apply bool_decide_eq_true in H as [d Hd]. by rewrite Hd.
Qed.

(** A change that falls between the comparison of the versions and the clearing of the mark
    is taken for written: nothing is being written any more, the store counts as clean, and
    the file lacks the change for good. One writer is enough, since the comparison is made
    without the lock of the store. *)
Theorem lost_update : exists acts d, disk_run 1 acts new_disk = Some d /\
  writers d = ∅ /\ dirty d = false /\ (sn_PendingApprovals <$> disk d) = Some {[str "first" := [x01]]} /\
  pending (memory d) = <[str "second" := [x01]]> {[str "first" := [x01]]} /\ disk_step 1 DFlush d = Some d.
Proof.
  exists losing_actions, lost. split; [apply disk_run_lost|].
  assert (Hd : dirty lost = false) by (vm_compute; reflexivity).
  split_and!; [| done | | | by unfold disk_step; rewrite Hd]; apply (bool_decide_unpack _); vm_compute; exact I.
Qed.
