(* ===== verification/AgentDemo.v ===== *)
(** Concrete agents: a policy that is enforced, expires and is not enforced again; an event
    nobody signed; a policy that is taken out although it was committed; a fast mitigation. *)
From S2P Require Import Prelude Bytes Sha256 GoTime GoFloat GoStrings GoJson GoText GoNet AgentPolicy AgentStore AgentController AgentLoops AgentRuns AgentProps.
Import Json.
Local Open Scope Z_scope.

Definition quoted_text (s : string) : bytes := (fun b => if Byte.eqb b x27 then x22 else b) <$> str s.

(** A signature is the hash of key and message, twice. *)
Definition demo_sign (pub msg : bytes) : bytes := sha256 (pub ++ msg) ++ sha256 (pub ++ msg).
Definition demo_key : bytes := replicate 32 x07.

(** An event on the wire is a byte, which gives its time, and its signature; from 16 on its
    policy also has a deadline for policies without a commit. *)
Definition demo_rule (extra : string) : bytes :=
  quoted_text ("{'policy_id':'p-1','rule_type':'block','action':'drop','target':{'ips':['10.0.0.9'],'scope':'cluster'}," +:+
    "'metadata':{'trace_id':'t','anomaly_id':'a'},'guardrails':{'ttl_seconds':60" +:+ extra +:+ "}}").
Definition rule_of (n : byte) : bytes := demo_rule (if (Byte.to_N n <? 16)%N then "" else ",'pre_consensus_ttl_seconds':5").
Definition demo_ts (n : byte) : Z := 1000 + 100 * Z.of_N (Byte.to_N n).
Definition demo_update (n : byte) (signature : bytes) : PolicyUpdateEvent :=
  MkUpdate (str "p-1") (str "add") (str "block") (rule_of n) (sha256 (rule_of n)) true [] (demo_ts n) 0 0 [] signature demo_key (str "Ed25519").
Definition demo_marshal (p : PolicyUpdateEvent) : bytes := be_put 8 (ev_Timestamp p) ++ ev_RuleHash p.
#[export] Instance demo_signing : Signing := {|
  ed25519_Verify pub msg signature := bool_decide (signature = demo_sign pub msg);
  proto_Marshal p := Some (demo_marshal p);
  proto_Unmarshal value := match value with n :: signature => Some (demo_update n signature) | [] => None end;
  Marshal_map m := demo_rule "" |}.
#[export] Instance demo_encoding : RuleEncoding := {| Marshal_rule r := er_id r ++ er_action r; selector_range := key_order |}.

Definition demo_trust : TrustedKeys := NewTrustedKeys [demo_key].
Definition command_topic : bytes := str "control.enforcement_command.v1".
Definition policy_topic : bytes := str "control.policy.v2".
Definition demo_options : Options :=
  MkOptions false (f_of_Z 0) 0 true 2 0 0 0 (f_of_Z 0) 0 0 false 0 0 0 false false command_topic false 0 false (str "enforce") (str "enforce")
    false 0.
Definition demo_config : Config := New demo_options NoRate (time_Unix 0).
Definition demo_answers (now : Z) : answers :=
  MkAnswers (fun _ => time_Unix now) false (fun _ => None) None (fun _ => MkAttempt false None (f_of_Z 0) Waited) (fun _ => None)
    (fun _ => Reserved) None (fun _ => true) key_order.
Definition demo_turn (now : Z) : turn :=
  MkTurn (time_Unix now) (fun _ => true) (fun _ => true) (fun _ => None) key_order key_order (Ok None) None.
Definition signed_message (n : byte) : bytes := n :: demo_sign demo_key (command_topic ++ demo_marshal (demo_update n [])).
Definition unsigned_message (n : byte) : bytes := n :: replicate 64 x00.

Notation demo_run := (run_ops demo_trust demo_config).
Definition demo_start : Agent := start demo_trust (NewStore 0) ∅.
Definition message_at (now : Z) (topic value : bytes) : agent_op := OMessage (demo_answers now) topic value.
Definition codes (a : Agent) : list bytes := d_ErrorCode <$> decisions a.

(** A signed command is enforced until its time is over; the same policy issued again is
    acknowledged as a duplicate and not enforced. *)
Definition enforced : Agent := demo_run [message_at 1001 command_topic (signed_message x00)] demo_start.
Definition expired_agent : Agent := demo_run [OSchedule (demo_turn 1100)] enforced.
Definition reissued : Agent := demo_run [message_at 1101 command_topic (signed_message x01)] expired_agent.
Example reissued_noop :
  dom (plane enforced) = {[str "p-1"]} /\ dom (plane expired_agent) = ∅ /\ dom (plane reissued) = ∅ /\
  codes reissued = [[]; str "duplicate_noop"].
Proof. split_and!; try (apply (bool_decide_unpack _); vm_compute; exact I). Qed.

(** On the topic of the policies 64 zeros are a signature; on the one of the commands they
    are not. *)
Example unsigned_enforced :
  dom (plane (demo_run [message_at 1001 policy_topic (unsigned_message x00)] demo_start)) = {[str "p-1"]} /\
  dom (plane (demo_run [message_at 1001 command_topic (unsigned_message x00)] demo_start)) = ∅.
Proof. split; apply (bool_decide_unpack _); vm_compute; exact I. Qed.

(** A command is the commit of its policy; the deadline for policies without one takes it
    out all the same, before its own time is over. *)
Definition committed : Agent := demo_run [message_at 2601 command_topic (signed_message x10)] demo_start.
Example committed_expires :
  dom (plane committed) = {[str "p-1"]} /\
  (expiry_of (time_Unix 2607) <$> records (store committed) !! str "p-1") = Some (Some PreConsensusTTL) /\
  dom (plane (demo_run [OSchedule (demo_turn 2607)] committed)) = ∅.
Proof. split_and!; [apply (bool_decide_unpack _); vm_compute; exact I|vm_compute; reflexivity|apply (bool_decide_unpack _); vm_compute; exact I]. Qed.

(** A fast mitigation takes the place of a committed policy and is over a minute later. *)
Definition fast_nonce : bytes := replicate 16 x05.
Definition fast_sign_bytes (ts : Z) : bytes :=
  buildFastSignBytes (str "m-1") (str "p-1") (str "drop") (str "block") ts demo_key fast_nonce (sha256 (demo_rule "")).
Definition fast_message (ts : Z) : bytes :=
  let q := quoted_text in
  q "{'schema_version':'control.fast_mitigation.v1','mitigation_id':'m-1','policy_id':'p-1','action':'drop','rule_type':'block','alg':'Ed25519','payload':{},'timestamp':" ++
  Itoa ts ++ q ",'content_hash':'" ++ hex (sha256 (demo_rule "")) ++ q "','nonce':'" ++ hex fast_nonce ++ q "','pubkey':'" ++ hex demo_key ++
  q "','producer_id':'" ++ hex demo_key ++ q "','signature':'" ++ hex (demo_sign demo_key (FastMitigationDomain ++ fast_sign_bytes ts)) ++ q "'}".
Definition mitigated : Agent := demo_run [OFast (demo_answers 2603) (fast_message 2602)] committed.
Example fast_replaces :
  (PreConsensus <$> records (store committed) !! str "p-1") = Some (time_Unix 2606) /\
  (PreConsensus <$> records (store mitigated) !! str "p-1") = Some zero_time /\
  (Provisional <$> records (store mitigated) !! str "p-1") = Some true /\
  (ExpiresAt <$> records (store mitigated) !! str "p-1") = Some (time_Unix 2663) /\ codes mitigated = [[]; []].
Proof. vm_compute. by split_and!. Qed.
