(* ===== verification/PersistWorker.v ===== *)
(** backend/pkg/wiring/persistence_worker.go: the queue of committed blocks, the retry
    loop that writes them to the database, and the goroutines that share the queue. *)
From S2P Require Import Prelude Bytes Sha256 GoTime Codec Merkle Store Executor Messages Block.
Import Codec Model.

Definition maxAttemptTimeout : Z := 120 * Second.

(** ** State *)

(** [PersistenceTask]; its block is never nil, since [onCommit] makes every task. *)
Record PersistenceTask := MkTask {
  t_Block : AppBlock; t_Receipts : list Receipt; t_StateRoot : bytes; t_QCData : bytes; Attempt : Z }.

Record persistenceTaskKey := MkKey { k_Height : Z; k_Hash : BlockHash }.
#[export] Instance persistenceTaskKey_eq_dec : EqDecision persistenceTaskKey.
Proof. solve_decision. Defined.
#[export] Instance persistenceTaskKey_countable : Countable persistenceTaskKey.
Proof. refine (inj_countable' (fun k => (k_Height k, k_Hash k)) (fun p => MkKey p.1 p.2) _). by intros []. Defined.

Definition persistenceKey (t : PersistenceTask) : persistenceTaskKey := MkKey (Block.height (t_Block t)) (hash (t_Block t)).

Record PersistenceWorkerConfig := MkWorkerConfig {
  QueueSize : Z; RetryMax : Z; RetryBackoffMS : Z; MaxBackoffMS : Z;
  AttemptTimeout : Z; TotalBudget : Z; WorkerCount : Z; ShutdownTimeout : Z }.

(** The defaults [NewPersistenceWorker] applies. *)
Definition worker_config (cfg : PersistenceWorkerConfig) : PersistenceWorkerConfig :=
  let attempt := if AttemptTimeout cfg <=? 0 then 25 * Second else AttemptTimeout cfg in
  let budget := if TotalBudget cfg <=? 0 then 75 * Second else TotalBudget cfg in
  MkWorkerConfig (if QueueSize cfg <=? 0 then 1000 else QueueSize cfg)
    (if RetryMax cfg <=? 0 then 3 else RetryMax cfg)
    (if RetryBackoffMS cfg <=? 0 then 100 else RetryBackoffMS cfg)
    (if MaxBackoffMS cfg <=? 0 then 5000 else MaxBackoffMS cfg)
    (if maxAttemptTimeout <? attempt then maxAttemptTimeout else attempt)
    (if maxAttemptTimeout <? budget then maxAttemptTimeout else budget)
    (if WorkerCount cfg <=? 0 then 1 else WorkerCount cfg)
    (if ShutdownTimeout cfg =? 0 then 30 * Second else ShutdownTimeout cfg).

(** The shared state; the counters wrap at 64 bits. [stopped] says that [stopCh] is
    closed, which it stays. *)
Record PersistenceWorker := MkWorker {
  wcfg : PersistenceWorkerConfig; queue : list PersistenceTask; stopped : bool; running : bool;
  taskCount : Z; errorCount : Z; deduped : Z; inflight : gset persistenceTaskKey; enqueueInFlight : Z;
  writerProposerOnly : bool; writerNodeID : ValidatorID; writerPolicyConfigured : bool;
  executeProposer : Z; executeNonProposer : Z; executeDroppedNonOwnerTotal : Z;
  totalBudgetExhausted : Z; attemptTimeoutCapped : Z }.

Definition NewPersistenceWorker (cfg : PersistenceWorkerConfig) : PersistenceWorker :=
  MkWorker (worker_config cfg) [] false false 0 0 0 ∅ 0 false zero32 false 0 0 0 0 0.

Definition with_queue (q : list PersistenceTask) (w : PersistenceWorker) : PersistenceWorker :=
  MkWorker (wcfg w) q (stopped w) (running w) (taskCount w) (errorCount w) (deduped w) (inflight w) (enqueueInFlight w)
    (writerProposerOnly w) (writerNodeID w) (writerPolicyConfigured w) (executeProposer w) (executeNonProposer w)
    (executeDroppedNonOwnerTotal w) (totalBudgetExhausted w) (attemptTimeoutCapped w).
Definition with_running (stop run : bool) (w : PersistenceWorker) : PersistenceWorker :=
  MkWorker (wcfg w) (queue w) stop run (taskCount w) (errorCount w) (deduped w) (inflight w) (enqueueInFlight w)
    (writerProposerOnly w) (writerNodeID w) (writerPolicyConfigured w) (executeProposer w) (executeNonProposer w)
    (executeDroppedNonOwnerTotal w) (totalBudgetExhausted w) (attemptTimeoutCapped w).
Definition with_inflight (s : gset persistenceTaskKey) (w : PersistenceWorker) : PersistenceWorker :=
  MkWorker (wcfg w) (queue w) (stopped w) (running w) (taskCount w) (errorCount w) (deduped w) s (enqueueInFlight w)
    (writerProposerOnly w) (writerNodeID w) (writerPolicyConfigured w) (executeProposer w) (executeNonProposer w)
    (executeDroppedNonOwnerTotal w) (totalBudgetExhausted w) (attemptTimeoutCapped w).
Definition count_entering (n : Z) (w : PersistenceWorker) : PersistenceWorker :=
  MkWorker (wcfg w) (queue w) (stopped w) (running w) (taskCount w) (errorCount w) (deduped w) (inflight w) (enqueueInFlight w + n)
    (writerProposerOnly w) (writerNodeID w) (writerPolicyConfigured w) (executeProposer w) (executeNonProposer w)
    (executeDroppedNonOwnerTotal w) (totalBudgetExhausted w) (attemptTimeoutCapped w).
Definition incrementDeduped (w : PersistenceWorker) : PersistenceWorker :=
  MkWorker (wcfg w) (queue w) (stopped w) (running w) (taskCount w) (errorCount w) (u64 (deduped w + 1)) (inflight w) (enqueueInFlight w)
    (writerProposerOnly w) (writerNodeID w) (writerPolicyConfigured w) (executeProposer w) (executeNonProposer w)
    (executeDroppedNonOwnerTotal w) (totalBudgetExhausted w) (attemptTimeoutCapped w).
Definition incrementTaskCount (w : PersistenceWorker) : PersistenceWorker :=
  MkWorker (wcfg w) (queue w) (stopped w) (running w) (u64 (taskCount w + 1)) (errorCount w) (deduped w) (inflight w) (enqueueInFlight w)
    (writerProposerOnly w) (writerNodeID w) (writerPolicyConfigured w) (executeProposer w) (executeNonProposer w)
    (executeDroppedNonOwnerTotal w) (totalBudgetExhausted w) (attemptTimeoutCapped w).
Definition incrementErrorCount (w : PersistenceWorker) : PersistenceWorker :=
  MkWorker (wcfg w) (queue w) (stopped w) (running w) (taskCount w) (u64 (errorCount w + 1)) (deduped w) (inflight w) (enqueueInFlight w)
    (writerProposerOnly w) (writerNodeID w) (writerPolicyConfigured w) (executeProposer w) (executeNonProposer w)
    (executeDroppedNonOwnerTotal w) (totalBudgetExhausted w) (attemptTimeoutCapped w).
Definition count_execution (p n d : Z) (w : PersistenceWorker) : PersistenceWorker :=
  MkWorker (wcfg w) (queue w) (stopped w) (running w) (taskCount w) (errorCount w) (deduped w) (inflight w) (enqueueInFlight w)
    (writerProposerOnly w) (writerNodeID w) (writerPolicyConfigured w) (u64 (executeProposer w + p)) (u64 (executeNonProposer w + n))
    (u64 (executeDroppedNonOwnerTotal w + d)) (totalBudgetExhausted w) (attemptTimeoutCapped w).
Definition count_budget (exhausted capped : Z) (w : PersistenceWorker) : PersistenceWorker :=
  MkWorker (wcfg w) (queue w) (stopped w) (running w) (taskCount w) (errorCount w) (deduped w) (inflight w) (enqueueInFlight w)
    (writerProposerOnly w) (writerNodeID w) (writerPolicyConfigured w) (executeProposer w) (executeNonProposer w)
    (executeDroppedNonOwnerTotal w) (u64 (totalBudgetExhausted w + exhausted)) (u64 (attemptTimeoutCapped w + capped)).

Definition SetWriterPolicy (proposerOnly : bool) (nodeID : ValidatorID) (w : PersistenceWorker) : PersistenceWorker :=
  MkWorker (wcfg w) (queue w) (stopped w) (running w) (taskCount w) (errorCount w) (deduped w) (inflight w) (enqueueInFlight w)
    proposerOnly nodeID true (executeProposer w) (executeNonProposer w)
    (executeDroppedNonOwnerTotal w) (totalBudgetExhausted w) (attemptTimeoutCapped w).

Definition GetExecutionStats (w : PersistenceWorker) : Z * Z * Z :=
  (executeProposer w, executeNonProposer w, executeDroppedNonOwnerTotal w).
Definition GetBudgetStats (w : PersistenceWorker) : Z * Z := (totalBudgetExhausted w, attemptTimeoutCapped w).
Definition GetQueueStats (w : PersistenceWorker) : Z * Z := (len (queue w), QueueSize (wcfg w)).

(** ** Starting, stopping and enqueueing *)

Inductive worker_error := ErrAlreadyRunning | ErrNotRunning | ErrEnqueueTimeout | ErrWorkerStopped | PanicClosed.
#[export] Instance worker_error_eq_dec : EqDecision worker_error.
Proof. solve_decision. Defined.

Definition WM (A : Type) : Type := ST PersistenceWorker worker_error A.

(** [Start] without the goroutines it starts. *)
Definition Start : WM unit :=
  run ← gets running;
  fail_if run ErrAlreadyRunning ;;
  modify (fun w => with_running (stopped w) true w).

(** [Stop] up to the wait: closing [stopCh] a second time panics. *)
Definition Stop : WM unit :=
  run ← gets running;
  if negb run then mret tt
  else
    modify (fun w => with_running (stopped w) false w) ;;
    closed ← gets stopped;
    fail_if closed PanicClosed ;;
    modify (fun w => with_running true (running w) w).

Definition releaseInflightKey (key : persistenceTaskKey) (w : PersistenceWorker) : PersistenceWorker :=
  with_inflight (inflight w ∖ {[key]}) w.

(** [Enqueue] up to its [select]: whether it goes on to send. *)
Definition enqueue_begin (task : PersistenceTask) : WM bool :=
  run ← gets running;
  fail_if (negb run) ErrNotRunning ;;
  known ← gets inflight;
  if decide (persistenceKey task ∈ known) then modify incrementDeduped ;; mret false
  else
    modify (fun w => with_inflight ({[persistenceKey task]} ∪ inflight w) w) ;;
    modify (count_entering 1) ;;
    mret true.

(** The case the [select] takes. *)
Inductive send_outcome := Sent | TimedOut | SeenStopped.
#[export] Instance send_outcome_eq_dec : EqDecision send_outcome.
Proof. solve_decision. Defined.

Definition enqueue_end (task : PersistenceTask) (o : send_outcome) : WM unit :=
  fun w =>
    match o with
    | Sent => (Ok tt, count_entering (-1) (incrementTaskCount (with_queue (queue w ++ [task]) w)))
    | TimedOut => (Err ErrEnqueueTimeout, count_entering (-1) (releaseInflightKey (persistenceKey task) w))
    | SeenStopped => (Err ErrWorkerStopped, count_entering (-1) (releaseInflightKey (persistenceKey task) w))
    end.

(** The cases that are ready: a send needs room in the channel. *)
Definition send_ready (o : send_outcome) (w : PersistenceWorker) : bool :=
  match o with
  | Sent => len (queue w) <? QueueSize (wcfg w)
  | TimedOut => true
  | SeenStopped => stopped w
  end.

(** A whole call that nothing interleaves with. *)
Definition Enqueue (task : PersistenceTask) (o : send_outcome) : WM unit :=
  go ← enqueue_begin task;
  if go : bool then enqueue_end task o else mret tt.

(** ** The retry loop *)

Definition isZeroValidatorID (v : ValidatorID) : bool := forallb (fun b => bool_decide (b = x00)) v.

Inductive writer_role := RoleProposer | RoleNonProposer | RoleUnknown.
#[export] Instance writer_role_eq_dec : EqDecision writer_role.
Proof. solve_decision. Defined.

Definition shouldExecuteTask (task : PersistenceTask) (w : PersistenceWorker) : bool * writer_role :=
  let proposer := proposerID (t_Block task) in
  let isProposer := bool_decide (writerNodeID w = proposer) in
  let role := if isProposer then RoleProposer else RoleNonProposer in
  if isZeroValidatorID proposer then (false, RoleUnknown)
  else if negb (writerProposerOnly w) then (true, role)
  else if negb (writerPolicyConfigured w) then (false, role)
  else if negb isProposer then (false, role)
  else (true, RoleProposer).

Definition effectiveAttemptTimeout (cfg : PersistenceWorkerConfig) (task : PersistenceTask) (attempt : Z) : Z :=
  let timeout := if AttemptTimeout cfg <=? 0 then 25 * Second else AttemptTimeout cfg in
  let n := txCount (t_Block task) in
  let timeout :=
    if 0 <? n then
      let policyCount := len (filter (fun tx => Type_ tx = TxPolicy) (txs (t_Block task))) in
      timeout + Z.min (n * 30) 45000 * Millisecond +
        (if 0 <? policyCount then Z.min (policyCount * 120) 60000 * Millisecond else 0)
    else timeout in
  let timeout := if (RetryMax cfg - 1 <=? attempt) && (1 <? RetryMax cfg) then timeout + 10 * Second else timeout in
  if maxAttemptTimeout <? timeout then maxAttemptTimeout else timeout.

(** What [PersistBlock] returned, as [errors.Is] and [IsRetryable] see it. *)
Inductive persist_outcome := PersistOK | PersistIntegrity | PersistRetryable | PersistOther.

(** One turn of the loop: the readings of the clock at its checks, the answer of the
    database, the jitter drawn, and whether the wait before the next turn ran out. *)
Record turn := MkTurn {
  at_check : Time; at_cap : Time; answer : persist_outcome; at_retry : Time; jitter : Z; waited : bool }.

Inductive verdict := Persisted | BudgetExhausted | IntegrityViolation | NonRetryable | RetryExhausted | Interrupted | NoAttempt.
#[export] Instance verdict_eq_dec : EqDecision verdict.
Proof. solve_decision. Defined.

(** [withRetryJitter]; the draw is reduced to its range. *)
Definition withRetryJitter (backoff draw : Z) : Z :=
  if backoff <=? 0 then 0
  else
    let maxJitter := Z.quot backoff 5 in
    if maxJitter <=? 0 then backoff else backoff + draw mod (maxJitter + 1).

(** A call of [PersistBlock] with its start and timeout, and a wait. *)
Inductive io := Call (attempt : Z) (start : Time) (timeout : Z) | Wait (delay : Z).

(** [time.Until] the deadline of the budget, if there is one. *)
Definition remaining (deadline : option Time) (now : Time) : Z :=
  match deadline with Some d => Sub d now | None => MaxInt64 end.

(** The loop from [attempt] on, over the turns the environment plays; [None] when it
    would need more of them. The result has the calls and waits in order. *)
Fixpoint attempts (cfg : PersistenceWorkerConfig) (deadline : option Time) (task : PersistenceTask) (attempt backoff : Z)
  (turns : list turn) (w : PersistenceWorker) : option (list io * verdict * PersistenceWorker) :=
  if RetryMax cfg <=? attempt then Some ([], NoAttempt, w)
  else
    match turns with
    | [] => None
    | t :: turns' =>
        let surrender v w := Some ([], v, incrementErrorCount w) in
        let left_at := remaining deadline in
        let budgeted := bool_decide (deadline <> None) in
        if budgeted && (left_at (at_check t) <=? 0) then surrender BudgetExhausted (count_budget 1 0 w)
        else
          let full := effectiveAttemptTimeout cfg task attempt in
          let capped := budgeted && (left_at (at_cap t) <? full) in
          let timeout := if capped then left_at (at_cap t) else full in
          let w := if capped then count_budget 0 1 w else w in
          if timeout <=? 0 then surrender BudgetExhausted (count_budget 1 0 w)
          else
            let call := Call (attempt + 1) (at_cap t) timeout in
            let stop v w := Some ([call], v, w) in
            match answer t with
            | PersistOK => stop Persisted w
            | PersistIntegrity => stop IntegrityViolation (incrementErrorCount w)
            | PersistOther => stop NonRetryable (incrementErrorCount w)
            | PersistRetryable =>
                if negb (attempt <? RetryMax cfg - 1) then stop RetryExhausted (incrementErrorCount w)
                else
                  let delay := withRetryJitter backoff (jitter t) in
                  if budgeted && (left_at (at_retry t) <=? 0) then stop BudgetExhausted (incrementErrorCount (count_budget 1 0 w))
                  else
                    let delay := if budgeted && (left_at (at_retry t) <? delay) then left_at (at_retry t) else delay in
                    if negb (waited t) then Some ([call; Wait delay], Interrupted, w)
                    else
                      let backoff := Z.min (backoff * 2) (MaxBackoffMS cfg * Millisecond) in
                      match attempts cfg deadline task (attempt + 1) backoff turns' w with
                      | Some (l, v, w') => Some (call :: Wait delay :: l, v, w')
                      | None => None
                      end
            end
    end.

(** [processTask] at time [now], from the checks to the release of the key; [None]
    in the verdict's place says that the ownership guard dropped the task. *)
Definition processTask (task : PersistenceTask) (now : Time) (turns : list turn) (w : PersistenceWorker)
  : option (list io * option verdict * PersistenceWorker) :=
  let key := persistenceKey task in
  let '(allowed, role) := shouldExecuteTask task w in
  if negb allowed then Some ([], None, releaseInflightKey key (count_execution 0 0 1 w))
  else
    let w := match role with
             | RoleProposer => count_execution 1 0 0 w
             | RoleNonProposer => count_execution 0 1 0 w
             | RoleUnknown => w
             end in
    let cfg := wcfg w in
    let deadline := if 0 <? TotalBudget cfg then Some (GoTime.Add now (TotalBudget cfg)) else None in
    match attempts cfg deadline task (Attempt task) (RetryBackoffMS cfg * Millisecond) turns w with
    | Some (l, v, w) => Some (l, Some v, releaseInflightKey key w)
    | None => None
    end.

(** ** The goroutines around the worker *)

(** Where a worker goroutine stands. A [Draining] one has seen [stopCh] closed and then
    an empty queue, and is about to read [enqueueInFlight]. *)
Inductive phase := Idle | Busy (t : PersistenceTask) | Draining | Exited.

(** The shared state, the calls of [Enqueue] that are at their [select], and the
    worker goroutines. *)
Record system := MkSystem { shared : PersistenceWorker; entering : list PersistenceTask; goroutines : list phase }.

Definition busy (l : list phase) : list PersistenceTask := omap (fun p => match p with Busy t => Some t | _ => None end) l.

(** One critical section or channel operation of one goroutine. The counters a task
    moves while it is processed are taken at its end. *)
Inductive step : system -> system -> Prop :=
| step_start w w' es gs : Start w = (Ok tt, w') ->
    step (MkSystem w es gs) (MkSystem w' es (gs ++ replicate (Z.to_nat (WorkerCount (wcfg w))) Idle))
| step_stop w r w' es gs : Stop w = (r, w') -> step (MkSystem w es gs) (MkSystem w' es gs)
| step_policy w b id es gs : step (MkSystem w es gs) (MkSystem (SetWriterPolicy b id w) es gs)
| step_enter t w w' es gs : enqueue_begin t w = (Ok true, w') -> step (MkSystem w es gs) (MkSystem w' (t :: es) gs)
| step_known t w w' es gs : enqueue_begin t w = (Ok false, w') -> step (MkSystem w es gs) (MkSystem w' es gs)
| step_send t o w w' r es1 es2 gs : send_ready o w = true -> enqueue_end t o w = (r, w') ->
    step (MkSystem w (es1 ++ t :: es2) gs) (MkSystem w' (es1 ++ es2) gs)
| step_take i t q w es gs : gs !! i = Some Idle -> queue w = t :: q ->
    step (MkSystem w es gs) (MkSystem (with_queue q w) es (<[i := Busy t]> gs))
| step_done i t now turns l v w w' es gs : gs !! i = Some (Busy t) -> processTask t now turns w = Some (l, v, w') ->
    step (MkSystem w es gs) (MkSystem w' es (<[i := Idle]> gs))
| step_see_empty i w es gs : gs !! i = Some Idle -> stopped w = true -> queue w = [] ->
    step (MkSystem w es gs) (MkSystem w es (<[i := Draining]> gs))
| step_check_entering i w es gs : gs !! i = Some Draining ->
    step (MkSystem w es gs) (MkSystem w es (<[i := if 0 <? enqueueInFlight w then Idle else Exited]> gs)).

Definition initial (cfg : PersistenceWorkerConfig) : system := MkSystem (NewPersistenceWorker cfg) [] [].
Definition reachable (cfg : PersistenceWorkerConfig) : system -> Prop := rtc step (initial cfg).

(** ** Processing a task *)

(** Only the counters move. *)
Definition same_queue (w w' : PersistenceWorker) : Prop :=
  wcfg w' = wcfg w /\ queue w' = queue w /\ stopped w' = stopped w /\ running w' = running w /\
  inflight w' = inflight w /\ enqueueInFlight w' = enqueueInFlight w.

#[export] Instance same_queue_preorder : PreOrder same_queue.
Proof. unfold same_queue. split; [done|]. intros a b d H H'. intuition congruence. Qed.

Create HintDb worker.
Lemma incrementErrorCount_same w : same_queue w (incrementErrorCount w). Proof. done. Qed.
Lemma count_budget_same a b w : same_queue w (count_budget a b w). Proof. done. Qed.
Lemma count_execution_same a b d w : same_queue w (count_execution a b d w). Proof. done. Qed.
#[export] Hint Resolve incrementErrorCount_same count_budget_same count_execution_same : worker.

Section retry.
Context (cfg : PersistenceWorkerConfig) (deadline : option Time) (task : PersistenceTask).
#[local] Abbreviation run := (attempts cfg deadline task).

(** A call starts within the budget and gets no more than what is left of it; a wait
    is at most the backoff with its jitter. *)
Definition io_ok (cap : Z) (x : io) : Prop :=
  match x with
  | Call a start timeout => 1 <= a <= RetryMax cfg /\ 0 < timeout <= maxAttemptTimeout /\
      match deadline with Some d => timeout <= Sub d start | None => True end
  | Wait delay => 0 <= delay <= cap + cap / 5
  end.

Definition calls (l : list io) : list Z := omap (fun x => match x with Call a _ _ => Some a | Wait _ => None end) l.

Lemma effectiveAttemptTimeout_max attempt : effectiveAttemptTimeout cfg task attempt <= maxAttemptTimeout.
Proof. unfold effectiveAttemptTimeout. cbv zeta. case_match; go_bool; lia. Qed.

Lemma withRetryJitter_bound backoff draw cap : 0 <= backoff <= cap -> 0 <= withRetryJitter backoff draw <= cap + cap / 5.
Proof.
  intros [H1 H2]. pose proof (Z.div_pos cap 5 ltac:(lia) ltac:(lia)).
  unfold withRetryJitter. destruct (Z.leb_spec backoff 0); [lia|].
  rewrite Z.quot_div_nonneg by lia. pose proof (Z.div_le_mono backoff cap 5 ltac:(lia) H2).
  destruct (Z.leb_spec (backoff / 5) 0); [lia|].
  pose proof (Z.mod_pos_bound draw (backoff / 5 + 1) ltac:(lia)). lia.
Qed.

(** What a run of the loop from [attempt] on leaves behind. *)
Definition attempts_ok (cap attempt : Z) (w : PersistenceWorker) (r : list io * verdict * PersistenceWorker) : Prop :=
  let '(l, v, w') := r in
  Forall (io_ok cap) l /\ same_queue w w' /\ calls l = seqZ (attempt + 1) (len (calls l)) /\
  len (calls l) <= Z.max 0 (RetryMax cfg - attempt) /\ (v = NoAttempt -> RetryMax cfg <= attempt).

Lemma attempts_ok_nil cap attempt w v w' : same_queue w w' -> (v = NoAttempt -> RetryMax cfg <= attempt) ->
  attempts_ok cap attempt w ([], v, w').
Proof. intros H Hv. cbn. split_and!; [constructor|done|done|unfold len; cbn; lia|done]. Qed.

Lemma attempts_ok_call cap attempt start timeout w v w' l : attempt < RetryMax cfg ->
  io_ok cap (Call (attempt + 1) start timeout) -> same_queue w w' -> v <> NoAttempt -> Forall (io_ok cap) l -> calls l = [] ->
  attempts_ok cap attempt w (Call (attempt + 1) start timeout :: l, v, w').
Proof.
  intros Ha Hio Hs Hv Hl Hc. unfold attempts_ok. change (calls (Call _ _ _ :: l)) with ((attempt + 1) :: calls l). rewrite Hc.
  split_and!; [by constructor|done|done|unfold len; cbn; lia|done].
Qed.

Lemma attempts_ok_cons cap attempt start timeout delay w w1 r : attempt < RetryMax cfg ->
  io_ok cap (Call (attempt + 1) start timeout) -> io_ok cap (Wait delay) -> same_queue w w1 ->
  (RetryMax cfg <= attempt + 1 -> False) -> attempts_ok cap (attempt + 1) w1 r ->
  attempts_ok cap attempt w (Call (attempt + 1) start timeout :: Wait delay :: r.1.1, r.1.2, r.2).
Proof.
  intros Ha Hio Hw Hs Hmore. destruct r as [[l v] w']. unfold attempts_ok. cbn [fst snd].
  change (calls (Call _ _ _ :: Wait _ :: l)) with ((attempt + 1) :: calls l). intros (H1 & H2 & H3 & H4 & H5).
  split_and!.
  - constructor; [exact Hio|]. by constructor.
  - by etrans.
  - rewrite (seqZ_cons (attempt + 1)) by (unfold len; cbn [length]; lia). f_equal. rewrite H3 at 1.
    f_equal. unfold len. cbn [length]. lia.
  - unfold len in *. cbn [length]. lia.
  - intros Hv. exfalso. auto.
Qed.

Lemma attempts_spec cap attempt backoff turns w :
  0 <= attempt -> 0 <= backoff <= cap -> 0 <= MaxBackoffMS cfg * Millisecond <= cap ->
  match run attempt backoff turns w with
  | Some r => attempts_ok cap attempt w r
  | None => len turns < RetryMax cfg - attempt
  end.
Proof.
  intros Ha Hb Hcap. revert attempt backoff w Ha Hb. induction turns as [|t turns IH]; intros attempt backoff w Ha Hb; cbn [attempts].
  { destruct (Z.leb_spec (RetryMax cfg) attempt); [by apply attempts_ok_nil|unfold len; cbn; lia]. }
  destruct (Z.leb_spec (RetryMax cfg) attempt); [by apply attempts_ok_nil|]. cbv zeta.
  set (left_at := remaining deadline).
  set (budgeted := bool_decide (deadline <> None)).
  destruct (budgeted && (left_at (at_check t) <=? 0)); [apply attempts_ok_nil; eauto with worker; done|].
  set (full := effectiveAttemptTimeout cfg task attempt).
  set (capped := budgeted && (left_at (at_cap t) <? full)).
  set (timeout := if capped then left_at (at_cap t) else full).
  set (w1 := if capped then count_budget 0 1 w else w).
  assert (Hw1 : same_queue w w1) by (unfold w1; destruct capped; done).
  destruct (Z.leb_spec timeout 0); [apply attempts_ok_nil; [etrans; [exact Hw1|done]|done]|].
  assert (Hio : io_ok cap (Call (attempt + 1) (at_cap t) timeout)).
  { cbn. pose proof (effectiveAttemptTimeout_max attempt). fold full in H1.
    assert (Hle : timeout <= full /\ match deadline with Some d => timeout <= Sub d (at_cap t) | None => True end).
    { unfold timeout, capped, budgeted, left_at. destruct deadline as [d|]; [|rewrite bool_decide_false by tauto; cbn; lia].
      rewrite bool_decide_true by done. cbn [remaining andb]. destruct (Z.ltb_spec (Sub d (at_cap t)) full); lia. }
    destruct Hle. split_and!; [lia..|done]. }
  assert (Hstop : forall v w2, same_queue w1 w2 -> v <> NoAttempt ->
    attempts_ok cap attempt w ([Call (attempt + 1) (at_cap t) timeout], v, w2)).
  { intros v w2 Hs Hv. apply attempts_ok_call; try done. by etrans. }
  destruct (answer t); [by apply Hstop..| |by apply Hstop].
  destruct (Z.ltb_spec attempt (RetryMax cfg - 1)); cbn [negb]; [|by apply Hstop].
  destruct (budgeted && (left_at (at_retry t) <=? 0)) eqn:Hret; [by apply Hstop|].
  set (d0 := withRetryJitter backoff (jitter t)).
  set (delay := if budgeted && (left_at (at_retry t) <? d0) then left_at (at_retry t) else d0).
  assert (Hdelay : io_ok cap (Wait delay)).
  { cbn. pose proof (withRetryJitter_bound backoff (jitter t) cap Hb). fold d0 in H2. unfold delay.
    destruct budgeted; cbn [andb] in *; [|lia]. go_bool. destruct (Z.ltb_spec (left_at (at_retry t)) d0); lia. }
  destruct (waited t); cbn [negb]; [|apply attempts_ok_call; try done; constructor; [exact Hdelay|constructor]].
  specialize (IH (attempt + 1) (Z.min (backoff * 2) (MaxBackoffMS cfg * Millisecond)) w1 ltac:(lia) ltac:(lia)).
  destruct (run (attempt + 1) _ turns w1) as [[[l v] w2]|]; [|unfold len in *; cbn [length]; lia].
  by apply (attempts_ok_cons cap attempt (at_cap t) timeout delay w w1 (l, v, w2)); try done; lia.
Qed.
End retry.

(** ** Properties of the retry loop *)

(** A worker configuration as [NewPersistenceWorker] leaves it. *)
Definition config_ok (cfg : PersistenceWorkerConfig) : Prop :=
  0 < RetryMax cfg /\ 0 <= RetryBackoffMS cfg /\ 0 <= MaxBackoffMS cfg /\ 0 < TotalBudget cfg <= maxAttemptTimeout /\ 0 < QueueSize cfg.

Lemma worker_config_ok cfg : config_ok (worker_config cfg).
Proof.
  unfold config_ok, worker_config. cbn [RetryMax RetryBackoffMS MaxBackoffMS TotalBudget QueueSize].
  assert (0 < maxAttemptTimeout /\ 75 * Second <= maxAttemptTimeout) as [? ?] by (vm_compute; split; congruence).
  assert (0 < 75 * Second) by (vm_compute; congruence).
  split_and!; repeat case_match; go_bool; lia.
Qed.

Definition longest_backoff (cfg : PersistenceWorkerConfig) : Z := Z.max (RetryBackoffMS cfg) (MaxBackoffMS cfg) * Millisecond.

(** C29. Whatever the database answers and the clock shows, a task is done after at most
    [RetryMax] turns: its attempts are numbered from the first on, each gets a positive
    timeout of at most two minutes that does not run past the budget's deadline, the
    waits are at most 6/5 of the longest backoff, and its key is released. *)
Theorem processTask_ends (w : PersistenceWorker) (task : PersistenceTask) (now : Time) (turns : list turn)
  (Hw : config_ok (wcfg w)) (Ht : Attempt task = 0) (Hlen : RetryMax (wcfg w) <= len turns) :
  exists l v w', processTask task now turns w = Some (l, v, w') /\
    Forall (io_ok (wcfg w) (Some (GoTime.Add now (TotalBudget (wcfg w)))) (longest_backoff (wcfg w))) l /\
    calls l = seqZ 1 (len (calls l)) /\ len (calls l) <= RetryMax (wcfg w) /\ v <> Some NoAttempt /\
    persistenceKey task ∉ inflight w'.
Proof.
  destruct Hw as (H1 & H2 & H3 & [H4 _] & _). unfold processTask.
  destruct (shouldExecuteTask task w) as [[] role]; cbn [negb].
  2: { do 3 eexists. split; [reflexivity|]. cbn. split_and!; [constructor|done|unfold len; cbn; lia|done|set_solver]. }
  set (w1 := match role with RoleProposer => _ | _ => _ end).
  assert (Hs : same_queue w w1) by (unfold w1; destruct role; done).
  assert (Hc : wcfg w1 = wcfg w) by apply Hs. rewrite Hc, Ht. apply Z.ltb_lt in H4. rewrite H4.
  pose proof (attempts_spec (wcfg w) (Some (GoTime.Add now (TotalBudget (wcfg w)))) task (longest_backoff (wcfg w)) 0
                (RetryBackoffMS (wcfg w) * Millisecond) turns w1) as H.
  unfold longest_backoff, Millisecond in *. specialize (H ltac:(lia) ltac:(lia) ltac:(lia)).
  destruct (attempts _ _ _ _ _ _ _) as [[[l v] w2]|]; [|lia]. destruct H as (Ha & Hb & Hd & He & Hf).
  do 3 eexists. split; [reflexivity|]. split_and!; [done|by rewrite Hd at 1|lia| |cbn; set_solver].
  intros [= ->]. specialize (Hf eq_refl). lia.
Qed.

(** ** Properties of the goroutines *)

(** The tasks somebody is about to enqueue, that are queued, or that are being written. *)
Definition held (s : system) : list PersistenceTask := entering s ++ queue (shared s) ++ busy (goroutines s).

Lemma busy_insert gs i p p' : gs !! i = Some p ->
  busy (<[i := p']> gs) ++ busy [p] ≡ₚ busy [p'] ++ busy gs.
Proof.
  intros H. pose proof (lookup_lt_Some _ _ _ H) as Hi. rewrite insert_take_drop by done.
  rewrite <- (take_drop_middle gs i p H) at 3. unfold busy. rewrite !omap_app.
  change (omap ?f (?x :: ?l)) with (omap f ([x] ++ l)). rewrite !omap_app. solve_Permutation.
Qed.

Record system_ok (cfg : PersistenceWorkerConfig) (s : system) : Prop := {
  sys_keys : NoDup (persistenceKey <$> held s);
  sys_inflight k : k ∈ inflight (shared s) <-> k ∈ persistenceKey <$> held s;
  sys_entering : enqueueInFlight (shared s) = len (entering s);
  sys_queue : len (queue (shared s)) <= QueueSize (wcfg (shared s));
  sys_cfg : wcfg (shared s) = worker_config cfg }.

(** Only the order of what is held changes. *)
Lemma system_ok_perm cfg s s' : held s' ≡ₚ held s -> inflight (shared s') = inflight (shared s) ->
  wcfg (shared s') = wcfg (shared s) -> enqueueInFlight (shared s') = len (entering s') ->
  len (queue (shared s')) <= QueueSize (wcfg (shared s)) -> system_ok cfg s -> system_ok cfg s'.
Proof.
  intros Hh Hi Hc He Hq [H1 H2 H3 H4 H5]. constructor; [by rewrite Hh|intros k; by rewrite Hi, Hh|done|by rewrite Hc|congruence].
Qed.

(** A task leaves and its key is released. *)
Lemma system_ok_leave cfg s s' t : t :: held s' ≡ₚ held s -> inflight (shared s') = inflight (shared s) ∖ {[persistenceKey t]} ->
  wcfg (shared s') = wcfg (shared s) -> enqueueInFlight (shared s') = len (entering s') ->
  len (queue (shared s')) <= QueueSize (wcfg (shared s)) -> system_ok cfg s -> system_ok cfg s'.
Proof.
  intros Hh Hi Hc He Hq [H1 H2 H3 H4 H5]. rewrite <- Hh in H1. cbn in H1. apply NoDup_cons in H1 as [Hn H1].
  constructor; [done| |done|by rewrite Hc|congruence].
  intros k. rewrite Hi, elem_of_difference, H2, <- Hh, elem_of_singleton. cbn. rewrite elem_of_cons.
  split; [tauto|]. intros Hk. split; [by right|]. by intros ->.
Qed.

Lemma Stop_same w : let w' := (Stop w).2 in
  wcfg w' = wcfg w /\ queue w' = queue w /\ inflight w' = inflight w /\ enqueueInFlight w' = enqueueInFlight w.
Proof.
  cbv [Stop mbind ST_bind mret ST_ret gets modify fail_if].
  destruct (running w); cbn; [|done]. by destruct (stopped w).
Qed.

Lemma enqueue_begin_inv t w b w' : enqueue_begin t w = (Ok b, w') ->
  if b then persistenceKey t ∉ inflight w /\ w' = count_entering 1 (with_inflight ({[persistenceKey t]} ∪ inflight w) w)
  else w' = incrementDeduped w.
Proof.
  cbv [enqueue_begin mbind ST_bind mret ST_ret gets modify fail_if].
  destruct (running w); cbn; [|done]. destruct (decide _); intros [= <- <-]; done.
Qed.

Lemma attempts_same cfg deadline task attempt backoff turns w l v w' :
  attempts cfg deadline task attempt backoff turns w = Some (l, v, w') -> same_queue w w'.
Proof.
  revert attempt backoff w l w'. induction turns as [|t turns IH]; intros attempt backoff w l w'; cbn [attempts];
    (destruct (RetryMax cfg <=? attempt); [by intros [= <- <- <-]|]); [done|]. cbv zeta.
  destruct (_ && _); [by intros [= <- <- <-]|].
  set (w1 := if (_ && _ : bool) then count_budget 0 1 w else w).
  assert (Hw1 : same_queue w w1) by (unfold w1; destruct (_ && _); done). revert Hw1. generalize w1. clear w1. intros w1 Hw1.
  destruct (_ <=? 0); [intros [= <- <- <-]; etrans; [exact Hw1|done]|].
  destruct (answer t); [by intros [= <- <- <-]|intros [= <- <- <-]; etrans; [exact Hw1|done]| |
    intros [= <- <- <-]; etrans; [exact Hw1|done]].
  destruct (negb (attempt <? _)); [intros [= <- <- <-]; etrans; [exact Hw1|done]|].
  destruct (_ && _); [intros [= <- <- <-]; etrans; [exact Hw1|done]|].
  destruct (negb (waited t)); [by intros [= <- <- <-]|].
  destruct (attempts _ _ _ _ _ _ _) as [[[l1 v1] w2]|] eqn:H; [|done]. intros [= <- <- <-]. etrans; [exact Hw1|]. by eapply IH.
Qed.

Lemma processTask_leaves t now turns w l v w' : processTask t now turns w = Some (l, v, w') ->
  exists w1, same_queue w w1 /\ w' = releaseInflightKey (persistenceKey t) w1.
Proof.
  unfold processTask. destruct (shouldExecuteTask t w) as [[] role]; cbn [negb];
    [|intros [= <- <- <-]; by exists (count_execution 0 0 1 w)].
  set (w1 := match role with RoleProposer => _ | _ => _ end).
  assert (Hs : same_queue w w1) by (unfold w1; destruct role; done).
  destruct (attempts _ _ _ _ _ _ _) as [[[l1 v1] w2]|] eqn:H; [|done]. intros [= <- <- <-].
  apply attempts_same in H. exists w2. split; [by etrans|done].
Qed.

Lemma step_ok cfg s s' : step s s' -> system_ok cfg s -> system_ok cfg s'.
Proof.
  intros H Hok. pose proof (sys_entering _ _ Hok) as Hent. pose proof (sys_queue _ _ Hok) as Hque.
  destruct H as [w w' es gs Hr|w r w' es gs Hr|w b id es gs|t w w' es gs Hr|t w w' es gs Hr|t o w w' r es1 es2 gs Hready Hr
    |i t q w es gs Hi Hq|i t now turns l v w w' es gs Hi Hr|i w es gs Hi _ _|i w es gs Hi]; cbn [shared entering goroutines] in *.
  - cbv [Start mbind ST_bind mret ST_ret gets modify fail_if] in Hr. destruct (running w); [done|]. injection Hr as <-.
    refine (system_ok_perm _ _ _ _ _ _ _ _ Hok); [|done..]. unfold held. cbn. unfold busy. rewrite omap_app.
    assert (Hn : forall n, omap (fun p => match p with Busy t => Some t | _ => None end) (replicate n Idle) = [])
      by (by induction n). by rewrite Hn, app_nil_r.
  - pose proof (Stop_same w) as Hs. rewrite Hr in Hs. cbn in Hs. destruct Hs as (H1 & H2 & H3 & H4).
    refine (system_ok_perm _ _ _ _ _ _ _ _ Hok); unfold held; cbn; by rewrite ?H1, ?H2, ?H3, ?H4.
  - by refine (system_ok_perm _ _ _ _ _ _ _ _ Hok).
  - apply enqueue_begin_inv in Hr as [Hnew ->]. destruct Hok as [K1 K2 K3 K4 K5]. cbn in *. constructor; unfold held in *; cbn in *.
    + constructor; [|done]. by rewrite <- K2.
    + intros k. rewrite elem_of_union, elem_of_singleton, K2, elem_of_cons. done.
    + unfold len in *. cbn [length]. lia.
    + done.
    + done.
  - apply enqueue_begin_inv in Hr as ->. by refine (system_ok_perm _ _ _ _ _ _ _ _ Hok).
  - destruct o; cbn in Hr, Hready; injection Hr as <- <-.
    + go_bool. refine (system_ok_perm _ _ _ _ _ _ _ _ Hok); unfold held; cbn; [solve_Permutation|done|done| |].
      * rewrite Hent. unfold len. rewrite !length_app. cbn. lia.
      * unfold len in *. rewrite length_app. cbn. lia.
    + refine (system_ok_leave _ _ _ t _ _ _ _ _ Hok); unfold held; cbn; [solve_Permutation|done|done| |done].
      rewrite Hent. unfold len. rewrite !length_app. cbn. lia.
    + refine (system_ok_leave _ _ _ t _ _ _ _ _ Hok); unfold held; cbn; [solve_Permutation|done|done| |done].
      rewrite Hent. unfold len. rewrite !length_app. cbn. lia.
  - refine (system_ok_perm _ _ _ _ _ _ _ _ Hok); unfold held; cbn; [|done|done|done|].
    + pose proof (busy_insert gs i Idle (Busy t) Hi) as Hb. cbn in Hb. rewrite app_nil_r in Hb. rewrite Hb, Hq. solve_Permutation.
    + rewrite Hq in Hque. unfold len in *. cbn in Hque. lia.
  - apply processTask_leaves in Hr as (w1 & (S1 & S2 & S3 & S4 & S5 & S6) & ->).
    refine (system_ok_leave _ _ _ t _ _ _ _ _ Hok); unfold held; cbn; [|by rewrite S5|done|by rewrite S6|by rewrite S2].
    pose proof (busy_insert gs i (Busy t) Idle Hi) as Hb. cbn in Hb. rewrite S2.
    rewrite <- (Permutation_app_comm [t]) in Hb. cbn in Hb. rewrite <- Hb. solve_Permutation.
  - refine (system_ok_perm _ _ _ _ _ _ _ _ Hok); [|done..]. unfold held. cbn.
    pose proof (busy_insert gs i Idle Draining Hi) as Hb. cbn in Hb. rewrite app_nil_r in Hb. by rewrite Hb.
  - refine (system_ok_perm _ _ _ _ _ _ _ _ Hok); [|done..]. unfold held. cbn.
    pose proof (busy_insert gs i Draining (if 0 <? enqueueInFlight w then Idle else Exited) Hi) as Hb.
    cbn in Hb. rewrite app_nil_r in Hb. rewrite Hb. by destruct (0 <? enqueueInFlight w).
Qed.

Lemma initial_ok cfg : system_ok cfg (initial cfg).
Proof.
  constructor; cbn [initial shared entering goroutines NewPersistenceWorker wcfg queue inflight enqueueInFlight held busy omap app fmap list_fmap];
    try done; [constructor|intros k; set_solver|].
  destruct (worker_config_ok cfg) as (_ & _ & _ & _ & H). unfold len. cbn [length]. lia.
Qed.

(** C28. However the goroutines interleave, a block is in the hands of at most one of them:
    it is being enqueued, queued or written at most once, so no two workers write the
    same block at a time; the marks are those of the blocks in somebody's hands, and the
    channel is never over its capacity. *)
Theorem one_writer_per_block (cfg : PersistenceWorkerConfig) (s : system) (H : reachable cfg s) :
  NoDup (persistenceKey <$> held s) /\
  (forall k, k ∈ inflight (shared s) <-> k ∈ (persistenceKey <$> held s)) /\
  len (queue (shared s)) <= QueueSize (worker_config cfg).
Proof.
  assert (Hok : system_ok cfg s).
  { pose proof (initial_ok cfg) as H0. revert H0. unfold reachable in H. induction H as [x|x y z Hxy Hyz IH]; [done|].
    intros Hx. apply IH. by eapply step_ok. }
  destruct Hok as [H1 H2 H3 H4 H5]. rewrite H5 in H4. done.
Qed.

(** ** Concrete runs *)

Definition demo_cfg : PersistenceWorkerConfig := MkWorkerConfig 0 0 0 0 0 0 0 0.
Definition demo_task : PersistenceTask :=
  MkTask (MkAppBlock 7 zero32 zero32 zero32 (replicate 32 x09) (time_Unix 1700000001) (replicate 32 x07) 0 []) [] zero32 [] 0.

(** A database that is slow twice and then answers. *)
Definition demo_turns : list turn :=
  let t n := time_Unix (1700000000 + n) in
  [MkTurn (t 1) (t 1) PersistRetryable (t 26) 7 true; MkTurn (t 27) (t 27) PersistRetryable (t 52) 11 true;
   MkTurn (t 53) (t 53) PersistOK (t 60) 0 true].

Example demo_processed :
  processTask demo_task (time_Unix 1700000000) demo_turns (NewPersistenceWorker demo_cfg) =
  Some ([Call 1 (time_Unix 1700000001) (25 * Second); Wait (100 * Millisecond + 7);
         Call 2 (time_Unix 1700000027) (25 * Second); Wait (200 * Millisecond + 11);
         Call 3 (time_Unix 1700000053) (22 * Second)],
        Some Persisted, count_budget 0 1 (count_execution 0 1 0 (NewPersistenceWorker demo_cfg))).
Proof. vm_compute. reflexivity. Qed.

Lemma processTask_ends_witness :
  exists l v w', processTask demo_task (time_Unix 1700000000) demo_turns (NewPersistenceWorker demo_cfg) = Some (l, v, w') /\
    Forall (io_ok (worker_config demo_cfg) (Some (GoTime.Add (time_Unix 1700000000) (75 * Second))) (longest_backoff (worker_config demo_cfg))) l /\
    calls l = seqZ 1 (len (calls l)) /\ len (calls l) <= 3 /\ v <> Some NoAttempt /\ persistenceKey demo_task ∉ inflight w'.
Proof.
  apply (processTask_ends (NewPersistenceWorker demo_cfg) demo_task (time_Unix 1700000000) demo_turns);
    [apply worker_config_ok|reflexivity|vm_compute; discriminate].
Defined.


(** A worker that stops can lose a block: it finds the queue empty, the block is sent by
    a call of [Enqueue] that was under way and succeeds, and the worker then finds
    [enqueueInFlight] at zero and exits. *)
Theorem drain_loses_task :
  exists s, reachable demo_cfg s /\ goroutines s = [Exited] /\ entering s = [] /\
    running (shared s) = false /\ queue (shared s) = [demo_task] /\ taskCount (shared s) = 1.
Proof.
  set (w0 := NewPersistenceWorker demo_cfg).
  set (w1 := (Start w0).2). set (w2 := (enqueue_begin demo_task w1).2). set (w3 := (Stop w2).2).
  set (w4 := (enqueue_end demo_task Sent w3).2).
  exists (MkSystem w4 [] [Exited]). split; [|done].
  eapply (rtc_l _ _ (MkSystem w1 [] [Idle])); [by apply (step_start w0 w1 [] [])|].
  eapply (rtc_l _ _ (MkSystem w2 [demo_task] [Idle])); [by apply (step_enter demo_task w1 w2)|].
  eapply (rtc_l _ _ (MkSystem w3 [demo_task] [Idle])); [by apply (step_stop w2 (Ok tt) w3)|].
  eapply (rtc_l _ _ (MkSystem w3 [demo_task] [Draining])); [by apply (step_see_empty 0 w3 [demo_task] [Idle])|].
  eapply (rtc_l _ _ (MkSystem w4 [] [Draining])); [by apply (step_send demo_task Sent w3 w4 (Ok tt) [] [])|].
  apply rtc_once. by apply (step_check_entering 0 w4 [] [Draining]).
Qed.

Lemma one_writer_per_block_witness :
  let w := (Start (NewPersistenceWorker demo_cfg)).2 in
  let s := MkSystem (enqueue_begin demo_task w).2 [demo_task] [Idle] in
  NoDup (persistenceKey <$> held s) /\ (forall k, k ∈ inflight (shared s) <-> k ∈ (persistenceKey <$> held s)) /\
  len (queue (shared s)) <= 1000.
Proof.
  set (w0 := NewPersistenceWorker demo_cfg). set (w1 := (Start w0).2).
  apply (one_writer_per_block demo_cfg (MkSystem (enqueue_begin demo_task w1).2 [demo_task] [Idle])).
  eapply (rtc_l _ _ (MkSystem w1 [] [Idle])); [by apply (step_start w0 w1 [] [])|].
  apply rtc_once. by apply (step_enter demo_task w1).
Defined.
