(* ===== verification/Persistence.v ===== *)
(** backend/pkg/wiring/commit_handler.go, persistence_backfill.go and
    background_backoff.go: who writes a committed block, what happens when it cannot be
    enqueued, and the blocks kept for a later try. *)
From S2P Require Import Prelude Bytes Sha256 GoTime Codec Merkle Store Executor Messages Block PersistWorker.
Import Codec Model.

(** ** Configuration and state *)

Inductive writer_mode := ModeAll | ModeProposerPrimary | ModeProposer.

Record PersistConfig := MkPersistConfig {
  persistCommitProposerOnly : bool; persistWriterMode : writer_mode;
  persistTakeoverLagThreshold : Z; persistTakeoverDelay : Z; persistTakeoverProbeMinInterval : Z;
  persistBackfillEnabled : bool; persistBackfillLagThreshold : Z; persistBackfillStaleAfter : Z;
  persistBackfillMaxPerCycle : Z; persistBackfillPendingMax : Z;
  persistBackfillFastLaneEnabled : bool; persistBackfillFastLaneMaxAge : Z;
  persistDirectFallbackEnabled : bool; persistFallbackSlots : option Z;
  persistDirectFallbackDisableOnQueuePressure : bool; persistDirectFallbackQueuePressurePct : Z;
  persistDirectFallbackDistressThreshold : Z; persistDirectFallbackDistressCooldown : Z }.

Inductive pendingPersistenceReason :=
| pendingReasonUnknown | pendingReasonNonProposer | pendingReasonCommitEnqueueError | pendingReasonCommitEnqueueTimeout
| pendingReasonDirectFallbackFailed | pendingReasonDirectFallbackNonRetry | pendingReasonDirectFallbackThrottled
| pendingReasonDirectFallbackPressure | pendingReasonDirectFallbackDistress.
#[export] Instance pendingPersistenceReason_eq_dec : EqDecision pendingPersistenceReason.
Proof. solve_decision. Defined.

Record pendingPersistenceEntry := MkPending {
  pe_task : PersistenceTask; seenAt : Time; firstFailAt : Time; reason : pendingPersistenceReason;
  fastLaneProbeUsed : bool; nonRetryAttempts : Z; nextEligibleAt : Time }.

(** The fields of [Service] around the worker. The slots taken of
    [persistFallbackSlots] are [slotsTaken]; counters that are only reported are left out. *)
Record Persist := MkPersist {
  p_worker : PersistenceWorker; persistBackfillPending : gmap Z pendingPersistenceEntry; persistBackfillDropped : Z;
  persistBackfillNonRetryQuarantined : Z; persistTakeoverSeen : gmap Z Time; persistTakeoverCached : option (Z * Time);
  persistCommitEnqueueTimeoutStreak : Z; persistDirectFallbackDistressUntilNs : Z; slotsTaken : Z }.

Definition NewPersist (w : PersistenceWorker) : Persist := MkPersist w ∅ 0 0 ∅ None 0 0 0.

Definition with_worker (w : PersistenceWorker) (s : Persist) : Persist :=
  MkPersist w (persistBackfillPending s) (persistBackfillDropped s) (persistBackfillNonRetryQuarantined s)
    (persistTakeoverSeen s) (persistTakeoverCached s) (persistCommitEnqueueTimeoutStreak s) (persistDirectFallbackDistressUntilNs s) (slotsTaken s).
Definition with_pending (m : gmap Z pendingPersistenceEntry) (s : Persist) : Persist :=
  MkPersist (p_worker s) m (persistBackfillDropped s) (persistBackfillNonRetryQuarantined s)
    (persistTakeoverSeen s) (persistTakeoverCached s) (persistCommitEnqueueTimeoutStreak s) (persistDirectFallbackDistressUntilNs s) (slotsTaken s).
Definition count_dropped (d q : Z) (s : Persist) : Persist :=
  MkPersist (p_worker s) (persistBackfillPending s) (u64 (persistBackfillDropped s + d)) (u64 (persistBackfillNonRetryQuarantined s + q))
    (persistTakeoverSeen s) (persistTakeoverCached s) (persistCommitEnqueueTimeoutStreak s) (persistDirectFallbackDistressUntilNs s) (slotsTaken s).
Definition with_takeover (seen : gmap Z Time) (cached : option (Z * Time)) (s : Persist) : Persist :=
  MkPersist (p_worker s) (persistBackfillPending s) (persistBackfillDropped s) (persistBackfillNonRetryQuarantined s)
    seen cached (persistCommitEnqueueTimeoutStreak s) (persistDirectFallbackDistressUntilNs s) (slotsTaken s).
Definition with_distress (streak untilNs : Z) (s : Persist) : Persist :=
  MkPersist (p_worker s) (persistBackfillPending s) (persistBackfillDropped s) (persistBackfillNonRetryQuarantined s)
    (persistTakeoverSeen s) (persistTakeoverCached s) streak untilNs (slotsTaken s).
Definition with_slots (n : Z) (s : Persist) : Persist :=
  MkPersist (p_worker s) (persistBackfillPending s) (persistBackfillDropped s) (persistBackfillNonRetryQuarantined s)
    (persistTakeoverSeen s) (persistTakeoverCached s) (persistCommitEnqueueTimeoutStreak s) (persistDirectFallbackDistressUntilNs s) n.

(** ** Backoff *)

Definition maxBackgroundProbeCooldown : Z := 60 * Second.

(** The loop from [i] to [streak], of which [n] turns are left. *)
Fixpoint cooldown_loop (n : nat) (cooldown : Z) : Z :=
  match n with
  | O => if maxBackgroundProbeCooldown <? cooldown then maxBackgroundProbeCooldown else cooldown
  | S n' => if Z.quot maxBackgroundProbeCooldown 2 <=? cooldown then maxBackgroundProbeCooldown
            else cooldown_loop n' (cooldown * 2)
  end.

Definition nextBackgroundProbeCooldown (streak base : Z) : Z :=
  if streak <=? 0 then 0
  else
    let base := if base <=? 0 then 2 * Second else base in
    cooldown_loop (Z.to_nat (streak - 1)) base.

Definition nonRetryBackfillMaxAttempts : Z := 3.
Definition nonRetryBackfillBaseDelay : Z := 30 * Second.
Definition nonRetryBackfillMaxDelay : Z := 10 * Minute.

(** A shift by 64 or more leaves nothing of an [int64]. *)
Definition nextNonRetryBackoff (attempt : Z) : Z :=
  if attempt =? 0 then nonRetryBackfillBaseDelay
  else
    let backoff := i64 (nonRetryBackfillBaseDelay * i64 (Z.shiftl 1 (attempt - 1))) in
    if nonRetryBackfillMaxDelay <? backoff then nonRetryBackfillMaxDelay else backoff.

(** ** Who writes *)

Inductive writer_reason :=
| WMissingProposer | WModeAll | WNonProposerGuard | WOwnerProposer | WOwnerPrimary | WAdapterUnavailable
| WProbeFailed | WLagBelow | WDelayGuard | WTakeover | WEngineUnavailable.
#[export] Instance writer_reason_eq_dec : EqDecision writer_reason.
Proof. solve_decision. Defined.

Record persistWriterDecision := MkDecision {
  allowed : bool; role : writer_role; why : writer_reason; local : ValidatorID; proposer : ValidatorID }.

Definition decidePersistFromCommit (proposerOnly : bool) (localNodeID proposerID : ValidatorID) : persistWriterDecision :=
  if isZeroValidatorID proposerID then MkDecision false RoleUnknown WMissingProposer localNodeID proposerID
  else
    let isProposer := bool_decide (localNodeID = proposerID) in
    let role := if isProposer then RoleProposer else RoleNonProposer in
    if negb proposerOnly then MkDecision true role WModeAll localNodeID proposerID
    else if negb isProposer then MkDecision false role WNonProposerGuard localNodeID proposerID
    else MkDecision true RoleProposer WOwnerProposer localNodeID proposerID.

Section persist_ops.
Context (c : PersistConfig) (pending_range : visit_order Z pendingPersistenceEntry).

(** The time a height was first seen here; old heights are dropped when many are kept. *)
Definition takeoverFirstSeen (height : Z) (now : Time) (s : Persist) : Time * Persist :=
  match persistTakeoverSeen s !! height with
  | Some first => (first, s)
  | None =>
      let seen := <[height := now]> (persistTakeoverSeen s) in
      let seen :=
        if 4096 <? Z.of_nat (size seen) then
          let cutoff := if 2048 <? height then height - 2048 else 0 in
          filter (fun kv => cutoff <= kv.1) seen
        else seen in
      (now, with_takeover seen (persistTakeoverCached s) s)
  end.

(** [probe] is the answer of [GetLatestHeight], asked at [now] if the cached one is old. *)
Definition getTakeoverLatestDurable (probe : option Z) (now : Time) (s : Persist) : option Z * Persist :=
  let ask :=
    match probe with
    | Some latest => (Some latest, with_takeover (persistTakeoverSeen s) (Some (latest, now)) s)
    | None => (None, s)
    end in
  match persistTakeoverCached s with
  | Some (latest, at_) =>
      if (0 <? persistTakeoverProbeMinInterval c) && (Sub now at_ <=? persistTakeoverProbeMinInterval c) then (Some latest, s) else ask
  | None => ask
  end.

(** [adapter] says whether the worker has a database; [committed] is the service's
    [lastCommittedHeight]. *)
Definition decidePersistWithTakeover (adapter : bool) (probe : option Z) (committed : Z) (ab : AppBlock)
  (localNodeID : ValidatorID) (now : Time) (s : Persist) : persistWriterDecision * Persist :=
  let base := decidePersistFromCommit true localNodeID (proposerID ab) in
  let refuse why := MkDecision false RoleNonProposer why localNodeID (proposerID ab) in
  if allowed base then (MkDecision true (role base) WOwnerPrimary localNodeID (proposerID ab), s)
  else if bool_decide (why base = WMissingProposer) then (base, s)
  else if negb adapter then (refuse WAdapterUnavailable, s)
  else
    match getTakeoverLatestDurable probe now s with
    | (None, s) => (refuse WProbeFailed, s)
    | (Some latestDurable, s) =>
        let lag := if latestDurable <? committed then committed - latestDurable else 0 in
        if lag <? persistTakeoverLagThreshold c then (refuse WLagBelow, s)
        else
          let '(wait, s) :=
            if 0 <? persistTakeoverDelay c then
              let '(firstSeen, s) := takeoverFirstSeen (Block.height ab) now s in
              (Sub now firstSeen <? persistTakeoverDelay c, s)
            else (false, s) in
          if wait : bool then (refuse WDelayGuard, s)
          else (MkDecision true RoleNonProposer WTakeover localNodeID (proposerID ab), s)
    end.

(** [status] is the node's own identifier, [None] without an engine. *)
Definition persistWriterDecisionForBlock (status : option ValidatorID) (adapter : bool) (probe : option Z) (committed : Z)
  (ab : AppBlock) (now : Time) (s : Persist) : persistWriterDecision * Persist :=
  match status with
  | None => (MkDecision false RoleUnknown WEngineUnavailable zero32 (proposerID ab), s)
  | Some nodeID =>
      match persistWriterMode c with
      | ModeAll => (decidePersistFromCommit false nodeID (proposerID ab), s)
      | ModeProposerPrimary => decidePersistWithTakeover adapter probe committed ab nodeID now s
      | ModeProposer => (decidePersistFromCommit true nodeID (proposerID ab), s)
      end
  end.

(** ** Blocks kept for later *)

(** The entry the loop ends with, for which 0 stands when there is none. *)
Definition keep_oldest (acc : Z * Time) (kv : Z * pendingPersistenceEntry) : Z * Time :=
  let '(evicted, oldestSeen) := acc in
  if Before (seenAt kv.2) oldestSeen || (evicted =? 0) then (kv.1, seenAt kv.2) else (evicted, oldestSeen).
Definition evicted_height (now : Time) (l : list (Z * pendingPersistenceEntry)) : Z := (foldl keep_oldest (0, now) l).1.

Definition rememberPendingPersistence (task : PersistenceTask) (why : pendingPersistenceReason) (now : Time) (s : Persist) : Persist :=
  if negb (persistCommitProposerOnly c) || negb (persistBackfillEnabled c) then s
  else
    let h := Block.height (t_Block task) in
    let s :=
      if (0 <? persistBackfillPendingMax c) && (persistBackfillPendingMax c <=? Z.of_nat (size (persistBackfillPending s))) then
        let evicted := evicted_height now (pending_range (persistBackfillPending s)) in
        if negb (evicted =? 0) then count_dropped 1 0 (with_pending (delete evicted (persistBackfillPending s)) s) else s
      else s in
    match persistBackfillPending s !! h with
    | Some existing =>
        let changed := negb (bool_decide (reason existing = why)) in
        let reset := changed && bool_decide (why = pendingReasonDirectFallbackNonRetry) in
        with_pending (<[h := MkPending task (seenAt existing) (firstFailAt existing) (if changed then why else reason existing)
                               (fastLaneProbeUsed existing) (if reset then 0 else nonRetryAttempts existing)
                               (if reset then zero_time else nextEligibleAt existing)]> (persistBackfillPending s)) s
    | None => with_pending (<[h := MkPending task now now why false 0 zero_time]> (persistBackfillPending s)) s
    end.

Definition dropPersistBackfillUpTo (height : Z) (s : Persist) : Persist :=
  with_pending (filter (fun kv => height < kv.1) (persistBackfillPending s)) s.
Definition pendingBackfillEntry (height : Z) (s : Persist) : option pendingPersistenceEntry := persistBackfillPending s !! height.
Definition deletePersistBackfill (height : Z) (s : Persist) : Persist := with_pending (delete height (persistBackfillPending s)) s.

(** Whether an entry is due, and whether it uses up its fast lane. *)
Definition shouldBackfillNow (entry : pendingPersistenceEntry) (now : Time) : bool * bool :=
  if IsZero (seenAt entry) then (true, false)
  else
    let firstFail := if IsZero (firstFailAt entry) then seenAt entry else firstFailAt entry in
    if bool_decide (reason entry = pendingReasonDirectFallbackNonRetry) && negb (IsZero (nextEligibleAt entry)) && Before now (nextEligibleAt entry)
    then (false, false)
    else if persistBackfillFastLaneEnabled c && bool_decide (reason entry = pendingReasonCommitEnqueueTimeout) &&
            negb (fastLaneProbeUsed entry) && (persistBackfillFastLaneMaxAge c <=? Sub now firstFail)
    then (true, true)
    else (persistBackfillStaleAfter c <=? Sub now (seenAt entry), false).

Definition use_fast_lane (e : pendingPersistenceEntry) : pendingPersistenceEntry :=
  MkPending (pe_task e) (seenAt e) (firstFailAt e) (reason e) true (nonRetryAttempts e) (nextEligibleAt e).

(** What the loop does to an entry that is above the durable height. *)
Definition probe_entry (committed : Z) (now : Time) (kv : Z * pendingPersistenceEntry) : pendingPersistenceEntry :=
  if committed <? kv.1 then kv.2
  else match shouldBackfillNow kv.2 now with (true, true) => use_fast_lane kv.2 | _ => kv.2 end.
Definition is_due (committed : Z) (now : Time) (kv : Z * pendingPersistenceEntry) : bool :=
  negb (committed <? kv.1) && (shouldBackfillNow kv.2 now).1.

(** Heights are sorted, so the order of the iteration does not show. *)
Definition collectPersistBackfillCandidates (latest committed : Z) (now : Time) (s : Persist) : list Z * Persist :=
  let live := filter (fun kv => latest < kv.1) (persistBackfillPending s) in
  let heights := merge_sort Z.le (filter (fun kv => is_due committed now kv = true) (pending_range live)).*1 in
  let heights := if persistBackfillMaxPerCycle c <? len heights then take (Z.to_nat (persistBackfillMaxPerCycle c)) heights else heights in
  (heights, with_pending (map_imap (fun h e => Some (probe_entry committed now (h, e))) live) s).

Definition recordNonRetryBackfillFailure (height : Z) (now : Time) (s : Persist) : Persist :=
  match persistBackfillPending s !! height with
  | None => s
  | Some e =>
      let n := (nonRetryAttempts e + 1) mod 2 ^ 32 in
      if nonRetryBackfillMaxAttempts <? n then count_dropped 1 1 (deletePersistBackfill height s)
      else
        with_pending (<[height := MkPending (pe_task e) (seenAt e) (firstFailAt e) (reason e) (fastLaneProbeUsed e) n
                                    (GoTime.Add now (nextNonRetryBackoff n))]> (persistBackfillPending s)) s
  end.

(** ** Distress and the direct fallback *)

Definition noteCommitEnqueueResult (timeout : bool) (now : Time) (s : Persist) : Persist :=
  if negb timeout then with_distress 0 (persistDirectFallbackDistressUntilNs s) s
  else
    let streak := u64 (persistCommitEnqueueTimeoutStreak s + 1) in
    let s := with_distress streak (persistDirectFallbackDistressUntilNs s) s in
    if (persistDirectFallbackDistressThreshold c <=? 0) || (i64 streak <? persistDirectFallbackDistressThreshold c) then s
    else
      let cooldown := if persistDirectFallbackDistressCooldown c <=? 0 then 5 * Second else persistDirectFallbackDistressCooldown c in
      with_distress streak (UnixNano (GoTime.Add now cooldown)) s.

Definition isDirectFallbackInDistressCooldown (now : Time) (s : Persist) : bool :=
  let untilNs := persistDirectFallbackDistressUntilNs s in
  if untilNs <=? 0 then false else UnixNano now <? untilNs.

(** The reason to hand over with, when the fallback is skipped. *)
Definition shouldSkipDirectFallback (why : pendingPersistenceReason) (now : Time) (s : Persist) : option pendingPersistenceReason :=
  if negb (bool_decide (why = pendingReasonCommitEnqueueTimeout)) then None
  else if isDirectFallbackInDistressCooldown now s then Some pendingReasonDirectFallbackDistress
  else if negb (persistDirectFallbackDisableOnQueuePressure c) then None
  else
    let '(queueSize, queueCap) := GetQueueStats (p_worker s) in
    if queueCap <=? 0 then None
    else
      let thresholdPct := if persistDirectFallbackQueuePressurePct c <=? 0 then 85 else persistDirectFallbackQueuePressurePct c in
      if Z.quot (queueSize * 100) queueCap <? thresholdPct then None else Some pendingReasonDirectFallbackPressure.

Definition acquireDirectFallbackSlot (s : Persist) : bool * Persist :=
  match persistFallbackSlots c with
  | None => (true, s)
  | Some n => if slotsTaken s <? n then (true, with_slots (slotsTaken s + 1) s) else (false, s)
  end.

Definition releaseDirectFallbackSlot (s : Persist) : Persist :=
  match persistFallbackSlots c with
  | None => s
  | Some _ => if 0 <? slotsTaken s then with_slots (slotsTaken s - 1) s else s
  end.

(** [tryDirectPersistFallback] up to the goroutine it starts: [None] when it was started,
    else the reason to keep the block with. *)
Definition tryDirectPersistFallback (adapter : bool) (why : pendingPersistenceReason) (now : Time) (s : Persist)
  : option pendingPersistenceReason * Persist :=
  if negb (persistDirectFallbackEnabled c) then (Some why, s)
  else
    match shouldSkipDirectFallback why now s with
    | Some pendingReason => (Some pendingReason, s)
    | None =>
        if negb adapter then (Some why, s)
        else
          let '(ok, s) := acquireDirectFallbackSlot s in
          if ok : bool then (None, s) else (Some pendingReasonDirectFallbackThrottled, s)
    end.

(** The goroutine, once [PersistBlock] has returned. *)
Definition direct_fallback_done (task : PersistenceTask) (answer : persist_outcome) (now : Time) (s : Persist) : Persist :=
  releaseDirectFallbackSlot
    match answer with
    | PersistOK => s
    | PersistRetryable => rememberPendingPersistence task pendingReasonDirectFallbackFailed now s
    | PersistIntegrity | PersistOther => rememberPendingPersistence task pendingReasonDirectFallbackNonRetry now s
    end.

(** ** Enqueueing *)

Inductive enqueue_source := FromCommit | FromBackfill.
Inductive enqueue_error := ErrNonProposer | ErrWorker (e : worker_error).
#[export] Instance enqueue_error_eq_dec : EqDecision enqueue_error.
Proof. solve_decision. Defined.

Definition isEnqueueTimeoutErr (e : enqueue_error) : bool := match e with ErrWorker ErrEnqueueTimeout => true | _ => false end.

(** What the environment answers while a decision is taken: the node's identifier, the
    database and its height, the time. *)
Record surroundings := MkSurroundings {
  e_status : option ValidatorID; e_adapter : bool; e_probe : option Z; e_committed : Z; e_now : Time }.

Definition decision_for (e : surroundings) (ab : AppBlock) (s : Persist) : persistWriterDecision * Persist :=
  persistWriterDecisionForBlock (e_status e) (e_adapter e) (e_probe e) (e_committed e) ab (e_now e) s.

(** [o] is the case [Enqueue] takes. *)
Definition enqueuePersistenceTask (e : surroundings) (task : PersistenceTask) (source : enqueue_source) (o : send_outcome) (s : Persist)
  : result enqueue_error unit * Persist :=
  let '(decision, s) := decision_for e (t_Block task) s in
  if negb (allowed decision) then (Err ErrNonProposer, s)
  else
    match Enqueue task o (p_worker s) with
    | (Ok _, w) =>
        let s := with_worker w s in
        (Ok tt, match source with FromCommit => noteCommitEnqueueResult false (e_now e) s | FromBackfill => s end)
    | (Err err, w) =>
        let s := with_worker w s in
        (Err (ErrWorker err),
         match source with
         | FromCommit => noteCommitEnqueueResult (isEnqueueTimeoutErr (ErrWorker err)) (e_now e) s
         | FromBackfill => s
         end)
    end.

(** The persistence part of [onCommit]: the decision is taken for the statistics, for
    [shouldPersistOnCommit], and [again] inside [enqueuePersistenceTask]. *)
Definition persist_on_commit (stats first again : surroundings) (task : PersistenceTask) (o : send_outcome) (s : Persist) : Persist :=
  let '(_, s) := decision_for stats (t_Block task) s in
  let '(decision, s) := decision_for first (t_Block task) s in
  if allowed decision then
    match enqueuePersistenceTask again task FromCommit o s with
    | (Ok _, s) => s
    | (Err ErrNonProposer, s) => s
    | (Err err, s) =>
        let why := if isEnqueueTimeoutErr err then pendingReasonCommitEnqueueTimeout else pendingReasonCommitEnqueueError in
        match tryDirectPersistFallback (e_adapter again) why (e_now again) s with
        | (None, s) => s
        | (Some pendingReason, s) => rememberPendingPersistence task pendingReason (e_now again) s
        end
    end
  else rememberPendingPersistence task pendingReasonNonProposer (e_now first) s.

(** ** The backfill cycle *)

(** One candidate of a cycle. *)
Definition backfill_one (e : surroundings) (o : send_outcome) (height : Z) (s : Persist) : Persist :=
  match pendingBackfillEntry height s with
  | None => s
  | Some entry =>
      let '(_, s) := decision_for e (t_Block (pe_task entry)) s in
      match enqueuePersistenceTask e (pe_task entry) FromBackfill o s with
      | (Ok _, s) => deletePersistBackfill height s
      | (Err ErrNonProposer, s) => deletePersistBackfill height s
      | (Err (ErrWorker _), s) =>
          if bool_decide (reason entry = pendingReasonDirectFallbackNonRetry) then recordNonRetryBackfillFailure height (e_now e) s else s
      end
  end.

(** [latest_height] is the database's answer: a height, or an error that is a timeout
    or not. [outcomes] says how the channel answers for each height. The result says
    whether the probe timed out. *)
Definition tryPersistenceBackfill (e : surroundings) (not_leader : bool) (latest_height : Z + bool) (outcomes : Z -> send_outcome) (s : Persist)
  : bool * Persist :=
  if negb (persistCommitProposerOnly c) || negb (persistBackfillEnabled c) then (false, s)
  else if not_leader then (false, s)
  else if negb (e_adapter e) then (false, s)
  else
    match latest_height with
    | inr timeout => (timeout, s)
    | inl latest =>
        if e_committed e <=? u64 (latest + persistBackfillLagThreshold c) then (false, dropPersistBackfillUpTo latest s)
        else
          let '(candidates, s) := collectPersistBackfillCandidates latest (e_committed e) (e_now e) s in
          (false, foldl (fun s h => backfill_one e (outcomes h) h s) s candidates)
    end.

(** The timer loop: the streak of timeouts and the end of the cooldown, before and after
    a tick at [now] whose probe times out or not. *)
Definition backoff_tick (interval : Z) (now : Time) (timed_out : bool) (st : Z * Time) : Z * Time :=
  let '(timeoutStreak, cooldownUntil) := st in
  if negb (IsZero cooldownUntil) && Before now cooldownUntil then st
  else if timed_out then (timeoutStreak + 1, GoTime.Add now (nextBackgroundProbeCooldown (timeoutStreak + 1) interval))
  else (0, zero_time).
End persist_ops.

(** ** Backoff stays within its bounds *)

Lemma cooldown_loop_eq n cooldown : 0 < cooldown ->
  cooldown_loop n cooldown = Z.min (cooldown * 2 ^ Z.of_nat n) maxBackgroundProbeCooldown.
Proof.
  revert cooldown. induction n as [|n IH]; intros cooldown H; cbn [cooldown_loop].
  - destruct (Z.ltb_spec maxBackgroundProbeCooldown cooldown); change (2 ^ Z.of_nat 0) with 1; lia.
  - change (Z.quot maxBackgroundProbeCooldown 2) with (30 * Second).
    assert (Hp : 2 ^ Z.of_nat (S n) = 2 * 2 ^ Z.of_nat n) by (rewrite Nat2Z.inj_succ; apply Z.pow_succ_r; lia).
    assert (1 <= 2 ^ Z.of_nat n) by (apply (Z.pow_le_mono_r 2 0); lia).
    assert (Hm : maxBackgroundProbeCooldown = 60 * Second) by done.
    destruct (Z.leb_spec (30 * Second) cooldown); [nia|]. rewrite IH by lia. rewrite Hp. f_equal. lia.
Qed.

(** The pause between background probes after [streak] timeouts in a row is the base
    doubled each time, capped at a minute; the loop computes it without overflow. *)
Theorem cooldown_doubles (streak base : Z) (Hs : 0 < streak) :
  nextBackgroundProbeCooldown streak base =
  Z.min ((if base <=? 0 then 2 * Second else base) * 2 ^ (streak - 1)) (60 * Second) /\
  0 < nextBackgroundProbeCooldown streak base <= 60 * Second.
Proof.
  unfold nextBackgroundProbeCooldown. destruct (Z.leb_spec streak 0); [lia|].
  assert (Hb : 0 < (if base <=? 0 then 2 * Second else base)).
  { destruct (Z.leb_spec base 0); [done|lia]. }
  rewrite cooldown_loop_eq by done. rewrite Z2Nat.id by lia.
  change maxBackgroundProbeCooldown with (60 * Second).
  assert (1 <= 2 ^ (streak - 1)) by (apply (Z.pow_le_mono_r 2 0); lia).
  assert (0 < 60 * Second) by done. split; [done|]. nia.
Qed.

(** The three delays the code can ask for. *)
Example non_retry_delays :
  nextNonRetryBackoff <$> [1; 2; 3] = [30 * Second; 60 * Second; 120 * Second].
Proof. vm_compute. reflexivity. Qed.

(** ** What is kept for later *)

Section kept.
Context (c : PersistConfig) (range : visit_order Z pendingPersistenceEntry).

(** Committed heights are positive, so 0 can stand for none. *)
Record pending_ok (m : gmap Z pendingPersistenceEntry) : Prop := {
  pend_pos h e : m !! h = Some e -> 0 < h;
  pend_bound : 0 < persistBackfillPendingMax c -> Z.of_nat (size m) <= persistBackfillPendingMax c }.

Lemma evicted_height_in now l : (forall kv, kv ∈ l -> 0 < kv.1) -> l <> [] -> evicted_height now l ∈ l.*1.
Proof.
  intros Hpos Hne. unfold evicted_height.
  assert (H : forall l acc, (forall kv, kv ∈ l -> 0 < kv.1) -> acc.1 <> 0 ->
    (foldl keep_oldest acc l).1 = acc.1 \/ (foldl keep_oldest acc l).1 ∈ l.*1).
  { clear. induction l as [|kv l IH]; intros acc Hpos Hacc; [by left|]. cbn [foldl].
    assert (Hf : keep_oldest acc kv = (kv.1, seenAt kv.2) \/ keep_oldest acc kv = acc).
    { unfold keep_oldest. destruct acc as [ev old]. destruct (_ || _); auto. }
    pose proof (Hpos kv ltac:(by left)) as Hkv. destruct Hf as [-> | ->].
    - destruct (IH (kv.1, seenAt kv.2)) as [->|Hin]; [set_solver|cbn; lia|right; by left|right; by right].
    - destruct (IH acc) as [->|Hin]; [set_solver|done|by left|right; by right]. }
  destruct l as [|kv l]; [done|]. cbn [foldl]. pose proof (Hpos kv ltac:(by left)) as Hkv.
  assert (Hf : keep_oldest (0, now) kv = (kv.1, seenAt kv.2)) by (unfold keep_oldest; by rewrite orb_true_r).
  rewrite Hf. destruct (H l (kv.1, seenAt kv.2)) as [->|Hin]; [set_solver|cbn; lia|by left|by right].
Qed.

Lemma pending_ok_delete h m : pending_ok m -> pending_ok (delete h m).
Proof.
  intros [H1 H2]. constructor; [intros h' e [_ He]%lookup_delete_Some; by eapply H1|].
  intros Hm. specialize (H2 Hm). pose proof (map_subseteq_size (delete h m) m (delete_subseteq m h)). lia.
Qed.

Lemma pending_ok_filter P `{forall kv : Z * pendingPersistenceEntry, Decision (P kv)} m : pending_ok m -> pending_ok (filter P m).
Proof.
  intros [H1 H2]. constructor; [intros h' e [He _]%map_lookup_filter_Some; by eapply H1|].
  intros Hm. specialize (H2 Hm). pose proof (map_subseteq_size _ m (map_filter_subseteq P m)). lia.
Qed.

Lemma pending_ok_update h e e' m : pending_ok m -> m !! h = Some e -> pending_ok (<[h := e']> m).
Proof.
  intros [H1 H2] He. constructor.
  - intros h' x. rewrite lookup_insert. case_decide; [intros _; subst; by eapply H1|by apply H1].
  - intros Hm. rewrite map_size_insert_Some by (by eexists). auto.
Qed.

Lemma rememberPending_ok task why now s : 0 < Block.height (t_Block task) ->
  pending_ok (persistBackfillPending s) -> pending_ok (persistBackfillPending (rememberPendingPersistence c range task why now s)).
Proof.
  intros Hh Hok. unfold rememberPendingPersistence. destruct (_ || _); [done|].
  set (s1 := if (_ && _ : bool) then _ else s).
  assert (H1 : pending_ok (persistBackfillPending s1) /\
    (0 < persistBackfillPendingMax c -> Z.of_nat (size (persistBackfillPending s1)) < persistBackfillPendingMax c)).
  { unfold s1. destruct (_ && _) eqn:Hfull.
    - go_bool. set (m := persistBackfillPending s) in *.
      assert (Hne : range m <> []).
      { intros Hr. assert (Hl : map_to_list m = []) by (apply Permutation_nil; by rewrite <- (visit_perm _ _ range m), Hr).
        apply map_to_list_empty_iff in Hl. rewrite Hl, map_size_empty in Hfull. lia. }
      assert (Hin : evicted_height now (range m) ∈ (range m).*1).
      { apply evicted_height_in; [|done]. intros [k e] Hk. apply elem_of_visit in Hk. by apply (pend_pos _ Hok) in Hk. }
      apply list_elem_of_fmap in Hin as ([k e] & He & Hk). cbn in He. apply elem_of_visit in Hk.
      pose proof (pend_pos _ Hok _ _ Hk) as Hpos. rewrite He. destruct (Z.eqb_spec k 0); [lia|]. cbn.
      split; [by apply pending_ok_delete|]. intros _. pose proof (pend_bound _ Hok Hfull0).
      rewrite map_size_delete_Some by (by eexists).
      assert (size m <> 0%nat) by (intros Hz%map_size_empty_inv; by rewrite Hz, lookup_empty in Hk). lia.
    - split; [done|]. intros Hm. apply andb_false_iff in Hfull as [H|H]; go_bool; lia. }
  destruct H1 as [H1 H2]. destruct (persistBackfillPending s1 !! _) as [e|] eqn:He; cbn; [by eapply pending_ok_update|].
  destruct H1 as [H3 H4]. constructor.
  - intros h' x. rewrite lookup_insert. case_decide; [by subst|by apply H3].
  - intros Hm. rewrite map_size_insert_None by done. specialize (H2 Hm). lia.
Qed.

Lemma recordNonRetry_ok h now s : pending_ok (persistBackfillPending s) ->
  pending_ok (persistBackfillPending (recordNonRetryBackfillFailure h now s)).
Proof.
  intros Hok. unfold recordNonRetryBackfillFailure. destruct (_ !! h) as [e|] eqn:He; [|done].
  destruct (_ <? _); cbn; [by apply pending_ok_delete|by eapply pending_ok_update].
Qed.

Lemma collect_ok latest committed now s : pending_ok (persistBackfillPending s) ->
  pending_ok (persistBackfillPending (collectPersistBackfillCandidates c range latest committed now s).2).
Proof.
  intros Hok. cbn. set (m := filter _ (persistBackfillPending s)).
  assert (Hm : pending_ok m) by (by apply pending_ok_filter). destruct Hm as [H1 H2]. constructor.
  - intros h e. rewrite map_lookup_imap. destruct (m !! h) eqn:He; [|done]. intros _. by eapply H1.
  - intros Hp. specialize (H2 Hp). rewrite <- size_dom, dom_imap_L with (X := dom m), size_dom; [done|].
    intros i. rewrite elem_of_dom. split; [intros [x Hx]; eauto|naive_solver].
Qed.

Lemma decision_pending e ab s : persistBackfillPending (decision_for c e ab s).2 = persistBackfillPending s.
Proof.
  unfold decision_for, persistWriterDecisionForBlock, decidePersistWithTakeover, getTakeoverLatestDurable, takeoverFirstSeen.
  repeat case_match; simplify_eq; try done; cbn in *; by simplify_eq.
Qed.

Lemma noteCommit_pending b now s : persistBackfillPending (noteCommitEnqueueResult c b now s) = persistBackfillPending s.
Proof. unfold noteCommitEnqueueResult. repeat case_match; done. Qed.

Lemma enqueue_pending e task src o s :
  persistBackfillPending (enqueuePersistenceTask c e task src o s).2 = persistBackfillPending s.
Proof.
  unfold enqueuePersistenceTask. pose proof (decision_pending e (t_Block task) s) as H.
  destruct (decision_for c e _ s) as [d s1]. cbn in H. destruct (negb _); [done|].
  destruct (Enqueue task o (p_worker s1)) as [[u|err] w]; destruct src; cbn; by rewrite ?noteCommit_pending.
Qed.

(** ** Runs *)

Inductive persist_op :=
| PCommit (stats first again : surroundings) (task : PersistenceTask) (o : send_outcome)
| PFallbackDone (task : PersistenceTask) (ans : persist_outcome) (now : Time)
| PBackfill (e : surroundings) (not_leader : bool) (latest_height : Z + bool) (outcomes : Z -> send_outcome)
| PWorker (w : PersistenceWorker).

Definition run_persist (s : Persist) (op : persist_op) : Persist :=
  match op with
  | PCommit e1 e2 e3 task o => persist_on_commit c range e1 e2 e3 task o s
  | PFallbackDone task ans now => direct_fallback_done c range task ans now s
  | PBackfill e nl latest outs => (tryPersistenceBackfill c range e nl latest outs s).2
  | PWorker w => with_worker w s
  end.

Definition op_ok (op : persist_op) : Prop :=
  match op with PCommit _ _ _ task _ | PFallbackDone task _ _ => 0 < Block.height (t_Block task) | _ => True end.

Lemma tryDirect_pending adapter why now s :
  persistBackfillPending (tryDirectPersistFallback c adapter why now s).2 = persistBackfillPending s.
Proof. unfold tryDirectPersistFallback, acquireDirectFallbackSlot. repeat case_match; simplify_eq; done. Qed.

Lemma release_pending s : persistBackfillPending (releaseDirectFallbackSlot c s) = persistBackfillPending s.
Proof. unfold releaseDirectFallbackSlot. repeat case_match; done. Qed.

Lemma persist_on_commit_ok e1 e2 e3 task o s : 0 < Block.height (t_Block task) ->
  pending_ok (persistBackfillPending s) -> pending_ok (persistBackfillPending (persist_on_commit c range e1 e2 e3 task o s)).
Proof.
  intros Hh Hok. unfold persist_on_commit.
  pose proof (decision_pending e1 (t_Block task) s) as H1. destruct (decision_for c e1 _ s) as [d1 s1]. cbn in H1.
  pose proof (decision_pending e2 (t_Block task) s1) as H2. destruct (decision_for c e2 _ s1) as [d2 s2]. cbn in H2.
  assert (H2' : pending_ok (persistBackfillPending s2)) by (by rewrite H2, H1).
  destruct (allowed d2); [|by apply rememberPending_ok].
  pose proof (enqueue_pending e3 task FromCommit o s2) as H3.
  destruct (enqueuePersistenceTask c e3 task FromCommit o s2) as [[u|[|err]] s3]; cbn in H3; [by rewrite H3..|].
  match goal with |- context [tryDirectPersistFallback c ?a ?w ?n s3] => pose proof (tryDirect_pending a w n s3) as H4;
    destruct (tryDirectPersistFallback c a w n s3) as [[why|] s4] end; cbn in H4.
  - apply rememberPending_ok; [done|]. by rewrite H4, H3.
  - by rewrite H4, H3.
Qed.

Lemma backfill_one_ok e o h s : pending_ok (persistBackfillPending s) -> pending_ok (persistBackfillPending (backfill_one c e o h s)).
Proof.
  intros Hok. unfold backfill_one. destruct (pendingBackfillEntry h s) as [entry|]; [|done].
  pose proof (decision_pending e (t_Block (pe_task entry)) s) as H1. destruct (decision_for c e _ s) as [d1 s1]. cbn in H1.
  pose proof (enqueue_pending e (pe_task entry) FromBackfill o s1) as H3.
  assert (H4 : pending_ok (persistBackfillPending (enqueuePersistenceTask c e (pe_task entry) FromBackfill o s1).2))
    by (by rewrite H3, H1).
  destruct (enqueuePersistenceTask c e (pe_task entry) FromBackfill o s1) as [[u|[|err]] s3]; cbn in H4;
    [by apply pending_ok_delete..|]. case_match; [by apply recordNonRetry_ok|done].
Qed.

Lemma run_persist_ok op s : op_ok op -> pending_ok (persistBackfillPending s) -> pending_ok (persistBackfillPending (run_persist s op)).
Proof.
  intros Hop Hok. destruct op as [e1 e2 e3 task o|task ans now|e nl latest outs|w]; cbn in *; [by apply persist_on_commit_ok| | |done].
  - unfold direct_fallback_done. rewrite release_pending. destruct ans; [done|by apply rememberPending_ok..].
  - unfold tryPersistenceBackfill. destruct (_ || _); [done|]. destruct nl; [done|]. destruct (negb _); [done|].
    destruct latest as [L|]; [|done]. destruct (_ <=? _); [by apply pending_ok_filter|].
    pose proof (collect_ok L (e_committed e) (e_now e) s Hok) as Hc.
    destruct (collectPersistBackfillCandidates _ _ _ _ _ _) as [hs s1]. cbn in *.
    apply foldl_invariant; [done|]. intros s' h _. apply backfill_one_ok.
Qed.
End kept.

(** Over any run of commits, fallbacks and backfill cycles the node keeps at most the
    configured number of blocks for later, whatever fails. *)
Theorem pending_bounded (c : PersistConfig) (range : visit_order Z pendingPersistenceEntry) (w : PersistenceWorker) (ops : list persist_op)
  (Hmax : 0 < persistBackfillPendingMax c) (Hops : Forall op_ok ops) :
  Z.of_nat (size (persistBackfillPending (foldl (run_persist c range) (NewPersist w) ops))) <= persistBackfillPendingMax c.
Proof.
  assert (H : pending_ok c (persistBackfillPending (foldl (run_persist c range) (NewPersist w) ops))); [|by destruct H; auto].
  rewrite Forall_forall in Hops. apply foldl_invariant.
  - constructor; [done|]. intros _. change (persistBackfillPending (NewPersist w)) with (∅ : gmap Z pendingPersistenceEntry).
    rewrite map_size_empty. lia.
  - intros s op Hin. apply run_persist_ok. auto.
Qed.

(** ** The candidates of a cycle *)

(** A cycle takes the lowest heights that are due, at most the configured number, each
    between the durable and the committed height, and forgets the heights that are
    durable. *)
Theorem collect_lowest_due (c : PersistConfig) (range : visit_order Z pendingPersistenceEntry) (latest committed : Z) (now : Time) (s : Persist)
  (Hmax : 0 <= persistBackfillMaxPerCycle c) :
  let '(hs, s') := collectPersistBackfillCandidates c range latest committed now s in
  let due h := exists e, persistBackfillPending s !! h = Some e /\ latest < h <= committed /\ (shouldBackfillNow c e now).1 = true in
  StronglySorted Z.lt hs /\ len hs <= persistBackfillMaxPerCycle c /\ (forall h, h ∈ hs -> due h) /\
  (forall h, due h -> h ∈ hs \/ (len hs = persistBackfillMaxPerCycle c /\ forall h', h' ∈ hs -> h' < h)) /\
  (forall h, h ∈ dom (persistBackfillPending s') <-> h ∈ dom (persistBackfillPending s) /\ latest < h).
Proof.
  unfold collectPersistBackfillCandidates. set (m := persistBackfillPending s).
  set (live := filter (fun kv : Z * pendingPersistenceEntry => latest < kv.1) m).
  set (l := (filter (fun kv => is_due c committed now kv = true) (range live)).*1).
  assert (Hdue : forall h, h ∈ l <-> exists e, m !! h = Some e /\ latest < h <= committed /\ (shouldBackfillNow c e now).1 = true).
  { intros h. unfold l. rewrite list_elem_of_fmap. split.
    - intros ([k e] & -> & [Hd Hin]%list_elem_of_filter). apply elem_of_visit, map_lookup_filter_Some in Hin as [Hl Hlt].
      unfold is_due in Hd. cbn in *. go_bool. exists e. split_and!; [done|lia|lia|done].
    - intros (e & Hl & Hlt & Hd). exists (h, e). split; [done|]. apply list_elem_of_filter. split.
      + unfold is_due. cbn. rewrite Hd. destruct (Z.ltb_spec committed h); [lia|done].
      + apply elem_of_visit, map_lookup_filter_Some. cbn. split; [done|lia]. }
  assert (Hnd : NoDup l).
  { unfold l. apply (sublist_NoDup _ (range live).*1); [rewrite visit_perm; apply NoDup_fst_map_to_list|].
    apply fmap_sublist, sublist_filter. }
  set (hs := merge_sort Z.le l).
  assert (Hp : hs ≡ₚ l) by apply merge_sort_Permutation.
  assert (Hs : StronglySorted Z.lt hs).
  { assert (Hle : StronglySorted Z.le hs) by (apply StronglySorted_merge_sort; apply _).
    assert (Hnd' : NoDup hs) by (by rewrite Hp). clearbody hs. clear -Hle Hnd'. induction Hle as [|x k Hk IH Hx]; [constructor|].
    apply NoDup_cons in Hnd' as [Hn Hnd']. constructor; [by apply IH|]. rewrite Forall_forall in Hx |- *.
    intros y Hy. assert (x <> y) by (by intros ->). specialize (Hx y Hy). lia. }
  set (n := Z.to_nat (persistBackfillMaxPerCycle c)).
  assert (Htake : (if persistBackfillMaxPerCycle c <? len hs then take n hs else hs) = take n hs).
  { destruct (Z.ltb_spec (persistBackfillMaxPerCycle c) (len hs)); [done|]. rewrite take_ge; [done|]. unfold n, len in *. lia. }
  rewrite Htake. cbv zeta. split_and!.
  - rewrite <- (take_drop n hs) in Hs. by apply StronglySorted_app_1_l in Hs.
  - unfold len. rewrite length_take. unfold n. lia.
  - intros h (i & Hi & _)%elem_of_take. apply Hdue. rewrite <- Hp. by eapply list_elem_of_lookup_2.
  - intros h Hd. apply Hdue in Hd. rewrite <- Hp, <- (take_drop n hs), elem_of_app in Hd. destruct Hd as [Hd|Hd]; [by left|right].
    assert (Hlen : (n < length hs)%nat).
    { destruct (Nat.lt_ge_cases n (length hs)); [done|]. rewrite drop_ge in Hd by done. by apply elem_of_nil in Hd. }
    split; [unfold len; rewrite length_take; unfold n in *; lia|].
    intros h' Hh'. rewrite <- (take_drop n hs) in Hs. by eapply StronglySorted_app_1_elem_of.
  - intros h. cbn. rewrite !elem_of_dom, map_lookup_imap. unfold is_Some. split.
    + intros [x Hx]. destruct (live !! h) as [e|] eqn:He; [|done]. apply map_lookup_filter_Some in He as [He Hlt]. eauto.
    + intros [[e He] Hlt]. assert (Hl : live !! h = Some e) by (by apply map_lookup_filter_Some). rewrite Hl. by eexists.
Qed.

(** ** Who writes a block *)

(** Among nodes with different identifiers exactly the proposer writes a block when only
    proposers write; every node does in the other mode; nobody writes a block without a
    proposer. *)
Theorem writers_of_block (nodes : list ValidatorID) (p : ValidatorID) (Hnodes : NoDup nodes) :
  (isZeroValidatorID p = false -> p ∈ nodes ->
     filter (fun n => allowed (decidePersistFromCommit true n p) = true) nodes = [p]) /\
  (isZeroValidatorID p = false -> forall n, allowed (decidePersistFromCommit false n p) = true) /\
  (isZeroValidatorID p = true -> forall b n, allowed (decidePersistFromCommit b n p) = false).
Proof.
  unfold decidePersistFromCommit. split_and!; [|by intros ->|by intros ->]. intros -> Hin. cbn.
  induction Hnodes as [|x l Hx Hl IH]; [by apply elem_of_nil in Hin|]. rewrite filter_cons.
  destruct (decide (x = p)) as [->|Hne].
  - rewrite bool_decide_true by done. cbn. rewrite list_filter_none; [done|]. apply Forall_forall. intros y Hy.
    rewrite bool_decide_false by (by intros ->). done.
  - rewrite bool_decide_false by done. cbn. apply IH. by apply elem_of_cons in Hin as [->|?].
Qed.

(** The policy [NewService] gives the worker. *)
Definition writer_policy (c : PersistConfig) (id : ValidatorID) (w : PersistenceWorker) : PersistenceWorker :=
  SetWriterPolicy (persistCommitProposerOnly c && match persistWriterMode c with ModeProposerPrimary => false | _ => true end) id w.

(** The configurations [NewService] makes. *)
Definition modes_agree (c : PersistConfig) : Prop :=
  persistCommitProposerOnly c = match persistWriterMode c with ModeAll => false | _ => true end.

(** A block this node decides to write is not dropped by its own worker's guard, also
    when it takes over from a proposer that does not write. *)
Theorem allowed_is_executed (c : PersistConfig) (e : surroundings) (id : ValidatorID) (w : PersistenceWorker) (task : PersistenceTask) (s : Persist)
  (Hmode : modes_agree c) (Hid : e_status e = Some id) (H : allowed (decision_for c e (t_Block task) s).1 = true) :
  (shouldExecuteTask task (writer_policy c id w)).1 = true.
Proof.
  unfold decision_for, persistWriterDecisionForBlock in H. rewrite Hid in H. unfold shouldExecuteTask, writer_policy.
  unfold modes_agree in Hmode. rewrite Hmode. cbn [writerNodeID writerProposerOnly writerPolicyConfigured SetWriterPolicy].
  assert (Hz : isZeroValidatorID (proposerID (t_Block task)) = false).
  { destruct (isZeroValidatorID _) eqn:Hz; [|done]. destruct (persistWriterMode c); cbn in H;
      unfold decidePersistWithTakeover, decidePersistFromCommit in H; rewrite Hz in H; done. }
  rewrite Hz. destruct (persistWriterMode c); cbn; [done..|]. cbn in H. unfold decidePersistFromCommit in H. rewrite Hz in H. cbn in H.
  destruct (bool_decide (id = proposerID (t_Block task))); done.
Qed.

(** ** Concrete runs *)

Definition demo_persist : PersistConfig :=
  MkPersistConfig true ModeProposer 2 (5 * Second) Second true 1 (15 * Second) 4 2 true (2 * Second) true (Some 1) true 85 3 (5 * Second).
Definition demo_id : ValidatorID := replicate 32 x09.
Definition demo_around (n : Z) : surroundings := MkSurroundings (Some demo_id) true (Some 0) 7 (time_Unix (1700000000 + n)).
Definition demo_worker : PersistenceWorker := (Start (writer_policy demo_persist demo_id (NewPersistenceWorker demo_cfg))).2.

Definition task_at (h : Z) : PersistenceTask :=
  MkTask (MkAppBlock h zero32 zero32 zero32 demo_id (time_Unix 1700000001) (be_put 32 h) 0 []) [] zero32 [] 0.

(** Three commits whose enqueueing times out. *)
Definition demo_commits : list persist_op :=
  (fun h => PCommit (demo_around h) (demo_around h) (demo_around h) (task_at h) TimedOut) <$> [1; 2; 3].

Lemma pending_bounded_witness :
  Z.of_nat (size (persistBackfillPending (foldl (run_persist demo_persist key_order) (NewPersist demo_worker) demo_commits))) <= 2.
Proof.
  apply (pending_bounded demo_persist key_order demo_worker demo_commits); [done|].
  repeat (constructor; [done|]). constructor.
Defined.

Lemma collect_lowest_due_witness :
  let s := foldl (run_persist demo_persist key_order) (NewPersist demo_worker) demo_commits in
  let '(hs, s') := collectPersistBackfillCandidates demo_persist key_order 0 7 (time_Unix 1700000060) s in
  let due h := exists e, persistBackfillPending s !! h = Some e /\ 0 < h <= 7 /\ (shouldBackfillNow demo_persist e (time_Unix 1700000060)).1 = true in
  StronglySorted Z.lt hs /\ len hs <= 4 /\ (forall h, h ∈ hs -> due h) /\
  (forall h, due h -> h ∈ hs \/ (len hs = 4 /\ forall h', h' ∈ hs -> h' < h)) /\
  (forall h, h ∈ dom (persistBackfillPending s') <-> h ∈ dom (persistBackfillPending s) /\ 0 < h).
Proof.
  apply (collect_lowest_due demo_persist key_order 0 7 (time_Unix 1700000060)
           (foldl (run_persist demo_persist key_order) (NewPersist demo_worker) demo_commits)). done.
Defined.

Lemma writers_of_block_witness :
  filter (fun n => allowed (decidePersistFromCommit true n demo_id) = true) [replicate 32 x01; demo_id] = [demo_id].
Proof.
  apply (proj1 (writers_of_block [replicate 32 x01; demo_id] demo_id ltac:(apply (bool_decide_unpack _); vm_compute; exact I)));
    [reflexivity|by right; left].
Defined.

Lemma allowed_is_executed_witness :
  (shouldExecuteTask (task_at 7) (writer_policy demo_persist demo_id (NewPersistenceWorker demo_cfg))).1 = true.
Proof.
  apply (allowed_is_executed demo_persist (demo_around 1) demo_id (NewPersistenceWorker demo_cfg) (task_at 7) (NewPersist demo_worker));
    [done|done|vm_compute; reflexivity].
Defined.

Lemma cooldown_doubles_witness :
  nextBackgroundProbeCooldown 4 (5 * Second) = Z.min (5 * Second * 2 ^ 3) (60 * Second) /\ 0 < nextBackgroundProbeCooldown 4 (5 * Second) <= 60 * Second.
Proof. apply (cooldown_doubles 4 (5 * Second)). done. Defined.

(** ** A failed write *)

Lemma backfill_nothing c range e nl latest outs s : persistBackfillPending s = ∅ ->
  p_worker (tryPersistenceBackfill c range e nl latest outs s).2 = p_worker s.
Proof.
  intros Hs. unfold tryPersistenceBackfill. destruct (_ || _); [done|]. destruct nl; [done|]. destruct (negb _); [done|].
  destruct latest as [L|]; [|done]. destruct (_ <=? _); [done|].
  unfold collectPersistBackfillCandidates. rewrite Hs, map_filter_empty.
  assert (Hr : range ∅ = []) by (apply Permutation_nil; rewrite (visit_perm _ _ range); by rewrite map_to_list_empty).
  rewrite Hr. cbn. by destruct (_ <? _); [rewrite take_nil|].
Qed.

Definition failing_turns : list turn :=
  let t n := time_Unix (1700000000 + n) in
  (fun n => MkTurn (t n) (t n) PersistRetryable (t (n + 1)) 0 true) <$> [1; 2; 3].

(** The node commits block 7, and its worker writes it, in vain. *)
Definition seven_committed : Persist :=
  persist_on_commit demo_persist key_order (demo_around 1) (demo_around 1) (demo_around 1) (task_at 7) Sent (NewPersist demo_worker).
Definition seven_refused : option (list io * option verdict * PersistenceWorker) :=
  processTask (task_at 7) (time_Unix 1700000001) failing_turns (with_queue [] (p_worker seven_committed)).

Lemma seven_not_pending : persistBackfillPending seven_committed = ∅.
Proof. apply map_size_empty_inv. vm_compute. reflexivity. Qed.

Lemma seven_refused_eq :
  (fun r => (r.1.2, size (inflight r.2), queue r.2)) <$> seven_refused = Some (Some RetryExhausted, 0%nat, []).
Proof. vm_compute. reflexivity. Qed.

(** A block whose write fails for good is not tried again: after three refusals of the
    database it is neither queued nor marked, no entry was kept for it, and no backfill
    cycle, however it goes, gives it to the worker. *)
Theorem failed_write_forgotten :
  queue (p_worker seven_committed) = [task_at 7] /\
  exists l w, seven_refused = Some (l, Some RetryExhausted, w) /\ inflight w = ∅ /\
    forall e not_leader latest outcomes,
      queue (p_worker (tryPersistenceBackfill demo_persist key_order e not_leader latest outcomes (with_worker w seven_committed)).2) = [].
Proof.
  split; [vm_compute; reflexivity|]. pose proof seven_refused_eq as H. pose proof seven_not_pending as Hp.
  destruct seven_refused as [[[l v] w]|]; [|discriminate H]. cbn [fmap option_fmap option_map fst snd] in H.
  injection H as -> Hi Hq. exists l, w. split_and!; [done|by apply leibniz_equiv, size_empty_inv|].
  intros e nl latest outs. revert Hp. generalize seven_committed. intros s Hp. rewrite backfill_nothing; [exact Hq|exact Hp].
Qed.

(** A block whose enqueueing timed out has one early try; the cycle uses it up for the
    heights beyond its limit too, which are not tried. *)
Example fast_lane_wasted :
  let c := MkPersistConfig true ModeProposer 2 0 0 true 1 (15 * Second) 1 10 true (2 * Second) false None false 85 3 0 in
  let s := foldl (run_persist c key_order) (NewPersist demo_worker) demo_commits in
  let '(first, s') := collectPersistBackfillCandidates c key_order 0 7 (time_Unix 1700000010) s in
  let '(second, _) := collectPersistBackfillCandidates c key_order 1 7 (time_Unix 1700000011) s' in
  first = [1] /\ second = [].
Proof. vm_compute. split; reflexivity. Qed.
