(* ===== verification/Service.v ===== *)
(** backend/pkg/wiring/validator.go, commit_handler.go and proposer.go: the service
    around the consensus engine, which executes committed blocks against the state and
    offers blocks of its own when it leads a view. *)
From S2P Require Import Prelude Bytes Sha256 GoTime GoFloat Codec Merkle Store Executor Messages Block.
From S2P Require Import Mempool Builder Replay PersistWorker Persistence.
Import Codec Model.

(** ** State *)

Record ServiceConfig := MkServiceConfig {
  TimestampSkew : Z; StateRetainVersions : Z; sc_replay : ReplayConfig; sc_persist : PersistConfig;
  proposalTxHoldDuration : Z; genesisGracePeriod : Z; blockTimeout : Z; proposalCooldown : Z;
  backlogCooldown : Z; policyFastCooldown : Z; backlogTxThreshold : Z;
  AllowSoloProposal : bool; RequireActivePeers : bool; sc_MinMempoolTxs : Z }.

(** [s_persist] is [None] without a persistence worker; [proposeTriggers] is the number
    of items in [proposeTriggerCh], whose capacity is 1. *)
Record Service := MkService {
  lastCommittedHeight : Z; lastParent : BlockHash; lastRoot : bytes; commitStateSynced : bool;
  s_store : MemStore; s_mp : Mempool; proposedTxHold : gmap bytes Time; s_replay : Replay; s_persist : option Persist;
  s_builder : Builder; lastProposedView : Z; lastProposedHeight : Z; lastProposalTime : Time; proposalBlockedView : Z;
  proposeTriggers : Z; startTime : Time }.

(** [^uint64(0)]. *)
Definition no_view : Z := two64 - 1.

Definition NewService (genesis : BlockHash) (store : MemStore) (mp : Mempool) (p : option Persist) (b : Builder) (start : Time) : Service :=
  MkService 0 genesis zero32 false store mp ∅ NewReplay p b no_view 0 zero_time no_view 0 start.

Definition set_position (height : Z) (parent : BlockHash) (synced : bool) (s : Service) : Service :=
  MkService height parent (lastRoot s) synced (s_store s) (s_mp s) (proposedTxHold s) (s_replay s) (s_persist s)
    (s_builder s) (lastProposedView s) (lastProposedHeight s) (lastProposalTime s) (proposalBlockedView s) (proposeTriggers s) (startTime s).
Definition set_root (root : bytes) (s : Service) : Service :=
  MkService (lastCommittedHeight s) (lastParent s) root (commitStateSynced s) (s_store s) (s_mp s) (proposedTxHold s) (s_replay s) (s_persist s)
    (s_builder s) (lastProposedView s) (lastProposedHeight s) (lastProposalTime s) (proposalBlockedView s) (proposeTriggers s) (startTime s).
Definition set_store (store : MemStore) (s : Service) : Service :=
  MkService (lastCommittedHeight s) (lastParent s) (lastRoot s) (commitStateSynced s) store (s_mp s) (proposedTxHold s) (s_replay s) (s_persist s)
    (s_builder s) (lastProposedView s) (lastProposedHeight s) (lastProposalTime s) (proposalBlockedView s) (proposeTriggers s) (startTime s).
Definition set_pools (mp : Mempool) (hold : gmap bytes Time) (r : Replay) (s : Service) : Service :=
  MkService (lastCommittedHeight s) (lastParent s) (lastRoot s) (commitStateSynced s) (s_store s) mp hold r (s_persist s)
    (s_builder s) (lastProposedView s) (lastProposedHeight s) (lastProposalTime s) (proposalBlockedView s) (proposeTriggers s) (startTime s).
Definition set_persist (p : option Persist) (s : Service) : Service :=
  MkService (lastCommittedHeight s) (lastParent s) (lastRoot s) (commitStateSynced s) (s_store s) (s_mp s) (proposedTxHold s) (s_replay s) p
    (s_builder s) (lastProposedView s) (lastProposedHeight s) (lastProposalTime s) (proposalBlockedView s) (proposeTriggers s) (startTime s).
Definition set_builder (b : Builder) (s : Service) : Service :=
  MkService (lastCommittedHeight s) (lastParent s) (lastRoot s) (commitStateSynced s) (s_store s) (s_mp s) (proposedTxHold s) (s_replay s) (s_persist s)
    b (lastProposedView s) (lastProposedHeight s) (lastProposalTime s) (proposalBlockedView s) (proposeTriggers s) (startTime s).
Definition set_proposed (view height : Z) (at_ : Time) (s : Service) : Service :=
  MkService (lastCommittedHeight s) (lastParent s) (lastRoot s) (commitStateSynced s) (s_store s) (s_mp s) (proposedTxHold s) (s_replay s) (s_persist s)
    (s_builder s) view height at_ (proposalBlockedView s) (proposeTriggers s) (startTime s).
Definition set_blocked (view : Z) (s : Service) : Service :=
  MkService (lastCommittedHeight s) (lastParent s) (lastRoot s) (commitStateSynced s) (s_store s) (s_mp s) (proposedTxHold s) (s_replay s) (s_persist s)
    (s_builder s) (lastProposedView s) (lastProposedHeight s) (lastProposalTime s) view (proposeTriggers s) (startTime s).
Definition set_triggers (n : Z) (s : Service) : Service :=
  MkService (lastCommittedHeight s) (lastParent s) (lastRoot s) (commitStateSynced s) (s_store s) (s_mp s) (proposedTxHold s) (s_replay s) (s_persist s)
    (s_builder s) (lastProposedView s) (lastProposedHeight s) (lastProposalTime s) (proposalBlockedView s) n (startTime s).

Inductive service_error := ErrAlreadyCommittedBlock | ErrInvalidParent | ErrApply (e : state_error).
#[export] Instance service_error_eq_dec : EqDecision service_error.
Proof. solve_decision. Defined.

Definition SM (A : Type) : Type := ST Service service_error A.

(** [notifyProposeTrigger]: one item fits. *)
Definition notifyProposeTrigger (s : Service) : Service := set_triggers (Z.min 1 (proposeTriggers s + 1)) s.
(** [drainProposeTriggerQueue]. *)
Definition drainProposeTriggerQueue (maxDrain : Z) (s : Service) : Service :=
  if maxDrain <=? 0 then s else set_triggers (Z.max 0 (proposeTriggers s - maxDrain)) s.

(** ** Committing *)

(** What the engine commits: a block of ours or another implementation of the interface. *)
Inductive committed_block := OurBlock (ab : AppBlock) | OtherBlock (b : Messages.Block).
Definition block_of (b : committed_block) : Messages.Block := match b with OurBlock ab => as_block ab | OtherBlock b => b end.

(** The critical section of [validateBlock] at its start: [initialCatchup], what the
    parent should be, and whether to mark the service synchronised. *)
Definition validate_position (b : Messages.Block) : SM (bool * BlockHash * bool) :=
  s ← gets id;
  let expectedHeight := u64 (lastCommittedHeight s + 1) in
  fail_if (GetHeight b <? expectedHeight) ErrAlreadyCommittedBlock ;;
  if expectedHeight <? GetHeight b then
    modify (fun s => set_position (u64 (GetHeight b - 1)) (GetParentHash b) (commitStateSynced s) s) ;;
    mret (true, GetParentHash b, true)
  else mret (false, lastParent s, negb (commitStateSynced s)).

(** [strict] is the reading of COMMIT_VALIDATOR_STRICT_PARENT_HASH. *)
Definition validateBlock (strict : bool) (b : Messages.Block) : SM unit :=
  p ← validate_position b;
  let '(initialCatchup, expectedParent, shouldMarkSynced) := (p : bool * BlockHash * bool) in
  (if negb (bool_decide (GetParentHash b = expectedParent)) && negb initialCatchup then
     fail_if strict ErrInvalidParent ;;
     modify (fun s => set_position (if 0 <? GetHeight b then u64 (GetHeight b - 1) else lastCommittedHeight s) (GetParentHash b) true s)
   else mret tt) ;;
  modify (fun s => if shouldMarkSynced : bool then set_position (lastCommittedHeight s) (lastParent s) true s else s).

(** What a commit sees of its surroundings: the clock, the orders of the iterations,
    the metadata of the certificate, and what persistence meets. *)
Record commit_env := MkCommitEnv {
  ce_strict : bool; ce_since : Time; ce_remember : Time; ce_range : map_range; ce_range2 : map_range;
  ce_replay_range : visit_order bytes Time; ce_pending_range : visit_order Z pendingPersistenceEntry;
  ce_qcData : bytes; ce_stats : surroundings; ce_first : surroundings; ce_again : surroundings; ce_outcome : send_outcome }.

(** The skew the block is executed with: widened for old transactions, else for an old
    block, by the clock. *)
Definition commit_skew (c : ServiceConfig) (since : Time) (ab : AppBlock) : Z :=
  let blockTime := timestamp ab in
  let skew := if TimestampSkew c =? 0 then 30 * Second else TimestampSkew c in
  let oldest := foldl (fun oldest tx =>
      let ts := time_Unix (Timestamp tx) in if Before ts oldest then ts else oldest) blockTime (txs ab) in
  let delta := Sub blockTime oldest in
  if skew <? delta then delta
  else
    let blockLag := Sub since blockTime in
    if skew <? blockLag then blockLag else skew.

Definition identity_keys (l : list Transaction) : list ProducerNonce :=
  (fun tx => MkProducerNonce (ProducerID (Envelope_ tx)) (Nonce (Envelope_ tx))) <$> l.

(** What is cleaned up after a block: replay filter, mempool and holds. *)
Definition forget_committed (c : ServiceConfig) (e : commit_env) (ab : AppBlock) (receipts : list Receipt) (s : Service) : Service :=
  let hashes := rc_ContentHash <$> receipts in
  let r := rememberCommittedTransactions (sc_replay c) (ce_replay_range e) (txs ab) (ce_remember e) (s_replay s) in
  let mp := Remove (ce_range e) hashes (s_mp s) in
  let mp := RemoveByProducerNonces (ce_range2 e) (identity_keys (txs ab)) mp in
  set_pools mp (clearProposedTxHold hashes (proposedTxHold s)) r s.

(** [onCommit] from the execution on. The fast publication of policies, metrics and logs
    are left out. *)
Definition execute_block (c : ServiceConfig) (e : commit_env) (ab : AppBlock) : SM unit :=
  store ← gets s_store;
  let '(store', r) := ApplyBlock store (timestamp ab) (commit_skew c (ce_since e) ab) (txs ab) in
  modify (set_store store') ;;
  match err r with
  | Some x => throw (ErrApply x)
  | None =>
      modify (fun s => set_root (root r) (set_position (Block.height ab) (hash ab) (commitStateSynced s) s)) ;;
      modify (forget_committed c e ab (receipts r)) ;;
      modify (fun s => set_store (PruneRetain (s_store s) (StateRetainVersions c)) s) ;;
      modify (fun s => if 0 <? (Mempool.Stats (s_mp s)).1 then notifyProposeTrigger s else s) ;;
      modify (fun s =>
        match s_persist s with
        | None => s
        | Some p =>
            let task := MkTask ab (receipts r) (root r) (ce_qcData e) 0 in
            set_persist (Some (persist_on_commit (sc_persist c) (ce_pending_range e) (ce_stats e) (ce_first e) (ce_again e) task (ce_outcome e) p)) s
        end)
  end.

Definition onCommit (c : ServiceConfig) (e : commit_env) (b : committed_block) : SM unit :=
  fun s =>
    match validateBlock (ce_strict e) (block_of b) s with
    | (Err ErrAlreadyCommittedBlock, s) => (Ok tt, s)
    | (Err x, s) => (Err x, s)
    | (Ok _, s) => match b with OurBlock ab => execute_block c e ab s | OtherBlock _ => (Ok tt, s) end
    end.

(** ** Proposing *)

Definition effectiveProposalCooldown (base backlogFast policyFast txCount backlogThreshold : Z) (hasPolicy : bool) : Z :=
  if base <=? 0 then base
  else
    let effective :=
      if (0 <? backlogFast) && (backlogThreshold <=? txCount) && (0 <? backlogThreshold) && (backlogFast <? base) then backlogFast else base in
    if (0 <? policyFast) && hasPolicy && (policyFast <? effective) then policyFast else effective.

Definition shouldEnforceActivePeerGate (requireActivePeers : bool) (activePeers requiredPeers : Z) : bool :=
  requireActivePeers && (activePeers <? requiredPeers).

(** How [SubmitBlock] returned; [RecoverProposalWindow] is asked when the view's window
    is at fault, and says whether it recovered. *)
Inductive submit_outcome := SubmitOk | SubmitStale | SubmitAlreadyVoted | SubmitNotLeader | SubmitReplayWindow (recovered : bool) | SubmitOther.

(** One turn of the retry loop: the engine's view and leadership ([None] an error). *)
Record attempt_env := MkAttempt { at_view : Z; at_leader : option bool; at_outcome : submit_outcome }.

(** What one call of [tryPropose] sees: the engine, the router (validators, connected
    and active peers), the clock and the orders of the iterations. *)
Record propose_env := MkProposeEnv {
  currentView : Z; currentHeight : Z; height_again : Z; consensus_active : bool; local_ready : bool;
  router : option (Z * Z * Z); is_leader : option bool; leader_eligible : bool; quorum_handshake : bool; nodeID : ValidatorID;
  t_cooldown : Time; t_genesis : Time; t_exclusions : Time; t_build : Time; t_filter : Time; t_start : Time; t_done : Time;
  pr_policy : map_range; pr_stats : map_range; pr_select : map_range; submits : Z -> attempt_env }.

Inductive propose_result :=
| NotActive | NotReady | ViewBlocked | ViewTaken | Cooling | GracePeriod | PeersMissing | PeersInactive | LeaderUnknown | NotLeader
| Ineligible | NoHandshake | BelowThreshold | NothingToPropose | NothingLeft
| Proposed (blk : AppBlock) (calls : Z) (accepted : bool).

(** The gate on peers: the connections a quorum needs besides ourselves. *)
Definition requiredPeers (totalValidators : Z) : Z :=
  let requiredQuorum := if 1 <? totalValidators then 2 * Z.quot (totalValidators - 1) 3 + 1 else 1 in
  requiredQuorum - 1.

Definition peer_gate (c : ServiceConfig) (r : option (Z * Z * Z)) : option propose_result :=
  match r with
  | None => None
  | Some (totalValidators, connectedPeers, activePeers) =>
      let need := requiredPeers totalValidators in
      if (connectedPeers <? need) && negb (AllowSoloProposal c) then Some PeersMissing
      else if shouldEnforceActivePeerGate (RequireActivePeers c) activePeers need && negb (AllowSoloProposal c) then Some PeersInactive
      else None
  end.

Definition maxRetries : Z := 3.

(** The submission loop from [attempt] on, of which [n] turns are left: how often
    [SubmitBlock] was called, whether it took the block, and the service afterwards. *)
Fixpoint submit_loop (view : Z) (turns : Z -> attempt_env) (n : nat) (attempt : Z) (s : Service) : Z * bool * Service :=
  match n with
  | O => (0, false, s)
  | S n' =>
      let t := turns attempt in
      if negb (at_view t =? view) then (0, false, s)
      else
        match at_leader t with
        | None | Some false => (0, false, s)
        | Some true =>
            let retry :=
              if attempt <? maxRetries - 1 then
                let '(calls, ok, s') := submit_loop view turns n' (attempt + 1) s in (calls + 1, ok, s')
              else (1, false, s) in
            match at_outcome t with
            | SubmitOk => (1, true, s)
            | SubmitStale | SubmitNotLeader | SubmitReplayWindow false => (1, false, s)
            | SubmitAlreadyVoted => (1, false, set_blocked view s)
            | SubmitReplayWindow true | SubmitOther => retry
            end
        end
  end.

(** From the building of the block on. *)
Definition propose_block (c : ServiceConfig) (e : propose_env) (s : Service) : propose_result * Service :=
  let height := if currentHeight e =? 0 then height_again e else currentHeight e in
  let parent := lastParent s in
  let '(exclusions, hold) := snapshotProposedTxExclusions (t_exclusions e) (proposedTxHold s) in
  let s := set_pools (s_mp s) hold (s_replay s) s in
  let '(blk, b) := BuildWithExclusions (pr_stats e) (pr_select e) (s_mp s) (s_store s) height parent (nodeID e) (t_build e) exclusions (s_builder s) in
  let s := set_builder b s in
  if txCount blk =? 0 then (NothingToPropose, s)
  else
    let '(blk, _, r) := filterCommittedTxFromBlock (sc_replay c) blk (t_filter e) (s_replay s) in
    let s := set_pools (s_mp s) (proposedTxHold s) r s in
    if txCount blk =? 0 then (NothingLeft, s)
    else
      let s := set_proposed (currentView e) height (t_start e) s in
      let '(calls, accepted, s) := submit_loop (currentView e) (submits e) (Z.to_nat maxRetries) 0 s in
      let s :=
        if accepted : bool then
          set_proposed (lastProposedView s) (lastProposedHeight s) (t_done e)
            (set_pools (s_mp s) (recordProposedTxHold (proposalTxHoldDuration c) blk (t_done e) (proposedTxHold s)) (s_replay s) s)
        else s in
      (Proposed blk calls accepted, s).

Definition tryPropose (c : ServiceConfig) (e : propose_env) (s : Service) : propose_result * Service :=
  let timeout := if blockTimeout c <=? 0 then 5 * Second else blockTimeout c in
  let cooldownWindow := if proposalCooldown c <=? 0 then timeout else proposalCooldown c in
  if negb (consensus_active e) then (NotActive, s)
  else if negb (local_ready e) then (NotReady, s)
  else
    let mempoolTxs := (Mempool.Stats (s_mp s)).1 in
    let hasPolicy := HasPolicyTx (pr_policy e) (s_mp s) in
    let s := if negb (proposalBlockedView s =? no_view) && negb (proposalBlockedView s =? currentView e) then set_blocked no_view s else s in
    if proposalBlockedView s =? currentView e then (ViewBlocked, s)
    else if lastProposedView s =? currentView e then (ViewTaken, s)
    else
      let effectiveCooldown :=
        effectiveProposalCooldown cooldownWindow (backlogCooldown c) (policyFastCooldown c) mempoolTxs (backlogTxThreshold c) hasPolicy in
      if (lastProposedView s =? currentView e) && negb (IsZero (lastProposalTime s)) &&
         (Sub (t_cooldown e) (lastProposalTime s) <? effectiveCooldown) then (Cooling, s)
      else if (currentHeight e =? 0) && (Sub (t_genesis e) (startTime s) <? genesisGracePeriod c) then (GracePeriod, s)
      else
        match peer_gate c (router e) with
        | Some r => (r, s)
        | None =>
            match is_leader e with
            | None => (LeaderUnknown, s)
            | Some false => (NotLeader, s)
            | Some true =>
                if negb (leader_eligible e) then (Ineligible, s)
                else if negb (quorum_handshake e) then (NoHandshake, s)
                else if (0 <? sc_MinMempoolTxs c) && ((Mempool.Stats (s_mp s)).1 <? sc_MinMempoolTxs c) then (BelowThreshold, s)
                else propose_block c e s
            end
        end.

(** The callbacks for proposals of others, and the admission filter. *)
Definition observe_proposal (c : ServiceConfig) (blk : option AppBlock) (now : Time) (s : Service) : Service :=
  set_pools (s_mp s) (recordObservedProposalTxHold (proposalTxHoldDuration c) blk now (proposedTxHold s)) (s_replay s) s.

Definition reject_replay (c : ServiceConfig) (tx : Transaction) (now : Time) (s : Service) : bool * Service :=
  let '(known, r) := shouldRejectReplayOnAdmit (sc_replay c) tx now (s_replay s) in
  (known, set_pools (s_mp s) (proposedTxHold s) r s).
