(* ===== verification/ServiceRuns.v ===== *)
(** What the service guarantees over runs: blocks are executed once and in order, nodes
    that execute the same blocks hold the same state, committed transactions are cleared
    away, and a view gets one proposal; with the runs in which nodes part. *)
From S2P Require Import Prelude Bytes Sha256 GoTime GoFloat Codec Merkle Store Executor Messages Block.
From S2P Require Import Mempool MempoolSpec MempoolRuns Builder Replay PersistWorker Persistence Service.
Import Codec Model.

(** ** Execution depends on the latest snapshot only *)

Definition head (m : MemStore) : option snapshot := snaps m !! latest m.

Section same_head.
Context (m1 m2 : MemStore) (Hhead : head m1 = head m2).

Definition same_txn (t1 t2 : Txn) : Prop :=
  baseVersion t1 = latest m1 /\ baseVersion t2 = latest m2 /\ writes t1 = writes t2.

Lemma same_get t1 t2 k : same_txn t1 t2 -> Txn_Get m1 t1 k = Txn_Get m2 t2 k.
Proof.
  intros (H1 & H2 & Hw). unfold Txn_Get, Get. rewrite Hw, H1, H2. destruct (writes t2 !! k); [done|].
  unfold head in Hhead. by rewrite Hhead.
Qed.

(** The same error, or transactions with the same writes. *)
Definition same_result {E} (r1 r2 : result E Txn) : Prop :=
  match r1, r2 with
  | Ok t1, Ok t2 => same_txn t1 t2
  | Err e1, Err e2 => e1 = e2
  | _, _ => False
  end.

Lemma same_bind {E} (r1 r2 : result E Txn) f1 f2 : same_result r1 r2 ->
  (forall t1 t2, same_txn t1 t2 -> same_result (f1 t1) (f2 t2)) -> same_result (r1 ≫= f1) (r2 ≫= f2).
Proof. destruct r1, r2; cbn; naive_solver. Qed.

Lemma same_put t1 t2 k v : same_txn t1 t2 -> same_result (Put t1 k v) (Put t2 k v).
Proof. intros (H1 & H2 & Hw). unfold Put. repeat case_match; cbn; try done. unfold same_txn. cbn. by rewrite Hw. Qed.

Lemma same_bump env ts t1 t2 : same_txn t1 t2 -> same_result (bump_producer m1 env ts t1) (bump_producer m2 env ts t2).
Proof.
  intros H. unfold bump_producer. apply same_bind; [by apply same_put|]. intros a b Hab. cbv zeta.
  rewrite (same_get a b) by done. apply same_bind; [by apply same_put|]. intros a' b' Hab'. by apply same_put.
Qed.

Lemma same_coc h i l t1 t2 : same_txn t1 t2 -> same_result (put_coc h i l t1) (put_coc h i l t2).
Proof.
  revert i t1 t2. induction l as [|x l IH]; intros i t1 t2 H; cbn [put_coc]; [done|].
  apply same_bind; [by apply same_put|]. intros a b Hab. by apply IH.
Qed.

Lemma same_reducer tx t1 t2 : same_txn t1 t2 -> same_result (apply_reducer m1 tx t1) (apply_reducer m2 tx t2).
Proof.
  intros H. destruct tx as [e|e|e]; cbn; unfold ApplyEvent, ApplyEvidence, ApplyPolicy;
    (apply same_bind; [by apply same_put|]; intros a b Hab); [by apply same_bump| |];
    (apply same_bind; [by (apply same_coc || apply same_put)|]; intros a' b' Hab'); by apply same_bump.
Qed.

(** Two skews that both accept the transaction make no difference. *)
Lemma same_exec_tx now k1 k2 tx t1 t2 a b : same_txn t1 t2 ->
  exec_tx m1 now k1 tx t1 = Ok a -> exec_tx m2 now k2 tx t2 = Ok b -> same_txn a b.
Proof.
  intros H. unfold exec_tx. destruct (Validate tx now k1) as [[]|]; [|done]. destruct (Validate tx now k2) as [[]|]; [|done].
  cbv zeta. rewrite (same_get t1 t2) by done. pose proof (same_reducer tx t1 t2 H) as Hr.
  destruct (apply_reducer m1 tx t1), (apply_reducer m2 tx t2); cbn in Hr; try done;
    destruct (Txn_Get m2 t2 _) as [v|]; try (destruct (0 <? len v)); try (case_bool_decide); congruence.
Qed.

Lemma same_exec_all now k1 k2 txs t1 t2 a b : same_txn t1 t2 ->
  exec_all m1 now k1 txs t1 = Ok a -> exec_all m2 now k2 txs t2 = Ok b -> same_txn a b.
Proof.
  revert t1 t2. induction txs as [|tx txs IH]; intros t1 t2 H; cbn [exec_all]; [intros [= <-] [= <-]; done|].
  intros (x & Hx & H1)%bind_Ok_inv (y & Hy & H2)%bind_Ok_inv. eapply IH; [|exact H1|exact H2].
  by eapply same_exec_tx.
Qed.

(** Stores with the same latest snapshot that both execute a block have the same one
    afterwards, and the same root, whatever skew each of them allowed. *)
Lemma ApplyBlock_same now k1 k2 txs m1' r1 m2' r2 :
  ApplyBlock m1 now k1 txs = (m1', r1) -> err r1 = None ->
  ApplyBlock m2 now k2 txs = (m2', r2) -> err r2 = None ->
  head m1' = head m2' /\ root r1 = root r2.
Proof.
  intros A1 E1 A2 E2. destruct (ApplyBlock_Ok _ _ _ _ _ _ A1 E1) as (_ & _ & _ & t1 & X1 & _ & C1).
  destruct (ApplyBlock_Ok _ _ _ _ _ _ A2 E2) as (_ & _ & _ & t2 & X2 & _ & C2).
  assert (H : same_txn t1 t2) by (eapply same_exec_all; [|exact X1|exact X2]; done).
  destruct H as (B1 & B2 & Hw). apply Commit_ok_inv in C1 as (_ & _ & -> & ->), C2 as (_ & _ & -> & ->).
  rewrite B1, B2, Hw. unfold head in Hhead. rewrite Hhead. unfold head. cbn. by rewrite !lookup_insert_eq.
Qed.
End same_head.

Lemma head_prune m retain : head (PruneRetain m retain) = head m.
Proof.
  unfold PruneRetain. destruct (_ || _); [done|].
  apply (foldl_invariant (fun x => head x = head m /\ latest x = latest m)); [done|].
  intros a v _ [Ha Hl]. destruct (v =? latest a) eqn:Hv; [done|]. go_bool. unfold head in *. cbn. by rewrite lookup_delete_ne.
Qed.

(** ** Committing one block *)

(** Heights of consensus, below the largest 64-bit value. *)
Definition height_ok (h : Z) : Prop := 0 <= h < no_view.

Ltac run_monad := cbv [mbind ST_bind mret ST_ret gets modify fail_if throw id].

(** A block is accepted when it lies above the last one; the service is then aligned to
    just below it. *)
Lemma validateBlock_inv strict b s r s' : height_ok (lastCommittedHeight s) -> height_ok (GetHeight b) ->
  validateBlock strict b s = (r, s') ->
  (r = Ok tt /\ lastCommittedHeight s < GetHeight b /\ s' = set_position (GetHeight b - 1) (GetParentHash b) true s) \/
  (s' = s /\ ((r = Err ErrAlreadyCommittedBlock /\ GetHeight b <= lastCommittedHeight s) \/
              (r = Err ErrInvalidParent /\ strict = true /\ lastCommittedHeight s < GetHeight b))).
Proof.
  unfold height_ok, no_view. intros Hs Hb. unfold validateBlock, validate_position. run_monad.
  rewrite (u64_small (lastCommittedHeight s + 1)) by lia.
  destruct (Z.ltb_spec (GetHeight b) (lastCommittedHeight s + 1)); [intros [= <- <-]; right; split; [done|left; split; [done|lia]]|].
  rewrite (u64_small (GetHeight b - 1)) by lia.
  destruct (Z.ltb_spec (lastCommittedHeight s + 1) (GetHeight b)).
  { rewrite bool_decide_true by done. cbn. intros [= <- <-]. left. split_and!; [done|lia|done]. }
  case_bool_decide as Hp; cbn.
  - intros [= <- <-]. left. split_and!; [done|lia|]. rewrite Hp. replace (GetHeight b - 1) with (lastCommittedHeight s) by lia.
    destruct s. cbn in *. destruct commitStateSynced; done.
  - destruct strict; [intros [= <- <-]; right; split; [done|right; split_and!; done || lia]|].
    destruct (Z.ltb_spec 0 (GetHeight b)); [|lia]. intros [= <- <-]. left. split_and!; [done|lia|].
    destruct s. cbn in *. destruct commitStateSynced; done.
Qed.

Lemma Commit_never_fails store now skew txs : (forall e, err (ApplyBlock store now skew txs).2 = Some e -> (ApplyBlock store now skew txs).1 = store).
Proof.
  intros e He. destruct (ApplyBlock store now skew txs) as [st r] eqn:H. cbn in *.
  destruct (ApplyBlock_err _ _ _ _ _ _ H) as [-> _]; [by rewrite He|done].
Qed.

(** What executing a block does to the position, the root and the store. *)
Lemma execute_block_inv c e ab s r s' : execute_block c e ab s = (r, s') ->
  let '(store', res) := ApplyBlock (s_store s) (timestamp ab) (commit_skew c (ce_since e) ab) (txs ab) in
  lastProposedView s' = lastProposedView s /\
  match err res with
  | Some x => r = Err (ErrApply x) /\ s' = s
  | None => r = Ok tt /\ lastCommittedHeight s' = Block.height ab /\ lastParent s' = hash ab /\ lastRoot s' = root res /\
      commitStateSynced s' = commitStateSynced s /\ s_store s' = PruneRetain store' (StateRetainVersions c) /\
      s_mp s' = RemoveByProducerNonces (ce_range2 e) (identity_keys (txs ab)) (Remove (ce_range e) (rc_ContentHash <$> receipts res) (s_mp s)) /\
      proposedTxHold s' = clearProposedTxHold (rc_ContentHash <$> receipts res) (proposedTxHold s) /\
      s_replay s' = rememberCommittedTransactions (sc_replay c) (ce_replay_range e) (txs ab) (ce_remember e) (s_replay s)
  end.
Proof.
  unfold execute_block. run_monad. pose proof (Commit_never_fails (s_store s) (timestamp ab) (commit_skew c (ce_since e) ab) (txs ab)) as Hf.
  destruct (ApplyBlock _ _ _ _) as [store' res] eqn:Ha. cbn in Hf. destruct (err res) as [x|] eqn:He.
  - intros [= <- <-]. rewrite (Hf x eq_refl). destruct s. done.
  - intros [= <- <-]. destruct (0 <? _); (destruct (s_persist s) eqn:Hp; cbn; rewrite ?Hp; cbn; split_and!; reflexivity).
Qed.

(** The block this callback executed, if it executed one. *)
Definition executed (c : ServiceConfig) (e : commit_env) (b : committed_block) (s : Service) : option AppBlock :=
  match validateBlock (ce_strict e) (block_of b) s, b with
  | (Ok _, s1), OurBlock ab => if is_ok (execute_block c e ab s1).1 then Some ab else None
  | _, _ => None
  end.

Definition block_height_ok (b : committed_block) : Prop := height_ok (GetHeight (block_of b)).

Lemma onCommit_inv c e b s : height_ok (lastCommittedHeight s) -> block_height_ok b ->
  let s' := (onCommit c e b s).2 in
  lastProposedView s' = lastProposedView s /\ lastCommittedHeight s <= lastCommittedHeight s' /\ height_ok (lastCommittedHeight s') /\
  match executed c e b s with
  | Some ab => lastCommittedHeight s < Block.height ab /\ lastCommittedHeight s' = Block.height ab /\
      latest (s_store s') = u64 (latest (s_store s) + 1)
  | None => s_store s' = s_store s
  end.
Proof.
  intros Hs Hb. unfold onCommit, executed. destruct (validateBlock (ce_strict e) (block_of b) s) as [r s1] eqn:Hv.
  destruct (validateBlock_inv _ _ _ _ _ Hs Hb Hv) as [(-> & Hlt & ->)|(-> & [(-> & Hle)|(-> & _ & Hlt)])]; cbn.
  2, 3: (split_and!; [done|lia|done|by destruct b..]).
  unfold block_height_ok, height_ok in *. destruct b as [ab|ob]; cbn [block_of as_block GetHeight GetParentHash] in *.
  2: { cbn. split_and!; [done|lia|lia|lia|done]. }
  set (s1 := set_position _ _ _ s). destruct (execute_block c e ab s1) as [r s2] eqn:Hx. cbn.
  apply execute_block_inv in Hx. change (s_store s1) with (s_store s) in Hx.
  destruct (ApplyBlock (s_store s) _ _ _) as [store' res] eqn:Ha. destruct Hx as [Hpv Hx]. destruct (err res) as [x|] eqn:He.
  - destruct Hx as [-> ->]. cbn. split_and!; [done|lia|lia|lia|done].
  - destruct Hx as (-> & Hh & _ & _ & _ & Hst & _). cbn. rewrite Hh.
    split_and!; [done|lia|lia|lia|lia|done|]. rewrite Hst.
    destruct (ApplyBlock_Ok _ _ _ _ _ _ Ha He) as (_ & _ & _ & t & _ & Hn & Hc).
    apply Commit_ok_inv in Hc as (Hnv & Hl & _ & ->). unfold PruneRetain. cbn [snaps latest].
    assert (Hkeep : forall l m, latest (foldl (fun m v => if v =? latest m then m else MkStore (delete v (snaps m)) (delete v (roots m)) (latest m)) m l) = latest m).
    { intros l. induction l as [|v l IH]; intros m; [done|]. cbn. rewrite IH. by destruct (v =? latest m). }
    destruct (_ || _); [|rewrite Hkeep]; cbn; rewrite Hnv; by rewrite Hl.
Qed.

(** ** Runs of commits *)

(** The blocks executed, in order, and the service afterwards. *)
Fixpoint run_commits (c : ServiceConfig) (cs : list (commit_env * committed_block)) (s : Service) : list AppBlock * Service :=
  match cs with
  | [] => ([], s)
  | (e, b) :: cs' =>
      let '(l, s') := run_commits c cs' (onCommit c e b s).2 in
      (match executed c e b s with Some ab => ab :: l | None => l end, s')
  end.

(** C22. However the engine delivers committed blocks, repeated, out of order, with gaps or
    failing, the heights that are executed increase: no height is executed twice, and
    each execution adds one version to the store. *)
Theorem executed_once (c : ServiceConfig) (cs : list (commit_env * committed_block)) (s : Service)
  (Hs : height_ok (lastCommittedHeight s)) (Hcs : Forall (fun x => block_height_ok x.2) cs)
  (Hlatest : 0 <= latest (s_store s) < two64) :
  let '(l, s') := run_commits c cs s in
  StronglySorted Z.lt (Block.height <$> l) /\
  (forall ab, ab ∈ l -> lastCommittedHeight s < Block.height ab <= lastCommittedHeight s') /\
  latest (s_store s') = u64 (latest (s_store s) + len l).
Proof.
  assert (H : forall cs s, height_ok (lastCommittedHeight s) -> Forall (fun x => block_height_ok x.2) cs ->
    0 <= latest (s_store s) < two64 ->
    let '(l, s') := run_commits c cs s in
    StronglySorted Z.lt (Block.height <$> l) /\ lastCommittedHeight s <= lastCommittedHeight s' /\
    (forall ab, ab ∈ l -> lastCommittedHeight s < Block.height ab <= lastCommittedHeight s') /\
    latest (s_store s') = u64 (latest (s_store s) + len l)).
  { clear. induction cs as [|[e b] cs IH]; intros s Hs Hcs Hl.
    - cbn. split_and!; [constructor|lia|by intros ab ?%elem_of_nil|]. unfold len. cbn. by rewrite Z.add_0_r, u64_small.
    - cbn [run_commits]. apply Forall_cons in Hcs as [Hb Hcs]. pose proof (onCommit_inv c e b s Hs Hb) as H. cbv zeta in H.
      set (s1 := (onCommit c e b s).2) in *. destruct H as (_ & Hle & Hok & Hex).
      assert (Hl1 : 0 <= latest (s_store s1) < two64).
      { destruct (executed c e b s); [destruct Hex as (_ & _ & ->); apply u64_range|by rewrite Hex]. }
      specialize (IH s1 Hok Hcs Hl1). destruct (run_commits c cs s1) as [l s']. destruct IH as (I1 & I2 & I3 & I4).
      destruct (executed c e b s) as [ab|].
      + destruct Hex as (E1 & E2 & E3). rewrite fmap_cons. split_and!; [|lia| |].
        * constructor; [done|]. apply Forall_forall. intros h (ab' & -> & Hin)%list_elem_of_fmap. specialize (I3 _ Hin). lia.
        * intros ab' [->|Hin]%elem_of_cons; [lia|]. specialize (I3 _ Hin). lia.
        * rewrite I4, E3. unfold u64. rewrite Z.add_mod_idemp_l by done. f_equal. unfold len. cbn [length]. lia.
      + split_and!; [done|lia| |by rewrite I4, Hex]. intros ab' Hin. specialize (I3 _ Hin). lia. }
  specialize (H cs s Hs Hcs Hlatest). destruct (run_commits c cs s). naive_solver.
Qed.

(** ** Nodes that execute the same blocks *)

(** What two nodes agree on; versions they keep and their pools may differ. *)
Definition agree (s1 s2 : Service) : Prop :=
  lastCommittedHeight s1 = lastCommittedHeight s2 /\ lastParent s1 = lastParent s2 /\ lastRoot s1 = lastRoot s2 /\
  head (s_store s1) = head (s_store s2).

(** Two nodes get the same callbacks, each with its own configuration, clock and luck:
    whether every call of both succeeds. *)
Fixpoint run_both (c1 c2 : ServiceConfig) (cs : list (commit_env * commit_env * committed_block)) (s1 s2 : Service) : bool * Service * Service :=
  match cs with
  | [] => (true, s1, s2)
  | (e1, e2, b) :: cs' =>
      let '(r1, s1') := onCommit c1 e1 b s1 in
      let '(r2, s2') := onCommit c2 e2 b s2 in
      let '(ok, s1'', s2'') := run_both c1 c2 cs' s1' s2' in
      (is_ok r1 && is_ok r2 && ok, s1'', s2'')
  end.

Lemma onCommit_agree c1 c2 e1 e2 b s1 s2 s1' s2' : height_ok (lastCommittedHeight s1) -> block_height_ok b -> agree s1 s2 ->
  onCommit c1 e1 b s1 = (Ok tt, s1') -> onCommit c2 e2 b s2 = (Ok tt, s2') -> agree s1' s2'.
Proof.
  intros Hs Hb (A1 & A2 & A3 & A4) H1 H2. unfold onCommit in *.
  destruct (validateBlock (ce_strict e1) (block_of b) s1) as [r1 t1] eqn:V1.
  destruct (validateBlock (ce_strict e2) (block_of b) s2) as [r2 t2] eqn:V2.
  pose proof (validateBlock_inv _ _ _ _ _ Hs Hb V1) as I1.
  assert (Hs2 : height_ok (lastCommittedHeight s2)) by (by rewrite <- A1).
  pose proof (validateBlock_inv _ _ _ _ _ Hs2 Hb V2) as I2. clear V1 V2.
  destruct I1 as [(-> & L1 & ->)|(-> & [(-> & L1)|(-> & _ & L1)])], I2 as [(-> & L2 & ->)|(-> & [(-> & L2)|(-> & _ & L2)])];
    try lia; try discriminate; cbn in H1, H2.
  - destruct b as [ab|ob]; [|injection H1 as <-; injection H2 as <-; unfold agree; cbn; auto].
    apply execute_block_inv in H1. apply execute_block_inv in H2.
    cbn [s_store set_position commitStateSynced] in H1, H2.
    destruct (ApplyBlock (s_store s1) _ _ _) as [st1 res1] eqn:B1, (ApplyBlock (s_store s2) _ _ _) as [st2 res2] eqn:B2.
    destruct H1 as [_ H1], H2 as [_ H2].
    destruct (err res1) eqn:E1; [by destruct H1|]. destruct (err res2) eqn:E2; [by destruct H2|].
    destruct H1 as (_ & P1 & P2 & P3 & _ & P4 & _), H2 as (_ & Q1 & Q2 & Q3 & _ & Q4 & _).
    destruct (ApplyBlock_same _ _ A4 _ _ _ _ _ _ _ _ B1 E1 B2 E2) as [Hh Hr].
    unfold agree. rewrite P1, P2, P3, P4, Q1, Q2, Q3, Q4, !head_prune. auto.
  - injection H1 as <-. injection H2 as <-. unfold agree. auto.
Qed.

(** C21. Nodes that start alike and execute the same callbacks without an error hold the same
    state: the same height, parent, state root and contents, whatever their clocks show,
    however wide the skew they allow and however many versions they keep. *)
Theorem replicas_agree (c1 c2 : ServiceConfig) (cs : list (commit_env * commit_env * committed_block)) (s1 s2 : Service)
  (Hs : height_ok (lastCommittedHeight s1)) (Hcs : Forall (fun x => block_height_ok x.2) cs) (Hagree : agree s1 s2)
  (Hok : (run_both c1 c2 cs s1 s2).1.1 = true) :
  agree (run_both c1 c2 cs s1 s2).1.2 (run_both c1 c2 cs s1 s2).2.
Proof.
  revert s1 s2 Hs Hagree Hok. induction Hcs as [|[[e1 e2] b] cs Hb Hcs IH]; intros s1 s2 Hs Hagree; cbn [run_both]; [done|].
  pose proof (onCommit_inv c1 e1 b s1 Hs Hb) as Hinv. cbv zeta in Hinv.
  destruct (onCommit c1 e1 b s1) as [r1 t1] eqn:H1, (onCommit c2 e2 b s2) as [r2 t2] eqn:H2.
  specialize (IH t1 t2). destruct (run_both c1 c2 cs t1 t2) as [[ok u1] u2]. cbn in *. intros Hok. go_bool.
  destruct r1 as [[]|], r2 as [[]|]; try done. apply IH; [by apply Hinv| |done].
  by eapply (onCommit_agree c1 c2 e1 e2 b s1 s2).
Qed.

(** ** What a committed block leaves behind *)

Lemma exec_loop_hashes m now skew txs : forall i t rs rs' t',
  exec_loop m now skew i txs t rs = (rs', Ok t') -> (i + length txs = length rs)%nat ->
  rc_ContentHash <$> rs' = (rc_ContentHash <$> take i rs) ++ ((fun tx => EnvContentHash (Envelope_ tx)) <$> txs).
Proof.
  induction txs as [|tx txs IH]; intros i t rs rs' t'; cbn [exec_loop].
  - intros [= <- <-] Hlen. cbn. rewrite app_nil_r, take_ge; [done|]. cbn in Hlen. lia.
  - destruct (exec_tx m now skew tx t) as [t1|[code e]]; [|done]. intros H Hlen. cbn [length] in Hlen.
    rewrite (IH _ _ _ _ _ H) by (rewrite length_insert; lia).
    rewrite (take_S_r _ _ (MkReceipt (Z.of_nat i) (Some (Type_ tx)) (EnvContentHash (Envelope_ tx)) ExecCodeOK None))
      by (apply list_lookup_insert_eq; lia).
    rewrite take_insert_ge by lia. rewrite fmap_app, <- app_assoc. reflexivity.
Qed.

Lemma receipts_hashes store now skew l store' r : ApplyBlock store now skew l = (store', r) -> err r = None ->
  rc_ContentHash <$> receipts r = (fun tx => EnvContentHash (Envelope_ tx)) <$> l.
Proof.
  unfold ApplyBlock. intros H He. revert H He.
  destruct (_ <? _); [by intros [= <- <-]|]. destruct (_ <? _); [by intros [= <- <-]|].
  destruct (Begin _ _); [|by intros [= <- <-]].
  destruct (exec_loop _ _ _ _ _ _ _) as [rs [t'|e]] eqn:Hl; [|by intros [= <- <-]].
  destruct (Commit _ _ _) as [[st rt]|e]; intros [= <- <-]; [|done]. intros _. cbn.
  apply exec_loop_hashes in Hl; [exact Hl|]. by rewrite length_replicate.
Qed.

Lemma clear_lookup hashes hold h : clearProposedTxHold hashes hold !! h = if decide (h ∈ hashes) then None else hold !! h.
Proof.
  unfold clearProposedTxHold. revert hold. induction hashes as [|x l IH]; intros hold; cbn [foldl].
  - by rewrite decide_False by apply not_elem_of_nil.
  - rewrite IH. destruct (decide (h ∈ l)) as [Hin|Hn]; [by rewrite decide_True by set_solver|].
    rewrite lookup_delete. destruct (decide (x = h)) as [->|Hne]; [by rewrite decide_True by set_solver|].
    rewrite decide_False; [done|]. rewrite elem_of_cons. intros [?|?]; congruence.
Qed.

Lemma nonce_set_elem keys pid n : MkProducerNonce pid n ∈ keys -> pid <> [] -> n <> [] -> nonce_id pid n ∈ nonce_set keys.
Proof.
  intros Hin Hp Hn. unfold nonce_set.
  assert (H : forall (l : list ProducerNonce) (acc : gset bytes), (MkProducerNonce pid n ∈ l \/ nonce_id pid n ∈ acc) -> nonce_id pid n ∈ foldl (fun set k =>
      if (len (pn_ProducerID k) =? 0) || (len (pn_Nonce k) =? 0) then set else {[nonce_id (pn_ProducerID k) (pn_Nonce k)]} ∪ set) acc l);
    [|apply H; by left].
  clear Hin keys. induction l as [|k l IH]; intros acc Hor; cbn [foldl]; [by destruct Hor as [?%elem_of_nil|?]|].
  apply IH. destruct Hor as [[<-|Hin]%elem_of_cons|Hacc]; [right|by left|right]; cbn.
  - destruct pid, n; try done. unfold len. cbn. set_solver.
  - destruct (_ || _); set_solver.
Qed.

(** C24. Once a block was executed, the mempool holds none of its transactions, nor another
    one of a producer under a nonce the block used; none of them is held back any more;
    and the filter has seen all of them. *)
Theorem committed_cleared (c : ServiceConfig) (e : commit_env) (ab : AppBlock) (s s' : Service)
  (Hrep : rep (s_mp s)) (H : execute_block c e ab s = (Ok tt, s')) :
  rep (s_mp s') /\
  (forall x tx, x ∈ values (s_mp s') -> tx ∈ txs ab ->
     e_Hash x <> EnvContentHash (Envelope_ tx) /\
     (e_ProducerID x, e_Nonce x) <> (ProducerID (Envelope_ tx), Nonce (Envelope_ tx))) /\
  (forall x, x ∈ values (s_mp s') -> x ∈ values (s_mp s)) /\
  (forall tx, tx ∈ txs ab -> proposedTxHold s' !! EnvContentHash (Envelope_ tx) = None) /\
  s_replay s' = rememberCommittedTransactions (sc_replay c) (ce_replay_range e) (txs ab) (ce_remember e) (s_replay s).
Proof.
  apply execute_block_inv in H.
  destruct (ApplyBlock (s_store s) (timestamp ab) (commit_skew c (ce_since e) ab) (txs ab)) as [store' res] eqn:Ha.
  destruct H as [_ H]. destruct (err res) eqn:He; [by destruct H|]. destruct H as (_ & _ & _ & _ & _ & _ & Hmp & Hhold & Hrp).
  pose proof (receipts_hashes _ _ _ _ _ _ Ha He) as Hh. rewrite Hh in Hmp, Hhold.
  set (hs := (fun tx => EnvContentHash (Envelope_ tx)) <$> txs ab) in *.
  destruct (Remove_sim (ce_range e) hs (s_mp s) Hrep) as (R1 & _ & R2).
  destruct (RemoveByProducerNonces_sim (ce_range2 e) (identity_keys (txs ab)) _ R1) as (Q1 & _ & Q2). rewrite <- Hmp in Q1, Q2.
  rewrite R2 in Q2. cbn [queue] in Q2. unfold spec_RemoveByProducerNonces, spec_Remove in Q2.
  assert (Hval : forall x, x ∈ values (s_mp s') -> nonce_id (e_ProducerID x) (e_Nonce x) ∉ nonce_set (identity_keys (txs ab)) /\
    e_Hash x ∉ hs /\ x ∈ values (s_mp s)).
  { intros x Hx. rewrite <- (queue_perm (s_mp s')), Q2 in Hx. cbn [queue] in Hx.
    apply list_elem_of_filter in Hx as (H1 & (H2 & H3)%list_elem_of_filter). rewrite (queue_perm (s_mp s)) in H3. auto. }
  split; [done|]. split_and!; [| | |exact Hrp].
  - intros x tx Hx Htx. destruct (Hval x Hx) as (N1 & N2 & _). split.
    + intros Heq. apply N2. rewrite Heq. unfold hs. by apply (list_elem_of_fmap_2 (fun tx => EnvContentHash (Envelope_ tx))).
    + intros [= Hp Hn]. apply N1. destruct (ApplyBlock_Ok _ _ _ _ _ _ Ha He) as (_ & _ & _ & t & Hall & _).
      destruct (exec_all_recorded _ _ _ _ _ _ tx Hall Htx) as [Hv _]. apply Validate_ok in Hv as (_ & Hpid & Hnon & _).
      unfold len, NonceSize in *. apply nonce_set_elem.
      * rewrite Hp, Hn. unfold identity_keys. by apply (list_elem_of_fmap_2 (fun tx => MkProducerNonce (ProducerID (Envelope_ tx)) (Nonce (Envelope_ tx)))).
      * rewrite Hp. intros H0. rewrite H0 in Hpid. cbn in Hpid. lia.
      * rewrite Hn. intros H0. rewrite H0 in Hnon. cbn in Hnon. lia.
  - intros x Hx. by apply Hval.
  - intros tx Htx. rewrite Hhold, clear_lookup, decide_True; [done|]. unfold hs.
    by apply (list_elem_of_fmap_2 (fun tx => EnvContentHash (Envelope_ tx))).
Qed.

(** ** Proposals *)

Lemma submit_loop_view view turns n attempt s :
  let '(calls, _, s') := submit_loop view turns n attempt s in
  lastProposedView s' = lastProposedView s /\ lastCommittedHeight s' = lastCommittedHeight s /\ 0 <= calls <= Z.of_nat n.
Proof.
  revert attempt. induction n as [|n IH]; intros attempt; cbn [submit_loop]; [split_and!; [done|done|lia|lia]|].
  destruct (negb _); [split_and!; [done|done|lia|lia]|].
  destruct (at_leader _) as [[]|]; [|split_and!; [done|done|lia|lia]..].
  specialize (IH (attempt + 1)).
  destruct (at_outcome _) as [| | | |[]|]; try (split_and!; [done|done|lia|lia]);
    (destruct (attempt <? _); [|split_and!; [done|done|lia|lia]]);
    destruct (submit_loop view turns n (attempt + 1) s) as [[calls ok] s']; destruct IH as (-> & -> & ?); split_and!; done || lia.
Qed.

(** The block a call hands to the engine. *)
Definition proposed (r : propose_result) : option AppBlock :=
  match r with Proposed blk _ _ => Some blk | _ => None end.

(** A call that proposes marks its view; one that does not leaves the mark. *)
Lemma propose_block_view c e s : let '(r, s') := propose_block c e s in
  lastProposedView s' = (match proposed r with Some _ => currentView e | None => lastProposedView s end) /\
  lastCommittedHeight s' = lastCommittedHeight s.
Proof.
  unfold propose_block. destruct (snapshotProposedTxExclusions _ _) as [ex hold].
  destruct (BuildWithExclusions _ _ _ _ _ _ _ _ _ _) as [blk b]. destruct (txCount blk =? 0); [done|].
  destruct (filterCommittedTxFromBlock _ _ _ _) as [[blk' n] r]. destruct (txCount blk' =? 0); [done|]. cbv zeta.
  match goal with |- context [submit_loop ?v ?t ?n ?a ?x] => pose proof (submit_loop_view v t n a x) as H;
    destruct (submit_loop v t n a x) as [[calls accepted] s1] end.
  destruct H as (H1 & H2 & _). destruct accepted; cbn; by rewrite H1, H2.
Qed.

Lemma tryPropose_view c e s : let '(r, s') := tryPropose c e s in
  lastCommittedHeight s' = lastCommittedHeight s /\
  match proposed r with
  | Some _ => lastProposedView s <> currentView e /\ lastProposedView s' = currentView e
  | None => lastProposedView s' = lastProposedView s
  end.
Proof.
  unfold tryPropose. cbv zeta. destruct (negb _); [done|]. destruct (negb _); [done|].
  set (s1 := if (_ && _ : bool) then set_blocked no_view s else s).
  assert (Hs1 : lastProposedView s1 = lastProposedView s /\ lastCommittedHeight s1 = lastCommittedHeight s) by (unfold s1; destruct (_ && _); done).
  destruct Hs1 as [Hv Hc]. clearbody s1. destruct (_ =? _); [done|]. destruct (Z.eqb_spec (lastProposedView s1) (currentView e)); [done|].
  cbn [andb]. destruct (_ && _); [done|].
  unfold peer_gate. destruct (router e) as [[[t0 t1] t2]|]; [destruct (_ && _); [done|]; destruct (_ && _); [done|]|];
    (destruct (is_leader e) as [[]|]; [|done..]); (destruct (negb _); [done|]); (destruct (negb _); [done|]); (destruct (_ && _); [done|]);
    pose proof (propose_block_view c e s1) as H; destruct (propose_block c e s1) as [r s2]; destruct H as [H1 H2];
    rewrite H2; (split; [done|]); destruct (proposed r); [split; congruence|congruence|split; congruence|congruence].
Qed.

(** What can happen around the proposer. *)
Inductive service_op :=
| SCommit (e : commit_env) (b : committed_block)
| SPropose (e : propose_env)
| SObserve (blk : option AppBlock) (now : Time)
| SReject (tx : Transaction) (now : Time)
| STrigger | SDrain.

Definition run_service (c : ServiceConfig) (op : service_op) (s : Service) : option (Z * AppBlock) * Service :=
  match op with
  | SCommit e b => (None, (onCommit c e b s).2)
  | SPropose e => let '(r, s') := tryPropose c e s in ((fun blk => (currentView e, blk)) <$> proposed r, s')
  | SObserve blk now => (None, observe_proposal c blk now s)
  | SReject tx now => (None, (reject_replay c tx now s).2)
  | STrigger => (None, notifyProposeTrigger s)
  | SDrain => (None, drainProposeTriggerQueue 64 s)
  end.

(** The proposals of a run, each with its view. *)
Fixpoint proposals (c : ServiceConfig) (ops : list service_op) (s : Service) : list (Z * AppBlock) :=
  match ops with
  | [] => []
  | op :: ops' => let '(p, s') := run_service c op s in
      match p with Some x => x :: proposals c ops' s' | None => proposals c ops' s' end
  end.

Definition op_view (op : service_op) : option Z := match op with SPropose e => Some (currentView e) | _ => None end.
Definition svc_op_ok (op : service_op) : Prop :=
  match op with SCommit _ b => block_height_ok b | SPropose e => 0 <= currentView e < no_view | _ => True end.

Lemma run_service_view c op s : height_ok (lastCommittedHeight s) -> svc_op_ok op ->
  let '(p, s') := run_service c op s in
  height_ok (lastCommittedHeight s') /\
  match p with
  | Some (v, _) => op_view op = Some v /\ lastProposedView s <> v /\ lastProposedView s' = v
  | None => lastProposedView s' = lastProposedView s
  end.
Proof.
  intros Hs Hop. destruct op as [e b|e|blk now|tx now| |]; cbn.
  - pose proof (onCommit_inv c e b s Hs Hop) as H. cbv zeta in H. destruct H as (-> & _ & H & _). done.
  - pose proof (tryPropose_view c e s) as H. destruct (tryPropose c e s) as [r s']. destruct H as [-> H].
    destruct (proposed r); cbn; [|done]. destruct H. done.
  - done.
  - unfold reject_replay. by destruct (shouldRejectReplayOnAdmit _ _ _ _).
  - done.
  - done.
Qed.

(** While the engine's view does not go back, the service offers the engine at most one
    block per view, whatever happens in between: the views of its proposals increase. *)
Theorem one_proposal_per_view (c : ServiceConfig) (ops : list service_op) (s : Service)
  (Hs : height_ok (lastCommittedHeight s)) (Hfresh : lastProposedView s = no_view) (Hops : Forall svc_op_ok ops)
  (Hviews : StronglySorted Z.le (omap op_view ops)) :
  StronglySorted Z.lt (proposals c ops s).*1.
Proof.
  assert (H : forall ops s, height_ok (lastCommittedHeight s) -> Forall svc_op_ok ops -> StronglySorted Z.le (omap op_view ops) ->
    (lastProposedView s = no_view \/ Forall (fun v => lastProposedView s <= v) (omap op_view ops)) ->
    StronglySorted Z.lt (proposals c ops s).*1 /\
    (forall v, v ∈ (proposals c ops s).*1 -> v ∈ omap op_view ops /\ v <> lastProposedView s)).
  { clear. induction ops as [|op ops IH]; intros s Hs Hops Hv Hl; [split; [constructor|by intros v ?%elem_of_nil]|].
    apply Forall_cons in Hops as [Hop Hops]. cbn [proposals]. pose proof (run_service_view c op s Hs Hop) as Hr.
    destruct (run_service c op s) as [p s']. destruct Hr as [Hs' Hr].
    assert (Hv' : StronglySorted Z.le (omap op_view ops) /\
      (forall v, op_view op = Some v -> Forall (fun x => v <= x) (omap op_view ops))).
    { cbn in Hv. destruct (op_view op) as [v|]; [|done]. inversion Hv; subst. split; [done|]. by intros ? [= <-]. }
    destruct Hv' as [Hv1 Hv2].
    assert (Hsub : forall v, v ∈ omap op_view ops -> v ∈ omap op_view (op :: ops)).
    { intros v Hin. cbn. destruct (op_view op); [by right|done]. }
    destruct p as [[v blk]|].
    - destruct Hr as (Hov & Hne & Hlp). destruct (IH s' Hs' Hops Hv1) as [I1 I2]; [right; rewrite Hlp; auto|].
      specialize (Hv2 v Hov). rewrite fmap_cons. cbn [fst]. split.
      + constructor; [done|]. apply Forall_forall. intros x Hx. destruct (I2 x Hx) as [Hin Hnx]. rewrite Hlp in Hnx.
        rewrite Forall_forall in Hv2. specialize (Hv2 x Hin). lia.
      + intros x [->|Hx]%elem_of_cons; [split; [cbn; rewrite Hov; by left|congruence]|].
        destruct (I2 x Hx) as [Hin Hnx]. split; [auto|]. destruct Hl as [Hl|Hl].
        * intros ->. rewrite Hl in Hin. rewrite Forall_forall in Hops.
          apply list_elem_of_omap in Hin as (o & Ho & Hov'). specialize (Hops o Ho). destruct o; cbn in *; try done.
          injection Hov' as Heq. lia.
        * cbn in Hl. rewrite Hov in Hl. apply Forall_cons in Hl as [Hlv _].
          rewrite Forall_forall in Hv2. specialize (Hv2 x Hin). lia.
    - destruct (IH s' Hs' Hops Hv1) as [I1 I2].
      { rewrite Hr. destruct Hl as [Hl|Hl]; [by left|right]. cbn in Hl. destruct (op_view op); [by apply Forall_cons in Hl as [_ ?]|done]. }
      rewrite Hr in I2. split; [done|]. intros x Hx. destruct (I2 x Hx). auto. }
  by apply H; [..|left].
Qed.

(** C23. The block handed to the engine extends the last committed one; it is not empty, fits
    its root, and its transactions are pending, not held for an earlier proposal and not
    known as committed; the engine is asked three times at most. *)
Theorem proposed_sound (c : ServiceConfig) (e : propose_env) (s s' : Service) (blk : AppBlock) (calls : Z) (accepted : bool)
  (Hrep : rep (s_mp s)) (Hmade : Forall made (values (s_mp s))) (Hen : replayFilterEnabled (sc_replay c) = true)
  (H : tryPropose c e s = (Proposed blk calls accepted, s')) :
  rooted blk /\ 0 < txCount blk /\ parentHash blk = lastParent s /\ 0 <= calls <= 3 /\
  forall tx, tx ∈ txs blk ->
    pending (s_mp s) tx /\ ~ known_at (sc_replay c) (t_filter e) (s_replay s) tx /\
    forall x, proposedTxHold s !! content_hash tx = Some x -> After (t_exclusions e) x = true.
Proof.
  assert (Hb : exists s1, s_mp s1 = s_mp s /\ lastParent s1 = lastParent s /\ s_replay s1 = s_replay s /\
    proposedTxHold s1 = proposedTxHold s /\ propose_block c e s1 = (Proposed blk calls accepted, s')).
  { revert H. unfold tryPropose. cbv zeta. destruct (negb _); [done|]. destruct (negb _); [done|].
    set (s1 := if (_ && _ : bool) then set_blocked no_view s else s).
    assert (Hs1 : s_mp s1 = s_mp s /\ lastParent s1 = lastParent s /\ s_replay s1 = s_replay s /\ proposedTxHold s1 = proposedTxHold s)
      by (unfold s1; destruct (_ && _); done).
    clearbody s1. destruct (_ =? _); [done|]. destruct (_ =? _); [done|]. cbn [andb]. destruct (_ && _); [done|].
    unfold peer_gate. destruct (router e) as [[[t0 t1] t2]|]; [destruct (_ && _); [done|]; destruct (_ && _); [done|]|];
      (destruct (is_leader e) as [[]|]; [|done..]); (destruct (negb _); [done|]); (destruct (negb _); [done|]); (destruct (_ && _); [done|]);
      intros H; exists s1; naive_solver. }
  destruct Hb as (s1 & Hmp & Hpar & Hrp & Hhold & Hb). revert Hb. unfold propose_block, snapshotProposedTxExclusions. cbv zeta.
  cbn [s_mp s_store s_builder s_replay proposedTxHold set_pools set_builder]. rewrite Hmp, Hpar, Hrp, Hhold.
  set (kept := filter _ (proposedTxHold s)).
  pose proof (Build_txs (pr_stats e) (pr_select e) (s_mp s) (s_store s1) (if currentHeight e =? 0 then height_again e else currentHeight e)
    (lastParent s) (nodeID e) (t_build e) (dom kept) (s_builder s1) Hrep Hmade) as Ht.
  assert (Hp : parentHash (BuildWithExclusions (pr_stats e) (pr_select e) (s_mp s) (s_store s1)
    (if currentHeight e =? 0 then height_again e else currentHeight e) (lastParent s) (nodeID e) (t_build e) (dom kept) (s_builder s1)).1 = lastParent s).
  { unfold BuildWithExclusions. destruct (StatsDetailed _ _) as [[n m] o]. by destruct (select_txs _ _ _ _ _ _). }
  destruct (BuildWithExclusions _ _ _ _ _ _ _ _ _ _) as [b0 bd]. cbn [fst] in *. destruct Ht as [Hr0 Ht].
  destruct (txCount b0 =? 0); [done|].
  pose proof (filtered_block (sc_replay c) b0 (t_filter e) (s_replay s) Hen Hr0) as Hf.
  destruct (filterCommittedTxFromBlock _ _ _ _) as [[b1 n] r1]. destruct Hf as (F1 & F2 & _ & _ & _ & F3 & _).
  destruct (Z.eqb_spec (txCount b1) 0) as [|Hne]; [done|].
  match goal with |- context [submit_loop ?v ?t ?k ?a ?x] => pose proof (submit_loop_view v t k a x) as Hl;
    destruct (submit_loop v t k a x) as [[cs ac] s2] end.
  destruct Hl as (_ & _ & Hl). intros Heq. assert (Hb1 : b1 = blk /\ cs = calls) by (destruct ac; injection Heq; auto).
  destruct Hb1 as [<- <-]. split_and!; [done| |congruence|lia|exact (proj2 Hl)|].
  - destruct F1 as (_ & Hc & _). rewrite Hc in *. pose proof (len_nonneg (txs b1)). lia.
  - intros tx Htx. rewrite F2 in Htx. apply list_elem_of_filter in Htx as [Hk Hin]. destruct (Ht tx Hin) as [Hpend Hex].
    split_and!; [done|done|]. intros x Hu. destruct (After (t_exclusions e) x) eqn:Ha; [done|]. exfalso. apply Hex.
    apply elem_of_dom. exists x. apply map_lookup_filter_Some. done.
Qed.

(** ** Settings without effect *)

Definition with_cooldowns (base backlogFast policyFast threshold : Z) (c : ServiceConfig) : ServiceConfig :=
  MkServiceConfig (TimestampSkew c) (StateRetainVersions c) (sc_replay c) (sc_persist c) (proposalTxHoldDuration c) (genesisGracePeriod c)
    (blockTimeout c) base backlogFast policyFast threshold (AllowSoloProposal c) (RequireActivePeers c) (sc_MinMempoolTxs c).

(** None of the cooldowns for proposals changes what the proposer does: the check is
    only made in a view that was refused just before it. *)
Theorem cooldowns_ineffective (base backlogFast policyFast threshold : Z) (c : ServiceConfig) (e : propose_env) (s : Service) :
  tryPropose (with_cooldowns base backlogFast policyFast threshold c) e s = tryPropose c e s.
Proof.
  unfold tryPropose. cbv zeta. destruct (negb _); [done|]. destruct (negb _); [done|].
  generalize (if negb (proposalBlockedView s =? no_view) && negb (proposalBlockedView s =? currentView e) then set_blocked no_view s else s).
  intros s1. destruct (_ =? _); [done|]. destruct (_ =? _); [done|]. reflexivity.
Qed.

(** ** Concrete runs *)

Definition service_config : ServiceConfig :=
  MkServiceConfig 0 10 demo_replay demo_persist (10 * Second) (30 * Second) (5 * Second) 0 0 0 0 false false 0.

Definition around (since : Time) : commit_env :=
  MkCommitEnv false since since in_key_order in_key_order key_order key_order []
    (MkSurroundings None false None 0 since) (MkSurroundings None false None 0 since) (MkSurroundings None false None 0 since) Sent.

(** A number of seconds after a fixed date, or before it. *)
Definition clock (n : Z) : Time := time_Unix (1700000000 + n).

(** A leader whose clock is 40 seconds slow takes in a policy from now; its block is
    followed by one with another policy. *)
Definition early_block : AppBlock :=
  NewAppBlock 1 zero32 (computeTxRootForPayload [open_policy]) zero32 demo_id (clock (-40)) [open_policy].
Definition next_block : AppBlock :=
  NewAppBlock 2 (hash early_block) (computeTxRootForPayload [shut_policy]) zero32 demo_id (clock 1) [shut_policy].

Definition node : Service := NewService zero32 NewMemStore demo_pool None (NewBuilder (demo_config 0 false 0)) (clock (-100)).

(** What is seen of a node: its height, and the policies and root of its state. *)
Definition policies_held (s : Service) : Z * bool * bool :=
  let held h := match Get (s_store s) (latest (s_store s)) (keyPolicy h) with Some _ => true | None => false end in
  (lastCommittedHeight s, held (content_hash open_policy), held (content_hash shut_policy)).

(** Two nodes with the same settings get the same two blocks. The one that executes
    the first block at once refuses it, because its transaction is ahead of the block by
    more than the allowed skew; the one that is late by a minute widens the skew by its
    own clock and executes it. Both then execute the second block, at the same height,
    without an error, in different states. *)
Theorem clock_splits_state :
  let '(r1, prompt) := onCommit service_config (around (clock (-39))) (OurBlock early_block) node in
  let '(r2, prompt) := onCommit service_config (around (clock 2)) (OurBlock next_block) prompt in
  let '(q1, late) := onCommit service_config (around (clock 20)) (OurBlock early_block) node in
  let '(q2, late) := onCommit service_config (around (clock 21)) (OurBlock next_block) late in
  (r1, r2) = (Err (ErrApply ErrSkew), Ok tt) /\ (q1, q2) = (Ok tt, Ok tt) /\
  policies_held prompt = (2, false, true) /\ policies_held late = (2, true, true) /\
  bool_decide (lastRoot prompt = lastRoot late) = false.
Proof. vm_compute. split_and!; reflexivity. Qed.

Definition both_late : list (commit_env * commit_env * committed_block) :=
  [(around (clock 20), around (clock 50), OurBlock early_block); (around (clock 21), around (clock 90), OurBlock next_block)].

Lemma early_ok : block_height_ok (OurBlock early_block) /\ block_height_ok (OurBlock next_block).
Proof. unfold block_height_ok, height_ok. cbn [block_of as_block GetHeight]. split; vm_compute; split; congruence. Qed.

Lemma node_ok : height_ok (lastCommittedHeight node).
Proof. unfold height_ok. vm_compute. split; congruence. Qed.

Lemma executed_once_witness :
  let cs := [(around (clock 20), OurBlock early_block); (around (clock 20), OurBlock early_block); (around (clock 21), OurBlock next_block)] in
  let '(l, s') := run_commits service_config cs node in
  StronglySorted Z.lt (Block.height <$> l) /\ (forall ab, ab ∈ l -> lastCommittedHeight node < Block.height ab <= lastCommittedHeight s') /\
  latest (s_store s') = u64 (latest (s_store node) + len l).
Proof.
  apply (executed_once service_config [(around (clock 20), OurBlock early_block); (around (clock 20), OurBlock early_block);
    (around (clock 21), OurBlock next_block)] node node_ok); [|vm_compute; split; congruence].
  destruct early_ok as [He Hn]. repeat (apply Forall_cons; split; [first [exact He|exact Hn]|]). apply Forall_nil; exact I.
Defined.

Lemma replicas_agree_witness :
  agree (run_both service_config service_config both_late node node).1.2 (run_both service_config service_config both_late node node).2.
Proof.
  apply (replicas_agree service_config service_config both_late node node node_ok).
  - destruct early_ok as [He Hn]. repeat (apply Forall_cons; split; [first [exact He|exact Hn]|]). apply Forall_nil; exact I.
  - repeat split.
  - vm_compute. reflexivity.
Defined.

(** A block with what [demo_pool] holds first. *)
Definition pool_block : AppBlock := NewAppBlock 1 zero32 (computeTxRootForPayload [busy_1; quiet_1]) zero32 demo_id (clock 1) [busy_1; quiet_1].

Lemma committed_cleared_witness :
  let s' := (execute_block service_config (around (clock 2)) pool_block node).2 in
  rep (s_mp s') /\
  (forall x tx, x ∈ values (s_mp s') -> tx ∈ txs pool_block ->
     e_Hash x <> EnvContentHash (Envelope_ tx) /\ (e_ProducerID x, e_Nonce x) <> (ProducerID (Envelope_ tx), Nonce (Envelope_ tx))) /\
  (forall x, x ∈ values (s_mp s') -> x ∈ values (s_mp node)) /\
  (forall tx, tx ∈ txs pool_block -> proposedTxHold s' !! EnvContentHash (Envelope_ tx) = None) /\
  s_replay s' = rememberCommittedTransactions demo_replay key_order (txs pool_block) (clock 2) (s_replay node).
Proof.
  apply (committed_cleared service_config (around (clock 2)) pool_block node
           (execute_block service_config (around (clock 2)) pool_block node).2 demo_pool_rep).
  apply run_Ok. vm_compute. reflexivity.
Defined.

Definition proposing (view : Z) : propose_env :=
  MkProposeEnv view 1 1 true true None (Some true) true true demo_id (clock 5) (clock 5) (clock 5) (clock 5) (clock 5) (clock 5) (clock 6)
    in_key_order in_key_order in_key_order (fun _ => MkAttempt view (Some true) SubmitOk).

Lemma one_proposal_per_view_witness :
  StronglySorted Z.lt (proposals service_config [SPropose (proposing 3); SPropose (proposing 3); SPropose (proposing 4)] node).*1.
Proof.
  apply (one_proposal_per_view service_config [SPropose (proposing 3); SPropose (proposing 3); SPropose (proposing 4)] node node_ok eq_refl).
  - repeat constructor; vm_compute; congruence.
  - repeat constructor; vm_compute; congruence.
Defined.

(** It does propose: in view 3 once, and in view 4 what view 3 left. *)
Example proposals_made :
  (fun p => (p.1, txs p.2)) <$> proposals service_config [SPropose (proposing 3); SPropose (proposing 3); SPropose (proposing 4)] node =
  [(3, [busy_1; busy_2; busy_3]); (4, [quiet_1; a_rule])].
Proof. vm_compute. reflexivity. Qed.

Definition proposed_in_3 : propose_result := (tryPropose service_config (proposing 3) node).1.
Definition block_in_3 : AppBlock := default early_block (proposed proposed_in_3).

Lemma proposed_in_3_eq : proposed_in_3 = Proposed block_in_3 1 true.
Proof. vm_compute. reflexivity. Qed.

Lemma fst_pair {A B} (p : A * B) (a : A) : p.1 = a -> p = (a, p.2).
Proof. destruct p; cbn; congruence. Qed.

Lemma proposed_sound_witness :
  rooted block_in_3 /\ 0 < txCount block_in_3 /\ parentHash block_in_3 = lastParent node /\ 0 <= 1 <= 3 /\
  forall tx, tx ∈ txs block_in_3 ->
    pending (s_mp node) tx /\ ~ known_at demo_replay (clock 5) (s_replay node) tx /\
    forall x, proposedTxHold node !! content_hash tx = Some x -> After (clock 5) x = true.
Proof.
  apply (proposed_sound service_config (proposing 3) node (tryPropose service_config (proposing 3) node).2 block_in_3 1 true
           demo_pool_rep demo_pool_made eq_refl).
  exact (fst_pair _ _ proposed_in_3_eq).
Defined.
