(* ===== verification/Validators.v ===== *)
(** The node's validator set (backend/cmd/cybermesh/main.go): the configured
    validators with their recent activity, read by consensus through
    types.ValidatorSet. *)
From S2P Require Import Prelude Bytes GoTime GoFloat Messages Interfaces.

(** [types.ValidatorInfo]. *)
Record ValidatorInfo := MkInfo {
  vi_ID : ValidatorID; vi_PublicKey : bytes; vi_PeerID : bytes; Reputation : float64;
  IsActive : bool; JoinedView : Z; LastSeen : Time }.

Record validatorActivity := MkActivity { active : bool; lastSeen : Time }.

(** [index] and [ordered] share their pointers: an index entry is a position. *)
Record validatorSet := MkSet {
  index : gmap ValidatorID nat;
  ordered : list ValidatorInfo;
  activity : gmap ValidatorID validatorActivity;
  inactivity : Z }.

Definition with_status (a : bool) (when : option Time) (v : ValidatorInfo) : ValidatorInfo :=
  MkInfo (vi_ID v) (vi_PublicKey v) (vi_PeerID v) (Reputation v) a (JoinedView v) (default (LastSeen v) when).

(** A write through the pointer the index holds for [id]. *)
Definition set_info (id : ValidatorID) (f : ValidatorInfo -> ValidatorInfo) (s : validatorSet) : validatorSet :=
  match index s !! id with
  | Some i => MkSet (index s) (alter f i (ordered s)) (activity s) (inactivity s)
  | None => s
  end.
Definition set_activity (id : ValidatorID) (a : validatorActivity) (s : validatorSet) : validatorSet :=
  MkSet (index s) (ordered s) (<[id := a]> (activity s)) (inactivity s).

Definition non_zero (t : Time) : option Time := if IsZero t then None else Some t.

Definition add_validator (s : validatorSet) (info : ValidatorInfo) : validatorSet :=
  MkSet (<[vi_ID info := length (ordered s)]> (index s)) (ordered s ++ [info])
        (<[vi_ID info := MkActivity (IsActive info) (LastSeen info)]> (activity s)) (inactivity s).

Definition newValidatorSet (infos : list ValidatorInfo) (inactivity : Z) : validatorSet :=
  foldl add_validator (MkSet ∅ [] ∅ (if inactivity <=? 0 then 90 * Second else inactivity)) infos.

Definition applyInactivity (id : ValidatorID) (now : Time) (s : validatorSet) : bool * validatorSet :=
  match activity s !! id with
  | None => (false, s)
  | Some entry =>
      if negb (active entry) then (false, set_info id (with_status false None) s)
      else if (0 <? inactivity s) && negb (IsZero (lastSeen entry)) && (inactivity s <? Sub now (lastSeen entry)) then
        (false, set_info id (with_status false None) (set_activity id (MkActivity false (lastSeen entry)) s))
      else (active entry, set_info id (with_status (active entry) (non_zero (lastSeen entry))) s)
  end.

Definition IsValidator_ (id : ValidatorID) (s : validatorSet) : bool := bool_decide (is_Some (index s !! id)).

Definition GetValidator (id : ValidatorID) (now : Time) (s : validatorSet) : option ValidatorInfo * validatorSet :=
  match index s !! id with
  | Some i => let '(_, s) := applyInactivity id now s in (ordered s !! i, s)
  | None => (None, s)
  end.

Definition GetValidators (now : Time) (s : validatorSet) : list ValidatorInfo * validatorSet :=
  foldl (fun '(out, s) i =>
      match ordered s !! i with
      | Some ptr => let '(_, s) := applyInactivity (vi_ID ptr) now s in
                    (out ++ option_list (ordered s !! i), s)
      | None => (out, s)
      end) ([], s) (seq 0 (length (ordered s))).

Definition GetValidatorCount_ (s : validatorSet) : Z := len (ordered s).

Definition IsActive_ (id : ValidatorID) (now : Time) (s : validatorSet) : bool * validatorSet := applyInactivity id now s.

Definition IsActiveInView_ (id : ValidatorID) (s : validatorSet) : bool * validatorSet :=
  match activity s !! id with
  | None => (false, s)
  | Some entry => (active entry, set_info id (with_status (active entry) (non_zero (lastSeen entry))) s)
  end.

(** [now] is read only when [when] is the zero time. *)
Definition MarkActive (id : ValidatorID) (when now : Time) (s : validatorSet) : validatorSet :=
  let when := if IsZero when then now else when in
  let s := set_info id (with_status true (non_zero when)) s in
  let act := default (MkActivity false zero_time) (activity s !! id) in
  set_activity id (MkActivity true (default (lastSeen act) (non_zero when))) s.

Definition MarkInactive (id : ValidatorID) (when : Time) (s : validatorSet) : validatorSet :=
  let s := set_info id (with_status false (non_zero when)) s in
  let act := default (MkActivity false zero_time) (activity s !! id) in
  set_activity id (MkActivity false (default (lastSeen act) (non_zero when))) s.

Definition LastActivity (id : ValidatorID) (s : validatorSet) : option Time := lastSeen <$> activity s !! id.

(** ** The set over any run of updates *)

(** The configured validators, at their positions, with one activity entry each. *)
Record set_inv (ids : list ValidatorID) (s : validatorSet) : Prop := {
  set_ids : vi_ID <$> ordered s = ids;
  set_index id i : index s !! id = Some i <-> ids !! i = Some id;
  set_activity_total id : id ∈ ids -> is_Some (activity s !! id) }.

Lemma fmap_alter_ID f i (l : list ValidatorInfo) : (forall v, vi_ID (f v) = vi_ID v) -> vi_ID <$> alter f i l = vi_ID <$> l.
Proof.
  intros Hf. apply list_eq. intros j. rewrite !list_lookup_fmap, list_lookup_alter.
  destruct (l !! j) as [v|] eqn:Hj; case_decide; subst; rewrite ?Hj; cbn; by rewrite ?Hf.
Qed.

Lemma set_info_inv ids id f s : (forall v, vi_ID (f v) = vi_ID v) -> set_inv ids s -> set_inv ids (set_info id f s).
Proof.
  intros Hf [H1 H2 H3]. unfold set_info. destruct (index s !! id) as [i|]; [|done].
  constructor; cbn; [by rewrite fmap_alter_ID|done|done].
Qed.

Lemma set_activity_inv ids id a s : set_inv ids s -> set_inv ids (set_activity id a s).
Proof.
  intros [H1 H2 H3]. constructor; cbn; [done|done|]. intros id' Hid. rewrite lookup_insert_is_Some'. by right; apply H3.
Qed.

#[export] Hint Resolve set_info_inv set_activity_inv : cyber.

Lemma applyInactivity_inv ids id now s : set_inv ids s -> set_inv ids (applyInactivity id now s).2.
Proof.
  intros Hs. unfold applyInactivity. destruct (activity s !! id); [|done].
  destruct (negb _); [by apply set_info_inv|]. destruct (_ && _); cbn; by auto with cyber.
Qed.

Lemma MarkActive_inv ids id when now s : set_inv ids s -> set_inv ids (MarkActive id when now s).
Proof. intros Hs. unfold MarkActive. by auto with cyber. Qed.
Lemma MarkInactive_inv ids id when s : set_inv ids s -> set_inv ids (MarkInactive id when s).
Proof. intros Hs. unfold MarkInactive. by auto with cyber. Qed.
Lemma IsActiveInView_inv ids id s : set_inv ids s -> set_inv ids (IsActiveInView_ id s).2.
Proof. intros Hs. unfold IsActiveInView_. destruct (activity s !! id); [|done]. cbn. by auto with cyber. Qed.

Lemma newValidatorSet_inv infos inact : NoDup (vi_ID <$> infos) ->
  set_inv (vi_ID <$> infos) (newValidatorSet infos inact).
Proof.
  unfold newValidatorSet. generalize (if inact <=? 0 then 90 * Second else inact). intros d.
  induction infos as [|info infos IH] using rev_ind; intros Hnd.
  { constructor; cbn; [done| |by intros ? ?%elem_of_nil]. intros id i. by rewrite lookup_empty. }
  rewrite fmap_app, NoDup_app in Hnd. destruct Hnd as (Hnd & Hnew & _). specialize (IH Hnd).
  rewrite foldl_app, fmap_app. cbn [foldl]. destruct IH as [H1 H2 H3].
  set (s := foldl add_validator _ infos) in *.
  assert (Hlen : length (ordered s) = length infos) by (by rewrite <- (length_fmap vi_ID), H1, length_fmap).
  constructor; cbn.
  - by rewrite fmap_app, H1.
  - intros id i. rewrite lookup_app, length_fmap. rewrite Hlen.
    destruct (decide (id = vi_ID info)) as [->|Hid].
    + rewrite lookup_insert_eq. split.
      * intros [= <-]. rewrite (lookup_ge_None_2 _ (length infos)) by (by rewrite length_fmap).
        by rewrite Nat.sub_diag.
      * destruct ((vi_ID <$> infos) !! i) as [id'|] eqn:Hi.
        -- intros [= ->]. exfalso. apply (Hnew (vi_ID info)); [by eapply list_elem_of_lookup_2|by left].
        -- apply lookup_ge_None_1 in Hi. rewrite length_fmap in Hi. intros Hx.
           destruct (i - length infos)%nat as [|k] eqn:Hk; [|done]. f_equal. lia.
    + rewrite lookup_insert_ne by done. rewrite H2. destruct ((vi_ID <$> infos) !! i) eqn:Hi; [done|].
      split; [done|]. apply lookup_ge_None_1 in Hi. rewrite length_fmap in Hi.
      destruct (i - length infos)%nat as [|k] eqn:Hk; cbn; intros H; [|done]. congruence.
  - intros id. rewrite elem_of_app, list_elem_of_singleton, lookup_insert_is_Some'. intros [H| ->]; [right; by apply H3|by left].
Qed.

(** ** What a reader sees *)

(** Whether the set reports [id] active at [now]. *)
Definition fresh (s : validatorSet) (now : Time) (id : ValidatorID) : bool :=
  match activity s !! id with
  | None => false
  | Some e => active e && negb ((0 <? inactivity s) && negb (IsZero (lastSeen e)) && (inactivity s <? Sub now (lastSeen e)))
  end.

(** The copy of an entry the readers return. *)
Definition seen_at (s : validatorSet) (now : Time) (v : ValidatorInfo) : ValidatorInfo :=
  with_status (fresh s now (vi_ID v))
    (if fresh s now (vi_ID v) then (e ← activity s !! vi_ID v; non_zero (lastSeen e)) else None) v.

Lemma applyInactivity_fresh id now s : (applyInactivity id now s).1 = fresh s now id.
Proof.
  unfold applyInactivity, fresh. destruct (activity s !! id) as [e|]; [|done].
  destruct (active e) eqn:Ha; cbn [negb andb]; [|done]. destruct (_ && _); cbn; [done|]. by rewrite ?Ha.
Qed.

Lemma alter_insert {A} (f : A -> A) i (l : list A) v : l !! i = Some v -> alter f i l = <[i := f v]> l.
Proof.
  revert i. induction l as [|x l IH]; intros [|i]; cbn; try done; [by intros [= ->]|].
  intros H. f_equal. by apply IH.
Qed.

Lemma applyInactivity_ordered ids id i v now s : set_inv ids s -> ids !! i = Some id -> ordered s !! i = Some v ->
  let s' := (applyInactivity id now s).2 in
  ordered s' = <[i := seen_at s now v]> (ordered s) /\
  (forall id', id' <> id -> activity s' !! id' = activity s !! id') /\ inactivity s' = inactivity s.
Proof.
  intros Hs Hid Hv. assert (Hvid : vi_ID v = id).
  { rewrite <- (set_ids ids s Hs), list_lookup_fmap, Hv in Hid. by injection Hid. }
  assert (Hin : is_Some (activity s !! id)) by (apply (set_activity_total ids s Hs); by eapply list_elem_of_lookup_2).
  destruct Hin as [e He]. apply (set_index ids s Hs) in Hid.
  assert (Halter : forall f, alter f i (ordered s) = <[i := f v]> (ordered s))
    by (intros f; by apply alter_insert).
  unfold seen_at, applyInactivity. rewrite Hvid. unfold fresh. rewrite He. cbn [mbind option_bind].
  destruct (active e) eqn:Ha; cbn [negb andb].
  - destruct (_ && _); cbn [negb].
    + unfold set_info. cbn. rewrite Hid. cbn. split; [by rewrite Halter|]. split; [|done].
      intros id' Hne. by rewrite lookup_insert_ne.
    + unfold set_info. rewrite Hid. cbn. by rewrite Halter.
  - unfold set_info. rewrite Hid. cbn. by rewrite Halter.
Qed.

Lemma seen_at_ID s now v : vi_ID (seen_at s now v) = vi_ID v.
Proof. done. Qed.

Lemma seen_at_ext s s' now v : activity s' !! vi_ID v = activity s !! vi_ID v -> inactivity s' = inactivity s ->
  seen_at s' now v = seen_at s now v.
Proof. intros H1 H2. unfold seen_at, fresh. by rewrite H1, H2. Qed.

Definition read_one (now : Time) (acc : list ValidatorInfo * validatorSet) (i : nat) : list ValidatorInfo * validatorSet :=
  match ordered acc.2 !! i with
  | Some ptr => let '(_, s) := applyInactivity (vi_ID ptr) now acc.2 in (acc.1 ++ option_list (ordered s !! i), s)
  | None => acc
  end.

Lemma GetValidators_fold now s : GetValidators now s = foldl (read_one now) ([], s) (seq 0 (length (ordered s))).
Proof.
  unfold GetValidators. generalize (seq 0 (length (ordered s))) ([] : list ValidatorInfo).
  intros l out. revert out s. induction l as [|i l IH]; intros out s; cbn; [done|].
  unfold read_one at 2. cbn. destruct (ordered s !! i) as [p|]; [|apply IH].
  destruct (applyInactivity (vi_ID p) now s) as [b s'] eqn:H. apply IH.
Qed.

Lemma read_upto ids now s k : NoDup ids -> set_inv ids s -> (k <= length ids)%nat ->
  exists s', foldl (read_one now) ([], s) (seq 0 k) = (seen_at s now <$> take k (ordered s), s') /\
    set_inv ids s' /\ ordered s' = (seen_at s now <$> take k (ordered s)) ++ drop k (ordered s) /\
    (forall i id, (k <= i)%nat -> ids !! i = Some id -> activity s' !! id = activity s !! id) /\
    inactivity s' = inactivity s.
Proof.
  intros Hnd Hs. pose proof (set_ids ids s Hs) as Hids. induction k as [|k IH]; intros Hk.
  { exists s. by rewrite drop_0. }
  destruct IH as (s1 & Hf & Hs1 & Ho & Ha & Hi); [lia|].
  destruct (lookup_lt_is_Some_2 ids k) as [id Hid]; [lia|].
  assert (Hv : exists v, ordered s !! k = Some v /\ vi_ID v = id).
  { rewrite <- Hids, list_lookup_fmap in Hid. destruct (ordered s !! k) as [v|]; [|done]. exists v. by injection Hid. }
  destruct Hv as (v & Hv & Hvid). pose proof (lookup_lt_Some _ _ _ Hv) as Hlt.
  assert (Hv1 : ordered s1 !! k = Some v).
  { rewrite Ho, lookup_app_r by (rewrite length_fmap, length_take; lia).
    rewrite length_fmap, length_take, lookup_drop, Nat.min_l by lia. by rewrite Nat.sub_diag, Nat.add_0_r. }
  destruct (applyInactivity_ordered ids id k v now s1 Hs1 Hid Hv1) as (Ho' & Ha' & Hi').
  pose proof (applyInactivity_inv ids id now s1 Hs1) as Hs'.
  assert (Hseen : seen_at s1 now v = seen_at s now v).
  { apply seen_at_ext; [|done]. rewrite Hvid. by apply (Ha k). }
  rewrite seq_S, foldl_app, Hf. cbn [foldl]. unfold read_one at 1. cbn [fst snd Nat.add]. rewrite Hv1, Hvid.
  destruct (applyInactivity id now s1) as [b s'] eqn:Happ. cbn [snd] in *. exists s'.
  rewrite Ho', Hseen. rewrite list_lookup_insert_eq by (by eapply lookup_lt_Some). cbn [option_list].
  rewrite (take_S_r _ _ v Hv), fmap_app. cbn [fmap list_fmap]. split; [done|]. split; [done|]. split; [|split; [|congruence]].
  - rewrite Ho. rewrite insert_app_r_alt by (rewrite length_fmap, length_take; lia).
    rewrite length_fmap, length_take, Nat.min_l, Nat.sub_diag by lia. rewrite (drop_S _ v) by done. cbn.
    by rewrite <- app_assoc.
  - intros i id' Hi1 Hid'. rewrite Ha'; [apply (Ha i); [lia|done]|]. intros ->.
    pose proof (NoDup_lookup _ _ _ _ Hnd Hid' Hid). lia.
Qed.

(** [GetValidators] returns every configured validator, in order, active when its
    last activity is recent enough. *)
Lemma GetValidators_spec ids now s : NoDup ids -> set_inv ids s ->
  (GetValidators now s).1 = seen_at s now <$> ordered s /\ set_inv ids (GetValidators now s).2.
Proof.
  intros Hnd Hs. rewrite GetValidators_fold.
  assert (Hlen : length (ordered s) = length ids) by (by rewrite <- (set_ids ids s Hs), length_fmap).
  destruct (read_upto ids now s (length (ordered s)) Hnd Hs ltac:(lia)) as (s' & -> & Hs' & _).
  cbn. by rewrite firstn_all.
Qed.
