(* ===== verification/Rotation.v ===== *)
(** Leader rotation (backend/pkg/consensus/leader/rotation.go and
    rotation_eligibility.go) and the adapter that hands it, with the validator
    set, to message validation (backend/pkg/consensus/api/adapters.go). *)
From S2P Require Import Prelude Bytes GoTime GoFloat Messages Interfaces Validators.

Record RotationConfig := MkRotationConfig {
  MinReputation : float64; EnableQuarantine : bool; EnableReputation : bool; SelectionSeed : Z;
  FallbackToAll : bool; MaxQuarantinedRatio : float64; AuditSelections : bool }.

Definition DefaultRotationConfig : RotationConfig :=
  MkRotationConfig (f_div (f_of_Z 7) (f_of_Z 10)) true true 0 true (f_div (f_of_Z 33) (f_of_Z 100)) true.

(** What the rotation reads of [types.QuarantineManager]. *)
Record QuarantineManager := MkQuarantine { IsQuarantined : ValidatorID -> bool; GetQuarantinedCount : Z }.
Definition noopQuarantine : QuarantineManager := MkQuarantine (fun _ => false) 0.

Record Rotation := MkRotation {
  quarantine : QuarantineManager; r_config : RotationConfig; readiness : option (ValidatorID -> bool) }.

Definition NewRotation (q : option QuarantineManager) (config : option RotationConfig) : Rotation :=
  MkRotation (default noopQuarantine q) (default DefaultRotationConfig config) None.
Definition SetReadinessOracle (oracle : ValidatorID -> bool) (r : Rotation) : Rotation :=
  MkRotation (quarantine r) (r_config r) (Some oracle).
Definition UpdateConfig (config : RotationConfig) (r : Rotation) : Rotation :=
  MkRotation (quarantine r) config (readiness r).

Inductive rotation_error :=
| NoValidators | ExcessiveQuarantine | NoneReady | FallbackDisabled | NoActive
| SetEmpty | InsufficientEligible | NilReadiness.

(** ** Selection *)

Definition less_validator (a b : ValidatorInfo) : bool :=
  match bytes_compare (vi_ID a) (vi_ID b) with
  | Lt => true
  | Gt => false
  | Eq =>
      if negb (JoinedView a =? JoinedView b) then JoinedView a <? JoinedView b
      else if negb (f_eqb (Reputation a) (Reputation b)) then f_ltb (Reputation b) (Reputation a)
      else if negb (eqb (IsActive a) (IsActive b)) then IsActive a
      else match head (vi_ID a), head (vi_ID b) with Some x, Some y => byte_val x <? byte_val y | _, _ => false end
  end.

Definition sortValidatorsDeterministic (l : list ValidatorInfo) : list ValidatorInfo := stable_sort less_validator l.

(** With [enforceReadiness] and no oracle the code dereferences a nil interface;
    its callers do not combine them. *)
Definition is_eligible (r : Rotation) (view : Z) (enforceReadiness : bool) (v : ValidatorInfo) : bool :=
  IsActive v && negb (view <? JoinedView v) &&
  negb (EnableReputation (r_config r) && f_ltb (Reputation v) (MinReputation (r_config r))) &&
  negb (enforceReadiness && negb (match readiness r with Some ready => ready (vi_ID v) | None => true end)).

Definition filterEligible (r : Rotation) (validators : list ValidatorInfo) (view : Z) (enforceReadiness : bool)
  : list ValidatorInfo := filter (fun v => is_eligible r view enforceReadiness v = true) validators.

Definition selectIndex (r : Rotation) (view count : Z) : nat :=
  Z.to_nat (u64 (view + SelectionSeed (r_config r)) mod count).

Definition quarantinedRatio (r : Rotation) (total : Z) : float64 :=
  f_div (f_of_Z (GetQuarantinedCount (quarantine r))) (f_of_Z total).

(** [&l[i]]; every index used is in range. *)
Definition nth_leader (l : list ValidatorInfo) (i : nat) : result rotation_error ValidatorInfo :=
  match l !! i with Some v => Ok v | None => Err NoValidators end.

Definition handleNoEligible (r : Rotation) (all : list ValidatorInfo) (view : Z) (enforceReadiness : bool)
  : result rotation_error ValidatorInfo :=
  if f_ltb (MaxQuarantinedRatio (r_config r)) (quarantinedRatio r (len all)) then Err ExcessiveQuarantine
  else if enforceReadiness then Err NoneReady
  else if negb (FallbackToAll (r_config r)) then Err FallbackDisabled
  else
    let activeValidators := filter (fun v => IsActive v && (JoinedView v <=? view) = true) all in
    match activeValidators with
    | [] =>
        let joinedValidators := filter (fun v => (JoinedView v <=? view) = true) all in
        match joinedValidators with
        | [] => Err NoActive
        | _ => nth_leader (sortValidatorsDeterministic joinedValidators) (selectIndex r view (len joinedValidators))
        end
    | _ => nth_leader (sortValidatorsDeterministic activeValidators) (selectIndex r view (len activeValidators))
    end.

(** [all] is what [validatorSet.GetValidators()] returns to the call. *)
Definition SelectLeader (r : Rotation) (all : list ValidatorInfo) (view : Z) : result rotation_error ValidatorInfo :=
  match all with
  | [] => Err NoValidators
  | _ =>
      let eligible := filterEligible r all view false in
      match eligible with
      | [] => handleNoEligible r all view false
      | _ => nth_leader (sortValidatorsDeterministic eligible) (Z.to_nat (view mod len eligible))
      end
  end.

Definition GetLeaderForView_ (r : Rotation) (all : list ValidatorInfo) (view : Z) : result rotation_error ValidatorID :=
  leader ← SelectLeader r all view; mret (vi_ID leader).

Definition IsLeader_ (r : Rotation) (all : list ValidatorInfo) (id : ValidatorID) (view : Z) : result rotation_error bool :=
  leaderID ← GetLeaderForView_ r all view; mret (bool_decide (leaderID = id)).

Definition GetEligibleCount (r : Rotation) (all : list ValidatorInfo) (view : Z) : Z :=
  let enforceReadiness := match readiness r with Some _ => 0 <? view | None => false end in
  len (filterEligible r all view enforceReadiness).

(** [count] is [validatorSet.GetValidatorCount()]. *)
Definition ValidateRotation (r : Rotation) (all : list ValidatorInfo) (count : Z) : result rotation_error unit :=
  if count =? 0 then Err SetEmpty
  else
    let f := Z.quot (count - 1) 3 in
    let minRequired := 2 * f + 1 in
    if GetEligibleCount r all 0 <? minRequired then Err InsufficientEligible else Ok tt.

Inductive ineligibility := NotInSet | Inactive | NotJoined | Quarantined | LowReputation | NotReady.

Definition IsLeaderEligibleToPropose (r : Rotation) (all : list ValidatorInfo) (id : ValidatorID) (view : Z)
  : option ineligibility :=
  match list_find (fun v => vi_ID v = id) all with
  | None => Some NotInSet
  | Some (_, v) =>
      if negb (IsActive v) then Some Inactive
      else if view <? JoinedView v then Some NotJoined
      else if EnableQuarantine (r_config r) && IsQuarantined (quarantine r) (vi_ID v) then Some Quarantined
      else if EnableReputation (r_config r) && f_ltb (Reputation v) (MinReputation (r_config r)) then Some LowReputation
      else match readiness r with
           | Some ready => if (0 <? view) && negb (ready (vi_ID v)) then Some NotReady else None
           | None => None
           end
  end.

Record LeaderEligibilityStatus := MkStatus {
  st_View : Z; st_LeaderID : ValidatorID; st_Reason : option ineligibility; st_Reputation : float64;
  st_IsActive : bool; st_JoinedView : Z }.

Definition GetLeaderEligibilityStatus (r : Rotation) (all : list ValidatorInfo) (view : Z)
  : result rotation_error LeaderEligibilityStatus :=
  leader ← SelectLeader r all view;
  mret (MkStatus view (vi_ID leader) (IsLeaderEligibleToPropose r all (vi_ID leader) view)
                 (Reputation leader) (IsActive leader) (JoinedView leader)).

(** ** The order of validators *)

Lemma less_validator_same x : less_validator x x = false.
Proof.
  unfold less_validator. rewrite bytes_compare_refl, Z.eqb_refl. cbn [negb]. rewrite eqb_reflx. cbn [negb].
  destruct (f_eqb _ _); cbn [negb]; [destruct (head _); [apply Z.ltb_irrefl|done]|].
  unfold f_ltb, SFltb. destruct (Reputation x) as [|[]| |[] m e]; cbn; try done; rewrite Z.compare_refl;
    fold (Pos.compare m m); by rewrite Pos.compare_refl.
Qed.

Section distinct.
Context (all : list ValidatorInfo) (Hnd : NoDup (vi_ID <$> all)).

Lemma same_ID x y : x ∈ all -> y ∈ all -> vi_ID x = vi_ID y -> x = y.
Proof.
  intros Hx Hy H. apply list_elem_of_lookup in Hx as [i Hi], Hy as [j Hj].
  assert (i = j) as ->; [|congruence].
  apply (NoDup_lookup _ i j (vi_ID x) Hnd); rewrite list_lookup_fmap; [by rewrite Hi|rewrite Hj; cbn; by rewrite H].
Qed.

(** On distinct identifiers the order is theirs. *)
Lemma less_validator_ID x y : x ∈ all -> y ∈ all ->
  less_validator x y = lex_ltb (byte_val <$> vi_ID x) (byte_val <$> vi_ID y).
Proof.
  intros Hx Hy. rewrite <- bytes_ltb_lex. unfold bytes_ltb. destruct (bytes_compare (vi_ID x) (vi_ID y)) eqn:Hc.
  - apply bytes_compare_eq in Hc. rewrite (same_ID x y Hx Hy Hc). apply less_validator_same.
  - unfold less_validator. by rewrite Hc.
  - unfold less_validator. by rewrite Hc.
Qed.

Lemma validators_asym x y : x ∈ all -> y ∈ all -> less_validator x y = true -> less_validator y x = false.
Proof. intros Hx Hy. rewrite !less_validator_ID by done. apply lex_ltb_asym. Qed.
Lemma validators_neg_trans x y z : x ∈ all -> y ∈ all -> z ∈ all ->
  less_validator y x = false -> less_validator z y = false -> less_validator z x = false.
Proof. intros Hx Hy Hz. rewrite !less_validator_ID by done. apply lex_geb_trans. Qed.

(** Sorting a part of the set does not depend on how it is listed. *)
Lemma sort_part l k : l ≡ₚ k -> Forall (.∈ all) l -> sortValidatorsDeterministic l = sortValidatorsDeterministic k.
Proof.
  intros Hp Hl. assert (Hk : Forall (.∈ all) k) by (by rewrite <- Hp).
  pose proof (stable_sort_sorted less_validator (.∈ all) validators_asym validators_neg_trans) as Hsort.
  apply (StronglySorted_Permutation_eq (fun x y => less_validator y x = false)).
  - intros x y Hx Hy H1 H2. unfold sortValidatorsDeterministic in Hx, Hy. rewrite (stable_sort_perm _ l) in Hx, Hy.
    rewrite Forall_forall in Hl. specialize (Hl x Hx) as Hx'. specialize (Hl y Hy) as Hy'.
    rewrite less_validator_ID in H1, H2 by done. pose proof (lex_ltb_total _ _ H2 H1) as He.
    apply same_ID; [done..|]. by apply (inj (fmap byte_val)).
  - by apply Hsort.
  - by apply Hsort.
  - unfold sortValidatorsDeterministic. by rewrite !stable_sort_perm.
Qed.
End distinct.

(** ** Properties *)

Lemma sort_perm l : sortValidatorsDeterministic l ≡ₚ l.
Proof. apply stable_sort_perm. Qed.

Lemma nth_leader_Ok l i v : nth_leader l i = Ok v <-> l !! i = Some v.
Proof. unfold nth_leader. destruct (l !! i); split; congruence. Qed.

Lemma filterEligible_in r all view b v : v ∈ filterEligible r all view b <-> v ∈ all /\ is_eligible r view b v = true.
Proof. unfold filterEligible. rewrite list_elem_of_filter. tauto. Qed.

Lemma is_eligible_joined r view b v : is_eligible r view b v = true -> IsActive v = true /\ JoinedView v <= view.
Proof. unfold is_eligible. intros H. go_bool. split; [done|lia]. Qed.

Lemma selectIndex_range r view count : 0 < count -> (selectIndex r view count < Z.to_nat count)%nat.
Proof. intros H. unfold selectIndex. pose proof (Z.mod_pos_bound (u64 (view + SelectionSeed (r_config r))) count H). lia. Qed.

Lemma sort_nth_total l i : (i < length l)%nat -> exists v, nth_leader (sortValidatorsDeterministic l) i = Ok v /\ v ∈ l.
Proof.
  intros Hi. destruct (lookup_lt_is_Some_2 (sortValidatorsDeterministic l) i) as [v Hv]; [by rewrite sort_perm|].
  exists v. rewrite nth_leader_Ok. split; [done|]. apply list_elem_of_lookup_2 in Hv. by rewrite sort_perm in Hv.
Qed.

(** The leader of a view is a validator of the set that had joined by then; when
    any validator is eligible, so is the leader: active and of sufficient
    reputation. With the fallback enabled and no quarantine over the limit, a view
    has a leader as soon as one validator has joined. *)
Theorem SelectLeader_sound (r : Rotation) (all : list ValidatorInfo) (view : Z) :
  (forall v, SelectLeader r all view = Ok v -> v ∈ all /\ JoinedView v <= view /\
     (filterEligible r all view false <> [] -> is_eligible r view false v = true)) /\
  (FallbackToAll (r_config r) = true ->
   f_ltb (MaxQuarantinedRatio (r_config r)) (quarantinedRatio r (len all)) = false ->
   forall v, v ∈ all -> JoinedView v <= view -> exists leader, SelectLeader r all view = Ok leader).
Proof.
  split.
  - intros v H. destruct all as [|x all']; [done|]. set (all := x :: all') in *. cbn -[filterEligible handleNoEligible] in H.
    assert (Hpart : forall l i, nth_leader (sortValidatorsDeterministic l) i = Ok v -> v ∈ l).
    { intros l i Hl. apply nth_leader_Ok, list_elem_of_lookup_2 in Hl. by rewrite sort_perm in Hl. }
    fold all in H. destruct (filterEligible r all view false) as [|e es] eqn:He.
    + unfold handleNoEligible in H. destruct (f_ltb _ _); [done|]. destruct (FallbackToAll _); [|done]. cbn [negb] in H.
      destruct (filter _ all) as [|a acts] eqn:Ha; [destruct (filter (fun v => (JoinedView v <=? view) = true) all) as [|j js] eqn:Hj; [done|]|].
      * apply Hpart in H. rewrite <- Hj in H. apply list_elem_of_filter in H as [H Hin]. go_bool. by split_and!.
      * apply Hpart in H. rewrite <- Ha in H. apply list_elem_of_filter in H as [H Hin]. go_bool. by split_and!.
    + apply Hpart in H. rewrite <- He in H. apply filterEligible_in in H as [Hin H].
      destruct (is_eligible_joined _ _ _ _ H). by split_and!.
  - intros Hfb Hq v Hv Hj. destruct all as [|x all']; [by apply not_elem_of_nil in Hv|]. set (all := x :: all') in *.
    assert (Htotal : forall l i, (i < length l)%nat -> exists leader, nth_leader (sortValidatorsDeterministic l) i = Ok leader).
    { intros l i Hi. destruct (sort_nth_total l i Hi) as (w & Hw & _). by exists w. }
    unfold SelectLeader. fold all. destruct (filterEligible r all view false) as [|e es] eqn:He.
    + unfold handleNoEligible. rewrite Hq, Hfb. cbn [negb].
      destruct (filter _ all) as [|a acts] eqn:Ha; [destruct (filter (fun v => (JoinedView v <=? view) = true) all) as [|j js] eqn:Hjs|].
      * exfalso. assert (Hin : v ∈ filter (fun v => (JoinedView v <=? view) = true) all)
          by (apply list_elem_of_filter; split; [by apply Z.leb_le|done]). rewrite Hjs in Hin. by apply not_elem_of_nil in Hin.
      * apply Htotal. pose proof (selectIndex_range r view (len (j :: js))). unfold len in *. cbn [length] in *. lia.
      * apply Htotal. pose proof (selectIndex_range r view (len (a :: acts))). unfold len in *. cbn [length] in *. lia.
    + apply Htotal. unfold len. cbn [length].
      pose proof (Z.mod_pos_bound view (Z.of_nat (S (length es)))). lia.
Qed.

(** Nodes that see the same validators with the same status elect the same leader,
    however their sets list them. *)
Theorem SelectLeader_order_independent (r : Rotation) (all all' : list ValidatorInfo) (view : Z)
    (Hperm : all ≡ₚ all') (Hnd : NoDup (vi_ID <$> all)) :
  SelectLeader r all view = SelectLeader r all' view.
Proof.
  assert (Hsort : forall (P : ValidatorInfo -> Prop) `{forall v, Decision (P v)},
    sortValidatorsDeterministic (filter P all) = sortValidatorsDeterministic (filter P all')).
  { intros P HP. apply (sort_part all Hnd); [by rewrite Hperm|]. apply Forall_forall.
    intros v (_ & Hv)%list_elem_of_filter. done. }
  assert (Hlen : forall (P : ValidatorInfo -> Prop) `{forall v, Decision (P v)}, len (filter P all) = len (filter P all')).
  { intros P HP. unfold len. by rewrite Hperm. }
  assert (Hnil : forall (P : ValidatorInfo -> Prop) `{forall v, Decision (P v)} {B} (a : B) (b : B),
    match filter P all with [] => a | _ => b end = match filter P all' with [] => a | _ => b end).
  { intros P HP B a b. pose proof (Permutation_length (filter_Permutation P _ _ Hperm)) as Hl.
    by destruct (filter P all), (filter P all'). }
  assert (Hall : len all = len all') by (unfold len; by rewrite Hperm).
  assert (Hno : handleNoEligible r all view false = handleNoEligible r all' view false).
  { unfold handleNoEligible. rewrite Hall. destruct (f_ltb _ _); [done|]. destruct (negb _); [done|].
    by rewrite Hnil, Hnil, !Hsort, !Hlen. }
  unfold SelectLeader. rewrite Hno. unfold filterEligible. rewrite Hsort, Hlen, Hnil.
  pose proof (Permutation_length Hperm) as Hl. by destruct all, all'.
Qed.

(** C13. Round-robin fairness: among [n] eligible validators, in any [n] consecutive
    views in which the set keeps its status, each leads exactly one. *)
Theorem every_validator_leads (r : Rotation) (all : list ValidatorInfo) (view : Z) (v : ValidatorInfo)
    (Hnd : NoDup (vi_ID <$> all)) (Hjoined : Forall (fun v => JoinedView v <= view) all) (Hview : 0 <= view)
    (Hv : v ∈ filterEligible r all view false) :
  let n := len (filterEligible r all view false) in
  exists k, 0 <= k < n /\ forall j, 0 <= j < n -> SelectLeader r all (view + j) = Ok v <-> j = k.
Proof.
  cbv zeta. set (E := filterEligible r all view false) in *.
  assert (Hsame : forall j, 0 <= j -> filterEligible r all (view + j) false = E).
  { intros j Hj. unfold E, filterEligible. apply filter_ext_in. intros x Hx. rewrite Forall_forall in Hjoined.
    specialize (Hjoined x Hx). unfold is_eligible. by rewrite !(proj2 (Z.ltb_ge _ (JoinedView x))) by lia. }
  assert (Hn : 0 < len E) by (unfold len; destruct E; [by apply not_elem_of_nil in Hv|cbn; lia]).
  assert (HndE : NoDup (sortValidatorsDeterministic E)).
  { rewrite sort_perm. apply NoDup_filter, (NoDup_fmap_1 vi_ID), Hnd. }
  assert (Hsel : forall j, 0 <= j -> SelectLeader r all (view + j) = Ok v <->
    sortValidatorsDeterministic E !! Z.to_nat ((view + j) mod len E) = Some v).
  { intros j Hj. rewrite <- nth_leader_Ok. unfold SelectLeader. rewrite (Hsame j Hj).
    destruct all; [by apply filterEligible_in in Hv as [Hv%not_elem_of_nil _]|].
    destruct E; [by apply not_elem_of_nil in Hv|done]. }
  assert (Hpos : exists p, sortValidatorsDeterministic E !! p = Some v).
  { apply list_elem_of_lookup. by rewrite sort_perm. }
  destruct Hpos as [p Hp]. pose proof (lookup_lt_Some _ _ _ Hp) as Hlt. rewrite sort_perm in Hlt.
  assert (Hpn : 0 <= Z.of_nat p < len E) by (unfold len; lia).
  exists ((Z.of_nat p - view) mod len E). split; [apply Z.mod_pos_bound; lia|].
  intros j Hj. rewrite (Hsel j) by lia. pose proof (Z.mod_pos_bound (view + j) (len E) Hn) as Hm. split.
  - intros Hl. pose proof (NoDup_lookup _ _ _ _ HndE Hl Hp) as Heq.
    assert (Hmod : (view + j) mod len E = Z.of_nat p) by lia. rewrite <- Hmod.
    rewrite Zminus_mod_idemp_l. replace (view + j - view) with j by lia. symmetry. by apply Z.mod_small.
  - intros ->. rewrite Zplus_mod_idemp_r. replace (view + (Z.of_nat p - view)) with (Z.of_nat p) by lia.
    rewrite Z.mod_small by lia. by rewrite Nat2Z.id.
Qed.

(** ** The set message validation reads *)

(** [validatorSetAdapter]: the validator set and the rotation, read at [now], as
    [messages.ValidatorSet]. *)
Definition validatorSetAdapter (r : Rotation) (s : validatorSet) (now : Time) : ValidatorSet := {|
  IsValidator id := IsValidator_ id s;
  GetValidatorCount := GetValidatorCount_ s;
  IsActiveInView id _ := (IsActiveInView_ id s).1;
  GetLeaderForView view :=
    match GetLeaderForView_ r (GetValidators now s).1 view with Ok id => Some id | Err _ => None end |}.

(** The node's set keeps the contract the certificate theorems assume. *)
Definition validatorSetAdapter_laws (r : Rotation) (s : validatorSet) (now : Time) (ids : list ValidatorID)
  (Hnd : NoDup ids) (Hs : set_inv ids s) : @ValidatorSetLaws (validatorSetAdapter r s now).
Proof.
  refine (@Build_ValidatorSetLaws (validatorSetAdapter r s now) ids Hnd _ _).
  - intros id. cbn. unfold IsValidator_. rewrite bool_decide_eq_true. split.
    + intros [i Hi]. apply (set_index ids s Hs) in Hi. by eapply list_elem_of_lookup_2.
    + intros [i Hi]%list_elem_of_lookup. exists i. by apply (set_index ids s Hs).
  - cbn. unfold GetValidatorCount_, len. by rewrite <- (set_ids ids s Hs), length_fmap.
Defined.

(** ** Concrete sets *)

Definition demo_info (n : Z) : ValidatorInfo :=
  MkInfo (be_put 32 n) [] [] (f_of_Z 1) true 0 (time_Unix 1700000000).
Definition demo_infos : list ValidatorInfo := demo_info <$> [3; 1; 4; 2].
Definition demo_validators : validatorSet := newValidatorSet demo_infos 0.
Definition demo_rotation : Rotation := NewRotation None None.

Lemma demo_infos_NoDup : NoDup (vi_ID <$> demo_infos).
Proof. apply (bool_decide_unpack (NoDup _)). vm_compute. exact I. Qed.

Lemma SelectLeader_order_independent_witness :
  SelectLeader demo_rotation demo_infos 5 = Ok (demo_info 2) /\
  SelectLeader demo_rotation demo_infos 5 = SelectLeader demo_rotation (reverse demo_infos) 5.
Proof.
  split; [vm_compute; reflexivity|].
  apply (SelectLeader_order_independent demo_rotation demo_infos (reverse demo_infos) 5).
  - symmetry. apply reverse_Permutation.
  - exact demo_infos_NoDup.
Defined.

Lemma every_validator_leads_witness :
  len (filterEligible demo_rotation demo_infos 7 false) = 4 /\
  exists k, 0 <= k < 4 /\ forall j, 0 <= j < 4 -> SelectLeader demo_rotation demo_infos (7 + j) = Ok (demo_info 4) <-> j = k.
Proof.
  split; [vm_compute; reflexivity|].
  apply (every_validator_leads demo_rotation demo_infos 7 (demo_info 4)).
  - exact demo_infos_NoDup.
  - apply Forall_fmap. repeat constructor; vm_compute; discriminate.
  - lia.
  - apply filterEligible_in. split; [|vm_compute; reflexivity]. right. right. by left.
Defined.

(** A set in which some validators were heard from at a given time. *)
Definition heard (l : list Z) (at_ : Time) (s : validatorSet) : validatorSet :=
  foldl (fun s n => MarkActive (be_put 32 n) at_ at_ s) s l.

(** The same four validators on two nodes: one heard from validator 1 ten seconds
    ago, the other a hundred. In view 4 they follow different leaders. *)
Theorem leaders_diverge :
  let recently := time_Unix 1700000090 in
  let now := time_Unix 1700000100 in
  let node_a := heard [1; 2; 3; 4] recently demo_validators in
  let node_b := heard [2; 3; 4] recently demo_validators in
  GetLeaderForView_ demo_rotation (GetValidators now node_a).1 4 = Ok (be_put 32 1) /\
  GetLeaderForView_ demo_rotation (GetValidators now node_b).1 4 = Ok (be_put 32 3).
Proof. split; vm_compute; reflexivity. Qed.

(** Activity is recorded for anyone: a stranger who was heard of is active in every
    view without being a validator. *)
Example stranger_active :
  let s := MarkActive (be_put 32 99) (time_Unix 1700000090) (time_Unix 1700000090) demo_validators in
  IsValidator_ (be_put 32 99) s = false /\ (IsActiveInView_ (be_put 32 99) s).1 = true /\ size (activity s) = 5%nat.
Proof. split_and!; vm_compute; reflexivity. Qed.
