(* ===== verification/Pacemaker.v ===== *)
(** The pacemaker (backend/pkg/consensus/leader/leader.go): views, timeouts and
    view changes, with the adapters that put its messages on the wire and hand it
    the received ones. *)
From S2P Require Import Prelude Bytes Sha256 GoTime GoFloat Messages Interfaces Encoder Validation Quorum.
From S2P Require Import Validators Rotation.

(** ** Data *)

Record PacemakerConfig := MkPacemakerConfig {
  BaseTimeout : Z; MaxTimeout : Z; MinTimeout : Z; TimeoutIncreaseFactor : float64; TimeoutDecreaseDelta : Z;
  JitterPercent : float64; ViewChangeTimeout : Z; EnableAIMD : bool; RequireQuorum : bool }.

Definition DefaultPacemakerConfig : PacemakerConfig :=
  MkPacemakerConfig (10 * Second) (60 * Second) (5 * Second) (f_div (f_of_Z 3) (f_of_Z 2)) (200 * Millisecond)
    (f_div (f_of_Z 1) (f_of_Z 10)) (30 * Second) true true.

Record ViewChangeMsg := MkVC {
  pvc_OldView : Z; pvc_NewView : Z; pvc_HighestQC : option IQC; pvc_SenderID : ValidatorID; pvc_Timestamp : Time;
  pvc_Signature : bytes }.
Record NewViewMsg := MkNV {
  pnv_View : Z; pnv_ViewChanges : list ViewChangeMsg; pnv_HighestQC : option IQC; pnv_LeaderID : ValidatorID;
  pnv_Timestamp : Time; pnv_Signature : bytes }.

Record viewRetryState := MkRetry { attempts : Z; firstTry : Time; lastRetry : Time }.

(** What the pacemaker hands to its publisher and its view-change callback, latest
    first. *)
Inductive pm_event :=
| SentViewChange (vc : ViewChangeMsg)
| SentNewView (nv : NewViewMsg)
| CalledViewChange (newView : Z) (qc : option IQC).

(** The timer and the goroutine that waits for it are not part of the state: a
    firing is a call of [handleTimeout]. *)
Record Pacemaker := MkPacemaker {
  pm_config : PacemakerConfig;
  pm_currentView : Z;
  pm_currentHeight : Z;
  highestQC : option IQC;
  timeout : Z;
  viewChanges : gmap Z (gmap ValidatorID ViewChangeMsg);
  lastCatchupBroadcast : gmap Z Time;
  retryState : gmap Z viewRetryState;
  staleViewChanges : gmap Z Time;
  newViewSent : bool;
  startTime : Time;
  lastViewTime : Time;
  circuitBreakerHits : Z;
  stopped : bool;
  pm_events : list pm_event }.

Definition catchupResendBaseInterval : Z := Second.
Definition maxCatchupRetries : Z := 5.
Definition stalePeerWindow : Z := 30 * Second.

Inductive pm_error :=
| PSign | POldView | PRotation (e : rotation_error) | PNoViewChanges | PNewViewCallback
| PNonLeader | PInsufficient | PCallback.

(** The node and what its publisher and callbacks answer; [None] is a nil one. The
    answer of the [OnTimeout] callback is only logged. *)
Record Publisher := MkPublisher { PublishViewChange : ViewChangeMsg -> bool; PublishNewView : NewViewMsg -> bool }.
Record Callbacks := MkCallbacks {
  cb_OnViewChange : Z -> option IQC -> bool; cb_OnNewView : Z -> NewViewMsg -> bool }.
Class PacemakerEnv := {
  LocalID : ValidatorID;
  Sign : Time -> bytes -> option bytes;
  publisher : option Publisher;
  callbacks : option Callbacks;
  (** the order in which a range visits the view changes of a view *)
  range_vcs : gmap ValidatorID ViewChangeMsg -> list (ValidatorID * ViewChangeMsg);
  range_vcs_perm m : range_vcs m ≡ₚ map_to_list m }.

(** ** State updates *)

Definition set_position view height qc (pm : Pacemaker) : Pacemaker :=
  MkPacemaker (pm_config pm) view height qc (timeout pm) (viewChanges pm) (lastCatchupBroadcast pm) (retryState pm)
    (staleViewChanges pm) (newViewSent pm) (startTime pm) (lastViewTime pm) (circuitBreakerHits pm) (stopped pm) (pm_events pm).
Definition set_timeout t (pm : Pacemaker) : Pacemaker :=
  MkPacemaker (pm_config pm) (pm_currentView pm) (pm_currentHeight pm) (highestQC pm) t (viewChanges pm)
    (lastCatchupBroadcast pm) (retryState pm) (staleViewChanges pm) (newViewSent pm) (startTime pm) (lastViewTime pm)
    (circuitBreakerHits pm) (stopped pm) (pm_events pm).
Definition set_messages vcs last retry stale hits ev (pm : Pacemaker) : Pacemaker :=
  MkPacemaker (pm_config pm) (pm_currentView pm) (pm_currentHeight pm) (highestQC pm) (timeout pm) vcs last retry stale
    (newViewSent pm) (startTime pm) (lastViewTime pm) hits (stopped pm) ev.
Definition set_progress sent started viewTime (pm : Pacemaker) : Pacemaker :=
  MkPacemaker (pm_config pm) (pm_currentView pm) (pm_currentHeight pm) (highestQC pm) (timeout pm) (viewChanges pm)
    (lastCatchupBroadcast pm) (retryState pm) (staleViewChanges pm) sent started viewTime (circuitBreakerHits pm)
    (stopped pm) (pm_events pm).
Definition set_stopped b (pm : Pacemaker) : Pacemaker :=
  MkPacemaker (pm_config pm) (pm_currentView pm) (pm_currentHeight pm) (highestQC pm) (timeout pm) (viewChanges pm)
    (lastCatchupBroadcast pm) (retryState pm) (staleViewChanges pm) (newViewSent pm) (startTime pm) (lastViewTime pm)
    (circuitBreakerHits pm) b (pm_events pm).

Definition set_viewChanges vcs (pm : Pacemaker) :=
  set_messages vcs (lastCatchupBroadcast pm) (retryState pm) (staleViewChanges pm) (circuitBreakerHits pm) (pm_events pm) pm.
Definition set_lastBroadcast l (pm : Pacemaker) :=
  set_messages (viewChanges pm) l (retryState pm) (staleViewChanges pm) (circuitBreakerHits pm) (pm_events pm) pm.
Definition set_retryState r (pm : Pacemaker) :=
  set_messages (viewChanges pm) (lastCatchupBroadcast pm) r (staleViewChanges pm) (circuitBreakerHits pm) (pm_events pm) pm.
Definition set_stale s (pm : Pacemaker) :=
  set_messages (viewChanges pm) (lastCatchupBroadcast pm) (retryState pm) s (circuitBreakerHits pm) (pm_events pm) pm.
Definition set_hits n (pm : Pacemaker) :=
  set_messages (viewChanges pm) (lastCatchupBroadcast pm) (retryState pm) (staleViewChanges pm) n (pm_events pm) pm.
Definition sent e (pm : Pacemaker) :=
  set_messages (viewChanges pm) (lastCatchupBroadcast pm) (retryState pm) (staleViewChanges pm) (circuitBreakerHits pm)
    (e :: pm_events pm) pm.

(** [pm.viewChanges[view][id] = vc], making the inner map when it is nil. *)
Definition store_view_change (view : Z) (id : ValidatorID) (vc : ViewChangeMsg) (pm : Pacemaker) : Pacemaker :=
  set_viewChanges (<[view := <[id := vc]> (default ∅ (viewChanges pm !! view))]> (viewChanges pm)) pm.

Definition NewPacemaker (config : option PacemakerConfig) : Pacemaker :=
  let c := default DefaultPacemakerConfig config in
  MkPacemaker c 0 0 None (BaseTimeout c) ∅ ∅ ∅ ∅ false zero_time zero_time 0 false [].

Definition Start (now : Time) (pm : Pacemaker) : Pacemaker := set_progress (newViewSent pm) now now pm.
Definition Stop (pm : Pacemaker) : Pacemaker := set_stopped true pm.

(** ** Timeouts *)

Definition increaseTimeout (pm : Pacemaker) : Pacemaker :=
  let newTimeout := f_to_int64 (f_mul (f_of_Z (timeout pm)) (TimeoutIncreaseFactor (pm_config pm))) in
  set_timeout (if MaxTimeout (pm_config pm) <? newTimeout then MaxTimeout (pm_config pm) else newTimeout) pm.

Definition decreaseTimeout (pm : Pacemaker) : Pacemaker :=
  let propStep := Z.quot (timeout pm) 5 in
  let propStep := if propStep <? Millisecond then Millisecond else propStep in
  let step := TimeoutDecreaseDelta (pm_config pm) in
  let step := if step <? propStep then propStep else step in
  let newTimeout := timeout pm - step in
  set_timeout (if newTimeout <? MinTimeout (pm_config pm) then MinTimeout (pm_config pm) else newTimeout) pm.

Definition catchupResendIntervalFor (currentTimeout attempts : Z) : Z :=
  let interval :=
    if 0 <? attempts then
      let backoff := i64 (Z.shiftl 1 attempts * catchupResendBaseInterval) in
      if backoff <? currentTimeout then backoff else currentTimeout
    else catchupResendBaseInterval in
  let maxInterval := Z.quot currentTimeout 2 in
  if maxInterval <? interval then maxInterval else interval.

(** ** Canonical bytes *)

Definition viewChangeSignBytes (vc : ViewChangeMsg) : bytes :=
  str "CONSENSUS_VIEWCHANGE_V1" ++ [x00] ++
  be_put 8 (pvc_OldView vc) ++ be_put 8 (pvc_NewView vc) ++ be_put 8 0 ++
  pvc_SenderID vc ++ be_put 8 (u64 (UnixNano (pvc_Timestamp vc))).

Definition hashViewChange (vc : ViewChangeMsg) : bytes :=
  sha256 (str "CONSENSUS_VIEWCHANGE_V1" ++ [x00] ++
    be_put 8 (pvc_OldView vc) ++ be_put 8 (pvc_NewView vc) ++ be_put 8 0 ++
    pvc_SenderID vc ++ be_put 8 (u64 (UnixNano (pvc_Timestamp vc)))).

Definition newViewSignBytes (nv : NewViewMsg) : bytes :=
  str "CONSENSUS_NEWVIEW_V1" ++ [x00] ++
  be_put 8 (pnv_View nv) ++ be_put 8 0 ++ pnv_LeaderID nv ++ be_put 8 (u64 (UnixNano (pnv_Timestamp nv))) ++
  mjoin (hashViewChange <$> pnv_ViewChanges nv) ++
  match pnv_HighestQC nv with Some q => IQC_Hash q | None => [] end.

Definition getQCView (qc : option IQC) : Z := match qc with Some q => q_View (iqc q) | None => 0 end.

(** Whether [qc] is newer than the best one known. *)
Definition newer (qc : IQC) (best : option IQC) : bool :=
  match best with None => true | Some b => q_View (iqc b) <? q_View (iqc qc) end.

Section pacemaker.
Context {Env : PacemakerEnv}.

Definition PM (A : Type) : Type := ST Pacemaker pm_error A.

Definition buildViewChangeMsg (now : Time) (oldView newView : Z) (qc : option IQC) : option ViewChangeMsg :=
  let vc sg := MkVC oldView newView qc LocalID now sg in
  signature ← Sign now (viewChangeSignBytes (vc []));
  Some (vc signature).

(** ** View changes *)

Definition TriggerViewChange (now : Time) : PM unit := fun pm =>
  let oldView := pm_currentView pm in
  let newView := u64 (oldView + 1) in
  match buildViewChangeMsg now oldView newView (highestQC pm) with
  | None => (Err PSign, pm)
  | Some vc =>
      let pm := store_view_change newView LocalID vc pm in
      (Ok tt, match publisher with
              | Some p => let pm := sent (SentViewChange vc) pm in
                          if PublishViewChange p vc
                          then set_lastBroadcast (<[newView := now]> (lastCatchupBroadcast pm)) pm else pm
              | None => pm
              end)
  end.

Definition clamp (lo hi x : Z) : Z := let x := if x <? lo then lo else x in if hi <? x then hi else x.

Definition handleTimeout (now : Time) : PM unit := fun pm =>
  let sinceLastAdvance := if IsZero (lastViewTime pm) then 0 else Sub now (lastViewTime pm) in
  let staleWindow := clamp (100 * Millisecond) (750 * Millisecond) (Z.quot (timeout pm) 4) in
  if (0 <? sinceLastAdvance) && (sinceLastAdvance <? staleWindow) then (Ok tt, pm)
  else
    let progressWindow := clamp (100 * Millisecond) (500 * Millisecond) (Z.quot (timeout pm) 8) in
    let shouldIncrease := negb ((0 <? sinceLastAdvance) && (sinceLastAdvance <? progressWindow)) in
    let pm := if EnableAIMD (pm_config pm) && shouldIncrease then increaseTimeout pm else pm in
    (Ok tt, (TriggerViewChange now pm).2).

Definition quorum_of (all : list ValidatorInfo) : Z := 2 * Z.quot (len all - 1) 3 + 1.

Definition received (view : Z) (pm : Pacemaker) : gmap ValidatorID ViewChangeMsg := default ∅ (viewChanges pm !! view).

Definition hasViewChangeQuorum (all : list ValidatorInfo) (view : Z) (pm : Pacemaker) : bool :=
  negb (RequireQuorum (pm_config pm)) || (quorum_of all <=? Z.of_nat (size (received view pm))).

Definition best_of (l : list (ValidatorID * ViewChangeMsg)) (best : option IQC) : option IQC :=
  foldl (fun best kv => match pvc_HighestQC kv.2 with
                        | Some q => if newer q best then Some q else best
                        | None => best
                        end) best l.

Definition selectHighestQCForView (view : Z) (pm : Pacemaker) : option IQC :=
  best_of (range_vcs (received view pm)) (highestQC pm).

(** ** Advancing *)

(** What [advanceView] restores when the callback fails. *)
Record snapshot := MkSnapshot { sn_view : Z; sn_time : Time; sn_qc : option IQC; sn_height : Z; sn_sent : bool }.
Definition take_snapshot (pm : Pacemaker) : snapshot :=
  MkSnapshot (pm_currentView pm) (lastViewTime pm) (highestQC pm) (pm_currentHeight pm) (newViewSent pm).

(** Up to the callback, under the lock. *)
Definition begin_advance (now : Time) (newView : Z) (qc : option IQC) (pm : Pacemaker) : Pacemaker :=
  let pm' := match qc with
             | Some q => if newer q (highestQC pm)
                         then set_position newView (u64 (q_Height (iqc q) + 1)) (Some q) pm
                         else set_position newView (pm_currentHeight pm) (highestQC pm) pm
             | None => set_position newView (pm_currentHeight pm) (highestQC pm) pm
             end in
  set_progress false (startTime pm) now pm'.

Definition restore (s : snapshot) (pm : Pacemaker) : Pacemaker :=
  set_progress (sn_sent s) (startTime pm) (sn_time s) (set_position (sn_view s) (sn_height s) (sn_qc s) pm).

(** The callback, and what follows it. *)
Definition end_advance (s : snapshot) (newView : Z) (qc : option IQC) : PM unit := fun pm =>
  match callbacks with
  | None => (Ok tt, if EnableAIMD (pm_config pm) then decreaseTimeout pm else pm)
  | Some cb =>
      let pm := sent (CalledViewChange newView qc) pm in
      if cb_OnViewChange cb newView qc
      then (Ok tt, if EnableAIMD (pm_config pm) then decreaseTimeout pm else pm)
      else (Err PCallback, restore s pm)
  end.

Definition advanceView (now : Time) (newView : Z) (qc : option IQC) : PM unit := fun pm =>
  end_advance (take_snapshot pm) newView qc (begin_advance now newView qc pm).

(** [sendNewView] up to the advance: the best certificate of the view changes. *)
Definition collect_new_view (now : Time) (newView : Z) : PM (option IQC) := fun pm =>
  let vcs := range_vcs (received newView pm) in
  let qc := best_of vcs None in
  match vcs with
  | [] => (Err PNoViewChanges, pm)
  | _ =>
      let pm := set_progress true (startTime pm) (lastViewTime pm) pm in
      let nv sg := MkNV newView (vcs.*2) qc LocalID now sg in
      match Sign now (newViewSignBytes (nv [])) with
      | None => (Err PSign, pm)
      | Some signature =>
          let pm := match publisher with Some _ => sent (SentNewView (nv signature)) pm | None => pm end in
          (if match callbacks with Some cb => cb_OnNewView cb newView (nv signature) | None => true end
           then Ok qc else Err PNewViewCallback, pm)
      end
  end.

Definition sendNewView (now : Time) (newView : Z) : PM unit :=
  qc ← collect_new_view now newView; advanceView now newView qc.

(** ** Catching up *)

Definition hasRecentStalePeers (now : Time) (currentView : Z) (pm : Pacemaker) : bool :=
  let cutoff := Add now (- stalePeerWindow) in
  existsb (fun vt => (vt.1 <? currentView) && After vt.2 cutoff) (map_to_list (staleViewChanges pm)).

Definition throttled (now : Time) (newView interval : Z) (pm : Pacemaker) : bool :=
  match lastCatchupBroadcast pm !! newView with
  | Some last => negb (IsZero last) && (Sub now last <? interval)
  | None => false
  end.

Definition broadcastCatchupViewChange (now : Time) (oldView newView : Z) (force : bool) (pm : Pacemaker) : Pacemaker :=
  let state := default (MkRetry 0 zero_time zero_time) (retryState pm !! newView) in
  if maxCatchupRetries <=? attempts state then set_hits (circuitBreakerHits pm + 1) pm
  else
    let pm := set_viewChanges (<[newView := received newView pm]> (viewChanges pm)) pm in
    let existing := received newView pm !! LocalID in
    let interval := catchupResendIntervalFor (timeout pm) (attempts state) in
    if match existing with Some _ => negb force && throttled now newView interval pm | None => false end then pm
    else
      match buildViewChangeMsg now oldView newView
              (match existing with Some vc => pvc_HighestQC vc | None => highestQC pm end) with
      | None => pm
      | Some vc =>
          let pm := store_view_change newView LocalID vc pm in
          let state := MkRetry (attempts state + 1) (if attempts state =? 0 then now else firstTry state) now in
          let pm := set_retryState (<[newView := state]> (retryState pm)) pm in
          let pm := set_lastBroadcast (<[newView := now]> (lastCatchupBroadcast pm)) pm in
          match publisher with
          | None => pm
          | Some p =>
              let pm := sent (SentViewChange vc) pm in
              if PublishViewChange p vc then set_retryState (delete newView (retryState pm)) pm
              else set_lastBroadcast (<[newView := Add now (- interval)]> (lastCatchupBroadcast pm)) pm
          end
      end.

(** ** Handlers *)

(** What a handler's locked section leaves to do once the lock is released. *)
Inductive pm_next :=
| Return (r : result pm_error unit)
| Lead (newView : Z)
| Advance (newView : Z) (qc : option IQC)
| AdvanceOnQC (qc : IQC)
| CatchUp (oldView newView : Z).

Definition OnViewChange_locked (now : Time) (r : Rotation) (all : list ValidatorInfo) (vc : ViewChangeMsg) (pm : Pacemaker)
  : pm_next * Pacemaker :=
  let newView := pvc_NewView vc in
  if newView <=? pm_currentView pm then
    if newView <? pm_currentView pm then
      let pm := set_stale (<[newView := now]> (staleViewChanges pm)) pm in
      (if 0 <? pm_currentView pm then CatchUp (pm_currentView pm - 1) (pm_currentView pm) else Return (Err POldView), pm)
    else (Return (Ok tt), pm)
  else
    let pm := store_view_change newView (pvc_SenderID vc) vc pm in
    if negb (hasViewChangeQuorum all newView pm) then (Return (Ok tt), pm)
    else match IsLeader_ r all LocalID newView with
         | Err e => (Return (Err (PRotation e)), pm)
         | Ok true => (Lead newView, pm)
         | Ok false => (Advance newView (selectHighestQCForView newView pm), pm)
         end.

Definition OnNewView_locked (r : Rotation) (all : list ValidatorInfo) (nv : NewViewMsg) (pm : Pacemaker)
  : pm_next * Pacemaker :=
  (if pnv_View nv <? pm_currentView pm then Return (Err POldView)
   else if pnv_View nv =? pm_currentView pm then Return (Ok tt)
   else match IsLeader_ r all (pnv_LeaderID nv) (pnv_View nv) with
        | Err e => Return (Err (PRotation e))
        | Ok false => Return (Err PNonLeader)
        | Ok true =>
            if RequireQuorum (pm_config pm) && (len (pnv_ViewChanges nv) <? quorum_of all) then Return (Err PInsufficient)
            else Advance (pnv_View nv) (pnv_HighestQC nv)
        end, pm).

Definition OnQC_locked (qc : IQC) (pm : Pacemaker) : pm_next * Pacemaker :=
  let best := if newer qc (highestQC pm) then Some qc else highestQC pm in
  let newHeight := u64 (q_Height (iqc qc) + 1) in
  let height := if pm_currentHeight pm <? newHeight then newHeight else pm_currentHeight pm in
  let pm := set_position (pm_currentView pm) height best pm in
  (if u64 (q_View (iqc qc) + 1) <=? pm_currentView pm then Return (Ok tt) else AdvanceOnQC qc, pm).

(** What follows the locked section when nothing else happens in between. *)
Definition continue (now : Time) (next : pm_next) : PM unit := fun pm =>
  match next with
  | Return r => (r, pm)
  | Lead newView => sendNewView now newView pm
  | Advance newView qc => advanceView now newView qc pm
  | AdvanceOnQC qc =>
      let oldView := q_View (iqc qc) in
      let nextView := u64 (oldView + 1) in
      match advanceView now nextView (Some qc) pm with
      | (Ok _, pm) => (Ok tt, broadcastCatchupViewChange now oldView nextView (hasRecentStalePeers now nextView pm) pm)
      | (Err _, pm) => (Ok tt, pm)
      end
  | CatchUp oldView newView => (Err POldView, broadcastCatchupViewChange now oldView newView true pm)
  end.

Definition OnViewChange (now : Time) (r : Rotation) (all : list ValidatorInfo) (vc : ViewChangeMsg) : PM unit := fun pm =>
  let '(next, pm) := OnViewChange_locked now r all vc pm in continue now next pm.
Definition OnNewView (now : Time) (r : Rotation) (all : list ValidatorInfo) (nv : NewViewMsg) : PM unit := fun pm =>
  let '(next, pm) := OnNewView_locked r all nv pm in continue now next pm.
Definition OnQC (now : Time) (qc : IQC) : PM unit := fun pm =>
  let '(next, pm) := OnQC_locked qc pm in continue now next pm.

(** ** Accessors *)

Definition SetCurrentView (now : Time) (view : Z) (pm : Pacemaker) : Pacemaker :=
  if view <=? pm_currentView pm then pm
  else set_progress (newViewSent pm) (startTime pm) now (set_position view (pm_currentHeight pm) (highestQC pm) pm).
Definition SetCurrentHeight (height : Z) (pm : Pacemaker) : Pacemaker :=
  if pm_currentHeight pm <? height then set_position (pm_currentView pm) height (highestQC pm) pm else pm.
Definition SetHighestQC (qc : IQC) (pm : Pacemaker) : Pacemaker :=
  if newer qc (highestQC pm) then set_position (pm_currentView pm) (pm_currentHeight pm) (Some qc) pm else pm.
Definition GetViewChangeCount (view : Z) (pm : Pacemaker) : Z := Z.of_nat (size (received view pm)).
Definition CleanupOldViewChanges (pm : Pacemaker) : Pacemaker :=
  set_viewChanges (filter (fun kv => pm_currentView pm <= kv.1) (viewChanges pm)) pm.
End pacemaker.
