(* ===== verification/PacemakerInv.v ===== *)
(** The pacemaker over runs: sequential ones, in which every call completes before
    the next, and interleaved ones, in which the lock is released between the parts
    of a call. *)
From S2P Require Import Prelude Bytes Sha256 GoTime GoFloat Messages Interfaces Encoder Validation Quorum.
From S2P Require Import Validators Rotation Pacemaker.

Section runs.
Context {Env : PacemakerEnv}.

Inductive pm_call :=
| PStart (now : Time)
| PStop
| PTimeout (now : Time)
| PTrigger (now : Time)
| PViewChange (now : Time) (r : Rotation) (all : list ValidatorInfo) (vc : ViewChangeMsg)
| PNewView (now : Time) (r : Rotation) (all : list ValidatorInfo) (nv : NewViewMsg)
| PQC (now : Time) (qc : IQC)
| PSetView (now : Time) (view : Z)
| PSetHeight (height : Z)
| PSetQC (qc : IQC)
| PCleanup.

Definition run_pm (c : pm_call) (pm : Pacemaker) : Pacemaker :=
  match c with
  | PStart now => Start now pm
  | PStop => Stop pm
  | PTimeout now => (handleTimeout now pm).2
  | PTrigger now => (TriggerViewChange now pm).2
  | PViewChange now r all vc => (OnViewChange now r all vc pm).2
  | PNewView now r all nv => (OnNewView now r all nv pm).2
  | PQC now qc => (OnQC now qc pm).2
  | PSetView now view => SetCurrentView now view pm
  | PSetHeight height => SetCurrentHeight height pm
  | PSetQC qc => SetHighestQC qc pm
  | PCleanup => CleanupOldViewChanges pm
  end.

Definition run_pms (cs : list pm_call) (pm : Pacemaker) : Pacemaker := foldl (fun pm c => run_pm c pm) pm cs.

(** ** Progress *)

(** The rank of the best certificate: its view, below every view when there is none. *)
Definition qc_rank (q : option IQC) : Z := match q with Some q => q_View (iqc q) | None => -1 end.

(** [b] is at least as far as [a], under the same configuration. *)
Record ahead (a b : Pacemaker) : Prop := {
  ahead_view : pm_currentView a <= pm_currentView b;
  ahead_qc : highestQC a = None \/ (is_Some (highestQC b) /\ qc_rank (highestQC a) <= qc_rank (highestQC b));
  ahead_config : pm_config b = pm_config a }.

(** Timeouts below the maximum, at most five attempts of a catch-up message. *)
Record bounded_pm (pm : Pacemaker) : Prop := {
  bounded_timeout : timeout pm <= MaxTimeout (pm_config pm);
  bounded_min : MinTimeout (pm_config pm) <= MaxTimeout (pm_config pm);
  bounded_retries v s : retryState pm !! v = Some s -> 0 <= attempts s <= maxCatchupRetries }.

#[export] Instance ahead_refl : Reflexive ahead.
Proof. intros pm. constructor; [lia| |done]. destruct (highestQC pm); [right; split; [done|lia]|by left]. Qed.
#[export] Instance ahead_trans : Transitive ahead.
Proof.
  intros a b c [H1 H2 H3] [H4 H5 H6]. constructor; [lia| |congruence].
  destruct H2 as [H2|[[q Hq] H2]]; [by left|]. destruct H5 as [H5|[H5 H7]]; [congruence|]. right. split; [done|lia].
Qed.

(** A step keeps the bounds and goes ahead. *)
Definition progresses (a b : Pacemaker) : Prop := bounded_pm a -> bounded_pm b /\ ahead a b.

Lemma progresses_refl a : progresses a a.
Proof. intros H. by split. Qed.
Lemma progresses_trans a b c : progresses a b -> progresses b c -> progresses a c.
Proof. intros H1 H2 Ha. destruct (H1 Ha) as [Hb Hab], (H2 (proj1 (H1 Ha))) as [Hc Hbc]. split; [done|by trans b]. Qed.

(** Changes to fields the invariant does not read. *)
Lemma progresses_same a b :
  pm_currentView b = pm_currentView a -> highestQC b = highestQC a -> pm_config b = pm_config a ->
  timeout b = timeout a -> (forall v s, retryState b !! v = Some s -> retryState a !! v = Some s \/ 0 <= attempts s <= 5) ->
  progresses a b.
Proof.
  intros H1 H2 H3 H4 H5 [B1 B2 B3]. split.
  - constructor; [congruence|congruence|]. intros v s [Hs|Hs]%H5; [by eapply B3|done].
  - constructor; [lia| |done]. rewrite H2. destruct (highestQC a); [right; split; [done|lia]|by left].
Qed.

Ltac same := apply progresses_same; cbn; try done; try (by intros; left).

Lemma sent_progress e pm : progresses pm (sent e pm).
Proof. same. Qed.

Lemma increase_progress pm : progresses pm (increaseTimeout pm).
Proof.
  intros [B1 B2 B3]. split; [|constructor; cbn; [lia| |done]].
  - constructor; cbn; [|done|done]. destruct (Z.ltb_spec (MaxTimeout (pm_config pm))
      (f_to_int64 (f_mul (f_of_Z (timeout pm)) (TimeoutIncreaseFactor (pm_config pm))))); lia.
  - destruct (highestQC pm); [right; split; [done|lia]|by left].
Qed.

Lemma decrease_progress pm : progresses pm (decreaseTimeout pm).
Proof.
  intros [B1 B2 B3]. split; [|constructor; cbn; [lia| |done]].
  - constructor; cbn; [|done|done].
    set (p := if Z.quot (timeout pm) 5 <? Millisecond then Millisecond else Z.quot (timeout pm) 5).
    assert (Hp : 0 < p) by (subst p; unfold Millisecond; destruct (Z.ltb_spec (Z.quot (timeout pm) 5) 1000000); lia).
    destruct (Z.ltb_spec (TimeoutDecreaseDelta (pm_config pm)) p);
      match goal with |- (if ?b then _ else _) <= _ => destruct b end; lia.
  - destruct (highestQC pm); [right; split; [done|lia]|by left].
Qed.

Lemma TriggerViewChange_progress now pm : progresses pm (TriggerViewChange now pm).2.
Proof.
  unfold TriggerViewChange. destruct (buildViewChangeMsg _ _ _ _) as [vc|]; [|apply progresses_refl].
  destruct publisher as [p|]; [|same]. destruct (PublishViewChange p vc); same.
Qed.

Lemma handleTimeout_progress now pm : progresses pm (handleTimeout now pm).2.
Proof.
  unfold handleTimeout. destruct (_ && _); [apply progresses_refl|]. cbn [snd].
  eapply progresses_trans; [|apply TriggerViewChange_progress].
  destruct (_ && _); [apply increase_progress|apply progresses_refl].
Qed.

Lemma begin_advance_progress now v qc pm : pm_currentView pm <= v -> progresses pm (begin_advance now v qc pm).
Proof.
  intros Hv [B1 B2 B3]. assert (Hself : highestQC pm = None \/ (is_Some (highestQC pm) /\ qc_rank (highestQC pm) <= qc_rank (highestQC pm)))
    by (destruct (highestQC pm); [right; split; [done|lia]|by left]).
  split; [unfold begin_advance; destruct qc as [q|]; [destruct (newer q (highestQC pm))|]; by constructor|].
  unfold begin_advance. destruct qc as [q|]; [|by constructor].
  destruct (newer q (highestQC pm)) eqn:Hn; [|by constructor].
  constructor; cbn; [done| |done]. unfold newer in Hn. destruct (highestQC pm) as [b|]; [|by left].
  right. split; [done|]. go_bool. cbn. lia.
Qed.

Lemma advance_progress now v qc pm : pm_currentView pm <= v -> progresses pm (advanceView now v qc pm).2.
Proof.
  intros Hv. unfold advanceView, end_advance. pose proof (begin_advance_progress now v qc pm Hv) as Hb.
  destruct callbacks as [cb|].
  - destruct (cb_OnViewChange cb v qc); cbn [snd].
    + eapply progresses_trans; [exact Hb|]. eapply progresses_trans; [apply (sent_progress (CalledViewChange v qc))|].
      destruct (EnableAIMD _); [apply decrease_progress|apply progresses_refl].
    + apply progresses_same; cbn; try done;
        unfold begin_advance; destruct qc as [q|]; cbn; try (destruct (newer q (highestQC pm))); cbn; try done; by left.
  - cbn [snd]. eapply progresses_trans; [exact Hb|].
    destruct (EnableAIMD _); [apply decrease_progress|apply progresses_refl].
Qed.

Lemma collect_progress now v pm : progresses pm (collect_new_view now v pm).2.
Proof.
  unfold collect_new_view. destruct (range_vcs _); [apply progresses_refl|].
  destruct (Sign _ _); [|same]. destruct publisher; cbn [snd]; same.
Qed.

Lemma collect_view now v pm : pm_currentView (collect_new_view now v pm).2 = pm_currentView pm.
Proof.
  unfold collect_new_view. destruct (range_vcs _); [done|]. destruct (Sign _ _); [|done]. by destruct publisher.
Qed.

Lemma sendNewView_progress now v pm : pm_currentView pm <= v -> progresses pm (sendNewView now v pm).2.
Proof.
  intros Hv. pose proof (collect_progress now v pm) as H1. pose proof (collect_view now v pm) as H2.
  unfold sendNewView, mbind, ST_bind. destruct (collect_new_view now v pm) as [[qc|e] pm1]; cbn [snd] in *; [|done].
  eapply progresses_trans; [exact H1|]. apply advance_progress. lia.
Qed.

Lemma broadcast_progress now o n force pm : progresses pm (broadcastCatchupViewChange now o n force pm).
Proof.
  unfold broadcastCatchupViewChange. destruct (Z.leb_spec maxCatchupRetries
    (attempts (default (MkRetry 0 zero_time zero_time) (retryState pm !! n)))) as [|Hlt]; [same|].
  set (pm1 := set_viewChanges _ pm). destruct (match received n pm1 !! LocalID with Some _ => _ | None => _ end); [same|].
  destruct (buildViewChangeMsg _ _ _ _) as [vc|]; [|same].
  assert (Hstore : progresses pm (set_lastBroadcast (<[n := now]> (lastCatchupBroadcast pm))
    (set_retryState (<[n := MkRetry (attempts (default (MkRetry 0 zero_time zero_time) (retryState pm !! n)) + 1)
       (if attempts (default (MkRetry 0 zero_time zero_time) (retryState pm !! n)) =? 0 then now
        else firstTry (default (MkRetry 0 zero_time zero_time) (retryState pm !! n))) now]> (retryState pm))
      (store_view_change n LocalID vc pm1)))).
  { intros Hb. revert Hb. apply (fun H => H). intros Hb. apply progresses_same; cbn; try done.
    intros v s [[<- <-]|[_ Hs]]%lookup_insert_Some; [right|by left]. cbn.
    destruct (retryState pm !! n) as [s|] eqn:Hs; cbn in *; [|unfold maxCatchupRetries in Hlt; lia].
    pose proof (bounded_retries pm Hb n s Hs). unfold maxCatchupRetries in *. lia. }
  destruct publisher as [p|]; [|exact Hstore]. destruct (PublishViewChange p vc).
  - eapply progresses_trans; [exact Hstore|]. same. intros v s [_ Hs]%lookup_delete_Some. by left.
  - eapply progresses_trans; [exact Hstore|]. same.
Qed.

(** What a handler leaves to do does not lead back. *)
Definition next_ahead (next : pm_next) (pm : Pacemaker) : Prop :=
  match next with
  | Lead v | Advance v _ => pm_currentView pm <= v
  | AdvanceOnQC q => pm_currentView pm <= u64 (q_View (iqc q) + 1)
  | Return _ | CatchUp _ _ => True
  end.

Lemma OnViewChange_locked_progress now r all vc pm :
  let '(next, pm') := OnViewChange_locked now r all vc pm in progresses pm pm' /\ next_ahead next pm'.
Proof.
  unfold OnViewChange_locked. destruct (Z.leb_spec (pvc_NewView vc) (pm_currentView pm)).
  - destruct (_ <? _); [|split; [apply progresses_refl|done]]. destruct (0 <? _); (split; [same|done]).
  - set (pm1 := store_view_change _ _ _ pm). assert (H1 : progresses pm pm1) by same.
    destruct (negb _); [done|]. destruct (IsLeader_ _ _ _ _) as [[]|e]; (split; [done|cbn; lia || done]).
Qed.

Lemma OnNewView_locked_progress r all nv pm :
  let '(next, pm') := OnNewView_locked r all nv pm in progresses pm pm' /\ next_ahead next pm'.
Proof.
  unfold OnNewView_locked. destruct (Z.ltb_spec (pnv_View nv) (pm_currentView pm)); [split; [apply progresses_refl|done]|].
  destruct (Z.eqb_spec (pnv_View nv) (pm_currentView pm)); [split; [apply progresses_refl|done]|].
  destruct (IsLeader_ _ _ _ _) as [[]|e]; [|split; [apply progresses_refl|done]..].
  destruct (_ && _); (split; [apply progresses_refl|cbn; lia || done]).
Qed.

Lemma OnQC_locked_progress qc pm :
  let '(next, pm') := OnQC_locked qc pm in progresses pm pm' /\ next_ahead next pm'.
Proof.
  unfold OnQC_locked. set (pm1 := set_position _ _ _ pm). change (pm_currentView pm1) with (pm_currentView pm).
  split; [|destruct (Z.leb_spec (u64 (q_View (iqc qc) + 1)) (pm_currentView pm)); cbn; lia || done].
  intros [B1 B2 B3]. split; [done|]. constructor; cbn; [lia| |done]. unfold newer.
  destruct (highestQC pm) as [b|]; [|by left]. right.
  destruct (Z.ltb_spec (q_View (iqc b)) (q_View (iqc qc))); cbn; split; try done; lia.
Qed.

Lemma continue_progress now next pm : next_ahead next pm -> progresses pm (continue now next pm).2.
Proof.
  destruct next as [r|v|v qc|qc|o n]; cbn [next_ahead continue snd]; intros H.
  - apply progresses_refl.
  - by apply sendNewView_progress.
  - by apply advance_progress.
  - pose proof (advance_progress now (u64 (q_View (iqc qc) + 1)) (Some qc) pm H) as H2.
    destruct (advanceView _ _ _ pm) as [[[]|e] pm2]; cbn [snd] in *; [|exact H2].
    eapply progresses_trans; [exact H2|]. apply broadcast_progress.
  - apply broadcast_progress.
Qed.

Lemma SetCurrentView_progress now view pm : progresses pm (SetCurrentView now view pm).
Proof.
  unfold SetCurrentView. destruct (Z.leb_spec view (pm_currentView pm)); [apply progresses_refl|].
  intros [B1 B2 B3]. split; [done|]. constructor; cbn; [lia| |done].
  destruct (highestQC pm); [right; split; [done|lia]|by left].
Qed.

Lemma SetHighestQC_progress qc pm : progresses pm (SetHighestQC qc pm).
Proof.
  unfold SetHighestQC. destruct (newer qc (highestQC pm)) eqn:Hn; [|apply progresses_refl].
  intros [B1 B2 B3]. split; [done|]. constructor; cbn; [lia| |done]. unfold newer in Hn.
  destruct (highestQC pm) as [b|]; [|by left]. right. split; [done|]. go_bool. cbn. lia.
Qed.

(** The locked section of a handler and what follows it. *)
Lemma handler_progress (locked : Pacemaker -> pm_next * Pacemaker) now pm :
  (let '(next, pm') := locked pm in progresses pm pm' /\ next_ahead next pm') ->
  progresses pm (let '(next, pm') := locked pm in continue now next pm').2.
Proof.
  destruct (locked pm) as [next pm1]. intros [H1 H2]. eapply progresses_trans; [exact H1|]. by apply continue_progress.
Qed.

Lemma run_pm_progress c pm : progresses pm (run_pm c pm).
Proof.
  destruct c as [ | |now|now|now r all vc|now r all nv|now qc|now view|height|qc| ]; cbn [run_pm].
  - same.
  - same.
  - apply handleTimeout_progress.
  - apply TriggerViewChange_progress.
  - apply (handler_progress (OnViewChange_locked now r all vc)), OnViewChange_locked_progress.
  - apply (handler_progress (OnNewView_locked r all nv)), OnNewView_locked_progress.
  - apply (handler_progress (OnQC_locked qc)), OnQC_locked_progress.
  - apply SetCurrentView_progress.
  - unfold SetCurrentHeight. destruct (_ <? _); [same|apply progresses_refl].
  - apply SetHighestQC_progress.
  - same.
Qed.

Lemma run_pms_progress cs pm : progresses pm (run_pms cs pm).
Proof.
  revert pm. induction cs as [|c cs IH]; intros pm; [apply progresses_refl|].
  cbn. eapply progresses_trans; [apply run_pm_progress|apply IH].
Qed.
End runs.
