(* ===== verification/PacemakerRuns.v ===== *)
(** What the pacemaker guarantees over sequential runs: views and certificates that
    do not go back, and a reason for every change of view. *)
From S2P Require Import Prelude Bytes Sha256 GoTime GoFloat Messages Interfaces Encoder Validation Quorum.
From S2P Require Import Validators Rotation Pacemaker PacemakerInv.

Section runs.
Context {Env : PacemakerEnv}.

(** ** Where the view moves *)

Lemma end_advance_view s v qc pm : pm_currentView pm = v ->
  pm_currentView (end_advance s v qc pm).2 = v \/ pm_currentView (end_advance s v qc pm).2 = sn_view s.
Proof.
  intros H. unfold end_advance. destruct callbacks as [cb|]; cbn [snd].
  - destruct (cb_OnViewChange cb v qc); cbn [snd]; [left|by right]. by destruct (EnableAIMD _).
  - left. by destruct (EnableAIMD _).
Qed.

Lemma begin_advance_view now v qc pm : pm_currentView (begin_advance now v qc pm) = v.
Proof. unfold begin_advance. destruct qc as [q|]; [destruct (newer q (highestQC pm))|]; done. Qed.

Lemma advanceView_view now v qc pm :
  pm_currentView (advanceView now v qc pm).2 = v \/ pm_currentView (advanceView now v qc pm).2 = pm_currentView pm.
Proof. apply end_advance_view, begin_advance_view. Qed.

Lemma sendNewView_view now v pm :
  pm_currentView (sendNewView now v pm).2 = v \/ pm_currentView (sendNewView now v pm).2 = pm_currentView pm.
Proof.
  pose proof (collect_view now v pm) as H. unfold sendNewView, mbind, ST_bind.
  destruct (collect_new_view now v pm) as [[qc|e] pm1]; cbn [snd] in *; [|by right].
  rewrite <- H. apply advanceView_view.
Qed.

Lemma TriggerViewChange_view now pm : pm_currentView (TriggerViewChange now pm).2 = pm_currentView pm.
Proof.
  unfold TriggerViewChange. destruct (buildViewChangeMsg _ _ _ _) as [vc|]; [|done].
  destruct publisher as [p|]; [|done]. by destruct (PublishViewChange p vc).
Qed.

Lemma broadcast_view now o n force pm : pm_currentView (broadcastCatchupViewChange now o n force pm) = pm_currentView pm.
Proof.
  unfold broadcastCatchupViewChange. destruct (_ <=? _); [done|].
  destruct (match received _ _ !! LocalID with Some _ => _ | None => _ end); [done|].
  destruct (buildViewChangeMsg _ _ _ _) as [vc|]; [|done].
  destruct publisher as [p|]; [|done]. by destruct (PublishViewChange p vc).
Qed.

(** ** Whose view changes are stored *)

(** The view changes of [b] are those of [a], this node's own and [extra]. *)
Definition stores (extra : Z -> ValidatorID -> Prop) (a b : Pacemaker) : Prop :=
  forall v id, is_Some (received v b !! id) -> is_Some (received v a !! id) \/ id = LocalID \/ extra v id.

Definition nobody : Z -> ValidatorID -> Prop := fun _ _ => False.

Lemma stores_same extra a b : viewChanges b = viewChanges a -> stores extra a b.
Proof. intros H v id. unfold received. rewrite H. by left. Qed.
Lemma stores_trans extra a b c : stores nobody a b -> stores extra b c -> stores extra a c.
Proof. intros H1 H2 v id [H|H]%H2; [|by right]. by destruct (H1 v id H) as [|[|[]]]; [left|right; left]. Qed.
Lemma stores_trans_r extra a b c : stores extra a b -> stores nobody b c -> stores extra a c.
Proof. intros H1 H2 v id [H|[H|[]]]%H2; [by apply H1|by right; left]. Qed.

Lemma received_store view id vc pm v :
  received v (store_view_change view id vc pm) = if decide (v = view) then <[id := vc]> (received v pm) else received v pm.
Proof.
  unfold received, store_view_change. cbn. case_decide as H; [subst; by rewrite lookup_insert_eq|].
  by rewrite lookup_insert_ne.
Qed.

Lemma stores_local view vc pm : stores nobody pm (store_view_change view LocalID vc pm).
Proof.
  intros v id. rewrite received_store. case_decide; [|by left].
  rewrite lookup_insert_is_Some'. by intros [<-|H']; [right; left|left].
Qed.

Lemma received_touch n v pm :
  received v (set_viewChanges (<[n := received n pm]> (viewChanges pm)) pm) = received v pm.
Proof.
  unfold received. cbn. destruct (decide (n = v)) as [->|Hn]; [by rewrite lookup_insert_eq|by rewrite lookup_insert_ne].
Qed.

Lemma TriggerViewChange_stores now pm : stores nobody pm (TriggerViewChange now pm).2.
Proof.
  unfold TriggerViewChange. destruct (buildViewChangeMsg _ _ _ _) as [vc|]; [|by apply stores_same].
  eapply stores_trans; [apply stores_local|]. apply stores_same.
  destruct publisher as [p|]; [|done]. by destruct (PublishViewChange p vc).
Qed.

Lemma broadcast_stores now o n force pm : stores nobody pm (broadcastCatchupViewChange now o n force pm).
Proof.
  unfold broadcastCatchupViewChange. destruct (_ <=? _); [by apply stores_same|].
  set (pm1 := set_viewChanges _ pm).
  assert (H1 : stores nobody pm pm1) by (intros v id; unfold pm1; rewrite received_touch; by left).
  destruct (match received n pm1 !! LocalID with Some _ => _ | None => _ end); [done|].
  destruct (buildViewChangeMsg _ _ _ _) as [vc|]; [|done].
  eapply stores_trans; [exact H1|]. eapply stores_trans; [apply (stores_local n vc)|]. apply stores_same.
  destruct publisher as [p|]; [|done]. by destruct (PublishViewChange p vc).
Qed.

Lemma advanceView_stored now v qc pm : viewChanges (advanceView now v qc pm).2 = viewChanges pm.
Proof.
  unfold advanceView, end_advance, begin_advance.
  destruct qc as [q|]; [destruct (newer q (highestQC pm))|]; (destruct callbacks as [cb|];
    [destruct (cb_OnViewChange cb v _)|]); cbn [snd]; by try destruct (EnableAIMD _).
Qed.

Lemma collect_stored now v pm : viewChanges (collect_new_view now v pm).2 = viewChanges pm.
Proof. unfold collect_new_view. destruct (range_vcs _); [done|]. destruct (Sign _ _); [|done]. by destruct publisher. Qed.

Lemma continue_stores now next pm : stores nobody pm (continue now next pm).2.
Proof.
  destruct next as [r|v|v qc|qc|o n]; cbn [continue snd].
  - by apply stores_same.
  - apply stores_same. rewrite <- (collect_stored now v pm). unfold sendNewView, mbind, ST_bind.
    destruct (collect_new_view now v pm) as [[qc|e] pm1]; cbn [snd]; [apply advanceView_stored|done].
  - apply stores_same, advanceView_stored.
  - pose proof (advanceView_stored now (u64 (q_View (iqc qc) + 1)) (Some qc) pm) as H.
    destruct (advanceView _ _ _ pm) as [[[]|e] pm2]; cbn [snd] in *; [|by apply stores_same].
    eapply stores_trans; [by apply stores_same|apply broadcast_stores].
  - apply broadcast_stores.
Qed.

(** The sender a call's view change names. *)
Definition call_sends (c : pm_call) (v : Z) (id : ValidatorID) : Prop :=
  match c with PViewChange _ _ _ vc => v = pvc_NewView vc /\ id = pvc_SenderID vc | _ => False end.

Lemma OnViewChange_locked_stores now r all vc pm :
  stores (call_sends (PViewChange now r all vc)) pm (OnViewChange_locked now r all vc pm).2.
Proof.
  unfold OnViewChange_locked. destruct (_ <=? _).
  - destruct (_ <? _); [|by apply stores_same]. by destruct (0 <? _); apply stores_same.
  - assert (H : stores (call_sends (PViewChange now r all vc)) pm (store_view_change (pvc_NewView vc) (pvc_SenderID vc) vc pm)).
    { intros v id. rewrite received_store. case_decide; [|by left]. rewrite lookup_insert_is_Some'.
      by intros [<-|H']; [right; right|left]. }
    destruct (negb _); [done|]. by destruct (IsLeader_ _ _ _ _) as [[]|e].
Qed.

Lemma run_pm_stores c pm : stores (call_sends c) pm (run_pm c pm).
Proof.
  destruct c as [ | |now|now|now r all vc|now r all nv|now qc|now view|height|qc| ]; cbn [run_pm];
    try (by apply stores_same).
  - unfold handleTimeout. destruct (_ && _); [by apply stores_same|].
    eapply stores_trans; [|apply TriggerViewChange_stores]. apply stores_same. by destruct (_ && _).
  - apply TriggerViewChange_stores.
  - unfold OnViewChange. pose proof (OnViewChange_locked_stores now r all vc pm) as H.
    destruct (OnViewChange_locked now r all vc pm) as [next pm1]. eapply stores_trans_r; [exact H|apply continue_stores].
  - unfold OnNewView, OnNewView_locked. apply continue_stores.
  - unfold OnQC, OnQC_locked. eapply stores_trans; [|apply continue_stores]. by apply stores_same.
  - unfold SetCurrentView. by destruct (_ <=? _); apply stores_same.
  - unfold SetCurrentHeight. by destruct (_ <? _); apply stores_same.
  - unfold SetHighestQC. by destruct (newer _ _); apply stores_same.
  - intros v id. unfold CleanupOldViewChanges, received. cbn. intros H. left.
    destruct (filter _ _ !! v) as [m|] eqn:Hm; [|cbn in H; rewrite lookup_empty in H; by destruct H].
    apply map_lookup_filter_Some in Hm as [Hm _]. rewrite Hm. exact H.
Qed.

(** Every stored view change is this node's or was received. *)
Lemma run_pms_stores cs pm v id : viewChanges pm = ∅ -> is_Some (received v (run_pms cs pm) !! id) ->
  id = LocalID \/ exists c, c ∈ cs /\ call_sends c v id.
Proof.
  intros Hpm. induction cs as [|c cs IH] using rev_ind.
  { unfold received. cbn. rewrite Hpm, lookup_empty. cbn. rewrite lookup_empty. by intros []. }
  unfold run_pms. rewrite foldl_app. cbn [foldl]. intros [H|[H|H]]%(run_pm_stores c).
  - destruct (IH H) as [|(c' & Hc & Hs)]; [by left|]. right. exists c'. split; [|done]. apply elem_of_app. by left.
  - by left.
  - right. exists c. split; [|done]. apply elem_of_app. right. by left.
Qed.

(** A configuration whose bounds are in order. *)
Definition valid_config (c : PacemakerConfig) : Prop := BaseTimeout c <= MaxTimeout c /\ MinTimeout c <= MaxTimeout c.

Lemma NewPacemaker_bounded config : valid_config (default DefaultPacemakerConfig config) -> bounded_pm (NewPacemaker config).
Proof. intros [H1 H2]. constructor; cbn; [done|done|]. intros v s. by rewrite lookup_empty. Qed.

Lemma run_pms_app cs cs' pm : run_pms (cs ++ cs') pm = run_pms cs' (run_pms cs pm).
Proof. apply foldl_app. Qed.

(** Over any run of calls, each completing before the next, the current view and
    the view of the best certificate never decrease, the timeout stays within its
    maximum and no catch-up message is tried more than five times. *)
Theorem pacemaker_monotone (config : option PacemakerConfig) (cs cs' : list pm_call)
    (Hconfig : valid_config (default DefaultPacemakerConfig config)) :
  let before := run_pms cs (NewPacemaker config) in
  let after := run_pms (cs ++ cs') (NewPacemaker config) in
  pm_currentView before <= pm_currentView after /\
  (forall q, highestQC before = Some q ->
     exists q', highestQC after = Some q' /\ q_View (iqc q) <= q_View (iqc q')) /\
  timeout after <= MaxTimeout (default DefaultPacemakerConfig config) /\
  (forall v s, retryState after !! v = Some s -> 0 <= attempts s <= maxCatchupRetries).
Proof.
  cbv zeta. rewrite run_pms_app. set (before := run_pms cs _).
  destruct (run_pms_progress cs _ (NewPacemaker_bounded config Hconfig)) as [Hb [_ _ Hc]]. fold before in Hb, Hc.
  destruct (run_pms_progress cs' before Hb) as [Ha [H1 H2 H3]].
  split_and!; [done| | |by apply bounded_retries].
  - intros q Hq. destruct H2 as [H2|[[q' Hq'] H2]]; [congruence|]. exists q'. split; [done|].
    rewrite Hq, Hq' in H2. exact H2.
  - pose proof (bounded_timeout _ Ha) as H4. rewrite H3, Hc in H4. exact H4.
Qed.

(** Distinct senders behind a quorum: this node, or the sender of a message among
    [cs]. *)
Definition quorum_among (cs : list pm_call) (all : list ValidatorInfo) (view : Z) : Prop :=
  exists ids, NoDup ids /\ quorum_of all <= len ids /\
    forall id, id ∈ ids -> id = LocalID \/ exists c, c ∈ cs /\ call_sends c view id.

(** The call that moved the view, and why it could. *)
Definition justified (before : list pm_call) (c : pm_call) (view : Z) : Prop :=
  match c with
  | PViewChange _ _ all vc => view = pvc_NewView vc /\ quorum_among (before ++ [c]) all view
  | PNewView _ r all nv =>
      view = pnv_View nv /\ IsLeader_ r all (pnv_LeaderID nv) view = Ok true /\
      quorum_of all <= len (pnv_ViewChanges nv)
  | PQC _ qc => view = u64 (q_View (iqc qc) + 1)
  | PSetView _ v => view = v
  | _ => False
  end.

Lemma quorum_stored all v pm : RequireQuorum (pm_config pm) = true -> hasViewChangeQuorum all v pm = true ->
  quorum_of all <= len (map_to_list (received v pm)).*1.
Proof.
  intros Hr. unfold hasViewChangeQuorum, len. rewrite Hr, length_fmap, length_map_to_list. cbn. intros H. go_bool. lia.
Qed.

Lemma OnViewChange_justified cs now r all vc pm :
  viewChanges pm = ∅ -> RequireQuorum (pm_config (run_pms cs pm)) = true ->
  pm_currentView (OnViewChange now r all vc (run_pms cs pm)).2 <> pm_currentView (run_pms cs pm) ->
  justified cs (PViewChange now r all vc) (pm_currentView (OnViewChange now r all vc (run_pms cs pm)).2).
Proof.
  intros Hempty Hr. set (pm0 := run_pms cs pm) in *. unfold OnViewChange, OnViewChange_locked.
  destruct (Z.leb_spec (pvc_NewView vc) (pm_currentView pm0)).
  { destruct (_ <? _); [|done]. destruct (0 <? _); cbn [continue snd]; [|done]. by rewrite broadcast_view. }
  set (pm1 := store_view_change _ _ _ pm0).
  destruct (hasViewChangeQuorum all (pvc_NewView vc) pm1) eqn:Hq; cbn [negb]; [|done]. intros Hmoved.
  assert (Hview : pm_currentView (let '(next, pm2) := match IsLeader_ r all LocalID (pvc_NewView vc) with
      | Ok true => (Lead (pvc_NewView vc), pm1)
      | Ok false => (Advance (pvc_NewView vc) (selectHighestQCForView (pvc_NewView vc) pm1), pm1)
      | Err e => (Return (Err (PRotation e)), pm1) end in continue now next pm2).2 = pvc_NewView vc).
  { change (pm_currentView pm0) with (pm_currentView pm1) in Hmoved. revert Hmoved.
    destruct (IsLeader_ _ _ _ _) as [[]|e]; cbn [continue snd]; intros Hmoved; [| |done].
    - by destruct (sendNewView_view now (pvc_NewView vc) pm1).
    - by destruct (advanceView_view now (pvc_NewView vc) (selectHighestQCForView (pvc_NewView vc) pm1) pm1). }
  rewrite Hview. split; [done|]. exists (map_to_list (received (pvc_NewView vc) pm1)).*1. split_and!.
  - apply NoDup_fst_map_to_list.
  - by apply quorum_stored.
  - intros id ([id' m] & -> & Hin%elem_of_map_to_list)%list_elem_of_fmap. cbn [fst].
    unfold pm1 in Hin. rewrite received_store, decide_True in Hin by done.
    apply lookup_insert_Some in Hin as [[<- _]|[_ Hin]].
    + right. exists (PViewChange now r all vc). split; [|done]. apply elem_of_app. right. by left.
    + destruct (run_pms_stores cs pm (pvc_NewView vc) id' Hempty) as [|(c & Hc & Hs)]; [by eexists|by left|].
      right. exists c. split; [|done]. apply elem_of_app. by left.
Qed.

(** C10. With quorums required, a call moves the view only for a reason: view changes
    for the new view from a quorum of distinct senders, a new-view naming its
    leader with a quorum of view changes, a certificate of the view before, or the
    node's own request. Timeouts, in particular, never move it. *)
Theorem view_changes_justified (config : option PacemakerConfig) (cs : list pm_call) (c : pm_call)
    (Hconfig : valid_config (default DefaultPacemakerConfig config))
    (Hquorum : RequireQuorum (default DefaultPacemakerConfig config) = true)
    (Hmoved : pm_currentView (run_pms (cs ++ [c]) (NewPacemaker config)) <> pm_currentView (run_pms cs (NewPacemaker config))) :
  justified cs c (pm_currentView (run_pms (cs ++ [c]) (NewPacemaker config))).
Proof.
  destruct (run_pms_progress cs _ (NewPacemaker_bounded config Hconfig)) as [_ [_ _ Hc]].
  rewrite run_pms_app in *. set (pm0 := NewPacemaker config) in *. set (pm := run_pms cs pm0) in *.
  assert (Hr : RequireQuorum (pm_config pm) = true) by (by rewrite Hc).
  cbn [run_pms foldl] in *. change (run_pms [c] pm) with (run_pm c pm) in *.
  destruct c as [ | |now|now|now r all vc|now r all nv|now qc|now view|height|qc| ]; cbn [run_pm] in *; try done.
  - revert Hmoved. unfold handleTimeout. destruct (_ && _); [done|]. cbn [snd]. rewrite TriggerViewChange_view.
    by destruct (_ && _).
  - by rewrite TriggerViewChange_view in Hmoved.
  - by apply (OnViewChange_justified cs now r all vc pm0).
  - revert Hmoved. unfold OnNewView, OnNewView_locked.
    destruct (_ <? _); [done|]. destruct (_ =? _); [done|].
    destruct (IsLeader_ r all (pnv_LeaderID nv) (pnv_View nv)) as [[]|e] eqn:Hl; try done. rewrite Hr. cbn [andb].
    destruct (Z.ltb_spec (len (pnv_ViewChanges nv)) (quorum_of all)); [done|]. cbn [continue].
    destruct (advanceView_view now (pnv_View nv) (pnv_HighestQC nv) pm) as [->| ->]; done.
  - revert Hmoved. unfold OnQC, OnQC_locked. set (pm1 := set_position _ _ _ pm).
    change (pm_currentView pm1) with (pm_currentView pm). destruct (_ <=? _); [done|]. cbn [continue].
    destruct (advanceView_view now (u64 (q_View (iqc qc) + 1)) (Some qc) pm1) as [H|H];
      destruct (advanceView _ _ _ pm1) as [[[]|e] pm2]; cbn [snd] in *; rewrite ?broadcast_view, H; done.
  - revert Hmoved. unfold SetCurrentView. by destruct (_ <=? _).
  - revert Hmoved. unfold SetCurrentHeight. by destruct (_ <? _).
  - revert Hmoved. unfold SetHighestQC. by destruct (newer _ _).
Qed.
End runs.

(** ** Concrete runs *)

(** Validator 1 of four, with nothing listening. *)
#[local] Instance demo_pacemaker : PacemakerEnv := {
  LocalID := be_put 32 1; Sign _ _ := Some [x00]; publisher := None; callbacks := None;
  range_vcs := map_to_list; range_vcs_perm m := reflexivity _ }.

Definition demo_time : Time := time_Unix 1700000000.
Definition demo_vc (sender view : Z) : ViewChangeMsg :=
  MkVC (view - 1) view None (be_put 32 sender) demo_time [].
Definition says (sender view : Z) : pm_call := PViewChange demo_time demo_rotation demo_infos (demo_vc sender view).

Abbreviation demo_calls := [PTimeout demo_time; says 2 1; says 2 1].

Lemma valid_default : valid_config (default DefaultPacemakerConfig None).
Proof. split; vm_compute; discriminate. Qed.

Lemma pacemaker_monotone_witness :
  let before := run_pms demo_calls (NewPacemaker None) in
  let after := run_pms (demo_calls ++ [says 3 1]) (NewPacemaker None) in
  pm_currentView before = 0 /\ pm_currentView after = 1 /\ pm_currentView before <= pm_currentView after.
Proof.
  cbv zeta. split_and!; [vm_compute; reflexivity|vm_compute; reflexivity|].
  exact (proj1 (pacemaker_monotone None demo_calls [says 3 1] valid_default)).
Defined.

Lemma view_changes_justified_witness :
  pm_currentView (run_pms (demo_calls ++ [says 3 1]) (NewPacemaker None)) = 1 /\
  quorum_among (demo_calls ++ [says 3 1]) demo_infos 1.
Proof.
  assert (H : pm_currentView (run_pms (demo_calls ++ [says 3 1]) (NewPacemaker None)) = 1) by (vm_compute; reflexivity).
  split; [exact H|].
  pose proof (view_changes_justified None demo_calls (says 3 1) valid_default eq_refl) as Hj. rewrite H in Hj.
  apply Hj. vm_compute. discriminate.
Defined.

(** The height can go back: a new-view that carries a newer certificate of a lower
    block resets it. *)
Example height_goes_back :
  let qc := MessagesQC (MkQC 3 2 0 [] [] demo_time []) in
  let pm := SetCurrentHeight 9 (NewPacemaker None) in
  pm_currentHeight (advanceView demo_time 4 (Some qc) pm).2 = 3.
Proof. vm_compute. reflexivity. Qed.
