(* ===== verification/Wire.v ===== *)
(** The pacemaker's and the heartbeat manager's messages on the wire
    (backend/pkg/consensus/api/pacemaker_publisher_adapter.go and
    heartbeat_publisher_adapter.go) and back (OnMessageReceived in
    backend/pkg/consensus/api/engine.go). *)
From S2P Require Import Prelude Bytes Sha256 GoTime GoFloat Messages Interfaces Encoder Validation Quorum.
From S2P Require Import Validators Rotation Pacemaker.

Record HeartbeatMsg := MkHB {
  phb_View : Z; phb_Height : Z; phb_LeaderID : ValidatorID; phb_Timestamp : Time; phb_Signature : bytes }.

(** ** Publishing *)

Definition wire_signature (sg : bytes) (id : ValidatorID) (at_ : Time) : Signature := MkSig sg id at_.

Definition wire_view_change (vc : ViewChangeMsg) : ViewChange :=
  MkViewChange (pvc_OldView vc) (pvc_NewView vc) 0 None (pvc_SenderID vc) (pvc_Timestamp vc)
    (wire_signature (pvc_Signature vc) (pvc_SenderID vc) (pvc_Timestamp vc)).

Definition wire_new_view (nv : NewViewMsg) : NewView :=
  MkNewView (pnv_View nv) 0 (wire_view_change <$> pnv_ViewChanges nv) None (pnv_LeaderID nv) (pnv_Timestamp nv)
    (wire_signature (pnv_Signature nv) (pnv_LeaderID nv) (pnv_Timestamp nv)).

Definition wire_heartbeat (hb : HeartbeatMsg) : Heartbeat :=
  MkHeartbeat (phb_View hb) (phb_Height hb) (phb_LeaderID hb) (phb_Timestamp hb)
    (wire_signature (phb_Signature hb) (phb_LeaderID hb) (phb_Timestamp hb)).

(** ** Receiving *)

Definition received_view_change (vc : ViewChange) : ViewChangeMsg :=
  MkVC (vc_OldView vc) (vc_NewView vc) (MessagesQC <$> vc_HighestQC vc) (SenderID vc) (vc_Timestamp vc)
    (sig_Bytes (vc_Signature vc)).

Definition received_new_view (nv : NewView) : NewViewMsg :=
  MkNV (nv_View nv) (received_view_change <$> ViewChanges nv) (MessagesQC <$> nv_HighestQC nv) (nv_LeaderID nv)
    (nv_Timestamp nv) (sig_Bytes (nv_Signature nv)).

Definition received_heartbeat (hb : Heartbeat) : HeartbeatMsg :=
  MkHB (hb_View hb) (hb_Height hb) (hb_LeaderID hb) (hb_Timestamp hb) (sig_Bytes (hb_Signature hb)).

(** ** What is signed *)

(** [HeartbeatManager.heartbeatSignBytes]. *)
Definition heartbeatSignBytes (hb : HeartbeatMsg) : bytes :=
  str "CONSENSUS_HEARTBEAT_V1" ++ [x00] ++
  be_put 8 (phb_View hb) ++ be_put 8 (phb_Height hb) ++ phb_LeaderID hb ++ be_put 8 (u64 (UnixMilli (phb_Timestamp hb))).

Lemma wire_view_change_sign_bytes vc : ViewChange_SignBytes (wire_view_change vc) = viewChangeSignBytes vc.
Proof. unfold ViewChange_SignBytes, viewChangeSignBytes, wire_view_change, appendUint64, appendInt64. cbn -[be_put u64]. by rewrite app_nil_r. Qed.

Lemma wire_new_view_sign_bytes nv :
  newViewSignBytes nv =
  NewView_SignBytes (wire_new_view nv) ++ match pnv_HighestQC nv with Some q => IQC_Hash q | None => [] end.
Proof.
  unfold NewView_SignBytes, newViewSignBytes, wire_new_view, appendUint64, appendInt64.
  cbn [nv_View nv_Height ViewChanges nv_HighestQC nv_LeaderID nv_Timestamp opt_qc_hash].
  assert (Hh : ViewChange_Hash <$> (wire_view_change <$> pnv_ViewChanges nv) = hashViewChange <$> pnv_ViewChanges nv).
  { rewrite <- list_fmap_compose. apply list_fmap_ext. intros i vc _. unfold compose, ViewChange_Hash.
    by rewrite wire_view_change_sign_bytes. }
  rewrite Hh, app_nil_r, <- !app_assoc. reflexivity.
Qed.

(** What the pacemaker and the heartbeat manager sign is what the receiver verifies,
    except for a new-view that carries a certificate: its hash is signed but the
    certificate is not sent, so that the receiver checks the signature against other
    bytes. On arrival a message is the one sent, without its certificates. *)
Theorem wire_sign_bytes (vc : ViewChangeMsg) (nv : NewViewMsg) (hb : HeartbeatMsg) :
  getSignBytes (MViewChange (wire_view_change vc)) = viewChangeSignBytes vc /\
  getSignBytes (MHeartbeat (wire_heartbeat hb)) = heartbeatSignBytes hb /\
  received_heartbeat (wire_heartbeat hb) = hb /\
  received_view_change (wire_view_change vc) =
    MkVC (pvc_OldView vc) (pvc_NewView vc) None (pvc_SenderID vc) (pvc_Timestamp vc) (pvc_Signature vc) /\
  match pnv_HighestQC nv with
  | None => getSignBytes (MNewView (wire_new_view nv)) = newViewSignBytes nv
  | Some q => IQC_Hash q <> [] -> getSignBytes (MNewView (wire_new_view nv)) <> newViewSignBytes nv
  end.
Proof.
  split_and!; [apply wire_view_change_sign_bytes|done|by destruct hb|done|].
  rewrite wire_new_view_sign_bytes. destruct (pnv_HighestQC nv) as [q|]; cbn [getSignBytes]; [|by rewrite app_nil_r].
  intros Hq Heq. apply Hq. by apply (app_inv_head (NewView_SignBytes (wire_new_view nv))); rewrite app_nil_r.
Qed.
