(* ===== verification/Heartbeat.v ===== *)
(** The heartbeat manager (backend/pkg/consensus/leader/heartbeat.go): the leader's
    heartbeats and the detection of leaders that make no progress, which triggers a
    view change of the pacemaker it watches. *)
From S2P Require Import Prelude Bytes GoTime GoFloat Messages Interfaces Encoder Validation Quorum Validators.
From S2P Require Import Rotation Pacemaker Wire.

Record HeartbeatConfig := MkHeartbeatConfig {
  SendInterval : Z; MaxIdleTime : Z; MissedBeforeFail : Z; EnableSending : bool; EnableChecking : bool;
  hb_JitterPercent : float64 }.

Definition DefaultHeartbeatConfig : HeartbeatConfig :=
  MkHeartbeatConfig (500 * Millisecond) (3 * Second) 6 true true (f_div (f_of_Z 5) (f_of_Z 100)).

(** What the manager hands to its publisher and its callbacks, latest first. *)
Inductive hb_event :=
| SentHeartbeat (hb : HeartbeatMsg)
| CalledTimeout (view : Z) (lastSeen : Time)
| CalledAlive (view : Z) (leader : ValidatorID).

(** The tickers are not part of the state: a tick is a call. *)
Record HeartbeatManager := MkHeartbeatManager {
  hm_config : HeartbeatConfig; listenerStarted : bool; lastHeartbeat : Time; lastProposal : Time;
  hm_events : list hb_event }.

Inductive hb_error := HbRotation (e : rotation_error) | HbSign | HbWrongView | HbNonLeader | HbCallback | HbPacemaker (e : pm_error).

(** The publisher, and the answer of the timeout callback ([None] for no callbacks);
    that of the alive callback is only logged. *)
Class HeartbeatEnv := {
  hb_publisher : bool;
  hb_OnTimeout : option (Z -> Time -> bool) }.

Definition set_liveness (heartbeat proposal : Time) (ev : list hb_event) (hm : HeartbeatManager) : HeartbeatManager :=
  MkHeartbeatManager (hm_config hm) (listenerStarted hm) heartbeat proposal ev.
Definition set_started b (hm : HeartbeatManager) : HeartbeatManager :=
  MkHeartbeatManager (hm_config hm) b (lastHeartbeat hm) (lastProposal hm) (hm_events hm).
Definition hb_emit e (hm : HeartbeatManager) : HeartbeatManager :=
  set_liveness (lastHeartbeat hm) (lastProposal hm) (e :: hm_events hm) hm.

Definition NewHeartbeatManager (now : Time) (config : option HeartbeatConfig) : HeartbeatManager :=
  MkHeartbeatManager (default DefaultHeartbeatConfig config) false now zero_time [].

(** [listen] is the controller's [ShouldStartListener]. *)
Definition HM_Start (listen : bool) (hm : HeartbeatManager) : HeartbeatManager :=
  if negb listen then hm else if listenerStarted hm then hm else set_started true hm.
Definition HM_Stop (hm : HeartbeatManager) : HeartbeatManager := set_started false hm.

Definition HM_OnProposal (now : Time) (hm : HeartbeatManager) : HeartbeatManager :=
  set_liveness now now (hm_events hm) hm.
Definition ResetLiveness (now : Time) (hm : HeartbeatManager) : HeartbeatManager :=
  set_liveness now zero_time (hm_events hm) hm.
Definition HM_UpdateConfig (config : HeartbeatConfig) (hm : HeartbeatManager) : HeartbeatManager :=
  MkHeartbeatManager config (listenerStarted hm) (lastHeartbeat hm) (lastProposal hm) (hm_events hm).

Definition isLeaderLive (now : Time) (hm : HeartbeatManager) : bool :=
  (Sub now (lastHeartbeat hm) <? i64 (SendInterval (hm_config hm) * 2)) &&
  (Sub now (lastProposal hm) <? MaxIdleTime (hm_config hm)).

Record LivenessStats := MkLiveness {
  ls_LastHeartbeat : Time; ls_LastProposal : Time; TimeSinceHeartbeat : Z; TimeSinceProposal : Z; IsLive : bool;
  ls_MaxIdleTime : Z }.
Definition GetLivenessStats (now : Time) (hm : HeartbeatManager) : LivenessStats :=
  MkLiveness (lastHeartbeat hm) (lastProposal hm) (Sub now (lastHeartbeat hm)) (Sub now (lastProposal hm))
    (isLeaderLive now hm) (MaxIdleTime (hm_config hm)).

Section heartbeat.
Context {Env : PacemakerEnv} {HEnv : HeartbeatEnv}.

(** The manager and the pacemaker it watches. *)
Definition HB (A : Type) : Type := ST (HeartbeatManager * Pacemaker) hb_error A.

Definition on_manager (f : HeartbeatManager -> HeartbeatManager) : HB unit := modify (fun s => (f s.1, s.2)).
Definition on_pacemaker (m : PM unit) : HB unit := fun s =>
  match m s.2 with
  | (Ok a, pm) => (Ok a, (s.1, pm))
  | (Err e, pm) => (Err (HbPacemaker e), (s.1, pm))
  end.
Definition rotation {A} (r : result rotation_error A) : HB A :=
  lift (match r with Ok a => Ok a | Err e => Err (HbRotation e) end).

Definition timed_out (now lastSeen : Time) : HB unit :=
  view ← gets (fun s => pm_currentView s.2);
  match hb_OnTimeout with
  | Some f => on_manager (hb_emit (CalledTimeout view lastSeen)) ;; fail_if (negb (f view lastSeen)) HbCallback
  | None => mret tt
  end ;;
  on_pacemaker (TriggerViewChange now).

(** [r] and [all] are what the rotation reads at the call. *)
Definition checkProposalIdleness (now : Time) (r : Rotation) (all : list ValidatorInfo) : HB unit := fun s =>
  let '(hm, pm) := s in
  if IsZero (lastProposal hm) then (Ok tt, s)
  else
    let timeSinceProposal := Sub now (lastProposal hm) in
    let timeSinceHeartbeat := Sub now (lastHeartbeat hm) in
    let isLeader := match IsLeader_ r all LocalID (pm_currentView pm) with Ok b => b | Err _ => false end in
    if negb isLeader && (MaxIdleTime (hm_config hm) <? timeSinceHeartbeat) then timed_out now (lastHeartbeat hm) s
    else if MaxIdleTime (hm_config hm) <? timeSinceProposal then timed_out now (lastProposal hm) s
    else (Ok tt, s).

Definition checkLiveness (now : Time) (r : Rotation) (all : list ValidatorInfo) : HB unit := fun s =>
  match IsLeader_ r all LocalID (pm_currentView s.2) with
  | Ok true => checkProposalIdleness now r all s
  | _ => checkProposalIdleness now r all s
  end.

(** [all'] is what the validator set holds after the alive callback. *)
Definition OnHeartbeat (now : Time) (r : Rotation) (all all' : list ValidatorInfo) (hb : HeartbeatMsg) : HB unit :=
  currentView ← gets (fun s => pm_currentView s.2);
  fail_if (negb (phb_View hb =? currentView)) HbWrongView ;;
  isLeader ← rotation (IsLeader_ r all (phb_LeaderID hb) (phb_View hb));
  fail_if (negb isLeader) HbNonLeader ;;
  on_manager (fun hm => set_liveness now (lastProposal hm) (hm_events hm) hm) ;;
  match hb_OnTimeout with
  | Some _ => on_manager (hb_emit (CalledAlive (phb_View hb) (phb_LeaderID hb)))
  | None => mret tt
  end ;;
  checkProposalIdleness now r all'.

(** [now] stamps the message, [now'] the manager's own liveness. *)
Definition sendHeartbeat (now now' : Time) (r : Rotation) (all : list ValidatorInfo) : HB unit :=
  view ← gets (fun s => pm_currentView s.2);
  height ← gets (fun s => pm_currentHeight s.2);
  isLeader ← rotation (IsLeader_ r all LocalID view);
  if negb (isLeader : bool) then mret tt
  else
    let hb sg := MkHB view height LocalID now sg in
    match Sign now (heartbeatSignBytes (hb [])) with
    | None => throw HbSign
    | Some signature =>
        (if hb_publisher then on_manager (hb_emit (SentHeartbeat (hb signature))) else mret tt) ;;
        on_manager (fun hm => set_liveness now' (lastProposal hm) (hm_events hm) hm)
    end.

(** A tick of the sender, which asks its controller first. *)
Definition runSender_tick (enabled : bool) (now now' : Time) (r : Rotation) (all : list ValidatorInfo) : HB unit :=
  if enabled then sendHeartbeat now now' r all else mret tt.
End heartbeat.

(** ** Runs *)

Inductive hb_call :=
| HbStart (listen : bool)
| HbStop
| HbHeartbeat (now : Time) (r : Rotation) (all all' : list ValidatorInfo) (hb : HeartbeatMsg)
| HbCheck (now : Time) (r : Rotation) (all : list ValidatorInfo)
| HbTick (enabled : bool) (now now' : Time) (r : Rotation) (all : list ValidatorInfo)
| HbProposal (now : Time)
| HbReset (now : Time).

Definition observes_proposal (c : hb_call) : bool := match c with HbProposal _ => true | _ => false end.
Definition resets (c : hb_call) : bool := match c with HbReset _ => true | _ => false end.

Section runs.
Context {Env : PacemakerEnv} {HEnv : HeartbeatEnv}.

Definition run_hb (c : hb_call) (s : HeartbeatManager * Pacemaker) : HeartbeatManager * Pacemaker :=
  match c with
  | HbStart listen => (HM_Start listen s.1, s.2)
  | HbStop => (HM_Stop s.1, s.2)
  | HbHeartbeat now r all all' hb => (OnHeartbeat now r all all' hb s).2
  | HbCheck now r all => (checkLiveness now r all s).2
  | HbTick enabled now now' r all => (runSender_tick enabled now now' r all s).2
  | HbProposal now => (HM_OnProposal now s.1, s.2)
  | HbReset now => (ResetLiveness now s.1, s.2)
  end.
Definition run_hbs (cs : list hb_call) (s : HeartbeatManager * Pacemaker) : HeartbeatManager * Pacemaker :=
  foldl (fun s c => run_hb c s) s cs.

Lemma checkLiveness_eq now r all s : checkLiveness now r all s = checkProposalIdleness now r all s.
Proof. unfold checkLiveness. by destruct (IsLeader_ _ _ _ _) as [[]|]. Qed.

(** ** What a call keeps *)

(** The last proposal and the configuration. *)
Definition same_watch (a b : HeartbeatManager) : Prop := lastProposal b = lastProposal a /\ hm_config b = hm_config a.

Lemma timed_out_watch now last s : same_watch s.1 (timed_out now last s).2.1.
Proof.
  unfold timed_out, mbind, ST_bind, gets, on_pacemaker, on_manager, modify, fail_if, mret, ST_ret.
  destruct hb_OnTimeout as [f|]; cbn.
  - destruct (f _ _); cbn; [|done]. by destruct (TriggerViewChange now s.2) as [[]].
  - by destruct (TriggerViewChange now s.2) as [[]].
Qed.

Lemma idleness_watch now r all s : same_watch s.1 (checkProposalIdleness now r all s).2.1.
Proof.
  destruct s as [hm pm]. unfold checkProposalIdleness. destruct (IsZero _); [done|].
  destruct (_ && _); [apply (timed_out_watch now (lastHeartbeat hm) (hm, pm))|].
  destruct (_ <? _); [apply (timed_out_watch now (lastProposal hm) (hm, pm))|done].
Qed.

(** With no proposal seen the check does nothing. *)
Lemma idleness_quiet now r all s : IsZero (lastProposal s.1) = true -> checkProposalIdleness now r all s = (Ok tt, s).
Proof. destruct s as [hm pm]. cbn. intros H. unfold checkProposalIdleness. by rewrite H. Qed.

Ltac heartbeat_steps := unfold mbind, ST_bind, gets, rotation, lift, on_manager, modify, fail_if, mret, ST_ret, throw; cbn [fst snd].

(** A heartbeat up to the idleness check. *)
Lemma OnHeartbeat_cases now r all all' hb s :
  (OnHeartbeat now r all all' hb s).2 = s \/
  exists s', same_watch s.1 s'.1 /\ s'.2 = s.2 /\
             (OnHeartbeat now r all all' hb s) = checkProposalIdleness now r all' s'.
Proof.
  unfold OnHeartbeat. heartbeat_steps. destruct (negb (phb_View hb =? _)); [by left|].
  destruct (IsLeader_ _ _ _ _) as [[]|e]; cbn [negb]; [|by left..]. right.
  destruct hb_OnTimeout; eexists; (split; [|split; [|reflexivity]]); done.
Qed.

Lemma sendHeartbeat_watch now now' r all s :
  same_watch s.1 (sendHeartbeat now now' r all s).2.1 /\ (sendHeartbeat now now' r all s).2.2 = s.2.
Proof.
  unfold sendHeartbeat. heartbeat_steps. destruct (IsLeader_ _ _ _ _) as [[]|e]; cbn [negb snd fst]; [|done..].
  destruct (Sign _ _); [|done]. by destruct hb_publisher.
Qed.

Lemma run_hb_watch c s : observes_proposal c = false -> resets c = false -> same_watch s.1 (run_hb c s).1.
Proof.
  intros Hp Hr. destruct c as [listen| |now r all all' hb|now r all|enabled now now' r all|now|now]; cbn [run_hb fst]; try done.
  - unfold HM_Start. by destruct listen; cbn; [destruct (listenerStarted s.1)|].
  - destruct (OnHeartbeat_cases now r all all' hb s) as [->|(s' & [H1 H2] & _ & ->)]; [done|].
    destruct (idleness_watch now r all' s') as [H3 H4]. split; congruence.
  - rewrite checkLiveness_eq. apply idleness_watch.
  - destruct enabled; [|done]. apply sendHeartbeat_watch.
Qed.

Lemma run_hb_quiet c s : observes_proposal c = false -> IsZero (lastProposal s.1) = true ->
  (run_hb c s).2 = s.2 /\ IsZero (lastProposal (run_hb c s).1) = true.
Proof.
  intros Hp Hz. destruct c as [listen| |now r all all' hb|now r all|enabled now now' r all|now|now]; cbn [run_hb fst snd]; try done.
  - unfold HM_Start. by destruct listen; cbn; [destruct (listenerStarted s.1)|].
  - destruct (OnHeartbeat_cases now r all all' hb s) as [->|(s' & [H1 H2] & H3 & ->)]; [done|].
    rewrite idleness_quiet by (by rewrite H1). cbn. by rewrite H1.
  - rewrite checkLiveness_eq. by rewrite idleness_quiet.
  - destruct enabled; [|done]. destruct (sendHeartbeat_watch now now' r all s) as [[H1 _] H2]. cbn [runSender_tick].
    by rewrite H1.
Qed.

(** ** Properties *)

(** C12. A leader that stops proposing is found out: once a proposal was seen, whatever
    heartbeats, checks and ticks follow without another proposal, a check more than
    the idle time after it has the pacemaker ask for a view change. *)
Theorem stalled_leader_detected (cs : list hb_call) (s : HeartbeatManager * Pacemaker) (proposed now : Time)
    (r : Rotation) (all : list ValidatorInfo)
    (Hquiet : Forall (fun c => observes_proposal c || resets c = false) cs)
    (Hproposed : IsZero proposed = false)
    (Hidle : MaxIdleTime (hm_config s.1) < Sub now proposed)
    (Hcallback : forall f, hb_OnTimeout = Some f -> forall view at_, f view at_ = true) :
  let s' := run_hbs cs (run_hb (HbProposal proposed) s) in
  (run_hb (HbCheck now r all) s').2 = (TriggerViewChange now s'.2).2.
Proof.
  cbv zeta. set (s0 := run_hb (HbProposal proposed) s).
  assert (Hw : same_watch s0.1 (run_hbs cs s0).1).
  { clearbody s0. revert s0. induction Hquiet as [|c cs Hc _ IH]; intros s0; [done|].
    apply orb_false_iff in Hc as [Hc1 Hc2]. destruct (run_hb_watch c s0 Hc1 Hc2) as [H1 H2].
    destruct (IH (run_hb c s0)) as [H3 H4]. cbn [run_hbs foldl] in *. unfold run_hbs in H3, H4. split; congruence. }
  destruct (run_hbs cs s0) as [hm pm]. cbn [fst snd] in *. destruct Hw as [Hp Hc].
  assert (Hto : forall last, (timed_out now last (hm, pm)).2.2 = (TriggerViewChange now pm).2).
  { intros last. unfold timed_out, on_pacemaker. heartbeat_steps. destruct hb_OnTimeout as [f|] eqn:Hf; cbn [fst snd].
    - rewrite (Hcallback f eq_refl). cbn. by destruct (TriggerViewChange now pm) as [[]].
    - by destruct (TriggerViewChange now pm) as [[]]. }
  cbn [run_hb]. rewrite checkLiveness_eq. unfold checkProposalIdleness.
  rewrite Hp, Hc. cbn [s0 run_hb fst HM_OnProposal set_liveness lastProposal hm_config]. rewrite Hproposed.
  destruct (_ && _); [apply Hto|]. apply Z.ltb_lt in Hidle. rewrite Hidle. apply Hto.
Qed.

(** Until a proposal is seen in a view the manager never asks for a view change,
    however long the leader has been silent: a leader that crashed before its first
    proposal is left to the pacemaker's timer. *)
Theorem silent_leader_tolerated (cs : list hb_call) (s : HeartbeatManager * Pacemaker) (now : Time)
    (Hnone : Forall (fun c => observes_proposal c = false) cs) :
  (run_hbs cs (run_hb (HbReset now) s)).2 = s.2.
Proof.
  set (s0 := run_hb (HbReset now) s). change s.2 with s0.2.
  assert (Hz : IsZero (lastProposal s0.1) = true) by done. clearbody s0. revert s0 Hz.
  induction Hnone as [|c cs Hc _ IH]; intros s0 Hz; [done|].
  destruct (run_hb_quiet c s0 Hc Hz) as [H1 H2]. cbn [run_hbs foldl]. rewrite <- H1. by apply IH.
Qed.
End runs.

(** ** Concrete runs *)

#[local] Instance watcher : PacemakerEnv := {
  LocalID := be_put 32 2; Sign _ _ := Some [x00]; publisher := Some (MkPublisher (fun _ => true) (fun _ => true));
  callbacks := None; range_vcs := map_to_list; range_vcs_perm m := reflexivity _ }.
#[local] Instance watcher_hb : HeartbeatEnv := { hb_publisher := true; hb_OnTimeout := Some (fun _ _ => true) }.

Definition at_ms (ms : Z) : Time := Add (time_Unix 1700000000) (ms * Millisecond).

(** Validator 1 leads view 0 and keeps sending heartbeats. *)
Definition beat (ms : Z) : hb_call :=
  HbHeartbeat (at_ms ms) demo_rotation demo_infos demo_infos (MkHB 0 0 (be_put 32 1) (at_ms ms) []).
Abbreviation watched := (NewHeartbeatManager (at_ms 0) None, NewPacemaker None).

Lemma stalled_leader_detected_witness :
  let s' := run_hbs [beat 500; beat 1000; beat 2900] (run_hb (HbProposal (at_ms 100)) watched) in
  pm_events s'.2 = [] /\
  (run_hb (HbCheck (at_ms 3200) demo_rotation demo_infos) s').2 = (TriggerViewChange (at_ms 3200) s'.2).2 /\
  length (pm_events (run_hb (HbCheck (at_ms 3200) demo_rotation demo_infos) s').2) = 1%nat.
Proof.
  cbv zeta. split_and!; [vm_compute; reflexivity| |vm_compute; reflexivity].
  apply (stalled_leader_detected [beat 500; beat 1000; beat 2900] watched (at_ms 100) (at_ms 3200) demo_rotation demo_infos).
  - repeat constructor.
  - vm_compute. reflexivity.
  - vm_compute. reflexivity.
  - by intros f [= <-].
Defined.

Lemma silent_leader_tolerated_witness :
  let calls := [HbCheck (at_ms 3000) demo_rotation demo_infos; HbCheck (at_ms 3600000) demo_rotation demo_infos] in
  isLeaderLive (at_ms 3600000) (run_hbs calls (run_hb (HbReset (at_ms 0)) watched)).1 = false /\
  (run_hbs calls (run_hb (HbReset (at_ms 0)) watched)).2 = NewPacemaker None.
Proof.
  cbv zeta. split; [vm_compute; reflexivity|].
  apply (silent_leader_tolerated
    [HbCheck (at_ms 3000) demo_rotation demo_infos; HbCheck (at_ms 3600000) demo_rotation demo_infos] watched (at_ms 0)).
  repeat constructor.
Defined.
