(* ===== verification/Activation.v ===== *)
(** Activation (backend/pkg/consensus/api/engine.go): which validators are ready,
    when consensus may start, and the handshake before the first proposal. *)
From S2P Require Import Prelude Bytes GoTime GoFloat Messages Interfaces Encoder Validators.

(** [quorumThreshold] and [computeRequiredAcks] of [count] validators; [None] when
    the engine has no validator set. *)
Definition quorumThreshold (count : option Z) : Z :=
  match count with
  | None => 0
  | Some count =>
      if count <=? 0 then 0
      else
        let f := Z.quot (count - 1) 3 in
        let threshold := 2 * f + 1 in
        let threshold := if threshold <? 1 then 1 else threshold in
        if count <? threshold then count else threshold
  end.

Definition computeRequiredAcks (count : option Z) : Z :=
  match count with
  | None => 0
  | Some count =>
      if count <=? 1 then 0
      else
        let f := Z.quot (count - 1) 3 in
        let quorum := 2 * f + 1 in
        if quorum <=? 1 then 0
        else let required := quorum - 1 in if required <? 0 then 0 else required
  end.

(** ** Readiness *)

Record Readiness := MkReadiness {
  readyValidators : gmap ValidatorID Time; localReady : bool; activationSeenGates : bool }.

(** What the peer observer answers to one call. *)
Record PeerReading := MkPeers { ConnectedPeerCount : Z; ActivePeerCount : Z; PeersSeenSinceStartup : Z }.

Record ActivationStatus := MkActivation {
  RequiredReady : Z; ReadyValidators : Z; RequiredPeers : Z; SeenQuorum : bool; HasPeerObserver : bool;
  ConnectedPeers : Z; ActivePeers : Z; PeersSeen : Z; GenesisPhase : bool; HasQuorum : bool }.

Definition no_readiness : Readiness := MkReadiness ∅ false false.

(** [isValidator] is the validator set's; without a set everyone passes. *)
Definition MarkValidatorReady (self : ValidatorID) (isValidator : option (ValidatorID -> bool)) (id : ValidatorID) (now : Time)
  (r : Readiness) : Readiness :=
  if match isValidator with Some f => negb (f id) | None => false end then r
  else match readyValidators r !! id with
       | Some _ => r
       | None => MkReadiness (<[id := now]> (readyValidators r)) (localReady r || bool_decide (id = self)) (activationSeenGates r)
       end.

Definition ReadyValidatorCount (r : Readiness) : Z := Z.of_nat (size (readyValidators r)).
Definition IsValidatorReady (id : ValidatorID) (r : Readiness) : bool :=
  if ReadyValidatorCount r =? 0 then true else bool_decide (is_Some (readyValidators r !! id)).
Definition IsLocalValidatorReady (self : ValidatorID) (r : Readiness) : bool := IsValidatorReady self r.

Definition activationQuorumSatisfied (s : ActivationStatus) : bool :=
  if RequiredReady s <=? 1 then RequiredReady s <=? ReadyValidators s
  else if ReadyValidators s <? RequiredReady s then false
  else if HasPeerObserver s && (0 <? RequiredPeers s) then
    if ConnectedPeers s <? RequiredPeers s then false
    else if negb (SeenQuorum s) then
      if PeersSeen s <? RequiredPeers s then false
      else if ActivePeers s <? RequiredPeers s then false
      else true
    else true
  else true.

Definition GetActivationStatus (count : option Z) (observer : option PeerReading) (consensusActive : bool) (r : Readiness)
  : ActivationStatus * Readiness :=
  let required := quorumThreshold count in
  let peers := if 0 <? required then (let p := required - 1 in if p <? 0 then 0 else p) else 0 in
  let seenQuorum := activationSeenGates r in
  let now_seen := match observer with Some o => peers <=? PeersSeenSinceStartup o | None => false end in
  let r' := MkReadiness (readyValidators r) (localReady r) (seenQuorum || now_seen) in
  let status quorum :=
    MkActivation required (ReadyValidatorCount r) peers (seenQuorum || now_seen)
      (match observer with Some _ => true | None => false end)
      (match observer with Some o => ConnectedPeerCount o | None => 0 end)
      (match observer with Some o => ActivePeerCount o | None => 0 end)
      (match observer with Some o => PeersSeenSinceStartup o | None => 0 end) (negb consensusActive) quorum in
  (status (activationQuorumSatisfied (status false)), r').

Definition HasActivationQuorum (count : option Z) (observer : option PeerReading) (consensusActive : bool) (r : Readiness) : bool :=
  activationQuorumSatisfied (GetActivationStatus count observer consensusActive r).1.

(** ** Waiting for a quorum *)

Record ActivationConfig := MkActivationConfig {
  activationCheckInterval : Z; activationMaxWait : Z; activationForce : bool }.

Inductive wait_error := QuorumNotReached | WaitCanceled.

(** One reading per turn of the loop: the time of the deadline check, the status and
    whether the context is done while waiting for the next tick. *)
Record wait_turn := MkTurn { wt_now : Time; wt_status : ActivationStatus; wt_canceled : bool }.

Fixpoint wait_loop (deadline : option Time) (turns : nat -> wait_turn) (fuel i : nat) : option (result wait_error unit) :=
  match fuel with
  | O => None
  | S fuel =>
      if activationQuorumSatisfied (wt_status (turns i)) then Some (Ok tt)
      else if match deadline with Some d => After (wt_now (turns i)) d | None => false end then Some (Err QuorumNotReached)
      else if wt_canceled (turns i) then Some (Err WaitCanceled)
      else wait_loop deadline turns fuel (S i)
  end.

(** [None] is a loop still waiting after [fuel] turns. *)
Definition waitForActivationQuorum (c : ActivationConfig) (count : option Z) (started : Time) (turns : nat -> wait_turn) (fuel : nat)
  : option (result wait_error unit) :=
  if negb (match count with Some n => 1 <? n | None => false end) then Some (Ok tt)
  else
    let deadline := if activationForce c && (0 <? activationMaxWait c) then Some (Add started (activationMaxWait c)) else None in
    wait_loop deadline turns fuel 0.

(** ** The handshake before the first proposal *)

Record leaderHandshakeState := MkLeaderHandshake {
  ls_active : bool; ls_completed : bool; ls_view : Z; ls_height : Z; requiredAcks : Z; ls_nonce : bytes;
  acks : gset ValidatorID; waiters : nat }.
Definition no_leader_handshake : leaderHandshakeState := MkLeaderHandshake false false 0 0 0 zeroID ∅ 0.

Record followerHandshakeState := MkFollowerHandshake { lastView : Z; lastHeight : Z; lastNonce : bytes }.
Definition no_follower_handshake : followerHandshakeState := MkFollowerHandshake 0 0 zeroID.

(** What [EnsureProposalQuorum] does before it waits: nothing, joins the waiters, or
    announces a proposal under a fresh nonce. *)
Inductive handshake_step := NoHandshake | JoinWaiters | SendIntent (nonce : bytes).

Definition EnsureProposalQuorum (count : option Z) (view height : Z) (nonce : bytes) (l : leaderHandshakeState)
  : handshake_step * leaderHandshakeState :=
  if negb (view =? 0) || negb (height =? 0) then (NoHandshake, l)
  else
    let required := computeRequiredAcks count in
    if required =? 0 then (NoHandshake, l)
    else if ls_completed l && (ls_view l =? view) && (ls_height l =? height) then (NoHandshake, l)
    else if ls_active l && (ls_view l =? view) && (ls_height l =? height) then
      (JoinWaiters, MkLeaderHandshake (ls_active l) (ls_completed l) (ls_view l) (ls_height l) (requiredAcks l) (ls_nonce l)
                      (acks l) (S (waiters l)))
    else
      (SendIntent nonce, MkLeaderHandshake true false view height required nonce ∅ (S (waiters l))).

(** A failed broadcast, a timeout or a cancellation of the one who announced. *)
Definition abandon_handshake (l : leaderHandshakeState) : leaderHandshakeState :=
  MkLeaderHandshake false (ls_completed l) (ls_view l) (ls_height l) (requiredAcks l) (ls_nonce l) ∅ 0.

(** Completion closes the waiters' channels. *)
Definition recordReadyToVote (rtv : ReadyToVote) (l : leaderHandshakeState) : leaderHandshakeState :=
  if negb (ls_active l) || negb (rtv_View rtv =? ls_view l) || negb (rtv_Height rtv =? ls_height l) ||
     negb (bool_decide (rtv_Nonce rtv = ls_nonce l)) then l
  else if bool_decide (rtv_ValidatorID rtv ∈ acks l) then l
  else
    let acks' := {[rtv_ValidatorID rtv]} ∪ acks l in
    if requiredAcks l <=? Z.of_nat (size acks')
    then MkLeaderHandshake false true (ls_view l) (ls_height l) (requiredAcks l) (ls_nonce l) ∅ 0
    else MkLeaderHandshake (ls_active l) (ls_completed l) (ls_view l) (ls_height l) (requiredAcks l) (ls_nonce l) acks' (waiters l).

(** [handleProposalIntent]: whether the follower answers. [isLeader] is the rotation's. *)
Definition handleProposalIntent (self : ValidatorID) (isLeader : bool) (pi : ProposalIntent) (f : followerHandshakeState)
  : bool * followerHandshakeState :=
  if negb (pi_View pi =? 0) || negb (pi_Height pi =? 0) then (false, f)
  else if bool_decide (pi_LeaderID pi = self) then (false, f)
  else if negb isLeader then (false, f)
  else if (lastView f =? pi_View pi) && (lastHeight f =? pi_Height pi) && bool_decide (lastNonce f = pi_Nonce pi) then (false, f)
  else (true, MkFollowerHandshake (pi_View pi) (pi_Height pi) (pi_Nonce pi)).

(** ** Properties *)

Lemma quorumThreshold_spec n : 1 <= n ->
  quorumThreshold (Some n) = 2 * Z.quot (n - 1) 3 + 1 /\ 1 <= quorumThreshold (Some n) <= n.
Proof.
  intros Hn. unfold quorumThreshold. rewrite (Z.quot_div_nonneg (n - 1) 3) by lia.
  pose proof (Z.div_pos (n - 1) 3 ltac:(lia) ltac:(lia)). pose proof (Z.mul_div_le (n - 1) 3 ltac:(lia)).
  destruct (Z.leb_spec n 0); [lia|]. destruct (Z.ltb_spec (2 * ((n - 1) / 3) + 1) 1); [lia|].
  destruct (Z.ltb_spec n (2 * ((n - 1) / 3) + 1)); lia.
Qed.

(** The leader waits for the quorum less itself. *)
Lemma computeRequiredAcks_spec n : 1 <= n -> computeRequiredAcks (Some n) = quorumThreshold (Some n) - 1.
Proof.
  intros Hn. destruct (quorumThreshold_spec n Hn) as [-> ?]. unfold computeRequiredAcks.
  destruct (Z.leb_spec n 1) as [Hn1|Hn1]; [by assert (n = 1) as -> by lia|].
  rewrite (Z.quot_div_nonneg (n - 1) 3) by lia. pose proof (Z.div_pos (n - 1) 3 ltac:(lia) ltac:(lia)) as Hf.
  destruct (Z.leb_spec (2 * ((n - 1) / 3) + 1) 1); [lia|]. destruct (Z.ltb_spec (2 * ((n - 1) / 3) + 1 - 1) 0); lia.
Qed.

Definition mark_all (self : ValidatorID) (isValidator : ValidatorID -> bool) (marks : list (ValidatorID * Time)) (r : Readiness) : Readiness :=
  foldl (fun r m => MarkValidatorReady self (Some isValidator) m.1 m.2 r) r marks.

Lemma mark_all_ready self f marks r id :
  is_Some (readyValidators (mark_all self f marks r) !! id) ->
  is_Some (readyValidators r !! id) \/ (f id = true /\ id ∈ marks.*1).
Proof.
  revert r. induction marks as [|[i t] marks IH]; intros r; cbn; [by left|].
  intros [H|[H1 H2]]%IH; [|right; split; [done|by right]].
  unfold MarkValidatorReady in H. destruct (f i) eqn:Hf; cbn in H; [|by left].
  destruct (readyValidators r !! i) eqn:Hi; [by left|]. cbn in H.
  apply lookup_insert_is_Some' in H as [<-|H]; [right; split; [done|by left]|by left].
Qed.

(** Consensus is activated only when a quorum of distinct validators has been marked
    ready, whatever the peer observer reports. *)
Theorem activation_quorum (self : ValidatorID) (isValidator : ValidatorID -> bool) (marks : list (ValidatorID * Time))
    (n : Z) (observer : option PeerReading) (active : bool)
    (Hn : 1 <= n)
    (Hquorum : HasActivationQuorum (Some n) observer active (mark_all self isValidator marks no_readiness) = true) :
  exists ids, NoDup ids /\ 2 * Z.quot (n - 1) 3 + 1 <= len ids /\
    forall id, id ∈ ids -> isValidator id = true /\ id ∈ marks.*1.
Proof.
  set (r := mark_all _ _ _ _) in *. exists (map_to_list (readyValidators r)).*1. split_and!.
  - apply NoDup_fst_map_to_list.
  - destruct (quorumThreshold_spec n Hn) as [<- _]. unfold len. rewrite length_fmap, length_map_to_list.
    unfold HasActivationQuorum, GetActivationStatus in Hquorum. cbn [fst] in Hquorum.
    unfold activationQuorumSatisfied in Hquorum. cbn [RequiredReady ReadyValidators] in Hquorum.
    unfold ReadyValidatorCount in Hquorum.
    destruct (Z.leb_spec (quorumThreshold (Some n)) 1); [go_bool; lia|].
    destruct (Z.ltb_spec (Z.of_nat (size (readyValidators r))) (quorumThreshold (Some n))); [done|lia].
  - intros id ([id' t] & -> & Hin%elem_of_map_to_list)%list_elem_of_fmap. cbn [fst].
    destruct (mark_all_ready self isValidator marks no_readiness id') as [[x Hx]|H]; [by eexists| |done].
    cbn in Hx. by rewrite lookup_empty in Hx.
Qed.

Lemma wait_loop_ends deadline turns fuel i k : (i <= k < i + fuel)%nat ->
  match deadline with Some d => After (wt_now (turns k)) d = true | None => False end ->
  exists r, wait_loop deadline turns fuel i = Some r /\
    (r = Ok tt -> exists j, activationQuorumSatisfied (wt_status (turns j)) = true) /\
    (r = Err QuorumNotReached -> exists j, activationQuorumSatisfied (wt_status (turns j)) = false).
Proof.
  intros Hk Hd. revert i Hk. induction fuel as [|fuel IH]; intros i Hk; [lia|]. cbn.
  destruct (activationQuorumSatisfied (wt_status (turns i))) eqn:Hs; [exists (Ok tt); split_and!; [done|by exists i|done]|].
  destruct (match deadline with Some d => After (wt_now (turns i)) d | None => false end) eqn:Ha.
  { exists (Err QuorumNotReached). split_and!; [done|done|by exists i]. }
  destruct (wt_canceled (turns i)); [exists (Err WaitCanceled); split_and!; done|].
  apply IH. destruct (decide (i = k)) as [->|]; [|lia]. destruct deadline; [congruence|done].
Qed.

(** With forced activation and a maximum wait, the wait ends by the first turn after
    the deadline, whatever the peers do; but it ends in success only if the quorum
    was there: forcing activation makes the wait fail, not succeed without it. *)
Theorem forced_wait_ends (c : ActivationConfig) (count : Z) (started : Time) (turns : nat -> wait_turn) (k : nat)
    (Hforce : activationForce c = true) (Hwait : 0 < activationMaxWait c) (Hcount : 1 < count)
    (Hpast : After (wt_now (turns k)) (Add started (activationMaxWait c)) = true) :
  exists r, waitForActivationQuorum c (Some count) started turns (S k) = Some r /\
    (r = Ok tt -> exists j, activationQuorumSatisfied (wt_status (turns j)) = true) /\
    (r = Err QuorumNotReached -> exists j, activationQuorumSatisfied (wt_status (turns j)) = false).
Proof.
  unfold waitForActivationQuorum. rewrite (proj2 (Z.ltb_lt 1 count)), Hforce, (proj2 (Z.ltb_lt 0 _)) by done.
  cbn [negb andb]. by apply (wait_loop_ends _ turns (S k) 0 k); [lia|].
Qed.

(** *** Handshakes *)

Inductive hs_step :=
| HsEnsure (nonce : bytes)
| HsAck (rtv : ReadyToVote)
| HsAbandon.

Definition run_handshake (count : option Z) (steps : list hs_step) : leaderHandshakeState :=
  foldl (fun l s => match s with
                    | HsEnsure nonce => (EnsureProposalQuorum count 0 0 nonce l).2
                    | HsAck rtv => recordReadyToVote rtv l
                    | HsAbandon => abandon_handshake l
                    end) no_leader_handshake steps.

(** An answer to an announcement of the first proposal under [nonce], by [id]. *)
Definition acked (steps : list hs_step) (nonce : bytes) (id : ValidatorID) : Prop :=
  exists rtv, HsAck rtv ∈ steps /\ rtv_View rtv = 0 /\ rtv_Height rtv = 0 /\ rtv_Nonce rtv = nonce /\ rtv_ValidatorID rtv = id.

Record handshake_inv (count : option Z) (steps : list hs_step) (l : leaderHandshakeState) : Prop := {
  hi_active : ls_active l = true ->
    ls_view l = 0 /\ ls_height l = 0 /\ requiredAcks l = computeRequiredAcks count /\
    HsEnsure (ls_nonce l) ∈ steps /\ forall id, id ∈ acks l -> acked steps (ls_nonce l) id;
  hi_completed : ls_completed l = true ->
    exists nonce ids, HsEnsure nonce ∈ steps /\ NoDup ids /\ computeRequiredAcks count <= len ids /\
      forall id, id ∈ ids -> acked steps nonce id }.

Lemma acked_app steps s nonce id : acked steps nonce id -> acked (steps ++ [s]) nonce id.
Proof. intros (rtv & H & H'). exists rtv. split; [apply elem_of_app; by left|done]. Qed.

Lemma handshake_inv_app count steps s l : handshake_inv count steps l -> handshake_inv count (steps ++ [s]) l.
Proof.
  intros [H1 H2]. constructor.
  - intros (? & ? & ? & Hin & Hacks)%H1. split_and!; try done; [apply elem_of_app; by left|].
    intros id ?%Hacks. by apply acked_app.
  - intros (nonce & ids & Hin & Hnd & Hlen & Hacks)%H2. exists nonce, ids. split_and!; try done; [apply elem_of_app; by left|].
    intros id ?%Hacks. by apply acked_app.
Qed.

Lemma recordReadyToVote_inv count steps rtv l :
  handshake_inv count (steps ++ [HsAck rtv]) l -> handshake_inv count (steps ++ [HsAck rtv]) (recordReadyToVote rtv l).
Proof.
  intros [H1 H2]. unfold recordReadyToVote. destruct (ls_active l) eqn:Ha; cbn [negb orb]; [|by constructor; rewrite ?Ha].
  destruct (H1 eq_refl) as (Hv & Hh & Hr & Hin & Hacks). rewrite Hv, Hh.
  destruct (Z.eqb_spec (rtv_View rtv) 0) as [Hrv|]; cbn [negb orb]; [|by constructor; rewrite ?Ha].
  destruct (Z.eqb_spec (rtv_Height rtv) 0) as [Hrh|]; cbn [negb orb]; [|by constructor; rewrite ?Ha].
  destruct (bool_decide (rtv_Nonce rtv = ls_nonce l)) eqn:Hn; cbn [negb]; [|by constructor; rewrite ?Ha]. go_bool.
  destruct (bool_decide (rtv_ValidatorID rtv ∈ acks l)); [by constructor; rewrite ?Ha|].
  set (acks' := {[rtv_ValidatorID rtv]} ∪ acks l).
  assert (Hacks' : forall id, id ∈ acks' -> acked (steps ++ [HsAck rtv]) (ls_nonce l) id).
  { intros id [->%elem_of_singleton|H]%elem_of_union; [|by apply Hacks]. exists rtv.
    split_and!; try done. apply elem_of_app. right. by left. }
  destruct (Z.leb_spec (requiredAcks l) (Z.of_nat (size acks'))); constructor; cbn; try done.
  - intros _. exists (ls_nonce l), (elements acks'). split_and!; [done|apply NoDup_elements| |].
    + rewrite <- Hr. exact H.
    + intros id Hid. apply Hacks'. by apply elem_of_elements.
Qed.

Lemma run_handshake_inv count steps : handshake_inv count steps (run_handshake count steps).
Proof.
  induction steps as [|s steps IH] using rev_ind; [by constructor|].
  unfold run_handshake in *. rewrite foldl_app. cbn [foldl]. set (l := foldl _ _ steps) in *. clearbody l.
  apply (handshake_inv_app _ _ s) in IH. destruct s as [nonce|rtv|].
  - destruct IH as [H1 H2]. unfold EnsureProposalQuorum. cbn [Z.eqb negb orb].
    destruct (computeRequiredAcks count =? 0); [by constructor|]. destruct (ls_completed l && _ && _); [by constructor|].
    destruct (ls_active l && _ && _); [by constructor|]. constructor; cbn; [|done].
    intros _. split_and!; try done; apply elem_of_app; right; by left.
  - by apply recordReadyToVote_inv.
  - destruct IH as [H1 H2]. by constructor.
Qed.

(** A completed handshake has answers to one announcement from as many distinct
    senders as a quorum needs besides the leader. Nothing requires them to be
    validators. *)
Theorem handshake_quorum (n : Z) (steps : list hs_step) (Hn : 1 <= n)
    (Hdone : ls_completed (run_handshake (Some n) steps) = true) :
  exists nonce ids, HsEnsure nonce ∈ steps /\ NoDup ids /\ 2 * Z.quot (n - 1) 3 <= len ids /\
    forall id, id ∈ ids -> acked steps nonce id.
Proof.
  destruct (hi_completed _ _ _ (run_handshake_inv (Some n) steps) Hdone) as (nonce & ids & H1 & H2 & H3 & H4).
  exists nonce, ids. split_and!; try done. rewrite computeRequiredAcks_spec in H3 by done.
  destruct (quorumThreshold_spec n Hn) as [He _]. lia.
Qed.

(** ** Concrete runs *)

Definition activation_now : Time := time_Unix 1700000000.
Definition one_of_four (id : ValidatorID) : bool := bool_decide (id ∈ (be_put 32 <$> [1; 2; 3; 4])).
Abbreviation three_marks := [(be_put 32 1, activation_now); (be_put 32 9, activation_now); (be_put 32 2, activation_now); (be_put 32 3, activation_now)].

Lemma activation_quorum_witness :
  HasActivationQuorum (Some 4) None false (mark_all (be_put 32 1) one_of_four three_marks no_readiness) = true /\
  exists ids, NoDup ids /\ 3 <= len ids /\ forall id, id ∈ ids -> one_of_four id = true /\ id ∈ three_marks.*1.
Proof.
  assert (H : HasActivationQuorum (Some 4) None false (mark_all (be_put 32 1) one_of_four three_marks no_readiness) = true)
    by (vm_compute; reflexivity).
  split; [exact H|]. apply (activation_quorum (be_put 32 1) one_of_four three_marks 4 None false); [lia|exact H].
Defined.

(** One ready validator out of four, asked every second. *)
Definition alone : ActivationStatus := (GetActivationStatus (Some 4) None false
  (mark_all (be_put 32 1) one_of_four [(be_put 32 1, activation_now)] no_readiness)).1.
Definition waiting_turns (i : nat) : wait_turn := MkTurn (Add activation_now (Z.of_nat i * Second)) alone false.

Lemma forced_wait_ends_witness :
  let c := MkActivationConfig Second (5 * Second) true in
  waitForActivationQuorum c (Some 4) activation_now waiting_turns 7 = Some (Err QuorumNotReached) /\
  exists r, waitForActivationQuorum c (Some 4) activation_now waiting_turns 7 = Some r.
Proof.
  cbv zeta. split; [vm_compute; reflexivity|].
  destruct (forced_wait_ends (MkActivationConfig Second (5 * Second) true) 4 activation_now waiting_turns 6) as (r & Hr & _).
  - reflexivity.
  - vm_compute. reflexivity.
  - lia.
  - vm_compute. reflexivity.
  - exists r. exact Hr.
Defined.

Definition ack_by (n : Z) : hs_step :=
  HsAck (MkReadyToVote 0 0 (be_put 32 n) (be_put 32 1) (be_put 32 7) activation_now (MkSig [] zeroID zero_time)).

(** Strangers 97 and 98 complete the handshake. *)
Lemma handshake_quorum_witness :
  let steps := [HsEnsure (be_put 32 7); ack_by 97; ack_by 97; ack_by 98] in
  ls_completed (run_handshake (Some 4) steps) = true /\ one_of_four (be_put 32 97) = false /\
  exists nonce ids, HsEnsure nonce ∈ steps /\ NoDup ids /\ 2 <= len ids /\ forall id, id ∈ ids -> acked steps nonce id.
Proof.
  cbv zeta. assert (H : ls_completed (run_handshake (Some 4) [HsEnsure (be_put 32 7); ack_by 97; ack_by 97; ack_by 98]) = true)
    by (vm_compute; reflexivity).
  split_and!; [exact H|vm_compute; reflexivity|].
  apply (handshake_quorum 4 [HsEnsure (be_put 32 7); ack_by 97; ack_by 97; ack_by 98]); [lia|exact H].
Defined.
