(* ===== verification/Engine.v ===== *)
(** The consensus engine (backend/pkg/consensus/api/engine.go): the HotStuff core,
    the pacemaker, the heartbeat manager, the validator set and the activation gates
    of one node, composed as the engine's handlers and callbacks compose them. *)
From S2P Require Import Prelude Bytes Sha256 GoTime GoFloat Messages Interfaces Encoder Validation Quorum.
From S2P Require Import ConsensusStorage HotStuff Validators Rotation Pacemaker Wire Heartbeat Activation.

Inductive engine_error :=
| ENotRunning | EPeer | ENotConsensus | EDecode (e : enc_error) | EHotStuff (e : hs_error) | EPacemaker (e : pm_error)
| EHeartbeat (e : hb_error) | EEvidence (e : val_error) | ERotation (e : rotation_error)
| ELeaderLost | EAlreadyVotedView | EProposingDisabled | EStaleProposalView | EPublish | EAlreadyRunning | ENoNetwork
| EActivation (e : wait_error) | EStillWaiting.

(** What the engine hands to the network, to its registered callbacks and to the
    genesis coordinator, latest first. *)
Inductive engine_out :=
| Published (m : Message)
| Proposed (p : Proposal)
| Committed (b : Block) (q : IQC)
| ToCoordinator (m : Message).

(** The node: its identity (the configured one, which is also its key's), its signer,
    its block validation, the orders in which ranges visit maps, whether a message
    encodes and the network takes it, the environment switch on active signers, and
    the rotation's configuration. *)
Class EngineEnv := {
  NodeID : ValidatorID;
  NodeID_length : length NodeID = 32%nat;
  NodeSign : Time -> bytes -> option bytes;
  block_check : option (option Block -> bool);
  encode_vote : Vote -> bytes;
  vote_order : nat -> gmap ValidatorID Vote -> list (ValidatorID * Vote);
  vote_order_perm i votes : vote_order i votes ≡ₚ map_to_list votes;
  qc_order : gmap BlockHash IQC -> list (BlockHash * IQC);
  qc_order_perm m : qc_order m ≡ₚ map_to_list m;
  vc_order : gmap ValidatorID ViewChangeMsg -> list (ValidatorID * ViewChangeMsg);
  vc_order_perm m : vc_order m ≡ₚ map_to_list m;
  delivers : Message -> bool;
  enforce_active : bool;
  rotation_base : Rotation;
  enable_proposing : bool }.

Section engine.
Context {CS : CryptoService} {C : LRU bytes bool} {B : StorageBackend} {M : Marshallers} {D : Codecs} {EE : EngineEnv}.

(** The validator and the encoder are those of the HotStuff core; their view and
    height are read from the pacemaker before each use. *)
Record Engine := MkEngine {
  running : bool;
  consensusActive : bool;
  senderEnabled : bool;
  hotstuff : HotStuff;
  pacemaker : Pacemaker;
  heartbeat : HeartbeatManager;
  validators : validatorSet;
  readiness_state : Readiness;
  hs_leader : leaderHandshakeState;
  hs_follower : followerHandshakeState;
  lastSubmitView : Z;
  relayedProposalHashes : gset BlockHash;
  coordinator : bool;
  outputs : list engine_out }.

Definition with_hotstuff hs e := MkEngine (running e) (consensusActive e) (senderEnabled e) hs (pacemaker e) (heartbeat e)
  (validators e) (readiness_state e) (hs_leader e) (hs_follower e) (lastSubmitView e) (relayedProposalHashes e) (coordinator e) (outputs e).
Definition with_pacemaker pm e := MkEngine (running e) (consensusActive e) (senderEnabled e) (hotstuff e) pm (heartbeat e)
  (validators e) (readiness_state e) (hs_leader e) (hs_follower e) (lastSubmitView e) (relayedProposalHashes e) (coordinator e) (outputs e).
Definition with_heartbeat hb e := MkEngine (running e) (consensusActive e) (senderEnabled e) (hotstuff e) (pacemaker e) hb
  (validators e) (readiness_state e) (hs_leader e) (hs_follower e) (lastSubmitView e) (relayedProposalHashes e) (coordinator e) (outputs e).
Definition with_validators vs e := MkEngine (running e) (consensusActive e) (senderEnabled e) (hotstuff e) (pacemaker e) (heartbeat e)
  vs (readiness_state e) (hs_leader e) (hs_follower e) (lastSubmitView e) (relayedProposalHashes e) (coordinator e) (outputs e).
Definition with_gates act sender ready leader follower e := MkEngine (running e) act sender (hotstuff e) (pacemaker e) (heartbeat e)
  (validators e) ready leader follower (lastSubmitView e) (relayedProposalHashes e) (coordinator e) (outputs e).
Definition with_running b e := MkEngine b (consensusActive e) (senderEnabled e) (hotstuff e) (pacemaker e) (heartbeat e)
  (validators e) (readiness_state e) (hs_leader e) (hs_follower e) (lastSubmitView e) (relayedProposalHashes e) (coordinator e) (outputs e).
Definition with_submit view relayed e := MkEngine (running e) (consensusActive e) (senderEnabled e) (hotstuff e) (pacemaker e)
  (heartbeat e) (validators e) (readiness_state e) (hs_leader e) (hs_follower e) view relayed (coordinator e) (outputs e).
Definition out o e := MkEngine (running e) (consensusActive e) (senderEnabled e) (hotstuff e) (pacemaker e) (heartbeat e)
  (validators e) (readiness_state e) (hs_leader e) (hs_follower e) (lastSubmitView e) (relayedProposalHashes e) (coordinator e) (o :: outputs e).

Definition with_readiness r e :=
  with_gates (consensusActive e) (senderEnabled e) r (hs_leader e) (hs_follower e) e.
Definition with_handshakes l f e :=
  with_gates (consensusActive e) (senderEnabled e) (readiness_state e) l f e.

Definition EM (A : Type) : Type := ST Engine engine_error A.

(** [publishMessage]; the callbacks that publish ignore its error. *)
Definition publish (m : Message) (e : Engine) : Engine := if delivers m then out (Published m) e else e.
Definition publishMessage (m : Message) : EM unit := fun e => (if delivers m then Ok tt else Err EPublish, publish m e).

Definition markValidatorActive (id : ValidatorID) (when now : Time) (e : Engine) : Engine :=
  if bool_decide (id = zeroID) then e else with_validators (MarkActive id when now (validators e)) e.
Definition markValidatorInactive (id : ValidatorID) (when : Time) (e : Engine) : Engine :=
  if bool_decide (id = zeroID) then e else with_validators (MarkInactive id when (validators e)) e.

(** ** What the components read of the engine *)

(** The rotation, whose readiness oracle is the engine. *)
Definition engine_rotation (e : Engine) : Rotation :=
  SetReadinessOracle (fun id => IsValidatorReady id (readiness_state e)) rotation_base.

(** [validatorSet.GetValidators()]: reading applies inactivity. *)
Definition read_validators (now : Time) (e : Engine) : list ValidatorInfo * Engine :=
  let '(all, vs) := GetValidators now (validators e) in (all, with_validators vs e).

Definition validator_view (now : Time) (e : Engine) : ValidatorSet := validatorSetAdapter (engine_rotation e) (validators e) now.

Definition node_view (now : Time) (e : Engine) : Node := {|
  GetKeyID := NodeID; GetKeyID_length := NodeID_length; SignWithContext := NodeSign;
  IsLeader view := match IsLeader_ (engine_rotation e) (GetValidators now (validators e)).1 NodeID view with
                   | Ok b => b | Err _ => false end;
  BlockValidationFunc := block_check; OnCommit _ _ := true; EncodeVote := encode_vote;
  range_votes := vote_order; range_votes_perm := vote_order_perm;
  range_qcs := qc_order; range_qcs_perm := qc_order_perm |}.

(** The pacemaker's publisher and callbacks: [OnViewChange] fails when the core
    refuses the view. *)
Definition pacemaker_view (hs : HotStuff) : PacemakerEnv := {|
  LocalID := NodeID; Sign := NodeSign;
  publisher := Some (MkPublisher (fun vc => delivers (MViewChange (wire_view_change vc)))
                                 (fun nv => delivers (MNewView (wire_new_view nv))));
  callbacks := Some (MkCallbacks
    (fun view qc => match (AdvanceView view qc hs).1 with Ok _ => true | Err _ => false end)
    (fun _ _ => true));
  range_vcs := vc_order; range_vcs_perm := vc_order_perm |}.

Definition heartbeat_view : HeartbeatEnv := {| hb_publisher := true; hb_OnTimeout := Some (fun _ _ => true) |}.

(** ** Callbacks *)

(** The callback the pacemaker runs when it enters a view. *)
Definition OnViewChange_callback (now : Time) (view : Z) (qc : option IQC) (e : Engine) : Engine :=
  let e := with_heartbeat (ResetLiveness now (heartbeat e)) e in
  with_hotstuff (AdvanceView view qc (hotstuff e)).2 e.

Definition handle_pm_event (now : Time) (e : Engine) (ev : pm_event) : Engine :=
  match ev with
  | SentViewChange vc => publish (MViewChange (wire_view_change vc)) e
  | SentNewView nv => publish (MNewView (wire_new_view nv)) e
  | CalledViewChange view qc => OnViewChange_callback now view qc e
  end.

(** What a call appended to a trace, oldest first. *)
Definition news {A} (before after : list A) : list A := rev (take (length after - length before) after).

(** A call of the pacemaker with the callbacks it made; a call enters at most one
    view, so its callback is answered by the core as it was at the call. *)
Definition run_pacemaker {A} (now : Time) (m : PacemakerEnv -> PM A) : EM A := fun e =>
  let '(r, pm) := m (pacemaker_view (hotstuff e)) (pacemaker e) in
  let e' := foldl (handle_pm_event now) (with_pacemaker pm e) (news (pm_events (pacemaker e)) (pm_events pm)) in
  (match r with Ok a => Ok a | Err err => Err (EPacemaker err) end, e').

(** [OnQCFormed]. *)
Definition OnQCFormed (now : Time) (qc : IQC) (e : Engine) : Engine := (run_pacemaker now (fun _ => OnQC now qc) e).2.

(** [OnProposal], the callback. *)
Definition OnProposal_callback (now : Time) (p : Proposal) (e : Engine) : Engine :=
  let e := out (Proposed p) (with_heartbeat (HM_OnProposal now (heartbeat e)) e) in
  if negb (p_View p =? pm_currentView (pacemaker e)) then e
  else if bool_decide (ProposerID p = NodeID) then publish (MProposal p) e
  else if bool_decide (p_BlockHash p ∈ relayedProposalHashes e) then e
  else publish (MProposal p) (with_submit (lastSubmitView e) ({[p_BlockHash p]} ∪ relayedProposalHashes e) e).

(** [OnCommit], the callback. *)
Definition OnCommit_callback (now : Time) (b : Block) (q : IQC) (e : Engine) : Engine :=
  out (Committed b q) (with_heartbeat (HM_OnProposal now (heartbeat e)) e).

(** A certificate the core formed reaches the pacemaker twice: the core calls it, and then
    the engine's callback does. *)
Definition handle_hs_event (now : Time) (e : Engine) (ev : event) : Engine :=
  match ev with
  | EvPacemakerProposal => e
  | EvProposal p => OnProposal_callback now p e
  | EvVote v => publish (MVote v) e
  | EvQC q => OnQCFormed now q (run_pacemaker now (fun _ => OnQC now q) e).2
  | EvCommit b q => OnCommit_callback now b q e
  end.

(** The validator reads the pacemaker's view and height. *)
Definition sync_validator (e : Engine) : Engine :=
  with_hotstuff (set_validator (set_pacemaker (pm_currentView (pacemaker e)) (pm_currentHeight (pacemaker e))
    (hs_validator (hotstuff e))) (hotstuff e)) e.

(** A call of the core with the callbacks it made. *)
Definition run_hotstuff {A} (now : Time) (m : ValidatorSet -> Node -> ST HotStuff hs_error A) : EM A := fun e =>
  let e := sync_validator e in
  let '(r, hs) := m (validator_view now e) (node_view now e) (hotstuff e) in
  let e' := foldl (handle_hs_event now) (with_hotstuff hs e) (news (hs_events (hotstuff e)) (hs_events hs)) in
  (match r with Ok a => Ok a | Err err => Err (EHotStuff err) end, e').

Definition OnHeartbeatTimeout (now : Time) (view : Z) (e : Engine) : Engine :=
  let '(all, e) := read_validators now e in
  match GetLeaderForView_ (engine_rotation e) all view with
  | Ok leaderID => markValidatorInactive leaderID now e
  | Err _ => e
  end.

Definition handle_hb_event (now : Time) (e : Engine) (ev : hb_event) : Engine :=
  match ev with
  | SentHeartbeat hb => publish (MHeartbeat (wire_heartbeat hb)) e
  | CalledTimeout view _ => OnHeartbeatTimeout now view e
  | CalledAlive _ leader => markValidatorActive leader now now e
  end.

(** A call of the heartbeat manager with the callbacks it made, then those of the
    pacemaker it triggered. *)
Definition run_heartbeat {A} (now : Time) (m : forall (P : PacemakerEnv) (H : HeartbeatEnv), @HB A) : EM A := fun e =>
  let '(r, (hb, pm)) := m (pacemaker_view (hotstuff e)) heartbeat_view (heartbeat e, pacemaker e) in
  let e1 := with_pacemaker pm (with_heartbeat hb e) in
  let e2 := foldl (handle_hb_event now) e1 (news (hm_events (heartbeat e)) (hm_events hb)) in
  let e3 := foldl (handle_pm_event now) e2 (news (pm_events (pacemaker e)) (pm_events pm)) in
  (match r with Ok a => Ok a | Err err => Err (EHeartbeat err) end, e3).

(** ** Activation *)

Definition MarkReady (id : ValidatorID) (now : Time) (e : Engine) : Engine :=
  with_readiness (MarkValidatorReady NodeID (Some (fun id => IsValidator_ id (validators e))) id now (readiness_state e)) e.

Definition validator_count (e : Engine) : option Z := Some (GetValidatorCount_ (validators e)).

Definition syncPacemakerWithHotStuff (now : Time) (e : Engine) : Engine :=
  let hs := hotstuff e in
  let pm := SetCurrentView now (currentView hs) (SetCurrentHeight (currentHeight hs) (pacemaker e)) in
  match lockedQC hs with
  | None => with_pacemaker pm e
  | Some q =>
      let e := with_pacemaker (SetHighestQC q pm) e in
      match q with
      | MessagesQC mqc =>
          let v := hs_validator hs in
          let enc := CacheQCSignatures now (Some mqc) (val_encoder v) in
          let e := with_hotstuff (set_validator (with_encoder enc v) hs) e in
          foldl (fun e sg => markValidatorActive (KeyID sg) now now e) e (Signatures mqc)
      | PbftQC _ => e
      end
  end.

Definition startConsensusComponents (now : Time) (e : Engine) : Engine :=
  let e := syncPacemakerWithHotStuff now e in
  let e := with_pacemaker (Start now (pacemaker e)) e in
  let e := syncPacemakerWithHotStuff now e in
  with_heartbeat (HM_Start true (heartbeat e)) e.

(** [turns] and [fuel] are those of [waitForActivationQuorum]. *)
Definition ActivateConsensus (c : ActivationConfig) (now : Time) (turns : nat -> wait_turn) (fuel : nat) : EM unit := fun e =>
  if consensusActive e then (Ok tt, e)
  else match waitForActivationQuorum c (validator_count e) now turns fuel with
       | None => (Err EStillWaiting, e)
       | Some (Err err) => (Err (EActivation err), e)
       | Some (Ok _) =>
           let e := startConsensusComponents now e in
           (Ok tt, with_gates true true (readiness_state e) (hs_leader e) (hs_follower e) e)
       end.

(** [Start]; the storage and the core restore their state from [restored]. *)
Definition Engine_Start (c : ActivationConfig) (now : Time) (restored : HotStuff) (turns : nat -> wait_turn) (fuel : nat)
  : EM unit := fun e =>
  if running e then (Err EAlreadyRunning, e)
  else
    let e := with_gates false false no_readiness no_leader_handshake no_follower_handshake e in
    let e := with_hotstuff (loadState restored) e in
    let e := syncPacemakerWithHotStuff now e in
    if coordinator e then (Ok tt, with_running true e)
    else
      match ActivateConsensus c now turns fuel (MarkReady NodeID now e) with
      | (Err err, e) => (Err err, e)
      | (Ok _, e) => (Ok tt, with_running true e)
      end.

Definition Engine_Stop (e : Engine) : Engine :=
  if negb (running e) then e
  else
    let e := with_heartbeat (HM_Stop (heartbeat e)) e in
    let e := with_pacemaker (Stop (pacemaker e)) e in
    with_running false (with_gates false false no_readiness no_leader_handshake no_follower_handshake e).

(** The coordinator's callback. *)
Definition OnGenesisCertificate (c : ActivationConfig) (now : Time) (turns : nat -> wait_turn) (fuel : nat)
  (cert : GenesisCertificate) : EM unit := fun e =>
  ActivateConsensus c now turns fuel
    (foldl (fun e a => MarkReady (gr_ValidatorID a) now e) e (Attestations cert)).

(** ** Messages *)

Definition allowed_before_activation (t : MessageType) : bool :=
  match t with TypeGenesisReady | TypeGenesisCertificate | TypeProposalIntent | TypeReadyToVote => true | _ => false end.

Definition on_engine (f : Engine -> Engine) : EM unit := modify f.

(** [sendReadyToVote]; a failure is logged. *)
Definition sendReadyToVote (now : Time) (pi : ProposalIntent) (e : Engine) : Engine :=
  let rtv sg := MkReadyToVote (pi_View pi) (pi_Height pi) NodeID (pi_LeaderID pi) (pi_Nonce pi) now sg in
  match NodeSign now (ReadyToVote_SignBytes (rtv (MkSig [] zeroID zero_time))) with
  | None => e
  | Some sg => publish (MReadyToVote (rtv (MkSig sg NodeID now))) e
  end.

Definition on_proposal_intent (now : Time) (pi : ProposalIntent) (e : Engine) : Engine :=
  let '(all, e) := read_validators now e in
  let isLeader := match IsLeader_ (engine_rotation e) all (pi_LeaderID pi) (pi_View pi) with Ok b => b | Err _ => false end in
  let '(answers, follower) := handleProposalIntent NodeID isLeader pi (hs_follower e) in
  let e := with_handshakes (hs_leader e) follower e in
  if answers : bool then sendReadyToVote now pi e else e.

(** The dispatch on the decoded message. *)
Definition dispatch (c : ActivationConfig) (now : Time) (turns : nat -> wait_turn) (fuel : nat) (m : Message) : EM unit :=
  match m with
  | MProposal p =>
      on_engine (fun e => (read_validators now (markValidatorActive (ProposerID p) now now e)).2) ;;
      run_hotstuff now (fun _ _ => OnProposal now enforce_active p)
  | MVote v =>
      on_engine (markValidatorActive (VoterID v) now now) ;;
      run_hotstuff now (fun _ _ => OnVote now enforce_active v)
  | MViewChange vc =>
      on_engine (markValidatorActive (SenderID vc) now now) ;;
      all ← (fun e => let '(all, e) := read_validators now e in (Ok all, e));
      r ← gets engine_rotation;
      run_pacemaker now (fun _ => OnViewChange now r all (received_view_change vc))
  | MNewView nv =>
      on_engine (markValidatorActive (nv_LeaderID nv) (nv_Timestamp nv) now) ;;
      all ← (fun e => let '(all, e) := read_validators now e in (Ok all, e));
      r ← gets engine_rotation;
      run_pacemaker now (fun _ => OnNewView now r all (received_new_view nv))
  | MHeartbeat hb =>
      on_engine (markValidatorActive (hb_LeaderID hb) (hb_Timestamp hb) now) ;;
      all ← (fun e => let '(all, e) := read_validators now e in (Ok all, e));
      r ← gets engine_rotation;
      all' ← gets (fun e => (read_validators now (markValidatorActive (hb_LeaderID hb) now now e)).1);
      run_heartbeat now (fun _ _ => OnHeartbeat now r all all' (received_heartbeat hb))
  | MEvidence ev => fun e =>
      match ValidateEvidence (VS := validator_view now e) now ev (hs_validator (hotstuff e)) with
      | (Ok _, v) => (Ok tt, with_hotstuff (set_validator v (hotstuff e)) e)
      | (Err err, v) => (Err (EEvidence err), with_hotstuff (set_validator v (hotstuff e)) e)
      end
  | MGenesisReady _ => on_engine (fun e => if coordinator e then out (ToCoordinator m) e else e)
  | MGenesisCertificate _ => fun e =>
      if coordinator e then (Ok tt, out (ToCoordinator m) e) else ActivateConsensus c now turns fuel e
  | MProposalIntent pi =>
      on_engine (markValidatorActive (pi_LeaderID pi) (pi_Timestamp pi) now) ;; on_engine (on_proposal_intent now pi)
  | MReadyToVote rtv =>
      on_engine (markValidatorActive (rtv_ValidatorID rtv) (rtv_Timestamp rtv) now) ;;
      on_engine (fun e => with_handshakes (recordReadyToVote rtv (hs_leader e)) (hs_follower e) e)
  | MQC _ => throw ENotConsensus
  end.

(** [peer_ok] is the allowlist's answer when the address is one it looks at. *)
Definition OnMessageReceived (c : ActivationConfig) (now : Time) (turns : nat -> wait_turn) (fuel : nat)
  (peer_ok : bool) (msgType : MessageType) (data : bytes) : EM unit := fun e =>
  if negb (running e) then (Err ENotRunning, e)
  else if negb peer_ok then (Err EPeer, e)
  else
    let hs := hotstuff e in
    match VerifyAndDecode now data msgType (val_encoder (hs_validator hs)) with
    | (Err err, enc) => (Err (EDecode err), with_hotstuff (set_validator (with_encoder enc (hs_validator hs)) hs) e)
    | (Ok m, enc) =>
        let e := with_hotstuff (set_validator (with_encoder enc (hs_validator hs)) hs) e in
        if negb (consensusActive e) && negb (allowed_before_activation msgType) then (Ok tt, e)
        else dispatch c now turns fuel m e
    end.

(** ** The node's own calls *)

(** [SubmitBlock]. The turns of [CreateProposal] after the first, and what other
    goroutines do to the core and to the engine meanwhile, are given. *)
Definition SubmitBlock (now : Time) (blk : Block) (later : nat -> Time * PacemakerReading)
  (elsewhere : nat -> HotStuff -> HotStuff) (meanwhile : Engine -> Engine) : EM unit := fun e =>
  if negb (running e) then (Err ENotRunning, e)
  else if negb (consensusActive e) then (Err ENotConsensus, e)
  else
    let view := pm_currentView (pacemaker e) in
    let '(all, e) := read_validators now e in
    match IsLeader_ (engine_rotation e) all NodeID view with
    | Err err => (Err (ERotation err), e)
    | Ok false => (Err ELeaderLost, e)
    | Ok true =>
        if lastSubmitView e =? view then (Err EAlreadyVotedView, e)
        else
          let e := with_submit view (relayedProposalHashes e) e in
          match IsLeaderEligibleToPropose (engine_rotation e) all NodeID view with
          | Some _ => (Err ELeaderLost, e)
          | None =>
              if negb enable_proposing then (Err EProposingDisabled, e)
              else
                let reading := MkReading view (highestQC (pacemaker e)) (pm_currentHeight (pacemaker e)) in
                let turns i := if (i =? 0)%nat then (now, reading) else later i in
                match run_hotstuff now (fun _ _ => CreateProposal enforce_active blk turns elsewhere) e with
                | (Err err, e) => (Err err, e)
                | (Ok proposal, e) =>
                    let e := meanwhile e in
                    let live := pm_currentView (pacemaker e) in
                    let '(all, e) := read_validators now e in
                    if negb (live =? p_View proposal) then (Err EStaleProposalView, e)
                    else match IsLeader_ (engine_rotation e) all NodeID live with
                         | Err err => (Err (ERotation err), e)
                         | Ok false => (Err ELeaderLost, e)
                         | Ok true =>
                             match run_hotstuff now (fun _ _ => OnProposal now enforce_active proposal) e with
                             | (Err err, e) => (Err err, e)
                             | (Ok _, e) => publishMessage (MProposal proposal) e
                             end
                         end
                end
          end
    end.

Definition Engine_TriggerViewChange (now : Time) : EM unit := run_pacemaker now (fun _ => TriggerViewChange now).

Definition Engine_RecoverProposalWindow (now : Time) : EM (bool * Z) := fun e =>
  match run_hotstuff now (fun _ _ => RecoverProposalWindow now) e with
  | (Err err, e) => (Err err, e)
  | (Ok r, e) => (Ok r, syncPacemakerWithHotStuff now e)
  end.

(** A firing of the pacemaker's timer, and ticks of the heartbeat manager's. *)
Definition on_timeout (now : Time) : EM unit := run_pacemaker now (fun _ => handleTimeout now).
Definition on_liveness_check (now : Time) : EM unit := fun e =>
  let '(all, e) := read_validators now e in
  run_heartbeat now (fun _ _ => checkLiveness now (engine_rotation e) all) e.
Definition on_heartbeat_tick (now : Time) : EM unit := fun e =>
  let '(all, e) := read_validators now e in
  run_heartbeat now (fun _ _ => runSender_tick (senderEnabled e) now now (engine_rotation e) all) e.

(** [topicFor] and the default topics. *)
Definition default_topic (t : MessageType) : string :=
  match t with
  | TypeProposal => "consensus/proposal" | TypeVote => "consensus/vote" | TypeViewChange => "consensus/viewchange"
  | TypeNewView => "consensus/newview" | TypeHeartbeat => "consensus/heartbeat" | TypeEvidence => "consensus/evidence"
  | TypeGenesisReady => "consensus/genesis/ready" | TypeGenesisCertificate => "consensus/genesis/certificate"
  | TypeProposalIntent => "consensus/proposal_intent" | TypeReadyToVote => "consensus/ready_to_vote"
  | TypeQC => "consensus/unknown"
  end.
End engine.
