(* ===== verification/EngineInv.v ===== *)
(** The engine as two machines: every handler of the engine moves the HotStuff core
    and the pacemaker by the steps of a small relation, over which the invariants are
    proved by induction. *)
From S2P Require Import Prelude Bytes Sha256 GoTime GoFloat Messages Interfaces Encoder Validation Quorum.
From S2P Require Import ConsensusStorage HotStuff HotStuffInv Validators Rotation Pacemaker Wire Heartbeat.
From S2P Require Import Activation Engine.

(** ** What a call of the pacemaker does to its certificates and its view *)

Definition call_of (ev : pm_event) : option (Z * option IQC) :=
  match ev with CalledViewChange v q => Some (v, q) | _ => None end.
Definition calls_of (evs : list pm_event) : list (Z * option IQC) := omap call_of evs.

Section moves.
Context {Env : PacemakerEnv} (Q : IQC -> Prop) (V : Z -> Prop).

Definition cert_ok (q : option IQC) : Prop := forall q', q = Some q' -> Q q'.

(** The certificates a pacemaker holds. *)
Record pm_certs (pm : Pacemaker) : Prop := {
  pc_highest : cert_ok (highestQC pm);
  pc_stored v id vc : received v pm !! id = Some vc -> cert_ok (pvc_HighestQC vc) }.

(** A step that keeps the certificates and enters no view. *)
Definition silent (pm pm' : Pacemaker) : Prop :=
  pm_certs pm ->
  pm_certs pm' /\ pm_currentView pm' = pm_currentView pm /\
  exists evs, pm_events pm' = evs ++ pm_events pm /\ calls_of evs = [].

Definition accepts (v : Z) (q : option IQC) : bool :=
  match callbacks with Some cb => cb_OnViewChange cb v q | None => true end.

(** A step that may enter one view, if the callback accepts it. *)
Definition moves (pm pm' : Pacemaker) : Prop :=
  pm_certs pm ->
  pm_certs pm' /\
  exists evs, pm_events pm' = evs ++ pm_events pm /\
    ((calls_of evs = [] /\ pm_currentView pm' = pm_currentView pm) \/
     exists v q, calls_of evs = [(v, q)] /\ V v /\ cert_ok q /\
       pm_currentView pm' = if accepts v q then v else pm_currentView pm).

Lemma calls_app l k : calls_of (l ++ k) = calls_of l ++ calls_of k.
Proof. apply omap_app. Qed.

Lemma silent_refl pm : silent pm pm.
Proof. intros Hc. split_and!; [done..|]. by exists []. Qed.
Lemma silent_trans a b c : silent a b -> silent b c -> silent a c.
Proof.
  intros Hab Hbc Ha. destruct (Hab Ha) as (Hb & V1 & e1 & E1 & C1), (Hbc (proj1 (Hab Ha))) as (Hc & V2 & e2 & E2 & C2).
  split_and!; [done|congruence|]. exists (e2 ++ e1). by rewrite E2, E1, app_assoc, calls_app, C1, C2.
Qed.
Lemma silent_moves a b : silent a b -> moves a b.
Proof. intros Hab Ha. destruct (Hab Ha) as (Hb & V1 & e1 & E1 & C1). split; [done|]. exists e1. split; [done|]. by left. Qed.
Lemma silent_then a b c : silent a b -> moves b c -> moves a c.
Proof.
  intros Hab Hbc Ha. destruct (Hab Ha) as (Hb & V1 & e1 & E1 & C1), (Hbc (proj1 (Hab Ha))) as (Hc & e2 & E2 & C2).
  split; [done|]. exists (e2 ++ e1). rewrite E2, E1, app_assoc, calls_app, C1, app_nil_r, <- V1. done.
Qed.
Lemma then_silent a b c : moves a b -> silent b c -> moves a c.
Proof.
  intros Hab Hbc Ha. destruct (Hab Ha) as (Hb & e1 & E1 & C1), (Hbc (proj1 (Hab Ha))) as (Hc & V2 & e2 & E2 & C2).
  split; [done|]. exists (e2 ++ e1). rewrite E2, E1, app_assoc, calls_app, C2, V2. done.
Qed.

(** Changes to fields that hold no certificate. *)
Lemma silent_same pm pm' :
  highestQC pm' = highestQC pm -> viewChanges pm' = viewChanges pm -> pm_currentView pm' = pm_currentView pm ->
  (exists evs, pm_events pm' = evs ++ pm_events pm /\ calls_of evs = []) -> silent pm pm'.
Proof.
  intros H1 H2 H3 H4 [C1 C2]. split_and!; [|done|done]. constructor; [by rewrite H1|].
  intros v id vc. unfold received. rewrite H2. apply C2.
Qed.

Ltac quietly_same := apply silent_same; cbn; try done; by exists [].

Lemma silent_sent e pm : call_of e = None -> silent pm (sent e pm).
Proof. intros He. apply silent_same; cbn; try done. exists [e]. split; [done|]. cbn. by rewrite He. Qed.

Lemma received_stored view id vc pm v :
  received v (store_view_change view id vc pm) = if decide (v = view) then <[id := vc]> (received v pm) else received v pm.
Proof.
  unfold received, store_view_change. cbn. case_decide as H; [subst; by rewrite lookup_insert_eq|].
  by rewrite lookup_insert_ne.
Qed.

Lemma silent_store view id vc pm : (pm_certs pm -> cert_ok (pvc_HighestQC vc)) -> silent pm (store_view_change view id vc pm).
Proof.
  intros Hvc Hc. specialize (Hvc Hc). destruct Hc as [C1 C2]. split_and!; [|done|by exists []]. constructor; [exact C1|].
  intros v id' vc'. rewrite received_stored. case_decide; [|apply C2]. intros [[<- <-]|[_ H']]%lookup_insert_Some; [done|].
  by eapply C2.
Qed.

Lemma build_cert now o n q vc : buildViewChangeMsg now o n q = Some vc -> pvc_HighestQC vc = q.
Proof.
  unfold buildViewChangeMsg. cbn zeta. destruct (Sign now _); [|done]. by intros [= <-].
Qed.

Lemma TriggerViewChange_silent now pm : silent pm (TriggerViewChange now pm).2.
Proof.
  unfold TriggerViewChange. destruct (buildViewChangeMsg _ _ _ _) as [vc|] eqn:Hb; [|apply silent_refl].
  apply build_cert in Hb. set (pm1 := store_view_change _ _ _ _).
  assert (H1 : silent pm pm1) by (apply silent_store; rewrite Hb; apply pc_highest).
  destruct publisher as [p|]; [|done]. eapply silent_trans; [exact H1|].
  eapply silent_trans; [by apply (silent_sent (SentViewChange vc))|].
  cbn [snd]. destruct (PublishViewChange p vc); quietly_same.
Qed.

Lemma handleTimeout_silent now pm : silent pm (handleTimeout now pm).2.
Proof.
  unfold handleTimeout. destruct (_ && _); [apply silent_refl|]. cbn [snd].
  eapply silent_trans; [|apply TriggerViewChange_silent]. destruct (_ && _); quietly_same.
Qed.

Lemma best_of_ok l best :
  cert_ok best -> (forall id vc, (id, vc) ∈ l -> cert_ok (pvc_HighestQC vc)) -> cert_ok (best_of l best).
Proof.
  revert best. induction l as [|[id vc] l IH]; intros best Hb Hl; [done|]. cbn. apply IH.
  - pose proof (Hl id vc ltac:(by left)) as Hq. cbn [snd]. destruct (pvc_HighestQC vc) as [q|]; [|done].
    by destruct (newer q best).
  - intros id' vc' H. apply (Hl id'). by right.
Qed.

Lemma range_ok pm v id vc : pm_certs pm -> (id, vc) ∈ range_vcs (received v pm) -> cert_ok (pvc_HighestQC vc).
Proof.
  intros Hc Hin. rewrite range_vcs_perm in Hin. apply elem_of_map_to_list in Hin. by eapply pc_stored.
Qed.

Lemma collect_silent now v pm :
  silent pm (collect_new_view now v pm).2 /\
  forall q, (collect_new_view now v pm).1 = Ok q -> pm_certs pm -> cert_ok q.
Proof.
  unfold collect_new_view. destruct (range_vcs (received v pm)) as [|kv vcs] eqn:Hr; [split; [apply silent_refl|done]|].
  rewrite <- Hr. destruct (Sign _ _); [|split; [quietly_same|done]]. split.
  - cbn [snd]. destruct publisher; [|quietly_same]. eapply silent_trans; [|by apply silent_sent]. quietly_same.
  - intros q. cbn [fst]. destruct (match callbacks with Some _ => _ | None => _ end); [|done]. intros [= <-] Hc.
    apply best_of_ok; [done|]. intros id vc Hin. by eapply range_ok.
Qed.

Lemma decrease_silent b pm : silent pm (if b : bool then decreaseTimeout pm else pm).
Proof. destruct b; quietly_same. Qed.

Lemma begin_advance_certs now v qc pm : cert_ok qc -> pm_certs pm -> pm_certs (begin_advance now v qc pm).
Proof.
  intros Hq [C1 C2]. unfold begin_advance.
  destruct qc as [q|]; [destruct (newer q (highestQC pm))|]; by constructor.
Qed.

Lemma begin_advance_keeps now v qc pm :
  pm_currentView (begin_advance now v qc pm) = v /\ pm_events (begin_advance now v qc pm) = pm_events pm /\
  viewChanges (begin_advance now v qc pm) = viewChanges pm.
Proof. unfold begin_advance. destruct qc as [q|]; [destruct (newer q (highestQC pm))|]; done. Qed.

Context (Hcallbacks : callbacks <> None).

Lemma advanceView_moves now v qc pm : V v -> cert_ok qc -> moves pm (advanceView now v qc pm).2.
Proof.
  intros HV Hq Hc. unfold accepts, advanceView, end_advance. destruct callbacks as [cb|]; [|done].
  destruct (begin_advance_keeps now v qc pm) as (Hv & He & Hs).
  destruct (cb_OnViewChange cb v qc) eqn:Hok; cbn [snd].
  - set (pm1 := sent (CalledViewChange v qc) (begin_advance now v qc pm)).
    assert (Hc1 : pm_certs pm1) by (pose proof (begin_advance_certs now v qc pm Hq Hc) as [? ?]; by constructor).
    destruct (decrease_silent (EnableAIMD (pm_config pm1)) pm1 Hc1) as (C & V1 & evs & E & D). split; [exact C|].
    assert (E1 : pm_events pm1 = [CalledViewChange v qc] ++ pm_events pm) by (unfold pm1; rewrite <- He; reflexivity).
    exists (evs ++ [CalledViewChange v qc]). rewrite E, E1, app_assoc. split; [done|]. right. exists v, qc.
    rewrite calls_app, D, Hok. split_and!; try done. by rewrite V1.
  - split.
    + destruct Hc as [C1 C2]. constructor; [exact C1|]. intros v' id vc Hin. apply (C2 v' id vc).
      unfold received in *. rewrite <- Hs. exact Hin.
    + exists [CalledViewChange v qc]. split; [rewrite <- He; reflexivity|]. right. exists v, qc. rewrite Hok. by split_and!.
Qed.

Lemma sendNewView_moves now v pm : V v -> moves pm (sendNewView now v pm).2.
Proof.
  intros HV Hc. destruct (collect_silent now v pm) as [H1 H2]. revert Hc. unfold sendNewView, mbind, ST_bind.
  destruct (collect_new_view now v pm) as [[q|e] pm1]; cbn [fst snd] in *; [|by apply silent_moves].
  intros Hc. apply (silent_then pm pm1); [exact H1| |exact Hc]. apply advanceView_moves; [done|]. by apply H2.
Qed.

Lemma broadcast_silent now o n force pm : silent pm (broadcastCatchupViewChange now o n force pm).
Proof.
  unfold broadcastCatchupViewChange. destruct (_ <=? _); [quietly_same|].
  set (pm1 := set_viewChanges _ pm).
  assert (Hr : forall v, received v pm1 = received v pm).
  { intros v. unfold received, pm1. cbn. destruct (decide (n = v)) as [->|Hn]; [by rewrite lookup_insert_eq|by rewrite lookup_insert_ne]. }
  assert (H1 : silent pm pm1).
  { intros [C1 C2]. split_and!; [|done|by exists []]. constructor; [exact C1|]. intros v id vc. rewrite Hr. apply C2. }
  destruct (match received n pm1 !! LocalID with Some _ => _ | None => _ end); [exact H1|].
  destruct (buildViewChangeMsg _ _ _ _) as [vc|] eqn:Hb; [|exact H1]. apply build_cert in Hb.
  assert (H2 : silent pm1 (store_view_change n LocalID vc pm1)).
  { apply silent_store. intros Hc. rewrite Hb. destruct (received n pm1 !! LocalID) eqn:Hl; [by eapply pc_stored|apply Hc]. }
  eapply silent_trans; [exact H1|]. eapply silent_trans; [exact H2|].
  destruct publisher as [p|]; [|quietly_same].
  destruct (PublishViewChange p vc); (apply silent_same; cbn; try done; by exists [SentViewChange vc]).
Qed.

(** The handlers. *)
Definition next_ok (next : pm_next) : Prop :=
  match next with
  | Lead v => V v
  | Advance v q => V v /\ cert_ok q
  | AdvanceOnQC q => V (u64 (q_View (iqc q) + 1)) /\ Q q
  | Return _ | CatchUp _ _ => True
  end.

Lemma continue_moves now next pm : next_ok next -> moves pm (continue now next pm).2.
Proof.
  destruct next as [r|v|v q|q|o n]; cbn [next_ok continue snd].
  - intros _. apply silent_moves, silent_refl.
  - apply sendNewView_moves.
  - intros [HV Hq]. by apply advanceView_moves.
  - intros [HV Hq]. pose proof (advanceView_moves now (u64 (q_View (iqc q) + 1)) (Some q) pm HV) as H.
    assert (Hok : cert_ok (Some q)) by (by intros q' [= <-]). specialize (H Hok).
    destruct (advanceView _ _ _ pm) as [[[]|e] pm1]; cbn [snd] in *; [|exact H].
    eapply then_silent; [exact H|apply broadcast_silent].
  - intros _. apply silent_moves, broadcast_silent.
Qed.

Lemma handler_moves (locked : Pacemaker -> pm_next * Pacemaker) now pm :
  silent pm (locked pm).2 -> (pm_certs pm -> next_ok (locked pm).1) ->
  moves pm (let '(next, pm1) := locked pm in continue now next pm1).2.
Proof.
  destruct (locked pm) as [next pm1]. cbn [fst snd]. intros H1 H2 Hc.
  apply (silent_then pm pm1); [exact H1| |exact Hc]. by apply continue_moves, H2.
Qed.

Lemma OnViewChange_moves now r all vc pm :
  V (pvc_NewView vc) -> cert_ok (pvc_HighestQC vc) -> moves pm (OnViewChange now r all vc pm).2.
Proof.
  intros HV Hq. apply (handler_moves (OnViewChange_locked now r all vc)); unfold OnViewChange_locked.
  - destruct (_ <=? _); [destruct (_ <? _); [|apply silent_refl]; destruct (0 <? _); quietly_same|].
    destruct (negb _); [by apply silent_store|]. destruct (IsLeader_ _ _ _ _) as [[]|e]; by apply silent_store.
  - intros Hc. destruct (_ <=? _); [destruct (_ <? _); [|done]; by destruct (0 <? _)|].
    destruct (negb _); [done|]. destruct (IsLeader_ _ _ _ _) as [[]|e]; try done. split; [done|].
    destruct (silent_store (pvc_NewView vc) (pvc_SenderID vc) vc pm (fun _ => Hq) Hc) as (Hc' & _).
    apply best_of_ok; [apply Hc'|]. intros id vc' Hin. by eapply range_ok.
Qed.

Lemma OnNewView_moves now r all nv pm :
  V (pnv_View nv) -> cert_ok (pnv_HighestQC nv) -> moves pm (OnNewView now r all nv pm).2.
Proof.
  intros HV Hq. apply (handler_moves (OnNewView_locked r all nv)); [apply silent_refl|]. intros _.
  unfold OnNewView_locked. cbn [fst]. destruct (_ <? _); [done|]. destruct (_ =? _); [done|].
  destruct (IsLeader_ _ _ _ _) as [[]|e]; try done. by destruct (_ && _).
Qed.

Lemma OnQC_moves now q pm : V (u64 (q_View (iqc q) + 1)) -> Q q -> moves pm (OnQC now q pm).2.
Proof.
  intros HV Hq. apply (handler_moves (OnQC_locked q)); unfold OnQC_locked.
  - intros [C1 C2]. split_and!; [|done|by exists []]. constructor; [|exact C2]. cbn.
    destruct (newer q (highestQC pm)); [by intros q' [= <-]|exact C1].
  - intros _. cbn [fst]. by destruct (_ <=? _).
Qed.
End moves.

(** ** The steps of the core *)

(** A validator set over the configured identifiers, whatever their activity and
    whoever leads. *)
Definition same_set (ids : list ValidatorID) (VS : ValidatorSet) : Prop :=
  (forall id, IsValidator id = true <-> id ∈ ids) /\ GetValidatorCount = len ids.

(** What Go's types ensure of a decoded message: key identifiers of 32 bytes, views
    of 64 bits. *)
Definition message_certs (m : Message) : list QC :=
  match m with
  | MProposal p => option_list (JustifyQC p)
  | MViewChange vc => option_list (vc_HighestQC vc)
  | MNewView nv => option_list (nv_HighestQC nv)
  | _ => []
  end.
Definition typed (m : Message) : Prop :=
  length (extractSignature m).2 = 32%nat /\ Forall qc_wf (message_certs m) /\
  match m with MViewChange vc => vc_NewView vc < two64 | MNewView nv => nv_View nv < two64 | _ => True end.
Class TypedCodecs {D : Codecs} := { decode_typed data t m : decode data t = Ok m -> typed m }.

Section core.
Context {CS : CryptoService} {C : LRU bytes bool} {B : StorageBackend} {M : Marshallers} {D : Codecs} {EE : EngineEnv}.
Context (ids : list ValidatorID) (trusted : IQC -> Prop).

Definition is_view (v : Z) : Prop := v < two64.

(** The validator's own state: what it reads of the pacemaker, and the caches of its
    encoder. *)
Inductive validator_step (pm : Pacemaker) (v : Validator) : Validator -> Prop :=
| vs_position : validator_step pm v (set_pacemaker (pm_currentView pm) (pm_currentHeight pm) v)
| vs_decode now data t : validator_step pm v (with_encoder (VerifyAndDecode now data t (val_encoder v)).2 v)
| vs_evidence VS now ev : same_set ids VS -> validator_step pm v (ValidateEvidence (VS := VS) now ev v).2.

(** What [syncPacemakerWithHotStuff] sets. *)
Definition adopt (now : Time) (hs : HotStuff) (pm : Pacemaker) : Pacemaker :=
  let pm := SetCurrentView now (currentView hs) (SetCurrentHeight (currentHeight hs) pm) in
  match lockedQC hs with Some q => SetHighestQC q pm | None => pm end.

(** The view changes a trace asks the core for. *)
Definition apply_calls (calls : list (Z * option IQC)) (hs : HotStuff) : HotStuff :=
  foldl (fun hs c => (AdvanceView c.1 c.2 hs).2) hs calls.

(** The core, the pacemaker and, as ghost state, the proposals the node has made. *)
Definition cstate : Type := HotStuff * Pacemaker * list Proposal.

Inductive core_step : cstate -> cstate -> Prop :=
| cs_validator hs pm own v :
    validator_step pm (hs_validator hs) v -> core_step (hs, pm, own) (set_validator v hs, pm, own)
| cs_cache now q hs pm own :
    lockedQC hs = Some (MessagesQC q) ->
    core_step (hs, pm, own)
      (set_validator (with_encoder (CacheQCSignatures now (Some q) (val_encoder (hs_validator hs))) (hs_validator hs)) hs, pm, own)
| cs_proposal VS N now ea p hs pm own :
    same_set ids VS -> proposal_wf p \/ p ∈ own ->
    core_step (hs, pm, own) ((OnProposal (VS := VS) (N := N) now ea p hs).2, pm, own)
| cs_vote VS N now ea v hs pm own :
    same_set ids VS -> vote_wf v ->
    core_step (hs, pm, own) ((OnVote (VS := VS) (N := N) now ea v hs).2, pm, own)
| cs_recover now hs pm own :
    core_step (hs, pm, own) ((RecoverProposalWindow now hs).2, pm, own)
| cs_propose VS N now ea blk r hs pm own x hs' :
    same_set ids VS -> pm_highestQC r = highestQC pm ->
    create_attempt (VS := VS) (N := N) now ea blk r hs = (x, hs') ->
    core_step (hs, pm, own) (hs', pm, match x with Ok (Some p) => p :: own | _ => own end)
| cs_pacemaker hs pm own pm' :
    (forall Q : IQC -> Prop, (forall q, trusted q -> Q q) -> (forall q, EvQC q ∈ hs_events hs -> Q q) ->
       moves (Env := pacemaker_view hs) Q is_view pm pm') ->
    core_step (hs, pm, own) (apply_calls (calls_of (news (pm_events pm) (pm_events pm'))) hs, pm', own)
| cs_adopt now hs pm own :
    core_step (hs, pm, own) (hs, adopt now hs pm, own).

Notation core_steps := (rtc core_step).

(** ** The engine's handlers are sequences of these steps *)

Definition reaches (e e' : Engine) : Prop :=
  forall own, exists own', core_steps (hotstuff e, pacemaker e, own) (hotstuff e', pacemaker e', own').

#[export] Instance reaches_refl : Reflexive reaches.
Proof. intros e own. by exists own. Qed.
#[export] Instance reaches_trans : Transitive reaches.
Proof.
  intros a b c Hab Hbc own. destruct (Hab own) as [own1 H1], (Hbc own1) as [own2 H2]. exists own2. by etrans.
Qed.

Lemma reaches_same e e' : hotstuff e' = hotstuff e -> pacemaker e' = pacemaker e -> reaches e e'.
Proof. intros H1 H2 own. exists own. by rewrite H1, H2. Qed.

Lemma reaches_step e e' : (forall own, core_step (hotstuff e, pacemaker e, own) (hotstuff e', pacemaker e', own)) -> reaches e e'.
Proof. intros H own. exists own. by apply rtc_once. Qed.

Lemma publish_same m e : hotstuff (publish m e) = hotstuff e /\ pacemaker (publish m e) = pacemaker e.
Proof. unfold publish. by destruct (delivers m). Qed.
Lemma markActive_same id w now e :
  hotstuff (markValidatorActive id w now e) = hotstuff e /\ pacemaker (markValidatorActive id w now e) = pacemaker e.
Proof. unfold markValidatorActive. by case_bool_decide. Qed.
Lemma markInactive_same id w e :
  hotstuff (markValidatorInactive id w e) = hotstuff e /\ pacemaker (markValidatorInactive id w e) = pacemaker e.
Proof. unfold markValidatorInactive. by case_bool_decide. Qed.
Lemma read_same now e : hotstuff (read_validators now e).2 = hotstuff e /\ pacemaker (read_validators now e).2 = pacemaker e.
Proof. unfold read_validators. by destruct (GetValidators _ _). Qed.

Lemma news_app {A} (evs before : list A) : news before (evs ++ before) = rev evs.
Proof.
  unfold news. rewrite length_app, Nat.add_comm, Nat.add_sub'. by rewrite take_app_length.
Qed.

(** *** The pacemaker *)

Lemma apply_pm_events now evs e :
  hotstuff (foldl (handle_pm_event now) e evs) = apply_calls (calls_of evs) (hotstuff e) /\
  pacemaker (foldl (handle_pm_event now) e evs) = pacemaker e.
Proof.
  revert e. induction evs as [|ev evs IH]; intros e; [done|]. cbn [foldl]. destruct (IH (handle_pm_event now e ev)) as [-> ->].
  destruct ev as [vc|nv|v q]; cbn; [by destruct (publish_same (MViewChange (wire_view_change vc)) e) as [-> ->]
    |by destruct (publish_same (MNewView (wire_new_view nv)) e) as [-> ->]|done].
Qed.

Lemma run_pacemaker_reaches {A} now (m : PacemakerEnv -> @PM A) e :
  (forall Q : IQC -> Prop, (forall q, trusted q -> Q q) -> (forall q, EvQC q ∈ hs_events (hotstuff e) -> Q q) ->
     moves (Env := pacemaker_view (hotstuff e)) Q is_view (pacemaker e) (m (pacemaker_view (hotstuff e)) (pacemaker e)).2) ->
  reaches e (run_pacemaker now m e).2.
Proof.
  intros Hm. apply reaches_step. intros own. unfold run_pacemaker. destruct (m _ (pacemaker e)) as [r pm] eqn:Hr.
  cbn [snd] in *. destruct (apply_pm_events now (news (pm_events (pacemaker e)) (pm_events pm)) (with_pacemaker pm e)) as [-> ->].
  cbn. by apply cs_pacemaker.
Qed.

(** *** The core *)

(** Certificates announced stay announced. *)
Lemma AdvanceView_events v q hs : hs_events (AdvanceView v q hs).2 = hs_events hs.
Proof. unfold AdvanceView. repeat (case_match; simplify_eq/=); done. Qed.

Lemma run_pacemaker_events {A} now (m : PacemakerEnv -> @PM A) e :
  hs_events (hotstuff (run_pacemaker now m e).2) = hs_events (hotstuff e).
Proof.
  unfold run_pacemaker. destruct (m _ _) as [r pm]. cbn [snd].
  destruct (apply_pm_events now (news (pm_events (pacemaker e)) (pm_events pm)) (with_pacemaker pm e)) as [-> _].
  cbn. unfold apply_calls. generalize (calls_of (news (pm_events (pacemaker e)) (pm_events pm))). intros calls.
  generalize (hotstuff e). induction calls as [|c calls IH]; intros hs; [done|]. cbn. by rewrite IH, AdvanceView_events.
Qed.

Lemma OnProposal_callback_same now p e :
  hotstuff (OnProposal_callback now p e) = hotstuff e /\ pacemaker (OnProposal_callback now p e) = pacemaker e.
Proof.
  unfold OnProposal_callback. destruct (negb _); [done|].
  case_bool_decide; [|case_bool_decide; [done|]];
    match goal with |- hotstuff (publish ?m ?e1) = _ /\ _ => destruct (publish_same m e1) as [-> ->]; done end.
Qed.

Lemma u64_view x : is_view (u64 x).
Proof. unfold is_view, u64. apply Z.mod_pos_bound. done. Qed.

Lemma OnQC_reaches now q e : EvQC q ∈ hs_events (hotstuff e) -> reaches e (run_pacemaker now (fun _ => OnQC now q) e).2.
Proof. intros Hin. apply run_pacemaker_reaches. intros Q _ HQ. apply OnQC_moves; [done|apply u64_view|]. by apply HQ. Qed.

Lemma handle_hs_events_reaches now evs e :
  (forall q, EvQC q ∈ evs -> EvQC q ∈ hs_events (hotstuff e)) -> reaches e (foldl (handle_hs_event now) e evs).
Proof.
  revert e. induction evs as [|ev evs IH]; intros e Hin; [done|]. cbn [foldl].
  assert (Hstep : reaches e (handle_hs_event now e ev) /\
    hs_events (hotstuff (handle_hs_event now e ev)) = hs_events (hotstuff e)).
  { destruct ev as [|p|v|q|b q]; cbn [handle_hs_event].
    - done.
    - destruct (OnProposal_callback_same now p e) as [H1 H2]. split; [by apply reaches_same|by rewrite H1].
    - destruct (publish_same (MVote v) e) as [H1 H2]. split; [by apply reaches_same|by rewrite H1].
    - unfold OnQCFormed. rewrite !run_pacemaker_events. split; [|done].
      assert (Hq : EvQC q ∈ hs_events (hotstuff e)) by (apply Hin; by left).
      etrans; apply OnQC_reaches; [exact Hq|by rewrite run_pacemaker_events].
    - by split; [apply reaches_same|]. }
  destruct Hstep as [H1 H2]. etrans; [exact H1|]. apply IH. intros q Hq. rewrite H2. apply Hin. by right.
Qed.

(** *** The validator set keeps its members *)

Context (Hids : NoDup ids).

Definition members_ok (e : Engine) : Prop := set_inv ids (validators e).

(** A handler: it keeps the members and moves the core by steps. *)
Definition evolves (e e' : Engine) : Prop := members_ok e -> members_ok e' /\ reaches e e'.

Lemma evolves_refl e : evolves e e.
Proof. intros H. by split. Qed.
Lemma evolves_trans a b c : evolves a b -> evolves b c -> evolves a c.
Proof. intros Hab Hbc Ha. destruct (Hab Ha) as [Hb H1], (Hbc (proj1 (Hab Ha))) as [Hc H2]. split; [done|by etrans]. Qed.
Lemma evolves_reaches e e' : validators e' = validators e -> reaches e e' -> evolves e e'.
Proof. intros H1 H2 H. split; [unfold members_ok in *; by rewrite H1|done]. Qed.
Lemma evolves_same e e' :
  validators e' = validators e -> hotstuff e' = hotstuff e -> pacemaker e' = pacemaker e -> evolves e e'.
Proof. intros H1 H2 H3. apply evolves_reaches; [done|by apply reaches_same]. Qed.
Lemma evolves_set e e' :
  (members_ok e -> members_ok e') -> hotstuff e' = hotstuff e -> pacemaker e' = pacemaker e -> evolves e e'.
Proof. intros H1 H2 H3 H. split; [by apply H1|by apply reaches_same]. Qed.

Lemma evolves_markActive id w now e : evolves e (markValidatorActive id w now e).
Proof.
  apply evolves_set; [|apply markActive_same..]. unfold markValidatorActive, members_ok. case_bool_decide; [done|].
  cbn. apply MarkActive_inv.
Qed.
Lemma evolves_markInactive id w e : evolves e (markValidatorInactive id w e).
Proof.
  apply evolves_set; [|apply markInactive_same..]. unfold markValidatorInactive, members_ok. case_bool_decide; [done|].
  cbn. apply MarkInactive_inv.
Qed.
Lemma evolves_read now e : evolves e (read_validators now e).2.
Proof.
  apply evolves_set; [|apply read_same..]. unfold read_validators, members_ok. intros H.
  destruct (GetValidators_spec ids now (validators e) Hids H) as [_ H2]. by destruct (GetValidators _ _).
Qed.
Lemma evolves_publish m e : evolves e (publish m e).
Proof. unfold publish. destruct (delivers m); [by apply evolves_same|apply evolves_refl]. Qed.

Lemma evolves_foldl {X} (f : Engine -> X -> Engine) l e : (forall x e, x ∈ l -> evolves e (f e x)) -> evolves e (foldl f e l).
Proof.
  revert e. induction l as [|x l IH]; intros e Hf; [apply evolves_refl|]. cbn.
  eapply evolves_trans; [apply Hf; by left|]. apply IH. intros y e' Hy. apply Hf. by right.
Qed.

Lemma validator_view_same now e : members_ok e -> same_set ids (validator_view now e).
Proof.
  intros H. pose proof (validatorSetAdapter_laws (engine_rotation e) (validators e) now ids Hids H) as HL.
  split.
  - intros id. unfold validator_view. cbn. unfold IsValidator_. rewrite bool_decide_eq_true. split.
    + intros [i Hi]. apply (set_index ids _ H) in Hi. by eapply list_elem_of_lookup_2.
    + intros [i Hi]%list_elem_of_lookup. exists i. by apply (set_index ids _ H).
  - unfold validator_view. cbn. unfold GetValidatorCount_, len. by rewrite <- (set_ids ids _ H), length_fmap.
Qed.

(** *** Calls of the components *)

Lemma pm_events_set now evs e : validators (foldl (handle_pm_event now) e evs) = validators e.
Proof.
  revert e. induction evs as [|ev evs IH]; intros e; [done|]. cbn [foldl]. rewrite IH.
  destruct ev as [vc|nv|v q]; cbn; unfold publish; [by destruct (delivers _)..|done].
Qed.

Lemma run_pacemaker_set {A} now (m : PacemakerEnv -> @PM A) e : validators (run_pacemaker now m e).2 = validators e.
Proof. unfold run_pacemaker. destruct (m _ _) as [r pm]. cbn [snd]. by rewrite pm_events_set. Qed.

Lemma evolves_pacemaker {A} now (m : PacemakerEnv -> @PM A) e :
  (forall Q : IQC -> Prop, (forall q, trusted q -> Q q) -> (forall q, EvQC q ∈ hs_events (hotstuff e) -> Q q) ->
     moves (Env := pacemaker_view (hotstuff e)) Q is_view (pacemaker e) (m (pacemaker_view (hotstuff e)) (pacemaker e)).2) ->
  evolves e (run_pacemaker now m e).2.
Proof. intros Hm. apply evolves_reaches; [apply run_pacemaker_set|by apply run_pacemaker_reaches]. Qed.

Lemma hs_events_set now evs e : validators (foldl (handle_hs_event now) e evs) = validators e.
Proof.
  revert e. induction evs as [|ev evs IH]; intros e; [done|]. cbn [foldl]. rewrite IH.
  destruct ev as [|p|v|q|b q]; cbn [handle_hs_event]; try done.
  - unfold OnProposal_callback. destruct (negb _); [done|]. unfold publish.
    repeat case_bool_decide; try done; by destruct (delivers _).
  - unfold publish. by destruct (delivers _).
  - unfold OnQCFormed. by rewrite !run_pacemaker_set.
Qed.

Lemma news_in {A} (x : A) before after : x ∈ news before after -> x ∈ after.
Proof. unfold news. rewrite !list_elem_of_In, <- in_rev, <- !list_elem_of_In. intros (i & Hi & _)%elem_of_take. by eapply list_elem_of_lookup_2. Qed.

Lemma evolves_sync e : evolves e (sync_validator e).
Proof.
  apply evolves_reaches; [done|]. apply reaches_step. intros own. unfold sync_validator. cbn.
  apply (cs_validator _ _ _ (set_pacemaker _ _ _)), vs_position.
Qed.

Lemma evolves_hotstuff {A} now (m : ValidatorSet -> Node -> ST HotStuff hs_error A) e :
  (forall VS N hs own, same_set ids VS -> exists own', core_steps (hs, pacemaker e, own) ((m VS N hs).2, pacemaker e, own')) ->
  evolves e (run_hotstuff now m e).2.
Proof.
  intros Hm He. destruct (evolves_sync e He) as [Hs Hr]. unfold run_hotstuff. set (e0 := sync_validator e) in *.
  destruct (m (validator_view now e0) (node_view now e0) (hotstuff e0)) as [r hs] eqn:Hrun. cbn [snd].
  split; [unfold members_ok; rewrite hs_events_set; exact Hs|]. etrans; [exact Hr|].
  etrans; [|apply handle_hs_events_reaches; intros q Hq; by apply news_in in Hq].
  intros own. destruct (Hm (validator_view now e0) (node_view now e0) (hotstuff e0) own (validator_view_same now e0 Hs)) as [own' H].
  rewrite Hrun in H. exists own'. exact H.
Qed.

Lemma hb_event_same now e ev :
  hotstuff (handle_hb_event now e ev) = hotstuff e /\ pacemaker (handle_hb_event now e ev) = pacemaker e /\
  (members_ok e -> members_ok (handle_hb_event now e ev)).
Proof.
  destruct ev as [hb|view last|view leader]; cbn [handle_hb_event].
  - destruct (publish_same (MHeartbeat (wire_heartbeat hb)) e) as [H1 H2]. split_and!; [done|done|].
    unfold members_ok, publish. by destruct (delivers _).
  - unfold OnHeartbeatTimeout. destruct (read_same now e) as [H1 H2].
    pose proof (fun H => proj1 (evolves_read now e H)) as H3.
    destruct (read_validators now e) as [all e1]. cbn [snd] in *.
    destruct (GetLeaderForView_ _ _ _) as [l|]; [|by split_and!]. destruct (markInactive_same l now e1) as [H4 H5].
    split_and!; [congruence|congruence|]. intros H. apply (evolves_markInactive l now e1), H3, H.
  - destruct (markActive_same leader now now e) as [H1 H2]. split_and!; [done|done|].
    intros H. by apply (evolves_markActive leader now now e).
Qed.

Lemma hb_events_same now evs e :
  hotstuff (foldl (handle_hb_event now) e evs) = hotstuff e /\ pacemaker (foldl (handle_hb_event now) e evs) = pacemaker e /\
  (members_ok e -> members_ok (foldl (handle_hb_event now) e evs)).
Proof.
  revert e. induction evs as [|ev evs IH]; intros e; [done|]. cbn [foldl].
  destruct (IH (handle_hb_event now e ev)) as (-> & -> & H1), (hb_event_same now e ev) as (H2 & H3 & H4).
  split_and!; [done|done|auto].
Qed.

Lemma evolves_heartbeat {A} now (m : forall (P : PacemakerEnv) (H : HeartbeatEnv), @HB A) e :
  (forall Q P H s, callbacks (PacemakerEnv := P) <> None -> moves (Env := P) Q is_view s.2 (m P H s).2.2) ->
  evolves e (run_heartbeat now m e).2.
Proof.
  intros Hm He. unfold run_heartbeat. set (P := pacemaker_view (hotstuff e)).
  assert (Hmoves : forall Q, moves (Env := P) Q is_view (pacemaker e) (m P heartbeat_view (heartbeat e, pacemaker e)).2.2)
    by (intros Q; apply (Hm Q P heartbeat_view (heartbeat e, pacemaker e)); done).
  destruct (m P heartbeat_view (heartbeat e, pacemaker e)) as [r [hb pm]]. cbn [snd] in *.
  set (e1 := with_pacemaker pm (with_heartbeat hb e)).
  destruct (hb_events_same now (news (hm_events (heartbeat e)) (hm_events hb)) e1) as (H1 & H2 & H3).
  set (e2 := foldl (handle_hb_event now) e1 _) in *.
  split; [unfold members_ok; rewrite pm_events_set; by apply H3|].
  apply reaches_step. intros own.
  destruct (apply_pm_events now (news (pm_events (pacemaker e)) (pm_events pm)) e2) as [-> ->]. rewrite H1, H2. cbn.
  apply cs_pacemaker. intros Q _ _. apply Hmoves.
Qed.

Section heartbeat_moves.
Context {P : PacemakerEnv} {HE : HeartbeatEnv} (Q : IQC -> Prop).

Lemma timed_out_silent now last s : silent Q s.2 (timed_out now last s).2.2.
Proof.
  assert (Ht : silent Q s.2 (TriggerViewChange now s.2).2) by apply TriggerViewChange_silent.
  unfold timed_out, on_pacemaker, mbind, ST_bind, gets, on_manager, modify, fail_if, mret, ST_ret.
  destruct hb_OnTimeout as [f|]; cbn [fst snd].
  - destruct (negb _); cbn [fst snd]; [apply silent_refl|]. by destruct (TriggerViewChange now s.2) as [[]].
  - by destruct (TriggerViewChange now s.2) as [[]].
Qed.

Lemma idleness_silent now r all s : silent Q s.2 (checkProposalIdleness now r all s).2.2.
Proof.
  destruct s as [hm pm]. unfold checkProposalIdleness. destruct (IsZero _); [apply silent_refl|].
  destruct (_ && _); [apply (timed_out_silent now _ (hm, pm))|]. destruct (_ <? _); [apply (timed_out_silent now _ (hm, pm))|].
  apply silent_refl.
Qed.

Lemma OnHeartbeat_silent now r all all' hb s : silent Q s.2 (OnHeartbeat now r all all' hb s).2.2.
Proof.
  destruct (OnHeartbeat_cases now r all all' hb s) as [->|(s' & _ & <- & ->)]; [apply silent_refl|apply idleness_silent].
Qed.

Lemma sendHeartbeat_silent b now now' r all s : silent Q s.2 (runSender_tick b now now' r all s).2.2.
Proof.
  destruct b; [|apply silent_refl]. cbn [runSender_tick]. destruct (sendHeartbeat_watch now now' r all s) as [_ ->]. apply silent_refl.
Qed.
End heartbeat_moves.
End core.
