(* ===== verification/EngineRuns.v ===== *)
(** Runs of the engine: what drives it, and what it guarantees whatever does. *)
From S2P Require Import Prelude Bytes Sha256 GoTime GoFloat Messages Interfaces Encoder Validation Quorum.
From S2P Require Import ConsensusStorage HotStuff HotStuffInv Validators Rotation Pacemaker Wire Heartbeat.
From S2P Require Import Activation Engine EngineInv.

Section calls.
Context {CS : CryptoService} {C : LRU bytes bool} {B : StorageBackend} {M : Marshallers} {D : Codecs} {EE : EngineEnv}.

(** The inputs of a wait for activation, which a genesis certificate may start. *)
Record activation := MkActivationInput { ai_config : ActivationConfig; ai_turns : nat -> wait_turn; ai_fuel : nat }.

(** What drives a started engine: messages, timers, and the node itself. *)
Inductive engine_call :=
| CMessage (a : activation) (now : Time) (peer_ok : bool) (t : MessageType) (data : bytes)
| CTimeout (now : Time)
| CCheck (now : Time)
| CTick (now : Time)
| CTrigger (now : Time)
| CRecover (now : Time)
| CSubmit (now : Time) (blk : Block) (times : nat -> Time)
| CReady (id : ValidatorID) (now : Time).

(** What the pacemaker answers while nothing else happens. *)
Definition reading_of (pm : Pacemaker) : PacemakerReading :=
  MkReading (pm_currentView pm) (highestQC pm) (pm_currentHeight pm).

Definition run_call (c : engine_call) (e : Engine) : Engine :=
  match c with
  | CMessage a now peer_ok t data => (OnMessageReceived (ai_config a) now (ai_turns a) (ai_fuel a) peer_ok t data e).2
  | CTimeout now => (on_timeout now e).2
  | CCheck now => (on_liveness_check now e).2
  | CTick now => (on_heartbeat_tick now e).2
  | CTrigger now => (Engine_TriggerViewChange now e).2
  | CRecover now => (Engine_RecoverProposalWindow now e).2
  | CSubmit now blk times =>
      (SubmitBlock now blk (fun i => (times i, reading_of (pacemaker e))) (fun _ hs => hs) (fun e => e) e).2
  | CReady id now => MarkReady id now e
  end.
Definition run_engine (cs : list engine_call) (e : Engine) : Engine := foldl (fun e c => run_call c e) e cs.

(** The certificates a message hands to the pacemaker. *)
Definition pacemaker_certs (m : Message) : list QC :=
  match m with
  | MViewChange vc => option_list (vc_HighestQC vc)
  | MNewView nv => option_list (nv_HighestQC nv) ++ mjoin ((fun vc => option_list (vc_HighestQC vc)) <$> ViewChanges nv)
  | _ => []
  end.

(** What a call must satisfy for the steps it makes to be allowed: the certificates
    handed to the pacemaker are [trusted]. *)
Definition call_ok (trusted : IQC -> Prop) (c : engine_call) : Prop :=
  match c with
  | CMessage _ _ _ t data => forall m q, decode data t = Ok m -> q ∈ pacemaker_certs m -> trusted (MessagesQC q)
  | _ => True
  end.

Context (ids : list ValidatorID) (Hids : NoDup ids) (trusted : IQC -> Prop).
Context {TC : TypedCodecs}.

Notation evolves := (evolves ids trusted).
Notation core_step := (core_step ids trusted).

Lemma VerifyAndDecode_decode now data t enc m enc' :
  VerifyAndDecode now data t enc = (Ok m, enc') -> decode data t = Ok m.
Proof.
  unfold VerifyAndDecode. intros H.
  apply ST_bind_Ok in H as (c & e1 & Hc & H). apply ST_bind_Ok in H as ([] & e2 & _ & H).
  apply ST_bind_Ok in H as (m' & e3 & Hd & H). injection Hd as Hd <-.
  apply ST_bind_Ok in H as ([] & e4 & _ & H). apply ST_bind_Ok in H as ([] & e5 & _ & H).
  by injection H as <- _.
Qed.

Lemma decode_proposal data t p : decode data t = Ok (MProposal p) -> proposal_wf p.
Proof.
  intros Hd. split.
  - intros blk Hb. destruct t; cbn in Hd; unfold unmarshalled in Hd; go_inv Hd; try done. by eapply toProposal_block.
  - intros qc Hqc. destruct (decode_typed _ _ _ Hd) as (_ & Hc & _). cbn in Hc. rewrite Hqc in Hc. by inversion Hc.
Qed.

Lemma decode_vote data t v : decode data t = Ok (MVote v) -> vote_wf v.
Proof. intros Hd. by destruct (decode_typed _ _ _ Hd) as (H & _). Qed.

(** ** Synchronisation and activation *)

Lemma evolves_SyncPacemaker now e : evolves e (syncPacemakerWithHotStuff now e).
Proof.
  unfold syncPacemakerWithHotStuff.
  assert (Hadopt : evolves e (with_pacemaker (adopt now (hotstuff e) (pacemaker e)) e))
    by (apply evolves_reaches; [done|apply reaches_step; intros own; apply cs_adopt]).
  unfold adopt in Hadopt. destruct (lockedQC (hotstuff e)) as [[q|q]|] eqn:Hlock; [|exact Hadopt..].
  set (e1 := with_pacemaker _ e) in *. eapply evolves_trans; [exact Hadopt|].
  set (e2 := with_hotstuff _ e1).
  eapply (evolves_trans _ _ _ e2).
  - apply evolves_reaches; [done|]. apply reaches_step. intros own.
    by apply (cs_cache _ _ now q (hotstuff e)).
  - apply evolves_foldl. intros sg e' _. apply evolves_markActive.
Qed.

Lemma evolves_quiet_pacemaker pm e :
  (forall Q, silent Q (pacemaker e) pm) -> pm_events pm = pm_events (pacemaker e) -> evolves e (with_pacemaker pm e).
Proof.
  intros Hs He. apply evolves_reaches; [done|]. apply reaches_step. intros own.
  pose proof (cs_pacemaker ids trusted (hotstuff e) (pacemaker e) own pm) as H.
  unfold news in H. rewrite He, Nat.sub_diag in H. apply H. intros Q _ _. apply silent_moves, Hs.
Qed.

Lemma evolves_start now e : evolves e (startConsensusComponents now e).
Proof.
  unfold startConsensusComponents. set (e1 := syncPacemakerWithHotStuff now e).
  eapply evolves_trans; [apply evolves_SyncPacemaker|]. fold e1.
  eapply (evolves_trans _ _ _ (with_pacemaker (Start now (pacemaker e1)) e1)).
  - apply evolves_quiet_pacemaker; [|done]. intros Q. apply silent_same; try done. by exists [].
  - eapply evolves_trans; [apply evolves_SyncPacemaker|]. by apply evolves_same.
Qed.

Lemma evolves_activate c now turns fuel e : evolves e (ActivateConsensus c now turns fuel e).2.
Proof.
  unfold ActivateConsensus. destruct (consensusActive e); [apply evolves_refl|].
  destruct (waitForActivationQuorum _ _ _ _ _) as [[[]|err]|]; cbn [snd]; [|apply evolves_refl..].
  eapply evolves_trans; [apply evolves_start|by apply evolves_same].
Qed.

(** ** Handlers *)

Definition handles {A} (m : EM A) : Prop := forall e, evolves e (m e).2.

Lemma handles_bind {A A'} (m : EM A) (f : A -> EM A') : handles m -> (forall a, handles (f a)) -> handles (m ≫= f).
Proof.
  intros Hm Hf e. unfold mbind, ST_bind. specialize (Hm e). destruct (m e) as [[a|err] e']; cbn [snd] in *; [|exact Hm].
  eapply evolves_trans; [exact Hm|apply Hf].
Qed.
Lemma handles_on f : (forall e, evolves e (f e)) -> handles (on_engine f).
Proof. intros Hf e. apply Hf. Qed.
Lemma handles_gets {A} (f : Engine -> A) : handles (gets f).
Proof. intros e. apply evolves_refl. Qed.
Lemma handles_read now : handles (fun e => let '(all, e) := read_validators now e in (Ok all, e)).
Proof. intros e. pose proof (evolves_read ids trusted Hids now e) as H. by destruct (read_validators now e). Qed.
Lemma handles_hotstuff {A} now (m : ValidatorSet -> Node -> ST HotStuff hs_error A) :
  (forall VS N hs pm own, same_set ids VS -> core_step (hs, pm, own) ((m VS N hs).2, pm, own)) ->
  handles (run_hotstuff now m).
Proof.
  intros Hm e. apply (evolves_hotstuff ids trusted Hids). intros VS N hs own HVS. exists own. apply rtc_once. by apply Hm.
Qed.
Lemma handles_pacemaker {A} now (m : PacemakerEnv -> @PM A) :
  (forall Q P pm, (forall q, trusted q -> Q q) -> callbacks (PacemakerEnv := P) <> None ->
     moves (Env := P) Q is_view pm (m P pm).2) -> handles (run_pacemaker now m).
Proof. intros Hm e. apply evolves_pacemaker. intros Q HQ _. by apply Hm. Qed.

Lemma evolves_intent now pi e : evolves e (on_proposal_intent now pi e).
Proof.
  unfold on_proposal_intent. pose proof (evolves_read ids trusted Hids now e) as H.
  destruct (read_validators now e) as [all e1]. cbn [snd] in H. destruct (handleProposalIntent _ _ _ _) as [answers follower].
  eapply evolves_trans; [exact H|].
  eapply (evolves_trans _ _ _ (with_handshakes (hs_leader e1) follower e1)); [by apply evolves_same|].
  destruct answers; [|apply evolves_refl]. unfold sendReadyToVote. destruct (NodeSign _ _); [apply evolves_publish|apply evolves_refl].
Qed.

Lemma trusted_cert (q : option QC) (Q : IQC -> Prop) :
  (forall q', trusted q' -> Q q') -> (forall q', q = Some q' -> trusted (MessagesQC q')) -> cert_ok Q (MessagesQC <$> q).
Proof. intros HQ Ht q' Hq. destruct q as [q0|]; [|done]. injection Hq as <-. by apply HQ, Ht. Qed.

Lemma handles_dispatch c now turns fuel data t m :
  decode data t = Ok m -> (forall q, q ∈ pacemaker_certs m -> trusted (MessagesQC q)) -> handles (dispatch c now turns fuel m).
Proof.
  intros Hd Hcert.
  assert (Hmark : forall id w, handles (on_engine (markValidatorActive id w now)))
    by (intros id w; apply handles_on; intros e; apply evolves_markActive).
  destruct m as [p|v|q|vc|nv|hb|ev|gr|gc|pi|rtv]; cbn [dispatch].
  - apply handles_bind.
    + apply handles_on. intros e. eapply evolves_trans; [apply evolves_markActive|by apply evolves_read].
    + intros _. apply handles_hotstuff. intros VS N hs pm own HVS. apply cs_proposal; [done|]. left. by eapply decode_proposal.
  - apply handles_bind; [apply Hmark|intros _]. apply handles_hotstuff. intros VS N hs pm own HVS.
    apply cs_vote; [done|]. by eapply decode_vote.
  - intros e. apply evolves_refl.
  - apply handles_bind; [apply Hmark|intros _]. apply handles_bind; [apply handles_read|intros all].
    apply handles_bind; [apply handles_gets|intros r]. apply handles_pacemaker. intros Q P pm HQ Hcb.
    destruct (decode_typed _ _ _ Hd) as (_ & _ & Hv). apply OnViewChange_moves; [done|exact Hv|].
    apply trusted_cert; [done|]. intros q Hq. apply Hcert. cbn. rewrite Hq. by left.
  - apply handles_bind; [apply Hmark|intros _]. apply handles_bind; [apply handles_read|intros all].
    apply handles_bind; [apply handles_gets|intros r]. apply handles_pacemaker. intros Q P pm HQ Hcb.
    destruct (decode_typed _ _ _ Hd) as (_ & _ & Hv). apply OnNewView_moves; [done|exact Hv|].
    apply trusted_cert; [done|]. intros q Hq. apply Hcert. cbn. rewrite Hq. by left.
  - apply handles_bind; [apply Hmark|intros _]. apply handles_bind; [apply handles_read|intros all].
    apply handles_bind; [apply handles_gets|intros r]. apply handles_bind; [apply handles_gets|intros all'].
    intros e. apply (evolves_heartbeat ids trusted Hids). intros Q P H s _. apply silent_moves, OnHeartbeat_silent.
  - intros e He. assert (Hs : same_set ids (validator_view now e)) by (by apply validator_view_same).
    revert He. change (evolves e (match ValidateEvidence (VS := validator_view now e) now ev (hs_validator (hotstuff e)) with
      | (Ok _, v) => (Ok tt, with_hotstuff (set_validator v (hotstuff e)) e)
      | (Err err, v) => (Err (EEvidence err), with_hotstuff (set_validator v (hotstuff e)) e) end).2).
    pose proof (vs_evidence ids (pacemaker e) (hs_validator (hotstuff e)) _ now ev Hs) as Hstep.
    destruct (ValidateEvidence _ _ _) as [[[]|err] v]; cbn [snd] in *;
      (apply evolves_reaches; [done|]; apply reaches_step; intros own; by apply (cs_validator _ _ (hotstuff e))).
  - apply handles_on. intros e. destruct (coordinator e); [by apply evolves_same|apply evolves_refl].
  - intros e. destruct (coordinator e); [by apply evolves_same|apply evolves_activate].
  - apply handles_bind; [apply Hmark|intros _]. apply handles_on. intros e. apply evolves_intent.
  - apply handles_bind; [apply Hmark|intros _]. apply handles_on. intros e. by apply evolves_same.
Qed.

Lemma handles_message a now peer_ok t data :
  call_ok trusted (CMessage a now peer_ok t data) ->
  handles (OnMessageReceived (ai_config a) now (ai_turns a) (ai_fuel a) peer_ok t data).
Proof.
  intros Hcert e. unfold OnMessageReceived. destruct (negb (running e)); [apply evolves_refl|].
  destruct (negb peer_ok); [apply evolves_refl|].
  assert (Hdec : evolves e (with_hotstuff (set_validator (with_encoder (VerifyAndDecode now data t (val_encoder (hs_validator (hotstuff e)))).2
    (hs_validator (hotstuff e))) (hotstuff e)) e)).
  { apply evolves_reaches; [done|]. apply reaches_step. intros own.
    apply (cs_validator _ _ (hotstuff e)), (vs_decode _ _ _ now data t). }
  destruct (VerifyAndDecode now data t _) as [[m|err] enc] eqn:Hrun; cbn [snd] in *; [|exact Hdec].
  eapply evolves_trans; [exact Hdec|]. destruct (_ && _); [apply evolves_refl|].
  apply VerifyAndDecode_decode in Hrun. apply (handles_dispatch _ now _ _ data t m Hrun).
  intros q Hq. by apply (Hcert m).
Qed.

(** *** The leader's path *)

Lemma create_loop_steps VS N ea blk (times : nat -> Time * PacemakerReading) n i hs pm own :
  same_set ids VS -> (forall j, pm_highestQC (times j).2 = highestQC pm) ->
  exists own', rtc core_step (hs, pm, own)
    ((create_loop (VS := VS) (N := N) ea blk times (fun _ hs => hs) n i hs).2, pm, own') /\ own ⊆ own' /\
    forall p, (create_loop (VS := VS) (N := N) ea blk times (fun _ hs => hs) n i hs).1 = Ok p -> p ∈ own'.
Proof.
  intros HVS Hr. revert i hs own. induction n as [|n IH]; intros i hs own; cbn [create_loop].
  { exists own. by split_and!. }
  unfold mbind, ST_bind. pose proof (cs_propose ids trusted VS N (times i).1 ea blk (times i).2 hs pm own) as Hstep.
  destruct (create_attempt _ _ _ _ hs) as [[[p|]|err] hs1]; cbn [snd fst]; specialize (Hstep _ _ HVS (Hr i) eq_refl).
  - exists (p :: own). split_and!; [by apply rtc_once|by apply list_subseteq_cons|]. intros p' [= <-]. by left.
  - unfold modify. destruct (IH (S i) hs1 own) as (own' & H1 & H2 & H3). exists own'. split_and!; [|done|exact H3].
    eapply rtc_l; [exact Hstep|exact H1].
  - exists own. split_and!; [by apply rtc_once|done|done].
Qed.

Lemma steps_own s s' : rtc core_step s s' -> s.2 ⊆ s'.2.
Proof.
  induction 1 as [s|s s1 s' Hstep _ IH]; [done|]. etrans; [|exact IH]. destruct Hstep; cbn; try done.
  destruct x as [[p|]|e]; [by apply list_subseteq_cons|done..].
Qed.

(** A call of the core from given proposals. *)
Lemma hotstuff_steps {A} now (m : ValidatorSet -> Node -> ST HotStuff hs_error A) e own (Post : A -> list Proposal -> Prop) :
  members_ok ids e -> (forall a own1 own2, own1 ⊆ own2 -> Post a own1 -> Post a own2) ->
  (forall VS N hs, same_set ids VS -> exists own1,
     rtc core_step (hs, pacemaker e, own) ((m VS N hs).2, pacemaker e, own1) /\ forall a, (m VS N hs).1 = Ok a -> Post a own1) ->
  members_ok ids (run_hotstuff now m e).2 /\ exists own',
    rtc core_step (hotstuff e, pacemaker e, own) (hotstuff (run_hotstuff now m e).2, pacemaker (run_hotstuff now m e).2, own') /\
    forall a, (run_hotstuff now m e).1 = Ok a -> Post a own'.
Proof.
  intros He Hmono Hm. unfold run_hotstuff. set (e0 := sync_validator e).
  assert (He0 : members_ok ids e0) by exact He.
  destruct (Hm (validator_view now e0) (node_view now e0) (hotstuff e0) (validator_view_same ids Hids now e0 He0)) as (own1 & H1 & H2).
  destruct (m _ _ (hotstuff e0)) as [r hs]. cbn [fst snd] in *.
  split; [unfold members_ok; rewrite hs_events_set; exact He0|].
  destruct (handle_hs_events_reaches ids trusted now (news (hs_events (hotstuff e0)) (hs_events hs)) (with_hotstuff hs e0)
    (fun q Hq => news_in _ _ _ Hq) own1) as (own2 & H3).
  exists own2. split.
  - etrans; [apply rtc_once, (cs_validator _ _ (hotstuff e)), vs_position|]. etrans; [exact H1|exact H3].
  - intros a Ha. destruct r as [a'|]; [|done]. injection Ha as ->. eapply Hmono; [exact (steps_own _ _ H3)|by apply H2].
Qed.

Lemma handles_submit now blk (times : nat -> Time) e :
  evolves e (SubmitBlock now blk (fun i => (times i, reading_of (pacemaker e))) (fun _ hs => hs) (fun e => e) e).2.
Proof.
  unfold SubmitBlock. destruct (negb (running e)); [apply evolves_refl|]. destruct (negb (consensusActive e)); [apply evolves_refl|].
  pose proof (evolves_read ids trusted Hids now e) as H1.
  pose proof (read_same now e) as [_ Hpm1]. destruct (read_validators now e) as [all e1]. cbn [snd] in H1, Hpm1.
  destruct (IsLeader_ _ _ _ _) as [[]|err]; cbn [snd]; [|exact H1..].
  destruct (lastSubmitView e1 =? _); [exact H1|].
  set (e2 := with_submit _ _ e1). assert (H2 : evolves e e2) by (eapply evolves_trans; [exact H1|by apply evolves_same]).
  destruct (IsLeaderEligibleToPropose _ _ _ _); [exact H2|]. destruct (negb enable_proposing); [exact H2|].
  set (turns := fun i => if (i =? 0)%nat then _ else _).
  assert (Hr : forall j, pm_highestQC (turns j).2 = highestQC (pacemaker e2)).
  { intros j. unfold turns. destruct (j =? 0)%nat; cbn; by rewrite Hpm1. }
  intros He. destruct (H2 He) as [He2 Hr2].
  assert (Hcreate : forall own, members_ok ids (run_hotstuff now (fun VS N => CreateProposal (VS := VS) (N := N) enforce_active blk turns (fun _ hs => hs)) e2).2 /\
    exists own', rtc core_step (hotstuff e2, pacemaker e2, own)
      (hotstuff (run_hotstuff now (fun VS N => CreateProposal (VS := VS) (N := N) enforce_active blk turns (fun _ hs => hs)) e2).2,
       pacemaker (run_hotstuff now (fun VS N => CreateProposal (VS := VS) (N := N) enforce_active blk turns (fun _ hs => hs)) e2).2, own') /\
      forall p, (run_hotstuff now (fun VS N => CreateProposal (VS := VS) (N := N) enforce_active blk turns (fun _ hs => hs)) e2).1 = Ok p -> p ∈ own').
  { intros own. apply hotstuff_steps; [exact He2|intros a o1 o2 Hs Ha; by apply Hs|].
    intros VS N hs HVS. destruct (create_loop_steps VS N enforce_active blk turns createProposalMaxSyncRetries 0 hs (pacemaker e2) own HVS Hr)
      as (own' & Hs & _ & Hp). by exists own'. }
  destruct (run_hotstuff now _ e2) as [[p|err] e3]; cbn [fst snd] in Hcreate |- *.
  2: { split; [apply (Hcreate [])|]. etrans; [exact Hr2|]. intros own. destruct (Hcreate own) as (_ & own' & Hs & _). by exists own'. }
  pose proof (evolves_read ids trusted Hids now e3) as Hrd.
  pose proof (read_same now e3) as [Hhs4 Hpm4]. destruct (read_validators now e3) as [all4 e4]. cbn [snd] in Hrd, Hhs4, Hpm4.
  assert (He4 : members_ok ids e4) by (apply Hrd, (Hcreate [])).
  assert (H4 : reaches ids trusted e e4).
  { etrans; [exact Hr2|]. intros own. destruct (Hcreate own) as (_ & own' & Hs & _). exists own'. by rewrite Hhs4, Hpm4. }
  destruct (negb _); [by split|]. destruct (IsLeader_ _ _ _ _) as [[]|err]; cbn [snd]; [|by split..].
  assert (Hown : forall own, members_ok ids (run_hotstuff now (fun VS N => OnProposal (VS := VS) (N := N) now enforce_active p) e4).2 /\
    (p ∈ own -> exists own', rtc core_step (hotstuff e4, pacemaker e4, own)
      (hotstuff (run_hotstuff now (fun VS N => OnProposal (VS := VS) (N := N) now enforce_active p) e4).2,
       pacemaker (run_hotstuff now (fun VS N => OnProposal (VS := VS) (N := N) now enforce_active p) e4).2, own'))).
  { intros own. split; [unfold run_hotstuff; destruct (OnProposal _ _ _ _) as [r hs]; cbn [snd];
      unfold members_ok; rewrite hs_events_set; exact He4|].
    intros Hp. destruct (hotstuff_steps now (fun VS N => OnProposal (VS := VS) (N := N) now enforce_active p) e4 own (fun _ _ => True) He4)
      as (_ & own' & Hs & _); [done| |by exists own'].
    intros VS N hs HVS. exists own. split; [|done]. apply rtc_once, cs_proposal; [done|by right]. }
  assert (H5 : reaches ids trusted e (run_hotstuff now (fun VS N => OnProposal (VS := VS) (N := N) now enforce_active p) e4).2).
  { etrans; [exact Hr2|]. intros own. destruct (Hcreate own) as (_ & own1 & Hs1 & Hp1).
    destruct (proj2 (Hown own1) (Hp1 p eq_refl)) as (own2 & Hs2). exists own2. etrans; [exact Hs1|].
    rewrite <- Hhs4, <- Hpm4. exact Hs2. }
  pose proof (proj1 (Hown [])) as He5.
  destruct (run_hotstuff now _ e4) as [[x|err] e5]; cbn [snd] in *; [|by split].
  destruct (evolves_publish ids trusted (MProposal p) e5 He5) as [He6 H6].
  unfold publishMessage. cbn [snd]. split; [exact He6|]. by etrans.
Qed.

Lemma handles_call c e : call_ok trusted c -> evolves e (run_call c e).
Proof.
  destruct c as [a now peer_ok t data|now|now|now|now|now|now blk times|id now]; cbn [run_call call_ok]; intros Hc.
  - by apply handles_message.
  - apply handles_pacemaker. intros Q P pm _ _. apply silent_moves, handleTimeout_silent.
  - unfold on_liveness_check. pose proof (evolves_read ids trusted Hids now e) as H.
    destruct (read_validators now e) as [all e1]. cbn [snd] in H. eapply evolves_trans; [exact H|].
    apply (evolves_heartbeat ids trusted Hids). intros Q P HE s _. rewrite checkLiveness_eq. apply silent_moves, idleness_silent.
  - unfold on_heartbeat_tick. pose proof (evolves_read ids trusted Hids now e) as H.
    destruct (read_validators now e) as [all e1]. cbn [snd] in H. eapply evolves_trans; [exact H|].
    apply (evolves_heartbeat ids trusted Hids). intros Q P HE s _. apply silent_moves, sendHeartbeat_silent.
  - apply handles_pacemaker. intros Q P pm _ _. apply silent_moves, TriggerViewChange_silent.
  - unfold Engine_RecoverProposalWindow.
    assert (H : handles (run_hotstuff now (fun _ _ => RecoverProposalWindow now)))
      by (apply handles_hotstuff; intros VS N hs pm own _; apply cs_recover).
    specialize (H e). destruct (run_hotstuff now _ e) as [[r|err] e1]; cbn [snd] in *; [|exact H].
    eapply evolves_trans; [exact H|apply evolves_SyncPacemaker].
  - apply handles_submit.
  - by apply evolves_same.
Qed.

Lemma handles_calls cs e : Forall (call_ok trusted) cs -> evolves e (run_engine cs e).
Proof.
  intros Hcs. revert e. induction Hcs as [|c cs Hc _ IH]; intros e; [apply evolves_refl|].
  cbn. eapply evolves_trans; [by apply handles_call|apply IH].
Qed.
End calls.
