(* ===== verification/EngineSafety.v ===== *)
(** What the engine guarantees over runs, whatever messages, timers and requests
    drive it; and what an adversary can make it do. *)
From S2P Require Import Prelude Bytes Sha256 GoTime GoFloat Messages Interfaces Encoder Validation Quorum.
From S2P Require Import ConsensusStorage HotStuff HotStuffInv Validators Rotation Pacemaker Wire Heartbeat.
From S2P Require Import Activation Engine EngineInv EngineRuns.

(** ** Views *)

Section views.
Context {CS : CryptoService} {C : LRU bytes bool} {B : StorageBackend} {M : Marshallers} {D : Codecs} {EE : EngineEnv}.
Context (ids : list ValidatorID) (trusted : IQC -> Prop).
Notation core_step := (core_step ids trusted).

Lemma AdvanceView_view v q hs :
  currentView (AdvanceView v q hs).2 = if match (AdvanceView v q hs).1 with Ok _ => true | Err _ => false end
                                       then v else currentView hs.
Proof. unfold AdvanceView. repeat (case_match; simplify_eq/=); done. Qed.

Lemma proposal_effect_view p hs hs' : proposal_effect p hs hs' -> currentView hs' = currentView hs.
Proof. intros [H|[_ H]]; [by apply q_view|by eapply vb_view]. Qed.

Lemma quietly_recover now : quietly (RecoverProposalWindow now).
Proof.
  unfold RecoverProposalWindow. apply quietly_bind; [apply quietly_on_storage|intros r].
  apply quietly_bind; [apply quietly_gets|intros target]. apply quietly_bind; [|intros _; apply quietly_ret].
  apply quietly_modify. intros hs. case_match; by constructor.
Qed.

(** A step of the pacemaker and the view change it asked for. *)
Lemma moves_cases (hs : HotStuff) (Q : IQC -> Prop) pm pm' :
  moves (Env := pacemaker_view hs) Q is_view pm pm' -> pm_certs Q pm ->
  pm_certs Q pm' /\
  ((calls_of (news (pm_events pm) (pm_events pm')) = [] /\ pm_currentView pm' = pm_currentView pm) \/
   exists v q, calls_of (news (pm_events pm) (pm_events pm')) = [(v, q)] /\ is_view v /\ cert_ok Q q /\
     pm_currentView pm' = if match (AdvanceView v q hs).1 with Ok _ => true | Err _ => false end
                          then v else pm_currentView pm).
Proof.
  intros Hm Hc. destruct (Hm Hc) as (Hc' & evs & -> & Hcalls). split; [done|]. rewrite news_app.
  assert (Hrev : calls_of (rev evs) = rev (calls_of evs)).
  { clear. induction evs as [|ev evs IH]; [done|]. cbn [rev]. rewrite calls_app, IH. unfold calls_of. cbn.
    by destruct (call_of ev); rewrite ?app_nil_r. }
  rewrite Hrev. destruct Hcalls as [[-> Hv]|(v & q & -> & HV & Hq & Hv)]; [by left|]. right. exists v, q. by split_and!.
Qed.

Definition agree (s : cstate) : Prop := pm_currentView s.1.2 = currentView s.1.1.

Lemma agree_step s s' : core_step s s' -> agree s -> agree s'.
Proof.
  unfold agree. intros Hstep Hs. destruct Hstep as [hs pm own v _|now q hs pm own _|VS N now ea p hs pm own _ _|VS N now ea v hs pm own _ _
    |now hs pm own|VS N now ea blk r hs pm own x hs' _ _ Hrun|hs pm own pm' Hm|now hs pm own]; cbn in *.
  - done.
  - done.
  - by rewrite (proposal_effect_view _ _ _ (OnProposal_effect now ea p hs)).
  - by rewrite (q_view _ _ (quietly_OnVote now ea v hs)).
  - by rewrite (q_view _ _ (quietly_recover now hs)).
  - pose proof (q_view _ _ (quietly_create_attempt now ea blk r hs)) as H. rewrite Hrun in H. cbn in H. congruence.
  - assert (Hall : pm_certs (fun _ => True) pm) by (constructor; [by intros q _|by intros v id vc _ q _]).
    destruct (moves_cases hs _ pm pm' (Hm (fun _ => True) (fun _ _ => I) (fun _ _ => I)) Hall)
      as (_ & [[-> Hv]|(v & q & -> & _ & _ & Hv)]); [by rewrite Hv|].
    cbn. rewrite Hv, AdvanceView_view. by destruct (AdvanceView v q hs).1.
  - unfold adopt. rewrite <- Hs.
    assert (H1 : forall v pm, pm_currentView (SetCurrentHeight v pm) = pm_currentView pm)
      by (intros v pm0; unfold SetCurrentHeight; by destruct (_ <? _)).
    assert (H2 : forall q pm, pm_currentView (SetHighestQC q pm) = pm_currentView pm)
      by (intros q pm0; unfold SetHighestQC; by destruct (newer _ _)).
    assert (H3 : forall pm0, pm_currentView pm0 = pm_currentView pm ->
      pm_currentView (SetCurrentView now (pm_currentView pm) pm0) = pm_currentView pm)
      by (intros pm0 H0; unfold SetCurrentView; rewrite H0, Z.leb_refl; exact H0).
    destruct (lockedQC hs); rewrite ?H2; apply H3, H1.
Qed.

Lemma steps_ind (P : cstate -> Prop) s s' :
  (forall s s', core_step s s' -> P s -> P s') -> rtc core_step s s' -> P s -> P s'.
Proof. intros Hstep. induction 1; [done|]. intros Hs. eauto. Qed.

(** *** Votes *)

Lemma vote_inv_step s s' : core_step s s' -> vote_inv s.1.1 -> vote_inv s'.1.1.
Proof.
  intros Hstep Hs. destruct Hstep as [hs pm own v _|now q hs pm own _|VS N now ea p hs pm own _ _|VS N now ea v hs pm own _ _
    |now hs pm own|VS N now ea blk r hs pm own x hs' _ _ Hrun|hs pm own pm' Hm|now hs pm own]; cbn in *.
  - by eapply vote_inv_quiet; [|exact Hs].
  - by eapply vote_inv_quiet; [|exact Hs].
  - by eapply vote_inv_proposal; [apply OnProposal_effect|].
  - by eapply vote_inv_quiet; [apply quietly_OnVote|].
  - by eapply vote_inv_quiet; [apply quietly_recover|].
  - eapply vote_inv_quiet; [|exact Hs]. pose proof (quietly_create_attempt now ea blk r hs) as H. by rewrite Hrun in H.
  - assert (Hall : pm_certs (fun _ => True) pm) by (constructor; [by intros q _|by intros v id vc _ q _]).
    destruct (moves_cases hs _ pm pm' (Hm (fun _ => True) (fun _ _ => I) (fun _ _ => I)) Hall)
      as (_ & [[-> _]|(v & q & -> & Hv & _)]); [done|]. cbn. by apply vote_inv_advance.
  - done.
Qed.
End views.

(** ** What a cache entry stands for *)

(** The bytes of a vote with its round set to 0; the adapter validates certificates in this
    form. *)
Definition round_offset : nat := length (Domain TypeVote) + 17.
Definition cleared (b : bytes) : bytes :=
  if (length b <? round_offset + 8)%nat then b else take round_offset b ++ be_put 8 0 ++ drop (round_offset + 8) b.

Lemma cleared_length b : length (cleared b) = length b.
Proof.
  unfold cleared. destruct (Nat.ltb_spec (length b) (round_offset + 8)); [done|].
  rewrite !length_app, length_take, length_drop, length_be_put. lia.
Qed.

Lemma cleared_idem b : cleared (cleared b) = cleared b.
Proof.
  unfold cleared at 1. rewrite cleared_length. unfold cleared. destruct (Nat.ltb_spec (length b) (round_offset + 8)); [done|].
  rewrite take_app_le, take_take, Nat.min_id by (rewrite length_take; lia). do 2 f_equal.
  rewrite drop_app_ge by (rewrite length_take; lia). rewrite length_take, Nat.min_l by lia.
  rewrite drop_app_ge by (rewrite length_be_put; lia). rewrite length_be_put.
  by replace (round_offset + 8 - round_offset - 8)%nat with 0%nat by lia.
Qed.

Lemma cleared_vote qc id ts : cleared (buildVoteSignBytesFromQC qc id ts) = buildVoteSignBytesFromQC (round0 qc) id ts.
Proof.
  set (pre := Domain TypeVote ++ [x00] ++ appendUint64 (q_View qc) ++ appendUint64 (q_Height qc)).
  set (post := q_BlockHash qc ++ id ++ appendInt64 (UnixNano ts)).
  assert (Hpre : length pre = round_offset) by (unfold pre, round_offset, appendUint64; rewrite !length_app, !length_be_put; cbn [length]; lia).
  assert (Hb : forall r, Domain TypeVote ++ [x00] ++ appendUint64 (q_View qc) ++ appendUint64 (q_Height qc) ++ appendUint64 r ++ post =
    pre ++ appendUint64 r ++ post) by (intros r; unfold pre; by rewrite <- !app_assoc).
  unfold buildVoteSignBytesFromQC, round0. cbn [q_View q_Height q_Round q_BlockHash]. fold post. rewrite !Hb.
  unfold cleared. rewrite (proj2 (Nat.ltb_ge _ _)) by (unfold appendUint64; rewrite !length_app, length_be_put; lia).
  rewrite take_app_length' by done. unfold appendUint64. by do 2 f_equal.
Qed.

(** A service under which a vote counts as signed in every round once it is signed in
    round 0. *)
Class RoundBlind `{CryptoLaws} := signed_cleared id b : signed id (cleared b) -> signed id b.

Definition attested `{CryptoLaws} (id : ValidatorID) (b : bytes) : Prop := signed id b \/ signed id (cleared b).

(** The same keys and the same service, read that way. *)
Definition blind_laws {CS : CryptoService} (CL : @CryptoLaws CS) : @CryptoLaws CS.
Proof.
  refine {| crypto_ok := crypto_ok; key_of := key_of; signed := attested |}.
  - exact GetPublicKey_key.
  - intros now c id pk data sig old Hc Hk Hv. left. by eapply Verify_signed.
  - exact Verify_ok.
Defined.

Lemma blind_laws_blind {CS : CryptoService} (CL : @CryptoLaws CS) : @RoundBlind CS (blind_laws CL).
Proof. intros id b [Hs|Hs]; [by right|]. rewrite cleared_idem in Hs. by right. Qed.

(** Read in either way a certificate in the adapter's form is the same. *)
Lemma blind_qc_valid {CS : CryptoService} (CL : @CryptoLaws CS) (VS : ValidatorSet) ea qc :
  qc_valid (CL := blind_laws CL) ea (round0 qc) <-> qc_valid (CL := CL) ea (round0 qc).
Proof.
  split; intros [H1 H2 H3]; constructor; try done; (eapply Forall_impl; [exact H3|]); intros s; unfold sig_genuine;
    change (@signed CS (blind_laws CL)) with (@attested CS CL).
  - intros [Hs|Hs]; [done|]. by rewrite cleared_vote in Hs.
  - by left.
Qed.

(** ** Certificates *)

Section certificates.
Context {CS : CryptoService} {CL : @CryptoLaws CS} {C : LRU bytes bool} {LL : @LRULaws bytes bool C}
        {B : StorageBackend} {M : Marshallers} {D : Codecs} {DL : @CodecsLaws D} {TC : TypedCodecs} {EE : EngineEnv}.
Context (ids : list ValidatorID).

(** The configured validators, for reading invariants. *)
Definition configured : ValidatorSet := list_validators ids.

Lemma configured_same : same_set ids configured.
Proof. split; [intros id; apply bool_decide_eq_true|done]. Qed.

Lemma good_same VS VS' q : same_set ids VS -> same_set ids VS' -> good (VS := VS) q -> good (VS := VS') q.
Proof.
  intros [H1 H2] [H3 H4] [Hw [[Hnd Hval _] Hq Hg]]. split; [exact Hw|]. constructor; [|by rewrite H4, <- H2|exact Hg].
  constructor; [exact Hnd| |done]. eapply Forall_impl; [exact Hval|]. intros s Hs. cbn in *. by apply H3, H1.
Qed.

Lemma hs_inv_same VS VS' hs : same_set ids VS -> same_set ids VS' -> hs_inv (VS := VS) hs -> hs_inv (VS := VS') hs.
Proof.
  intros H H' [H1 H2 H3 H4 H5 H6]. constructor; try done.
  - intros q Hq. by apply (good_same VS VS'), H3.
  - intros q Hq. by apply (good_same VS VS'), H4.
  - intros e He. specialize (H5 e He). destruct e; cbn in *; try done; [by apply (good_same VS VS')|].
    destruct H5 as [H5 H7]. split; [by apply (good_same VS VS')|done].
Qed.

Lemma keeps_ValidateEvidence (VS : ValidatorSet) v0 now ev : keeps (val_inv v0) (ValidateEvidence now ev) (fun _ => True).
Proof.
  unfold ValidateEvidence.
  eapply keeps_bind; [by apply (keeps_reject_if _ _ _ (fun _ => True))|intros [] _].
  do 2 (eapply keeps_bind; [by apply (keeps_fail_if _ _ _ (fun _ => True))|intros [] _]).
  do 2 (eapply keeps_bind; [by apply (keeps_reject_if _ _ _ (fun _ => True))|intros [] _]).
  eapply keeps_bind; [by apply (keeps_fail_if _ _ _ (fun _ => True))|intros [] _].
  by apply keeps_Mark.
Qed.

Lemma VerifyAndDecode_ok now data t e : enc_ok e -> enc_ok (VerifyAndDecode now data t e).2.
Proof.
  intros He. unfold VerifyAndDecode.
  assert (H : keeps (enc_inv (Encoder.quorumThreshold e) (enc_config e)) (VerifyAndDecode now data t) (fun _ => True)).
  { unfold VerifyAndDecode. eapply keeps_bind; [by apply (keeps_gets _ _ (fun _ => True))|intros c _].
    eapply keeps_bind; [by apply (keeps_fail_if _ _ _ (fun _ => True))|intros [] _].
    eapply keeps_bind; [apply (keeps_lift _ _ (fun m => decode data t = Ok m)); intros m Hm; exact Hm|intros m Hm].
    eapply keeps_bind; [apply keeps_verifyMessage; by apply (decode_typed _ _ _ Hm)|intros [] _].
    eapply keeps_bind; [by apply (keeps_lift _ _ (fun _ => True))|intros [] _]. by apply keeps_ret. }
  apply (H e (enc_ok_inv e He)).
Qed.

(** The signatures of a good certificate may be cached in whatever round it names. *)
Lemma CacheQCSignatures_ok {RB : RoundBlind} now q e : good (VS := configured) (MessagesQC q) -> enc_ok e -> enc_ok (CacheQCSignatures now (Some q) e).
Proof.
  intros [Hwf [_ _ Hg]] He. unfold CacheQCSignatures. unfold qc_wf in Hwf. unfold qc_genuine in Hg. cbn in Hwf, Hg.
  assert (Hall : Forall (fun s => length (KeyID s) = 32%nat /\
    signed (KeyID s) (buildVoteSignBytesFromQC q (KeyID s) (sig_Timestamp s))) (Signatures q)).
  { rewrite Forall_forall in Hwf, Hg |- *. intros s Hs. split; [by apply Hwf|]. apply signed_cleared. rewrite cleared_vote. by apply Hg. }
  clear Hwf Hg. revert e He. induction Hall as [|s l [Hid Hs] _ IH]; intros e He; [done|]. cbn [foldl]. apply IH.
  destruct (_ =? 0); [done|]. apply (keeps_sig_cache_add _ _ now _ _ Hid Hs e (enc_ok_inv e He)).
Qed.

(** The invariant of the core and the pacemaker together. *)
Record sound (s : cstate) : Prop := {
  snd_core : hs_inv (VS := configured) s.1.1;
  snd_certs : pm_certs (good (VS := configured)) s.1.2;
  snd_own p : p ∈ s.2 -> proposal_wf p }.

Notation core_step := (core_step ids (good (VS := configured))).

Lemma validator_step_ok pm v v' : validator_step ids pm v v' -> enc_ok (val_encoder v) -> enc_ok (val_encoder v').
Proof.
  intros [|now data t|VS now ev _] He; cbn; [done|by apply VerifyAndDecode_ok|].
  apply (inv_encoder v). by apply (keeps_ValidateEvidence VS v now ev), val_inv_refl.
Qed.

Lemma sound_pacemaker hs pm pm' own :
  (forall Q : IQC -> Prop, (forall q, good (VS := configured) q -> Q q) -> (forall q, EvQC q ∈ hs_events hs -> Q q) ->
     moves (Env := pacemaker_view hs) Q is_view pm pm') ->
  sound (hs, pm, own) -> sound (apply_calls (calls_of (news (pm_events pm) (pm_events pm'))) hs, pm', own).
Proof.
  intros Hm [H1 H2 H3]. cbn in *.
  assert (Hev : forall q, EvQC q ∈ hs_events hs -> good (VS := configured) q).
  { intros q Hq. exact (hi_events _ H1 _ Hq). }
  destruct (moves_cases hs _ pm pm' (Hm _ (fun _ H => H) Hev) H2) as (Hc & [[-> _]|(v & q & -> & _ & Hq & _)]);
    constructor; try done.
  cbn. by apply (keeps_AdvanceView (VS := configured) v q Hq hs H1).
Qed.

Lemma sound_adopt now hs pm own : sound (hs, pm, own) -> sound (hs, adopt now hs pm, own).
Proof.
  intros [H1 [C1 C2] H3]. cbn in *. constructor; try done. cbn. unfold adopt.
  assert (Hsame : forall a b, highestQC b = highestQC a -> viewChanges b = viewChanges a ->
    pm_certs (good (VS := configured)) a -> pm_certs (good (VS := configured)) b).
  { intros a b E1 E2 [D1 D2]. constructor; [by rewrite E1|]. intros v id vc. unfold received. rewrite E2. apply D2. }
  assert (Hp : pm_certs (good (VS := configured)) (SetCurrentView now (currentView hs) (SetCurrentHeight (currentHeight hs) pm))).
  { apply (Hsame pm); [| |by constructor]; unfold SetCurrentView, SetCurrentHeight; repeat case_match; done. }
  destruct (lockedQC hs) as [q|] eqn:Hl; [|exact Hp]. destruct Hp as [D1 D2]. unfold SetHighestQC.
  destruct (newer q _); constructor; try done. cbn. intros q' [= <-]. by apply (hi_locked _ H1).
Qed.

Lemma sound_step {RB : RoundBlind} s s' : core_step s s' -> sound s -> sound s'.
Proof.
  intros Hstep Hs.
  destruct Hstep as [hs pm own v Hv|now q hs pm own Hl|VS N now ea p hs pm own HVS Hp|VS N now ea v hs pm own HVS Hv
    |now hs pm own|VS N now ea blk r hs pm own x hs' HVS Hr Hrun|hs pm own pm' Hm|now hs pm own];
    [| | | | | |by apply sound_pacemaker|by apply sound_adopt]; destruct Hs as [H1 H2 H3]; cbn in *.
  - constructor; try done. cbn. destruct H1. constructor; try done. cbn. by eapply validator_step_ok.
  - constructor; try done. cbn. pose proof (hi_locked _ H1 _ Hl) as Hq. destruct H1. constructor; try done. cbn. by apply CacheQCSignatures_ok.
  - constructor; try done. cbn. apply (hs_inv_same VS); [done|apply configured_same|].
    apply (keeps_OnProposal (VS := VS) now ea p); [by destruct Hp; [|apply H3]|].
    by apply (hs_inv_same configured); [apply configured_same|..].
  - constructor; try done. cbn. apply (hs_inv_same VS); [done|apply configured_same|].
    apply (keeps_OnVote (VS := VS) now ea v Hv). by apply (hs_inv_same configured); [apply configured_same|..].
  - constructor; try done. cbn. by apply (keeps_RecoverProposalWindow (VS := configured) now).
  - assert (Hwf : forall q, pm_highestQC r = Some q -> qc_wf (iqc q)) by (intros q Hq; rewrite Hr in Hq; by apply (pc_highest _ _ H2)).
    assert (H1' : hs_inv (VS := VS) hs) by (by apply (hs_inv_same configured); [apply configured_same|..]).
    destruct (keeps_create_attempt (VS := VS) now ea blk r Hwf hs H1') as [H4 H5]. rewrite Hrun in H4, H5. cbn in H4, H5.
    constructor; cbn; [by apply (hs_inv_same VS); [|apply configured_same|]|done|].
    destruct x as [[p|]|e]; [|done..]. intros p' [->|Hin]%elem_of_cons; [|by apply H3].
    destruct (H5 _ eq_refl _ eq_refl) as (_ & _ & _ & _ & Hb & Hh & _ & Hj). split.
    + intros blk' Hb'. rewrite Hb in Hb'. injection Hb' as <-. by rewrite Hh.
    + intros qc Hqc. by destruct (Hj qc Hqc) as (_ & _ & _ & ?).
Qed.
End certificates.
