(* ===== verification/EngineDemo.v ===== *)
(** A concrete engine for the witnesses: four validators, signatures and encodings
    looked up in tables, and the messages of two views. *)
From S2P Require Import Prelude Bytes Sha256 GoTime GoFloat Codec Messages Block Interfaces Encoder Validation Quorum.
From S2P Require Import ConsensusStorage HotStuff HotStuffInv HotStuffRuns Validators Rotation Pacemaker Wire.
From S2P Require Import Heartbeat Activation Engine EngineInv EngineRuns.

Import Codec.

(** ** Encodings by table *)

(** The encoding of a message is its index. *)
Definition entry (msgs : list Message) (data : bytes) : option Message :=
  match data with [b] => msgs !! Z.to_nat (byte_val b) | _ => None end.
(** Blocks without transactions. *)
Definition empty_block (height : Z) (parent : BlockHash) (proposer : ValidatorID) (ts : Time) : Block :=
  as_block (NewAppBlock height parent (HashBytes []) zero32 proposer ts []).
Definition empty_payload (proposer : ValidatorID) (b : Block) : AppBlockPayload :=
  MkBlockPayload (GetHeight b) (GetParentHash b) (HashBytes []) zero32 proposer (blk_Timestamp b) [].
Definition to_wire (p : Proposal) : proposalWire :=
  MkProposalWire (p_View p) (p_Height p) (p_Round p) (p_BlockHash p) (ParentHash p) (ProposerID p) (p_Timestamp p)
    (JustifyQC p) (empty_payload (ProposerID p) <$> p_Block p) (p_Signature p).

Definition table_codecs (msgs : list Message) : Codecs :=
  let e := entry msgs in {|
  Unmarshal_Proposal data := match e data with Some (MProposal p) => Some (to_wire p) | _ => None end;
  Unmarshal_Vote data := match e data with Some (MVote m) => Some m | _ => None end;
  Unmarshal_QC data := match e data with Some (MQC m) => Some m | _ => None end;
  Unmarshal_ViewChange data := match e data with Some (MViewChange m) => Some m | _ => None end;
  Unmarshal_NewView data := match e data with Some (MNewView m) => Some m | _ => None end;
  Unmarshal_Heartbeat data := match e data with Some (MHeartbeat m) => Some m | _ => None end;
  Unmarshal_Evidence data := match e data with Some (MEvidence m) => Some m | _ => None end;
  Unmarshal_GenesisReady data := match e data with Some (MGenesisReady m) => Some m | _ => None end;
  Unmarshal_GenesisCertificate data := match e data with Some (MGenesisCertificate m) => Some m | _ => None end;
  Unmarshal_ProposalIntent data := match e data with Some (MProposalIntent m) => Some m | _ => None end;
  Unmarshal_ReadyToVote data := match e data with Some (MReadyToVote m) => Some m | _ => None end |}.

Lemma entry_typed msgs data m : Forall typed msgs -> entry msgs data = Some m -> typed m.
Proof.
  intros H. unfold entry. destruct data as [|b [|]]; [done| |done]. intros Hm. by eapply Forall_lookup_1.
Qed.

Lemma table_typed msgs : Forall typed msgs -> @TypedCodecs (table_codecs msgs).
Proof.
  intros H. constructor. intros data t m Hd.
  destruct t; cbn in Hd; unfold unmarshalled in Hd; destruct (entry msgs data) as [m'|] eqn:He; try done;
    apply (entry_typed msgs data m' H) in He; destruct m'; try done; try (by injection Hd as <-).
  match goal with p : Proposal |- _ => unfold toProposal, to_wire in Hd; cbn in Hd; destruct (p_Block p) end;
    [|by injection Hd as <-].
  cbn in Hd. destruct (decode_block _); [|done]. case_bool_decide; [|done]. by injection Hd as <-.
Qed.

Lemma table_vote_wf msgs : Forall typed msgs -> @CodecsLaws (table_codecs msgs).
Proof.
  intros H. constructor. intros data v. cbn. destruct (entry msgs data) as [m'|] eqn:He; [|done].
  apply (entry_typed msgs data m' H) in He. destruct m'; try done. intros [= <-]. apply He.
Qed.

(** ** Signatures by table *)

(** The signers' entries, each over the bytes its message is verified against. *)
Definition signatures_of (msgs : list Message) : list (bytes * bytes) :=
  (fun m => ((extractSignature m).2, getSignBytes m)) <$> msgs.

Definition vote_prefix : bytes := Domain TypeVote ++ [x00].
Definition vote_view (b : bytes) : bytes := take 8 (drop (length vote_prefix) b).
Definition same_vote (e1 e2 : bytes * bytes) : bool :=
  negb (bool_decide (e1.1 = e2.1)) || negb (bool_decide (take (length vote_prefix) e1.2 = vote_prefix))
  || negb (bool_decide (take (length vote_prefix) e2.2 = vote_prefix))
  || negb (bool_decide (vote_view e1.2 = vote_view e2.2)) || bool_decide (e1.2 = e2.2).

Lemma vote_prefix_bytes v :
  take (length vote_prefix) (Vote_SignBytes v) = vote_prefix /\ vote_view (Vote_SignBytes v) = be_put 8 (v_View v).
Proof.
  assert (H : exists rest, Vote_SignBytes v = vote_prefix ++ be_put 8 (v_View v) ++ rest).
  { unfold Vote_SignBytes, vote_prefix, appendUint64. eexists. rewrite <- !app_assoc. reflexivity. }
  destruct H as [rest ->]. unfold vote_view. rewrite take_app_length, drop_app_length. split; [done|].
  apply take_app_length'. by rewrite length_be_put.
Qed.

(** In a table whose vote entries by one signer differ in view, everybody votes once
    per view. *)
Lemma same_vote_once tbl :
  forallb (fun e1 => forallb (same_vote e1) tbl) tbl = true -> @votes_once _ (table_laws tbl) (fun _ => True).
Proof.
  intros Hall id v1 v2 _ Hid1 Hid2 Hin1 Hin2 Hview.
  rewrite forallb_forall in Hall. specialize (Hall _ (proj1 (list_elem_of_In _ _) Hin1)).
  rewrite forallb_forall in Hall. specialize (Hall _ (proj1 (list_elem_of_In _ _) Hin2)).
  unfold same_vote in Hall. cbn [fst snd] in Hall.
  destruct (vote_prefix_bytes v1) as [P1 V1], (vote_prefix_bytes v2) as [P2 V2].
  rewrite P1, P2, V1, V2, Hview, !bool_decide_eq_true_2 in Hall by done. cbn [negb orb] in Hall.
  apply bool_decide_eq_true in Hall. apply Vote_SignBytes_BlockHash; [congruence|exact Hall].
Qed.

(** ** Nodes *)

Definition demo_engine_env (n : Z) : EngineEnv := {|
  NodeID := demo_id n; NodeID_length := length_be_put 32 n; NodeSign _ _ := Some [x01];
  block_check := None; encode_vote := Vote_SignBytes;
  vote_order _ := map_to_list; vote_order_perm _ m := reflexivity _;
  qc_order := map_to_list; qc_order_perm m := reflexivity _;
  vc_order := map_to_list; vc_order_perm m := reflexivity _;
  delivers _ := true; enforce_active := true; rotation_base := demo_rotation; enable_proposing := true |}.

Definition demo_ids : list ValidatorID := vi_ID <$> demo_infos.

Section demo.
Context {CS : CryptoService} (cs : crypto).

Definition demo_core (view : Z) : @HotStuff CS map_LRU null_backend :=
  set_view view (NewHotStuff DefaultHotStuffConfig
    (MkValidator DefaultValidationConfig
      (SetValidatorSet (list_validators demo_ids) (@NewEncoder CS map_LRU cs DefaultEncoderConfig)) 0 0 ∅ None)
    (NewStorage None DefaultStorageConfig)).

(** A started engine in a view, at the first height. *)
Definition demo_engine (view : Z) : @Engine CS map_LRU null_backend :=
  MkEngine true true true (demo_core view)
    (SetCurrentHeight 1 (SetCurrentView demo_clock view (NewPacemaker None)))
    (NewHeartbeatManager demo_clock None) (newValidatorSet demo_infos 0) no_readiness no_leader_handshake
    no_follower_handshake 0 ∅ true [].

Lemma demo_core_inv {CL : @CryptoLaws CS} view : crypto_ok cs -> hs_inv (VS := list_validators demo_ids) (demo_core view).
Proof.
  intros Hcs.
  assert (Henc : enc_ok (SetValidatorSet (list_validators demo_ids) (@NewEncoder CS map_LRU cs DefaultEncoderConfig)))
    by (constructor; [exact Hcs| |]; intros k Hk; cbn in Hk; by rewrite lookup_empty in Hk).
  constructor; [exact Henc|by constructor|done|done|by intros e He%elem_of_nil|].
  intros key bucket Hk. discriminate Hk.
Qed.

Lemma demo_members_ok view : members_ok demo_ids (demo_engine view).
Proof. apply newValidatorSet_inv, demo_infos_NoDup. Qed.
End demo.

(** ** Two views: the messages that commit the first block *)

Definition eng_block : Block := empty_block 1 zeroID (demo_id 1) demo_clock.
Definition eng_hash : BlockHash := Eval vm_compute in GetHash eng_block.
Definition eng_child : Block := empty_block 2 eng_hash (demo_id 2) demo_clock.
Definition eng_child_hash : BlockHash := Eval vm_compute in GetHash eng_child.
Definition eng_vote (view height : Z) (h : BlockHash) (i : Z) : Vote :=
  MkVote view height 0 h (demo_id i) (time_Unix 1700000000) (demo_sig i).

Definition eng_qc : QC := MkQC 104 1 0 eng_hash (demo_sig <$> [1; 2; 3]) demo_clock (demo_id 4).
Definition eng_proposal_A : Proposal :=
  MkProposal 104 1 0 eng_hash zeroID (demo_id 1) demo_clock None (Some eng_block) (demo_sig 1).
Definition eng_proposal_B : Proposal :=
  MkProposal 105 2 0 eng_child_hash eng_hash (demo_id 2) demo_clock (Some eng_qc) (Some eng_child) (demo_sig 2).
Definition eng_messages : list Message :=
  MProposal eng_proposal_A :: ((fun i => MVote (eng_vote 104 1 eng_hash i)) <$> [1; 2; 3]) ++
  MProposal eng_proposal_B :: ((fun i => MVote (eng_vote 105 2 eng_child_hash i)) <$> [1; 2; 3]).
Definition eng_table : list (bytes * bytes) := signatures_of eng_messages.
Definition eng_crypto : CryptoService := table_crypto eng_table.
Definition eng_laws : @CryptoLaws eng_crypto := table_laws eng_table.
Definition eng_codecs : Codecs := table_codecs eng_messages.

Definition no_wait : activation :=
  MkActivationInput (MkActivationConfig Second 0 false) waiting_turns 0.
Definition eng_receive (i : Z) (t : MessageType) : engine_call := CMessage no_wait demo_clock true t (be_put 1 i).
