(* ===== verification/EngineProps.v ===== *)
(** What the engine guarantees over runs, whatever messages, timers and requests
    drive it. *)
From S2P Require Import Prelude Bytes Sha256 GoTime GoFloat Messages Interfaces Encoder Validation Quorum.
From S2P Require Import ConsensusStorage HotStuff HotStuffInv HotStuffRuns Validators Rotation Pacemaker Wire.
From S2P Require Import Heartbeat Activation Engine EngineInv EngineRuns EngineSafety EngineDemo.

(** ** Runs as steps *)

Section runs.
Context {CS : CryptoService} {C : LRU bytes bool} {B : StorageBackend} {M : Marshallers} {D : Codecs} {TC : TypedCodecs}
        {EE : EngineEnv}.
Context (ids : list ValidatorID) (Hids : NoDup ids).

Lemma run_steps trusted cs e :
  Forall (call_ok trusted) cs -> members_ok ids e -> exists own,
    rtc (core_step ids trusted) (hotstuff e, pacemaker e, []) (hotstuff (run_engine cs e), pacemaker (run_engine cs e), own).
Proof. intros Hcs He. exact (proj2 (handles_calls ids Hids trusted cs e Hcs He) []). Qed.

Lemma any_call_ok c : call_ok (fun _ => True) c.
Proof. by destruct c. Qed.
Lemma any_calls_ok cs : Forall (call_ok (fun _ => True)) cs.
Proof. apply Forall_true. intros c. apply any_call_ok. Qed.
End runs.

(** C4. The engine refines two machines. Over every run of messages, timer firings and
    requests, the HotStuff core and the pacemaker move only by the steps of
    [core_step]: the core takes proposals that were received or made by the node and
    votes that were received, enters the views the pacemaker enters, and nothing
    else; the pacemaker takes the certificates of messages, those the core formed
    and the core's lock. The validator set keeps the configured members. *)
Theorem engine_refines_core {CS : CryptoService} {C : LRU bytes bool} {B : StorageBackend} {M : Marshallers} {D : Codecs}
    {TC : TypedCodecs} {EE : EngineEnv} (ids : list ValidatorID) (trusted : IQC -> Prop)
    (cs : list engine_call) (e : Engine) (own : list Proposal)
    (Hids : NoDup ids) (Hcalls : Forall (call_ok trusted) cs) (Hmembers : members_ok ids e) :
  members_ok ids (run_engine cs e) /\
  exists own', rtc (core_step ids trusted) (hotstuff e, pacemaker e, own)
    (hotstuff (run_engine cs e), pacemaker (run_engine cs e), own').
Proof.
  destruct (handles_calls ids Hids trusted cs e Hcalls Hmembers) as [H1 H2]. split; [exact H1|]. exact (H2 own).
Qed.

(** Handlers that run one after the other keep the pacemaker and the core in the same
    view: a view the core refuses is given back by the pacemaker. *)
Theorem views_agree {CS : CryptoService} {C : LRU bytes bool} {B : StorageBackend} {M : Marshallers} {D : Codecs}
    {TC : TypedCodecs} {EE : EngineEnv} (ids : list ValidatorID) (cs : list engine_call) (e : Engine)
    (Hids : NoDup ids) (Hmembers : members_ok ids e) (Hagree : pm_currentView (pacemaker e) = currentView (hotstuff e)) :
  pm_currentView (pacemaker (run_engine cs e)) = currentView (hotstuff (run_engine cs e)).
Proof.
  destruct (run_steps ids Hids _ cs e (any_calls_ok cs) Hmembers) as [own H].
  exact (steps_ind _ _ agree _ _ (agree_step ids (fun _ => True)) H Hagree).
Qed.

(** C5. Whatever an engine receives, it never sends votes for two blocks in one view, for
    views at most 100 behind the current one and once that view has reached 100. *)
Theorem engine_votes_once {CS : CryptoService} {C : LRU bytes bool} {B : StorageBackend} {M : Marshallers} {D : Codecs}
    {TC : TypedCodecs} {EE : EngineEnv} (ids : list ValidatorID) (cs : list engine_call) (e : Engine) (v w : Vote)
    (Hids : NoDup ids) (Hmembers : members_ok ids e) (Hinv : vote_inv (hotstuff e))
    (Hv : v ∈ sent_votes (hotstuff (run_engine cs e))) (Hw : w ∈ sent_votes (hotstuff (run_engine cs e)))
    (Hfresh : fresh_view (hotstuff (run_engine cs e)) (v_View v)) (Hview : v_View v = v_View w) :
  v_BlockHash v = v_BlockHash w.
Proof.
  destruct (run_steps ids Hids _ cs e (any_calls_ok cs) Hmembers) as [own H].
  destruct (steps_ind _ _ (fun s => vote_inv s.1.1) _ _ (vote_inv_step ids (fun _ => True)) H Hinv) as [_ Hs].
  pose proof (Hs v Hv Hfresh) as H1. rewrite Hview in Hfresh. pose proof (Hs w Hw Hfresh) as H2. congruence.
Qed.

(** *** Certificates *)

Section certified.
Context {CS : CryptoService} {CL : @CryptoLaws CS} {C : LRU bytes bool} {LL : @LRULaws bytes bool C}
        {B : StorageBackend} {M : Marshallers} {D : Codecs} {DL : @CodecsLaws D} {TC : TypedCodecs} {EE : EngineEnv}.
Context (ids : list ValidatorID).

Definition genuine (q : IQC) : Prop := good (VS := configured ids) q.

Notation blind := (blind_laws CL).

Lemma good_blind q : good (VS := configured ids) q <-> good (CL := blind) (VS := configured ids) q.
Proof. unfold good. by rewrite blind_qc_valid. Qed.

Lemma sound_blind s : sound ids s -> sound (CL := blind) ids s.
Proof.
  intros [[[H1 H2 H3] H4 H5 H6 H7 H8] [C1 C2] H9]. constructor; [constructor|constructor|exact H9]; try done.
  - constructor; [exact H1|intros k Hk; destruct (H2 k Hk) as (b & id & ? & ? & ?)|intros k Hk; destruct (H3 k Hk) as (b & id & ? & ? & ?)];
      exists b, id; by split_and!; [..|left].
  - intros q Hq. by apply good_blind, H5.
  - intros q Hq. by apply good_blind, H6.
  - intros e He. specialize (H7 e He). destruct e; cbn in *; try done; [by apply good_blind|by rewrite <- good_blind].
  - intros q Hq. by apply good_blind, C1.
  - intros v id vc Hvc q Hq. by apply good_blind, (C2 v id vc Hvc).
Qed.

(** A lock may be cached in another round than the one that was validated, so the invariant
    is kept in the reading that does not tell rounds apart. *)
Lemma sound_run cs e :
  NoDup ids -> members_ok ids e -> sound ids (hotstuff e, pacemaker e, []) -> Forall (call_ok genuine) cs ->
  exists own, sound (CL := blind) ids (hotstuff (run_engine cs e), pacemaker (run_engine cs e), own).
Proof.
  intros Hids He Hs Hcs. apply sound_blind in Hs.
  assert (Hcs' : Forall (call_ok (good (CL := blind) (VS := configured ids))) cs).
  { eapply Forall_impl; [exact Hcs|]. intros [] Hc; try done. intros m q Hm Hq. apply good_blind. by eapply Hc. }
  destruct (run_steps ids Hids _ cs e Hcs' He) as [own H]. exists own. pose proof (blind_laws_blind CL) as RB.
  exact (steps_ind _ _ (sound (CL := blind) ids) _ _ (sound_step (CL := blind) ids) H Hs).
Qed.

Lemma committed_valid cs e b q :
  NoDup ids -> members_ok ids e -> sound ids (hotstuff e, pacemaker e, []) -> Forall (call_ok genuine) cs ->
  EvCommit b q ∈ hs_events (hotstuff (run_engine cs e)) ->
  qc_valid (VS := configured ids) false (round0 (iqc q)) /\ GetHash b = q_BlockHash (iqc q).
Proof.
  intros Hids He Hs Hcs Hin. destruct (sound_run cs e Hids He Hs Hcs) as [own [H _ _]].
  destruct (hi_events _ H _ Hin) as [[_ Hg] Hh]. split; [by apply (blind_qc_valid CL)|done].
Qed.
End certified.

(** C3. Whatever an engine of a sound state goes through (any messages, timers, callbacks
    and requests, those that recover the proposal window or bring genesis certificates
    included), as long as the certificates inside view changes and new-views are genuine
    (nothing in the engine checks them: see [forged_certificate_accepted]): every
    certificate it locks on, forms, commits with, or holds in its pacemaker is a valid
    quorum certificate of the configured validators, signed for round 0 as the code checks
    it, and every block committed is the one its certificate names. *)
Theorem engine_certificates {CS : CryptoService} {CL : @CryptoLaws CS} {C : LRU bytes bool} {LL : @LRULaws bytes bool C}
    {B : StorageBackend} {M : Marshallers} {D : Codecs} {DL : @CodecsLaws D} {TC : TypedCodecs} {EE : EngineEnv}
    (ids : list ValidatorID) (cs : list engine_call) (e : Engine)
    (Hids : NoDup ids) (Hmembers : members_ok ids e) (Hsound : sound ids (hotstuff e, pacemaker e, []))
    (Hcalls : Forall (call_ok (genuine ids)) cs) :
  let valid q := qc_valid (VS := configured ids) false (round0 (iqc q)) in
  let e' := run_engine cs e in
  (forall q, lockedQC (hotstuff e') = Some q -> valid q) /\
  (forall q, EvQC q ∈ hs_events (hotstuff e') -> valid q) /\
  (forall q, highestQC (pacemaker e') = Some q -> valid q) /\
  (forall b q, EvCommit b q ∈ hs_events (hotstuff e') -> valid q /\ GetHash b = q_BlockHash (iqc q)).
Proof.
  destruct (sound_run ids cs e Hids Hmembers Hsound Hcalls) as [own [H1 H2 _]]. cbn zeta. split_and!.
  - intros q Hq. apply (blind_qc_valid CL). exact (proj2 (hi_locked _ H1 q Hq)).
  - intros q Hq. apply (blind_qc_valid CL). exact (proj2 (hi_events _ H1 _ Hq)).
  - intros q Hq. apply (blind_qc_valid CL). exact (proj2 (pc_highest _ _ H2 q Hq)).
  - intros b q. by apply committed_valid.
Qed.

(** C1. Agreement of two engines of the same [3f+1] validators, each from a sound state of
    its own and with its own timers, orders and network. At most [f] validators are faulty,
    the others sign at most one block per view, and signatures are unforgeable. Whatever
    messages, timers and requests the engines go through, those that recover the proposal
    window or bring genesis certificates included, as long as the certificates inside view
    changes and new-views are genuine: blocks they commit on certificates of the same view
    are the same block. *)
Theorem engine_commit_agreement {CS : CryptoService} {CL : @CryptoLaws CS} {C : LRU bytes bool} {LL : @LRULaws bytes bool C}
    {B : StorageBackend} {M : Marshallers} {D : Codecs} {DL : @CodecsLaws D} {TC : TypedCodecs} {EE EE' : EngineEnv}
    (ids : list ValidatorID) (honest : ValidatorID -> Prop) (faulty : list ValidatorID)
    (cs cs' : list engine_call) (e e' : Engine) (b b' : Block) (q q' : IQC)
    (Hids : NoDup ids) (Honce : votes_once honest)
    (Hhonest : forall id, id ∈ ids -> honest id \/ id ∈ faulty)
    (Hfaulty : len faulty <= calculateF (len ids)) (Hcount : len ids mod 3 = 1)
    (Hmembers : members_ok ids e) (Hmembers' : members_ok ids e')
    (Hsound : sound ids (hotstuff e, pacemaker e, [])) (Hsound' : sound ids (hotstuff e', pacemaker e', []))
    (Hcalls : Forall (call_ok (genuine ids)) cs) (Hcalls' : Forall (call_ok (genuine ids)) cs')
    (Hcommit : EvCommit b q ∈ hs_events (hotstuff (run_engine (EE := EE) cs e)))
    (Hcommit' : EvCommit b' q' ∈ hs_events (hotstuff (run_engine (EE := EE') cs' e')))
    (Hview : q_View (iqc q) = q_View (iqc q')) :
  GetHash b = GetHash b'.
Proof.
  destruct (committed_valid (EE := EE) ids cs e b q Hids Hmembers Hsound Hcalls Hcommit) as [Hg ->].
  destruct (committed_valid (EE := EE') ids cs' e' b' q' Hids Hmembers' Hsound' Hcalls' Hcommit') as [Hg' ->].
  exact (qc_valid_agree (VS := configured ids) (VL := list_validators_laws ids Hids) honest faulty false false _ _
    Honce Hhonest Hfaulty Hcount Hg Hg' Hview).
Qed.

(** ** Concrete runs *)

#[local] Existing Instance eng_crypto.
#[local] Existing Instance eng_laws.
#[local] Existing Instance eng_codecs.

Lemma eng_messages_typed : Forall typed eng_messages.
Proof.
  repeat (apply Forall_cons; split; [split; [reflexivity|split; [cbn; repeat constructor|exact I]]|]). constructor.
Qed.
#[local] Instance eng_typed : TypedCodecs := table_typed eng_messages eng_messages_typed.
#[local] Instance eng_codecs_laws : CodecsLaws := table_vote_wf eng_messages eng_messages_typed.

(** The two views' messages, a timer firing and the recovery of the proposal window in between. *)
Definition eng_calls : list engine_call :=
  [eng_receive 0 TypeProposal; eng_receive 1 TypeVote; eng_receive 2 TypeVote; eng_receive 3 TypeVote;
   CCheck demo_clock; CRecover demo_clock; eng_receive 4 TypeProposal; eng_receive 5 TypeVote; eng_receive 6 TypeVote; eng_receive 7 TypeVote].
Definition eng_start : Engine := demo_engine (CS := eng_crypto) tt 104.
Abbreviation eng_run n := (run_engine (EE := demo_engine_env n) eng_calls eng_start).

Lemma eng_members_ok : members_ok demo_ids eng_start.
Proof. exact (demo_members_ok (CS := eng_crypto) tt 104). Qed.

Lemma eng_entry data m : entry eng_messages data = Some m -> pacemaker_certs m = [].
Proof.
  unfold entry. destruct data as [|b [|]]; [done| |done]. intros Hm%list_elem_of_lookup_2.
  repeat (apply elem_of_cons in Hm as [->|Hm]; [reflexivity|]). by apply elem_of_nil in Hm.
Qed.

Lemma eng_decode data t m : decode data t = Ok m -> pacemaker_certs m = [].
Proof.
  intros Hd. destruct t; cbn in Hd; unfold unmarshalled in Hd; destruct (entry eng_messages data) as [m'|] eqn:He; try done;
    apply eng_entry in He; destruct m'; try done; try (by injection Hd as <-).
  unfold toProposal in Hd. cbn in Hd. by repeat (case_match; simplify_eq/=).
Qed.

Lemma eng_calls_ok trusted : Forall (call_ok trusted) eng_calls.
Proof.
  apply Forall_forall. intros c Hc. assert (H : forall i t, call_ok trusted (eng_receive i t)).
  { intros i t m q Hm Hq. rewrite (eng_decode _ _ _ Hm) in Hq. by apply elem_of_nil in Hq. }
  repeat (apply elem_of_cons in Hc as [->|Hc]; [first [exact I|apply H]|]). by apply elem_of_nil in Hc.
Qed.

Lemma eng_sound : sound demo_ids (hotstuff eng_start, pacemaker eng_start, []).
Proof.
  constructor; cbn [fst snd].
  - exact (demo_core_inv (CS := eng_crypto) tt 104 I).
  - constructor; [by intros q [=]|]. intros v id vc Hin. cbn in Hin. unfold received in Hin. cbn in Hin.
    rewrite lookup_empty in Hin. cbn in Hin. by rewrite lookup_empty in Hin.
  - by intros p Hp%elem_of_nil.
Qed.

Lemma demo_ids_NoDup : NoDup demo_ids.
Proof. exact demo_infos_NoDup. Qed.

Definition eng_qc_by (n : Z) : QC := MkQC 104 1 0 eng_hash (demo_sig <$> [2; 1; 3]) demo_clock (demo_id n).
Lemma eng_commit4 : EvCommit eng_block (PbftQC (eng_qc_by 4)) ∈ hs_events (hotstuff (eng_run 4)).
Proof. apply event_commit_in. vm_compute. reflexivity. Qed.
Lemma eng_commit3 : EvCommit eng_block (PbftQC (eng_qc_by 3)) ∈ hs_events (hotstuff (eng_run 3)).
Proof. apply event_commit_in. vm_compute. reflexivity. Qed.

(** The events: each of the two views' proposals, votes and certificates, and the
    commit of block 77. *)
Definition event_kind (ev : event) : Z * Z :=
  match ev with
  | EvPacemakerProposal => (0, 0) | EvProposal p => (1, p_View p) | EvVote v => (2, v_View v)
  | EvQC q => (3, q_View (iqc q)) | EvCommit _ q => (4, q_View (iqc q))
  end.

Lemma engine_refines_core_witness :
  event_kind <$> hs_events (hotstuff (eng_run 4)) =
    [(3, 105); (4, 104); (2, 105); (1, 105); (0, 0); (3, 104); (2, 104); (1, 104); (0, 0)] /\
  exists own', rtc (core_step (EE := demo_engine_env 4) demo_ids (fun _ => False)) (hotstuff eng_start, pacemaker eng_start, [])
    (hotstuff (eng_run 4), pacemaker (eng_run 4), own').
Proof.
  split; [vm_compute; reflexivity|].
  exact (proj2 (engine_refines_core (EE := demo_engine_env 4) demo_ids (fun _ => False) eng_calls eng_start []
    demo_ids_NoDup (eng_calls_ok _) eng_members_ok)).
Defined.

Lemma views_agree_witness :
  pm_currentView (pacemaker (eng_run 4)) = 106 /\ currentView (hotstuff (eng_run 4)) = 106.
Proof.
  assert (H : pm_currentView (pacemaker (eng_run 4)) = 106) by (vm_compute; reflexivity). split; [exact H|].
  rewrite <- H. symmetry.
  exact (views_agree (EE := demo_engine_env 4) demo_ids eng_calls eng_start demo_ids_NoDup eng_members_ok eq_refl).
Defined.

Lemma engine_votes_once_witness :
  let votes := sent_votes (hotstuff (eng_run 4)) in
  (v_View <$> votes) = [105; 104] /\
  Forall (fun v => Forall (fun w => v_View v = v_View w -> v_BlockHash v = v_BlockHash w) votes) votes.
Proof.
  cbv zeta. assert (Hviews : (v_View <$> sent_votes (hotstuff (eng_run 4))) = [105; 104]) by (vm_compute; reflexivity).
  assert (Hcur : currentView (hotstuff (eng_run 4)) = 106) by (vm_compute; reflexivity).
  split; [exact Hviews|]. apply Forall_forall. intros v Hv. apply Forall_forall. intros w Hw.
  apply (engine_votes_once (EE := demo_engine_env 4) demo_ids eng_calls eng_start v w demo_ids_NoDup eng_members_ok);
    [|exact Hv|exact Hw|].
  - split; [intros _; vm_compute; split; [discriminate|reflexivity]|]. intros x Hx.
    change (sent_votes (hotstuff eng_start)) with (@nil Vote) in Hx. inversion Hx.
  - right. rewrite Hcur. apply (list_elem_of_fmap_2 v_View) in Hv. rewrite Hviews in Hv.
    apply elem_of_cons in Hv as [->|Hv]; [lia|]. apply list_elem_of_singleton in Hv as ->. lia.
Defined.

Lemma engine_certificates_witness :
  EvCommit eng_block (PbftQC (eng_qc_by 4)) ∈ hs_events (hotstuff (eng_run 4)) /\
  qc_valid (VS := configured demo_ids) false (round0 (eng_qc_by 4)) /\ GetHash eng_block = q_BlockHash (eng_qc_by 4).
Proof.
  split; [exact eng_commit4|].
  destruct (engine_certificates (EE := demo_engine_env 4) demo_ids eng_calls eng_start demo_ids_NoDup eng_members_ok
    eng_sound (eng_calls_ok _)) as (_ & _ & _ & H).
  exact (H eng_block (PbftQC (eng_qc_by 4)) eng_commit4).
Defined.

Lemma engine_commit_agreement_witness :
  EvCommit eng_block (PbftQC (eng_qc_by 4)) ∈ hs_events (hotstuff (eng_run 4)) /\
  EvCommit eng_block (PbftQC (eng_qc_by 3)) ∈ hs_events (hotstuff (eng_run 3)) /\
  GetHash eng_block = GetHash eng_block.
Proof.
  split; [exact eng_commit4|]. split; [exact eng_commit3|].
  refine (engine_commit_agreement (EE := demo_engine_env 4) (EE' := demo_engine_env 3) demo_ids (fun _ => True) []
    eng_calls eng_calls eng_start eng_start eng_block eng_block (PbftQC (eng_qc_by 4)) (PbftQC (eng_qc_by 3))
    demo_ids_NoDup (same_vote_once eng_table _) _ _ _ eng_members_ok eng_members_ok eng_sound eng_sound
    (eng_calls_ok _) (eng_calls_ok _) eng_commit4 eng_commit3 _).
  - vm_compute. reflexivity.
  - intros id _. by left.
  - vm_compute. discriminate.
  - reflexivity.
  - reflexivity.
Defined.
