(* ===== verification/EngineAttacks.v ===== *)
(** What the engine's message handlers let through: nothing between the network and
    the pacemaker checks who signed a view change or what a certificate contains. *)
From S2P Require Import Prelude Bytes Sha256 GoTime GoFloat Messages Interfaces Encoder Validation Quorum.
From S2P Require Import ConsensusStorage HotStuff HotStuffInv HotStuffRuns Validators Rotation Pacemaker Wire.
From S2P Require Import Heartbeat Activation Engine EngineInv EngineRuns EngineSafety EngineDemo.

(** Everything is signed by validator 2. *)
Definition forger_sig : Signature := demo_sig 2.

(** View changes to view 105, in the names of three validators. *)
Definition forged_vc (sender : Z) : ViewChange :=
  MkViewChange 104 105 0 None (demo_id sender) demo_clock forger_sig.

(** A certificate nobody signed, in a new-view that names the leader of view 105. *)
Definition forged_qc : QC := MkQC 104 1 0 (demo_id 99) (demo_sig <$> [1; 2; 3]) demo_clock (demo_id 2).
Definition forged_nv : NewView :=
  MkNewView 105 0 (forged_vc <$> [1; 1; 1]) (Some forged_qc) (demo_id 2) demo_clock forger_sig.

(** A proposal of validator 2 that extends the certified block, which does not exist. *)
Definition forged_block : Block := empty_block 2 (demo_id 99) (demo_id 2) demo_clock.
Definition forged_hash : BlockHash := Eval vm_compute in GetHash forged_block.
Definition forged_child : Proposal :=
  MkProposal 105 2 0 forged_hash (demo_id 99) (demo_id 2) demo_clock (Some forged_qc) (Some forged_block) forger_sig.

Definition forged_messages : list Message :=
  (MViewChange <$> (forged_vc <$> [1; 3; 4])) ++ [MNewView forged_nv; MProposal forged_child].
Definition forged_table : list (bytes * bytes) := signatures_of forged_messages.
Definition forged_crypto : CryptoService := table_crypto forged_table.
Definition forged_laws : @CryptoLaws forged_crypto := table_laws forged_table.
Definition forged_codecs : Codecs := table_codecs forged_messages.
#[local] Existing Instance forged_crypto.
#[local] Existing Instance forged_laws.
#[local] Existing Instance forged_codecs.

Definition forged_start : Engine := demo_engine (CS := forged_crypto) tt 104.
Abbreviation forged_run cs := (run_engine (EE := demo_engine_env 4) cs forged_start).

(** Only validator 2 has signed anything. *)
Lemma forged_signer id data : signed id data -> id = demo_id 2.
Proof.
  intros (m & Hm & Hin)%list_elem_of_fmap. injection Hm as -> _.
  repeat (apply elem_of_cons in Hin as [->|Hin]; [reflexivity|]). by apply elem_of_nil in Hin.
Qed.

(** One validator moves the view alone: view changes in the names of the three others,
    all under its own key, make an engine enter the view they name. *)
Theorem forged_view_change :
  (forall id data, signed id data -> id = demo_id 2) /\
  pm_currentView (pacemaker forged_start) = 104 /\
  pm_currentView (pacemaker (forged_run [eng_receive 0 TypeViewChange; eng_receive 1 TypeViewChange;
    eng_receive 2 TypeViewChange])) = 105.
Proof. split; [exact forged_signer|]. split; vm_compute; reflexivity. Qed.

(** One validator, leading the next view, makes a certificate out of nothing. Its
    new-view carries a certificate with the names of three validators, of whom two
    have signed nothing; the engine locks on it. Once the engine has synchronised
    its pacemaker with the lock, the certificate passes validation, and the engine
    votes for a proposal that extends the block it certifies. *)
Theorem forged_certificate_accepted :
  let poisoned := forged_run [eng_receive 3 TypeNewView] in
  let synced := forged_run [eng_receive 3 TypeNewView; CRecover demo_clock] in
  let voted := forged_run [eng_receive 3 TypeNewView; CRecover demo_clock; eng_receive 4 TypeProposal] in
  (forall id data, signed id data -> id = demo_id 2) /\ (KeyID <$> Signatures forged_qc) = demo_id <$> [1; 2; 3] /\
  lockedQC (hotstuff poisoned) = Some (MessagesQC forged_qc) /\
  (ValidateQC (VS := configured demo_ids) demo_clock false (Some forged_qc) (hs_validator (hotstuff synced))).1 = Ok tt /\
  (v_BlockHash <$> sent_votes (hotstuff voted)) = [forged_hash].
Proof. cbv zeta. split; [exact forged_signer|]. split_and!; vm_compute; reflexivity. Qed.
