(* ===== verification/Interleaving.v ===== *)
(** Handlers of the pacemaker that interleave (backend/pkg/consensus/leader/leader.go):
    a handler releases the pacemaker's lock before it advances, and again while the
    callback moves the HotStuff core, so other handlers run in between. *)
From S2P Require Import Prelude Bytes GoTime GoFloat Messages Interfaces Encoder Validation Quorum.
From S2P Require Import ConsensusStorage HotStuff HotStuffInv Validators Rotation Pacemaker PacemakerRuns Wire.
From S2P Require Import Heartbeat Activation Engine EngineInv EngineRuns EngineSafety EngineDemo.

(** A goroutine between two critical sections: about to act on what its handler
    decided, about to run the callback of [advanceView], or about to restore what
    [advanceView] saved since the callback failed. The last field of [Entered] is the
    view of the certificate a catch-up message follows. *)
Inductive thread :=
| Waiting (now : Time) (next : pm_next)
| Entered (now : Time) (s : snapshot) (newView : Z) (qc : option IQC) (catchup : option Z)
| Refused (s : snapshot).

(** The handlers that leave something to do. *)
Inductive pm_handler :=
| RunViewChange (now : Time) (r : Rotation) (all : list ValidatorInfo) (vc : ViewChangeMsg)
| RunNewView (now : Time) (r : Rotation) (all : list ValidatorInfo) (nv : NewViewMsg)
| RunQC (now : Time) (qc : IQC).

Section interleaving.
Context {CS : CryptoService} {C : LRU bytes bool} {B : StorageBackend} {EE : EngineEnv}.

Definition istate : Type := list thread * Pacemaker * HotStuff.

Definition locked_part (h : pm_handler) (hs : HotStuff) (pm : Pacemaker) : Time * (pm_next * Pacemaker) :=
  match h with
  | RunViewChange now r all vc => (now, OnViewChange_locked (Env := pacemaker_view hs) now r all vc pm)
  | RunNewView now r all nv => (now, OnNewView_locked r all nv pm)
  | RunQC now qc => (now, OnQC_locked qc pm)
  end.

(** The next critical section of a goroutine, and what it has left to do then. *)
Definition resume (t : thread) (pm : Pacemaker) (hs : HotStuff) : list thread * Pacemaker * HotStuff :=
  match t with
  | Waiting now next =>
      match next with
      | Return _ => ([], pm, hs)
      | Lead v =>
          match collect_new_view (Env := pacemaker_view hs) now v pm with
          | (Ok qc, pm) => ([Waiting now (Advance v qc)], pm, hs)
          | (Err _, pm) => ([], pm, hs)
          end
      | Advance v qc => ([Entered now (take_snapshot pm) v qc None], begin_advance now v qc pm, hs)
      | AdvanceOnQC qc =>
          let v := u64 (q_View (iqc qc) + 1) in
          ([Entered now (take_snapshot pm) v (Some qc) (Some (q_View (iqc qc)))], begin_advance now v (Some qc) pm, hs)
      | CatchUp o n => ([], broadcastCatchupViewChange (Env := pacemaker_view hs) now o n true pm, hs)
      end
  | Entered now s v qc catchup =>
      let '(r, hs') := AdvanceView v qc hs in
      match r, catchup with
      | Err _, _ => ([Refused s], sent (CalledViewChange v qc) pm, hs')
      | Ok _, None => ([], (end_advance (Env := pacemaker_view hs) s v qc pm).2, hs')
      | Ok _, Some o =>
          let pm := (end_advance (Env := pacemaker_view hs) s v qc pm).2 in
          ([], broadcastCatchupViewChange (Env := pacemaker_view hs) now o v (hasRecentStalePeers now v pm) pm, hs')
      end
  | Refused s => ([], restore s pm, hs)
  end.

(** A handler starts, a goroutine goes on, or the timer fires. *)
Inductive istep : istate -> istate -> Prop :=
| i_begin h ts pm hs now next pm' :
    locked_part h hs pm = (now, (next, pm')) -> istep (ts, pm, hs) (ts ++ [Waiting now next], pm', hs)
| i_resume ts1 t ts2 pm hs left pm' hs' :
    resume t pm hs = (left, pm', hs') -> istep (ts1 ++ t :: ts2, pm, hs) (ts1 ++ left ++ ts2, pm', hs')
| i_timeout now ts pm hs :
    istep (ts, pm, hs) (ts, (handleTimeout (Env := pacemaker_view hs) now pm).2, hs).

(** ** The pacemaker never stays ahead of the core *)

Definition entered_view (t : thread) : option Z := match t with Entered _ _ v _ _ => Some v | _ => None end.
Definition snapshot_view (t : thread) : option Z :=
  match t with Waiting _ _ => None | Entered _ s _ _ _ | Refused s => Some (sn_view s) end.

(** The core has reached the view, or a goroutine is about to tell it. *)
Definition covered (ts : list thread) (hs : HotStuff) (v : Z) : Prop :=
  v <= currentView hs \/ exists t, t ∈ ts /\ entered_view t = Some v.

Definition icovered (s : istate) : Prop :=
  covered s.1.1 s.2 (pm_currentView s.1.2) /\
  forall t v, t ∈ s.1.1 -> snapshot_view t = Some v -> covered s.1.1 s.2 v.

Lemma covered_weaken ts ts' hs hs' v :
  currentView hs <= currentView hs' -> (forall t, t ∈ ts -> is_Some (entered_view t) -> t ∈ ts') -> covered ts hs v -> covered ts' hs' v.
Proof.
  intros H1 H2 [H|(t & Ht & Hv)]; [left; lia|]. right. exists t. split; [apply H2; [done|by exists v]|done].
Qed.

Lemma AdvanceView_reaches v q hs : v <= currentView (AdvanceView v q hs).2 /\ currentView hs <= currentView (AdvanceView v q hs).2.
Proof.
  pose proof (AdvanceView_view v q hs) as H. unfold AdvanceView in *. destruct (Z.leb_spec v (currentView hs)); [cbn; lia|].
  destruct q as [q|]; [|cbn in *; lia]. destruct (match lockedQC hs with None => _ | Some _ => _ end); cbn in *; lia.
Qed.

Lemma locked_part_view h hs pm : pm_currentView (locked_part h hs pm).2.2 = pm_currentView pm.
Proof.
  destruct h; cbn; [|done..]. unfold OnViewChange_locked. destruct (_ <=? _).
  - destruct (_ <? _); [|done]. by destruct (0 <? _).
  - destruct (negb _); [done|]. by destruct (IsLeader_ _ _ _ _) as [[]|].
Qed.

Lemma silent_view (hs : HotStuff) pm pm' : (forall Q, silent Q pm pm') -> pm_currentView pm' = pm_currentView pm.
Proof.
  intros H. destruct (H (fun _ => True)) as (_ & Hv & _); [|done]. constructor; [by intros q _|by intros v id vc _ q _].
Qed.

(** What a resumed goroutine leaves: its view is known to the core, or it is the
    one that will tell it. *)
Lemma resume_covered t pm hs left pm' hs' :
  resume t pm hs = (left, pm', hs') ->
  currentView hs <= currentView hs' /\
  (forall v, entered_view t = Some v -> v <= currentView hs') /\
  (pm_currentView pm' = pm_currentView pm \/ snapshot_view t = Some (pm_currentView pm') \/
   exists u, u ∈ left /\ entered_view u = Some (pm_currentView pm')) /\
  (forall u v, u ∈ left -> snapshot_view u = Some v -> v = pm_currentView pm \/ snapshot_view t = Some v).
Proof.
  destruct t as [now [r|v|v qc|qc|o n]|now s v qc catchup|s]; cbn [resume].
  - intros [= <- <- <-]. split_and!; [lia|done|by left|by intros u v ?%elem_of_nil].
  - pose proof (silent_view hs _ _ (fun Q => proj1 (collect_silent (Env := pacemaker_view hs) Q now v pm))) as Hs.
    destruct (collect_new_view now v pm) as [[qc|e] pm1]; cbn [snd] in Hs; intros [= <- <- <-];
      (split_and!; [lia|done|by left|]); [by intros u w ->%list_elem_of_singleton|by intros u w ?%elem_of_nil].
  - intros [= <- <- <-]. split_and!; [lia|done| |].
    + right. right. eexists. split; [by left|]. cbn [entered_view]. f_equal. symmetry. apply begin_advance_keeps.
    + intros u w ->%list_elem_of_singleton. intros [= <-]. by left.
  - intros [= <- <- <-]. split_and!; [lia|done| |].
    + right. right. eexists. split; [by left|]. cbn [entered_view]. f_equal.
      symmetry. apply begin_advance_keeps.
    + intros u w ->%list_elem_of_singleton. intros [= <-]. by left.
  - intros [= <- <- <-]. split_and!; [lia|done|left|by intros u w ?%elem_of_nil].
    apply (silent_view hs). intros Q. apply broadcast_silent.
  - destruct (AdvanceView_reaches v qc hs) as [H1 H2].
    assert (Hend : match (AdvanceView v qc hs).1 with Ok _ => True | Err _ => False end ->
      pm_currentView (end_advance (Env := pacemaker_view hs) s v qc pm).2 = pm_currentView pm).
    { unfold end_advance. cbn [callbacks pacemaker_view cb_OnViewChange].
      destruct (AdvanceView v qc hs).1; [|done]. intros _. cbn [snd]. by destruct (EnableAIMD _). }
    destruct (AdvanceView v qc hs) as [[[]|e] hs1]; cbn [fst snd] in *; destruct catchup as [o|]; intros [= <- <- <-];
      (split_and!; [lia|by intros w [= <-]| |]);
      try (by intros u w ?%elem_of_nil); try (by left); try (by intros u w ->%list_elem_of_singleton [= <-]; right);
      left; rewrite ?(silent_view hs _ _ (fun Q => broadcast_silent (Env := pacemaker_view hs) Q _ _ _ _ _)); by apply Hend.
  - intros [= <- <- <-]. split_and!; [lia|done|by right; left|by intros u w ?%elem_of_nil].
Qed.

Lemma icovered_step s s' : istep s s' -> icovered s -> icovered s'.
Proof.
  intros Hstep [Hv Hs]. destruct Hstep as [h ts pm hs now next pm' Hl|ts1 t ts2 pm hs left pm' hs' Hr|now ts pm hs]; cbn in *.
  - pose proof (locked_part_view h hs pm) as Hsame. rewrite Hl in Hsame. cbn in Hsame. split; cbn.
    + rewrite Hsame. eapply covered_weaken; [reflexivity| |exact Hv]. intros t Ht _. apply elem_of_app. by left.
    + intros t v [Ht|Ht%list_elem_of_singleton]%elem_of_app Hsv; [|by subst].
      eapply covered_weaken; [reflexivity| |by eapply Hs]. intros u Hu _. apply elem_of_app. by left.
  - destruct (resume_covered t pm hs left pm' hs' Hr) as (H1 & H2 & H3 & H4).
    assert (Hcov : forall v, covered (ts1 ++ t :: ts2) hs v -> covered (ts1 ++ left ++ ts2) hs' v).
    { intros v [Hle|(u & Hu & Huv)]; [left; lia|]. rewrite elem_of_app, elem_of_cons in Hu.
      destruct Hu as [Hu|[->|Hu]]; [|left; by apply H2|]; right; exists u; (split; [|done]); rewrite !elem_of_app; tauto. }
    assert (Hold : forall u v, u ∈ ts1 ++ t :: ts2 -> snapshot_view u = Some v -> covered (ts1 ++ left ++ ts2) hs' v)
      by (intros u v Hu Huv; apply Hcov; by eapply Hs).
    split; cbn.
    + destruct H3 as [->|[Ht|(u & Hu & Huv)]]; [by apply Hcov|apply (Hold t); [|done]; rewrite elem_of_app, elem_of_cons; tauto|].
      right. exists u. split; [|done]. rewrite !elem_of_app. tauto.
    + intros u v Hu Huv. rewrite !elem_of_app in Hu. destruct Hu as [Hu|[Hu|Hu]].
      * apply (Hold u); [|done]. rewrite elem_of_app. by left.
      * destruct (H4 u v Hu Huv) as [->|Ht]; [by apply Hcov|]. apply (Hold t); [|done]. rewrite elem_of_app, elem_of_cons. tauto.
      * apply (Hold u); [|done]. rewrite elem_of_app, elem_of_cons. tauto.
  - split; cbn; [|done].
    rewrite (silent_view hs _ _ (fun Q => handleTimeout_silent (Env := pacemaker_view hs) Q now pm)). exact Hv.
Qed.

(** C11. However handlers interleave, once every goroutine is done the pacemaker is in no
    later view than the core. (It can be left in an earlier one: see
    [pacemaker_left_behind].) *)
Theorem pacemaker_not_ahead (pm pm' : Pacemaker) (hs hs' : HotStuff)
    (Hstart : pm_currentView pm <= currentView hs) (Hrun : rtc istep ([], pm, hs) ([], pm', hs')) :
  pm_currentView pm' <= currentView hs'.
Proof.
  assert (H0 : icovered ([], pm, hs)) by (split; [by left|by intros t v Ht%elem_of_nil]).
  remember ([], pm, hs) as s eqn:Es. remember ([], pm', hs') as s' eqn:Es'. clear Es. revert Es'.
  induction Hrun as [s|s s1 s' Hstep Hrest IH]; intros ->; [|apply IH; [by eapply icovered_step|done]].
  destruct H0 as [[H|(t & Ht & _)] _]; [exact H|by apply elem_of_nil in Ht].
Qed.

(** ** Schedules *)

Inductive action := Begin (h : pm_handler) | Resume (i : nat).

Definition act (a : action) (s : istate) : istate :=
  let '(ts, pm, hs) := s in
  match a with
  | Begin h => let '(now, (next, pm')) := locked_part h hs pm in (ts ++ [Waiting now next], pm', hs)
  | Resume i =>
      match ts !! i with
      | Some t => let '(rest, pm', hs') := resume t pm hs in (take i ts ++ rest ++ drop (S i) ts, pm', hs')
      | None => s
      end
  end.
Definition schedule (acts : list action) (s : istate) : istate := foldl (fun s a => act a s) s acts.

Lemma schedule_steps acts s : rtc istep s (schedule acts s).
Proof.
  revert s. induction acts as [|a acts IH]; intros s; [done|]. cbn. etrans; [|apply IH].
  destruct s as [[ts pm] hs], a as [h|i]; cbn.
  - destruct (locked_part h hs pm) as [now [next pm']] eqn:Hl. apply rtc_once. by eapply i_begin.
  - destruct (ts !! i) as [t|] eqn:Hi; [|done]. destruct (resume t pm hs) as [[left pm'] hs'] eqn:Hr.
    apply rtc_once. rewrite <- (take_drop_middle ts i t Hi) at 1. by apply i_resume.
Qed.

Lemma schedule_done acts s :
  (schedule acts s).1.1 = [] -> rtc istep s ([], (schedule acts s).1.2, (schedule acts s).2).
Proof.
  intros H. pose proof (schedule_steps acts s) as Hs. destruct (schedule acts s) as [[ts pm] hs]. cbn in *. by subst ts.
Qed.
End interleaving.

(** ** Two advances that cross *)

#[local] Existing Instance eng_crypto.
#[local] Existing Instance eng_codecs.

Definition il_pm : Pacemaker := SetCurrentView demo_clock 101 (NewPacemaker None).
Definition il_core : @HotStuff eng_crypto map_LRU null_backend := demo_core (CS := eng_crypto) tt 101.

(** A new-view by the leader of a view. *)
Definition il_new_view (view leader : Z) : pm_handler :=
  RunNewView demo_clock demo_rotation demo_infos
    (MkNV view ((fun i => demo_vc i view) <$> [1; 2; 3]) None (be_put 32 leader) demo_clock []).

(** Both handlers pass their checks; that of view 103 saves view 101 and that of view
    105 saves view 103; the callback of view 105 runs first. *)
Abbreviation il_schedule :=
  [Begin (il_new_view 103 4); Begin (il_new_view 105 2); Resume 0; Resume 1; Resume 1; Resume 0; Resume 0].
Abbreviation il_end := (schedule (EE := demo_engine_env 4) il_schedule ([], il_pm, il_core)).


(** The callback of the older view fails and its handler gives back the view it saved,
    undoing the newer advance: with every handler finished, the core is in view 105
    and the pacemaker in view 101. *)
Theorem pacemaker_left_behind :
  rtc (istep (EE := demo_engine_env 4)) ([], il_pm, il_core) il_end /\
  il_end.1.1 = [] /\ pm_currentView il_pm = currentView il_core /\
  pm_currentView il_end.1.2 = 101 /\ currentView il_end.2 = 105.
Proof. split; [apply schedule_steps|]. split_and!; vm_compute; reflexivity. Qed.

Lemma pacemaker_not_ahead_witness :
  pm_currentView il_end.1.2 = 101 /\ pm_currentView il_end.1.2 <= currentView il_end.2.
Proof.
  split; [vm_compute; reflexivity|].
  apply (pacemaker_not_ahead (EE := demo_engine_env 4) il_pm il_end.1.2 il_core il_end.2).
  - vm_compute. discriminate.
  - apply (schedule_done (EE := demo_engine_env 4)). vm_compute. reflexivity.
Defined.
